(* ===== verification/_CoqProject ===== *)
-Q . S2P
Prelude.v
RawSerial.v
Tlv.v
TlvSets.v
RsExpr.v
RsExprProps.v
Turtle.v
TurtleNet.v
TurtleFlood.v
TurtleProps.v
TurtleClean.v
StdMap.v
NetAddr.v
BanList.v
BanListProps.v
BanListRun.v
BanListState.v
TlvAddrs.v
U256.v
ChaCha20.v
ConnectState.v
QoS.v
Serialiser.v
Streamer.v
StreamerProps.v
Session.v
StreamerSafety.v
ChunkMap.v
ChunkMapProps.v
ChunkMapRun.v
ChunkMapSafe.v
Download.v
TcpPacket.v
TcpStream.v
TcpStreamProps.v
TcpInvariant.v
TcpConn.v
TcpFacts.v
Nxs.v
NxsTrans.v
NxsSync.v
NxsViews.v
NxsRun.v
NxsExchange.v
NxsProps.v
NxsLive.v
NxsDemo.v
Lobby.v
LobbyProps.v
LobbyRun.v
LobbyNet.v
LobbyMeet.v
LobbySave.v
