(* ===== verification/Prelude.v ===== *)
(** * libretroshare: a verification development

    libretroshare is the core of RetroShare, a friend-to-friend network.  Nodes hold encrypted connections to
    their friends only; over these, services exchange items (chat, mail, forums, files).  This library models, in the order
    in which data flows through them, the parts of the C++ code under src/src/ that do this work without files,
    sockets or threads of their own, and proves what makes them correct.  Every definition is executable and
    keeps the name of the function it translates.

    ** The program and the files that model it

    - [RawSerial] (serialiser/rsbaseserial.cc): integers, times, floats and strings in a byte buffer.  A getter or setter
      works on the allocated bytes, the size the caller claims and an offset; a copy outside the bytes is the
      outcome [Oob].  The class [RawCodec] is the contract of a pair; sequences of fields are handled against the
      class.
    - [Tlv] (serialiser/rstlvbase.cc): type-length-value fields - integers, strings with the filter against XML bombs and the
      cleaning of what is read, addresses - on the same buffers; [TlvSets] (rstlvstring.cc, rstlvkeyvalue.cc): sets of
      strings, pairs and sets of pairs, whose readers loop.
    - [RsExpr] (util/rsexpr.cc, retroshare/rsexpr.h, turtle/rsturtleitem.cc): the boolean search expressions of turtle
      searches - evaluation, printing, flattening into three vectors, the encoding of these, and rebuilding from what a
      friend sends.  [RsExprProps] has the theorems.
    - [Turtle] (turtle/p3turtle.cc, p3turtle.h, turtlestatistics.h, rsturtleitem.h): the router of one node - searches and
      tunnel requests forwarded to friends, tunnels built from the answers, data passed along them, the washing of
      old entries, configuration.  The maps of [p3turtle] are the fields of one record.  The client services are a
      class ([RsTurtleClientService]); friends, clock, random numbers and their like are the record
      [turtle_env], the power functions of the C library arguments.  [TurtleNet] runs a network of such nodes, [TurtleFlood] bounds a flood of requests, [TurtleProps]
      has what holds in every state of a router, [TurtleClean] what washing does.
    - [StdMap]: [std::map] with a comparison of its own, as ordered lists; keys that the comparison does not tell apart are
      one key.  [NetAddr] (util/rsnet_ss.cc, rsnet.cc): network addresses of both families - setting, converting, comparing,
      classifying - and their use as keys.
    - [BanList] (services/p3banlist.cc): which addresses may connect - reports by source, the condensed set, ranges of the
      user and automatic ones, exchange with friends and the DHT, configuration.  [BanListProps] has the condensed set
      and the ranges of the user, [BanListRun] automatic ranges and reports of friends, [BanListState] the states of the
      service, saving and loading.
    - [TlvAddrs] (serialiser/rstlvaddrs.cc, rstlvbanlist.cc, rstlvlist.h): address items, entries of the ban list, and the
      template of lists of items, against the class [TlvClass] of its items.
    - [Serialiser] (serialiser/rsserial.cc, rsserial.h): packet types, the 8-byte header and the registry
      [RsSerialiser] that sends items and packets to the serialiser of their type.  Serialisers are virtual in the code:
      here a record of operations, with their promises in the class [SerialLaws].
    - [QoS] (pqi/pqiqos.cc, pqiqos.h): ten FIFO queues of serialised items, served by credit counters in single
      precision, which hands out whole items or slices of them.
    - [Streamer] (pqi/pqistreamer.cc, pqiqosstreamer.cc): [pqiQoSstreamer] packs slices from the queue into packets,
      writes them to its connection, reads packets, glues slices and passes items on.  The connection ([BinInterface]) is a
      class; every access to the packet under construction and to the read buffer is checked, and an invalid one
      is the outcome [Fault]; [Exit] is the end of the process in [rs_malloc].  [StreamerProps] holds the lemmas on both
      directions, [Session] joins two streamers by a pipe, [StreamerSafety] has what holds of a single streamer.
    - [U256], [ChaCha20] (crypto/chacha20.cpp): 256-bit integers as eight words, the stream cipher, the Poly1305
      authenticator and both AEAD constructions used for file tunnels.  HMAC-SHA256 and the constant-time comparison
      are OpenSSL's and are parameters.
    - [ConnectState] (dht/connectstatebox.cc): the state machine that chooses how to connect to a friend found
      in the DHT, with the clock and the random numbers as arguments.
    - [TcpPacket], [TcpStream] (tcponudp/tcppacket.cc, tcpstream.cc): the small TCP that carries connections through
      NATs.  [TcpStream] is the whole class: opening, writing, reading, receiving, acknowledging, retransmitting,
      closing; datagrams handed to the UDP layer are collected in [sent].  [TcpStreamProps] and [TcpInvariant] prove that
      every operation keeps the invariant [end_ok] of one end; [TcpConn] joins two ends by a network that may
      lose, repeat and reorder; [TcpFacts] has what one end does with a packet or a timer, and two runs that go wrong.
    - [ChunkMap] (ft/ftchunkmap.cc, retroshare/rstypes.h): the chunks of a file being downloaded, who is asked for which
      slice, checking, sources and bitmaps.  [ChunkMapProps] and [ChunkMapRun] prove that each operation keeps
      the invariant, [ChunkMapSafe] what is left of it when files are checked or bitmaps loaded in the middle of a download;
      [Download] runs sequences of operations and a whole download.

    - [Nxs], [NxsTrans], [NxsSync] (gxs/rsgxsnetservice.cc, rsgxsnetservice.h, rsgxsnetutils.cc, rsitems/rsnxsitems.h,
      rsgxsupdateitems.h): the service that synchronises groups and their messages with friends.  [Nxs] has the items, the
      transactions, the state of [RsGxsNetService] as one record, its time stamps, settings and configuration; [NxsTrans]
      the transactions - opened, filled by what comes in, moved on, and what is done with the finished ones - and
      [NxsSync] the answers to requests for lists, who may get what, what waits for a circle, statistics, publish keys, and the
      turns of both threads, [tick] and [threadTick].  The data store, the identities, the circles, the reputations,
      the encryption, the clock and the tunnels are the record [nxs_env]: every turn may find them changed.
      [NxsViews] shows that every operation leaves the transactions of others alone, [NxsRun] runs both threads,
      [NxsExchange] follows one synchronisation through both nodes, [NxsLive] shows when runs return and what arrives in
      them, [NxsProps] has the other theorems and [NxsDemo] two small nodes on which the theorems are used.

    - [Lobby] (chat/distributedchat.cc, distributedchat.h, rschatitems.h): chat rooms without a server - messages and events that bounce from
      friend to friend, the flood check, lists, invitations, challenges, joining and leaving, the regular round, configuration.  The maps of
      [DistributedChatService] and the static variables of its functions are the fields of one record; the clock, friends, identities,
      signatures and what is drawn at random are the record [chat_env].  [LobbyProps] has what every operation leaves of the messages seen,
      [LobbyRun] a node over time, [LobbyNet] a message on its way through a network, [LobbyMeet] how two friends connect, [LobbySave]
      the configuration.

    [Prelude] has what they share: record update, machine integers ([wrap], [u32], [sint32], and setoid rewriting modulo
    2^w), bytes in both orders, floating point on the Standard Library's [SpecFloat], slices of lists and small
    tactics.  The items an application submits become bytes by [Serialiser], wait in [QoS], leave through [Streamer] over
    a connection, which may be a [TcpStream]; [ConnectState] decides which connections are tried.  File data travels in
    such items; [ChunkMap] decides which data; between nodes that are not friends they go through the tunnels of [Turtle].  The
    items of [Nxs] travel the same way, between friends or through tunnels, and those of [Lobby] between friends.

    ** Conventions

    A w-bit word is a [Z] in range, with every wrap-around written out.  Objects are records passed through the
    operations; output parameters are components of the result; clocks and random numbers are arguments.  Mutexes are left
    out: the operations modelled run under one.  Messages to [std::cerr] and the debug code are left out.

    ** What the theorems show

    - Delivery: two streamers deliver each level's items in order and once each under every schedule
      ([session_delivers]), and everything submitted gets there ([session_completes]); the queue reassembles
      ([qos_drain_reassembles], [qos_refines_fifos]) and its counters are exact ([queue_accounting]).
    - Streams over UDP: what is read is a prefix of what was written at the other end over a lossy, repeating, reordering
      network ([tcp_stream_prefix]), a packet in sequence is taken at once and an unacknowledged one is sent again
      ([recvPkt_in_order], [retransmit_oldest]).
    - Memory safety against any peer: [receiver_memory_safe], as long as packets put together stay below 4 GB, and beyond that not
      ([oversized_packet_overruns]); [deserialise_safe], [getRawString_safe]; what is read outside a
      packet otherwise ([GetTlvString_outcome]).
    - Encodings: the round trips of fields, TLV items, items, packets, bitmaps and searches; what cleaning does to a
      string ([clean_string_stable]); that readers end ([toExpr_terminates], [tlv_list_ends]) or do not ([unknown_zero_field_loops]); what a
      search means ([evalStr_meaning], [numeric_tests_exact]).
    - Tunnels: a request answered along a chain of nodes leaves a tunnel at each ([tunnel_established]) and what is then
      put in at one end arrives at the other ([tunnel_carries_data]); a flood of requests ends ([tunnel_requests_end]) and a
      node sends each on once ([tunnel_request_sent_once]); states stay well formed ([router_states]), hits are bounded
      ([hits_sent_bounded]), and washing removes what is too old and nothing else ([autoWash_spec]).
    - Banned addresses: the condensed set is what the reports say ([condense_spec]); banning or allowing a range changes exactly
      what it covers ([addIpRange_verdict]); automatic ranges ([auto_ranges_spec]); what a friend's report can do
      ([friend_report_decides]); every state is well formed ([ban_states]); what saving and loading keeps, moves
      and loses ([ban_save_load]).  Addresses are
      proper keys ([sockaddr_map_keys]) and are classified by their octets ([address_classes]).
    - Groups and messages: a list, the request for what is wanted of it and the messages sent are exactly what they ought to be
      ([message_exchange]); a transaction depends on nothing but its own items, confirmations and turns
      ([transactions_independent]), and one that is announced and sent within its time limit is handed on whole, unless a turn
      on the way meets something it cannot get past ([messages_arrive]); a list goes
      only to who may have it ([list_only_to_entitled]), the messages to whoever names them ([messages_for_the_asking]);
      what is posted while a list is out ([posted_meanwhile_waits]); when the loops over finished transactions end
      ([finished_transactions_return]) and do not ([foreign_item_stops_worker], [unsendable_list_stops_worker]); what a
      confirmation can do ([any_friend_ends_transaction]); what is saved ([nxs_save_load]).
    - Chat lobbies: what is said reaches everyone who can be reached, once, in bounded time ([lobby_flood]), and is shown a second time only
      if it claims to come from the future ([accepted_once]); joining and challenges make two friends count each other in
      ([joining_connects], [challenge_connects]); what is saved comes back ([lobby_settings_roundtrip]).
    - Cryptography: the word arithmetic refines the integers ([uint256_refines_Z]), the tag is RFC 7539's
      ([poly1305_tag_correct], [aead_tag_rfc7539]), encryption inverts.
    - State machines: reachable states of the connection box and progress to giving up; downloads: no access out of bounds
      whatever is called, exact books when checks wait for what is under way ([download_invariant]), freshness and termination.
    - Where the code goes wrong, a run or an exact condition is proved: [zero_length_slice_exits],
      [oversized_item_double_free], [undersized_packet_negative_read], [reconnect_reads_stale_header],
      [force_check_underflow], [synrcvd_skips_data], [big_packet_repeats_chunk], [firewalled_never_skips_proxy],
      [uint256_division], [empty_search_ends_process], [foreign_answer_stops_digging], [zero_message_no_challenge],
      [throttled_message_lost].

    ** Bounds and fuel

    Loops over a list or a counter are structural.  The others have fuel: [fill_packet] 1401 turns, more than the 1400
    bytes below which it goes on, each turn adding at least one byte; the loops of the streamer's ticks run for the number
    of turns that is their argument, which stands for the time slice of the real tick, and the theorems hold for
    every value; [check_loop] one pass more than the packets waiting, each pass removing one
    ([check_InPkts_exhausts]); [cut_buffers] the length of the data; the requests of a download the number of missing
    bytes ([download_completes]); [toExpr] one more than the tokens ([toExpr_terminates]); the readers of [TlvSets] may
    not end at all, and [None] is their fuel running out; those of [TlvAddrs] end with the bytes ([tlv_list_ends]).  A run of a network has as fuel the number of messages it
    may handle: the length of the path for [tunnel_established], a bound computed from the depth limit for
    [tunnel_requests_end].  Closing tunnels takes one turn more than the list of hashes is long ([removed_tunnel]).  Draining the queue takes at most one call per byte ([qos_drain_reassembles]).
    The loops of [threadTick] that empty finished transactions and the list of what waits for a circle have fuel because the code
    can loop for ever there; one turn per item and one more is enough whenever they end ([finished_transactions_return]),
    and one per list that waits and one more when what is encrypted can be ([run_vets_returns]).
    Where a lobby or a message draws a number until it is a free one, the numbers drawn are an argument, and [None] says that they do not suffice.
    [tcp_stream_prefix] is stated up to 2 GiB written at each end, half of the space of sequence numbers; downloads up to
    2^51 bytes, where the number of chunks fits its 32-bit type.

    ** Not modelled

    Code that drives sockets, files, threads or other libraries (pqissl, ftserver, the GXS stores, PGP, Tor,
    UPnP, the JSON API) has no state machine that could be separated from them here.  The EVP wrappers of chacha20.cpp only call
    OpenSSL.  Of pqistreamer.cc the rates, the status, the destructor and the plain list queue of the base class are left
    out; of tcpstream.cc the status; of p3turtle.cc the saved list (a float printed with %g), the dumps and statistics
    for display, and the encryption of items, which is OpenSSL's; of the addresses the conversions to and from text, name lookup and
    socket options, which are the operating system's; of the ban list the printing.  Of rsgxsnetservice.cc
    the search for groups through tunnels, the insides of the encryption (OpenSSL) and the splitting of messages into
    fragments, which is compiled out; the publication and validation of groups (rsgenexchange) and the SQL store behind
    them are its environment.  Of the lobbies the statistics of time shifts, which only post an event; what p3ChatService does to a message before
    (joining parts, a limit of size) and after is its own.  Not modelled either: global routing, private chat,
    the net state box, the file creator and the TLV items of keys, files and identifiers. *)

From Stdlib Require Import ZArith Lia SpecFloat Ascii String.
From stdpp Require Import base list gmap sorting.

Declare Scope rs_scope.
Delimit Scope rs_scope with rs.
Open Scope Z_scope.

(** ** Record update

    [r <| f := v |>] is [r] with field [f] replaced by [v].  A record takes part
    by declaring its eta expansion as an instance of [Eta]. *)

Class Eta (R : Type) := eta : R -> R.

Class Setter {R A : Type} (get : R -> A) := upd : (A -> A) -> R -> R.
Arguments upd {R A} get {_} f r.

Ltac mk_setter get :=
  lazymatch type of get with
  | ?R -> ?A =>
    let h := constr:(_ : Eta R) in
    let e := eval hnf in h in
    exact (fun (f : A -> A) (r : R) =>
      ltac:(let b := eval cbv beta in (e r) in
            let p := eval pattern (get r) in b in
            lazymatch p with
            | ?g _ => let t := eval cbv beta in (g (f (get r))) in exact t
            end))
  end.

#[export] Hint Extern 1 (Setter ?get) => mk_setter get : typeclass_instances.

Notation "r <| f := v |>" := (upd f (fun _ => v) r)
  (at level 1, f at next level, left associativity,
   format "r <| f  :=  v |>") : rs_scope.
Open Scope rs_scope.

(** ** Machine words

    A w-bit unsigned integer is a [Z] in [0, 2^w); every C operation that can
    leave that range is followed by the conversion that C performs. *)

Definition wrap (w z : Z) : Z := z mod 2 ^ w.

Abbreviation u8 := (wrap 8).
Abbreviation u16 := (wrap 16).
Abbreviation u32 := (wrap 32).
Abbreviation u64 := (wrap 64).

(** [(int) x] for a 32-bit pattern [x] (two's complement). *)
Definition sint32 (z : Z) : Z :=
  let x := wrap 32 z in if x <? 2 ^ 31 then x else x - 2 ^ 32.

(** Conversion to a signed 64-bit integer ([rstime_t]). *)
Definition sint64 (z : Z) : Z :=
  let x := wrap 64 z in if x <? 2 ^ 63 then x else x - 2 ^ 64.

Definition is_word (w z : Z) : Prop := 0 <= z < 2 ^ w.
Abbreviation is_byte := (is_word 8).
Abbreviation bytes_ok := (Forall (is_word 8)).

Lemma wrap_range w z : 0 <= w -> 0 <= wrap w z < 2 ^ w.
Proof. intros Hw. apply Z.mod_pos_bound. lia. Qed.

Lemma wrap_is_word w z : 0 <= w -> is_word w (wrap w z).
Proof. apply wrap_range. Qed.

Lemma wrap_small w z : is_word w z -> wrap w z = z.
Proof. intros H. apply Z.mod_small, H. Qed.

Lemma wrap_wrap w z : wrap w (wrap w z) = wrap w z.
Proof. apply Zmod_mod. Qed.

Lemma wrap_add_l w x y : wrap w (wrap w x + y) = wrap w (x + y).
Proof. apply Zplus_mod_idemp_l. Qed.

Lemma wrap_add_r w x y : wrap w (x + wrap w y) = wrap w (x + y).
Proof. apply Zplus_mod_idemp_r. Qed.

Lemma wrap_sub_l w x y : wrap w (wrap w x - y) = wrap w (x - y).
Proof. apply Zminus_mod_idemp_l. Qed.

Lemma wrap_sub_r w x y : wrap w (x - wrap w y) = wrap w (x - y).
Proof. apply Zminus_mod_idemp_r. Qed.

Lemma wrap_mul_l w x y : wrap w (wrap w x * y) = wrap w (x * y).
Proof. apply Zmult_mod_idemp_l. Qed.

Lemma wrap_mul_r w x y : wrap w (x * wrap w y) = wrap w (x * y).
Proof. apply Zmult_mod_idemp_r. Qed.

Lemma wrap_opp_sub w x y : wrap w (x - y) = wrap w (x + 2 ^ w - y).
Proof.
  unfold wrap. replace (x + 2 ^ w - y) with (x - y + 1 * 2 ^ w) by lia.
  by rewrite Z_mod_plus_full.
Qed.

(** [wrap w] is a ring morphism modulo [2^w]: equality after [wrap] is a
    congruence, available to setoid rewriting. *)
Definition eqm (w : Z) : relation Z := fun x y => wrap w x = wrap w y.

#[export] Instance eqm_equiv w : Equivalence (eqm w).
Proof. unfold eqm. split; repeat intro; congruence. Qed.

#[export] Instance eqm_add w : Proper (eqm w ==> eqm w ==> eqm w) Z.add.
Proof.
  intros x x' Hx y y' Hy. unfold eqm in *.
  by rewrite <- wrap_add_l, <- wrap_add_r, Hx, Hy, wrap_add_l, wrap_add_r.
Qed.

#[export] Instance eqm_sub w : Proper (eqm w ==> eqm w ==> eqm w) Z.sub.
Proof.
  intros x x' Hx y y' Hy. unfold eqm in *.
  by rewrite <- wrap_sub_l, <- wrap_sub_r, Hx, Hy, wrap_sub_l, wrap_sub_r.
Qed.

#[export] Instance eqm_mul w : Proper (eqm w ==> eqm w ==> eqm w) Z.mul.
Proof.
  intros x x' Hx y y' Hy. unfold eqm in *.
  by rewrite <- wrap_mul_l, <- wrap_mul_r, Hx, Hy, wrap_mul_l, wrap_mul_r.
Qed.

Lemma eqm_wrap w x : eqm w (wrap w x) x.
Proof. apply wrap_wrap. Qed.

Lemma eqm_words w x y : is_word w x -> is_word w y -> eqm w x y -> x = y.
Proof. intros Hx Hy. unfold eqm. by rewrite !wrap_small. Qed.

(** The signed view of a difference of two 32-bit words. *)
Lemma sint32_small z : - 2 ^ 31 <= z < 2 ^ 31 -> sint32 z = z.
Proof.
  intros H. unfold sint32, wrap.
  destruct (decide (0 <= z)).
  - rewrite Z.mod_small by lia. destruct (Z.ltb_spec z (2 ^ 31)); lia.
  - replace (z mod 2 ^ 32) with (z + 2 ^ 32).
    + destruct (Z.ltb_spec (z + 2 ^ 32) (2 ^ 31)); lia.
    + symmetry. rewrite <- (Z_mod_plus_full z 1), Z.mod_small; lia.
Qed.

Lemma sint32_range z : - 2 ^ 31 <= sint32 z < 2 ^ 31.
Proof.
  unfold sint32. pose proof (wrap_range 32 z ltac:(lia)).
  destruct (Z.ltb_spec (wrap 32 z) (2 ^ 31)); lia.
Qed.

#[export] Instance sint32_proper : Proper (eqm 32 ==> eq) sint32.
Proof. intros x y H. unfold sint32. by rewrite H. Qed.

Lemma eqm_sint32 z : eqm 32 (sint32 z) z.
Proof.
  unfold sint32. destruct (Z.ltb_spec (wrap 32 z) (2 ^ 31)).
  - apply eqm_wrap.
  - unfold eqm. rewrite wrap_sub_l. unfold wrap.
    replace (z - 2 ^ 32) with (z + (-1) * 2 ^ 32) by lia.
    by rewrite Z_mod_plus_full.
Qed.

(** Bits of words. *)
Lemma testbit_above w z i : is_word w z -> 0 <= w <= i -> Z.testbit z i = false.
Proof.
  intros [Hz0 Hz] Hi. destruct (decide (z = 0)) as [->|]; [apply Z.bits_0|].
  apply Z.bits_above_log2; [lia|]. apply Z.log2_lt_pow2; [lia|].
  eapply Z.lt_le_trans; [exact Hz|]. apply Z.pow_le_mono_r; lia.
Qed.

Lemma is_word_bits w z :
  0 <= w -> 0 <= z -> (forall i, w <= i -> Z.testbit z i = false) -> is_word w z.
Proof.
  intros Hw Hz H. split; [done|]. destruct (decide (z = 0)) as [->|]; [lia|].
  apply Z.log2_lt_pow2; [lia|]. apply Z.nle_gt. intros Hle.
  pose proof (Z.bit_log2 z ltac:(lia)) as Hb. rewrite H in Hb by done. done.
Qed.

Lemma is_word_lxor w x y : 0 <= w -> is_word w x -> is_word w y -> is_word w (Z.lxor x y).
Proof.
  intros Hw Hx Hy. apply is_word_bits; [done| |].
  - apply Z.lxor_nonneg. unfold is_word in *; lia.
  - intros i Hi. by rewrite Z.lxor_spec, !(testbit_above w) by (done || lia).
Qed.

Lemma is_word_lor w x y : 0 <= w -> is_word w x -> is_word w y -> is_word w (Z.lor x y).
Proof.
  intros Hw Hx Hy. apply is_word_bits; [done| |].
  - apply Z.lor_nonneg. unfold is_word in *; lia.
  - intros i Hi. by rewrite Z.lor_spec, !(testbit_above w) by (done || lia).
Qed.

Lemma is_word_land w x y : 0 <= w -> is_word w x -> 0 <= y -> is_word w (Z.land x y).
Proof.
  intros Hw Hx Hy. apply is_word_bits; [done| |].
  - apply Z.land_nonneg. unfold is_word in *; lia.
  - intros i Hi. rewrite Z.land_spec, (testbit_above w x) by (done || lia). done.
Qed.

(** Disjoint bit ranges: or is addition. *)
Lemma lor_shiftl_add x y n :
  0 <= n -> is_word n x -> Z.lor x (Z.shiftl y n) = x + Z.shiftl y n.
Proof.
  intros Hn Hx.
  assert (Hd : Z.land x (Z.shiftl y n) = 0).
  { apply Z.bits_inj_iff'. intros i Hi. rewrite Z.land_spec, Z.bits_0.
    destruct (decide (i < n)).
    - by rewrite Z.shiftl_spec_low, andb_false_r.
    - by rewrite (testbit_above n) by (done || lia). }
  by rewrite <- Z.lxor_lor, Z.add_nocarry_lxor.
Qed.

Create HintDb words.
#[export] Hint Resolve wrap_range wrap_is_word is_word_lxor is_word_lor is_word_land : words.

(** ** Byte strings

    Bytes are [Z] in [0, 256).  [be_bytes n z] is the big-endian (network order)
    n-byte encoding, [be_val] its inverse; the little-endian pair is obtained by
    reversal. *)

Fixpoint be_bytes (n : nat) (z : Z) : list Z :=
  match n with
  | O => []
  | S n' => be_bytes n' (z / 256) ++ [z mod 256]
  end.

Definition be_val (l : list Z) : Z := fold_left (fun acc b => acc * 256 + b) l 0.

Definition le_val (l : list Z) : Z := fold_right (fun b acc => b + 256 * acc) 0 l.

Lemma length_be_bytes n z : length (be_bytes n z) = n.
Proof. revert z. induction n as [|n IH]; intros z; simpl; [done|]. rewrite length_app, IH. simpl. lia. Qed.

Lemma be_bytes_ok n z : bytes_ok (be_bytes n z).
Proof.
  revert z. induction n as [|n IH]; intros z; simpl; [constructor|].
  apply Forall_app. split; [apply IH|]. constructor; [|constructor].
  unfold is_word. pose proof (Z.mod_pos_bound z 256). lia.
Qed.

Lemma be_val_snoc l b : be_val (l ++ [b]) = be_val l * 256 + b.
Proof. unfold be_val. by rewrite fold_left_app. Qed.

Lemma be_val_bytes n z : be_val (be_bytes n z) = z mod 2 ^ (8 * Z.of_nat n).
Proof.
  revert z. induction n as [|n IH]; intros z.
  - simpl. by rewrite Z.mod_1_r.
  - cbn [be_bytes]. rewrite be_val_snoc, IH.
    replace (8 * Z.of_nat (S n)) with (8 + 8 * Z.of_nat n) by lia.
    rewrite Z.pow_add_r by lia. change (2 ^ 8) with 256.
    rewrite Z.rem_mul_r by lia. lia.
Qed.

Lemma be_bytes_val l : bytes_ok l -> be_bytes (length l) (be_val l) = l.
Proof.
  induction l as [|b l IH] using rev_ind; intros Hl; [done|].
  apply Forall_app in Hl as [Hl Hb]. apply Forall_inv in Hb. unfold is_word in Hb.
  rewrite length_app, Nat.add_comm, be_val_snoc. cbn [length Nat.add be_bytes].
  rewrite Z.div_add_l, (Z.div_small b), Z.add_0_r, IH by (done || lia).
  by rewrite Z.add_comm, Z_mod_plus_full, Z.mod_small by lia.
Qed.

Lemma be_val_range l : bytes_ok l -> 0 <= be_val l < 2 ^ (8 * Z.of_nat (length l)).
Proof.
  intros Hl. rewrite <- (be_bytes_val l Hl) at 1 2. rewrite be_val_bytes.
  apply Z.mod_pos_bound. lia.
Qed.

#[global] Arguments be_bytes : simpl never.
#[global] Arguments be_val : simpl never.
#[global] Arguments wrap : simpl never.

(** ** Buffers

    [splice off new buf] overwrites [buf] at byte offset [off] with [new]: the
    effect of [memcpy(&buf[off], new, |new|)] when the destination is in range. *)

Definition splice {A} (off : nat) (new buf : list A) : list A :=
  take off buf ++ new ++ drop (off + length new) buf.

(** The bytes [off .. off+n) of [buf]. *)
Definition slice {A} (off n : nat) (buf : list A) : list A := take n (drop off buf).

Lemma length_splice {A} off (new buf : list A) :
  (off + length new <= length buf)%nat -> length (splice off new buf) = length buf.
Proof.
  intros H. unfold splice. rewrite !length_app, length_take, length_drop. lia.
Qed.

Lemma length_slice {A} off n (buf : list A) :
  (off + n <= length buf)%nat -> length (slice off n buf) = n.
Proof. intros H. unfold slice. rewrite length_take, length_drop. lia. Qed.

Lemma slice_splice_eq {A} off (new buf : list A) :
  (off + length new <= length buf)%nat -> slice off (length new) (splice off new buf) = new.
Proof.
  intros H. unfold slice, splice.
  rewrite drop_app_length' by (rewrite length_take; lia).
  by rewrite take_app_length.
Qed.

Lemma slice_lookup_ext {A} off n (b1 b2 : list A) :
  (forall i, (off <= i < off + n)%nat -> b1 !! i = b2 !! i) ->
  slice off n b1 = slice off n b2.
Proof.
  intros H. apply list_eq. intros i. unfold slice.
  destruct (decide (i < n)%nat).
  - rewrite !lookup_take_lt, !lookup_drop by lia. apply H. lia.
  - by rewrite !lookup_take_ge by lia.
Qed.

Lemma lookup_splice_out {A} off (new buf : list A) i :
  (off + length new <= length buf)%nat ->
  (i < off \/ off + length new <= i)%nat -> splice off new buf !! i = buf !! i.
Proof.
  intros Hlen Hi. unfold splice. destruct (decide (i < off)%nat).
  - by rewrite lookup_app_l, lookup_take_lt by (rewrite ?length_take; lia).
  - rewrite lookup_app_r by (rewrite length_take; lia).
    rewrite lookup_app_r by (rewrite length_take; lia).
    rewrite lookup_drop, length_take. f_equal. lia.
Qed.

Lemma slice_splice_out {A} off n off' (new buf : list A) :
  (off' + length new <= length buf)%nat ->
  (off + n <= off' \/ off' + length new <= off)%nat ->
  slice off n (splice off' new buf) = slice off n buf.
Proof. intros Hl Ho. apply slice_lookup_ext. intros i Hi. apply lookup_splice_out; lia. Qed.

(** Two adjacent writes are one. *)
Lemma splice_splice {A} off (a b buf : list A) :
  (off + length a + length b <= length buf)%nat ->
  splice (off + length a) b (splice off a buf) = splice off (a ++ b) buf.
Proof.
  intros H. apply list_eq. intros i. unfold splice at 1 3.
  rewrite <- !app_assoc.
  replace (take (off + length a) (splice off a buf)) with (take off buf ++ a).
  2: { unfold splice. rewrite app_assoc. symmetry. apply take_app_length'.
       rewrite length_app, length_take. lia. }
  rewrite <- app_assoc. do 3 f_equal. rewrite length_app. unfold splice.
  rewrite app_assoc, drop_app_ge by (rewrite length_app, length_take; lia).
  rewrite drop_drop, length_app, length_take. do 2 f_equal. lia.
Qed.

Lemma slice_app {A} off n m (buf : list A) :
  slice off (n + m) buf = slice off n buf ++ slice (off + n) m buf.
Proof. unfold slice. rewrite <- drop_drop. symmetry. apply take_take_drop. Qed.

(** Sums of a function over a list. *)
Definition sum_with {A} (f : A -> Z) (l : list A) : Z := foldr (fun x acc => f x + acc) 0 l.

Lemma sum_with_cons {A} (f : A -> Z) x l : sum_with f (x :: l) = f x + sum_with f l.
Proof. done. Qed.

Lemma sum_with_nil {A} (f : A -> Z) : sum_with f [] = 0.
Proof. done. Qed.

Lemma sum_with_app {A} (f : A -> Z) l1 l2 :
  sum_with f (l1 ++ l2) = sum_with f l1 + sum_with f l2.
Proof. induction l1 as [|x l1 IH]; simpl; [done|]. rewrite IH. lia. Qed.

Lemma sum_with_ext {A} (f g : A -> Z) l :
  (forall x, x ∈ l -> f x = g x) -> sum_with f l = sum_with g l.
Proof.
  induction l as [|x l IH]; intros H; simpl; [done|].
  rewrite (H x), IH; [done| |]; [intros y Hy; apply H|]; set_solver.
Qed.

#[export] Instance sum_with_perm {A} (f : A -> Z) : Proper (Permutation ==> eq) (sum_with f).
Proof. induction 1; simpl; lia. Qed.

Lemma sum_with_nonneg {A} (f : A -> Z) l : (forall x, x ∈ l -> 0 <= f x) -> 0 <= sum_with f l.
Proof.
  induction l as [|x l IH]; intros H; simpl; [done|].
  pose proof (H x ltac:(set_solver)). pose proof (IH ltac:(set_solver)). lia.
Qed.

Lemma sum_with_insert {A} (f : A -> Z) l i x y :
  l !! i = Some x -> sum_with f (<[i := y]> l) = sum_with f l - f x + f y.
Proof.
  revert i. induction l as [|z l IH]; intros [|i] H; [done..| |]; cbn in H.
  - injection H as ->. cbn. lia.
  - change (<[S i := y]> (z :: l)) with (z :: <[i := y]> l).
    rewrite !sum_with_cons, (IH i H). lia.
Qed.

Lemma sum_with_all_zero {A} (f : A -> Z) l : (forall x, x ∈ l -> f x = 0) -> sum_with f l = 0.
Proof.
  induction l as [|x l IH]; intros H; simpl; [done|].
  rewrite (H x) by (by left). rewrite IH; [done|]. intros y Hy. apply H. by right.
Qed.

Lemma sum_with_zero {A} (f : A -> Z) l :
  (forall x, x ∈ l -> 0 <= f x) -> sum_with f l = 0 -> forall x, x ∈ l -> f x = 0.
Proof.
  induction l as [|y l IH]; intros Hn Hs x Hx; [by apply not_elem_of_nil in Hx|].
  rewrite sum_with_cons in Hs.
  assert (Hy : 0 <= f y) by (apply Hn; by left).
  assert (Hl : forall z, z ∈ l -> 0 <= f z) by (intros; apply Hn; by right).
  pose proof (sum_with_nonneg f l Hl).
  apply elem_of_cons in Hx as [->|Hx]; [lia|]. apply IH; [exact Hl|lia|exact Hx].
Qed.

(** ** Iteration over maps

    A [std::map] is a [gmap] from integers; where the code iterates over one, [in_order] lists it by increasing key. *)

Definition key_le {A} (x y : Z * A) : Prop := x.1 <= y.1.

#[export] Instance key_le_dec A : RelDecision (@key_le A) := fun x y => decide (x.1 <= y.1).

Definition in_order {A} (m : gmap Z A) : list (Z * A) := merge_sort key_le (map_to_list m).

Lemma elem_of_in_order {A} (m : gmap Z A) x : x ∈ in_order m <-> m !! x.1 = Some x.2.
Proof.
  unfold in_order. rewrite merge_sort_Permutation. destruct x as [k v]. apply elem_of_map_to_list.
Qed.

Lemma in_order_keys {A} (m : gmap Z A) : NoDup (in_order m).*1.
Proof. unfold in_order. rewrite merge_sort_Permutation. apply NoDup_fst_map_to_list. Qed.

(** ** Text

    A [std::string] is the list of its bytes. *)

Definition text (s : string) : list Z := (fun c => Z.of_nat (nat_of_ascii c)) <$> list_ascii_of_string s.

(** Decimal digits; twenty are enough for 64 bits. *)
Fixpoint digits (fuel : nat) (n : Z) (acc : list Z) : list Z :=
  match fuel with
  | O => acc
  | S fuel => let acc := 48 + n mod 10 :: acc in if n / 10 =? 0 then acc else digits fuel (n / 10) acc
  end.

(** The argument is converted to 64 unsigned bits. *)
Definition NumberToString (n : Z) : list Z := digits 20 (u64 n) [].

(** [sscanf] of "%d": blanks, a sign, and digits up to the first other character. *)
Fixpoint scan_digits (l : list Z) (acc : option Z) : option Z :=
  match l with
  | c :: l => if (48 <=? c) && (c <=? 57) then scan_digits l (Some (10 * default 0 acc + (c - 48))) else acc
  | [] => acc
  end.

Fixpoint scan_int (l : list Z) : option Z :=
  match l with
  | [] => None
  | c :: l' =>
      if (c =? 32) || ((9 <=? c) && (c <=? 13)) then scan_int l'
      else if c =? 45 then Z.opp <$> scan_digits l' None
      else if c =? 43 then scan_digits l' None
      else scan_digits l None
  end.

(** The number whose digits a text has. *)
Definition dec_val (l : list Z) : Z := foldl (fun a c => 10 * a + (c - 48)) 0 l.

Lemma scan_digits_all l : forall o, Forall (fun c => 48 <= c <= 57) l -> l <> [] ->
  scan_digits l o = Some (foldl (fun a c => 10 * a + (c - 48)) (default 0 o) l).
Proof.
  induction l as [|c l IH]; intros o Hl Hn; [done|]. apply Forall_cons in Hl as [Hc Hl]. cbn [scan_digits].
  assert (E : (48 <=? c) && (c <=? 57) = true) by lia. rewrite E. destruct l as [|c' l]; [done|]. by rewrite IH.
Qed.

Lemma digits_val fuel : forall n acc, (fuel <> 0)%nat -> 0 <= n < 10 ^ Z.of_nat fuel ->
  exists l, digits fuel n acc = l ++ acc /\ l <> [] /\ Forall (fun c => 48 <= c <= 57) l /\ dec_val l = n.
Proof.
  induction fuel as [|fuel IH]; intros n acc Hf Hn; [done|]. cbn [digits].
  pose proof (Z.div_mod n 10). pose proof (Z.mod_pos_bound n 10). destruct (Z.eqb_spec (n / 10) 0) as [E|E].
  - exists [48 + n mod 10]. split; [done|]. split; [done|]. split; [constructor; [lia|constructor]|]. cbn. lia.
  - assert (Hp : 10 ^ Z.of_nat (S fuel) = 10 * 10 ^ Z.of_nat fuel) by (rewrite Nat2Z.inj_succ, Z.pow_succ_r; lia).
    destruct fuel as [|fuel]; [change (10 ^ Z.of_nat 1) with 10 in *; lia|].
    destruct (IH (n / 10) (48 + n mod 10 :: acc)) as (l & El & Hl & Hd & Hv); [done|split; [lia|apply Z.div_lt_upper_bound; lia]|].
    exists (l ++ [48 + n mod 10]). split; [by rewrite El, <- app_assoc|]. split; [by destruct l|].
    split; [apply Forall_app; split; [done|]; constructor; [lia|constructor]|]. unfold dec_val in *. rewrite foldl_app, Hv. cbn. lia.
Qed.

(** Reading back a printed number. *)
Lemma scan_int_NumberToString n : is_word 64 n -> scan_int (NumberToString n) = Some n.
Proof.
  intros Hn. unfold NumberToString. rewrite wrap_small by done. unfold is_word in Hn.
  destruct (digits_val 20 n []) as (l & -> & Hl & Hd & Hv); [done|change (10 ^ Z.of_nat 20) with 100000000000000000000; lia|].
  rewrite app_nil_r. destruct l as [|c l]; [done|]. cbn [scan_int]. pose proof Hd as Hd'. apply Forall_cons in Hd' as [Hc _].
  assert (E : (c =? 32) || ((9 <=? c) && (c <=? 13)) = false) by lia. rewrite E.
  destruct (Z.eqb_spec c 45); [lia|]. destruct (Z.eqb_spec c 43); [lia|]. rewrite scan_digits_all by done. f_equal. exact Hv.
Qed.

(** ** Floating point

    C's [float] and [double] are the IEEE 754 formats with round to nearest
    even, computed by the Standard Library's executable specification. *)

Abbreviation float64 := spec_float.
Abbreviation float32 := spec_float.

Definition f64_of_Z (z : Z) : float64 := binary_normalize 53 1024 z 0 false.
Definition f32_of_Z (z : Z) : float32 := binary_normalize 24 128 z 0 false.

(** [float] to [double] is exact; it only changes the representation. *)
Definition f64_of_f32 (x : float32) : float64 :=
  match x with
  | S754_finite s m e => binary_normalize 53 1024 (if s then Zneg m else Zpos m) e false
  | _ => x
  end.

(** [double] to [float] rounds. *)
Definition f32_of_f64 (x : float64) : float32 :=
  match x with
  | S754_finite s m e => binary_normalize 24 128 (if s then Zneg m else Zpos m) e false
  | _ => x
  end.

Definition f64_add : float64 -> float64 -> float64 := SFadd 53 1024.
Definition f64_sub : float64 -> float64 -> float64 := SFsub 53 1024.
Definition f64_mul : float64 -> float64 -> float64 := SFmul 53 1024.
Definition f64_div : float64 -> float64 -> float64 := SFdiv 53 1024.
Definition f64_abs : float64 -> float64 := SFabs.
Definition f32_add : float32 -> float32 -> float32 := SFadd 24 128.
Definition f32_sub : float32 -> float32 -> float32 := SFsub 24 128.
Definition f32_mul : float32 -> float32 -> float32 := SFmul 24 128.

Definition f32_div : float32 -> float32 -> float32 := SFdiv 24 128.

Definition float_lt (x y : spec_float) : bool := SFltb x y.
Definition float_le (x y : spec_float) : bool := SFleb x y.

(** ** Tactics *)

(** Split a goal and hypotheses about boolean integer tests. *)
Ltac zbool :=
  repeat match goal with
  | |- context [?a <? ?b] => destruct (Z.ltb_spec a b)
  | |- context [?a <=? ?b] => destruct (Z.leb_spec a b)
  | |- context [?a =? ?b] => destruct (Z.eqb_spec a b)
  end.

(** Case analysis on the first [if] or [match] of the goal. *)
Ltac case_goal :=
  match goal with
  | |- context [match ?x with _ => _ end] =>
      lazymatch x with
      | context [match _ with _ => _ end] => fail
      | _ => destruct x eqn:?
      end
  end.

(** Boolean hypotheses to propositions; [blia] closes arithmetic goals after it. *)
Ltac bprop :=
  repeat match goal with
  | H : _ || _ = true |- _ => apply orb_prop in H as [H|H]
  | H : _ || _ = false |- _ => apply orb_false_elim in H as [? H]
  | H : _ && _ = true |- _ => apply andb_prop in H as [? H]
  | H : _ && _ = false |- _ => apply andb_false_iff in H as [H|H]
  | H : negb _ = true |- _ => apply negb_true_iff in H
  | H : negb _ = false |- _ => apply negb_false_iff in H
  | H : (_ <? _) = true |- _ => apply Z.ltb_lt in H
  | H : (_ <? _) = false |- _ => apply Z.ltb_ge in H
  | H : (_ <=? _) = true |- _ => apply Z.leb_le in H
  | H : (_ <=? _) = false |- _ => apply Z.leb_gt in H
  | H : (_ =? _) = true |- _ => apply Z.eqb_eq in H
  | H : (_ =? _) = false |- _ => apply Z.eqb_neq in H
  end.

Ltac blia := bprop; unfold is_word in *; lia.

(** Closed arithmetic facts, by evaluation. *)
Ltac closed := vm_compute; repeat split; first [reflexivity | discriminate].
