(* ===== verification/RawSerial.v ===== *)
(** * Raw (de)serialisation primitives: src/serialiser/rsbaseserial.cc

    The getters and setters of integers, times, floats and strings over a byte
    buffer.  A buffer is the list of bytes that is really allocated; [size] is the
    length the caller claims and [offset] the position, both [uint32_t].  A
    [memcpy] outside the allocated bytes is the outcome [Oob].  A getter returns
    the value it stored ([None] when the C function returns false) and the new
    offset; a setter returns its boolean, the buffer and the new offset.

    The class [RawCodec] is the contract a getter/setter pair gives its clients;
    every pair of the file is an instance, and the round trip of a whole sequence
    of fields is proved from the class alone. *)

From S2P Require Import Prelude.
From Stdlib Require Import ZArith Lia SpecFloat.
From stdpp Require Import base list.
Open Scope Z_scope.

(** ** Memory accesses *)

Inductive access (A : Type) : Type :=
| Done (a : A)
| Oob.
Arguments Done {A} a.
Arguments Oob {A}.

Definition in_range (data : list Z) (off n : Z) : bool :=
  (0 <=? off) && (off + n <=? Z.of_nat (length data)).

(** [memcpy] of [n] bytes out of, or of [bs] into, a buffer. *)
Definition mem_read (data : list Z) (off n : Z) : access (list Z) :=
  if in_range data off n then Done (slice (Z.to_nat off) (Z.to_nat n) data) else Oob.

Definition mem_write (data : list Z) (off : Z) (bs : list Z) : access (list Z) :=
  if in_range data off (Z.of_nat (length bs))
  then Done (splice (Z.to_nat off) bs data) else Oob.

#[export] Instance access_ret : MRet access := @Done.
#[export] Instance access_bind : MBind access := fun A B f m =>
  match m with Done a => f a | Oob => Oob end.

(** ** Integers *)

(** The common body of the four getters: [ntohs], [ntohl] and [ntohll] of the
    bytes copied out is their big-endian value. *)
Definition getRawUInt (n : Z) (data : list Z) (size offset : Z) : access (option Z * Z) :=
  if size <? u32 (offset + n) then Done (None, offset)
  else bs ← mem_read data offset n;
       Done (Some (be_val bs), u32 (offset + n)).

Definition setRawUInt (n : Z) (data : list Z) (size offset v : Z)
    : access (bool * list Z * Z) :=
  if size <? u32 (offset + n) then Done (false, data, offset)
  else data' ← mem_write data offset (be_bytes (Z.to_nat n) v);
       Done (true, data', u32 (offset + n)).

Definition getRawUInt8 := getRawUInt 1.
Definition setRawUInt8 := setRawUInt 1.
Definition getRawUInt16 := getRawUInt 2.
Definition setRawUInt16 := setRawUInt 2.
Definition getRawUInt32 := getRawUInt 4.
Definition setRawUInt32 := setRawUInt 4.
Definition getRawUInt64 := getRawUInt 8.
Definition setRawUInt64 := setRawUInt 8.

(** ** Times: [rstime_t] is a signed 64-bit integer. *)

Definition getRawTimeT (data : list Z) (size offset : Z) : access (option Z * Z) :=
  '(r, offset') ← getRawUInt64 data size offset;
  Done (option_map sint64 r, offset').

Definition setRawTimeT (data : list Z) (size offset t : Z) : access (bool * list Z * Z) :=
  setRawUInt64 data size offset (u64 t).

(** ** Strings *)

Definition getRawStringSize (str : list Z) : Z := u32 (Z.of_nat (length str) + 4).

Definition getRawString (data : list Z) (size offset : Z) : access (option (list Z) * Z) :=
  '(r, offset) ← getRawUInt32 data size offset;
  match r with
  | None => Done (None, offset)
  | Some len =>
    if (size <? len) || (size - len <? offset) then Done (None, offset)
    else bs ← mem_read data offset len;
         Done (Some bs, u32 (offset + len))
  end.

Definition setRawString (data : list Z) (size offset : Z) (inStr : list Z)
    : access (bool * list Z * Z) :=
  let len := u32 (Z.of_nat (length inStr)) in
  if (size <? 4) || (size - 4 <? len) || (size - len - 4 <? offset)
  then Done (false, data, offset)
  else
    '(ok, data, offset) ← setRawUInt32 data size offset len;
    if negb ok then Done (false, data, offset)
    else data ← mem_write data offset (take (Z.to_nat len) inStr);
         Done (true, data, u32 (offset + len)).

(** ** Floats

    A non-negative float [f] is sent as the fixed-point image of 1/(1+f). *)

(** [(float) ~(uint32_t)0] *)
Definition f32_max_u32 : float32 := f32_of_Z (2 ^ 32 - 1).

Definition getRawUFloat32 (data : list Z) (size offset : Z) : access (option float32 * Z) :=
  '(r, offset) ← getRawUInt32 data size offset;
  Done (option_map (fun n => f32_sub (SFdiv 24 128 (f32_of_Z 1)
                                        (SFdiv 24 128 (f32_of_Z n) f32_max_u32))
                                     (f32_of_Z 1)) r, offset).

(** Truncation of a float to an integer ([0] for the values C leaves undefined). *)
Definition Z_of_float (x : spec_float) : Z :=
  match x with
  | S754_finite s m e =>
      let a := if 0 <=? e then Zpos m * 2 ^ e else Zpos m / 2 ^ (- e) in
      if s then - a else a
  | _ => 0
  end.

Definition setRawUFloat32 (data : list Z) (size offset : Z) (f : float32)
    : access (bool * list Z * Z) :=
  if (size <=? offset) || (size <? u32 (4 + offset)) then Done (false, data, offset)
  else if float_lt f (f32_of_Z 0) then Done (false, data, offset)
  else
    let n :=
      if float_lt (f64_of_f32 f) (f64_div (f64_of_Z 1) (f64_of_Z 10000000))
      then 2 ^ 32 - 1
      else u32 (Z_of_float (f32_mul (SFdiv 24 128 (f32_of_Z 1) (f32_add (f32_of_Z 1) f))
                                    f32_max_u32)) in
    setRawUInt32 data size offset n.

(** ** The contract of a getter/setter pair *)

(** The claimed size is a [uint32_t] and covered by the allocation. *)
Definition buffer_ok (data : list Z) (size : Z) : Prop :=
  0 <= size < 2 ^ 32 /\ size <= Z.of_nat (length data).

Class RawCodec (A : Type) := {
  rc_dom : A -> Prop;
  rc_enc : A -> list Z;
  rc_set : list Z -> Z -> Z -> A -> access (bool * list Z * Z);
  rc_get : list Z -> Z -> Z -> access (option A * Z);
  (** a value that fits is written, as its encoding, at the offset *)
  rc_set_fits data size off a :
    rc_dom a -> buffer_ok data size -> 0 <= off ->
    off + Z.of_nat (length (rc_enc a)) <= size ->
    rc_set data size off a =
      Done (true, splice (Z.to_nat off) (rc_enc a) data, off + Z.of_nat (length (rc_enc a)));
  (** an encoding found at the offset is read back *)
  rc_get_enc data size off a :
    rc_dom a -> buffer_ok data size -> 0 <= off ->
    off + Z.of_nat (length (rc_enc a)) <= size ->
    slice (Z.to_nat off) (length (rc_enc a)) data = rc_enc a ->
    rc_get data size off = Done (Some a, off + Z.of_nat (length (rc_enc a)));
  (** a value that does not fit is refused and nothing is written *)
  rc_set_short data size off a :
    rc_dom a -> buffer_ok data size -> 0 <= off <= size ->
    size < off + Z.of_nat (length (rc_enc a)) < 2 ^ 32 ->
    rc_set data size off a = Done (false, data, off)
}.

(** ** The field types and sequences of fields *)

Inductive raw_type := RU8 | RU16 | RU32 | RU64 | RTime | RString.

#[export] Instance raw_type_eq_dec : EqDecision raw_type.
Proof. solve_decision. Defined.

Definition raw_val (t : raw_type) : Type :=
  match t with RString => list Z | _ => Z end.

Definition raw_field : Type := { t : raw_type & raw_val t }.

Definition set_raw (t : raw_type) : list Z -> Z -> Z -> raw_val t -> access (bool * list Z * Z) :=
  match t with
  | RU8 => setRawUInt8 | RU16 => setRawUInt16 | RU32 => setRawUInt32
  | RU64 => setRawUInt64 | RTime => setRawTimeT | RString => setRawString
  end.

Definition get_raw (t : raw_type) : list Z -> Z -> Z -> access (option (raw_val t) * Z) :=
  match t with
  | RU8 => getRawUInt8 | RU16 => getRawUInt16 | RU32 => getRawUInt32
  | RU64 => getRawUInt64 | RTime => getRawTimeT | RString => getRawString
  end.

(** Setters chained with [ok &= ...], each starting where the previous one ended. *)
Fixpoint set_fields (data : list Z) (size off : Z) (fs : list raw_field)
    : access (bool * list Z * Z) :=
  match fs with
  | [] => Done (true, data, off)
  | existT t v :: fs =>
      '(ok, data, off) ← set_raw t data size off v;
      if negb ok then Done (false, data, off) else set_fields data size off fs
  end.

Fixpoint get_fields (data : list Z) (size off : Z) (ts : list raw_type)
    : access (option (list raw_field) * Z) :=
  match ts with
  | [] => Done (Some [], off)
  | t :: ts =>
      '(r, off) ← get_raw t data size off;
      match r with
      | None => Done (None, off)
      | Some v =>
          '(rs, off) ← get_fields data size off ts;
          Done (option_map (cons (existT t v : raw_field)) rs, off)
      end
  end.

(** ** Lemmas *)

Lemma mem_read_in data off n :
  0 <= off -> off + n <= Z.of_nat (length data) ->
  mem_read data off n = Done (slice (Z.to_nat off) (Z.to_nat n) data).
Proof.
  intros H1 H2. unfold mem_read, in_range. zbool; (done || lia).
Qed.

Lemma mem_write_in data off bs :
  0 <= off -> off + Z.of_nat (length bs) <= Z.of_nat (length data) ->
  mem_write data off bs = Done (splice (Z.to_nat off) bs data).
Proof.
  intros H1 H2. unfold mem_write, in_range. zbool; (done || lia).
Qed.

Section integers.
Context (n : nat) (Hn : (n <= 8)%nat).

Lemma getRawUInt_enc data size off v :
  is_word (8 * Z.of_nat n) v -> buffer_ok data size -> 0 <= off ->
  off + Z.of_nat n <= size ->
  slice (Z.to_nat off) n data = be_bytes n v ->
  getRawUInt (Z.of_nat n) data size off = Done (Some v, off + Z.of_nat n).
Proof.
  intros Hv [Hs Hd] Ho Hfit Hsl. unfold getRawUInt.
  rewrite wrap_small by (unfold is_word; lia).
  destruct (Z.ltb_spec size (off + Z.of_nat n)); [lia|].
  rewrite mem_read_in by lia. cbn. rewrite Nat2Z.id, Hsl, be_val_bytes.
  by rewrite Z.mod_small.
Qed.

Lemma setRawUInt_fits data size off v :
  buffer_ok data size -> 0 <= off -> off + Z.of_nat n <= size ->
  setRawUInt (Z.of_nat n) data size off v =
    Done (true, splice (Z.to_nat off) (be_bytes n v) data, off + Z.of_nat n).
Proof.
  intros [Hs Hd] Ho Hfit. unfold setRawUInt.
  rewrite wrap_small by (unfold is_word; lia).
  destruct (Z.ltb_spec size (off + Z.of_nat n)); [lia|].
  rewrite Nat2Z.id, mem_write_in; [done|lia|]. rewrite length_be_bytes. lia.
Qed.

Lemma setRawUInt_short data size off v :
  0 <= off -> size < off + Z.of_nat n < 2 ^ 32 ->
  setRawUInt (Z.of_nat n) data size off v = Done (false, data, off).
Proof.
  intros Ho Hs. unfold setRawUInt. rewrite wrap_small by (unfold is_word; lia).
  destruct (Z.ltb_spec size (off + Z.of_nat n)); [done|lia].
Qed.

End integers.

#[local] Obligation Tactic := idtac.

(** The four integer codecs. *)
Program Definition codec_uint (n : nat) (Hn : (n <= 8)%nat) : RawCodec Z := {|
  rc_dom v := is_word (8 * Z.of_nat n) v;
  rc_enc v := be_bytes n v;
  rc_set := setRawUInt (Z.of_nat n);
  rc_get := getRawUInt (Z.of_nat n)
|}.
Next Obligation.
  intros. cbv beta in *. rewrite length_be_bytes in *. by apply setRawUInt_fits.
Qed.
Next Obligation.
  intros. cbv beta in *. rewrite length_be_bytes in *. by apply getRawUInt_enc.
Qed.
Next Obligation.
  intros. cbv beta in *. rewrite length_be_bytes in *. apply setRawUInt_short; lia.
Qed.

Lemma sint64_wrap t : - 2 ^ 63 <= t < 2 ^ 63 -> sint64 (u64 t) = t.
Proof.
  intros H. unfold sint64. rewrite wrap_wrap. unfold wrap.
  destruct (decide (0 <= t)).
  - rewrite Z.mod_small by lia. destruct (Z.ltb_spec t (2 ^ 63)); lia.
  - rewrite <- (Z_mod_plus_full t 1), Z.mod_small by lia.
    destruct (Z.ltb_spec (t + 1 * 2 ^ 64) (2 ^ 63)); lia.
Qed.

Program Definition codec_time : RawCodec Z := {|
  rc_dom t := - 2 ^ 63 <= t < 2 ^ 63;
  rc_enc t := be_bytes 8 (u64 t);
  rc_set := setRawTimeT;
  rc_get := getRawTimeT
|}.
Next Obligation.
  intros data size off t Ht Hb Ho Hf. cbv beta in *. rewrite length_be_bytes in *.
  unfold setRawTimeT. by apply (setRawUInt_fits 8); [lia|..].
Qed.
Next Obligation.
  intros data size off t Ht Hb Ho Hf Hs. cbv beta in *. rewrite length_be_bytes in *.
  unfold getRawTimeT, getRawUInt64. rewrite (getRawUInt_enc 8 ltac:(lia) _ _ _ (u64 t)); try done.
  - cbn. by rewrite sint64_wrap.
  - by apply wrap_is_word.
Qed.
Next Obligation.
  intros data size off t Ht Hb Ho Hs. cbv beta in *. rewrite length_be_bytes in *.
  apply (setRawUInt_short 8); lia.
Qed.

Definition string_enc (s : list Z) : list Z := be_bytes 4 (Z.of_nat (length s)) ++ s.

Lemma length_string_enc s : length (string_enc s) = (4 + length s)%nat.
Proof. unfold string_enc. by rewrite length_app, length_be_bytes. Qed.

Lemma slice_app_inv {A} off (a b buf : list A) :
  slice off (length (a ++ b)) buf = a ++ b ->
  slice off (length a) buf = a /\ slice (off + length a) (length b) buf = b.
Proof.
  rewrite length_app, slice_app. intros H. apply app_inj_1 in H; [done|].
  apply (f_equal length) in H. rewrite !length_app in H.
  unfold slice in *. rewrite !length_take, !length_drop in *. lia.
Qed.

Program Definition codec_string : RawCodec (list Z) := {|
  rc_dom s := Z.of_nat (length s) + 4 < 2 ^ 32;
  rc_enc := string_enc;
  rc_set := setRawString;
  rc_get := getRawString
|}.
Next Obligation.
  intros data size off s Hd Hb Ho Hf. cbv beta in *. rewrite length_string_enc in *.
  pose proof Hb as [Hs Hl]. unfold setRawString, setRawUInt32.
  rewrite wrap_small by (unfold is_word; lia).
  rewrite (setRawUInt_fits 4) by (done || lia).
  destruct (_ || _) eqn:E; [blia|].
  cbn. rewrite mem_write_in;
    [|lia|rewrite length_splice, length_take; rewrite ?length_be_bytes; lia].
  cbn. rewrite Nat2Z.id, take_ge by lia. unfold string_enc.
  rewrite <- splice_splice, length_be_bytes by (rewrite ?length_be_bytes; lia).
  rewrite wrap_small by (unfold is_word; lia).
  replace (Z.to_nat (off + Z.of_nat 4)) with (Z.to_nat off + 4)%nat by lia.
  do 2 f_equal. lia.
Qed.
Next Obligation.
  intros data size off s Hd Hb Ho Hf Hsl. cbv beta in *. rewrite length_string_enc in Hf.
  pose proof Hb as [Hs Hl]. apply slice_app_inv in Hsl as [Hlen Hstr].
  rewrite length_be_bytes in Hlen, Hstr. unfold getRawString, getRawUInt32.
  rewrite (getRawUInt_enc 4 ltac:(lia) _ _ _ (Z.of_nat (length s)))
    by (done || lia || (change (8 * Z.of_nat 4) with 32; unfold is_word; lia)).
  cbn. rewrite length_string_enc.
  destruct (_ || _) eqn:E; [blia|].
  rewrite mem_read_in by lia. cbn. rewrite wrap_small by (unfold is_word; lia).
  replace (Z.to_nat (off + Z.of_nat 4)) with (Z.to_nat off + 4)%nat by lia.
  rewrite Nat2Z.id, Hstr. do 2 f_equal. lia.
Qed.
Next Obligation.
  intros data size off s Hd Hb Ho Hs. cbv beta in *. rewrite length_string_enc in *.
  unfold setRawString. rewrite wrap_small by (unfold is_word; lia).
  destruct (_ || _) eqn:E; [done|blia].
Qed.

#[export] Instance raw_codec (t : raw_type) : RawCodec (raw_val t) :=
  match t with
  | RU8 => codec_uint 1 ltac:(lia)
  | RU16 => codec_uint 2 ltac:(lia)
  | RU32 => codec_uint 4 ltac:(lia)
  | RU64 => codec_uint 8 ltac:(lia)
  | RTime => codec_time
  | RString => codec_string
  end.

Lemma set_raw_codec t : set_raw t = rc_set.
Proof. by destruct t. Qed.

Lemma get_raw_codec t : get_raw t = rc_get.
Proof. by destruct t. Qed.

(** The bytes a sequence of fields takes, and the values each type can carry. *)
Definition field_enc (f : raw_field) : list Z := rc_enc (projT2 f).
Definition field_dom (f : raw_field) : Prop := rc_dom (projT2 f).
Definition fields_enc (fs : list raw_field) : list Z := concat (field_enc <$> fs).

Lemma fields_enc_cons t v fs :
  fields_enc (existT t v :: fs) = rc_enc v ++ fields_enc fs.
Proof. done. Qed.

Lemma set_fields_fits fs : forall data size off,
  Forall field_dom fs -> buffer_ok data size -> 0 <= off ->
  off + Z.of_nat (length (fields_enc fs)) <= size ->
  set_fields data size off fs =
    Done (true, splice (Z.to_nat off) (fields_enc fs) data,
          off + Z.of_nat (length (fields_enc fs))).
Proof.
  induction fs as [|[t v] fs IH]; intros data size off Hd Hb Ho Hf; pose proof Hb as [Hs Hl].
  - cbn. rewrite Z.add_0_r. unfold splice. cbn.
    by rewrite Nat.add_0_r, take_drop.
  - apply Forall_cons in Hd as [Hv Hd]. cbn [set_fields].
    rewrite fields_enc_cons, length_app, Nat2Z.inj_add in *.
    rewrite set_raw_codec, rc_set_fits by (done || lia). cbn.
    rewrite IH; [|done| |lia|lia].
    + replace (Z.to_nat (off + _)) with (Z.to_nat off + length (rc_enc v))%nat by lia.
      rewrite splice_splice by lia. do 2 f_equal. lia.
    + split; [done|]. rewrite length_splice by lia. done.
Qed.

Lemma get_fields_enc fs : forall data size off,
  Forall field_dom fs -> buffer_ok data size -> 0 <= off ->
  off + Z.of_nat (length (fields_enc fs)) <= size ->
  slice (Z.to_nat off) (length (fields_enc fs)) data = fields_enc fs ->
  get_fields data size off (projT1 <$> fs) =
    Done (Some fs, off + Z.of_nat (length (fields_enc fs))).
Proof.
  induction fs as [|[t v] fs IH]; intros data size off Hd Hb Ho Hf Hsl.
  - cbn. by rewrite Z.add_0_r.
  - apply Forall_cons in Hd as [Hv Hd]. rewrite fields_enc_cons in *.
    apply slice_app_inv in Hsl as [H1 H2]. rewrite length_app, Nat2Z.inj_add in *.
    cbn [fmap list_fmap projT1 get_fields].
    rewrite get_raw_codec, (rc_get_enc _ _ _ v) by (done || lia). cbn.
    rewrite IH; [|done|done|lia|lia|].
    + cbn. do 2 f_equal. lia.
    + replace (Z.to_nat (off + _)) with (Z.to_nat off + length (rc_enc v))%nat by lia. done.
Qed.

(** A sequence of integers, times and strings written one after the other
    by the setters is read back, value for value and with the same final offset,
    by the corresponding getters, whatever the rest of the buffer holds. *)
Theorem raw_fields_roundtrip (fs : list raw_field) (data : list Z) (size off : Z)
    (Hdom : Forall field_dom fs) (Hbuf : buffer_ok data size) (Hoff : 0 <= off)
    (Hfit : off + Z.of_nat (length (fields_enc fs)) <= size) :
  exists data',
    set_fields data size off fs =
      Done (true, data', off + Z.of_nat (length (fields_enc fs))) /\
    length data' = length data /\
    get_fields data' size off (projT1 <$> fs) =
      Done (Some fs, off + Z.of_nat (length (fields_enc fs))).
Proof.
  pose proof Hbuf as [Hs Hl]. eexists. split; [by apply set_fields_fits|].
  rewrite length_splice by lia. split; [done|].
  apply get_fields_enc; try done.
  - split; [done|]. by rewrite length_splice by lia.
  - apply slice_splice_eq. lia.
Qed.

Definition example_fields : list raw_field :=
  [existT RU8 7; existT RU16 513; existT RString [82; 83]; existT RU32 4294967295;
   existT RTime (-5); existT RU64 (2 ^ 63)].

Lemma raw_fields_roundtrip_witness :
  exists data',
    set_fields (replicate 40 0) 40 3 example_fields = Done (true, data', 32) /\
    length data' = 40%nat /\
    get_fields data' 40 3 (projT1 <$> example_fields) = Done (Some example_fields, 32).
Proof.
  apply (raw_fields_roundtrip example_fields (replicate 40 0) 40 3).
  - repeat constructor; cbn; lia.
  - split; cbn; lia.
  - lia.
  - vm_compute. discriminate.
Defined.

(** Whatever bytes arrive, [getRawString] never reads outside the [size]
    bytes it was given, returns a string of exactly the announced length, and
    leaves the offset inside the buffer. *)
Theorem getRawString_safe (data : list Z) (size off : Z)
    (Hbytes : bytes_ok data) (Hbuf : buffer_ok data size) (Hoff : 0 <= off <= size)
    (Hsmall : size + 4 < 2 ^ 32) :
  exists r off', getRawString data size off = Done (r, off') /\ off <= off' <= size /\
    match r with
    | Some s => off' = off + 4 + Z.of_nat (length s) /\
                s = slice (Z.to_nat off + 4) (length s) data /\
                be_val (slice (Z.to_nat off) 4 data) = Z.of_nat (length s)
    | None => True
    end.
Proof.
  pose proof Hbuf as [Hs Hl]. unfold getRawString, getRawUInt32, getRawUInt.
  rewrite wrap_small by (unfold is_word; lia).
  destruct (Z.ltb_spec size (off + 4)).
  { cbn. exists None, off. split; [done|]. split; [lia|done]. }
  rewrite mem_read_in by lia. cbn. change (Z.to_nat 4) with 4%nat.
  assert (Hlen : 0 <= be_val (slice (Z.to_nat off) 4 data)).
  { apply be_val_range. by apply Forall_take, Forall_drop. }
  destruct (_ || _) eqn:E.
  { exists None, (off + 4). split; [done|]. split; [lia|done]. }
  rewrite mem_read_in by blia. cbn. rewrite wrap_small by blia.
  eexists (Some _), _. split; [done|].
  rewrite length_slice by blia. rewrite Z2Nat.id by done.
  split; [blia|]. split; [lia|]. split; [|done].
  by replace (Z.to_nat (off + 4)) with (Z.to_nat off + 4)%nat by lia.
Qed.

Lemma getRawString_safe_witness :
  exists r off', getRawString [9; 0; 0; 0; 2; 65; 66; 67] 8 1 = Done (r, off') /\
    1 <= off' <= 8 /\
    match r with
    | Some s => off' = 1 + 4 + Z.of_nat (length s) /\
                s = slice (Z.to_nat 1 + 4) (length s) [9; 0; 0; 0; 2; 65; 66; 67] /\
                be_val (slice (Z.to_nat 1) 4 [9; 0; 0; 0; 2; 65; 66; 67]) = Z.of_nat (length s)
    | None => True
    end.
Proof.
  apply (getRawString_safe [9; 0; 0; 0; 2; 65; 66; 67] 8 1).
  - repeat constructor; unfold is_word; lia.
  - split; cbn; lia.
  - lia.
  - lia.
Defined.

(** The guard [size < *offset + n] of the integer getters is computed in 32
    bits: an offset within [n] of 2^32 passes it for every buffer and the copy
    is out of bounds, while below that the getter never leaves the buffer. *)
Theorem getRawUInt32_offset_overflow (data : list Z) (size off : Z)
    (Hbuf : buffer_ok data size) (Hoff : is_word 32 off)
    (Hreal : Z.of_nat (length data) < 2 ^ 32 - 4) :
  getRawUInt32 data size off = Oob <-> 2 ^ 32 - 4 <= off /\ off + 4 - 2 ^ 32 <= size.
Proof.
  pose proof Hbuf as [Hs Hl]. unfold getRawUInt32, getRawUInt.
  destruct (decide (2 ^ 32 - 4 <= off)) as [Hb|Hb].
  - replace (u32 (off + 4)) with (off + 4 - 2 ^ 32)
      by (unfold wrap; rewrite <- (Z_mod_plus_full (off + 4) (-1)), Z.mod_small by blia; lia).
    destruct (Z.ltb_spec size (off + 4 - 2 ^ 32)); [split; [done|lia]|].
    assert (Ho : mem_read data off 4 = Oob).
    { unfold mem_read, in_range. destruct (_ && _) eqn:E; [blia|done]. }
    rewrite Ho. split; [intros _; lia|done].
  - rewrite wrap_small by blia. destruct (Z.ltb_spec size (off + 4)); [split; [done|lia]|].
    rewrite mem_read_in by blia. cbn. split; [done|lia].
Qed.

Lemma getRawUInt32_offset_overflow_witness :
  getRawUInt32 [1; 2; 3; 4] 4 (2 ^ 32 - 2) = Oob <->
    2 ^ 32 - 4 <= 2 ^ 32 - 2 /\ 2 ^ 32 - 2 + 4 - 2 ^ 32 <= 4.
Proof.
  apply getRawUInt32_offset_overflow.
  - split; cbn; lia.
  - split; lia.
  - cbn; lia.
Defined.
