(* ===== verification/Tlv.v ===== *)
(** * Type-length-value fields: src/serialiser/rstlvbase.cc

    A field is a 16-bit type, a 32-bit size that counts the header, and the value.  The functions work on the buffers of
    [RawSerial]: getters give the value or [None] with the new offset, setters a boolean with the buffer and the offset, and
    an access outside the bytes is [Oob].  Strings are lists of bytes. *)

From S2P Require Import Prelude RawSerial.
From Stdlib Require Import ZArith Lia.
From stdpp Require Import base list.
Open Scope Z_scope.

Definition TLV_HEADER_TYPE_SIZE : Z := 2.
Definition TLV_HEADER_LEN_SIZE : Z := 4.
Definition TLV_HEADER_SIZE : Z := TLV_HEADER_TYPE_SIZE + TLV_HEADER_LEN_SIZE.

Definition TLV_TYPE_STR_PEERID : Z := 0x0050.
Definition TLV_TYPE_STR_NAME : Z := 0x0051.
Definition TLV_TYPE_STR_PATH : Z := 0x0052.
Definition TLV_TYPE_STR_KEY : Z := 0x0053.
Definition TLV_TYPE_STR_VALUE : Z := 0x0054.
Definition TLV_TYPE_STR_TITLE : Z := 0x0056.
Definition TLV_TYPE_STR_SUBJECT : Z := 0x0058.
Definition TLV_TYPE_STR_GENID : Z := 0x005a.
Definition TLV_TYPE_STR_LOCATION : Z := 0x005c.
Definition TLV_TYPE_STR_VERSION : Z := 0x005f.

(** ** Headers *)

Definition GetTlvType (data : list Z) (off : Z) : access Z :=
  bs ← mem_read data off TLV_HEADER_TYPE_SIZE; Done (be_val bs).

Definition GetTlvSize (data : list Z) (off : Z) : access Z :=
  bs ← mem_read data (off + TLV_HEADER_TYPE_SIZE) TLV_HEADER_LEN_SIZE; Done (be_val bs).

Definition SetTlvBase (data : list Z) (size off type len : Z) : access (bool * list Z * Z) :=
  if size <? u32 (off + TLV_HEADER_SIZE) then Done (false, data, off)
  else
    data ← mem_write data off (be_bytes 2 type);
    data ← mem_write data (off + TLV_HEADER_TYPE_SIZE) (be_bytes 4 len);
    Done (true, data, u32 (off + TLV_HEADER_SIZE)).

Definition SetTlvType (data : list Z) (size type : Z) : access (bool * list Z) :=
  if size <? TLV_HEADER_SIZE then Done (false, data)
  else data ← mem_write data 0 (be_bytes 2 type); Done (true, data).

Definition SetTlvSize (data : list Z) (size len : Z) : access (bool * list Z) :=
  if size <? TLV_HEADER_SIZE then Done (false, data)
  else data ← mem_write data TLV_HEADER_TYPE_SIZE (be_bytes 4 len); Done (true, data).

Definition SkipUnknownTlv (data : list Z) (size off : Z) : access (bool * Z) :=
  if size <? u32 (off + TLV_HEADER_SIZE) then Done (false, off)
  else
    tlvsize ← GetTlvSize data off;
    let tlvend := u32 (off + tlvsize) in
    if size <? tlvend then Done (false, off) else Done (true, tlvend).

(** What every getter but the one of strings checks first: the end of the field, when it is of the type wanted. *)
Definition tlv_open (data : list Z) (size off type : Z) : access (option Z) :=
  if size <? u32 (off + TLV_HEADER_SIZE) then Done None
  else
    tlvtype ← GetTlvType data off;
    tlvsize ← GetTlvSize data off;
    if (size <? tlvsize) || (u32 (size - tlvsize) <? off) then Done None
    else
      let tlvend := u32 (off + tlvsize) in
      if size <? tlvend then Done None
      else if negb (type =? tlvtype) then Done None
      else Done (Some tlvend).

(** ** Integers *)

Definition SetTlvUInt (n : Z) (data : list Z) (size off type v : Z) : access (bool * list Z * Z) :=
  let tlvsize := u32 (TLV_HEADER_SIZE + n) in
  let tlvend := u32 (off + tlvsize) in
  if size <? tlvend then Done (false, data, off)
  else
    '(ok, data, off) ← SetTlvBase data tlvend off type tlvsize;
    '(ok', data, off) ← setRawUInt n data tlvend off v;
    Done (ok && ok', data, off).

Definition GetTlvUInt (n : Z) (data : list Z) (size off type : Z) : access (option Z * Z) :=
  r ← tlv_open data size off type;
  match r with
  | None => Done (None, off)
  | Some tlvend => getRawUInt n data tlvend (u32 (off + TLV_HEADER_SIZE))
  end.

Definition GetTlvUInt64Size : Z := TLV_HEADER_SIZE + 8.
Definition GetTlvUInt32Size : Z := TLV_HEADER_SIZE + 4.
Definition GetTlvUInt16Size : Z := TLV_HEADER_SIZE + 2.
Definition GetTlvUInt8Size : Z := TLV_HEADER_SIZE + 1.

Definition SetTlvUInt16 := SetTlvUInt 2.
Definition GetTlvUInt16 := GetTlvUInt 2.
Definition SetTlvUInt32 := SetTlvUInt 4.
Definition GetTlvUInt32 := GetTlvUInt 4.
Definition SetTlvUInt64 := SetTlvUInt 8.
Definition GetTlvUInt64 := GetTlvUInt 8.

(** ** Strings *)

Definition GetTlvStringSize (s : list Z) : Z := u32 (TLV_HEADER_SIZE + Z.of_nat (length s)).

Definition SetTlvString (data : list Z) (size off type : Z) (out : list Z) : access (bool * list Z * Z) :=
  let tlvsize := GetTlvStringSize out in
  let tlvend := u32 (off + tlvsize) in
  if size <? tlvend then Done (false, data, off)
  else
    '(ok, data, off) ← SetTlvBase data tlvend off type tlvsize;
    let strlen := u32 (tlvsize - TLV_HEADER_SIZE) in
    data ← mem_write data off (take (Z.to_nat strlen) out);
    Done (ok, data, u32 (off + strlen)).

Definition hex_digit (s : Z) : option Z :=
  if (97 <=? s) && (s <=? 102) then Some (s - 97 + 10)
  else if (65 <=? s) && (s <=? 70) then Some (s - 65 + 10)
  else if (48 <=? s) && (s <=? 57) then Some (s - 48)
  else None.

Definition readHex (s1 s2 : Z) : option Z :=
  match hex_digit s1, hex_digit s2 with
  | Some a, Some b => Some (Z.shiftl a 4 + b)
  | _, _ => None
  end.

(** [ss_pointer] after one more character. *)
Definition next_pointer (ss : list Z) (p : nat) (c : Z) : nat := if nth p ss 0 =? c then S p else 0%nat.

(** The search from [p] characters matched; [%xx] stands for one character. *)
Fixpoint find_from (ss : list Z) (p : nat) (l : list Z) : bool :=
  match l with
  | [] => false
  | c :: l1 =>
      let plain := let p := next_pointer ss p c in (p =? length ss)%nat || find_from ss p l1 in
      match l1 with
      | h1 :: h2 :: l3 =>
          if c =? 37 then
            match readHex h1 h2 with
            | Some v => let p := next_pointer ss p v in (p =? length ss)%nat || find_from ss p l3
            | None => plain
            end
          else plain
      | _ => plain
      end
  end.

Definition find_decoded_string (l ss : list Z) : bool := find_from ss 0 l.

(** <!e, <!E and the base64 beginnings of xml and svg documents. *)
Definition suspiscious_strings : list (list Z) :=
  [[60; 33; 101]; [60; 33; 69]; [80; 68; 57; 52; 98; 87]; [80; 72; 78; 50; 90; 121]].

(** **** String removed (SVG bomb?) **** *)
Definition err_in : list Z :=
  [42; 42; 42; 42; 32; 83; 116; 114; 105; 110; 103; 32; 114; 101; 109; 111; 118; 101; 100; 32; 40; 83; 86; 71; 32; 98; 111;
   109; 98; 63; 41; 32; 42; 42; 42; 42].

(** The text that replaces a suspicious string has its length. *)
Definition defuse (s : list Z) : list Z :=
  if existsb (find_decoded_string s) suspiscious_strings
  then take (length s) (err_in ++ replicate (length s) 32) else s.

(** The types whose strings are shown in lists and file names. *)
Definition plain_text (type : Z) : bool :=
  (type =? 0) || (type =? TLV_TYPE_STR_PEERID) || (type =? TLV_TYPE_STR_NAME) || (type =? TLV_TYPE_STR_PATH)
  || (type =? TLV_TYPE_STR_TITLE) || (type =? TLV_TYPE_STR_SUBJECT) || (type =? TLV_TYPE_STR_LOCATION)
  || (type =? TLV_TYPE_STR_VERSION).

Definition clean_char (c : Z) : Z := if (c <? 0x20) && (0 <? c) then 0x20 else c.

Definition clean_string (type : Z) (s : list Z) : list Z :=
  let s := defuse s in if plain_text type then clean_char <$> s else s.

Definition GetTlvString (data : list Z) (size off type : Z) : access (option (list Z) * Z) :=
  if size <? off then Done (None, off)
  else
    tlvtype ← GetTlvType data off;
    tlvsize ← GetTlvSize data off;
    if (size <? tlvsize) || (u32 (size - tlvsize) <? off) then Done (None, off)
    else if negb (type =? tlvtype) then Done (None, off)
    else
      let strsize := u32 (tlvsize - TLV_HEADER_SIZE) in
      s ← (if strsize <=? 0 then Done [] else mem_read data (off + TLV_HEADER_SIZE) strsize);
      Done (Some (clean_string type s), u32 (off + tlvsize)).

(** ** Addresses *)

Record sockaddr_in := mk_sockaddr_in { s_addr : Z; sin_port : Z }.

Definition GetTlvIpAddrPortV4Size : Z := TLV_HEADER_SIZE + 4 + 2.

Definition SetTlvIpAddrPortV4 (data : list Z) (size off type : Z) (out : sockaddr_in) : access (bool * list Z * Z) :=
  let tlvsize := GetTlvIpAddrPortV4Size in
  let tlvend := u32 (off + tlvsize) in
  if size <? tlvend then Done (false, data, off)
  else
    '(ok1, data, off) ← SetTlvBase data tlvend off type tlvsize;
    '(ok2, data, off) ← setRawUInt32 data tlvend off (s_addr out);
    '(ok3, data, off) ← setRawUInt16 data tlvend off (sin_port out);
    Done (ok1 && ok2 && ok3, data, off).

Definition GetTlvIpAddrPortV4 (data : list Z) (size off type : Z) : access (option sockaddr_in * Z) :=
  r ← tlv_open data size off type;
  match r with
  | None => Done (None, off)
  | Some tlvend =>
      '(ip, off) ← getRawUInt32 data tlvend (u32 (off + TLV_HEADER_SIZE));
      '(port, off) ← getRawUInt16 data tlvend off;
      Done (a ← ip; p ← port; Some (mk_sockaddr_in a p), off)
  end.

(** The address as the four 32-bit words the code copies. *)
Record sockaddr_in6 := mk_sockaddr_in6 { s6_word0 : Z; s6_word1 : Z; s6_word2 : Z; s6_word3 : Z; sin6_port : Z }.

Definition GetTlvIpAddrPortV6Size : Z := TLV_HEADER_SIZE + 16 + 2.

Definition SetTlvIpAddrPortV6 (data : list Z) (size off type : Z) (out : sockaddr_in6) : access (bool * list Z * Z) :=
  let tlvsize := GetTlvIpAddrPortV6Size in
  let tlvend := u32 (off + tlvsize) in
  if size <? tlvend then Done (false, data, off)
  else
    '(ok, data, off) ← SetTlvBase data tlvend off type tlvsize;
    '(ok0, data, off) ← setRawUInt32 data tlvend off (s6_word0 out);
    '(ok1, data, off) ← setRawUInt32 data tlvend off (s6_word1 out);
    '(ok2, data, off) ← setRawUInt32 data tlvend off (s6_word2 out);
    '(ok3, data, off) ← setRawUInt32 data tlvend off (s6_word3 out);
    '(ok4, data, off) ← setRawUInt16 data tlvend off (sin6_port out);
    Done (ok && ok0 && ok1 && ok2 && ok3 && ok4, data, off).

Definition GetTlvIpAddrPortV6 (data : list Z) (size off type : Z) : access (option sockaddr_in6 * Z) :=
  r ← tlv_open data size off type;
  match r with
  | None => Done (None, off)
  | Some tlvend =>
      '(w0, off) ← getRawUInt32 data tlvend (u32 (off + TLV_HEADER_SIZE));
      '(w1, off) ← getRawUInt32 data tlvend off;
      '(w2, off) ← getRawUInt32 data tlvend off;
      '(w3, off) ← getRawUInt32 data tlvend off;
      '(port, off) ← getRawUInt16 data tlvend off;
      Done (a ← w0; b ← w1; c ← w2; d ← w3; p ← port; Some (mk_sockaddr_in6 a b c d p), off)
  end.

(** ** Writing and reading back *)

Definition tlv_header (type len : Z) : list Z := be_bytes 2 type ++ be_bytes 4 len.

Lemma length_tlv_header type len : length (tlv_header type len) = 6%nat.
Proof. unfold tlv_header. by rewrite length_app, !length_be_bytes. Qed.

Lemma buffer_ok_shrink data size size' : buffer_ok data size -> 0 <= size' <= size -> buffer_ok data size'.
Proof. intros [Hs Hd] Hle. split; lia. Qed.

Lemma buffer_ok_splice data size off (bs : list Z) :
  buffer_ok data size -> (off + length bs <= length data)%nat -> buffer_ok (splice off bs data) size.
Proof. intros [H1 H2] Hl. split; [done|]. by rewrite length_splice. Qed.

Lemma SetTlvBase_fits data size off type len : buffer_ok data size -> 0 <= off -> off + 6 <= size ->
  SetTlvBase data size off type len = Done (true, splice (Z.to_nat off) (tlv_header type len) data, off + 6).
Proof.
  intros [Hs Hd] Ho Hf. unfold SetTlvBase. change TLV_HEADER_SIZE with 6. change TLV_HEADER_TYPE_SIZE with 2.
  rewrite wrap_small by (unfold is_word; lia). destruct (Z.ltb_spec size (off + 6)); [lia|].
  rewrite mem_write_in by (rewrite ?length_be_bytes; lia). cbn [mbind access_bind].
  rewrite mem_write_in by (rewrite ?length_splice; rewrite ?length_be_bytes; lia). cbn [mbind access_bind].
  replace (Z.to_nat (off + 2)) with (Z.to_nat off + length (be_bytes 2 type))%nat by (rewrite length_be_bytes; lia).
  rewrite splice_splice by (rewrite !length_be_bytes; lia). done.
Qed.

Lemma header_fields data off type len : is_word 16 type -> is_word 32 len -> 0 <= off -> off + 6 <= Z.of_nat (length data) ->
  slice (Z.to_nat off) 6 data = tlv_header type len -> GetTlvType data off = Done type /\ GetTlvSize data off = Done len.
Proof.
  intros Ht Hn Ho Hf Hs. unfold tlv_header in Hs.
  pose proof (slice_app_inv (Z.to_nat off) (be_bytes 2 type) (be_bytes 4 len) data) as H.
  rewrite length_app, !length_be_bytes in H. destruct (H Hs) as [H1 H2].
  unfold GetTlvType, GetTlvSize. change TLV_HEADER_TYPE_SIZE with 2. change TLV_HEADER_LEN_SIZE with 4.
  rewrite !mem_read_in by lia. cbn [mbind access_bind]. change (Z.to_nat 2) with 2%nat. change (Z.to_nat 4) with 4%nat.
  replace (Z.to_nat (off + 2)) with (Z.to_nat off + 2)%nat by lia. rewrite H1, H2, !be_val_bytes. split; f_equal; by apply Z.mod_small.
Qed.

Lemma tlv_open_enc data size off type len : is_word 16 type -> 6 <= len < 2 ^ 32 -> buffer_ok data size -> 0 <= off ->
  off + len <= size -> slice (Z.to_nat off) 6 data = tlv_header type len -> tlv_open data size off type = Done (Some (off + len)).
Proof.
  intros Ht Hn [Hs Hd] Ho Hf Hsl. unfold tlv_open. change TLV_HEADER_SIZE with 6.
  destruct (header_fields data off type len Ht) as [E1 E2]; [unfold is_word; lia|done|lia|done|].
  rewrite wrap_small by (unfold is_word; lia). destruct (Z.ltb_spec size (off + 6)); [lia|].
  rewrite E1, E2. cbn [mbind access_bind]. rewrite !wrap_small by (unfold is_word; lia).
  destruct (Z.ltb_spec size len); [lia|]. destruct (Z.ltb_spec (size - len) off); [lia|]. cbn [orb].
  destruct (Z.ltb_spec size (off + len)); [lia|]. by rewrite Z.eqb_refl.
Qed.

Lemma slice_header data off type len (rest : list Z) :
  slice off (length (tlv_header type len ++ rest)) data = tlv_header type len ++ rest ->
  slice off 6 data = tlv_header type len /\ slice (off + 6) (length rest) data = rest.
Proof. intros Hsl. pose proof (slice_app_inv off _ _ data Hsl) as [H1 H2]. by rewrite length_tlv_header in H1, H2. Qed.

(** Writing a header and then a value: the shape of every setter. *)
Lemma splice_header off type len (v data : list Z) : (off + 6 + length v <= length data)%nat ->
  splice (off + 6) v (splice off (tlv_header type len) data) = splice off (tlv_header type len ++ v) data.
Proof. intros H. rewrite <- (length_tlv_header type len) at 1. apply splice_splice. rewrite length_tlv_header. lia. Qed.

#[local] Obligation Tactic := idtac.

Program Definition codec_tlv_uint (n : nat) (Hn : (n <= 8)%nat) (type : Z) (Ht : is_word 16 type) : RawCodec Z := {|
  rc_dom v := is_word (8 * Z.of_nat n) v;
  rc_enc v := tlv_header type (6 + Z.of_nat n) ++ be_bytes n v;
  rc_set data size off v := SetTlvUInt (Z.of_nat n) data size off type v;
  rc_get data size off := GetTlvUInt (Z.of_nat n) data size off type
|}.
Next Obligation.
  intros n Hn type Ht data size off v Hv Hb Ho Hf. cbv beta in *. rewrite length_app, length_tlv_header, length_be_bytes in *.
  pose proof Hb as [Hs Hd]. unfold SetTlvUInt. change TLV_HEADER_SIZE with 6. rewrite !wrap_small by (unfold is_word; rewrite ?wrap_small; unfold is_word; lia).
  destruct (Z.ltb_spec size (off + (6 + Z.of_nat n))); [lia|].
  rewrite SetTlvBase_fits by first [lia | eapply buffer_ok_shrink; [exact Hb|lia]]. cbn [mbind access_bind].
  rewrite setRawUInt_fits; [|done|apply buffer_ok_splice; [eapply buffer_ok_shrink; [exact Hb|lia]|rewrite length_tlv_header; lia]|lia|lia].
  cbn [mbind access_bind]. replace (Z.to_nat (off + 6)) with (Z.to_nat off + 6)%nat by lia.
  rewrite splice_header by (rewrite length_be_bytes; lia). do 2 f_equal. lia.
Qed.
Next Obligation.
  intros n Hn type Ht data size off v Hv Hb Ho Hf Hsl. cbv beta in *. apply slice_header in Hsl as [H1 H2].
  rewrite length_app, length_tlv_header, length_be_bytes in *. pose proof Hb as [Hs Hd]. unfold GetTlvUInt.
  rewrite (tlv_open_enc _ _ _ type (6 + Z.of_nat n)) by (done || lia). cbn [mbind access_bind]. change TLV_HEADER_SIZE with 6.
  rewrite wrap_small by (unfold is_word; lia).
  rewrite (getRawUInt_enc n Hn _ _ _ v); [do 2 f_equal; lia|done|by eapply buffer_ok_shrink; [exact Hb|lia]|lia|lia|].
  by replace (Z.to_nat (off + 6)) with (Z.to_nat off + 6)%nat by lia.
Qed.
Next Obligation.
  intros n Hn type Ht data size off v Hv Hb Ho Hf. cbv beta in *. rewrite length_app, length_tlv_header, length_be_bytes in *.
  unfold SetTlvUInt. change TLV_HEADER_SIZE with 6. rewrite (wrap_small 32 (6 + Z.of_nat n)) by (unfold is_word; lia). rewrite wrap_small by (unfold is_word; lia).
  destruct (Z.ltb_spec size (off + (6 + Z.of_nat n))); [done|lia].
Qed.

(** A string that reading leaves alone. *)
Definition string_ok (type : Z) (s : list Z) : Prop := clean_string type s = s /\ 6 + Z.of_nat (length s) < 2 ^ 32.

Program Definition codec_tlv_string (type : Z) (Ht : is_word 16 type) : RawCodec (list Z) := {|
  rc_dom := string_ok type;
  rc_enc s := tlv_header type (6 + Z.of_nat (length s)) ++ s;
  rc_set data size off s := SetTlvString data size off type s;
  rc_get data size off := GetTlvString data size off type
|}.
Next Obligation.
  intros type Ht data size off s [_ Hlen] Hb Ho Hf. cbv beta in *. rewrite length_app, length_tlv_header in *.
  pose proof Hb as [Hs Hd]. unfold SetTlvString, GetTlvStringSize. change TLV_HEADER_SIZE with 6.
  rewrite (wrap_small 32 (6 + _)) by (unfold is_word; lia). rewrite (wrap_small 32 (off + _)) by (unfold is_word; lia).
  destruct (Z.ltb_spec size (off + (6 + Z.of_nat (length s)))); [lia|].
  rewrite SetTlvBase_fits by first [lia | eapply buffer_ok_shrink; [exact Hb|lia]]. cbn [mbind access_bind].
  replace (6 + Z.of_nat (length s) - 6) with (Z.of_nat (length s)) by lia. rewrite (wrap_small 32 (Z.of_nat _)) by (unfold is_word; lia).
  rewrite Nat2Z.id, take_ge by done. rewrite mem_write_in by (rewrite ?length_splice; rewrite ?length_tlv_header; lia). cbn [mbind access_bind].
  replace (Z.to_nat (off + 6)) with (Z.to_nat off + 6)%nat by lia. rewrite splice_header by lia.
  rewrite wrap_small by (unfold is_word; lia). do 2 f_equal. lia.
Qed.
Next Obligation.
  intros type Ht data size off s [Hclean Hlen] Hb Ho Hf Hsl. cbv beta in *. apply slice_header in Hsl as [H1 H2].
  rewrite length_app, length_tlv_header in *. pose proof Hb as [Hs Hd].
  destruct (header_fields data off type (6 + Z.of_nat (length s)) Ht) as [E1 E2]; [unfold is_word; lia|done|lia|done|].
  unfold GetTlvString. destruct (Z.ltb_spec size off); [lia|]. rewrite E1, E2. cbn [mbind access_bind].
  rewrite (wrap_small 32 (size - _)) by (unfold is_word; lia). change TLV_HEADER_SIZE with 6.
  destruct (Z.ltb_spec size (6 + Z.of_nat (length s))); [lia|]. destruct (Z.ltb_spec (size - (6 + Z.of_nat (length s))) off); [lia|].
  cbn [orb]. rewrite Z.eqb_refl. cbn [negb].
  replace (6 + Z.of_nat (length s) - 6) with (Z.of_nat (length s)) by lia. rewrite (wrap_small 32 (Z.of_nat _)) by (unfold is_word; lia).
  assert (E : (if Z.of_nat (length s) <=? 0 then Done [] else mem_read data (off + 6) (Z.of_nat (length s))) = Done s).
  { destruct (Z.leb_spec (Z.of_nat (length s)) 0); [destruct s; [done|cbn in *; lia]|].
    rewrite mem_read_in by lia. replace (Z.to_nat (off + 6)) with (Z.to_nat off + 6)%nat by lia. by rewrite Nat2Z.id, H2. }
  rewrite E. cbn [mbind access_bind]. rewrite Hclean, wrap_small by (unfold is_word; lia). do 2 f_equal. lia.
Qed.
Next Obligation.
  intros type Ht data size off s [_ Hlen] Hb Ho Hf. cbv beta in *. rewrite length_app, length_tlv_header in *.
  unfold SetTlvString, GetTlvStringSize. change TLV_HEADER_SIZE with 6.
  rewrite (wrap_small 32 (6 + _)) by (unfold is_word; lia). rewrite (wrap_small 32 (off + _)) by (unfold is_word; lia).
  destruct (Z.ltb_spec size (off + (6 + Z.of_nat (length s)))); [done|lia].
Qed.

(** The integers of an address, one after the other behind what was written before. *)
Lemma setRaw_next (n : nat) data size off (pre : list Z) v : (n <= 8)%nat -> buffer_ok data size -> 0 <= off ->
  off + Z.of_nat (length pre) + Z.of_nat n <= size ->
  setRawUInt (Z.of_nat n) (splice (Z.to_nat off) pre data) size (off + Z.of_nat (length pre)) v =
    Done (true, splice (Z.to_nat off) (pre ++ be_bytes n v) data, off + Z.of_nat (length (pre ++ be_bytes n v))).
Proof.
  intros Hn Hb Ho Hf. pose proof Hb as [Hs Hd]. rewrite setRawUInt_fits; [|done|apply buffer_ok_splice; [done|lia]|lia|lia].
  replace (Z.to_nat (off + Z.of_nat (length pre))) with (Z.to_nat off + length pre)%nat by lia.
  rewrite splice_splice by (rewrite length_be_bytes; lia). rewrite length_app, length_be_bytes. do 2 f_equal. lia.
Qed.

Lemma getRaw_next (n : nat) data size off (pre : list Z) v post : (n <= 8)%nat -> buffer_ok data size -> 0 <= off ->
  off + Z.of_nat (length pre) + Z.of_nat n <= size -> is_word (8 * Z.of_nat n) v ->
  slice (Z.to_nat off) (length (pre ++ be_bytes n v ++ post)) data = pre ++ be_bytes n v ++ post ->
  getRawUInt (Z.of_nat n) data size (off + Z.of_nat (length pre)) = Done (Some v, off + Z.of_nat (length (pre ++ be_bytes n v))).
Proof.
  intros Hn Hb Ho Hf Hv Hsl. pose proof Hb as [Hs Hd]. apply slice_app_inv in Hsl as [_ Hsl]. apply slice_app_inv in Hsl as [Hsl _].
  rewrite length_be_bytes in Hsl. rewrite (getRawUInt_enc n Hn _ _ _ v); [|done|done|lia|lia|].
  - rewrite length_app, length_be_bytes. do 2 f_equal. lia.
  - by replace (Z.to_nat (off + Z.of_nat (length pre))) with (Z.to_nat off + length pre)%nat by lia.
Qed.

Definition ip4_enc (type : Z) (a : sockaddr_in) : list Z :=
  (tlv_header type 12 ++ be_bytes 4 (s_addr a)) ++ be_bytes 2 (sin_port a).

Program Definition codec_tlv_ip4 (type : Z) (Ht : is_word 16 type) : RawCodec sockaddr_in := {|
  rc_dom a := is_word 32 (s_addr a) /\ is_word 16 (sin_port a);
  rc_enc := ip4_enc type;
  rc_set data size off a := SetTlvIpAddrPortV4 data size off type a;
  rc_get data size off := GetTlvIpAddrPortV4 data size off type
|}.
Next Obligation.
  intros type Ht data size off a Hdom Hb Ho Hf. cbv beta in *.
  assert (Hl : length (ip4_enc type a) = 12%nat) by (unfold ip4_enc; by rewrite !length_app, length_tlv_header, !length_be_bytes).
  rewrite Hl in *. pose proof Hb as [Hs Hd]. unfold SetTlvIpAddrPortV4. change GetTlvIpAddrPortV4Size with 12.
  rewrite wrap_small by (unfold is_word; lia). destruct (Z.ltb_spec size (off + 12)); [lia|].
  assert (Hb' : buffer_ok data (off + 12)) by (eapply buffer_ok_shrink; [exact Hb|lia]).
  rewrite SetTlvBase_fits by first [lia|done]. cbn [mbind access_bind].
  assert (E6 : off + 6 = off + Z.of_nat (length (tlv_header type 12))) by (rewrite length_tlv_header; lia). rewrite E6. clear E6.
  unfold setRawUInt32, setRawUInt16.
  rewrite (setRaw_next 4) by first [lia|done|rewrite ?length_app, ?length_tlv_header, ?length_be_bytes; lia]. cbn [mbind access_bind].
  rewrite (setRaw_next 2) by first [lia|done|rewrite ?length_app, ?length_tlv_header, ?length_be_bytes; lia]. cbn [mbind access_bind].
  fold (ip4_enc type a). by rewrite Hl.
Qed.
Next Obligation.
  intros type Ht data size off a [Ha Hp] Hb Ho Hf Hsl. cbv beta in *.
  assert (Hl : length (ip4_enc type a) = 12%nat) by (unfold ip4_enc; by rewrite !length_app, length_tlv_header, !length_be_bytes).
  pose proof Hb as [Hs Hd]. rewrite Hl in Hf |- *. assert (Hb' : buffer_ok data (off + 12)) by (eapply buffer_ok_shrink; [exact Hb|lia]).
  unfold GetTlvIpAddrPortV4. rewrite (tlv_open_enc _ _ _ type 12); [|done|lia|done|lia|lia|].
  2: { unfold ip4_enc in Hsl. rewrite <- app_assoc in Hsl. by apply slice_header in Hsl as [H1 _]. }
  cbn [mbind access_bind]. change TLV_HEADER_SIZE with 6. rewrite wrap_small by (unfold is_word; lia).
  assert (E6 : off + 6 = off + Z.of_nat (length (tlv_header type 12))) by (rewrite length_tlv_header; lia). rewrite E6. clear E6.
  unfold getRawUInt32, getRawUInt16.
  rewrite (getRaw_next 4 _ _ _ _ (s_addr a) (be_bytes 2 (sin_port a))); [|lia|done|lia|rewrite length_tlv_header; lia|done|].
  2: { unfold ip4_enc in Hsl. by rewrite <- !app_assoc in Hsl. }
  cbn [mbind access_bind].
  rewrite (getRaw_next 2 _ _ _ _ (sin_port a) []); [|lia|done|lia|rewrite length_app, length_tlv_header, length_be_bytes; lia|done|].
  2: { rewrite app_nil_r. exact Hsl. }
  cbn [mbind access_bind option_bind]. fold (ip4_enc type a). rewrite Hl. by destruct a.
Qed.
Next Obligation.
  intros type Ht data size off a Hdom Hb Ho Hf. cbv beta in *.
  assert (Hl : length (ip4_enc type a) = 12%nat) by (unfold ip4_enc; by rewrite !length_app, length_tlv_header, !length_be_bytes).
  rewrite Hl in *. unfold SetTlvIpAddrPortV4. change GetTlvIpAddrPortV4Size with 12.
  rewrite wrap_small by (unfold is_word; lia). destruct (Z.ltb_spec size (off + 12)); [done|lia].
Qed.

Definition ip6_enc (type : Z) (a : sockaddr_in6) : list Z :=
  ((((tlv_header type 24 ++ be_bytes 4 (s6_word0 a)) ++ be_bytes 4 (s6_word1 a)) ++ be_bytes 4 (s6_word2 a))
     ++ be_bytes 4 (s6_word3 a)) ++ be_bytes 2 (sin6_port a).

Ltac enc_lengths := rewrite ?length_app, ?length_tlv_header, ?length_be_bytes.

(** One more integer written, or read back. *)
Ltac set_next n := rewrite (setRaw_next n) by first [lia | done | enc_lengths; lia]; cbn [mbind access_bind].

Ltac get_next n v post Hsl := rewrite (getRaw_next n _ _ _ _ v post);
  [cbn [mbind access_bind] | lia | done | lia | enc_lengths; lia | done
  | first [rewrite app_nil_r; exact Hsl | rewrite <- ?app_assoc; rewrite <- ?app_assoc in Hsl; exact Hsl]].

Program Definition codec_tlv_ip6 (type : Z) (Ht : is_word 16 type) : RawCodec sockaddr_in6 := {|
  rc_dom a := is_word 32 (s6_word0 a) /\ is_word 32 (s6_word1 a) /\ is_word 32 (s6_word2 a) /\ is_word 32 (s6_word3 a) /\
              is_word 16 (sin6_port a);
  rc_enc := ip6_enc type;
  rc_set data size off a := SetTlvIpAddrPortV6 data size off type a;
  rc_get data size off := GetTlvIpAddrPortV6 data size off type
|}.
Next Obligation.
  intros type Ht data size off a Hdom Hb Ho Hf. cbv beta in *.
  assert (Hl : length (ip6_enc type a) = 24%nat) by (unfold ip6_enc; by enc_lengths).
  rewrite Hl in *. pose proof Hb as [Hs Hd]. unfold SetTlvIpAddrPortV6. change GetTlvIpAddrPortV6Size with 24.
  rewrite wrap_small by (unfold is_word; lia). destruct (Z.ltb_spec size (off + 24)); [lia|].
  assert (Hb' : buffer_ok data (off + 24)) by (eapply buffer_ok_shrink; [exact Hb|lia]).
  rewrite SetTlvBase_fits by first [lia|done]. cbn [mbind access_bind].
  assert (E6 : off + 6 = off + Z.of_nat (length (tlv_header type 24))) by (rewrite length_tlv_header; lia). rewrite E6. clear E6.
  unfold setRawUInt32, setRawUInt16. set_next 4%nat. set_next 4%nat. set_next 4%nat. set_next 4%nat. set_next 2%nat.
  fold (ip6_enc type a). by rewrite Hl.
Qed.
Next Obligation.
  intros type Ht data size off a (H0 & H1 & H2 & H3 & Hp) Hb Ho Hf Hsl. cbv beta in *.
  assert (Hl : length (ip6_enc type a) = 24%nat) by (unfold ip6_enc; by enc_lengths).
  pose proof Hb as [Hs Hd]. rewrite Hl in Hf |- *. assert (Hb' : buffer_ok data (off + 24)) by (eapply buffer_ok_shrink; [exact Hb|lia]).
  unfold GetTlvIpAddrPortV6. rewrite (tlv_open_enc _ _ _ type 24); [|done|lia|done|lia|lia|].
  2: { unfold ip6_enc in Hsl. rewrite <- !app_assoc in Hsl. by apply slice_header in Hsl as [E1 _]. }
  cbn [mbind access_bind]. change TLV_HEADER_SIZE with 6. rewrite wrap_small by (unfold is_word; lia).
  assert (E6 : off + 6 = off + Z.of_nat (length (tlv_header type 24))) by (rewrite length_tlv_header; lia). rewrite E6. clear E6.
  unfold getRawUInt32, getRawUInt16. unfold ip6_enc in Hsl.
  get_next 4%nat (s6_word0 a) (be_bytes 4 (s6_word1 a) ++ be_bytes 4 (s6_word2 a) ++ be_bytes 4 (s6_word3 a) ++ be_bytes 2 (sin6_port a)) Hsl.
  get_next 4%nat (s6_word1 a) (be_bytes 4 (s6_word2 a) ++ be_bytes 4 (s6_word3 a) ++ be_bytes 2 (sin6_port a)) Hsl.
  get_next 4%nat (s6_word2 a) (be_bytes 4 (s6_word3 a) ++ be_bytes 2 (sin6_port a)) Hsl.
  get_next 4%nat (s6_word3 a) (be_bytes 2 (sin6_port a)) Hsl.
  get_next 2%nat (sin6_port a) (@nil Z) Hsl.
  cbn [option_bind mbind]. fold (ip6_enc type a). rewrite Hl. by destruct a.
Qed.
Next Obligation.
  intros type Ht data size off a Hdom Hb Ho Hf. cbv beta in *.
  assert (Hl : length (ip6_enc type a) = 24%nat) by (unfold ip6_enc; by enc_lengths).
  rewrite Hl in *. unfold SetTlvIpAddrPortV6. change GetTlvIpAddrPortV6Size with 24.
  rewrite wrap_small by (unfold is_word; lia). destruct (Z.ltb_spec size (off + 24)); [done|lia].
Qed.

(** ** Sequences of fields, of any family of codecs *)

Section Sequence.
Context {T : Type} (V : T -> Type) (C : forall t, RawCodec (V t)).

Definition seq_field : Type := { t : T & V t }.
Definition seq_enc (fs : list seq_field) : list Z := concat ((fun f : seq_field => @rc_enc _ (C (projT1 f)) (projT2 f)) <$> fs).
Definition seq_dom (f : seq_field) : Prop := @rc_dom _ (C (projT1 f)) (projT2 f).

Fixpoint set_seq (data : list Z) (size off : Z) (fs : list seq_field) : access (bool * list Z * Z) :=
  match fs with
  | [] => Done (true, data, off)
  | f :: fs =>
      '(ok, data, off) ← @rc_set _ (C (projT1 f)) data size off (projT2 f);
      if negb ok then Done (false, data, off) else set_seq data size off fs
  end.

Fixpoint get_seq (data : list Z) (size off : Z) (ts : list T) : access (option (list seq_field) * Z) :=
  match ts with
  | [] => Done (Some [], off)
  | t :: ts =>
      '(r, off) ← @rc_get _ (C t) data size off;
      match r with
      | None => Done (None, off)
      | Some v => '(rs, off) ← get_seq data size off ts; Done (option_map (cons (existT t v)) rs, off)
      end
  end.

Lemma set_seq_fits fs : forall data size off, Forall seq_dom fs -> buffer_ok data size -> 0 <= off ->
  off + Z.of_nat (length (seq_enc fs)) <= size ->
  set_seq data size off fs = Done (true, splice (Z.to_nat off) (seq_enc fs) data, off + Z.of_nat (length (seq_enc fs))).
Proof.
  induction fs as [|f fs IH]; intros data size off Hd Hb Ho Hf; pose proof Hb as [Hs Hl].
  - cbn. rewrite Z.add_0_r. unfold splice. cbn. by rewrite Nat.add_0_r, take_drop.
  - apply Forall_cons in Hd as [Hv Hd]. cbn [set_seq]. unfold seq_enc in *. cbn [fmap list_fmap concat] in *.
    rewrite length_app, Nat2Z.inj_add in *. rewrite rc_set_fits by (done || lia). cbn [mbind access_bind negb].
    rewrite IH; [|done|by apply buffer_ok_splice; [|lia]|lia|lia].
    replace (Z.to_nat (off + _)) with (Z.to_nat off + length (@rc_enc _ (C (projT1 f)) (projT2 f)))%nat by lia.
    rewrite splice_splice by lia. do 2 f_equal. lia.
Qed.

Lemma get_seq_enc fs : forall data size off, Forall seq_dom fs -> buffer_ok data size -> 0 <= off ->
  off + Z.of_nat (length (seq_enc fs)) <= size -> slice (Z.to_nat off) (length (seq_enc fs)) data = seq_enc fs ->
  get_seq data size off (projT1 <$> fs) = Done (Some fs, off + Z.of_nat (length (seq_enc fs))).
Proof.
  induction fs as [|[t v] fs IH]; intros data size off Hd Hb Ho Hf Hsl.
  - cbn. by rewrite Z.add_0_r.
  - apply Forall_cons in Hd as [Hv Hd]. unfold seq_enc in *. cbn [fmap list_fmap concat projT1 projT2] in *.
    apply slice_app_inv in Hsl as [H1 H2]. rewrite length_app, Nat2Z.inj_add in *. cbn [get_seq].
    rewrite (rc_get_enc _ _ _ v) by (done || lia). cbn [mbind access_bind].
    rewrite IH; [|done|done|lia|lia|].
    + cbn [mbind access_bind option_map]. do 2 f_equal. lia.
    + replace (Z.to_nat (off + _)) with (Z.to_nat off + length (rc_enc v))%nat by lia. done.
Qed.

Lemma seq_roundtrip fs data size off : Forall seq_dom fs -> buffer_ok data size -> 0 <= off ->
  off + Z.of_nat (length (seq_enc fs)) <= size ->
  exists data', set_seq data size off fs = Done (true, data', off + Z.of_nat (length (seq_enc fs))) /\
    length data' = length data /\
    get_seq data' size off (projT1 <$> fs) = Done (Some fs, off + Z.of_nat (length (seq_enc fs))).
Proof.
  intros Hd Hb Ho Hf. pose proof Hb as [Hs Hl]. eexists. split; [by apply set_seq_fits|]. rewrite length_splice by lia. split; [done|].
  apply get_seq_enc; try done; [apply buffer_ok_splice; [done|lia]|]. apply slice_splice_eq. lia.
Qed.
End Sequence.

Inductive tlv_kind := T16 | T32 | T64 | TString | TIpV4 | TIpV6.

(** A kind of field and its type number. *)
Record tlv_desc := mk_tlv_desc { td_kind : tlv_kind; td_type : Z; td_word : is_word 16 td_type }.

Definition tlv_val (d : tlv_desc) : Type :=
  match td_kind d with TString => list Z | TIpV4 => sockaddr_in | TIpV6 => sockaddr_in6 | _ => Z end.

#[export] Instance tlv_codec (d : tlv_desc) : RawCodec (tlv_val d) :=
  match d with
  | mk_tlv_desc T16 type H => codec_tlv_uint 2 ltac:(lia) type H
  | mk_tlv_desc T32 type H => codec_tlv_uint 4 ltac:(lia) type H
  | mk_tlv_desc T64 type H => codec_tlv_uint 8 ltac:(lia) type H
  | mk_tlv_desc TString type H => codec_tlv_string type H
  | mk_tlv_desc TIpV4 type H => codec_tlv_ip4 type H
  | mk_tlv_desc TIpV6 type H => codec_tlv_ip6 type H
  end.

(** C39 A sequence of TLV fields of any kinds - integers, strings that reading does not clean, addresses - written one after
    the other is read back field for field, with the same final offset, whatever the rest of the buffer holds. *)
Theorem tlv_fields_roundtrip (fs : list (seq_field tlv_val)) (data : list Z) (size off : Z)
    (Hdom : Forall (seq_dom tlv_val tlv_codec) fs) (Hbuf : buffer_ok data size) (Hoff : 0 <= off)
    (Hfit : off + Z.of_nat (length (seq_enc tlv_val tlv_codec fs)) <= size) :
  exists data',
    set_seq tlv_val tlv_codec data size off fs = Done (true, data', off + Z.of_nat (length (seq_enc tlv_val tlv_codec fs))) /\
    length data' = length data /\
    get_seq tlv_val tlv_codec data' size off (projT1 <$> fs) =
      Done (Some fs, off + Z.of_nat (length (seq_enc tlv_val tlv_codec fs))).
Proof. by apply seq_roundtrip. Qed.

Lemma type_word (z : Z) (H : (0 <=? z) && (z <? 2 ^ 16) = true) : is_word 16 z.
Proof. unfold is_word. lia. Qed.

Definition desc (k : tlv_kind) (z : Z) (H : (0 <=? z) && (z <? 2 ^ 16) = true) : tlv_desc := mk_tlv_desc k z (type_word z H).

Definition example_tlv : list (seq_field tlv_val) :=
  [existT (desc TString TLV_TYPE_STR_NAME eq_refl) [97; 108; 105; 99; 101]; existT (desc T32 0x30 eq_refl) 4294967295;
   existT (desc TIpV4 0x85 eq_refl) (mk_sockaddr_in 16777343 4242);
   existT (desc TIpV6 0x86 eq_refl) (mk_sockaddr_in6 1 2 3 4 5); existT (desc T16 7 eq_refl) 65535].

Lemma tlv_fields_roundtrip_witness :
  exists data',
    set_seq tlv_val tlv_codec (replicate 80 0) 80 3 example_tlv = Done (true, data', 68) /\ length data' = 80%nat /\
    get_seq tlv_val tlv_codec data' 80 3 (projT1 <$> example_tlv) = Done (Some example_tlv, 68).
Proof.
  apply (tlv_fields_roundtrip example_tlv (replicate 80 0) 80 3).
  - repeat constructor; vm_compute; try done; split; done.
  - split; cbn; lia.
  - lia.
  - vm_compute. discriminate.
Defined.

(** ** What reading a string can do *)

Lemma mem_read_out data off n : 0 <= off -> Z.of_nat (length data) < off + n -> mem_read data off n = Oob.
Proof.
  intros Ho Hn. unfold mem_read, in_range. destruct (Z.leb_spec (off + n) (Z.of_nat (length data))); [lia|]. by rewrite andb_false_r.
Qed.

(** Reading a string from the [off]th byte of a packet, in every case.  The guard [size < *offset] forgets the header, and
    the size announced is not compared with the header's: with fewer than six bytes left, or with an announced size
    below six, the code reads outside the packet, however short the rest is. *)
Theorem GetTlvString_outcome (data : list Z) (off type : Z)
    (Hbytes : bytes_ok data) (Hsize : Z.of_nat (length data) < 2 ^ 31) (Hoff : 0 <= off <= Z.of_nat (length data)) :
  let size := Z.of_nat (length data) in
  let announced := be_val (slice (Z.to_nat (off + 2)) 4 data) in
  GetTlvString data size off type =
    if size <? off + 6 then Oob
    else if (size - off <? announced) || negb (type =? be_val (slice (Z.to_nat off) 2 data)) then Done (None, off)
    else if announced <? 6 then Oob
    else Done (Some (clean_string type (slice (Z.to_nat (off + 6)) (Z.to_nat (announced - 6)) data)), off + announced).
Proof.
  cbv zeta. set (size := Z.of_nat (length data)) in *. set (n := be_val _). unfold GetTlvString, GetTlvType, GetTlvSize.
  change TLV_HEADER_TYPE_SIZE with 2. change TLV_HEADER_LEN_SIZE with 4. change TLV_HEADER_SIZE with 6.
  destruct (Z.ltb_spec size off); [lia|].
  destruct (Z.ltb_spec size (off + 6)) as [Hh|Hh].
  { unfold size in *. destruct (decide (Z.of_nat (length data) < off + 2)).
    - rewrite (mem_read_out data off 2) by lia. reflexivity.
    - rewrite (mem_read_in data off 2) by lia. cbn [mbind access_bind]. rewrite (mem_read_out data (off + 2) 4) by lia. reflexivity. }
  rewrite !mem_read_in by (unfold size in *; lia). cbn [mbind access_bind]. change (Z.to_nat 2) with 2%nat. change (Z.to_nat 4) with 4%nat. fold n.
  assert (Hn : 0 <= n < 2 ^ 32).
  { unfold n. replace 32 with (8 * Z.of_nat (length (slice (Z.to_nat (off + 2)) 4 data))).
    - apply be_val_range. by apply Forall_take, Forall_drop.
    - unfold slice. rewrite length_take, length_drop. unfold size in *. lia. }
  clearbody n. destruct (Z.ltb_spec size n) as [H1|H1]; destruct (Z.ltb_spec (size - off) n) as [H2|H2]; try lia; cbn [orb]; [done| |].
  { rewrite wrap_small by (unfold is_word; lia). destruct (Z.ltb_spec (size - n) off); [done|lia]. }
  rewrite wrap_small by (unfold is_word; lia). destruct (Z.ltb_spec (size - n) off); [lia|].
  destruct (negb _); [done|]. destruct (Z.ltb_spec n 6) as [H6|H6].
  - assert (E : u32 (n - 6) = n - 6 + 2 ^ 32) by (unfold wrap; rewrite <- (Z_mod_plus_full (n - 6) 1); apply Z.mod_small; lia).
    rewrite E. destruct (Z.leb_spec (n - 6 + 2 ^ 32) 0); [lia|]. rewrite mem_read_out by (unfold size in *; lia). reflexivity.
  - rewrite (wrap_small 32 (n - 6)) by (unfold is_word; lia). rewrite (wrap_small 32 (off + n)) by (unfold is_word; lia).
    destruct (Z.leb_spec (n - 6) 0); [by replace (n - 6) with 0 by lia|].
    rewrite mem_read_in by (unfold size in *; lia). reflexivity.
Qed.

Lemma GetTlvString_outcome_witness :
  GetTlvString [0; 84; 0; 0; 0; 8; 72; 105] 8 0 TLV_TYPE_STR_VALUE = Done (Some [72; 105], 8) /\
  GetTlvString [0; 84; 0; 0; 0; 3] 6 0 TLV_TYPE_STR_VALUE = Oob /\ GetTlvString [0; 84; 0; 0] 4 4 TLV_TYPE_STR_VALUE = Oob.
Proof.
  assert (Hb : forall l : list Z, forallb (fun x => (0 <=? x) && (x <? 256)) l = true -> bytes_ok l).
  { intros l H. apply Forall_forall. intros x Hx. rewrite forallb_forall in H. specialize (H x). rewrite <- list_elem_of_In in H.
    specialize (H Hx). unfold is_word. lia. }
  split; [|split].
  - etransitivity; [apply (GetTlvString_outcome [0; 84; 0; 0; 0; 8; 72; 105] 0 TLV_TYPE_STR_VALUE); [by apply Hb|done|done]|reflexivity].
  - etransitivity; [apply (GetTlvString_outcome [0; 84; 0; 0; 0; 3] 0 TLV_TYPE_STR_VALUE); [by apply Hb|done|done]|reflexivity].
  - etransitivity; [apply (GetTlvString_outcome [0; 84; 0; 0] 4 TLV_TYPE_STR_VALUE); [by apply Hb|done|done]|reflexivity].
Defined.

(** ** What reading does to a string *)

Lemma next_pointer_clean ss p c : Forall (fun c => 32 < c) ss -> next_pointer ss p (clean_char c) = next_pointer ss p c.
Proof.
  intros Hss. unfold next_pointer, clean_char. destruct (_ && _) eqn:E; [|done].
  assert (Hn : nth p ss 0 = 0 \/ 32 < nth p ss 0).
  { destruct (decide (p < length ss)%nat) as [Hp|Hp]; [right|left; apply nth_overflow; lia].
    apply (proj1 (List.Forall_forall _ _) Hss). by apply nth_In. }
  destruct (Z.eqb_spec (nth p ss 0) 32); destruct (Z.eqb_spec (nth p ss 0) c); (done || lia).
Qed.

Lemma hex_digit_clean c : hex_digit (clean_char c) = hex_digit c.
Proof.
  unfold clean_char. destruct (_ && _) eqn:E; [|done]. unfold hex_digit at 2.
  destruct (Z.leb_spec 97 c); [lia|]. destruct (Z.leb_spec 65 c); [lia|]. destruct (Z.leb_spec 48 c); [lia|]. done.
Qed.

Lemma percent_clean c : (clean_char c =? 37) = (c =? 37).
Proof. unfold clean_char. destruct (_ && _) eqn:E; [|done]. destruct (Z.eqb_spec c 37); [lia|done]. Qed.

Lemma find_from_cons ss p c l1 : find_from ss p (c :: l1) =
  let plain := let p := next_pointer ss p c in (p =? length ss)%nat || find_from ss p l1 in
  match l1 with
  | h1 :: h2 :: l3 =>
      if c =? 37 then
        match readHex h1 h2 with
        | Some v => let p := next_pointer ss p v in (p =? length ss)%nat || find_from ss p l3
        | None => plain
        end
      else plain
  | _ => plain
  end.
Proof. reflexivity. Qed.

(** Control characters play no part in the search. *)
Lemma find_from_clean ss : Forall (fun c => 32 < c) ss -> forall n l p, (length l <= n)%nat ->
  find_from ss p (clean_char <$> l) = find_from ss p l.
Proof.
  intros Hss. induction n as [|n IH]; intros l p Hl; [by destruct l; [|cbn in Hl; lia]|].
  destruct l as [|c l]; [done|]. cbn [fmap list_fmap]. change (list_fmap _ _ clean_char l) with (clean_char <$> l).
  rewrite !find_from_cons. cbv zeta. rewrite !next_pointer_clean by done.
  assert (E1 : forall q, find_from ss q (clean_char <$> l) = find_from ss q l) by (intros q; apply IH; cbn in *; lia).
  rewrite E1. destruct l as [|h1 [|h2 l]]; [done|done|]. cbn [fmap list_fmap].
  rewrite percent_clean. unfold readHex. rewrite !hex_digit_clean.
  assert (E2 : forall q, find_from ss q (list_fmap _ _ clean_char l) = find_from ss q l) by (intros q; apply (IH l); cbn in *; lia).
  destruct (c =? 37); [|done]. destruct (hex_digit h1), (hex_digit h2); by rewrite ?E2.
Qed.

Lemma find_from_absent ss c0 ss' : ss = c0 :: ss' -> forall l, Forall (fun c => c <> c0 /\ c <> 37) l -> find_from ss 0 l = false.
Proof.
  intros ->. induction l as [|c l IH]; intros Hl; [done|]. apply Forall_cons in Hl as [[Hc Hp] Hl]. rewrite find_from_cons. cbv zeta.
  assert (E : next_pointer (c0 :: ss') 0 c = 0%nat) by (unfold next_pointer; cbn; destruct (Z.eqb_spec c0 c); [congruence|done]).
  rewrite E, (IH Hl). destruct (Z.eqb_spec c 37); [done|]. cbn. by destruct l as [|? [|? ?]].
Qed.

Lemma suspiscious_above : Forall (Forall (fun c => 32 < c)) suspiscious_strings.
Proof. repeat constructor. Qed.

Lemma find_err n : existsb (find_decoded_string (take n (err_in ++ replicate n 32))) suspiscious_strings = false.
Proof.
  set (l := take n _). assert (Hl : Forall (fun c => c <> 60 /\ c <> 80 /\ c <> 37) l).
  { apply Forall_take, Forall_app. split; [repeat constructor; done|]. apply Forall_replicate. done. }
  assert (H60 : Forall (fun c => c <> 60 /\ c <> 37) l) by (eapply Forall_impl; [exact Hl|]; cbn; tauto).
  assert (H80 : Forall (fun c => c <> 80 /\ c <> 37) l) by (eapply Forall_impl; [exact Hl|]; cbn; tauto).
  unfold suspiscious_strings, find_decoded_string. cbn [existsb].
  rewrite !(find_from_absent _ 60 _ eq_refl l H60), !(find_from_absent _ 80 _ eq_refl l H80). done.
Qed.

Lemma length_defuse s : length (defuse s) = length s.
Proof.
  unfold defuse. destruct (existsb _ _); [|done]. rewrite length_take, length_app, length_replicate. lia.
Qed.

Lemma defuse_clean s : existsb (find_decoded_string (defuse s)) suspiscious_strings = false.
Proof. unfold defuse. destruct (existsb (find_decoded_string s) suspiscious_strings) eqn:E; [apply find_err|exact E]. Qed.

Lemma existsb_clean s : existsb (find_decoded_string (clean_char <$> s)) suspiscious_strings = existsb (find_decoded_string s) suspiscious_strings.
Proof.
  pose proof suspiscious_above as H. induction H as [|ss sss Hss _ IH]; [done|]. cbn [existsb]. f_equal; [|exact IH].
  by apply (find_from_clean ss Hss (length s)).
Qed.

Lemma clean_char_idem c : clean_char (clean_char c) = clean_char c.
Proof. unfold clean_char. by destruct ((c <? 0x20) && (0 <? c)) eqn:E; rewrite ?E. Qed.

Lemma clean_string_idem type s : clean_string type (clean_string type s) = clean_string type s.
Proof.
  assert (H : forall t, existsb (find_decoded_string t) suspiscious_strings = false -> defuse t = t) by (intros t E; unfold defuse; by rewrite E).
  unfold clean_string. cbv zeta. destruct (plain_text type).
  - rewrite H by (rewrite existsb_clean; apply defuse_clean). rewrite <- list_fmap_compose. apply list_fmap_ext. intros. apply clean_char_idem.
  - apply H, defuse_clean.
Qed.

(** What [GetTlvString] returns has the announced length and can be written and read again without change; a string
    of a type shown as text has no control character. *)
Theorem clean_string_stable (type : Z) (s : list Z) :
  let s' := clean_string type s in
  length s' = length s /\ clean_string type s' = s' /\
  (plain_text type = true -> Forall (fun c => c <= 0 \/ 32 <= c) s').
Proof.
  cbv zeta. split; [|split; [apply clean_string_idem|]].
  - unfold clean_string. destruct (plain_text type); [rewrite length_fmap|]; apply length_defuse.
  - unfold clean_string. intros ->. apply Forall_fmap, Forall_true. intros c. cbn. unfold clean_char. destruct (_ && _) eqn:E; lia.
Qed.

(** A document type declaration behind one more "<". *)
Definition doubled_bracket : list Z := [60; 60; 33; 69; 78; 84; 73; 84; 89].

(** The filter against XML bombs starts over after a mismatch without looking at the mismatching character again: one more
    "<" in front of "<!ENTITY" and the string is accepted as it is, forbidden part included. *)
Theorem filter_misses_doubled_bracket :
  let ss := [60; 33; 69] in
  In ss suspiscious_strings /\ slice 1 3 doubled_bracket = ss /\ find_decoded_string doubled_bracket ss = false /\
  GetTlvString (tlv_header TLV_TYPE_STR_VALUE 15 ++ doubled_bracket) 15 0 TLV_TYPE_STR_VALUE = Done (Some doubled_bracket, 15).
Proof. split; [by right; left|]. by vm_compute. Qed.
