(* ===== verification/TlvSets.v ===== *)
(** * Compound TLV items: src/serialiser/rstlvstring.cc, rstlvkeyvalue.cc

    Sets of strings, pairs and sets of pairs.  Their readers loop over the fields inside the item and step over those they do not
    know.  Nothing in the code bounds these loops, so they have fuel here: [None] is a loop that has not ended. *)

From S2P Require Import Prelude RawSerial Tlv.
From Stdlib Require Import ZArith Lia.
From stdpp Require Import base list.
Open Scope Z_scope.

Definition TLV_TYPE_KEYVALUE : Z := 0x1010.
Definition TLV_TYPE_KEYVALUESET : Z := 0x1011.

(** Fields written only when they are not empty. *)
Definition nonempty_size (s : list Z) : Z := match s with [] => 0 | _ => GetTlvStringSize s end.

Definition set_nonempty (data : list Z) (size off type : Z) (s : list Z) : access (bool * list Z * Z) :=
  match s with [] => Done (true, data, off) | _ => SetTlvString data size off type s end.

(** ** Sets of strings *)

Record RsTlvStringSet := mk_RsTlvStringSet { mType : Z; ids : list (list Z) }.

Definition StringSet_TlvSize (x : RsTlvStringSet) : Z :=
  foldl (fun s id => u32 (s + nonempty_size id)) TLV_HEADER_SIZE (ids x).

Fixpoint set_ids (data : list Z) (size off : Z) (l : list (list Z)) : access (bool * list Z * Z) :=
  match l with
  | [] => Done (true, data, off)
  | id :: l =>
      '(ok, data, off) ← set_nonempty data size off TLV_TYPE_STR_GENID id;
      '(ok', data, off) ← set_ids data size off l;
      Done (ok && ok', data, off)
  end.

Definition StringSet_SetTlv (x : RsTlvStringSet) (data : list Z) (size off : Z) : access (bool * list Z * Z) :=
  let tlvsize := StringSet_TlvSize x in
  let tlvend := u32 (off + tlvsize) in
  if size <? tlvend then Done (false, data, off)
  else
    '(ok, data, off) ← SetTlvBase data tlvend off (mType x) tlvsize;
    '(ok', data, off) ← set_ids data tlvend off (ids x);
    Done (ok && ok', data, off).

(** The loop, from the strings [l] read so far. *)
Fixpoint get_ids (fuel : nat) (data : list Z) (tlvend off : Z) (l : list (list Z)) : access (option (bool * list (list Z) * Z)) :=
  match fuel with
  | O => Done None
  | S fuel =>
      if u32 (off + 2) <? tlvend then
        tlvsubtype ← GetTlvType data off;
        if tlvsubtype =? TLV_TYPE_STR_GENID then
          '(r, off) ← GetTlvString data tlvend off TLV_TYPE_STR_GENID;
          match r with
          | Some newIds => get_ids fuel data tlvend off (l ++ [newIds])
          | None => Done (Some (false, l, off))
          end
        else
          '(ok, off) ← SkipUnknownTlv data tlvend off;
          if (ok : bool) then get_ids fuel data tlvend off l else Done (Some (false, l, off))
      else Done (Some (true, l, off))
  end.

(** Extra bytes at the end of the item are stepped over. *)
Definition StringSet_GetTlv (fuel : nat) (x : RsTlvStringSet) (data : list Z) (size off : Z)
    : access (option (bool * RsTlvStringSet * Z)) :=
  r ← tlv_open data size off (mType x);
  match r with
  | None => Done (Some (false, x, off))
  | Some tlvend =>
      r ← get_ids fuel data tlvend (u32 (off + TLV_HEADER_SIZE)) [];
      Done (match r with None => None | Some (ok, l, _) => Some (ok, mk_RsTlvStringSet (mType x) l, tlvend) end)
  end.

(** [RsTlvStringSetRef] is the same on a list that belongs to another object, but for one check that its reader does not
    make. *)
Definition ref_open (data : list Z) (size off type : Z) : access (option Z) :=
  if size <? u32 (off + TLV_HEADER_SIZE) then Done None
  else
    tlvtype ← GetTlvType data off;
    tlvsize ← GetTlvSize data off;
    let tlvend := u32 (off + tlvsize) in
    if size <? tlvend then Done None
    else if negb (tlvtype =? type) then Done None
    else Done (Some tlvend).

Definition StringSetRef_GetTlv (fuel : nat) (x : RsTlvStringSet) (data : list Z) (size off : Z)
    : access (option (bool * RsTlvStringSet * Z)) :=
  r ← ref_open data size off (mType x);
  match r with
  | None => Done (Some (false, x, off))
  | Some tlvend =>
      r ← get_ids fuel data tlvend (u32 (off + TLV_HEADER_SIZE)) [];
      Done (match r with None => None | Some (ok, l, _) => Some (ok, mk_RsTlvStringSet (mType x) l, tlvend) end)
  end.

(** ** Pairs *)

Record RsTlvKeyValue := mk_RsTlvKeyValue { key : list Z; value : list Z }.

#[export] Instance eta_RsTlvKeyValue : Eta RsTlvKeyValue := fun x => mk_RsTlvKeyValue (key x) (value x).

Definition KeyValue_TlvClear : RsTlvKeyValue := mk_RsTlvKeyValue [] [].

Definition KeyValue_TlvSize (x : RsTlvKeyValue) : Z :=
  u32 (u32 (TLV_HEADER_SIZE + nonempty_size (key x)) + nonempty_size (value x)).

Definition KeyValue_SetTlv (x : RsTlvKeyValue) (data : list Z) (size off : Z) : access (bool * list Z * Z) :=
  let tlvsize := KeyValue_TlvSize x in
  let tlvend := u32 (off + tlvsize) in
  if size <? tlvend then Done (false, data, off)
  else
    '(ok, data, off) ← SetTlvBase data tlvend off TLV_TYPE_KEYVALUE tlvsize;
    '(ok', data, off) ← set_nonempty data tlvend off TLV_TYPE_STR_KEY (key x);
    '(ok'', data, off) ← set_nonempty data tlvend off TLV_TYPE_STR_VALUE (value x);
    Done (ok && ok' && ok'', data, off).

Fixpoint get_pair (fuel : nat) (data : list Z) (tlvend off : Z) (x : RsTlvKeyValue) : access (option (bool * RsTlvKeyValue * Z)) :=
  match fuel with
  | O => Done None
  | S fuel =>
      if u32 (off + 2) <? tlvend then
        tlvsubtype ← GetTlvType data off;
        if tlvsubtype =? TLV_TYPE_STR_KEY then
          '(r, off) ← GetTlvString data tlvend off TLV_TYPE_STR_KEY;
          match r with
          | Some s => get_pair fuel data tlvend off (x <| key := s |>)
          | None => Done (Some (false, x, off))
          end
        else if tlvsubtype =? TLV_TYPE_STR_VALUE then
          '(r, off) ← GetTlvString data tlvend off TLV_TYPE_STR_VALUE;
          match r with
          | Some s => get_pair fuel data tlvend off (x <| value := s |>)
          | None => Done (Some (false, x, off))
          end
        else
          '(ok, off) ← SkipUnknownTlv data tlvend off;
          if (ok : bool) then get_pair fuel data tlvend off x else Done (Some (false, x, off))
      else Done (Some (true, x, off))
  end.

Definition KeyValue_GetTlv (fuel : nat) (x : RsTlvKeyValue) (data : list Z) (size off : Z) : access (option (bool * RsTlvKeyValue * Z)) :=
  r ← tlv_open data size off TLV_TYPE_KEYVALUE;
  match r with
  | None => Done (Some (false, x, off))
  | Some tlvend =>
      r ← get_pair fuel data tlvend (u32 (off + TLV_HEADER_SIZE)) KeyValue_TlvClear;
      Done (match r with None => None | Some (ok, x, _) => Some (ok, x, tlvend) end)
  end.

(** ** Sets of pairs: the pairs are read and written up to [size], not up to the end of the set. *)

Definition KeyValueSet_TlvSize (pairs : list RsTlvKeyValue) : Z :=
  foldl (fun s x => u32 (s + KeyValue_TlvSize x)) TLV_HEADER_SIZE pairs.

Fixpoint set_pairs (data : list Z) (size off : Z) (pairs : list RsTlvKeyValue) : access (bool * list Z * Z) :=
  match pairs with
  | [] => Done (true, data, off)
  | x :: pairs =>
      '(ok, data, off) ← KeyValue_SetTlv x data size off;
      '(ok', data, off) ← set_pairs data size off pairs;
      Done (ok && ok', data, off)
  end.

Definition KeyValueSet_SetTlv (pairs : list RsTlvKeyValue) (data : list Z) (size off : Z) : access (bool * list Z * Z) :=
  let tlvsize := KeyValueSet_TlvSize pairs in
  let tlvend := u32 (off + tlvsize) in
  if size <? tlvend then Done (false, data, off)
  else
    '(ok, data, off) ← SetTlvBase data tlvend off TLV_TYPE_KEYVALUESET tlvsize;
    '(ok', data, off) ← set_pairs data size off pairs;
    Done (ok && ok', data, off).

Fixpoint get_pairs (fuel : nat) (data : list Z) (size tlvend off : Z) (l : list RsTlvKeyValue)
    : access (option (bool * list RsTlvKeyValue * Z)) :=
  match fuel with
  | O => Done None
  | S fuel =>
      if u32 (off + 2) <? tlvend then
        tlvsubtype ← GetTlvType data off;
        if tlvsubtype =? TLV_TYPE_KEYVALUE then
          r ← KeyValue_GetTlv fuel KeyValue_TlvClear data size off;
          match r with
          | None => Done None
          | Some (true, kv, off) => get_pairs fuel data size tlvend off (l ++ [kv])
          | Some (false, _, off) => Done (Some (false, l, off))
          end
        else
          '(ok, off) ← SkipUnknownTlv data tlvend off;
          if (ok : bool) then get_pairs fuel data size tlvend off l else Done (Some (false, l, off))
      else Done (Some (true, l, off))
  end.

Definition KeyValueSet_GetTlv (fuel : nat) (pairs : list RsTlvKeyValue) (data : list Z) (size off : Z)
    : access (option (bool * list RsTlvKeyValue * Z)) :=
  r ← tlv_open data size off TLV_TYPE_KEYVALUESET;
  match r with
  | None => Done (Some (false, pairs, off))
  | Some tlvend =>
      r ← get_pairs fuel data size tlvend (u32 (off + TLV_HEADER_SIZE)) [];
      Done (match r with None => None | Some (ok, l, _) => Some (ok, l, tlvend) end)
  end.

(** ** Writers and readers of an encoding *)

(** [f] writes [enc] where it fits. *)
Definition writes (f : list Z -> Z -> Z -> access (bool * list Z * Z)) (enc : list Z) : Prop :=
  forall data size off, buffer_ok data size -> 0 <= off -> off + Z.of_nat (length enc) <= size ->
    f data size off = Done (true, splice (Z.to_nat off) enc data, off + Z.of_nat (length enc)).

Lemma writes_next f enc data size off (pre : list Z) : writes f enc -> buffer_ok data size -> 0 <= off ->
  off + Z.of_nat (length pre) + Z.of_nat (length enc) <= size ->
  f (splice (Z.to_nat off) pre data) size (off + Z.of_nat (length pre)) =
    Done (true, splice (Z.to_nat off) (pre ++ enc) data, off + Z.of_nat (length (pre ++ enc))).
Proof.
  intros Hw Hb Ho Hf. pose proof Hb as [Hs Hd]. rewrite Hw; [|apply buffer_ok_splice; [done|lia]|lia|lia].
  replace (Z.to_nat (off + Z.of_nat (length pre))) with (Z.to_nat off + length pre)%nat by lia.
  rewrite splice_splice by lia. rewrite length_app. do 2 f_equal. lia.
Qed.

Definition string_enc (type : Z) (s : list Z) : list Z := tlv_header type (6 + Z.of_nat (length s)) ++ s.
Definition nonempty_enc (type : Z) (s : list Z) : list Z := match s with [] => [] | _ => string_enc type s end.

Lemma writes_nonempty type s : is_word 16 type -> string_ok type s ->
  writes (fun data size off => set_nonempty data size off type s) (nonempty_enc type s).
Proof.
  intros Ht Hs data size off Hb Ho Hf. destruct s as [|c s].
  - cbn. unfold splice. cbn. by rewrite Nat.add_0_r, take_drop, Z.add_0_r.
  - exact (@rc_set_fits _ (codec_tlv_string type Ht) data size off (c :: s) Hs Hb Ho Hf).
Qed.

Lemma length_nonempty_enc type s : string_ok type s -> Z.of_nat (length (nonempty_enc type s)) = nonempty_size s.
Proof.
  intros [_ Hl]. destruct s as [|c s]; [done|]. unfold nonempty_enc, string_enc, nonempty_size, GetTlvStringSize.
  rewrite length_app, length_tlv_header. change TLV_HEADER_SIZE with 6. rewrite wrap_small by (unfold is_word; lia). lia.
Qed.

(** An item whose fields take [body]. *)
Definition item_enc (type : Z) (body : list Z) : list Z := tlv_header type (6 + Z.of_nat (length body)) ++ body.

Lemma length_item_enc type body : length (item_enc type body) = (6 + length body)%nat.
Proof. unfold item_enc. by rewrite length_app, length_tlv_header. Qed.

Lemma item_open data size off type body : is_word 16 type -> buffer_ok data size -> 0 <= off ->
  off + Z.of_nat (length (item_enc type body)) <= size ->
  slice (Z.to_nat off) (length (item_enc type body)) data = item_enc type body ->
  GetTlvType data off = Done type /\ tlv_open data size off type = Done (Some (off + Z.of_nat (length (item_enc type body)))) /\
  slice (Z.to_nat (off + 6)) (length body) data = body.
Proof.
  intros Ht Hb Ho Hf Hsl. pose proof Hb as [Hs Hd]. rewrite length_item_enc in Hf. pose proof Hsl as Hsl'. apply slice_header in Hsl' as [H1 H2].
  split; [|split].
  - apply (header_fields data off type (6 + Z.of_nat (length body))); [done|unfold is_word; lia|done|lia|done].
  - rewrite (tlv_open_enc _ _ _ type (6 + Z.of_nat (length body))) by (done || lia). rewrite length_item_enc. do 2 f_equal. lia.
  - by replace (Z.to_nat (off + 6)) with (Z.to_nat off + 6)%nat by lia.
Qed.

Lemma read_string data size off type s : is_word 16 type -> string_ok type s -> buffer_ok data size -> 0 <= off ->
  off + Z.of_nat (length (string_enc type s)) <= size -> slice (Z.to_nat off) (length (string_enc type s)) data = string_enc type s ->
  GetTlvType data off = Done type /\
  GetTlvString data size off type = Done (Some s, off + Z.of_nat (length (string_enc type s))).
Proof.
  intros Ht Hs Hb Ho Hf Hsl. split; [by apply (item_open data size off type s)|].
  exact (@rc_get_enc _ (codec_tlv_string type Ht) data size off s Hs Hb Ho Hf Hsl).
Qed.

(** ** Sets of strings *)

Lemma genid_word : is_word 16 TLV_TYPE_STR_GENID.
Proof. by vm_compute. Qed.

Definition ids_enc (l : list (list Z)) : list Z := concat (nonempty_enc TLV_TYPE_STR_GENID <$> l).

Lemma writes_ids l : Forall (string_ok TLV_TYPE_STR_GENID) l ->
  writes (fun data size off => set_ids data size off l) (ids_enc l).
Proof.
  induction 1 as [|s l Hs Hl IH]; intros data size off Hb Ho Hf.
  - cbn. unfold splice. cbn. by rewrite Nat.add_0_r, take_drop, Z.add_0_r.
  - unfold ids_enc in *. cbn [fmap list_fmap concat] in *. rewrite length_app in Hf. cbn [set_ids].
    rewrite (writes_nonempty _ _ genid_word Hs) by (done || lia). cbn [mbind access_bind].
    rewrite (writes_next _ _ _ _ _ _ IH) by (done || lia). done.
Qed.

Lemma foldl_sizes {A} (f : A -> list Z) (g : A -> Z) (l : list A) : forall acc,
  Forall (fun x => Z.of_nat (length (f x)) = g x) l -> 0 <= acc -> acc + Z.of_nat (length (concat (f <$> l))) < 2 ^ 32 ->
  foldl (fun s x => u32 (s + g x)) acc l = acc + Z.of_nat (length (concat (f <$> l))).
Proof.
  induction l as [|x l IH]; intros acc Hl Ha Hb; [cbn; lia|]. apply Forall_cons in Hl as [Hx Hl].
  cbn [foldl fmap list_fmap concat] in *. rewrite length_app, Nat2Z.inj_add in *. rewrite <- Hx, wrap_small by (unfold is_word; lia).
  rewrite IH by (done || lia). lia.
Qed.

Lemma get_ids_enc l : forall fuel data off l0, Forall (string_ok TLV_TYPE_STR_GENID) l -> (length l < fuel)%nat ->
  buffer_ok data (off + Z.of_nat (length (ids_enc l))) -> 0 <= off ->
  slice (Z.to_nat off) (length (ids_enc l)) data = ids_enc l -> off + Z.of_nat (length (ids_enc l)) + 2 < 2 ^ 32 ->
  get_ids fuel data (off + Z.of_nat (length (ids_enc l))) off l0 =
    Done (Some (true, l0 ++ filter (fun s => s <> []) l, off + Z.of_nat (length (ids_enc l)))).
Proof.
  induction l as [|s l IH]; intros fuel data off l0 Hl Hf Hb Ho Hsl Hlim; destruct fuel as [|fuel]; try (cbn in Hf; lia).
  - change (ids_enc []) with (@nil Z) in *. cbn [length] in *. cbn [get_ids]. rewrite app_nil_r, wrap_small by (unfold is_word; lia).
    destruct (Z.ltb_spec (off + 2) (off + Z.of_nat 0)); [lia|]. by rewrite Z.add_0_r.
  - apply Forall_cons in Hl as [Hs Hl]. destruct s as [|c s].
    { rewrite filter_cons_False by tauto. apply (IH (S fuel)); try done. cbn in Hf. lia. }
    rewrite filter_cons_True by done. set (t := c :: s) in *.
    assert (Ee : ids_enc (t :: l) = string_enc TLV_TYPE_STR_GENID t ++ ids_enc l) by done. rewrite Ee in *.
    apply slice_app_inv in Hsl as [H1 H2]. pose proof Hb as [Hbs Hbd]. rewrite length_app, Nat2Z.inj_add in *.
    destruct (read_string data (off + (Z.of_nat (length (string_enc TLV_TYPE_STR_GENID t)) + Z.of_nat (length (ids_enc l)))) off _ t genid_word Hs) as [E1 E2]; [done|done|lia|done|].
    assert (Hpos : (6 <= length (string_enc TLV_TYPE_STR_GENID t))%nat) by (unfold string_enc; rewrite length_app, length_tlv_header; lia).
    cbn [get_ids]. rewrite wrap_small by (unfold is_word; lia).
    destruct (Z.ltb_spec (off + 2) (off + (Z.of_nat (length (string_enc TLV_TYPE_STR_GENID t)) + Z.of_nat (length (ids_enc l))))); [|lia].
    rewrite E1. cbn [mbind access_bind]. rewrite Z.eqb_refl, E2. cbn [mbind access_bind].
    rewrite Z.add_assoc in *. rewrite (IH fuel data _ (l0 ++ [t]) Hl); [by rewrite <- app_assoc|cbn in Hf; lia|done|lia| |lia].
    by replace (Z.to_nat (off + Z.of_nat (length (string_enc TLV_TYPE_STR_GENID t)))) with (Z.to_nat off + length (string_enc TLV_TYPE_STR_GENID t))%nat by lia.
Qed.

Definition stringset_enc (x : RsTlvStringSet) : list Z := item_enc (mType x) (ids_enc (ids x)).

Lemma StringSet_SetTlv_fits x : is_word 16 (mType x) -> Forall (string_ok TLV_TYPE_STR_GENID) (ids x) ->
  Z.of_nat (length (stringset_enc x)) < 2 ^ 32 -> writes (StringSet_SetTlv x) (stringset_enc x).
Proof.
  intros Ht Hids Hlen data size off Hb Ho Hf. pose proof Hb as [Hs Hd]. unfold stringset_enc in *. rewrite length_item_enc in *.
  assert (Esz : StringSet_TlvSize x = 6 + Z.of_nat (length (ids_enc (ids x)))).
  { unfold StringSet_TlvSize. apply (foldl_sizes (nonempty_enc TLV_TYPE_STR_GENID)); [|done|change TLV_HEADER_SIZE with 6; unfold ids_enc in Hlen; lia].
    eapply Forall_impl; [exact Hids|]. intros s Hok. by apply length_nonempty_enc. }
  unfold StringSet_SetTlv. rewrite Esz, wrap_small by (unfold is_word; lia). destruct (Z.ltb_spec size (off + (6 + Z.of_nat (length (ids_enc (ids x)))))); [lia|].
  assert (Hb' : buffer_ok data (off + (6 + Z.of_nat (length (ids_enc (ids x)))))) by (eapply buffer_ok_shrink; [exact Hb|lia]).
  rewrite SetTlvBase_fits by first [lia|done]. cbn [mbind access_bind].
  assert (E6 : off + 6 = off + Z.of_nat (length (tlv_header (mType x) (6 + Z.of_nat (length (ids_enc (ids x))))))) by (rewrite length_tlv_header; lia).
  rewrite E6, (writes_next _ _ _ _ _ _ (writes_ids _ Hids)) by first [lia|done|rewrite length_tlv_header; lia]. cbn [mbind access_bind].
  fold (item_enc (mType x) (ids_enc (ids x))). by rewrite length_item_enc.
Qed.

(** A buffer in which an item was written. *)
Lemma written_ok data size off (enc : list Z) : buffer_ok data size -> 0 <= off -> off + Z.of_nat (length enc) <= size ->
  buffer_ok (splice (Z.to_nat off) enc data) size /\ length (splice (Z.to_nat off) enc data) = length data /\
  slice (Z.to_nat off) (length enc) (splice (Z.to_nat off) enc data) = enc.
Proof.
  intros Hb Ho Hf. pose proof Hb as [Hs Hd]. split; [apply buffer_ok_splice; [done|lia]|]. split; [by rewrite length_splice by lia|].
  apply slice_splice_eq. lia.
Qed.

(** A set of strings that is written is read back without its empty strings, by either reader, and the offset ends
    after the item. *)
Theorem stringset_roundtrip (x : RsTlvStringSet) (data : list Z) (size off : Z) (fuel : nat)
    (Htype : is_word 16 (mType x)) (Hids : Forall (string_ok TLV_TYPE_STR_GENID) (ids x))
    (Hbuf : buffer_ok data size) (Hoff : 0 <= off) (Hlim : size + 2 < 2 ^ 32)
    (Hfit : off + Z.of_nat (length (stringset_enc x)) <= size) (Hfuel : (length (ids x) < fuel)%nat) :
  exists data',
    StringSet_SetTlv x data size off = Done (true, data', off + Z.of_nat (length (stringset_enc x))) /\
    forall y, mType y = mType x ->
      StringSet_GetTlv fuel y data' size off =
        Done (Some (true, mk_RsTlvStringSet (mType x) (filter (fun s => s <> []) (ids x)), off + Z.of_nat (length (stringset_enc x)))) /\
      StringSetRef_GetTlv fuel y data' size off = StringSet_GetTlv fuel y data' size off.
Proof.
  pose proof Hbuf as [Hs Hd]. eexists. split; [apply StringSet_SetTlv_fits; try done; lia|]. intros y Ey.
  set (data' := splice _ _ data). destruct (written_ok data size off (stringset_enc x) Hbuf Hoff Hfit) as (Hb' & _ & Hsl). fold data' in Hb', Hsl.
  unfold stringset_enc in *. destruct (item_open data' size off (mType x) (ids_enc (ids x)) Htype Hb' Hoff Hfit Hsl) as (E1 & E2 & E3).
  rewrite length_item_enc in *.
  assert (E4 : get_ids fuel data' (off + 6 + Z.of_nat (length (ids_enc (ids x)))) (off + 6) [] =
    Done (Some (true, filter (fun s => s <> []) (ids x), off + 6 + Z.of_nat (length (ids_enc (ids x)))))).
  { apply get_ids_enc; [done|done|eapply buffer_ok_shrink; [exact Hb'|lia]|lia|done|lia]. }
  assert (E5 : ref_open data' size off (mType x) = tlv_open data' size off (mType x)).
  { rewrite E2. unfold ref_open. pose proof Hsl as Hh. apply slice_header in Hh as [Hh _].
    destruct (header_fields data' off (mType x) (6 + Z.of_nat (length (ids_enc (ids x)))) Htype) as [H1 H2];
      [unfold is_word; lia|done|destruct Hb'; lia|done|].
    change TLV_HEADER_SIZE with 6. rewrite !wrap_small by (unfold is_word; lia). destruct (Z.ltb_spec size (off + 6)); [lia|].
    rewrite H1, H2. cbn [mbind access_bind]. rewrite wrap_small by (unfold is_word; lia).
    destruct (Z.ltb_spec size (off + (6 + Z.of_nat (length (ids_enc (ids x)))))); [lia|]. rewrite Z.eqb_refl. cbn [negb]. do 2 f_equal. lia. }
  unfold StringSet_GetTlv, StringSetRef_GetTlv. rewrite Ey, E5. split; [|done]. rewrite E2. cbn [mbind access_bind].
  change TLV_HEADER_SIZE with 6. rewrite wrap_small by (unfold is_word; lia).
  replace (off + Z.of_nat (6 + length (ids_enc (ids x)))) with (off + 6 + Z.of_nat (length (ids_enc (ids x)))) by lia.
  rewrite E4. done.
Qed.

Lemma stringset_roundtrip_witness :
  exists data',
    StringSet_SetTlv (mk_RsTlvStringSet 0x1020 [[97]; []; [98; 99]]) (replicate 30 0) 30 2 = Done (true, data', 23) /\
    forall y, mType y = 0x1020 ->
      StringSet_GetTlv 9 y data' 30 2 = Done (Some (true, mk_RsTlvStringSet 0x1020 [[97]; [98; 99]], 23)) /\
      StringSetRef_GetTlv 9 y data' 30 2 = StringSet_GetTlv 9 y data' 30 2.
Proof.
  apply (stringset_roundtrip (mk_RsTlvStringSet 0x1020 [[97]; []; [98; 99]]) (replicate 30 0) 30 2 9).
  - by vm_compute.
  - repeat constructor; vm_compute; done.
  - split; cbn; lia.
  - lia.
  - lia.
  - vm_compute. discriminate.
  - cbn. lia.
Defined.

(** ** Pairs and sets of pairs *)

Lemma key_word : is_word 16 TLV_TYPE_STR_KEY. Proof. by vm_compute. Qed.
Lemma value_word : is_word 16 TLV_TYPE_STR_VALUE. Proof. by vm_compute. Qed.
Lemma keyvalue_word : is_word 16 TLV_TYPE_KEYVALUE. Proof. by vm_compute. Qed.
Lemma keyvalueset_word : is_word 16 TLV_TYPE_KEYVALUESET. Proof. by vm_compute. Qed.

Definition pair_body (x : RsTlvKeyValue) : list Z :=
  nonempty_enc TLV_TYPE_STR_KEY (key x) ++ nonempty_enc TLV_TYPE_STR_VALUE (value x).
Definition pair_enc (x : RsTlvKeyValue) : list Z := item_enc TLV_TYPE_KEYVALUE (pair_body x).
Definition pairs_body (l : list RsTlvKeyValue) : list Z := concat (pair_enc <$> l).
Definition pairs_enc (l : list RsTlvKeyValue) : list Z := item_enc TLV_TYPE_KEYVALUESET (pairs_body l).

(** Strings that reading leaves alone, in an item of less than 4 GB. *)
Record pair_ok (x : RsTlvKeyValue) : Prop := {
  po_key : string_ok TLV_TYPE_STR_KEY (key x);
  po_value : string_ok TLV_TYPE_STR_VALUE (value x);
  po_size : Z.of_nat (length (pair_enc x)) < 2 ^ 32
}.

Lemma KeyValue_TlvSize_enc x : pair_ok x -> KeyValue_TlvSize x = Z.of_nat (length (pair_enc x)).
Proof.
  intros [Hk Hv Hs]. unfold KeyValue_TlvSize, pair_enc, pair_body in *. rewrite length_item_enc, length_app in *.
  rewrite <- (length_nonempty_enc _ _ Hk), <- (length_nonempty_enc _ _ Hv). change TLV_HEADER_SIZE with 6.
  rewrite !wrap_small by (unfold is_word; rewrite ?wrap_small; unfold is_word; lia). lia.
Qed.

Lemma KeyValue_SetTlv_fits x : pair_ok x -> writes (KeyValue_SetTlv x) (pair_enc x).
Proof.
  intros Hx data size off Hb Ho Hf. pose proof Hb as [Hs Hd]. unfold KeyValue_SetTlv. rewrite KeyValue_TlvSize_enc by done. destruct Hx as [Hk Hv Hlen].
  rewrite wrap_small by (unfold is_word; lia). destruct (Z.ltb_spec size (off + Z.of_nat (length (pair_enc x)))); [lia|].
  assert (Hb' : buffer_ok data (off + Z.of_nat (length (pair_enc x)))) by (eapply buffer_ok_shrink; [exact Hb|lia]).
  assert (Hl : length (pair_enc x) = (6 + (length (nonempty_enc TLV_TYPE_STR_KEY (key x)) + length (nonempty_enc TLV_TYPE_STR_VALUE (value x))))%nat)
    by (unfold pair_enc, pair_body; by rewrite length_item_enc, length_app).
  rewrite SetTlvBase_fits by first [lia|done]. cbn [mbind access_bind].
  assert (E6 : off + 6 = off + Z.of_nat (length (tlv_header TLV_TYPE_KEYVALUE (Z.of_nat (length (pair_enc x)))))) by (rewrite length_tlv_header; lia).
  rewrite E6, (writes_next _ _ _ _ _ _ (writes_nonempty _ _ key_word Hk)) by first [lia|done|rewrite length_tlv_header; lia]. cbn [mbind access_bind].
  rewrite (writes_next _ _ _ _ _ _ (writes_nonempty _ _ value_word Hv)) by first [lia|done|rewrite length_app, length_tlv_header; lia]. cbn [mbind access_bind].
  rewrite <- app_assoc. fold (pair_body x).
  assert (Ee : tlv_header TLV_TYPE_KEYVALUE (Z.of_nat (length (pair_enc x))) ++ pair_body x = pair_enc x).
  { unfold pair_enc at 2, item_enc. do 2 f_equal. unfold pair_enc. rewrite length_item_enc. lia. }
  by rewrite Ee.
Qed.

Lemma writes_pairs l : Forall pair_ok l -> writes (fun data size off => set_pairs data size off l) (pairs_body l).
Proof.
  induction 1 as [|x l Hx Hl IH]; intros data size off Hb Ho Hf.
  - cbn. unfold splice. cbn. by rewrite Nat.add_0_r, take_drop, Z.add_0_r.
  - unfold pairs_body in *. cbn [fmap list_fmap concat] in *. rewrite length_app in Hf. cbn [set_pairs].
    rewrite (KeyValue_SetTlv_fits x Hx) by (done || lia). cbn [mbind access_bind].
    rewrite (writes_next _ _ _ _ _ _ IH) by (done || lia). done.
Qed.

Lemma KeyValueSet_SetTlv_fits l : Forall pair_ok l -> Z.of_nat (length (pairs_enc l)) < 2 ^ 32 ->
  writes (KeyValueSet_SetTlv l) (pairs_enc l).
Proof.
  intros Hl Hlen data size off Hb Ho Hf. pose proof Hb as [Hs Hd]. unfold pairs_enc in *. rewrite length_item_enc in *.
  assert (Esz : KeyValueSet_TlvSize l = 6 + Z.of_nat (length (pairs_body l))).
  { unfold KeyValueSet_TlvSize. apply (foldl_sizes pair_enc); [|done|change TLV_HEADER_SIZE with 6; unfold pairs_body in Hlen; lia].
    eapply Forall_impl; [exact Hl|]. intros x Hx. by rewrite KeyValue_TlvSize_enc. }
  unfold KeyValueSet_SetTlv. rewrite Esz, wrap_small by (unfold is_word; lia).
  destruct (Z.ltb_spec size (off + (6 + Z.of_nat (length (pairs_body l))))); [lia|].
  rewrite SetTlvBase_fits by first [lia|eapply buffer_ok_shrink; [exact Hb|lia]]. cbn [mbind access_bind].
  assert (E6 : off + 6 = off + Z.of_nat (length (tlv_header TLV_TYPE_KEYVALUESET (6 + Z.of_nat (length (pairs_body l)))))) by (rewrite length_tlv_header; lia).
  rewrite E6, (writes_next _ _ _ _ _ _ (writes_pairs _ Hl)) by first [lia|done|rewrite length_tlv_header; lia]. cbn [mbind access_bind].
  fold (item_enc TLV_TYPE_KEYVALUESET (pairs_body l)). by rewrite length_item_enc.
Qed.

(** The loop ends at the end of the item. *)
Lemma get_pair_end fuel data tlvend x : tlvend + 2 < 2 ^ 32 -> 0 <= tlvend -> (0 < fuel)%nat ->
  get_pair fuel data tlvend tlvend x = Done (Some (true, x, tlvend)).
Proof.
  intros Hl H0 Hf. destruct fuel as [|fuel]; [lia|]. cbn [get_pair]. rewrite wrap_small by (unfold is_word; lia).
  destruct (Z.ltb_spec (tlvend + 2) tlvend); [lia|done].
Qed.

Lemma get_pair_value v : forall fuel data off x, string_ok TLV_TYPE_STR_VALUE v -> value x = [] -> (1 < fuel)%nat -> 0 <= off ->
  let enc := nonempty_enc TLV_TYPE_STR_VALUE v in
  buffer_ok data (off + Z.of_nat (length enc)) -> slice (Z.to_nat off) (length enc) data = enc -> off + Z.of_nat (length enc) + 2 < 2 ^ 32 ->
  get_pair fuel data (off + Z.of_nat (length enc)) off x = Done (Some (true, x <| value := v |>, off + Z.of_nat (length enc))).
Proof.
  intros fuel data off x Hv Hx Hf Ho enc Hb Hsl Hlim. destruct v as [|c v].
  - change enc with (@nil Z) in *. cbn [length] in *. rewrite Z.add_0_r in *. rewrite get_pair_end by (done || lia). destruct x; cbn in *. by subst.
  - set (s := c :: v) in *. change enc with (string_enc TLV_TYPE_STR_VALUE s) in *. destruct fuel as [|fuel]; [lia|].
    destruct (read_string data (off + Z.of_nat (length (string_enc TLV_TYPE_STR_VALUE s))) off _ s value_word Hv) as [E1 E2]; [done|done|lia|done|].
    assert (Hpos : (6 <= length (string_enc TLV_TYPE_STR_VALUE s))%nat) by (unfold string_enc; rewrite length_app, length_tlv_header; lia).
    cbn [get_pair]. rewrite wrap_small by (unfold is_word; lia). destruct (Z.ltb_spec (off + 2) (off + Z.of_nat (length (string_enc TLV_TYPE_STR_VALUE s)))); [|lia].
    rewrite E1. cbn [mbind access_bind]. change (TLV_TYPE_STR_VALUE =? TLV_TYPE_STR_KEY) with false. cbv iota. rewrite Z.eqb_refl, E2. cbn [mbind access_bind].
    rewrite get_pair_end by lia. done.
Qed.

Lemma KeyValue_GetTlv_enc x y fuel data size off : pair_ok x -> (2 < fuel)%nat -> buffer_ok data size -> 0 <= off ->
  off + Z.of_nat (length (pair_enc x)) <= size -> size + 2 < 2 ^ 32 ->
  slice (Z.to_nat off) (length (pair_enc x)) data = pair_enc x ->
  KeyValue_GetTlv fuel y data size off = Done (Some (true, x, off + Z.of_nat (length (pair_enc x)))).
Proof.
  intros [Hk Hv _] Hf Hb Ho Hfit Hlim Hsl. pose proof Hb as [Hs Hd]. unfold pair_enc in *.
  destruct (item_open data size off _ _ keyvalue_word Hb Ho Hfit Hsl) as (_ & E2 & E3). unfold KeyValue_GetTlv. rewrite E2. cbn [mbind access_bind].
  rewrite length_item_enc in *. change TLV_HEADER_SIZE with 6. rewrite wrap_small by (unfold is_word; lia).
  replace (off + Z.of_nat (6 + length (pair_body x))) with (off + 6 + Z.of_nat (length (pair_body x))) by lia.
  assert (E : get_pair fuel data (off + 6 + Z.of_nat (length (pair_body x))) (off + 6) KeyValue_TlvClear =
    Done (Some (true, x, off + 6 + Z.of_nat (length (pair_body x))))); [|by rewrite E].
  unfold pair_body in *. destruct x as [k v]. cbn [key value] in *. destruct k as [|c k].
  - cbn [nonempty_enc app] in *. rewrite (get_pair_value v); try done; [lia|lia|eapply buffer_ok_shrink; [exact Hb|lia]|lia].
  - set (s := c :: k) in *. change (nonempty_enc TLV_TYPE_STR_KEY s) with (string_enc TLV_TYPE_STR_KEY s) in *.
    set (ev := nonempty_enc TLV_TYPE_STR_VALUE v) in *. apply slice_app_inv in E3 as [H1 H2]. rewrite length_app, Nat2Z.inj_add in *.
    assert (Hb' : buffer_ok data (off + 6 + (Z.of_nat (length (string_enc TLV_TYPE_STR_KEY s)) + Z.of_nat (length ev)))) by (eapply buffer_ok_shrink; [exact Hb|lia]).
    destruct (read_string data (off + 6 + (Z.of_nat (length (string_enc TLV_TYPE_STR_KEY s)) + Z.of_nat (length ev))) (off + 6) _ s key_word Hk) as [F1 F2]; [done|lia|lia|done|].
    assert (Hpos : (6 <= length (string_enc TLV_TYPE_STR_KEY s))%nat) by (unfold string_enc; rewrite length_app, length_tlv_header; lia).
    destruct fuel as [|fuel]; [lia|]. cbn [get_pair]. rewrite wrap_small by (unfold is_word; lia).
    destruct (Z.ltb_spec (off + 6 + 2) (off + 6 + (Z.of_nat (length (string_enc TLV_TYPE_STR_KEY s)) + Z.of_nat (length ev)))); [|lia].
    rewrite F1. cbn [mbind access_bind]. rewrite Z.eqb_refl, F2. cbn [mbind access_bind]. rewrite Z.add_assoc in *.
    rewrite (get_pair_value v); try done; change (nonempty_enc TLV_TYPE_STR_VALUE v) with ev; [lia|lia| |lia].
    by replace (Z.to_nat (off + 6 + Z.of_nat (length (string_enc TLV_TYPE_STR_KEY s)))) with (Z.to_nat (off + 6) + length (string_enc TLV_TYPE_STR_KEY s))%nat by lia.
Qed.

Lemma get_pairs_enc l : forall fuel data size off l0, Forall pair_ok l -> (length l + 3 < fuel)%nat -> buffer_ok data size -> 0 <= off ->
  off + Z.of_nat (length (pairs_body l)) <= size -> size + 2 < 2 ^ 32 ->
  slice (Z.to_nat off) (length (pairs_body l)) data = pairs_body l ->
  get_pairs fuel data size (off + Z.of_nat (length (pairs_body l))) off l0 =
    Done (Some (true, l0 ++ l, off + Z.of_nat (length (pairs_body l)))).
Proof.
  induction l as [|x l IH]; intros fuel data size off l0 Hl Hf Hb Ho Hfit Hlim Hsl; destruct fuel as [|fuel]; try (cbn in Hf; lia).
  - change (pairs_body []) with (@nil Z) in *. cbn [length] in *. cbn [get_pairs]. rewrite app_nil_r, wrap_small by (unfold is_word; lia).
    destruct (Z.ltb_spec (off + 2) (off + Z.of_nat 0)); [lia|]. by rewrite Z.add_0_r.
  - apply Forall_cons in Hl as [Hx Hl]. assert (Ee : pairs_body (x :: l) = pair_enc x ++ pairs_body l) by done. rewrite Ee in *.
    apply slice_app_inv in Hsl as [H1 H2]. pose proof Hb as [Hbs Hbd]. rewrite length_app, Nat2Z.inj_add in *.
    assert (Hpos : (6 <= length (pair_enc x))%nat) by (unfold pair_enc; rewrite length_item_enc; lia).
    destruct (item_open data size off TLV_TYPE_KEYVALUE (pair_body x) keyvalue_word Hb Ho) as (Et & _ & _); [by fold (pair_enc x); lia|done|].
    cbn [get_pairs]. rewrite wrap_small by (unfold is_word; lia).
    destruct (Z.ltb_spec (off + 2) (off + (Z.of_nat (length (pair_enc x)) + Z.of_nat (length (pairs_body l))))); [|lia].
    rewrite Et. cbn [mbind access_bind]. rewrite Z.eqb_refl, (KeyValue_GetTlv_enc x) by (done || cbn in Hf; lia). cbn [mbind access_bind].
    rewrite Z.add_assoc in *. rewrite (IH fuel data size _ (l0 ++ [x]) Hl); [by rewrite <- app_assoc|cbn in Hf; lia|done|lia|lia|done|].
    by replace (Z.to_nat (off + Z.of_nat (length (pair_enc x)))) with (Z.to_nat off + length (pair_enc x))%nat by lia.
Qed.

(** A set of pairs that is written is read back pair for pair, empty keys and values included, and the offset ends
    after the item; the reader's loops end within the number of pairs. *)
Theorem keyvalueset_roundtrip (l l0 : list RsTlvKeyValue) (data : list Z) (size off : Z) (fuel : nat)
    (Hpairs : Forall pair_ok l) (Hbuf : buffer_ok data size) (Hoff : 0 <= off) (Hlim : size + 2 < 2 ^ 32)
    (Hfit : off + Z.of_nat (length (pairs_enc l)) <= size) (Hfuel : (length l + 3 < fuel)%nat) :
  exists data',
    KeyValueSet_SetTlv l data size off = Done (true, data', off + Z.of_nat (length (pairs_enc l))) /\
    KeyValueSet_GetTlv fuel l0 data' size off = Done (Some (true, l, off + Z.of_nat (length (pairs_enc l)))).
Proof.
  pose proof Hbuf as [Hs Hd]. eexists. split; [apply KeyValueSet_SetTlv_fits; try done; lia|].
  set (data' := splice _ _ data). destruct (written_ok data size off (pairs_enc l) Hbuf Hoff Hfit) as (Hb' & _ & Hsl). fold data' in Hb', Hsl.
  unfold pairs_enc in *. destruct (item_open data' size off _ (pairs_body l) keyvalueset_word Hb' Hoff Hfit Hsl) as (_ & E2 & E3).
  rewrite length_item_enc in *. unfold KeyValueSet_GetTlv. rewrite E2. cbn [mbind access_bind].
  change TLV_HEADER_SIZE with 6. rewrite wrap_small by (unfold is_word; lia).
  replace (off + Z.of_nat (6 + length (pairs_body l))) with (off + 6 + Z.of_nat (length (pairs_body l))) by lia.
  by rewrite get_pairs_enc by (done || lia).
Qed.

Lemma keyvalueset_roundtrip_witness :
  let l := [mk_RsTlvKeyValue [107] [118; 49]; mk_RsTlvKeyValue [] [120]; mk_RsTlvKeyValue [] []] in
  exists data',
    KeyValueSet_SetTlv l (replicate 60 0) 60 4 = Done (true, data', 50) /\
    KeyValueSet_GetTlv 9 [] data' 60 4 = Done (Some (true, l, 50)).
Proof.
  apply (keyvalueset_roundtrip [mk_RsTlvKeyValue [107] [118; 49]; mk_RsTlvKeyValue [] [120]; mk_RsTlvKeyValue [] []] [] (replicate 60 0) 60 4 9).
  - repeat constructor; vm_compute; done.
  - split; cbn; lia.
  - lia.
  - lia.
  - vm_compute. discriminate.
  - cbn. lia.
Defined.

(** ** Readers that never end *)

Lemma skip_zero data tlvend off : off + 6 <= tlvend < 2 ^ 32 -> 0 <= off -> GetTlvSize data off = Done 0 ->
  SkipUnknownTlv data tlvend off = Done (true, off).
Proof.
  intros H Ho E. unfold SkipUnknownTlv. change TLV_HEADER_SIZE with 6. rewrite wrap_small by (unfold is_word; lia).
  destruct (Z.ltb_spec tlvend (off + 6)); [lia|]. rewrite E. cbn [mbind access_bind]. rewrite Z.add_0_r, wrap_small by (unfold is_word; lia).
  destruct (Z.ltb_spec tlvend off); [lia|done].
Qed.

Lemma get_ids_stuck data tlvend off t l : forall fuel, 0 <= off -> off + 6 <= tlvend < 2 ^ 32 ->
  GetTlvType data off = Done t -> t <> TLV_TYPE_STR_GENID -> GetTlvSize data off = Done 0 -> get_ids fuel data tlvend off l = Done None.
Proof.
  intros fuel Ho He Et Hne Es. induction fuel as [|fuel IH]; [done|]. cbn [get_ids]. rewrite wrap_small by (unfold is_word; lia).
  destruct (Z.ltb_spec (off + 2) tlvend); [|lia]. rewrite Et. cbn [mbind access_bind].
  destruct (Z.eqb_spec t TLV_TYPE_STR_GENID); [done|]. rewrite skip_zero by done. cbn [mbind access_bind]. exact IH.
Qed.

(** An unknown field that announces size zero is stepped over without moving, and so again for ever: a set of strings that
    starts with such a field is never read to the end, whatever follows it and however long one waits. *)
Theorem unknown_zero_field_loops (fuel : nat) (x : RsTlvStringSet) (data : list Z) (size off subtype : Z) (rest : list Z)
    (Htype : is_word 16 (mType x)) (Hsub : is_word 16 subtype) (Hne : subtype <> TLV_TYPE_STR_GENID)
    (Hbuf : buffer_ok data size) (Hoff : 0 <= off)
    (Hfit : off + Z.of_nat (length (item_enc (mType x) (tlv_header subtype 0 ++ rest))) <= size)
    (Hdata : slice (Z.to_nat off) (length (item_enc (mType x) (tlv_header subtype 0 ++ rest))) data =
             item_enc (mType x) (tlv_header subtype 0 ++ rest)) :
  StringSet_GetTlv fuel x data size off = Done None.
Proof.
  destruct (item_open data size off _ _ Htype Hbuf Hoff Hfit Hdata) as (_ & E2 & E3). pose proof Hbuf as [Hs Hd].
  apply slice_header in E3 as [H6 _]. rewrite length_item_enc, length_app, length_tlv_header in *.
  destruct (header_fields data (off + 6) subtype 0 Hsub) as [Et Es]; [done|lia|lia|done|].
  unfold StringSet_GetTlv. rewrite E2. cbn [mbind access_bind]. change TLV_HEADER_SIZE with 6. rewrite wrap_small by (unfold is_word; lia).
  rewrite (get_ids_stuck _ _ _ subtype) by (done || lia). done.
Qed.

Lemma unknown_zero_field_loops_witness :
  StringSet_GetTlv 1000 (mk_RsTlvStringSet 0x1020 []) (item_enc 0x1020 (tlv_header 1 0)) 12 0 = Done None.
Proof.
  apply (unknown_zero_field_loops 1000 (mk_RsTlvStringSet 0x1020 []) (item_enc 0x1020 (tlv_header 1 0)) 12 0 1 []).
  - by vm_compute.
  - by vm_compute.
  - done.
  - split; [lia|vm_compute; discriminate].
  - lia.
  - vm_compute. discriminate.
  - vm_compute. reflexivity.
Defined.
