(* ===== verification/RsExpr.v ===== *)
(** * Search expressions: src/util/rsexpr.cc, retroshare/rsexpr.h and their encoding in turtle/rsturtleitem.cc

    A search that travels through the network is a boolean expression over file entries.  It is flattened into three
    vectors - tokens, integers, strings - which are what is sent.  A pointer to an expression is an [option].  Strings are
    lists of bytes. *)

From S2P Require Import Prelude RawSerial Tlv.
From Stdlib Require Import ZArith Lia Ascii String.
From stdpp Require Import base list.
Open Scope Z_scope.

(** ** Data *)

Definition AndOp : Z := 0.
Definition OrOp : Z := 1.
Definition XorOp : Z := 2.

Definition ContainsAnyStrings : Z := 0.
Definition ContainsAllStrings : Z := 1.
Definition EqualsString : Z := 2.

Definition Equals : Z := 0.
Definition GreaterEquals : Z := 1.
Definition Greater : Z := 2.
Definition SmallerEquals : Z := 3.
Definition Smaller : Z := 4.
Definition InRange : Z := 5.

Record LinearizedExpression := mk_LinearizedExpression { _tokens : list Z; _ints : list Z; _strings : list (list Z) }.

#[export] Instance eta_LinearizedExpression : Eta LinearizedExpression :=
  fun e => mk_LinearizedExpression (_tokens e) (_ints e) (_strings e).

Definition EXPR_DATE : Z := 0.
Definition EXPR_POP : Z := 1.
Definition EXPR_SIZE : Z := 2.
Definition EXPR_HASH : Z := 3.
Definition EXPR_NAME : Z := 4.
Definition EXPR_PATH : Z := 5.
Definition EXPR_EXT : Z := 6.
Definition EXPR_COMP : Z := 7.
Definition EXPR_SIZE_MB : Z := 8.

(** What an expression can ask of a file; the hash as its bytes. *)
Record ExpFileEntry := mk_ExpFileEntry {
  file_name : list Z; file_size : Z; file_modtime : Z; file_popularity : Z; file_parent_path : list Z; file_hash : list Z }.

(** The operators are the integers they are cast from: the code accepts any value.  The strings of a [HashExpression] are
    always compared without regard to case. *)
Inductive Expression :=
| CompoundExpression (Op : Z) (Lexp Rexp : option Expression)
| NameExpression (Op : Z) (terms : list (list Z)) (IgnoreCase : bool)
| PathExpression (Op : Z) (terms : list (list Z)) (IgnoreCase : bool)
| ExtExpression (Op : Z) (terms : list (list Z)) (IgnoreCase : bool)
| HashExpression (Op : Z) (terms : list (list Z))
| DateExpression (Op LowerValue HigherValue : Z)
| SizeExpression (Op LowerValue HigherValue : Z)
| SizeExpressionMB (Op LowerValue HigherValue : Z)
| PopExpression (Op LowerValue HigherValue : Z).

(** ** Evaluation *)

Definition evalRel (Op LowerValue HigherValue val : Z) : bool :=
  if Op =? Equals then LowerValue =? val
  else if Op =? GreaterEquals then LowerValue >=? val
  else if Op =? Greater then LowerValue >? val
  else if Op =? SmallerEquals then LowerValue <=? val
  else if Op =? Smaller then LowerValue <? val
  else if Op =? InRange then (LowerValue <=? val) && (val <=? HigherValue)
  else false.

(** [tolower] in the C locale, on an unsigned char. *)
Definition tolower (c : Z) : Z := if (65 <=? c) && (c <=? 90) then c + 32 else c.

Definition CompareCharIC (ch1 ch2 : Z) : bool := tolower ch1 =? tolower ch2.

(** [std::equal] on the length of the first range. *)
Fixpoint std_equal (eq : Z -> Z -> bool) (l1 l2 : list Z) : bool :=
  match l1, l2 with
  | a :: l1, b :: l2 => eq a b && std_equal eq l1 l2
  | [], _ => true
  | _, [] => false
  end.

(** [std::search]: the position of the first occurrence, the end when there is none. *)
Fixpoint std_search (eq : Z -> Z -> bool) (l1 l2 : list Z) : nat :=
  match l1 with
  | [] => 0
  | _ :: l1' => if (length l2 <=? length l1)%nat && std_equal eq l2 l1 then 0 else S (std_search eq l1' l2)
  end.

(** The comparison without regard to case is made and its result dropped. *)
Definition StrEquals (str1 str2 : list Z) (IgnoreCase : bool) : bool :=
  if negb (length str1 =? length str2)%nat then false
  else
    let _ := if IgnoreCase then std_equal CompareCharIC str1 str2 else true in
    std_equal Z.eqb str1 str2.

Definition StrContains (str1 str2 : list Z) (IgnoreCase : bool) : bool :=
  let iter := if IgnoreCase then std_search CompareCharIC str1 str2 else std_search Z.eqb str1 str2 in
  negb (iter =? length str1)%nat.

Definition evalStr (Op : Z) (terms : list (list Z)) (IgnoreCase : bool) (str : list Z) : bool :=
  if Op =? ContainsAllStrings then forallb (fun t => StrContains str t IgnoreCase) terms
  else if Op =? ContainsAnyStrings then existsb (fun t => StrContains str t IgnoreCase) terms
  else if Op =? EqualsString then existsb (fun t => StrEquals str t IgnoreCase) terms
  else false.

(** What follows the last dot, when there is one. *)
Fixpoint after_last_dot (l : list Z) : option (list Z) :=
  match l with
  | [] => None
  | c :: l =>
      match after_last_dot l with
      | Some ext => Some ext
      | None => if c =? 46 then Some l else None
      end
  end.

Definition outl (n : Z) : Z := if n <? 10 then 48 + n else 87 + n.

(** [RsFileHash::toStdString]: two lower case digits for each byte. *)
Definition hash_toStdString (bytes : list Z) : list Z := concat ((fun b => [outl (Z.shiftr b 4); outl (Z.land b 15)]) <$> bytes).

Fixpoint eval (x : Expression) (file : ExpFileEntry) : bool :=
  match x with
  | CompoundExpression Op Lexp Rexp =>
      match Lexp, Rexp with
      | Some l, Some r =>
          if Op =? AndOp then eval l file && eval r file
          else if Op =? OrOp then eval l file || eval r file
          else if Op =? XorOp then xorb (eval l file) (eval r file)
          else false
      | _, _ => false
      end
  | NameExpression Op terms ic => evalStr Op terms ic (file_name file)
  | PathExpression Op terms ic => evalStr Op terms ic (file_parent_path file)
  | ExtExpression Op terms ic =>
      match after_last_dot (file_name file) with
      | Some ext => if decide (ext <> []) then evalStr Op terms ic ext else false
      | None => false
      end
  | HashExpression Op terms => evalStr Op terms true (hash_toStdString (file_hash file))
  | DateExpression Op lv hv => evalRel Op lv hv (sint32 (file_modtime file))
  | SizeExpression Op lv hv =>
      let caped_size := sint32 (Z.min (Z.shiftr (2 ^ 32 - 1) 1) (file_size file)) in evalRel Op lv hv caped_size
  | SizeExpressionMB Op lv hv => evalRel Op lv hv (sint32 (Z.shiftr (file_size file) 20))
  | PopExpression Op lv hv => evalRel Op lv hv (sint32 (file_popularity file))
  end.

(** ** Printing *)

Definition toStdStringWithParam (Op : Z) (terms : list (list Z)) (varstr : list Z) : list Z :=
  let strlist := concat ((fun t => t ++ text " ") <$> terms) in
  let strlist := match strlist with [] => [] | _ => take (length strlist - 1) strlist end in
  if Op =? ContainsAllStrings then varstr ++ text " CONTAINS ALL " ++ strlist
  else if Op =? ContainsAnyStrings then
    (if (length terms =? 1)%nat then varstr ++ text " CONTAINS " ++ strlist else varstr ++ text " CONTAINS ONE OF " ++ strlist)
  else if Op =? EqualsString then
    (if (length terms =? 1)%nat then varstr ++ text " IS " ++ strlist else varstr ++ text " IS ONE OF " ++ strlist)
  else [].

Definition rel_toStdStringWithParam (Op LowerValue HigherValue : Z) (typestr : list Z) : list Z :=
  let LowerValueStr := NumberToString LowerValue in
  if Op =? Equals then typestr ++ text " = " ++ LowerValueStr
  else if Op =? GreaterEquals then typestr ++ text " <= " ++ LowerValueStr
  else if Op =? Greater then typestr ++ text " < " ++ LowerValueStr
  else if Op =? SmallerEquals then typestr ++ text " >= " ++ LowerValueStr
  else if Op =? Smaller then typestr ++ text " > " ++ LowerValueStr
  else if Op =? InRange then LowerValueStr ++ text " <= " ++ typestr ++ text " <= " ++ NumberToString HigherValue
  else [].

(** A call through a null pointer is [Oob]. *)
Fixpoint toStdString (x : Expression) : access (list Z) :=
  match x with
  | CompoundExpression Op Lexp Rexp =>
      let side p := match p with Some x => toStdString x | None => Oob end in
      let both sep := l ← side Lexp; r ← side Rexp; Done (text "(" ++ l ++ text sep ++ r ++ text ")") in
      if Op =? AndOp then both ") AND ("%string
      else if Op =? OrOp then both ") OR ("%string
      else if Op =? XorOp then both ") XOR ("%string
      else Done []
  | NameExpression Op terms _ => Done (toStdStringWithParam Op terms (text "NAME"))
  | PathExpression Op terms _ => Done (toStdStringWithParam Op terms (text "PATH"))
  | ExtExpression Op terms _ => Done (toStdStringWithParam Op terms (text "EXTENSION"))
  | HashExpression Op terms => Done (toStdStringWithParam Op terms (text "HASH"))
  | DateExpression Op lv hv => Done (rel_toStdStringWithParam Op lv hv (text "DATE"))
  | SizeExpression Op lv hv | SizeExpressionMB Op lv hv => Done (rel_toStdStringWithParam Op lv hv (text "SIZE"))
  | PopExpression Op lv hv => Done (rel_toStdStringWithParam Op lv hv (text "POPULARITY"))
  end.

(** ** Flattening *)

Definition push_token (t : Z) (e : LinearizedExpression) : LinearizedExpression := e <| _tokens := _tokens e ++ [t] |>.
Definition push_int (v : Z) (e : LinearizedExpression) : LinearizedExpression := e <| _ints := _ints e ++ [u32 v] |>.

Definition rel_linearize (Op LowerValue HigherValue : Z) (e : LinearizedExpression) : LinearizedExpression :=
  push_int HigherValue (push_int LowerValue (push_int Op e)).

Definition str_linearize (Op : Z) (terms : list (list Z)) (IgnoreCase : bool) (e : LinearizedExpression) : LinearizedExpression :=
  let e := push_int (Z.of_nat (length terms)) (push_int (if IgnoreCase then 1 else 0) (push_int Op e)) in
  e <| _strings := _strings e ++ terms |>.

Fixpoint linearize (x : Expression) (e : LinearizedExpression) : access LinearizedExpression :=
  match x with
  | CompoundExpression Op Lexp Rexp =>
      let e := push_int Op (push_token EXPR_COMP e) in
      e ← match Lexp with Some l => linearize l e | None => Oob end;
      match Rexp with Some r => linearize r e | None => Oob end
  | NameExpression Op terms ic => Done (str_linearize Op terms ic (push_token EXPR_NAME e))
  | PathExpression Op terms ic => Done (str_linearize Op terms ic (push_token EXPR_PATH e))
  | ExtExpression Op terms ic => Done (str_linearize Op terms ic (push_token EXPR_EXT e))
  | HashExpression Op terms => Done (str_linearize Op terms true (push_token EXPR_HASH e))
  | DateExpression Op lv hv => Done (rel_linearize Op lv hv (push_token EXPR_DATE e))
  | SizeExpression Op lv hv => Done (rel_linearize Op lv hv (push_token EXPR_SIZE e))
  | SizeExpressionMB Op lv hv => Done (rel_linearize Op lv hv (push_token EXPR_SIZE_MB e))
  | PopExpression Op lv hv => Done (rel_linearize Op lv hv (push_token EXPR_POP e))
  end.

(** ** Back to an expression

    The vectors are indexed without a check: an index outside of one is [OutOfRange].  The recursion is not structural, so
    there is fuel. *)

Inductive parse (A : Type) := Parsed (a : A) | OutOfRange | NoFuel.
Arguments Parsed {A} a.
Arguments OutOfRange {A}.
Arguments NoFuel {A}.

#[export] Instance parse_bind : MBind parse := fun (A B : Type) (f : A -> parse B) m =>
  match m with Parsed a => f a | OutOfRange => OutOfRange | NoFuel => NoFuel end.

Definition at_index {A} (l : list A) (i : nat) : parse A := match l !! i with Some x => Parsed x | None => OutOfRange end.

Definition readStringExpr (e : LinearizedExpression) (n_ints n_strings : nat) : parse (Z * bool * list (list Z) * nat * nat) :=
  op ← at_index (_ints e) n_ints;
  b ← at_index (_ints e) (n_ints + 1);
  n ← at_index (_ints e) (n_ints + 2);
  strings ← (fix loop (n i : nat) : parse (list (list Z)) :=
    match n with
    | O => Parsed []
    | S n => s ← at_index (_strings e) i; l ← loop n (S i); Parsed (s :: l)
    end) (Z.to_nat (sint32 n)) n_strings;
  Parsed (op, negb (b =? 0), strings, (n_ints + 3)%nat, (n_strings + length strings)%nat).

Definition readRelExpr (e : LinearizedExpression) (n_ints : nat) : parse (Z * Z * Z * nat) :=
  op ← at_index (_ints e) n_ints;
  lv ← at_index (_ints e) (n_ints + 1);
  hv ← at_index (_ints e) (n_ints + 2);
  Parsed (op, sint32 lv, sint32 hv, (n_ints + 3)%nat).

Fixpoint toExpr_from (fuel : nat) (e : LinearizedExpression) (n_tok n_ints n_strings : nat)
    : parse (option Expression * nat * nat * nat) :=
  match fuel with
  | O => NoFuel
  | S fuel =>
      tok ← at_index (_tokens e) n_tok;
      let n_tok := S n_tok in
      let rel make :=
        '(op, lv, hv, n_ints) ← readRelExpr e n_ints; Parsed (Some (make op lv hv), n_tok, n_ints, n_strings) in
      let str make :=
        '(op, b, strings, n_ints, n_strings) ← readStringExpr e n_ints n_strings;
        Parsed (Some (make op strings b), n_tok, n_ints, n_strings) in
      if tok =? EXPR_DATE then rel DateExpression
      else if tok =? EXPR_POP then rel PopExpression
      else if tok =? EXPR_SIZE then rel SizeExpression
      else if tok =? EXPR_HASH then str (fun op strings _ => HashExpression op strings)
      else if tok =? EXPR_NAME then str NameExpression
      else if tok =? EXPR_PATH then str ExtExpression
      else if tok =? EXPR_EXT then str ExtExpression
      else if tok =? EXPR_COMP then
        op ← at_index (_ints e) n_ints;
        '(e1, n_tok, n_ints, n_strings) ← toExpr_from fuel e n_tok (S n_ints) n_strings;
        '(e2, n_tok, n_ints, n_strings) ← toExpr_from fuel e n_tok n_ints n_strings;
        Parsed (Some (CompoundExpression op e1 e2), n_tok, n_ints, n_strings)
      else if tok =? EXPR_SIZE_MB then rel SizeExpressionMB
      else Parsed (None, n_tok, n_ints, n_strings)
  end.

(** Every call takes a token, so one more than the tokens is enough fuel. *)
Definition toExpr (e : LinearizedExpression) : parse (option Expression) :=
  '(x, _, _, _) ← toExpr_from (S (length (_tokens e))) e 0 0 0; Parsed x.

(** What is shown of a request of a friend: an access through a null pointer or out of a vector is [Oob]. *)
Definition GetKeywords (expr : LinearizedExpression) : access (list Z) :=
  match toExpr expr with
  | Parsed (Some ex) => toStdString ex
  | Parsed None | OutOfRange | NoFuel => Oob
  end.

(** ** Encoding *)

Definition LinearizedExpression_serial_size (r : LinearizedExpression) : Z :=
  let s := u32 (0 + 4) in
  let s := foldl (fun s x => u32 (s + GetTlvStringSize x)) s (_strings r) in
  let s := u32 (s + 4) in
  let s := u32 (s + 4 * Z.of_nat (length (_ints r))) in
  let s := u32 (s + 4) in
  u32 (s + Z.of_nat (length (_tokens r))).

Section loops.
Context {A : Type}.

(** The writing loops go on after a failure. *)
Fixpoint set_each (set : list Z -> Z -> Z -> A -> access (bool * list Z * Z)) (data : list Z) (size off : Z) (l : list A)
    : access (bool * list Z * Z) :=
  match l with
  | [] => Done (true, data, off)
  | x :: l =>
      '(ok, data, off) ← set data size off x;
      '(ok', data, off) ← set_each set data size off l;
      Done (ok && ok', data, off)
  end.

(** The reading loops stop at the first failure. *)
Fixpoint get_each (get : list Z -> Z -> Z -> access (option A * Z)) (data : list Z) (size off : Z) (n : nat)
    : access (option (list A) * Z) :=
  match n with
  | O => Done (Some [], off)
  | S n =>
      '(r, off) ← get data size off;
      match r with
      | None => Done (None, off)
      | Some x => '(l, off) ← get_each get data size off n; Done (option_map (cons x) l, off)
      end
  end.
End loops.

Definition SetValue (data : list Z) (size off : Z) (s : list Z) := SetTlvString data size off TLV_TYPE_STR_VALUE s.
Definition GetValue (data : list Z) (size off : Z) := GetTlvString data size off TLV_TYPE_STR_VALUE.

Definition LinearizedExpression_serialize (data : list Z) (size offset : Z) (expr : LinearizedExpression)
    : access (bool * list Z * Z) :=
  let saved_offset := offset in
  '(ok1, data, offset) ← setRawUInt32 data size offset (u32 (Z.of_nat (length (_tokens expr))));
  '(ok2, data, offset) ← set_each setRawUInt8 data size offset (_tokens expr);
  '(ok3, data, offset) ← setRawUInt32 data size offset (u32 (Z.of_nat (length (_ints expr))));
  '(ok4, data, offset) ← set_each setRawUInt32 data size offset (_ints expr);
  '(ok5, data, offset) ← setRawUInt32 data size offset (u32 (Z.of_nat (length (_strings expr))));
  '(ok6, data, offset) ← set_each SetValue data size offset (_strings expr);
  let ok := ok1 && ok2 && ok3 && ok4 && ok5 && ok6 in
  Done (ok, data, if ok then offset else saved_offset).

(** One counted vector: the count, then that many values; after a failure only the count is read. *)
Definition get_counted {A} (get : list Z -> Z -> Z -> access (option A * Z)) (ok : bool) (data : list Z) (size offset : Z)
    : access (option (list A) * Z) :=
  '(n, offset) ← getRawUInt32 data size offset;
  match n with
  | None => Done (None, offset)
  | Some n => if ok then get_each get data size offset (Z.to_nat n) else Done (None, offset)
  end.

(** After a failure the item that the expression was read for is dropped, and what is in the vectors does not matter.  Room
    for the vectors is taken for granted, whatever the counts. *)
Definition LinearizedExpression_deserialize (data : list Z) (size offset : Z) : access (option LinearizedExpression * Z) :=
  let saved_offset := offset in
  '(toks, offset) ← get_counted getRawUInt8 true data size offset;
  '(ints, offset) ← get_counted getRawUInt32 (bool_decide (is_Some toks)) data size offset;
  '(strs, offset) ← get_counted GetValue (bool_decide (is_Some ints)) data size offset;
  Done (match toks, ints, strs with
        | Some t, Some i, Some s => (Some (mk_LinearizedExpression t i s), offset)
        | _, _, _ => (None, saved_offset)
        end).
