(* ===== verification/RsExprProps.v ===== *)
(** * Search expressions: theorems

    An expression that is flattened, encoded, decoded and rebuilt; what the tests of an expression mean; and what a message
    that no sender makes does to the reader. *)

From S2P Require Import Prelude RawSerial Tlv TlvSets RsExpr.
From Stdlib Require Import ZArith Lia Ascii String.
From stdpp Require Import base list.
Open Scope Z_scope.

(** ** Induction on expressions, through the pointers *)

Definition under (P : Expression -> Prop) (p : option Expression) : Prop := match p with Some x => P x | None => True end.

Lemma Expression_induction (P : Expression -> Prop)
  (Hcomp : forall op l r, under P l -> under P r -> P (CompoundExpression op l r))
  (Hname : forall op ts ic, P (NameExpression op ts ic)) (Hpath : forall op ts ic, P (PathExpression op ts ic))
  (Hext : forall op ts ic, P (ExtExpression op ts ic)) (Hhash : forall op ts, P (HashExpression op ts))
  (Hdate : forall op lv hv, P (DateExpression op lv hv)) (Hsize : forall op lv hv, P (SizeExpression op lv hv))
  (Hmb : forall op lv hv, P (SizeExpressionMB op lv hv)) (Hpop : forall op lv hv, P (PopExpression op lv hv)) :
  forall x, P x.
Proof.
  fix IH 1. intros [op l r| | | | | | | |]; [|clear IH; auto ..].
  apply Hcomp; [destruct l|destruct r]; cbn; auto.
Qed.

(** ** Flattening and back *)

Definition is_int (v : Z) : Prop := - 2 ^ 31 <= v < 2 ^ 31.

(** The expressions the program sends: no null pointer, words in their ranges, strings that reading leaves alone. *)
Definition strings_sendable (op : Z) (terms : list (list Z)) : Prop :=
  is_word 32 op /\ Z.of_nat (length terms) < 2 ^ 31 /\ Forall (string_ok TLV_TYPE_STR_VALUE) terms.

Definition range_sendable (op lv hv : Z) : Prop := is_word 32 op /\ is_int lv /\ is_int hv.

Fixpoint sendable (x : Expression) : Prop :=
  match x with
  | CompoundExpression op (Some l) (Some r) => is_word 32 op /\ sendable l /\ sendable r
  | CompoundExpression _ _ _ => False
  | NameExpression op ts _ | PathExpression op ts _ | ExtExpression op ts _ | HashExpression op ts => strings_sendable op ts
  | DateExpression op lv hv | SizeExpression op lv hv | SizeExpressionMB op lv hv | PopExpression op lv hv =>
      range_sendable op lv hv
  end.

(** What arrives: a test of the path has become a test of the extension. *)
Fixpoint received (x : Expression) : Expression :=
  match x with
  | CompoundExpression op l r => CompoundExpression op (received <$> l) (received <$> r)
  | PathExpression op ts ic => ExtExpression op ts ic
  | x => x
  end.

Fixpoint no_path (x : Expression) : Prop :=
  match x with
  | CompoundExpression _ l r =>
      match l with Some x => no_path x | None => True end /\ match r with Some x => no_path x | None => True end
  | PathExpression _ _ _ => False
  | _ => True
  end.

Lemma received_id x : no_path x -> received x = x.
Proof.
  revert x. apply (Expression_induction (fun x => no_path x -> received x = x)); try done.
  intros op [l|] [r|] Hl Hr [H1 H2]; cbn [under] in Hl, Hr; cbn; rewrite ?(Hl H1), ?(Hr H2); done.
Qed.

Definition join (e1 e2 : LinearizedExpression) : LinearizedExpression :=
  mk_LinearizedExpression (_tokens e1 ++ _tokens e2) (_ints e1 ++ _ints e2) (_strings e1 ++ _strings e2).

Lemma join_assoc e1 e2 e3 : join (join e1 e2) e3 = join e1 (join e2 e3).
Proof. unfold join. cbn. by rewrite <- !app_assoc. Qed.

Definition empty_expr : LinearizedExpression := mk_LinearizedExpression [] [] [].

Definition flat_str (tok op : Z) (ts : list (list Z)) (ic : bool) : LinearizedExpression :=
  mk_LinearizedExpression [tok] [op; if ic then 1 else 0; Z.of_nat (length ts)] ts.
Definition flat_rel (tok op lv hv : Z) : LinearizedExpression := mk_LinearizedExpression [tok] [op; u32 lv; u32 hv] [].

Fixpoint flat (x : Expression) : LinearizedExpression :=
  match x with
  | CompoundExpression op (Some l) (Some r) => join (mk_LinearizedExpression [EXPR_COMP] [op] []) (join (flat l) (flat r))
  | CompoundExpression _ _ _ => empty_expr
  | NameExpression op ts ic => flat_str EXPR_NAME op ts ic
  | PathExpression op ts ic => flat_str EXPR_PATH op ts ic
  | ExtExpression op ts ic => flat_str EXPR_EXT op ts ic
  | HashExpression op ts => flat_str EXPR_HASH op ts true
  | DateExpression op lv hv => flat_rel EXPR_DATE op lv hv
  | SizeExpression op lv hv => flat_rel EXPR_SIZE op lv hv
  | SizeExpressionMB op lv hv => flat_rel EXPR_SIZE_MB op lv hv
  | PopExpression op lv hv => flat_rel EXPR_POP op lv hv
  end.

Lemma str_linearize_flat tok op ts ic e : strings_sendable op ts ->
  str_linearize op ts ic (push_token tok e) = join e (flat_str tok op ts ic).
Proof.
  intros (Ho & Hl & _). unfold str_linearize, push_int, push_token, join, flat_str. cbn.
  rewrite !wrap_small; [by rewrite <- !app_assoc|unfold is_word; lia|destruct ic; unfold is_word; lia|done].
Qed.

Lemma rel_linearize_flat tok op lv hv e : range_sendable op lv hv ->
  rel_linearize op lv hv (push_token tok e) = join e (flat_rel tok op lv hv).
Proof.
  intros (Ho & _ & _). unfold rel_linearize, push_int, push_token, join, flat_rel. cbn.
  rewrite (wrap_small 32 op) by done. by rewrite <- !app_assoc, app_nil_r.
Qed.

Lemma linearize_flat x : sendable x -> forall e, linearize x e = Done (join e (flat x)).
Proof.
  revert x. apply (Expression_induction (fun x => sendable x -> forall e, linearize x e = Done (join e (flat x))));
    try (intros; cbn [linearize flat]; f_equal; first [by apply str_linearize_flat|by apply rel_linearize_flat]).
  intros op [l|] [r|] Hl Hr; try done. cbn [under] in *. intros (Ho & H1 & H2) e. cbn [linearize flat].
  rewrite (Hl H1). cbn [mbind access_bind]. rewrite (Hr H2). f_equal. rewrite <- !join_assoc. do 2 f_equal.
  unfold push_int, push_token, join. cbn. by rewrite wrap_small, app_nil_r.
Qed.

(** Comparisons of two known tokens. *)
Ltac decide_tokens :=
  repeat match goal with
  | |- context [?a =? ?b] => let v := eval vm_compute in (a =? b) in lazymatch v with true => idtac | false => idtac end; change (a =? b) with v
  end; cbv beta iota.

Lemma drop_app_next {A} n (l a r : list A) : drop n l = a ++ r -> drop (n + length a) l = r.
Proof. intros H. by rewrite <- drop_drop, H, drop_app_length. Qed.

Lemma at_index_drop {A} n (l : list A) a r : drop n l = a :: r -> at_index l n = Parsed a.
Proof. intros H. unfold at_index. rewrite <- (Nat.add_0_r n), <- lookup_drop, H. done. Qed.

Lemma sint32_u32 v : is_int v -> sint32 (u32 v) = v.
Proof.
  intros H. transitivity (sint32 v); [|by apply sint32_small]. apply sint32_proper, eqm_wrap.
Qed.

Lemma readRelExpr_flat e ni op lv hv r : range_sendable op lv hv -> drop ni (_ints e) = [op; u32 lv; u32 hv] ++ r ->
  readRelExpr e ni = Parsed (op, lv, hv, (ni + 3)%nat).
Proof.
  intros (_ & Hl & Hh) H. unfold readRelExpr. rewrite (at_index_drop ni _ op _ H). cbn [mbind parse_bind].
  rewrite (at_index_drop (ni + 1) _ (u32 lv) ([u32 hv] ++ r)) by (by apply (drop_app_next ni _ [op])). cbn [mbind parse_bind].
  rewrite (at_index_drop (ni + 2) _ (u32 hv) r) by (by apply (drop_app_next ni _ [op; u32 lv])). cbn [mbind parse_bind].
  by rewrite !sint32_u32.
Qed.

Lemma readStringExpr_flat e ni ns op (ic : bool) ts r rs : strings_sendable op ts ->
  drop ni (_ints e) = [op; if ic then 1 else 0; Z.of_nat (length ts)] ++ r -> drop ns (_strings e) = ts ++ rs ->
  readStringExpr e ni ns = Parsed (op, ic, ts, (ni + 3)%nat, (ns + length ts)%nat).
Proof.
  intros (_ & Hl & _) H Hs. unfold readStringExpr. rewrite (at_index_drop ni _ op _ H). cbn [mbind parse_bind].
  rewrite (at_index_drop (ni + 1) _ (if ic then 1 else 0) ([Z.of_nat (length ts)] ++ r)) by (by apply (drop_app_next ni _ [op])).
  cbn [mbind parse_bind].
  rewrite (at_index_drop (ni + 2) _ (Z.of_nat (length ts)) r) by (by apply (drop_app_next ni _ [op; if ic then 1 else 0])). cbn [mbind parse_bind].
  rewrite sint32_small, Nat2Z.id by lia.
  assert (E : forall (l : list (list Z)) (i : nat), drop i (_strings e) = l ++ rs ->
    (fix loop (n i : nat) : parse (list (list Z)) :=
       match n with O => Parsed [] | S n => s ← at_index (_strings e) i; l ← loop n (S i); Parsed (s :: l) end) (length l) i = Parsed l).
  { clear. induction l as [|s l IH]; intros i H; [done|]. cbn [length]. rewrite (at_index_drop i _ s (l ++ rs) H). cbn [mbind parse_bind].
    rewrite IH; [done|]. rewrite <- Nat.add_1_r. by apply (drop_app_next i _ [s]). }
  rewrite E by done. cbn [mbind parse_bind]. by destruct ic.
Qed.

(** Rebuilding from the middle of the vectors. *)
Lemma toExpr_flat x : sendable x -> forall fuel e nt ni ns rt ri rs, (length (_tokens (flat x)) <= fuel)%nat ->
  drop nt (_tokens e) = _tokens (flat x) ++ rt -> drop ni (_ints e) = _ints (flat x) ++ ri -> drop ns (_strings e) = _strings (flat x) ++ rs ->
  toExpr_from fuel e nt ni ns = Parsed (Some (received x), nt + length (_tokens (flat x)), ni + length (_ints (flat x)), ns + length (_strings (flat x)))%nat.
Proof.
  assert (Hstr : forall tok op ts ic fuel e nt ni ns rt ri rs, strings_sendable op ts -> (1 <= fuel)%nat ->
    drop nt (_tokens e) = [tok] ++ rt -> drop ni (_ints e) = _ints (flat_str tok op ts ic) ++ ri -> drop ns (_strings e) = ts ++ rs ->
    exists fuel', fuel = S fuel' /\ at_index (_tokens e) nt = Parsed tok /\ readStringExpr e ni ns = Parsed (op, ic, ts, (ni + 3)%nat, (ns + length ts)%nat)).
  { intros tok op ts ic fuel e nt ni ns rt ri rs Hs Hf Ht Hi Hst. exists (pred fuel). split; [lia|]. split; [by eapply at_index_drop|by eapply readStringExpr_flat]. }
  assert (Hrel : forall tok op lv hv fuel e nt ni rt ri, range_sendable op lv hv -> (1 <= fuel)%nat ->
    drop nt (_tokens e) = [tok] ++ rt -> drop ni (_ints e) = _ints (flat_rel tok op lv hv) ++ ri ->
    exists fuel', fuel = S fuel' /\ at_index (_tokens e) nt = Parsed tok /\ readRelExpr e ni = Parsed (op, lv, hv, (ni + 3)%nat)).
  { intros tok op lv hv fuel e nt ni rt ri Hs Hf Ht Hi. exists (pred fuel). split; [lia|]. split; [by eapply at_index_drop|by eapply readRelExpr_flat]. }
  revert x. apply (Expression_induction (fun x => sendable x -> forall fuel e nt ni ns rt ri rs, _ -> _ -> _ -> _ -> _ = _)).
  1: { intros op [l|] [r|] Hl Hr; try done. cbn [under] in *. intros (Ho & H1 & H2) fuel e nt ni ns rt ri rs Hf Ht Hi Hs.
    cbn [flat join _tokens _ints _strings] in *. rewrite <- !app_assoc in *. rewrite app_nil_l in Hs. rewrite !length_app in Hf. cbn [length] in Hf. destruct fuel as [|fuel]; [lia|].
    cbn [toExpr_from received]. rewrite (at_index_drop nt _ EXPR_COMP _ Ht). cbn [mbind parse_bind]. decide_tokens.
    rewrite (at_index_drop ni _ op _ Hi). cbn [mbind parse_bind].
    apply drop_app_next in Ht, Hi. cbn [length] in Ht, Hi. rewrite Nat.add_1_r in Ht, Hi.
    rewrite (Hl H1 fuel e _ _ _ _ _ _ ltac:(lia) Ht Hi Hs). cbn [mbind parse_bind].
    apply drop_app_next in Ht, Hi, Hs. rewrite (Hr H2 fuel e _ _ _ _ _ _ ltac:(lia) Ht Hi Hs). cbn [mbind parse_bind fmap option_fmap option_map].
    rewrite !length_app. cbn [length]. do 2 f_equal; [f_equal; [f_equal|]|]; lia. }
  all: first
    [ intros op ts ic Hok fuel e nt ni ns rt ri rs Hf Ht Hi Hs; cbn [flat flat_str _tokens _ints _strings] in *;
      edestruct (Hstr _ op ts ic fuel e nt ni ns rt ri rs Hok Hf Ht Hi Hs) as (fuel' & -> & E1 & E2)
    | intros op ts Hok fuel e nt ni ns rt ri rs Hf Ht Hi Hs; cbn [flat flat_str _tokens _ints _strings] in *;
      edestruct (Hstr _ op ts true fuel e nt ni ns rt ri rs Hok Hf Ht Hi Hs) as (fuel' & -> & E1 & E2)
    | intros op lv hv Hok fuel e nt ni ns rt ri rs Hf Ht Hi Hs; cbn [flat flat_rel _tokens _ints _strings] in *;
      edestruct (Hrel _ op lv hv fuel e nt ni rt ri Hok Hf Ht Hi) as (fuel' & -> & E1 & E2) ];
    cbn [toExpr_from received]; rewrite E1; cbn [mbind parse_bind]; decide_tokens; rewrite E2; cbn [mbind parse_bind length];
    repeat f_equal; lia.
Qed.

Lemma toExpr_join_flat x : sendable x -> toExpr (flat x) = Parsed (Some (received x)).
Proof.
  intros Hx. unfold toExpr. rewrite (toExpr_flat x Hx _ _ 0 0 0 [] [] []); [done|lia| | |]; by rewrite drop_0, app_nil_r.
Qed.

(** ** Encoding *)

Section each.
Context {A : Type} (C : RawCodec A).

Definition each_enc (l : list A) : list Z := concat (rc_enc <$> l).

Lemma writes_each l : Forall rc_dom l -> writes (fun data size off => set_each rc_set data size off l) (each_enc l).
Proof.
  induction 1 as [|x l Hx Hl IH]; intros data size off Hb Ho Hf.
  - cbn. unfold splice. cbn. by rewrite Nat.add_0_r, take_drop, Z.add_0_r.
  - unfold each_enc in *. cbn [fmap list_fmap concat] in *. rewrite length_app in Hf. cbn [set_each].
    rewrite rc_set_fits by (done || lia). cbn [mbind access_bind]. rewrite (writes_next _ _ _ _ _ _ IH) by (done || lia). done.
Qed.

Lemma get_each_enc l : Forall rc_dom l -> forall data size off, buffer_ok data size -> 0 <= off ->
  off + Z.of_nat (length (each_enc l)) <= size -> slice (Z.to_nat off) (length (each_enc l)) data = each_enc l ->
  get_each rc_get data size off (length l) = Done (Some l, off + Z.of_nat (length (each_enc l))).
Proof.
  induction 1 as [|x l Hx Hl IH]; intros data size off Hb Ho Hf Hsl.
  - cbn. by rewrite Z.add_0_r.
  - unfold each_enc in *. cbn [fmap list_fmap concat length] in *. apply slice_app_inv in Hsl as [H1 H2]. rewrite length_app, Nat2Z.inj_add in *.
    cbn [get_each]. rewrite (rc_get_enc _ _ _ x) by (done || lia). cbn [mbind access_bind].
    rewrite IH; [|done|lia|lia|].
    + cbn [mbind access_bind option_map]. do 2 f_equal. lia.
    + by replace (Z.to_nat (off + Z.of_nat (length (rc_enc x)))) with (Z.to_nat off + length (rc_enc x))%nat by lia.
Qed.

(** A count and the values. *)
Definition counted_enc (l : list A) : list Z := be_bytes 4 (Z.of_nat (length l)) ++ each_enc l.

Lemma length_counted l : length (counted_enc l) = (4 + length (each_enc l))%nat.
Proof. unfold counted_enc. by rewrite length_app, length_be_bytes. Qed.

Lemma get_counted_enc l : Forall rc_dom l -> Z.of_nat (length l) < 2 ^ 32 -> forall data size off, buffer_ok data size -> 0 <= off ->
  off + Z.of_nat (length (counted_enc l)) <= size -> slice (Z.to_nat off) (length (counted_enc l)) data = counted_enc l ->
  get_counted rc_get true data size off = Done (Some l, off + Z.of_nat (length (counted_enc l))).
Proof.
  intros Hl Hn data size off Hb Ho Hf Hsl. rewrite length_counted, Nat2Z.inj_add in Hf |- *. pose proof Hsl as Hsl'. unfold counted_enc in Hsl'.
  apply slice_app_inv in Hsl' as [H1 H2]. rewrite length_be_bytes in H1, H2. unfold get_counted, getRawUInt32.
  assert (E : getRawUInt 4 data size off = Done (Some (Z.of_nat (length l)), off + 4)) by (apply (getRawUInt_enc 4); try done; unfold is_word; lia).
  rewrite E. cbn [mbind access_bind]. rewrite Nat2Z.id. change (Z.of_nat 4) with 4 in *.
  rewrite get_each_enc; [do 2 f_equal; lia|done|done|lia|lia|]. by replace (Z.to_nat (off + 4)) with (Z.to_nat off + 4)%nat by lia.
Qed.
End each.

Definition codec_u8 : RawCodec Z := codec_uint 1 ltac:(lia).
Definition codec_u32 : RawCodec Z := codec_uint 4 ltac:(lia).
Definition codec_value : RawCodec (list Z) := codec_tlv_string TLV_TYPE_STR_VALUE value_word.

Definition expr_enc (e : LinearizedExpression) : list Z :=
  counted_enc codec_u8 (_tokens e) ++ counted_enc codec_u32 (_ints e) ++ counted_enc codec_value (_strings e).

(** Vectors that can be sent. *)
Record expr_ok (e : LinearizedExpression) : Prop := {
  eo_tokens : Forall (is_word 8) (_tokens e);
  eo_ints : Forall (is_word 32) (_ints e);
  eo_strings : Forall (string_ok TLV_TYPE_STR_VALUE) (_strings e);
  eo_size : Z.of_nat (length (expr_enc e)) < 2 ^ 32
}.

Lemma each_enc_cons {A} (C : RawCodec A) x l : each_enc C (x :: l) = rc_enc x ++ each_enc C l.
Proof. done. Qed.

Lemma length_each_const {A} (C : RawCodec A) n l : (forall x, length (rc_enc x) = n) -> length (each_enc C l) = (n * length l)%nat.
Proof. intros H. induction l as [|x l IH]; [cbn; lia|]. rewrite each_enc_cons, length_app, H. cbn [length]. lia. Qed.

Lemma length_expr_enc e : length (expr_enc e) =
  (12 + length (_tokens e) + 4 * length (_ints e) + length (each_enc codec_value (_strings e)))%nat.
Proof.
  unfold expr_enc. rewrite !length_app, !length_counted. rewrite (length_each_const codec_u8 1), (length_each_const codec_u32 4); [lia| |];
    intros x; apply length_be_bytes.
Qed.

Lemma length_each_value l : (length l <= length (each_enc codec_value l))%nat.
Proof.
  induction l as [|x l IH]; [cbn; lia|]. rewrite each_enc_cons, length_app. cbn [rc_enc codec_value codec_tlv_string length].
  rewrite length_app, length_tlv_header. lia.
Qed.

Lemma writes_count v : is_word 32 v -> writes (fun data size off => setRawUInt32 data size off (u32 v)) (be_bytes 4 v).
Proof. intros Hv data size off Hb Ho Hf. rewrite length_be_bytes in *. rewrite wrap_small by done. apply (setRawUInt_fits 4 ltac:(lia) data size off v); done || lia. Qed.

Lemma writes_expr e : expr_ok e -> writes (fun data size off => LinearizedExpression_serialize data size off e) (expr_enc e).
Proof.
  intros [Ht Hi Hs Hz] data size off Hb Ho Hf. pose proof (length_expr_enc e) as Hl. pose proof (length_each_value (_strings e)) as Hv.
  assert (Hlen : length (expr_enc e) = (4 + length (each_enc codec_u8 (_tokens e)) + (4 + length (each_enc codec_u32 (_ints e))) +
    (4 + length (each_enc codec_value (_strings e))))%nat) by (unfold expr_enc; rewrite !length_app, !length_counted; lia).
  assert (Hc : forall (l : list Z) (k : nat), length (be_bytes 4 (Z.of_nat (length l))) = 4%nat) by (intros; apply length_be_bytes).
  unfold LinearizedExpression_serialize.
  rewrite (writes_count (Z.of_nat (length (_tokens e)))) by first [done|rewrite length_be_bytes; lia|unfold is_word; lia]. cbn [mbind access_bind].
  rewrite (writes_next _ _ _ _ _ _ (writes_each codec_u8 _ Ht)) by first [done|rewrite ?length_app, ?length_be_bytes; lia]. cbn [mbind access_bind].
  rewrite (writes_next _ _ _ _ _ _ (writes_count (Z.of_nat (length (_ints e))) ltac:(unfold is_word; lia)))
    by first [done|rewrite ?length_app, ?length_be_bytes; lia]. cbn [mbind access_bind].
  rewrite (writes_next _ _ _ _ _ _ (writes_each codec_u32 _ Hi)) by first [done|rewrite ?length_app, ?length_be_bytes; lia]. cbn [mbind access_bind].
  rewrite (writes_next _ _ _ _ _ _ (writes_count (Z.of_nat (length (_strings e))) ltac:(unfold is_word; lia)))
    by first [done|rewrite ?length_app, ?length_be_bytes; lia]. cbn [mbind access_bind].
  rewrite (writes_next _ _ _ _ _ _ (writes_each codec_value _ Hs)) by first [done|rewrite ?length_app, ?length_be_bytes; lia]. cbn [mbind access_bind andb].
  unfold expr_enc, counted_enc. by rewrite <- !app_assoc.
Qed.

Lemma reads_expr e data size off : expr_ok e -> buffer_ok data size -> 0 <= off -> off + Z.of_nat (length (expr_enc e)) <= size ->
  slice (Z.to_nat off) (length (expr_enc e)) data = expr_enc e ->
  LinearizedExpression_deserialize data size off = Done (Some e, off + Z.of_nat (length (expr_enc e))).
Proof.
  intros [Ht Hi Hs Hz] Hb Ho Hf Hsl. pose proof (length_expr_enc e) as Hl. pose proof (length_each_value (_strings e)) as Hv.
  unfold expr_enc in Hsl. apply slice_app_inv in Hsl as [H1 H2]. apply slice_app_inv in H2 as [H2 H3].
  set (n1 := length (counted_enc codec_u8 (_tokens e))) in *. set (n2 := length (counted_enc codec_u32 (_ints e))) in *.
  set (n3 := length (counted_enc codec_value (_strings e))) in *.
  assert (Hn : length (expr_enc e) = (n1 + (n2 + n3))%nat) by (unfold expr_enc; by rewrite !length_app).
  unfold LinearizedExpression_deserialize.
  rewrite (get_counted_enc codec_u8 (_tokens e)) by (done || lia). fold n1. cbn [mbind access_bind]. rewrite bool_decide_true by eauto.
  rewrite (get_counted_enc codec_u32 (_ints e)); [|done|lia|done|lia|fold n2; lia|].
  2: { fold n2. by replace (Z.to_nat (off + Z.of_nat n1)) with (Z.to_nat off + n1)%nat by lia. }
  fold n2. cbn [mbind access_bind]. rewrite bool_decide_true by eauto.
  rewrite (get_counted_enc codec_value (_strings e)); [|done|lia|done|lia|fold n3; lia|].
  2: { fold n3. by replace (Z.to_nat (off + Z.of_nat n1 + Z.of_nat n2)) with (Z.to_nat off + n1 + n2)%nat by lia. }
  fold n3. cbn [mbind access_bind]. destruct e. do 2 f_equal. lia.
Qed.

Lemma serial_size_enc e : expr_ok e -> LinearizedExpression_serial_size e = Z.of_nat (length (expr_enc e)).
Proof.
  intros [_ _ Hs Hz]. rewrite length_expr_enc in *. unfold LinearizedExpression_serial_size. change (u32 (0 + 4)) with 4.
  change (foldl _ 4 (_strings e)) with (foldl (fun s x => u32 (s + GetTlvStringSize x)) 4 (_strings e)).
  rewrite (foldl_sizes (@rc_enc _ codec_value) GetTlvStringSize (_strings e) 4);
    change (concat (rc_enc <$> _strings e)) with (each_enc codec_value (_strings e)); [|clear Hz|lia|lia].
  - rewrite (wrap_small 32 (4 + Z.of_nat _ + 4)) by (unfold is_word; lia). rewrite (wrap_small 32 (_ + 4 * _)) by (unfold is_word; lia).
    rewrite (wrap_small 32 (_ + _ + 4)) by (unfold is_word; lia). rewrite wrap_small by (unfold is_word; lia). lia.
  - eapply Forall_impl; [exact Hs|]. intros s [_ Hs']. cbn [rc_enc codec_value codec_tlv_string]. unfold GetTlvStringSize.
    rewrite length_app, length_tlv_header. change TLV_HEADER_SIZE with 6. rewrite wrap_small by (unfold is_word; lia). lia.
Qed.

Lemma flat_words x : sendable x ->
  Forall (is_word 8) (_tokens (flat x)) /\ Forall (is_word 32) (_ints (flat x)) /\ Forall (string_ok TLV_TYPE_STR_VALUE) (_strings (flat x)).
Proof.
  assert (Hs : forall op (ic : bool) ts, strings_sendable op ts ->
    Forall (is_word 32) [op; if ic then 1 else 0; Z.of_nat (length ts)] /\ Forall (string_ok TLV_TYPE_STR_VALUE) ts).
  { intros op ic ts (H1 & H2 & H3). split; [|done]. rewrite !Forall_cons, Forall_nil. split_and!; try done; unfold is_word in *; destruct ic; lia. }
  assert (Hr : forall op lv hv, range_sendable op lv hv -> Forall (is_word 32) [op; u32 lv; u32 hv]).
  { intros op lv hv (H1 & _). rewrite !Forall_cons, Forall_nil. split_and!; try done; by apply wrap_range. }
  revert x. apply (Expression_induction (fun x => sendable x -> _ /\ _ /\ _)).
  1: { intros op [l|] [r|] Hl Hr'; try done. cbn [under] in *. intros (Ho & H1 & H2). destruct (Hl H1) as (A1 & A2 & A3), (Hr' H2) as (B1 & B2 & B3).
    cbn [flat join _tokens _ints _strings]. rewrite !Forall_app, !Forall_cons, !Forall_nil. split_and!; done. }
  all: first [intros op ts ic H|intros op ts H]; cbn [sendable flat flat_str flat_rel _tokens _ints _strings] in *;
    (split; [apply Forall_singleton; by vm_compute|]); first [by apply Hs|by apply (Hs op true)|split; [by apply Hr|constructor]].
Qed.

(** C38 A search travels unchanged: an expression without null pointers, flattened, written at any place where it fits, read
    back and rebuilt is the expression, except that a test of the path arrives as a test of the extension. *)
Theorem search_request_roundtrip (x : Expression) (data : list Z) (size off : Z)
    (Hx : sendable x) (Hbuf : buffer_ok data size) (Hoff : 0 <= off)
    (Hfit : off + Z.of_nat (length (expr_enc (flat x))) <= size) :
  exists e data',
    linearize x empty_expr = Done e /\
    LinearizedExpression_serialize data size off e = Done (true, data', off + LinearizedExpression_serial_size e) /\
    LinearizedExpression_deserialize data' size off = Done (Some e, off + LinearizedExpression_serial_size e) /\
    toExpr e = Parsed (Some (received x)) /\
    (no_path x -> received x = x).
Proof.
  pose proof Hbuf as [Hs Hd]. destruct (flat_words x Hx) as (H1 & H2 & H3). assert (He : expr_ok (flat x)) by (constructor; try done; lia).
  destruct (written_ok data size off (expr_enc (flat x)) Hbuf Hoff Hfit) as (Hb' & _ & Hsl).
  exists (flat x). eexists. rewrite (serial_size_enc _ He). split; [rewrite linearize_flat by done; by destruct (flat x)|]. split; [exact (writes_expr _ He data size off Hbuf Hoff Hfit)|].
  split; [by apply reads_expr|]. split; [by apply toExpr_join_flat|apply received_id].
Qed.

Definition example_search : Expression :=
  CompoundExpression AndOp (Some (NameExpression ContainsAllStrings [text "free"; text "music"] true))
    (Some (CompoundExpression XorOp (Some (SizeExpression Greater 1000 (-1))) (Some (PathExpression EqualsString [[]] false)))).

Lemma search_request_roundtrip_witness :
  sendable example_search /\
  exists e data',
    linearize example_search empty_expr = Done e /\
    LinearizedExpression_serialize (replicate 100 0) 100 5 e = Done (true, data', 5 + LinearizedExpression_serial_size e) /\
    LinearizedExpression_deserialize data' 100 5 = Done (Some e, 5 + LinearizedExpression_serial_size e) /\
    toExpr e = Parsed (Some (received example_search)) /\ (no_path example_search -> received example_search = example_search).
Proof.
  assert (Hx : sendable example_search).
  { unfold example_search, AndOp, XorOp, ContainsAllStrings, EqualsString, Greater. cbn [sendable]. unfold strings_sendable, range_sendable, is_word, is_int, string_ok.
    repeat (split || constructor); try lia; try (vm_compute; reflexivity); try (vm_compute; congruence). }
  split; [exact Hx|]. apply (search_request_roundtrip example_search (replicate 100 0) 100 5 Hx).
  - split; cbn; lia.
  - lia.
  - vm_compute. discriminate.
Defined.

(** ** Any vectors *)

(** Nodes of an expression, null pointers included. *)
Fixpoint nodes (x : Expression) : nat :=
  match x with
  | CompoundExpression _ l r =>
      S ((match l with Some x => nodes x | None => 1 end) + (match r with Some x => nodes x | None => 1 end))
  | _ => 1
  end.

Definition opt_nodes (x : option Expression) : nat := match x with Some x => nodes x | None => 1 end.

(** An index that stays within a vector of [n] values. *)
Definition index_ok (n i i' : nat) : Prop := (i <= i' /\ (i <= n -> i' <= n))%nat.

Lemma at_index_some {A} (l : list A) i a : at_index l i = Parsed a -> (i < length l)%nat.
Proof. unfold at_index. destruct (l !! i) eqn:E; [|done]. intros _. by eapply lookup_lt_Some. Qed.

Lemma at_index_fuel {A} (l : list A) i : at_index l i <> NoFuel.
Proof. unfold at_index. by destruct (l !! i). Qed.

Lemma readRelExpr_bounds e ni : match readRelExpr e ni with NoFuel => False | OutOfRange => True | Parsed (_, ni') => index_ok (length (_ints e)) ni ni' end.
Proof.
  unfold readRelExpr. destruct (at_index (_ints e) ni) eqn:E1; cbn [mbind parse_bind]; [|done|by apply at_index_fuel in E1].
  destruct (at_index (_ints e) (ni + 1)) eqn:E2; cbn [mbind parse_bind]; [|done|by apply at_index_fuel in E2].
  destruct (at_index (_ints e) (ni + 2)) eqn:E3; cbn [mbind parse_bind]; [|done|by apply at_index_fuel in E3].
  apply at_index_some in E3. unfold index_ok. lia.
Qed.

Lemma readStringExpr_bounds e ni ns : match readStringExpr e ni ns with
  | NoFuel => False | OutOfRange => True
  | Parsed (_, ni', ns') => index_ok (length (_ints e)) ni ni' /\ index_ok (length (_strings e)) ns ns' end.
Proof.
  unfold readStringExpr. destruct (at_index (_ints e) ni) eqn:E1; cbn [mbind parse_bind]; [|done|by apply at_index_fuel in E1].
  destruct (at_index (_ints e) (ni + 1)) eqn:E2; cbn [mbind parse_bind]; [|done|by apply at_index_fuel in E2].
  destruct (at_index (_ints e) (ni + 2)) as [n| |] eqn:E3; cbn [mbind parse_bind]; [|done|by apply at_index_fuel in E3].
  apply at_index_some in E3.
  assert (H : forall k i, match (fix loop (n i : nat) : parse (list (list Z)) :=
       match n with O => Parsed [] | S n => s ← at_index (_strings e) i; l ← loop n (S i); Parsed (s :: l) end) k i with
     | NoFuel => False | OutOfRange => True | Parsed l => index_ok (length (_strings e)) i (i + length l) end).
  { induction k as [|k IH]; intros i; [cbn; unfold index_ok; lia|]. destruct (at_index (_strings e) i) eqn:E; cbn [mbind parse_bind]; [|done|by apply at_index_fuel in E].
    specialize (IH (S i)). destruct (_ k (S i)) as [l| |]; cbn [mbind parse_bind length]; [|done..]. apply at_index_some in E. unfold index_ok in *. lia. }
  specialize (H (Z.to_nat (sint32 n)) ns). destruct (_ (Z.to_nat (sint32 n)) ns) as [l| |]; cbn [mbind parse_bind]; [|done..].
  unfold index_ok in *. lia.
Qed.

(** The outcome of a call that starts at the indices given: no more tokens are taken than there are, one for each node. *)
Definition within (e : LinearizedExpression) (nt ni ns : nat) (r : parse (option Expression * nat * nat * nat)) : Prop :=
  match r with
  | NoFuel => False
  | OutOfRange => True
  | Parsed (x, nt', ni', ns') =>
      (nt' = nt + opt_nodes x)%nat /\ index_ok (length (_tokens e)) nt nt' /\
      index_ok (length (_ints e)) ni ni' /\ index_ok (length (_strings e)) ns ns'
  end.

Lemma rel_within e nt ni ns make : (nt < length (_tokens e))%nat -> (forall op lv hv, nodes (make op lv hv) = 1%nat) ->
  within e nt ni ns ('(op, lv, hv, n_ints) ← readRelExpr e ni; Parsed (Some (make op lv hv), S nt, n_ints, ns)).
Proof.
  intros Ht Hm. pose proof (readRelExpr_bounds e ni) as H. destruct (readRelExpr e ni) as [[[[op lv] hv] ni']| |]; cbn [mbind parse_bind]; [|done..].
  cbn. rewrite Hm. unfold index_ok in *. lia.
Qed.

Lemma str_within e nt ni ns make : (nt < length (_tokens e))%nat -> (forall op l b, nodes (make op l b) = 1%nat) ->
  within e nt ni ns ('(op, b, strings, n_ints, n_strings) ← readStringExpr e ni ns;
    Parsed (Some (make op strings b), S nt, n_ints, n_strings)).
Proof.
  intros Ht Hm. pose proof (readStringExpr_bounds e ni ns) as H.
  destruct (readStringExpr e ni ns) as [[[[[op b] l] ni'] ns']| |]; cbn [mbind parse_bind]; [|done..]. cbn. rewrite Hm. unfold index_ok in *. lia.
Qed.

Lemma toExpr_from_within e : forall fuel nt ni ns, (length (_tokens e) - nt < fuel)%nat -> within e nt ni ns (toExpr_from fuel e nt ni ns).
Proof.
  induction fuel as [|fuel IH]; intros nt ni ns Hf; [lia|]. cbn [toExpr_from].
  destruct (at_index (_tokens e) nt) as [tok| |] eqn:E; cbn [mbind parse_bind]; [|done|by apply at_index_fuel in E].
  apply at_index_some in E. cbv zeta.
  repeat match goal with |- within _ _ _ _ (if ?c then _ else _) => destruct c end;
    try (by apply rel_within); try (by apply str_within); [|cbn; unfold index_ok; lia].
  destruct (at_index (_ints e) ni) eqn:Ei; cbn [mbind parse_bind]; [|done|by apply at_index_fuel in Ei]. apply at_index_some in Ei.
  pose proof (IH (S nt) (S ni) ns ltac:(lia)) as H1. destruct (toExpr_from fuel e (S nt) (S ni) ns) as [[[[e1 nt1] ni1] ns1]| |]; cbn [mbind parse_bind]; [|done..].
  cbn [within] in H1. pose proof (IH nt1 ni1 ns1 ltac:(lia)) as H2. destruct (toExpr_from fuel e nt1 ni1 ns1) as [[[[e2 nt2] ni2] ns2]| |]; cbn [mbind parse_bind]; [|done..].
  cbn [within] in *. unfold opt_nodes in *. cbn [nodes]. unfold index_ok in *. lia.
Qed.

(** Rebuilding an expression from any three vectors ends, whatever a friend sends: with a read outside a vector, with
    a null pointer, or with an expression that has one node per token it took, all of them tokens of the request. *)
Theorem toExpr_terminates (e : LinearizedExpression) :
  match toExpr e with
  | NoFuel => False
  | OutOfRange => True
  | Parsed x => (opt_nodes x <= length (_tokens e))%nat
  end.
Proof.
  unfold toExpr. pose proof (toExpr_from_within e (S (length (_tokens e))) 0 0 0 ltac:(lia)) as H.
  destruct (toExpr_from _ e 0 0 0) as [[[[x nt] ni] ns]| |]; cbn [mbind parse_bind]; [|done..]. cbn [within] in H. unfold index_ok in H. lia.
Qed.

(** ** What is displayed of a request *)

Lemma toStdString_sendable x : sendable x -> exists l, toStdString (received x) = Done l.
Proof.
  revert x. apply (Expression_induction (fun x => sendable x -> exists l, toStdString (received x) = Done l)); try (intros; cbn; eexists; reflexivity).
  intros op [l|] [r|] Hl Hr; try done. cbn [under] in *. intros (_ & H1 & H2). destruct (Hl H1) as [a Ha], (Hr H2) as [b Hb].
  cbn [received fmap option_fmap option_map toStdString]. rewrite Ha, Hb. cbn [mbind access_bind]. repeat case_match; eauto.
Qed.

(** What a well-meaning friend sends can be displayed; a request whose first token is not one of the nine makes the node
    that only displays it call through a null pointer. *)
Theorem GetKeywords_outcome :
  (forall x, sendable x -> exists l, GetKeywords (flat x) = Done l) /\
  (forall t toks ints strs, EXPR_SIZE_MB < t ->
    toExpr (mk_LinearizedExpression (t :: toks) ints strs) = Parsed None /\
    GetKeywords (mk_LinearizedExpression (t :: toks) ints strs) = Oob).
Proof.
  split.
  - intros x Hx. unfold GetKeywords. rewrite toExpr_join_flat by done. by apply toStdString_sendable.
  - intros t toks ints strs Ht. assert (E : toExpr (mk_LinearizedExpression (t :: toks) ints strs) = Parsed None).
    { unfold toExpr, EXPR_SIZE_MB in *. cbn [toExpr_from _tokens length at_index lookup list_lookup mbind parse_bind]. cbv zeta.
      unfold EXPR_DATE, EXPR_POP, EXPR_SIZE, EXPR_HASH, EXPR_NAME, EXPR_PATH, EXPR_EXT, EXPR_COMP, EXPR_SIZE_MB.
      repeat match goal with |- context [t =? ?k] => destruct (Z.eqb_spec t k); [lia|] end. done. }
    split; [exact E|]. unfold GetKeywords. by rewrite E.
Qed.

(** ** What the tests mean *)

(** The comparison of characters that a test asks for. *)
Definition same (ic : bool) (a b : Z) : Prop := if ic then tolower a = tolower b else a = b.

Lemma std_equal_spec (ic : bool) l1 l2 : (length l1 <= length l2)%nat ->
  std_equal (if ic then CompareCharIC else Z.eqb) l1 l2 = true <-> exists mid post, l2 = mid ++ post /\ Forall2 (same ic) l1 mid.
Proof.
  revert l2. induction l1 as [|a l1 IH]; intros l2 Hl.
  - split; [|done]. intros _. exists [], l2. by split.
  - destruct l2 as [|b l2]; [cbn in Hl; lia|]. cbn [std_equal]. rewrite andb_true_iff, IH by (cbn in Hl; lia).
    assert (Hab : (if ic then CompareCharIC else Z.eqb) a b = true <-> same ic a b) by (destruct ic; apply Z.eqb_eq). rewrite Hab. split.
    + intros (H & mid & post & -> & H2). exists (b :: mid), post. split; [done|by constructor].
    + intros (mid & post & E & H). destruct mid as [|b' mid]; [by inversion H|]. inversion H; subst. cbn in E. injection E as -> ->. split; [done|by eauto].
Qed.

Lemma std_search_spec (ic : bool) l2 : forall l1, (std_search (if ic then CompareCharIC else Z.eqb) l1 l2 <= length l1)%nat /\
  (std_search (if ic then CompareCharIC else Z.eqb) l1 l2 <> length l1 <->
   l1 <> [] /\ exists pre mid post, l1 = pre ++ mid ++ post /\ Forall2 (same ic) l2 mid).
Proof.
  induction l1 as [|a l1 [IH1 IH2]]; [cbn; split; [lia|]; tauto|]. cbn [std_search].
  destruct ((length l2 <=? length (a :: l1))%nat && _) eqn:E.
  - apply andb_true_iff in E as [E1 E2]. apply Nat.leb_le in E1. apply std_equal_spec in E2 as (mid & post & E2 & H); [|done].
    split; [cbn; lia|]. split; [|done]. intros _. split; [done|]. by exists [], mid, post.
  - split; [cbn; lia|]. cbn [length]. split.
    + intros H. assert (H' : std_search (if ic then CompareCharIC else Z.eqb) l1 l2 <> length l1) by lia. apply IH2 in H' as (_ & pre & mid & post & -> & H').
      split; [done|]. by exists (a :: pre), mid, post.
    + intros (_ & pre & mid & post & E2 & H). destruct pre as [|a' pre].
      * exfalso. pose proof (Forall2_length _ _ _ H) as Hl. apply andb_false_iff in E as [E|E].
        { apply Nat.leb_gt in E. rewrite E2, !length_app in E. cbn [length] in E. lia. }
        apply not_true_iff_false in E. apply E. apply std_equal_spec; [rewrite E2, !length_app; lia|]. by exists mid, post.
      * injection E2 as -> ->. intros E2. destruct (decide (pre ++ mid ++ post = [])) as [En|En].
        { rewrite En in *. assert (mid = []) by (destruct pre, mid; done). subst mid. inversion H; subst.
          rewrite andb_false_iff in E. cbn in E. destruct E; done. }
        apply (proj2 IH2); [|lia]. split; [done|]. by exists pre, mid, post.
Qed.

Definition occurs (ic : bool) (t str : list Z) : Prop := exists pre mid post, str = pre ++ mid ++ post /\ Forall2 (same ic) t mid.

Lemma StrContains_spec str t ic : StrContains str t ic = true <-> str <> [] /\ occurs ic t str.
Proof.
  unfold StrContains, occurs. rewrite negb_true_iff, Nat.eqb_neq. destruct (std_search_spec ic t str) as [_ <-]. by destruct ic.
Qed.

Lemma std_equal_eq l1 l2 : length l1 = length l2 -> std_equal Z.eqb l1 l2 = true <-> l1 = l2.
Proof.
  revert l2. induction l1 as [|a l1 IH]; intros [|b l2] H; try done. cbn [std_equal]. rewrite andb_true_iff, Z.eqb_eq, IH by (cbn in H; lia).
  split; [intros [-> ->]; done|intros E; injection E; done].
Qed.

Lemma StrEquals_spec str t ic : StrEquals str t ic = true <-> str = t.
Proof.
  unfold StrEquals. destruct (Nat.eqb_spec (length str) (length t)) as [E|E]; cbn [negb].
  - by apply std_equal_eq.
  - split; [done|]. by intros ->.
Qed.

(** What a test of a string decides.  Containing is containing, with or without regard to case as asked, but nothing
    is contained in an empty string, not even the empty one; equality is always exact: the flag that asks for it without
    regard to case has no effect. *)
Theorem evalStr_meaning (terms : list (list Z)) (ic : bool) (str : list Z) (op : Z) :
  (evalStr ContainsAllStrings terms ic str = true <-> forall t, t ∈ terms -> str <> [] /\ occurs ic t str) /\
  (evalStr ContainsAnyStrings terms ic str = true <-> exists t, t ∈ terms /\ str <> [] /\ occurs ic t str) /\
  (evalStr EqualsString terms ic str = true <-> str ∈ terms) /\
  (EqualsString < op -> evalStr op terms ic str = false).
Proof.
  split; [|split; [|split]].
  - unfold evalStr. rewrite Z.eqb_refl, forallb_forall. setoid_rewrite <- list_elem_of_In. by setoid_rewrite StrContains_spec.
  - change (evalStr ContainsAnyStrings terms ic str) with (existsb (fun t => StrContains str t ic) terms).
    rewrite existsb_exists. setoid_rewrite <- list_elem_of_In. by setoid_rewrite StrContains_spec.
  - change (evalStr EqualsString terms ic str) with (existsb (fun t => StrEquals str t ic) terms).
    rewrite existsb_exists. setoid_rewrite <- list_elem_of_In. setoid_rewrite StrEquals_spec. split; [by intros (t & Ht & ->)|by eauto].
  - unfold EqualsString, evalStr. intros H. unfold ContainsAllStrings, ContainsAnyStrings, EqualsString.
    repeat match goal with |- context [op =? ?k] => destruct (Z.eqb_spec op k); [lia|] end. done.
Qed.

Lemma sint32_min_size n : 0 <= n -> sint32 (Z.min (Z.shiftr (2 ^ 32 - 1) 1) n) = Z.min (2 ^ 31 - 1) n.
Proof. intros H. change (Z.shiftr (2 ^ 32 - 1) 1) with (2 ^ 31 - 1). apply sint32_small. lia. Qed.

(** The numeric tests compare 32-bit signed integers.  A size is capped, and so every test with bounds below the cap decides
    about the true 64-bit size; sizes in megabytes, dates and popularity are truncated, and the tests decide about the
    true values up to 2^51 bytes, the year 2038 and 2^31 - beyond, a date counts as negative. *)
Theorem numeric_tests_exact (op lv hv : Z) (f : ExpFileEntry)
    (Hsize : is_word 64 (file_size f)) (Htime : 0 <= file_modtime f) (Hpop : is_word 32 (file_popularity f)) :
  (lv < 2 ^ 31 - 1 -> hv < 2 ^ 31 - 1 -> eval (SizeExpression op lv hv) f = evalRel op lv hv (file_size f)) /\
  (file_size f < 2 ^ 51 -> eval (SizeExpressionMB op lv hv) f = evalRel op lv hv (file_size f / 2 ^ 20)) /\
  (file_modtime f < 2 ^ 31 -> eval (DateExpression op lv hv) f = evalRel op lv hv (file_modtime f)) /\
  (file_popularity f < 2 ^ 31 -> eval (PopExpression op lv hv) f = evalRel op lv hv (file_popularity f)) /\
  (2 ^ 31 <= file_modtime f < 2 ^ 32 -> eval (DateExpression SmallerEquals 0 hv) f = false).
Proof.
  unfold is_word in *. cbn [eval]. split; [|split; [|split; [|split]]].
  - intros Hl Hh. rewrite sint32_min_size by lia. unfold evalRel, Equals, GreaterEquals, Greater, SmallerEquals, Smaller, InRange.
    rewrite !Z.geb_leb, !Z.gtb_ltb. repeat case_match; blia.
  - intros H. rewrite Z.shiftr_div_pow2 by lia. rewrite sint32_small; [done|].
    pose proof (Z.div_pos (file_size f) (2 ^ 20)). pose proof (Z.div_lt_upper_bound (file_size f) (2 ^ 20) (2 ^ 31)). lia.
  - intros H. by rewrite sint32_small by lia.
  - intros H. by rewrite sint32_small by lia.
  - intros H. assert (E : sint32 (file_modtime f) = file_modtime f - 2 ^ 32).
    { rewrite <- (sint32_small (file_modtime f - 2 ^ 32)) by lia. apply sint32_proper. unfold eqm, wrap.
      replace (file_modtime f) with (file_modtime f - 2 ^ 32 + 1 * 2 ^ 32) at 1 by lia. apply Z_mod_plus_full. }
    rewrite E. unfold evalRel. change (SmallerEquals =? Equals) with false. change (SmallerEquals =? GreaterEquals) with false.
    change (SmallerEquals =? Greater) with false. rewrite Z.eqb_refl. blia.
Qed.

Definition example_file : ExpFileEntry := mk_ExpFileEntry (text "a.iso") 5000000000 1700000000 3 [] [].

Lemma numeric_tests_exact_witness :
  eval (SizeExpression Smaller 2000000000 0) example_file = true /\ eval (SizeExpressionMB InRange 4000 5000) example_file = true /\
  eval (DateExpression Greater 1600000000 0) example_file = false.
Proof.
  assert (H1 : is_word 64 (file_size example_file)) by (split; vm_compute; congruence).
  assert (H2 : 0 <= file_modtime example_file) by (vm_compute; discriminate).
  assert (H3 : is_word 32 (file_popularity example_file)) by (split; vm_compute; congruence).
  split; [|split].
  - rewrite (proj1 (numeric_tests_exact Smaller 2000000000 0 example_file H1 H2 H3)); [reflexivity|lia|lia].
  - rewrite (proj1 (proj2 (numeric_tests_exact InRange 4000 5000 example_file H1 H2 H3))); [reflexivity|vm_compute; reflexivity].
  - rewrite (proj1 (proj2 (proj2 (numeric_tests_exact Greater 1600000000 0 example_file H1 H2 H3)))); [reflexivity|vm_compute; reflexivity].
Defined.
