(* ===== verification/Turtle.v ===== *)
(** * The turtle router: src/turtle/p3turtle.cc, p3turtle.h, rsturtleitem.h

    Searches and tunnels through friends of friends.  A request wanders from friend to friend; every node remembers for a while
    where it came from, and sends the results back there.  A tunnel is a request for a file hash that was answered: each
    node on the way knows the neighbours to pass items on to, the two ends give the tunnel a virtual peer.

    Peer ids and hashes are numbers in the order of their bytes.  What the code gets from other objects - the clock, the online
    friends and their links, bans, the file index, random numbers - is the argument [env]; the services that use
    tunnels are a class.  Sending an item and calling a service are events, in order.  The mutex is left out: a handler
    runs from its first to its last line.  Hashes that were last dug at the same time are taken in the order of their bytes; the
    code leaves that to [std::sort]. *)

From S2P Require Import Prelude RawSerial Tlv TlvSets RsExpr.
From Stdlib Require Import ZArith Lia SpecFloat Ascii String.
From stdpp Require Import base list gmap sorting.
Open Scope Z_scope.

(** ** Constants *)

Definition TUNNEL_REQUESTS_LIFE_TIME : Z := 600.
Definition TUNNEL_REQUESTS_RESULT_TIME : Z := 20.
Definition SEARCH_REQUESTS_LIFE_TIME : Z := 600.
Definition SEARCH_REQUESTS_RESULT_TIME : Z := 20.
Definition REGULAR_TUNNEL_DIGGING_TIME : Z := 300.
Definition MAXIMUM_TUNNEL_IDLE_TIME : Z := 60.
Definition EMPTY_TUNNELS_DIGGING_TIME : Z := 50.
Definition TUNNEL_SPEED_ESTIMATE_LAPSE : Z := 5.
Definition TUNNEL_CLEANING_LAPS_TIME : Z := 10.
Definition TIME_BETWEEN_TUNNEL_MANAGEMENT_CALLS : Z := 2.
Definition MAX_TUNNEL_REQS_PER_SECOND : nat := 1.
Definition MAX_ALLOWED_SR_IN_CACHE : nat := 120.
Definition TURTLE_SEARCH_RESULT_MAX_HITS_FILES : Z := 5000.
Definition TURTLE_SEARCH_RESULT_MAX_HITS_DEFAULT : Z := 100.
Definition RSTURTLE_MAX_SEARCH_RESPONSE_SIZE : Z := 10000.
Definition TUNNEL_REQUEST_PACKET_SIZE : Z := 50.
Definition MAX_TR_FORWARD_PER_SEC : Z := 20.
Definition MAX_TR_FORWARD_PER_SEC_UPPER_LIMIT : Z := 100.
Definition MAX_TR_FORWARD_PER_SEC_LOWER_LIMIT : Z := 10.
Definition DISTANCE_SQUEEZING_POWER : Z := 8.
Definition TURTLE_MAX_SEARCH_DEPTH : Z := 6.
Definition TURTLE_MAX_SEARCH_REQ_ACCEPTED_SERIAL_SIZE : Z := 200.
Definition RS_SERVICE_TYPE_FILE_TRANSFER : Z := 0x0017.
Definition RS_NET_CONN_SPEED_TRICKLE : Z := 0x00010000.
Definition RS_NET_CONN_SPEED_LOW : Z := 0x00020000.

Definition depth_peer_probability : list float32 :=
  (fun n => f32_of_f64 (f64_div (f64_of_Z n) (f64_of_Z 100))) <$> [100; 99; 90; 70; 60; 50; 40].

Definition DIRECTION_CLIENT : Z := 1.
Definition DIRECTION_SERVER : Z := 2.

(** ** Items *)

Inductive search_query :=
| StringSearch (match_string : list Z)
| RegExpSearch (expr : LinearizedExpression)
| GenericSearch (service_id request_type : Z) (search_data : list Z).

(** [RsTurtleSearchRequestItem]. *)
Record search_request := mk_search_request { sq_PeerId : Z; sq_request_id : Z; sq_depth : Z; sq_query : search_query }.

Record TurtleFileInfo := mk_TurtleFileInfo { fi_hash : Z; fi_name : list Z; fi_size : Z }.

Inductive search_hits := FTSearchResult (result : list TurtleFileInfo) | GenericSearchResult (result_data : list Z).

(** [RsTurtleSearchResultItem]. *)
Record search_result := mk_search_result { sr_PeerId : Z; sr_request_id : Z; sr_hits : search_hits }.

Record RsTurtleOpenTunnelItem := mk_RsTurtleOpenTunnelItem {
  ot_PeerId : Z; ot_file_hash : Z; ot_request_id : Z; ot_partial_tunnel_id : Z; ot_depth : Z }.

Record RsTurtleTunnelOkItem := mk_RsTurtleTunnelOkItem { ok_PeerId : Z; ok_tunnel_id : Z; ok_request_id : Z }.

(** What a service sends through a tunnel; whether the item keeps the tunnel alive and its serialised size are virtual
    functions of its class. *)
Record RsTurtleGenericTunnelItem := mk_RsTurtleGenericTunnelItem {
  gt_PeerId : Z; gt_tunnel_id : Z; gt_direction : Z; gt_shouldStampTunnel : bool; gt_size : Z; gt_data : list Z }.

Inductive turtle_item :=
| SearchRequest (item : search_request)
| SearchResult (item : search_result)
| OpenTunnel (item : RsTurtleOpenTunnelItem)
| TunnelOk (item : RsTurtleTunnelOkItem)
| GenericTunnel (item : RsTurtleGenericTunnelItem).

#[export] Instance eta_search_request : Eta search_request :=
  fun i => mk_search_request (sq_PeerId i) (sq_request_id i) (sq_depth i) (sq_query i).
#[export] Instance eta_search_result : Eta search_result :=
  fun i => mk_search_result (sr_PeerId i) (sr_request_id i) (sr_hits i).
#[export] Instance eta_OpenTunnel : Eta RsTurtleOpenTunnelItem :=
  fun i => mk_RsTurtleOpenTunnelItem (ot_PeerId i) (ot_file_hash i) (ot_request_id i) (ot_partial_tunnel_id i) (ot_depth i).
#[export] Instance eta_TunnelOk : Eta RsTurtleTunnelOkItem :=
  fun i => mk_RsTurtleTunnelOkItem (ok_PeerId i) (ok_tunnel_id i) (ok_request_id i).
#[export] Instance eta_GenericTunnel : Eta RsTurtleGenericTunnelItem :=
  fun i => mk_RsTurtleGenericTunnelItem (gt_PeerId i) (gt_tunnel_id i) (gt_direction i) (gt_shouldStampTunnel i) (gt_size i) (gt_data i).

(** [RsTurtleSerialiser().size]. *)
Definition header_size : Z := 8.

Definition search_request_size (item : search_request) : Z :=
  match sq_query item with
  | StringSearch s => u32 (header_size + GetTlvStringSize s + 4 + 2)
  | RegExpSearch e => u32 (header_size + 4 + 2 + LinearizedExpression_serial_size e)
  | GenericSearch _ _ d => u32 (header_size + 4 + 2 + 2 + 1 + 4 + Z.of_nat (length d))
  end.

Definition open_tunnel_size : Z := header_size + 20 + 4 + 4 + 2.

Definition BinToHex (data : list Z) (max_len : Z) : list Z :=
  hash_toStdString (take (Z.to_nat max_len) data) ++ (if max_len <? Z.of_nat (length data) then text "..." else []).

Definition query_GetKeywords (q : search_query) : access (list Z) :=
  match q with
  | StringSearch s => Done s
  | RegExpSearch e => GetKeywords e
  | GenericSearch _ _ d => Done (text "Generic search : " ++ BinToHex d 10)
  end.

Definition query_serviceId (q : search_query) : Z :=
  match q with GenericSearch s _ _ => s | _ => RS_SERVICE_TYPE_FILE_TRANSFER end.

(** [count] and [pop] of a result. *)
Definition count (h : search_hits) : Z :=
  match h with FTSearchResult l => u32 (Z.of_nat (length l)) | GenericSearchResult d => u32 (Z.of_nat (length d)) / 50 end.

Definition pop (h : search_hits) : search_hits :=
  match h with FTSearchResult l => FTSearchResult (take (length l - 1) l) | GenericSearchResult d => GenericSearchResult d end.

(** ** State *)

Record TurtleSearchRequestInfo := mk_TurtleSearchRequestInfo {
  si_origin : Z; si_time_stamp : Z; si_depth : Z; si_result_count : Z; si_keywords : list Z; si_service_id : Z; si_max_allowed_hits : Z }.

#[export] Instance eta_TurtleSearchRequestInfo : Eta TurtleSearchRequestInfo := fun i =>
  mk_TurtleSearchRequestInfo (si_origin i) (si_time_stamp i) (si_depth i) (si_result_count i) (si_keywords i) (si_service_id i) (si_max_allowed_hits i).

Record TurtleTunnelRequestInfo := mk_TurtleTunnelRequestInfo { ti_origin : Z; ti_time_stamp : Z; ti_depth : Z; responses : gset Z }.

#[export] Instance eta_TurtleTunnelRequestInfo : Eta TurtleTunnelRequestInfo := fun i =>
  mk_TurtleTunnelRequestInfo (ti_origin i) (ti_time_stamp i) (ti_depth i) (responses i).

Record TurtleTunnel := mk_TurtleTunnel {
  local_src : Z; local_dst : Z; tn_time_stamp : Z; transfered_bytes : Z; speed_Bps : float32; tn_hash : Z; vpid : Z }.

#[export] Instance eta_TurtleTunnel : Eta TurtleTunnel := fun t =>
  mk_TurtleTunnel (local_src t) (local_dst t) (tn_time_stamp t) (transfered_bytes t) (speed_Bps t) (tn_hash t) (vpid t).

(** What [operator[]] of the map makes of a missing tunnel. *)
Definition new_tunnel : TurtleTunnel := mk_TurtleTunnel 0 0 0 0 (f32_of_Z 0) 0 0.

Record TurtleTrafficStatisticsInfo := mk_Traffic {
  unknown_updn_Bps : float32; data_up_Bps : float32; data_dn_Bps : float32; tr_up_Bps : float32; tr_dn_Bps : float32;
  total_up_Bps : float32; total_dn_Bps : float32 }.

#[export] Instance eta_Traffic : Eta TurtleTrafficStatisticsInfo := fun i =>
  mk_Traffic (unknown_updn_Bps i) (data_up_Bps i) (data_dn_Bps i) (tr_up_Bps i) (tr_dn_Bps i) (total_up_Bps i) (total_dn_Bps i).

Definition traffic_reset : TurtleTrafficStatisticsInfo :=
  let z := f32_of_Z 0 in mk_Traffic z z z z z z z.

Definition traffic_mul (i : TurtleTrafficStatisticsInfo) (f : float32) : TurtleTrafficStatisticsInfo :=
  mk_Traffic (f32_mul (unknown_updn_Bps i) f) (f32_mul (data_up_Bps i) f) (f32_mul (data_dn_Bps i) f) (f32_mul (tr_up_Bps i) f)
    (f32_mul (tr_dn_Bps i) f) (f32_mul (total_up_Bps i) f) (f32_mul (total_dn_Bps i) f).

Definition traffic_add (i j : TurtleTrafficStatisticsInfo) : TurtleTrafficStatisticsInfo :=
  mk_Traffic (f32_add (unknown_updn_Bps i) (unknown_updn_Bps j)) (f32_add (data_up_Bps i) (data_up_Bps j))
    (f32_add (data_dn_Bps i) (data_dn_Bps j)) (f32_add (tr_up_Bps i) (tr_up_Bps j)) (f32_add (tr_dn_Bps i) (tr_dn_Bps j))
    (f32_add (total_up_Bps i) (total_up_Bps j)) (f32_add (total_dn_Bps i) (total_dn_Bps j)).

(** [RSRandom::random_f32] on a random word. *)
Definition random_f32 (r : Z) : float32 := f32_div (f32_of_Z r) (f32_of_Z (2 ^ 32 - 1)).

(** An entry of the file index that matches a search. *)
Record DirDetails := mk_DirDetails { dd_is_dir : bool; dd_hash : Z; dd_name : list Z; dd_size : Z }.

(** What one operation is given: the time, the friends online (a set, in order) and their links, the banned hashes, the file index,
    and the random words it draws, first to last. *)
Record turtle_env := mk_turtle_env {
  now : Z;
  onlineIds : list Z;
  getLinkType : Z -> Z;
  isHashBanned : Z -> bool;
  SearchKeywords : list Z -> Z -> list DirDetails;
  SearchBoolExp : Expression -> Z -> list DirDetails;
  random_u32 : nat -> Z
}.

(** A service that uses tunnels.  [client_receiveSearchRequest] gives the answer, if there is one, and the number of hits
    allowed, which the service may change. *)
Class RsTurtleClientService (C : Type) := {
  serviceId : C -> Z;
  is_ftServer : C -> bool;
  client_handleTunnelRequest : C -> Z -> Z -> bool;
  client_receiveSearchRequest : C -> list Z -> Z -> option (list Z) * Z
}.

Section turtle.
Context {C : Type} `{RsTurtleClientService C}.

(** The power functions of the C library, rounded to [float]. *)
Context (pow_int : float32 -> Z -> float32) (pow : float32 -> float32 -> float32).

Record TurtleHashInfo := mk_TurtleHashInfo {
  tunnels : list Z; last_request : Z; last_digg_time : Z; service : option C; use_aggressive_mode : bool }.

#[export] Instance eta_TurtleHashInfo : Eta TurtleHashInfo := fun h =>
  mk_TurtleHashInfo (tunnels h) (last_request h) (last_digg_time h) (service h) (use_aggressive_mode h).

Definition new_hash_info : TurtleHashInfo := mk_TurtleHashInfo [] 0 0 None false.

Record p3turtle := mk_p3turtle {
  _own_id : Z;
  _search_requests_origins : gmap Z TurtleSearchRequestInfo;
  _tunnel_requests_origins : gmap Z TurtleTunnelRequestInfo;
  _incoming_file_hashes : gmap Z TurtleHashInfo;
  _outgoing_tunnel_client_services : gmap Z C;
  _local_tunnels : gmap Z TurtleTunnel;
  _virtual_peers : gmap Z Z;
  _hashes_to_remove : gset Z;
  _registered_services : gmap Z C;
  _last_clean_time : Z;
  _last_tunnel_management_time : Z;
  _last_tunnel_speed_estimate_time : Z;
  _random_bias : Z;
  _traffic_info : TurtleTrafficStatisticsInfo;
  _traffic_info_buffer : TurtleTrafficStatisticsInfo;
  _max_tr_up_rate : float32;
  _turtle_routing_enabled : bool;
  _turtle_routing_session_enabled : bool
}.

#[export] Instance eta_p3turtle : Eta p3turtle := fun t =>
  mk_p3turtle (_own_id t) (_search_requests_origins t) (_tunnel_requests_origins t) (_incoming_file_hashes t)
    (_outgoing_tunnel_client_services t) (_local_tunnels t) (_virtual_peers t) (_hashes_to_remove t) (_registered_services t)
    (_last_clean_time t) (_last_tunnel_management_time t) (_last_tunnel_speed_estimate_time t) (_random_bias t)
    (_traffic_info t) (_traffic_info_buffer t) (_max_tr_up_rate t) (_turtle_routing_enabled t) (_turtle_routing_session_enabled t).

(** The constructor, for an id that is not null. *)
Definition new_p3turtle (own_id random_bias : Z) : p3turtle :=
  mk_p3turtle own_id ∅ ∅ ∅ ∅ ∅ ∅ ∅ ∅ 0 0 0 random_bias traffic_reset traffic_reset (f32_of_Z MAX_TR_FORWARD_PER_SEC) true true.

(** A call through a null pointer to a service is an event with [None]. *)
Inductive turtle_event :=
| SendItem (item : turtle_item)
| AddVirtualPeer (s : option C) (hash vpid direction : Z)
| RemoveVirtualPeer (s : option C) (hash vpid : Z)
| ReceiveTurtleData (s : option C) (item : RsTurtleGenericTunnelItem) (hash vpid direction : Z)
| ReceiveSearchResult (s : C) (item : search_result).

(** ** Virtual peers and tunnel ids *)

(** The four bytes of the tunnel id and zeros. *)
Definition virtual_peer_id (tid : Z) : Z := tid * 2 ^ 96.

Definition locked_addDistantPeer (t : p3turtle) (tid : Z) : p3turtle :=
  t <| _virtual_peers := <[virtual_peer_id tid := tid]> (_virtual_peers t) |>
    <| _local_tunnels := <[tid := (default new_tunnel (_local_tunnels t !! tid)) <| vpid := virtual_peer_id tid |>]> (_local_tunnels t) |>.

Fixpoint file_print (b : bool) (buff : list Z) (res decal : Z) : Z :=
  match buff with
  | [] => res
  | c :: buff =>
      let res := u32 (res + (7 * c + decal)) in
      let decal := if b then u32 (decal * 44497 + 15641 + res mod 86243) else u32 (decal * 86243 + 15649 + res mod 44497) in
      file_print b buff res decal
  end.

Definition generatePersonalFilePrint (t : p3turtle) (hash seed : Z) (b : bool) : Z :=
  file_print b (hash_toStdString (be_bytes 20 hash) ++ hash_toStdString (be_bytes 16 (_own_id t))) seed 0.

(** ** Searching *)

Definition hits_of (l : list DirDetails) : list TurtleFileInfo :=
  (fun d => mk_TurtleFileInfo (dd_hash d) (dd_name d) (dd_size d)) <$> filter (fun d => dd_is_dir d = false) l.

(** [search] of the two kinds of file search. *)
Definition file_search (e : turtle_env) (q : search_query) (peer : Z) : access (list TurtleFileInfo) :=
  match q with
  | StringSearch s => Done (hits_of (SearchKeywords e s peer))
  | RegExpSearch ex =>
      match toExpr ex with
      | Parsed None => Done []
      | Parsed (Some x) => Done (hits_of (SearchBoolExp e x peer))
      | OutOfRange | NoFuel => Oob
      end
  | GenericSearch _ _ _ => Done []
  end.

(** Hits are cut into items that stop growing beyond 10000 bytes, and stop at the number allowed.  [cur] is the item being
    filled, with its size. *)
Fixpoint chop_results (l : list TurtleFileInfo) (count : Z) (cur : option (list TurtleFileInfo * Z)) : list (list TurtleFileInfo) * Z :=
  let flush acc := match cur with Some (c, _) => c :: acc | None => acc end in
  match l with
  | [] => (flush [], count)
  | f :: l =>
      let '(c, item_size) := default ([], 0) cur in
      let c := c ++ [f] in
      let count := u32 (count + 1) in
      let item_size := u32 (item_size + 8 + 20 + Z.of_nat (length (fi_name f))) in
      if TURTLE_SEARCH_RESULT_MAX_HITS_FILES <=? count then ([c], count)
      else if RSTURTLE_MAX_SEARCH_RESPONSE_SIZE <? item_size then
        let '(items, count) := chop_results l count None in (c :: items, count)
      else chop_results l count (Some (c, item_size))
  end.

Definition performLocalSearch_files (e : turtle_env) (item : search_request) : access (list search_hits * Z * Z) :=
  initialResults ← file_search e (sq_query item) (sq_PeerId item);
  let '(items, req_result_count) := chop_results initialResults 0 None in
  Done (FTSearchResult <$> items, req_result_count, TURTLE_SEARCH_RESULT_MAX_HITS_FILES).

Definition performLocalSearch_generic (t : p3turtle) (service_id : Z) (search_data : list Z) : list search_hits * Z * Z :=
  match _registered_services t !! service_id with
  | None => ([], 0, TURTLE_SEARCH_RESULT_MAX_HITS_DEFAULT)
  | Some client =>
      let '(answer, max_allowed_hits) := client_receiveSearchRequest client search_data TURTLE_SEARCH_RESULT_MAX_HITS_DEFAULT in
      (match answer with Some d => [GenericSearchResult d] | None => [] end, 0, max_allowed_hits)
  end.

(** The results, their number and the number allowed. *)
Definition performLocalSearch (e : turtle_env) (t : p3turtle) (item : search_request) : access (list search_hits * Z * Z) :=
  match sq_query item with
  | GenericSearch service_id _ d => Done (performLocalSearch_generic t service_id d)
  | _ => performLocalSearch_files e item
  end.

(** ** Forwarding *)

(** The tests on depth mix the session's random word with the request. *)
Definition random_bypass (t : p3turtle) (id depth : Z) : bool :=
  (TURTLE_MAX_SEARCH_DEPTH <=? depth) && (Z.land (Z.lxor (_random_bias t) id) 7 =? 2).
Definition random_dshift (t : p3turtle) (id depth : Z) : bool :=
  (depth =? 1) && (Z.land (Z.lxor (_random_bias t) id) 7 =? 6).

Definition slow_link (e : turtle_env) (peer : Z) : bool :=
  let linkType := getLinkType e peer in
  negb (Z.land linkType RS_NET_CONN_SPEED_TRICKLE =? 0) || negb (Z.land linkType RS_NET_CONN_SPEED_LOW =? 0).

(** The depth of a forwarded request. *)
Definition fwd_depth (shift : bool) (depth : Z) : Z := if shift then depth else u16 (depth + 1).

(** [clone] of a request, once per copy: [rs_malloc] ends the process for an empty block. *)
Definition clone (q : search_query) : access search_query :=
  match q with GenericSearch _ _ [] => Oob | _ => Done q end.

Definition forward_search (e : turtle_env) (t : p3turtle) (item : search_request) : access (list turtle_event) :=
  let bypass := random_bypass t (sq_request_id item) (sq_depth item) in
  let dshift := random_dshift t (sq_request_id item) (sq_depth item) in
  if (sq_depth item <? TURTLE_MAX_SEARCH_DEPTH) || bypass then
    match filter (fun p => slow_link e p = false /\ p <> sq_PeerId item) (onlineIds e) with
    | [] => Done []
    | peers =>
        q ← clone (sq_query item);
        Done ((fun p => SendItem (SearchRequest (item <| sq_depth := fwd_depth dshift (sq_depth item) |> <| sq_PeerId := p |> <| sq_query := q |>)))
          <$> peers)
    end
  else Done [].

(** [Oob] is a request that the process does not survive: it reads out of its memory, calls through a null pointer, or ends. *)
Definition handleSearchRequest (e : turtle_env) (t : p3turtle) (item : search_request) : access (p3turtle * list turtle_event) :=
  if TURTLE_MAX_SEARCH_REQ_ACCEPTED_SERIAL_SIZE <? search_request_size item then Done (t, [])
  else if (MAX_ALLOWED_SR_IN_CACHE <? size (_search_requests_origins t))%nat then Done (t, [])
  else
    match _search_requests_origins t !! sq_request_id item with
    | Some _ => Done (t, [])
    | None =>
        '(search_results, search_result_count, max_allowed_hits) ←
          (if negb (sq_PeerId item =? _own_id t) then performLocalSearch e t item
           else Done ([], 0, TURTLE_SEARCH_RESULT_MAX_HITS_DEFAULT));
        let sent := (fun h => SendItem (SearchResult (mk_search_result (sq_PeerId item) (sq_request_id item) h))) <$> search_results in
        keywords ← query_GetKeywords (sq_query item);
        let req := mk_TurtleSearchRequestInfo (sq_PeerId item) (u32 (now e)) (sq_depth item) search_result_count keywords
                     (query_serviceId (sq_query item)) max_allowed_hits in
        let t := t <| _search_requests_origins := <[sq_request_id item := req]> (_search_requests_origins t) |> in
        if max_allowed_hits <=? search_result_count then Done (t, sent)
        else (fwd ← forward_search e t item; Done (t, sent ++ fwd))
    end.

(** Results with a banned hash are dropped; [None] is a result in which no file is left. *)
Definition filter_banned (e : turtle_env) (h : search_hits) : option search_hits :=
  match h with
  | FTSearchResult l =>
      match filter (fun f => isHashBanned e (fi_hash f) = false) l with [] => None | l => Some (FTSearchResult l) end
  | GenericSearchResult d => Some (GenericSearchResult d)
  end.

(** The notification of a client, by kind of result. *)
Definition notify_result (s : C) (item : search_result) : list turtle_event :=
  match sr_hits item with
  | FTSearchResult _ => if is_ftServer s then [ReceiveSearchResult s item] else []
  | GenericSearchResult _ => [ReceiveSearchResult s item]
  end.

(** [duplicate] of a result; the same holds for an empty block. *)
Definition duplicate (h : search_hits) : access search_hits :=
  match h with GenericSearchResult [] => Oob | _ => Done h end.

Definition handleSearchResult (e : turtle_env) (t : p3turtle) (item : search_result) : access (p3turtle * list turtle_event) :=
  match filter_banned e (sr_hits item) with
  | None => Done (t, [])
  | Some hits =>
      let item := item <| sr_hits := hits |> in
      match _search_requests_origins t !! sr_request_id item with
      | None => Done (t, [])
      | Some req =>
          if si_time_stamp req + SEARCH_REQUESTS_RESULT_TIME <? now e then Done (t, [])
          else
            let set_count n := t <| _search_requests_origins :=
              <[sr_request_id item := req <| si_result_count := n |>]> (_search_requests_origins t) |> in
            let n := count hits in
            if si_origin req =? _own_id t then
              Done (set_count (u32 (si_result_count req + n)),
               match _registered_services t !! si_service_id req with Some s => notify_result s item | None => [] end)
            else if si_max_allowed_hits req <=? si_result_count req then Done (t, [])
            else
              let total := u32 (si_result_count req + n) in
              let '(hits, n) :=
                if si_max_allowed_hits req <? total
                then (Nat.iter (Z.to_nat (total - si_max_allowed_hits req)) pop hits, si_max_allowed_hits req)
                else (hits, total) in
              hits ← duplicate hits;
              Done (set_count n, [SendItem (SearchResult (item <| sr_hits := hits |> <| sr_PeerId := si_origin req |>))])
      end
  end.

(** ** Items in tunnels *)

Definition set_tunnel (t : p3turtle) (tid : Z) (tn : TurtleTunnel) : p3turtle := t <| _local_tunnels := <[tid := tn]> (_local_tunnels t) |>.

Definition add_size (x : float32) (n : Z) : float32 := f32_add x (f32_of_Z n).

(** The accounting of an item on a tunnel. *)
Definition stamp_tunnel (e : turtle_env) (stamp : bool) (n : Z) (tn : TurtleTunnel) : TurtleTunnel :=
  (if stamp then tn <| tn_time_stamp := u32 (now e) |> else tn) <| transfered_bytes := u32 (transfered_bytes tn + n) |>.

(** The virtual peer, the hash and the service at this end of a tunnel. *)
Definition getTunnelServiceInfo (t : p3turtle) (tunnel_id : Z) : option (Z * Z * option C) :=
  match _local_tunnels t !! tunnel_id with
  | None => None
  | Some tunnel =>
      if local_src tunnel =? _own_id t then
        match _incoming_file_hashes t !! tn_hash tunnel with
        | None => None
        | Some h => Some (vpid tunnel, tn_hash tunnel, service h)
        end
      else if local_dst tunnel =? _own_id t then
        match _outgoing_tunnel_client_services t !! tunnel_id with
        | None => None
        | Some s => Some (vpid tunnel, tn_hash tunnel, Some s)
        end
      else None
  end.

Definition handleRecvGenericTunnelItem (t : p3turtle) (item : RsTurtleGenericTunnelItem) : list turtle_event :=
  match getTunnelServiceInfo t (gt_tunnel_id item) with
  | None => []
  | Some (vpid, hash, service) => [ReceiveTurtleData service item hash vpid (gt_direction item)]
  end.

Definition routeGenericTunnelItem (e : turtle_env) (t : p3turtle) (item : RsTurtleGenericTunnelItem) : p3turtle * list turtle_event :=
  match _local_tunnels t !! gt_tunnel_id item with
  | None => (t, [])
  | Some tunnel =>
      let t := set_tunnel t (gt_tunnel_id item) (stamp_tunnel e (gt_shouldStampTunnel item) (gt_size item) tunnel) in
      let transit := t <| _traffic_info_buffer :=
        (_traffic_info_buffer t) <| unknown_updn_Bps := add_size (unknown_updn_Bps (_traffic_info_buffer t)) (gt_size item) |> |> in
      let received := t <| _traffic_info_buffer :=
        (_traffic_info_buffer t) <| data_dn_Bps := add_size (data_dn_Bps (_traffic_info_buffer t)) (gt_size item) |> |> in
      if gt_PeerId item =? local_dst tunnel then
        let item := item <| gt_direction := DIRECTION_CLIENT |> in
        if negb (local_src tunnel =? _own_id t) then (transit, [SendItem (GenericTunnel (item <| gt_PeerId := local_src tunnel |>))])
        else if (gt_PeerId item =? local_src tunnel) && negb (local_dst tunnel =? _own_id t) then
          (transit, [SendItem (GenericTunnel (item <| gt_PeerId := local_dst tunnel |>))])
        else (received, handleRecvGenericTunnelItem received item)
      else if gt_PeerId item =? local_src tunnel then
        let item := item <| gt_direction := DIRECTION_SERVER |> in
        if negb (local_dst tunnel =? _own_id t) then (transit, [SendItem (GenericTunnel (item <| gt_PeerId := local_dst tunnel |>))])
        else (received, handleRecvGenericTunnelItem received item)
      else (t, [])
  end.

(** A service sends to a virtual peer. *)
Definition sendTurtleData (e : turtle_env) (t : p3turtle) (virtual_peer_id : Z) (item : RsTurtleGenericTunnelItem)
    : p3turtle * list turtle_event :=
  match _virtual_peers t !! virtual_peer_id with
  | None => (t, [])
  | Some tunnel_id =>
      match _local_tunnels t !! tunnel_id with
      | None => (t, [])
      | Some tunnel =>
          let item := item <| gt_tunnel_id := tunnel_id |> in
          let ss := gt_size item in
          let t := set_tunnel t tunnel_id (stamp_tunnel e (gt_shouldStampTunnel item) ss tunnel) in
          let b := _traffic_info_buffer t in
          if local_src tunnel =? _own_id t then
            (t <| _traffic_info_buffer := b <| data_dn_Bps := add_size (data_dn_Bps b) ss |> |>,
             [SendItem (GenericTunnel (item <| gt_direction := DIRECTION_SERVER |> <| gt_PeerId := local_dst tunnel |>))])
          else if local_dst tunnel =? _own_id t then
            (t <| _traffic_info_buffer := b <| data_up_Bps := add_size (data_up_Bps b) ss |> |>,
             [SendItem (GenericTunnel (item <| gt_direction := DIRECTION_CLIENT |> <| gt_PeerId := local_src tunnel |>))])
          else (t, [])
      end
  end.

Definition isTurtlePeer (t : p3turtle) (peer_id : Z) : bool := bool_decide (is_Some (_virtual_peers t !! peer_id)).
Definition isOnline (t : p3turtle) (peer_id : Z) : bool := bool_decide (is_Some (_virtual_peers t !! peer_id)).

(** The end of the map is dereferenced when there is no such tunnel. *)
Definition getTurtlePeerId (t : p3turtle) (tid : Z) : access Z :=
  match _local_tunnels t !! tid with Some tn => Done (vpid tn) | None => Oob end.

Definition getSourceVirtualPeersList (t : p3turtle) (hash : Z) : list Z :=
  match _incoming_file_hashes t !! hash with
  | None => []
  | Some h => omap (fun tid => vpid <$> _local_tunnels t !! tid) (tunnels h)
  end.

(** ** Digging tunnels *)

(** The probability with which a request is passed on to each friend. *)
Definition depth_forward_probability (t : p3turtle) (depth : Z) : float32 :=
  let d := f32_div (tr_up_Bps (_traffic_info t)) (f32_mul (f32_of_Z TUNNEL_REQUEST_PACKET_SIZE) (_max_tr_up_rate t)) in
  let distance_to_maximum := if float_lt d (f32_of_Z 100) then d else f32_of_Z 100 in
  let corrected_distance := pow_int distance_to_maximum DISTANCE_SQUEEZING_POWER in
  pow (nth (Z.to_nat (Z.min 6 depth)) depth_peer_probability (f32_of_Z 0)) corrected_distance.

Definition forward_probability (t : p3turtle) (depth nb_online_ids : Z) : float32 :=
  let p := depth_forward_probability t depth in
  if float_lt (f32_mul p (f32_of_Z nb_online_ids)) (f32_of_Z 1) && (0 <? nb_online_ids) then
    let p := f32_div (f32_of_Z 1) (f32_of_Z nb_online_ids) in
    let dn := tr_dn_Bps (_traffic_info t) in
    if float_lt (_max_tr_up_rate t) (f32_div dn (f32_of_Z TUNNEL_REQUEST_PACKET_SIZE))
    then f32_mul p (f32_div (f32_mul (_max_tr_up_rate t) (f32_of_Z TUNNEL_REQUEST_PACKET_SIZE)) dn) else p
  else p.

(** One random number is drawn for each friend that is neither slow nor the sender, in order from the [i]th. *)
Fixpoint chosen_peers (e : turtle_env) (from : Z) (p : float32) (l : list Z) (i : nat) : list Z :=
  match l with
  | [] => []
  | peer :: l =>
      if slow_link e peer then chosen_peers e from p l i
      else if negb (peer =? from) then
        if float_le (random_f32 (random_u32 e i)) p then peer :: chosen_peers e from p l (S i) else chosen_peers e from p l (S i)
      else chosen_peers e from p l i
  end.

(** The services are asked in the order of their ids. *)
Definition performLocalHashSearch (t : p3turtle) (hash peer_id : Z) : option C :=
  snd <$> list_find (fun s => client_handleTunnelRequest s hash peer_id = true) (snd <$> in_order (_registered_services t)).

(** The answer of the node that has the file. *)
Definition answer_tunnel (e : turtle_env) (t : p3turtle) (item : RsTurtleOpenTunnelItem) (service : C) : p3turtle * list turtle_event :=
  let t_id := Z.lxor (ot_partial_tunnel_id item) (generatePersonalFilePrint t (ot_file_hash item) (_random_bias t) false) in
  let tt := mk_TurtleTunnel (ot_PeerId item) (_own_id t) (u32 (now e)) 0 (f32_of_Z 0) (ot_file_hash item) 0 in
  let t := locked_addDistantPeer (set_tunnel t t_id tt) t_id in
  let t := t <| _outgoing_tunnel_client_services := <[t_id := service]> (_outgoing_tunnel_client_services t) |> in
  (t, [SendItem (TunnelOk (mk_RsTurtleTunnelOkItem (ot_PeerId item) t_id (ot_request_id item)));
       AddVirtualPeer (Some service) (ot_file_hash item) (virtual_peer_id t_id) DIRECTION_CLIENT]).

(** The request as it is passed on, with a perturbed partial tunnel id. *)
Definition forward_tunnel_request (e : turtle_env) (t : p3turtle) (item : RsTurtleOpenTunnelItem) : p3turtle * list turtle_event :=
  let bypass := random_bypass t (ot_partial_tunnel_id item) (ot_depth item) in
  let dshift := random_dshift t (ot_partial_tunnel_id item) (ot_depth item) in
  let item := item <| ot_partial_tunnel_id :=
    generatePersonalFilePrint t (ot_file_hash item) (Z.lxor (ot_partial_tunnel_id item) (_random_bias t)) true |> in
  if (ot_depth item <? TURTLE_MAX_SEARCH_DEPTH) || bypass then
    let p := forward_probability t (ot_depth item) (Z.of_nat (length (onlineIds e))) in
    let peers := chosen_peers e (ot_PeerId item) p (onlineIds e) 0 in
    let b := _traffic_info_buffer t in
    (t <| _traffic_info_buffer := b <| tr_up_Bps := foldl (fun x _ => add_size x open_tunnel_size) (tr_up_Bps b) peers |> |>,
     (fun peer => SendItem (OpenTunnel (item <| ot_depth := fwd_depth dshift (ot_depth item) |> <| ot_PeerId := peer |>))) <$> peers)
  else (t, []).

Definition handleTunnelRequest (e : turtle_env) (t : p3turtle) (item : RsTurtleOpenTunnelItem) : p3turtle * list turtle_event :=
  let b := _traffic_info_buffer t in
  let t := t <| _traffic_info_buffer := b <| tr_dn_Bps := add_size (tr_dn_Bps b) open_tunnel_size |> |> in
  if isHashBanned e (ot_file_hash item) then (t, [])
  else
    match _tunnel_requests_origins t !! ot_request_id item with
    | Some _ => (t, [])
    | None =>
        let req := mk_TurtleTunnelRequestInfo (ot_PeerId item) (u32 (now e)) (ot_depth item) ∅ in
        let t := t <| _tunnel_requests_origins := <[ot_request_id item := req]> (_tunnel_requests_origins t) |> in
        match (if negb (ot_PeerId item =? _own_id t) then performLocalHashSearch t (ot_file_hash item) (ot_PeerId item) else None) with
        | Some service => answer_tunnel e t item service
        | None => forward_tunnel_request e t item
        end
    end.

(** A new tunnel for one of our hashes. *)
Definition start_tunnel (t : p3turtle) (hash : Z) (h : TurtleHashInfo) (tunnel_id : Z) : p3turtle :=
  let h := if bool_decide (tunnel_id ∈ tunnels h) then h else h <| tunnels := tunnels h ++ [tunnel_id] |> in
  let tn := default new_tunnel (_local_tunnels t !! tunnel_id) in
  locked_addDistantPeer (set_tunnel (t <| _incoming_file_hashes := <[hash := h]> (_incoming_file_hashes t) |>) tunnel_id (tn <| tn_hash := hash |>))
    tunnel_id.

(** The loop over the hashes: the state, and the last hash that matched with its service. *)
Definition match_hashes (request_id tunnel_id : Z) (l : list (Z * TurtleHashInfo)) (st : p3turtle * option (Z * option C))
    : p3turtle * option (Z * option C) :=
  foldl (fun st x =>
    if last_request x.2 =? request_id then (start_tunnel st.1 x.1 x.2 tunnel_id, Some (x.1, service x.2)) else st) st l.

Definition handleTunnelResult (e : turtle_env) (t : p3turtle) (item : RsTurtleTunnelOkItem) : p3turtle * list turtle_event :=
  match _tunnel_requests_origins t !! ok_request_id item with
  | None => (t, [])
  | Some req =>
      if bool_decide (ok_tunnel_id item ∈ responses req) then (t, [])
      else
        let t := t <| _tunnel_requests_origins :=
          <[ok_request_id item := req <| responses := {[ok_tunnel_id item]} ∪ responses req |>]> (_tunnel_requests_origins t) |> in
        let t := match _local_tunnels t !! ok_tunnel_id item with
                 | Some _ => t
                 | None => set_tunnel t (ok_tunnel_id item)
                             (mk_TurtleTunnel (ti_origin req) (ok_PeerId item) (u32 (now e)) 0 (f32_of_Z 0) 0 0)
                 end in
        if ti_time_stamp req + TUNNEL_REQUESTS_RESULT_TIME <? now e then (t, [])
        else if ti_origin req =? _own_id t then
          let '(t, found) := match_hashes (ok_request_id item) (ok_tunnel_id item) (in_order (_incoming_file_hashes t)) (t, None) in
          (t, match found with
              | Some (hash, Some s) => [AddVirtualPeer (Some s) hash (virtual_peer_id (ok_tunnel_id item)) DIRECTION_SERVER]
              | _ => []
              end)
        else (t, [SendItem (TunnelOk (item <| ok_PeerId := ti_origin req |>))])
  end.

(** [id] is the random request id. *)
Definition diggTunnel (e : turtle_env) (t : p3turtle) (hash id : Z) : p3turtle * list turtle_event :=
  let h := default new_hash_info (_incoming_file_hashes t !! hash) in
  let t := t <| _incoming_file_hashes := <[hash := h <| last_request := id |> <| last_digg_time := now e |>]> (_incoming_file_hashes t) |> in
  handleTunnelRequest e t
    (mk_RsTurtleOpenTunnelItem (_own_id t) hash id (generatePersonalFilePrint t hash (_random_bias t) true) 0).

(** The total speed of the tunnels of a hash; a tunnel that is missing is made. *)
Definition total_speed (t : p3turtle) (l : list Z) : p3turtle * Z :=
  foldl (fun st tid =>
    let tn := default new_tunnel (_local_tunnels st.1 !! tid) in
    (set_tunnel st.1 tid tn, u32 (Z_of_float (f32_add (f32_of_Z st.2) (speed_Bps tn))))) (t, 0) l.

Definition redigg_delay (total : Z) : Z :=
  let one := f32_of_Z 1 in
  let r := f32_div (f32_of_Z total) (f32_of_Z (50 * 1024)) in
  let m := if float_lt one r then r else one in
  let tunnel_keeping_factor := f32_add (f32_mul (f32_sub m one) one) one in
  Z_of_float (f32_mul (f32_of_Z REGULAR_TUNNEL_DIGGING_TIME) tunnel_keeping_factor).

Definition due (e : turtle_env) (h : TurtleHashInfo) (total : Z) : bool :=
  (bool_decide (tunnels h = []) && (last_digg_time h + EMPTY_TUNNELS_DIGGING_TIME <=? now e))
  || (use_aggressive_mode h && (last_digg_time h + redigg_delay total <=? now e)).

Definition hashes_to_digg (e : turtle_env) (t : p3turtle) : p3turtle * list (Z * Z) :=
  foldl (fun st x =>
    let '(t, total) := total_speed st.1 (tunnels x.2) in
    (t, if due e x.2 total then st.2 ++ [(x.1, last_digg_time x.2)] else st.2)) (t, []) (in_order (_incoming_file_hashes t)).

(** [hashPairComparator], on the times. *)
Definition older (x y : Z * Z) : Prop := x.2 <= y.2.
#[export] Instance older_dec : RelDecision older := fun x y => decide (x.2 <= y.2).

Definition manageTunnels (e : turtle_env) (t : p3turtle) (id : Z) : p3turtle * list turtle_event :=
  let '(t, l) := hashes_to_digg e t in
  match take MAX_TUNNEL_REQS_PER_SECOND (merge_sort older l) with
  | (hash, _) :: _ => diggTunnel e t hash id
  | [] => (t, [])
  end.

Definition forceReDiggTunnels (e : turtle_env) (t : p3turtle) (hash id : Z) : p3turtle * list turtle_event :=
  match _incoming_file_hashes t !! hash with
  | None => (t, [])
  | Some _ => diggTunnel e t hash id
  end.

(** ** Closing tunnels *)

(** The loop replaces a matching element by the last one. *)
Fixpoint remove_tunnel (fuel : nat) (tid : Z) (i : nat) (l : list Z) : list Z :=
  match fuel with
  | O => l
  | S fuel =>
      match l !! i with
      | None => l
      | Some x =>
          if x =? tid then remove_tunnel fuel tid i (take (length l - 1) (<[i := default 0 (last l)]> l))
          else remove_tunnel fuel tid (S i) l
      end
  end.

Definition locked_closeTunnel (t : p3turtle) (tid : Z) : p3turtle * list (option C * Z * Z) :=
  match _local_tunnels t !! tid with
  | None => (t, [])
  | Some tn =>
      let '(t, sources_to_remove) :=
        if local_src tn =? _own_id t then
          let t := t <| _virtual_peers := delete (vpid tn) (_virtual_peers t) |> in
          match _incoming_file_hashes t !! tn_hash tn with
          | None => (t, [])
          | Some h =>
              let h' := h <| tunnels := remove_tunnel (S (length (tunnels h))) tid 0 (tunnels h) |> in
              (t <| _incoming_file_hashes := <[tn_hash tn := h']> (_incoming_file_hashes t) |>, [(service h, tn_hash tn, vpid tn)])
          end
        else if local_dst tn =? _own_id t then
          match _outgoing_tunnel_client_services t !! tid with
          | None => (t, [])
          | Some s =>
              (t <| _outgoing_tunnel_client_services := delete tid (_outgoing_tunnel_client_services t) |>
                 <| _virtual_peers := delete (vpid tn) (_virtual_peers t) |>, [(Some s, tn_hash tn, vpid tn)])
          end
        else (t, []) in
      (t <| _local_tunnels := delete tid (_local_tunnels t) |>, sources_to_remove)
  end.

Definition close_tunnels (t : p3turtle) (l : list Z) : p3turtle * list (option C * Z * Z) :=
  foldl (fun st tid => let '(t, r) := locked_closeTunnel st.1 tid in (t, st.2 ++ r)) (t, []) l.

(** One hash that is not monitored any more. *)
Definition remove_hash (st : p3turtle * list (option C * Z * Z)) (hash : Z) : p3turtle * list (option C * Z * Z) :=
  match _incoming_file_hashes st.1 !! hash with
  | None => st
  | Some h =>
      let '(t, r) := close_tunnels st.1 (tunnels h) in
      (t <| _incoming_file_hashes := delete hash (_incoming_file_hashes t) |>, st.2 ++ r)
  end.

Definition wash_hashes (t : p3turtle) : p3turtle * list (option C * Z * Z) :=
  let '(t, r) := foldl remove_hash (t, []) (merge_sort Z.le (elements (_hashes_to_remove t))) in
  (t <| _hashes_to_remove := ∅ |>, r).

Definition wash_requests (e : turtle_env) (t : p3turtle) : p3turtle :=
  t <| _search_requests_origins :=
      filter (fun x => now e <= si_time_stamp x.2 + SEARCH_REQUESTS_LIFE_TIME) (_search_requests_origins t) |>
    <| _tunnel_requests_origins :=
      filter (fun x => now e <= ti_time_stamp x.2 + TUNNEL_REQUESTS_LIFE_TIME) (_tunnel_requests_origins t) |>.

Definition idle_tunnels (e : turtle_env) (t : p3turtle) : list Z :=
  fst <$> filter (fun x => tn_time_stamp x.2 + MAXIMUM_TUNNEL_IDLE_TIME < now e) (in_order (_local_tunnels t)).

Definition autoWash (e : turtle_env) (t : p3turtle) : p3turtle * list turtle_event :=
  let '(t, r1) := wash_hashes t in
  let t := wash_requests e t in
  let '(t, r2) := close_tunnels t (idle_tunnels e t) in
  (t, (fun x => RemoveVirtualPeer x.1.1 x.1.2 x.2) <$> (r1 ++ r2)).

(** ** What the rest of the program asks for *)

Definition stopMonitoringTunnels (t : p3turtle) (hash : Z) : p3turtle := t <| _hashes_to_remove := {[hash]} ∪ _hashes_to_remove t |>.

(** [r] is a random word. *)
Definition monitorTunnels (t : p3turtle) (hash : Z) (client_service : C) (allow_multi_tunnels : bool) (r : Z) : p3turtle :=
  let t := t <| _hashes_to_remove := _hashes_to_remove t ∖ {[hash]} |> in
  match _incoming_file_hashes t !! hash with
  | Some _ => t
  | None => t <| _incoming_file_hashes := <[hash := mk_TurtleHashInfo [] 0 (r mod 10) (Some client_service) allow_multi_tunnels]> (_incoming_file_hashes t) |>
  end.

Definition registerTunnelService (t : p3turtle) (s : C) : p3turtle := t <| _registered_services := <[serviceId s := s]> (_registered_services t) |>.

Definition setEnabled (t : p3turtle) (b : bool) : p3turtle := t <| _turtle_routing_enabled := b |>.
Definition setSessionEnabled (t : p3turtle) (b : bool) : p3turtle := t <| _turtle_routing_session_enabled := b |>.

Definition setMaxTRForwardRate (t : p3turtle) (val : Z) : p3turtle :=
  if (MAX_TR_FORWARD_PER_SEC_UPPER_LIMIT <? val) || (val <? MAX_TR_FORWARD_PER_SEC_LOWER_LIMIT) then t
  else t <| _max_tr_up_rate := f32_of_Z val |>.

Definition getMaxTRForwardRate (t : p3turtle) : Z := Z_of_float (_max_tr_up_rate t).

Definition load_pair (t : p3turtle) (kv : RsTlvKeyValue) : p3turtle :=
  let t := if bool_decide (key kv = text "TURTLE_CONFIG_MAX_TR_RATE") then
             match scan_int (value kv) with Some val => setMaxTRForwardRate t val | None => t end
           else t in
  if bool_decide (key kv = text "TURTLE_ENABLED") then t <| _turtle_routing_enabled := bool_decide (value kv = text "TRUE") |> else t.

(** The pairs of the configuration file. *)
Definition loadList (t : p3turtle) (pairs : list RsTlvKeyValue) : p3turtle := foldl load_pair t pairs.

(** The three searches of this node; [id] is the random request id. *)
Definition turtleSearch (e : turtle_env) (t : p3turtle) (q : search_query) (id : Z) : access (p3turtle * list turtle_event) :=
  handleSearchRequest e t (mk_search_request (_own_id t) id 0 q).

(** ** Incoming items and the clock *)

Definition handleItem (e : turtle_env) (t : p3turtle) (item : turtle_item) : access (p3turtle * list turtle_event) :=
  if negb (_turtle_routing_enabled t && _turtle_routing_session_enabled t) then Done (t, [])
  else
    match item with
    | GenericTunnel i => Done (routeGenericTunnelItem e t i)
    | SearchRequest i => handleSearchRequest e t i
    | SearchResult i => handleSearchResult e t i
    | OpenTunnel i => Done (handleTunnelRequest e t i)
    | TunnelOk i => Done (handleTunnelResult e t i)
    end.

Fixpoint handleIncoming (e : turtle_env) (t : p3turtle) (items : list turtle_item) : access (p3turtle * list turtle_event) :=
  match items with
  | [] => Done (t, [])
  | item :: items =>
      '(t, ev) ← handleItem e t item;
      '(t, ev') ← handleIncoming e t items;
      Done (t, ev ++ ev')
  end.

Definition estimateTunnelSpeeds (t : p3turtle) : p3turtle :=
  t <| _local_tunnels := (fun tn =>
    let speed_estimate := f32_div (f32_of_Z (transfered_bytes tn)) (f32_of_Z TUNNEL_SPEED_ESTIMATE_LAPSE) in
    let s := f64_add (f64_mul (f64_div (f64_of_Z 3) (f64_of_Z 4)) (f64_of_f32 (speed_Bps tn)))
               (f64_mul (f64_div (f64_of_Z 1) (f64_of_Z 4)) (f64_of_f32 speed_estimate)) in
    tn <| speed_Bps := f32_of_f64 s |> <| transfered_bytes := 0 |>) <$> _local_tunnels t |>.

(** The traffic of the last two seconds enters with a tenth. *)
Definition update_traffic (t : p3turtle) : p3turtle :=
  let old := traffic_mul (_traffic_info t) (f32_of_f64 (f64_div (f64_of_Z 9) (f64_of_Z 10))) in
  let tenth := f32_of_f64 (f64_div (f64_div (f64_of_Z 1) (f64_of_Z 10)) (f64_of_Z TIME_BETWEEN_TUNNEL_MANAGEMENT_CALLS)) in
  t <| _traffic_info := traffic_add old (traffic_mul (_traffic_info_buffer t) tenth) |> <| _traffic_info_buffer := traffic_reset |>.

(** [id] is the random id of a request dug in this tick. *)
Definition tick (e : turtle_env) (t : p3turtle) (items : list turtle_item) (id : Z) : access (p3turtle * list turtle_event) :=
  '(t, ev1) ← handleIncoming e t items;
  let should_autowash := TUNNEL_CLEANING_LAPS_TIME + _last_clean_time t <? now e in
  let should_estimatespeed := TUNNEL_SPEED_ESTIMATE_LAPSE + _last_tunnel_speed_estimate_time t <=? now e in
  let '(t, ev2) :=
    if _last_tunnel_management_time t + TIME_BETWEEN_TUNNEL_MANAGEMENT_CALLS <=? now e then
      let '(t, ev) := if _turtle_routing_enabled t && _turtle_routing_session_enabled t then manageTunnels e t id else (t, []) in
      (update_traffic (t <| _last_tunnel_management_time := now e |>), ev)
    else (t, []) in
  let '(t, ev3) :=
    if should_autowash then let '(t, ev) := autoWash e t in (t <| _last_clean_time := now e |>, ev) else (t, []) in
  let t := if should_estimatespeed then (estimateTunnelSpeeds t) <| _last_tunnel_speed_estimate_time := now e |> else t in
  Done (t, ev1 ++ ev2 ++ ev3).

End turtle.

Arguments p3turtle C : clear implicits.
Arguments TurtleHashInfo C : clear implicits.
Arguments turtle_event C : clear implicits.
