(* ===== verification/TurtleNet.v ===== *)
(** * Tunnels across nodes

    Routers joined by a network that delivers what one sends to the next: how the answer to a tunnel request makes a tunnel of
    the nodes it comes back through, and how data then travel in both directions.  Positions on the way of a tunnel are
    indices into the list of nodes, from the one that asked to the one that has the file. *)

From S2P Require Import Prelude RawSerial Tlv TlvSets RsExpr Turtle.
From Stdlib Require Import ZArith Lia SpecFloat.
From stdpp Require Import base list gmap sorting.
Open Scope Z_scope.

(** Who an item is for, and the item as it arrives from a friend. *)
Definition item_PeerId (i : turtle_item) : Z :=
  match i with
  | SearchRequest i => sq_PeerId i | SearchResult i => sr_PeerId i | OpenTunnel i => ot_PeerId i | TunnelOk i => ok_PeerId i
  | GenericTunnel i => gt_PeerId i
  end.

Definition arriving (from : Z) (i : turtle_item) : turtle_item :=
  match i with
  | SearchRequest i => SearchRequest (i <| sq_PeerId := from |>)
  | SearchResult i => SearchResult (i <| sr_PeerId := from |>)
  | OpenTunnel i => OpenTunnel (i <| ot_PeerId := from |>)
  | TunnelOk i => TunnelOk (i <| ok_PeerId := from |>)
  | GenericTunnel i => GenericTunnel (i <| gt_PeerId := from |>)
  end.

Section net.
Context {C : Type} `{RsTurtleClientService C} (pow_int : float32 -> Z -> float32) (pow : float32 -> float32 -> float32).
Context (env : Z -> turtle_env).

(** What a node sends, with its sender, and the calls it makes to services. *)
Definition sends (from : Z) (ev : list (turtle_event C)) : list (Z * turtle_item) :=
  omap (fun e => match e with SendItem i => Some (from, i) | _ => None end) ev.
Definition calls (at_ : Z) (ev : list (turtle_event C)) : list (Z * turtle_event C) :=
  omap (fun e => match e with SendItem _ => None | _ => Some (at_, e) end) ev.

(** Items are delivered in the order in which they were sent; [None] is a node that reads out of its memory, or too little
    fuel.  An item for a node that is not there is lost. *)
Fixpoint run (fuel : nat) (net : gmap Z (p3turtle C)) (queue : list (Z * turtle_item)) (log : list (Z * turtle_event C))
    : option (gmap Z (p3turtle C) * list (Z * turtle_event C)) :=
  match queue with
  | [] => Some (net, log)
  | (from, item) :: queue =>
      match fuel with
      | O => None
      | S fuel =>
          let to := item_PeerId item in
          match net !! to with
          | None => run fuel net queue log
          | Some t =>
              match handleItem pow_int pow (env to) t (arriving from item) with
              | Done (t', ev) => run fuel (<[to := t']> net) (queue ++ sends to ev) (log ++ calls to ev)
              | Oob => None
              end
          end
      end
  end.

(** A service at [id] sends an item to a virtual peer. *)
Definition send_from (fuel : nat) (net : gmap Z (p3turtle C)) (id vp : Z) (item : RsTurtleGenericTunnelItem)
    : option (gmap Z (p3turtle C) * list (Z * turtle_event C)) :=
  match net !! id with
  | None => None
  | Some t => let '(t', ev) := sendTurtleData (env id) t vp item in run fuel (<[id := t']> net) (sends id ev) (calls id ev)
  end.

(** ** What routing data leaves alone *)

Definition enabled (t : p3turtle C) : Prop := _turtle_routing_enabled t && _turtle_routing_session_enabled t = true.

(** The ends and the identity of a tunnel. *)
Definition route (t : p3turtle C) (tid : Z) : option (Z * Z * Z * Z) :=
  (fun tn => (local_src tn, local_dst tn, tn_hash tn, vpid tn)) <$> _local_tunnels t !! tid.

Record same_routes (t t' : p3turtle C) : Prop := {
  sm_own : _own_id t' = _own_id t;
  sm_enabled : enabled t -> enabled t';
  sm_virtual : _virtual_peers t' = _virtual_peers t;
  sm_incoming : _incoming_file_hashes t' = _incoming_file_hashes t;
  sm_outgoing : _outgoing_tunnel_client_services t' = _outgoing_tunnel_client_services t;
  sm_route : forall tid, route t' tid = route t tid
}.

#[export] Instance same_routes_refl : Reflexive same_routes.
Proof. by constructor. Qed.

#[export] Instance same_routes_trans : Transitive same_routes.
Proof. intros t1 t2 t3 [] []. constructor; congruence || auto. Qed.

Lemma set_tunnel_same t tid tn tn' : _local_tunnels t !! tid = Some tn ->
  (local_src tn', local_dst tn', tn_hash tn', vpid tn') = (local_src tn, local_dst tn, tn_hash tn, vpid tn) ->
  same_routes t (set_tunnel t tid tn').
Proof.
  intros E Er. constructor; try done. intros tid'. unfold route, set_tunnel. cbn. rewrite lookup_insert.
  destruct (decide (tid = tid')) as [<-|]; [|done]. rewrite E. cbn. by rewrite Er.
Qed.

Lemma stamp_route e b n tn : (local_src (stamp_tunnel e b n tn), local_dst (stamp_tunnel e b n tn), tn_hash (stamp_tunnel e b n tn), vpid (stamp_tunnel e b n tn)) =
  (local_src tn, local_dst tn, tn_hash tn, vpid tn).
Proof. by destruct b. Qed.

Lemma traffic_same t (x : TurtleTrafficStatisticsInfo) : same_routes t (t <| _traffic_info_buffer := x |>).
Proof. by constructor. Qed.

Lemma routeGenericTunnelItem_same e t item : same_routes t (routeGenericTunnelItem e t item).1.
Proof.
  unfold routeGenericTunnelItem. destruct (_local_tunnels t !! gt_tunnel_id item) as [tn|] eqn:E; [|done]. cbv zeta.
  pose proof (set_tunnel_same t _ tn _ E (stamp_route e (gt_shouldStampTunnel item) (gt_size item) tn)) as Hs.
  repeat case_match; cbn [fst]; try exact Hs; etransitivity; try exact Hs; apply traffic_same.
Qed.

Lemma sendTurtleData_same e t vp item : same_routes t (sendTurtleData e t vp item).1.
Proof.
  unfold sendTurtleData. destruct (_virtual_peers t !! vp) as [tid|]; [|done]. destruct (_local_tunnels t !! tid) as [tn|] eqn:E; [|done]. cbv zeta.
  pose proof (set_tunnel_same t _ tn _ E (stamp_route e (gt_shouldStampTunnel (item <| gt_tunnel_id := tid |>)) (gt_size (item <| gt_tunnel_id := tid |>)) tn)) as Hs.
  repeat case_match; cbn [fst]; try exact Hs; etransitivity; try exact Hs; apply traffic_same.
Qed.

(** ** Tunnels in place *)

(** The neighbours of the [i]th node [x] on the way; the first and the last are their own. *)
Definition src_of (path : list Z) (i : nat) (x : Z) : Z := match i with O => x | S j => default x (path !! j) end.
Definition dst_of (path : list Z) (i : nat) (x : Z) : Z := default x (path !! S i).

Definition node_ok (net : gmap Z (p3turtle C)) (path : list Z) (tid : Z) (i : nat) (x : Z) : Prop :=
  exists t h vp, net !! x = Some t /\ _own_id t = x /\ enabled t /\ route t tid = Some (src_of path i x, dst_of path i x, h, vp).

(** An end knows the hash and the virtual peer. *)
Definition end_ok (net : gmap Z (p3turtle C)) (tid hash x : Z) (P : p3turtle C -> Prop) : Prop :=
  exists t src dst, net !! x = Some t /\ _virtual_peers t !! virtual_peer_id tid = Some tid /\
    route t tid = Some (src, dst, hash, virtual_peer_id tid) /\ P t.

Definition start_service (hash : Z) (s : C) (t : p3turtle C) : Prop := exists h, _incoming_file_hashes t !! hash = Some h /\ service h = Some s.
Definition end_service (tid : Z) (d : C) (t : p3turtle C) : Prop := _outgoing_tunnel_client_services t !! tid = Some d.

(** A tunnel for [hash] from the first node, where service [s] asked for it, to the last, where service [d] has it. *)
Record established (net : gmap Z (p3turtle C)) (tid hash : Z) (s d : C) (path : list Z) : Prop := {
  es_nodup : NoDup path;
  es_long : (2 <= length path)%nat;
  es_nodes : forall i x, path !! i = Some x -> node_ok net path tid i x;
  es_start : forall x, path !! 0%nat = Some x -> end_ok net tid hash x (start_service hash s);
  es_end : forall x, path !! (length path - 1)%nat = Some x -> end_ok net tid hash x (end_service tid d)
}.

Definition net_same (net net' : gmap Z (p3turtle C)) : Prop :=
  forall x t, net !! x = Some t -> exists t', net' !! x = Some t' /\ same_routes t t'.

#[export] Instance net_same_refl : Reflexive net_same.
Proof. intros net x t E. by exists t. Qed.

#[export] Instance net_same_trans : Transitive net_same.
Proof.
  intros n1 n2 n3 H1 H2 x t E. destruct (H1 x t E) as (t2 & E2 & S2). destruct (H2 x t2 E2) as (t3 & E3 & S3). exists t3. split; [done|by etransitivity].
Qed.

Lemma net_same_insert net x t t' : net !! x = Some t -> same_routes t t' -> net_same net (<[x := t']> net).
Proof.
  intros E Hs y u Ey. rewrite lookup_insert. destruct (decide (x = y)) as [<-|]; [|by exists u]. simplify_eq. by exists t'.
Qed.

Lemma established_same net net' tid hash s d path : net_same net net' -> established net tid hash s d path -> established net' tid hash s d path.
Proof.
  intros Hs [Hn Hl Hnodes Hstart Hend]. constructor; try done.
  - intros i x E. destruct (Hnodes i x E) as (t & h & vp & Et & Eo & Een & Er). destruct (Hs x t Et) as (t' & Et' & [S1 S2 S3 S4 S5 S6]).
    exists t', h, vp. rewrite S1, S6. auto.
  - intros x E. destruct (Hstart x E) as (t & src & dst & Et & Ev & Er & h & Eh & Es). destruct (Hs x t Et) as (t' & Et' & [S1 S2 S3 S4 S5 S6]).
    exists t', src, dst. rewrite S3, S6. split_and!; try done. exists h. by rewrite S4.
  - intros x E. destruct (Hend x E) as (t & src & dst & Et & Ev & Er & Ed). destruct (Hs x t Et) as (t' & Et' & [S1 S2 S3 S4 S5 S6]).
    exists t', src, dst. rewrite S3, S6. split_and!; try done. unfold end_service. by rewrite S5.
Qed.

(** ** One node passes an item on *)

Lemma route_tunnel t tid src dst h vp : route t tid = Some (src, dst, h, vp) ->
  exists tn, _local_tunnels t !! tid = Some tn /\ local_src tn = src /\ local_dst tn = dst /\ tn_hash tn = h /\ vpid tn = vp.
Proof. unfold route. destruct (_local_tunnels t !! tid) as [tn|]; [|done]. cbn. intros E. injection E as <- <- <- <-. by exists tn. Qed.

Lemma pass_forward e t item src dst h vp : route t (gt_tunnel_id item) = Some (src, dst, h, vp) -> gt_PeerId item = src ->
  src <> dst -> dst <> _own_id t ->
  (routeGenericTunnelItem e t item).2 = [SendItem (GenericTunnel (item <| gt_direction := DIRECTION_SERVER |> <| gt_PeerId := dst |>))].
Proof.
  intros Er Hp Hsd Hd. apply route_tunnel in Er as (tn & E & <- & <- & _). unfold routeGenericTunnelItem. rewrite E, Hp. cbv zeta.
  destruct (Z.eqb_spec (local_src tn) (local_dst tn)); [done|]. rewrite Z.eqb_refl. cbn [_own_id set_tunnel upd].
  destruct (Z.eqb_spec (local_dst tn) (_own_id t)); [done|]. done.
Qed.

Lemma pass_back e t item src dst h vp : route t (gt_tunnel_id item) = Some (src, dst, h, vp) -> gt_PeerId item = dst -> src <> _own_id t ->
  (routeGenericTunnelItem e t item).2 = [SendItem (GenericTunnel (item <| gt_direction := DIRECTION_CLIENT |> <| gt_PeerId := src |>))].
Proof.
  intros Er Hp Hd. apply route_tunnel in Er as (tn & E & <- & <- & _). unfold routeGenericTunnelItem. rewrite E, Hp. cbv zeta.
  rewrite Z.eqb_refl. cbn [_own_id set_tunnel upd]. destruct (Z.eqb_spec (local_src tn) (_own_id t)); [done|]. done.
Qed.

Lemma receive_info t t' item tid dir vp hash (s : option C) : same_routes t t' -> getTunnelServiceInfo t tid = Some (vp, hash, s) ->
  gt_tunnel_id item = tid -> gt_direction item = dir -> handleRecvGenericTunnelItem t' item = [ReceiveTurtleData s item hash vp dir].
Proof.
  intros [S1 S2 S3 S4 S5 S6] E <- <-. unfold handleRecvGenericTunnelItem.
  assert (E' : getTunnelServiceInfo t' (gt_tunnel_id item) = getTunnelServiceInfo t (gt_tunnel_id item)); [|by rewrite E', E].
  unfold getTunnelServiceInfo. specialize (S6 (gt_tunnel_id item)). unfold route in S6.
  destruct (_local_tunnels t' !! gt_tunnel_id item) as [tn'|], (_local_tunnels t !! gt_tunnel_id item) as [tn|]; cbn in S6; try done.
  injection S6 as E1 E2 E3 E4. by rewrite E1, E2, E3, E4, S1, S4, S5.
Qed.

Lemma receive_server e t item src dst h vp (s : option C) hash : route t (gt_tunnel_id item) = Some (src, dst, h, vp) ->
  gt_PeerId item = src -> src <> dst -> dst = _own_id t -> getTunnelServiceInfo t (gt_tunnel_id item) = Some (vp, hash, s) ->
  (routeGenericTunnelItem e t item).2 = [ReceiveTurtleData s (item <| gt_direction := DIRECTION_SERVER |>) hash vp DIRECTION_SERVER].
Proof.
  intros Er Hp Hsd Ho Hi. apply route_tunnel in Er as (tn & E & <- & <- & _). unfold routeGenericTunnelItem. rewrite E, Hp. cbv zeta.
  pose proof (set_tunnel_same t _ tn _ E (stamp_route e (gt_shouldStampTunnel item) (gt_size item) tn)) as Hs.
  destruct (Z.eqb_spec (local_src tn) (local_dst tn)); [done|]. rewrite Z.eqb_refl. cbn [_own_id set_tunnel upd].
  destruct (Z.eqb_spec (local_dst tn) (_own_id t)); [|done]. cbn [negb snd].
  eapply receive_info; [|exact Hi|reflexivity..]. etransitivity; [exact Hs|apply traffic_same].
Qed.

Lemma receive_client e t item src dst h vp (s : option C) hash : route t (gt_tunnel_id item) = Some (src, dst, h, vp) ->
  gt_PeerId item = dst -> src <> dst -> src = _own_id t -> getTunnelServiceInfo t (gt_tunnel_id item) = Some (vp, hash, s) ->
  (routeGenericTunnelItem e t item).2 = [ReceiveTurtleData s (item <| gt_direction := DIRECTION_CLIENT |>) hash vp DIRECTION_CLIENT].
Proof.
  intros Er Hp Hsd Ho Hi. apply route_tunnel in Er as (tn & E & <- & <- & _). unfold routeGenericTunnelItem. rewrite E, Hp. cbv zeta.
  pose proof (set_tunnel_same t _ tn _ E (stamp_route e (gt_shouldStampTunnel item) (gt_size item) tn)) as Hs.
  rewrite Z.eqb_refl. cbn [_own_id set_tunnel upd]. destruct (Z.eqb_spec (local_src tn) (_own_id t)); [|done]. cbn [negb snd].
  change (gt_PeerId (item <| gt_direction := DIRECTION_CLIENT |>)) with (gt_PeerId item). rewrite Hp.
  destruct (Z.eqb_spec (local_dst tn) (local_src tn)); [congruence|]. cbn [andb snd].
  eapply receive_info; [|exact Hi|reflexivity..]. etransitivity; [exact Hs|apply traffic_same].
Qed.
(** ** Data on their way *)

Lemma path_neq (path : list Z) i j x y : NoDup path -> path !! i = Some x -> path !! j = Some y -> i <> j -> x <> y.
Proof. intros Hn Ex Ey Hij ->. by apply Hij, (NoDup_lookup path i j y). Qed.

Lemma run_step fuel net from item log t t' ev queue : net !! item_PeerId item = Some t ->
  handleItem pow_int pow (env (item_PeerId item)) t (arriving from item) = Done (t', ev) ->
  run (S fuel) net ((from, item) :: queue) log =
    run fuel (<[item_PeerId item := t']> net) (queue ++ sends (item_PeerId item) ev) (log ++ calls (item_PeerId item) ev).
Proof. intros Et Eh. cbn [run]. by rewrite Et, Eh. Qed.

Lemma handle_generic e t item : enabled t -> handleItem pow_int pow e t (GenericTunnel item) = Done (routeGenericTunnelItem e t item).
Proof. intros He. unfold handleItem, enabled in *. by rewrite He. Qed.

(** A node handles an item of a tunnel: the tunnels of the net stay. *)
Lemma run_generic fuel net from item log t tid hash s d path : established net tid hash s d path ->
  net !! gt_PeerId item = Some t -> enabled t ->
  exists net', net_same net net' /\ established net' tid hash s d path /\
    run (S fuel) net [(from, GenericTunnel item)] log =
      let ev := (routeGenericTunnelItem (env (gt_PeerId item)) t (item <| gt_PeerId := from |>)).2 in
      run fuel net' (sends (gt_PeerId item) ev) (log ++ calls (gt_PeerId item) ev).
Proof.
  intros Hes Et He. pose proof (routeGenericTunnelItem_same (env (gt_PeerId item)) t (item <| gt_PeerId := from |>)) as Hs.
  pose proof (handle_generic (env (gt_PeerId item)) t (item <| gt_PeerId := from |>) He) as Eh.
  destruct (routeGenericTunnelItem _ _ _) as [t' ev]. cbn [fst snd] in *.
  pose proof (net_same_insert net _ t t' Et Hs) as Hn. exists (<[gt_PeerId item := t']> net).
  split; [done|]. split; [by eapply established_same|]. by rewrite (run_step fuel net from (GenericTunnel item) log t t' ev []).
Qed.

(** The service at an end of an established tunnel. *)
Lemma end_info net tid hash s d path last x : established net tid hash s d path -> last = (length path - 1)%nat -> path !! last = Some x ->
  exists t src h vp, net !! x = Some t /\ _own_id t = x /\ enabled t /\ src_of path last x = src /\ src <> x /\
    route t tid = Some (src, x, h, vp) /\ vp = virtual_peer_id tid /\ getTunnelServiceInfo t tid = Some (vp, hash, Some d).
Proof.
  intros [Hn Hl Hnodes Hstart Hend] -> Ex. destruct (Hnodes _ _ Ex) as (t & h & vp & Et & Eo & Een & Er).
  destruct (Hend _ Ex) as (t2 & src & dst & Et2 & Ev & Er2 & Ed). rewrite Et in Et2. injection Et2 as <-. subst x. rewrite Er in Er2. injection Er2 as E1 E2 E3 E4.
  assert (Hd : dst_of path (length path - 1) (_own_id t) = _own_id t) by (unfold dst_of; by rewrite lookup_ge_None_2 by lia).
  assert (Hsx : src_of path (length path - 1) (_own_id t) <> _own_id t).
  { destruct (length path - 1)%nat as [|j] eqn:Ej; [lia|]. cbn. destruct (path !! j) as [y|] eqn:Ey; cbn; [|apply lookup_ge_None in Ey; lia].
    by apply (path_neq path j (S j)); [done..|lia]. }
  exists t, (src_of path (length path - 1) (_own_id t)), hash, (virtual_peer_id tid). split_and!; try done; [by rewrite Er, Hd, E3, E4|].
  apply route_tunnel in Er as (tn & E & Es & Edst & Eh & Evp). unfold getTunnelServiceInfo. rewrite E, Es, Edst, Hd, Eh, Evp.
  destruct (Z.eqb_spec (src_of path (length path - 1) (_own_id t)) (_own_id t)); [done|]. rewrite Z.eqb_refl, Ed. by rewrite E3, E4.
Qed.

Lemma start_info net tid hash s d path x : established net tid hash s d path -> path !! 0%nat = Some x ->
  exists t dst h vp, net !! x = Some t /\ _own_id t = x /\ enabled t /\ path !! 1%nat = Some dst /\ dst <> x /\
    route t tid = Some (x, dst, h, vp) /\ vp = virtual_peer_id tid /\ getTunnelServiceInfo t tid = Some (vp, hash, Some s).
Proof.
  intros [Hn Hl Hnodes Hstart Hend] Ex. destruct (Hnodes _ _ Ex) as (t & h & vp & Et & Eo & Een & Er).
  destruct (Hstart _ Ex) as (t2 & src & dst & Et2 & Ev & Er2 & hi & Ehi & Es). rewrite Et in Et2. injection Et2 as <-. subst x. rewrite Er in Er2. injection Er2 as E1 E2 E3 E4.
  destruct (path !! 1%nat) as [y|] eqn:Ey; [|apply lookup_ge_None in Ey; lia]. unfold dst_of in *. cbn in *. rewrite Ey in *. cbn in *.
  exists t, y, hash, (virtual_peer_id tid). split_and!; try done; [by apply not_eq_sym, (path_neq path 0 1)|by rewrite Er, E3, E4|].
  apply route_tunnel in Er as (tn & E & Esrc & Edst & Eh & Evp). unfold getTunnelServiceInfo. rewrite E, Esrc, Z.eqb_refl, Eh, E3, Ehi, Evp. by rewrite E4, Es.
Qed.

Lemma forward_run k : forall fuel net tid hash s d path i x y item log z last, established net tid hash s d path ->
  last = (length path - 1)%nat -> (i + 1 + k = last)%nat -> (k < fuel)%nat ->
  path !! i = Some x -> path !! (i + 1)%nat = Some y -> path !! last = Some z ->
  gt_PeerId item = y -> gt_tunnel_id item = tid ->
  exists net' w, net_same net net' /\ path !! (last - 1)%nat = Some w /\
    run fuel net [(x, GenericTunnel item)] log =
      Some (net', log ++ [(z, ReceiveTurtleData (Some d) (item <| gt_direction := DIRECTION_SERVER |> <| gt_PeerId := w |>) hash (virtual_peer_id tid) DIRECTION_SERVER)]).
Proof.
  induction k as [|k IH]; intros fuel net tid hash s d path i x y item log z last Hes Hlast Hi Hf Ex Ey Ez Hp Ht; destruct fuel as [|fuel]; try lia.
  - replace (i + 1)%nat with last in Ey by lia. rewrite Ez in Ey. injection Ey as <-.
    destruct (end_info net tid hash s d path last z Hes Hlast Ez) as (t & src & h & vp & Et & Eo & Een & Esrc & Hsx & Er & Hvp & Einfo).
    replace last with (S i) in Esrc by lia. cbn in Esrc. rewrite Ex in Esrc. cbn in Esrc. subst src.
    destruct (run_generic fuel net x item log t tid hash s d path Hes) as (net' & Hn & _ & ->); [by rewrite Hp|done|]. cbv zeta.
    rewrite (receive_server (env (gt_PeerId item)) t (item <| gt_PeerId := x |>) x z h vp (Some d) hash); cbn; try done; [|by rewrite Ht..].
    exists net', x. split; [done|]. split; [by replace (last - 1)%nat with i by lia|]. subst. destruct fuel; reflexivity.
  - destruct (es_nodes _ _ _ _ _ _ Hes (i + 1)%nat y Ey) as (t & h & vp & Et & Eo & Een & Er).
    replace (i + 1)%nat with (S i) in * by lia. cbn in Er. rewrite Ex in Er. unfold dst_of in Er.
    destruct (path !! S (S i)) as [w|] eqn:Ew; [|apply lookup_ge_None in Ew; lia]. cbn in Er.
    pose proof (es_nodup _ _ _ _ _ _ Hes) as Hnd.
    destruct (run_generic fuel net x item log t tid hash s d path Hes) as (net' & Hn & Hes' & ->); [by rewrite Hp|done|]. cbv zeta.
    rewrite (pass_forward (env (gt_PeerId item)) t (item <| gt_PeerId := x |>) x w h vp); cbn; try done; [|by rewrite Ht|by apply (path_neq path i (S (S i))); [done..|lia]|rewrite Eo; by apply (path_neq path (S (S i)) (S i)); [done..|lia]].
    rewrite Hp, app_nil_r. replace (S i + 1)%nat with (S (S i)) in * by lia.
    destruct (IH fuel net' tid hash s d path (S i) y w (item <| gt_PeerId := x |> <| gt_direction := DIRECTION_SERVER |> <| gt_PeerId := w |>) log z last)
      as (net2 & v & Hn2 & Ev & ->); try done; [lia..|by replace (S i + 1)%nat with (S (S i)) by lia|].
    exists net2, v. split; [by etransitivity|]. split; [done|]. reflexivity.
Qed.

Lemma backward_run i : forall fuel net tid hash s d path x y item log z, established net tid hash s d path ->
  (i < fuel)%nat -> path !! S i = Some x -> path !! i = Some y -> path !! 0%nat = Some z ->
  gt_PeerId item = y -> gt_tunnel_id item = tid ->
  exists net' w, net_same net net' /\ path !! 1%nat = Some w /\
    run fuel net [(x, GenericTunnel item)] log =
      Some (net', log ++ [(z, ReceiveTurtleData (Some s) (item <| gt_direction := DIRECTION_CLIENT |> <| gt_PeerId := w |>) hash (virtual_peer_id tid) DIRECTION_CLIENT)]).
Proof.
  induction i as [|i IH]; intros fuel net tid hash s d path x y item log z Hes Hf Ex Ey Ez Hp Ht; destruct fuel as [|fuel]; try lia.
  - rewrite Ez in Ey. injection Ey as <-.
    destruct (start_info net tid hash s d path z Hes Ez) as (t & dst & h & vp & Et & Eo & Een & Edst & Hdx & Er & Hvp & Einfo).
    rewrite Ex in Edst. injection Edst as <-.
    destruct (run_generic fuel net x item log t tid hash s d path Hes) as (net' & Hn & _ & ->); [by rewrite Hp|done|]. cbv zeta.
    rewrite (receive_client (env (gt_PeerId item)) t (item <| gt_PeerId := x |>) z x h vp (Some s) hash); cbn; try done; [|by rewrite Ht..].
    exists net', x. split; [done|]. split; [done|]. subst. destruct fuel; reflexivity.
  - destruct (es_nodes _ _ _ _ _ _ Hes (S i) y Ey) as (t & h & vp & Et & Eo & Een & Er).
    unfold dst_of in Er. rewrite Ex in Er. cbn in Er.
    destruct (path !! i) as [w|] eqn:Ew; [|apply lookup_ge_None in Ew; apply lookup_lt_Some in Ey; lia]. cbn in Er.
    pose proof (es_nodup _ _ _ _ _ _ Hes) as Hnd.
    destruct (run_generic fuel net x item log t tid hash s d path Hes) as (net' & Hn & Hes' & ->); [by rewrite Hp|done|]. cbv zeta.
    rewrite (pass_back (env (gt_PeerId item)) t (item <| gt_PeerId := x |>) w x h vp); cbn; try done; [|by rewrite Ht|rewrite Eo; by apply (path_neq path i (S i)); [done..|lia]].
    rewrite Hp, app_nil_r.
    destruct (IH fuel net' tid hash s d path y w (item <| gt_PeerId := x |> <| gt_direction := DIRECTION_CLIENT |> <| gt_PeerId := w |>) log z)
      as (net2 & v & Hn2 & Ev & ->); try done; [lia|].
    exists net2, v. split; [by etransitivity|]. split; [done|]. reflexivity.
Qed.

(** What a service at an end sends first. *)
Lemma send_end e t tid item src dst h vp : _virtual_peers t !! vp = Some tid -> route t tid = Some (src, dst, h, vp) -> src <> dst ->
  (src = _own_id t -> (sendTurtleData e t vp item).2 =
     [SendItem (GenericTunnel (item <| gt_tunnel_id := tid |> <| gt_direction := DIRECTION_SERVER |> <| gt_PeerId := dst |>))]) /\
  (dst = _own_id t -> (sendTurtleData e t vp item).2 =
     [SendItem (GenericTunnel (item <| gt_tunnel_id := tid |> <| gt_direction := DIRECTION_CLIENT |> <| gt_PeerId := src |>))]).
Proof.
  intros Ev Er Hsd. apply route_tunnel in Er as (tn & E & <- & <- & <- & <-). unfold sendTurtleData. rewrite Ev, E. cbv zeta. cbn [_own_id set_tunnel upd].
  split; intros Ho.
  - rewrite Ho at 1. by rewrite Z.eqb_refl.
  - destruct (Z.eqb_spec (local_src tn) (_own_id t)); [congruence|]. rewrite Ho at 1. by rewrite Z.eqb_refl.
Qed.

Lemma send_generic fuel net x t vp item tid hash s d path out : established net tid hash s d path -> net !! x = Some t ->
  (sendTurtleData (env x) t vp item).2 = [SendItem (GenericTunnel out)] ->
  exists net', net_same net net' /\ established net' tid hash s d path /\ send_from fuel net x vp item = run fuel net' [(x, GenericTunnel out)] [].
Proof.
  intros Hes Et Ev. pose proof (sendTurtleData_same (env x) t vp item) as Hs. unfold send_from. rewrite Et.
  destruct (sendTurtleData _ _ _ _) as [t' ev]. cbn [fst snd] in *. subst ev. pose proof (net_same_insert net x t t' Et Hs) as Hn.
  exists (<[x := t']> net). split; [done|]. split; [by eapply established_same|done].
Qed.

(** ** How a tunnel comes about *)

(** A node that waits for the answer to a request it passed on, or made. *)
Definition waiting (rid tid : Z) (e : turtle_env) (origin : Z) (t : p3turtle C) : Prop :=
  enabled t /\ _local_tunnels t !! tid = None /\
  exists req, _tunnel_requests_origins t !! rid = Some req /\ ti_origin req = origin /\
    now e <= ti_time_stamp req + TUNNEL_REQUESTS_RESULT_TIME /\ tid ∉ responses req.

(** The node that asked does so for one hash. *)
Definition wanted (rid hash : Z) (s : C) (t : p3turtle C) : Prop :=
  (exists h, _incoming_file_hashes t !! hash = Some h /\ last_request h = rid /\ service h = Some s) /\
  forall hash' h, _incoming_file_hashes t !! hash' = Some h -> last_request h = rid -> hash' = hash.

Lemma ok_handled e t item origin : waiting (ok_request_id item) (ok_tunnel_id item) e origin t ->
  exists t1, enabled t1 /\ _own_id t1 = _own_id t /\ _incoming_file_hashes t1 = _incoming_file_hashes t /\
    route t1 (ok_tunnel_id item) = Some (origin, ok_PeerId item, 0, 0) /\
    handleTunnelResult e t item =
      if origin =? _own_id t then
        let '(t, found) := match_hashes (ok_request_id item) (ok_tunnel_id item) (in_order (_incoming_file_hashes t)) (t1, None) in
        (t, match found with
            | Some (hash, Some s) => [AddVirtualPeer (Some s) hash (virtual_peer_id (ok_tunnel_id item)) DIRECTION_SERVER]
            | _ => []
            end)
      else (t1, [SendItem (TunnelOk (item <| ok_PeerId := origin |>))]).
Proof.
  intros (He & Ht & req & Er & <- & Hnow & Hr). unfold handleTunnelResult. rewrite Er. rewrite bool_decide_eq_false_2 by done. cbv zeta.
  cbn [_local_tunnels upd]. rewrite Ht. rewrite (proj2 (Z.ltb_ge _ _)) by lia.
  match goal with |- context [if ti_origin req =? _own_id ?u then _ else _] => exists u end.
  split_and!; try done. unfold route. cbn. by rewrite lookup_insert_eq.
Qed.

Lemma match_none rid tid (l : list (Z * TurtleHashInfo C)) st : (forall x, x ∈ l -> last_request x.2 <> rid) -> match_hashes rid tid l st = st.
Proof.
  revert st. induction l as [|x l IH]; intros st Hl; [done|]. unfold match_hashes. cbn [foldl].
  destruct (Z.eqb_spec (last_request x.2) rid) as [E|]; [by apply Hl in E; [|left]|]. apply IH. intros y Hy. apply Hl. by right.
Qed.

Lemma match_app rid tid (l1 l2 : list (Z * TurtleHashInfo C)) st : match_hashes rid tid (l1 ++ l2) st = match_hashes rid tid l2 (match_hashes rid tid l1 st).
Proof. apply foldl_app. Qed.

Lemma match_unique rid tid (m : gmap Z (TurtleHashInfo C)) hash h st : m !! hash = Some h -> last_request h = rid ->
  (forall hash' h', m !! hash' = Some h' -> last_request h' = rid -> hash' = hash) ->
  match_hashes rid tid (in_order m) st = (start_tunnel st.1 hash h tid, Some (hash, service h)).
Proof.
  intros Eh Er Hu. assert (Hin : (hash, h) ∈ in_order m) by (by apply elem_of_in_order). pose proof (in_order_keys m) as Hk.
  apply list_elem_of_split in Hin as (l1 & l2 & El).
  assert (Hl : forall x, x ∈ l1 ++ l2 -> last_request x.2 <> rid).
  { intros [k h'] Hx Ek. cbn in Ek. assert (Hm : (k, h') ∈ in_order m) by (rewrite El; apply elem_of_app in Hx as [?|?]; apply elem_of_app; [by left|by right; right]).
    apply elem_of_in_order in Hm. pose proof (Hu _ _ Hm Ek) as Ehh. cbn in Ehh. subst k. assert (Hd : NoDup (in_order m).*1) by apply Hk.
    rewrite El, fmap_app, fmap_cons in Hd. apply NoDup_app in Hd as (_ & Hd1 & Hd2). apply NoDup_cons in Hd2 as [Hd2 _].
    apply elem_of_app in Hx as [Hx|Hx]; apply (list_elem_of_fmap_2 fst) in Hx; cbn [fst] in Hx; [apply (Hd1 hash Hx), elem_of_cons; by left|by apply Hd2]. }
  rewrite El, match_app, (match_none rid tid l1) by (intros x Hx; apply Hl, elem_of_app; by left).
  change (match_hashes rid tid ([(hash, h)] ++ l2) st = (start_tunnel st.1 hash h tid, Some (hash, service h))). rewrite match_app.
  unfold match_hashes at 2. cbn [foldl fst snd]. rewrite Er, Z.eqb_refl. apply match_none. intros x Hx. apply Hl, elem_of_app. by right.
Qed.

Lemma start_tunnel_made (t : p3turtle C) hash h tid src dst : route t tid = Some (src, dst, 0, 0) ->
  let t' := start_tunnel t hash h tid in
  _own_id t' = _own_id t /\ (enabled t -> enabled t') /\ _virtual_peers t' !! virtual_peer_id tid = Some tid /\
  route t' tid = Some (src, dst, hash, virtual_peer_id tid) /\
  exists h', _incoming_file_hashes t' !! hash = Some h' /\ service h' = service h.
Proof.
  intros Er. apply route_tunnel in Er as (tn & E & <- & <- & _). unfold start_tunnel, locked_addDistantPeer. rewrite E. cbv zeta. cbn [default].
  split_and!; try done.
  - cbn. by rewrite lookup_insert_eq.
  - unfold route. cbn. by rewrite !lookup_insert_eq.
  - cbn. eexists. rewrite lookup_insert_eq. split; [done|]. by case_match.
Qed.

Lemma ok_at_origin e t item hash (s : C) : waiting (ok_request_id item) (ok_tunnel_id item) e (_own_id t) t -> wanted (ok_request_id item) hash s t ->
  let t' := (handleTunnelResult e t item).1 in
  (handleTunnelResult e t item).2 = [AddVirtualPeer (Some s) hash (virtual_peer_id (ok_tunnel_id item)) DIRECTION_SERVER] /\
  _own_id t' = _own_id t /\ enabled t' /\ _virtual_peers t' !! virtual_peer_id (ok_tunnel_id item) = Some (ok_tunnel_id item) /\
  route t' (ok_tunnel_id item) = Some (_own_id t, ok_PeerId item, hash, virtual_peer_id (ok_tunnel_id item)) /\ start_service hash s t'.
Proof.
  intros Hw [(h & Eh & El & Es) Hu]. destruct (ok_handled e t item _ Hw) as (t1 & He & Ho & Ei & Er & ->). rewrite Z.eqb_refl.
  rewrite (match_unique _ _ _ hash h) by done. cbn [fst snd]. rewrite Es. cbn [fst snd].
  destruct (start_tunnel_made t1 hash h _ _ _ Er) as (Ho' & He' & Ev & Er' & h' & Eh' & Es').
  split_and!; [reflexivity|congruence|by apply He'|exact Ev|exact Er'|]. exists h'. by rewrite Es'.
Qed.

Lemma handle_ok e t item : enabled t -> handleItem pow_int pow e t (TunnelOk item) = Done (handleTunnelResult e t item).
Proof. intros He. unfold handleItem, enabled in *. by rewrite He. Qed.

Lemma ok_run i : forall fuel net path rid tid hash s x y z item log, NoDup path ->
  (forall j u, (j <= i)%nat -> path !! j = Some u -> exists t, net !! u = Some t /\ _own_id t = u /\ waiting rid tid (env u) (src_of path j u) t /\ (j = 0%nat -> wanted rid hash s t)) ->
  (i < fuel)%nat -> path !! S i = Some x -> path !! i = Some y -> path !! 0%nat = Some z ->
  ok_PeerId item = y -> ok_tunnel_id item = tid -> ok_request_id item = rid ->
  exists net', run fuel net [(x, TunnelOk item)] log = Some (net', log ++ [(z, AddVirtualPeer (Some s) hash (virtual_peer_id tid) DIRECTION_SERVER)]) /\
    (forall j u, (j <= i)%nat -> path !! j = Some u -> node_ok net' path tid j u) /\ end_ok net' tid hash z (start_service hash s) /\
    (forall u, u ∉ take (S i) path -> net' !! u = net !! u).
Proof.
  induction i as [|i IH]; intros fuel net path rid tid hash s x y z item log Hnd Hw Hf Ex Ey Ez Hp Ht Hr; destruct fuel as [|fuel]; try lia.
  - rewrite Ez in Ey. injection Ey as <-. destruct (Hw 0%nat z) as (t & Et & Eo & Hwait & Hwant); [lia|done|]. specialize (Hwant eq_refl). subst rid tid. cbn in Hwait.
    rewrite <- Eo in Hwait at 2. pose (it := item <| ok_PeerId := x |>). destruct (ok_at_origin (env z) t it hash s Hwait Hwant) as (Eev & Eo' & He' & Ev & Er & Hs).
    pose proof (handle_ok (env z) t it (proj1 Hwait)) as Eh. subst it.
    match type of Eh with _ = Done ?r => destruct r as [t' ev] end. cbn [fst snd] in *. subst ev.
    rewrite <- Hp in Et, Eh. rewrite (run_step fuel net x (TunnelOk item) log t t' _ [] Et Eh). exists (<[ok_PeerId item := t']> net). split_and!.
    + rewrite <- Hp. by destruct fuel.
    + intros j u Hj Eu. assert (j = 0%nat) as -> by lia. rewrite Ez in Eu. injection Eu as <-. exists t', hash, (virtual_peer_id (ok_tunnel_id item)).
      rewrite <- Hp at 1. rewrite lookup_insert_eq. split_and!; [done|congruence|done|]. unfold dst_of. rewrite Ex. cbn. by rewrite <- Eo.
    + exists t', (_own_id t), x. rewrite <- Hp. by rewrite lookup_insert_eq.
    + intros u Hu. rewrite lookup_insert_ne; [done|]. intros <-. apply Hu. destruct path; [done|]. cbn in Ez. injection Ez as ->. rewrite Hp. by left.
  - destruct (path !! i) as [w|] eqn:Ew; [|apply lookup_ge_None in Ew; apply lookup_lt_Some in Ey; lia].
    destruct (Hw (S i) y) as (t & Et & Eo & Hwait & _); [lia|done|]. subst rid tid. cbn in Hwait. rewrite Ew in Hwait. cbn in Hwait.
    pose (it := item <| ok_PeerId := x |>). destruct (ok_handled (env y) t it w Hwait) as (t1 & He1 & Eo1 & _ & Er1 & Eev). subst it.
    destruct (Z.eqb_spec w (_own_id t)) as [Hwy|_]; [exfalso; eapply (path_neq path i (S i)); [done..|lia|congruence]|].
    pose proof (handle_ok (env y) t (item <| ok_PeerId := x |>) (proj1 Hwait)) as Eh. rewrite Eev in Eh.
    rewrite <- Hp in Et, Eh. rewrite (run_step fuel net x (TunnelOk item) log t t1 _ [] Et Eh). cbn [sends calls omap list_omap app]. rewrite app_nil_r.
    pose (it := item <| ok_PeerId := x |> <| ok_PeerId := w |>).
    destruct (IH fuel (<[ok_PeerId item := t1]> net) path (ok_request_id item) (ok_tunnel_id item) hash s y w z it log)
      as (net' & Erun & Hok & Hstart & Hrest); try done; [|lia|]; subst it.
    { intros j u Hj Eu. destruct (Hw j u) as (t2 & Et2 & H2); [lia|done|]. exists t2. rewrite lookup_insert_ne; [done|]. rewrite Hp.
      apply (path_neq path (S i) j); [done..|lia]. }
    assert (Hyn : net' !! y = Some t1).
    { rewrite Hrest; [by rewrite Hp, lookup_insert_eq|]. intros Hin. apply elem_of_take in Hin as (j & Ej & Hj). by apply (path_neq path j (S i) y y Hnd Ej Ey); [lia|]. }
    exists net'. split_and!; [etransitivity; [|exact Erun]; rewrite <- Hp; reflexivity| |done|].
    + intros j u Hj Eu. destruct (decide (j = S i)) as [->|]; [|apply Hok; [lia|done]]. rewrite Ey in Eu. injection Eu as <-.
      exists t1, 0, 0. split_and!; [done|congruence|done|]. unfold dst_of. cbn. by rewrite Ew, Ex.
    + intros u Hu. assert (Hu2 : (u ∉ take (S i) path) /\ u <> y).
      { rewrite (take_S_r _ _ _ Ey) in Hu. split; intros Hin; apply Hu, elem_of_app; [by left|right; rewrite Hin; by left]. }
      destruct Hu2 as [Hu1 Hu2]. rewrite (Hrest u Hu1). rewrite Hp. by rewrite lookup_insert_ne.
Qed.

(** A node whose service [d] has the file that a request from [from] asks for. *)
Definition has_file (item : RsTurtleOpenTunnelItem) (d : C) (e : turtle_env) (from : Z) (t : p3turtle C) : Prop :=
  enabled t /\ from <> _own_id t /\ isHashBanned e (ot_file_hash item) = false /\ _tunnel_requests_origins t !! ot_request_id item = None /\
  performLocalHashSearch t (ot_file_hash item) from = Some d.

(** The id that it gives the tunnel. *)
Definition answered_id (t : p3turtle C) (item : RsTurtleOpenTunnelItem) : Z :=
  Z.lxor (ot_partial_tunnel_id item) (generatePersonalFilePrint t (ot_file_hash item) (_random_bias t) false).

Lemma answered_id_same t t' item : _own_id t' = _own_id t -> _random_bias t' = _random_bias t -> answered_id t' item = answered_id t item.
Proof. intros Eo Eb. unfold answered_id, generatePersonalFilePrint. by rewrite Eo, Eb. Qed.

Definition answered (item : RsTurtleOpenTunnelItem) (tid : Z) (d : C) (t : p3turtle C) (r : p3turtle C * list (turtle_event C)) : Prop :=
  r.2 = [SendItem (TunnelOk (mk_RsTurtleTunnelOkItem (ot_PeerId item) tid (ot_request_id item)));
         AddVirtualPeer (Some d) (ot_file_hash item) (virtual_peer_id tid) DIRECTION_CLIENT] /\
  _own_id r.1 = _own_id t /\ enabled r.1 /\ _virtual_peers r.1 !! virtual_peer_id tid = Some tid /\
  route r.1 tid = Some (ot_PeerId item, _own_id t, ot_file_hash item, virtual_peer_id tid) /\ end_service tid d r.1.

Lemma answer_tunnel_made e t item d : enabled t -> answered item (answered_id t item) d t (answer_tunnel e t item d).
Proof.
  intros He. unfold answered, answer_tunnel. fold (answered_id t item). cbv zeta. generalize (answered_id t item). intros tid.
  split; [reflexivity|]. split; [reflexivity|]. split; [exact He|]. unfold locked_addDistantPeer, set_tunnel, route, end_service.
  cbn [fst _local_tunnels _virtual_peers _outgoing_tunnel_client_services upd default]. rewrite !lookup_insert_eq. repeat split.
Qed.

Lemma answer_made e t item d : has_file item d e (ot_PeerId item) t ->
  answered item (answered_id t item) d t (handleTunnelRequest pow_int pow e t item).
Proof.
  intros (He & Hne & Hb & Er & Hs). unfold handleTunnelRequest. rewrite Hb. cbn [_tunnel_requests_origins upd]. rewrite Er. cbn [_own_id upd].
  destruct (Z.eqb_spec (ot_PeerId item) (_own_id t)); [done|]. cbn [negb].
  match goal with |- context [performLocalHashSearch ?t' ?h ?p] =>
    change (performLocalHashSearch t' h p) with (performLocalHashSearch t h p); rewrite Hs;
    rewrite <- (answered_id_same t t' item eq_refl eq_refl); exact (answer_tunnel_made e t' item d He) end.
Qed.

Lemma handle_open e t item : enabled t -> handleItem pow_int pow e t (OpenTunnel item) = Done (handleTunnelRequest pow_int pow e t item).
Proof. intros He. unfold handleItem, enabled in *. by rewrite He. Qed.

(** Where a request that the last node of [path] can answer has come by. *)
Record requested (net : gmap Z (p3turtle C)) (item : RsTurtleOpenTunnelItem) (tid : Z) (s d : C) (path : list Z) : Prop := {
  rq_nodup : NoDup path;
  rq_long : (2 <= length path)%nat;
  rq_waiting : forall i x, path !! i = Some x -> (S i < length path)%nat ->
    exists t, net !! x = Some t /\ _own_id t = x /\ waiting (ot_request_id item) tid (env x) (src_of path i x) t /\
      (i = 0%nat -> wanted (ot_request_id item) (ot_file_hash item) s t);
  rq_file : forall w x, path !! (length path - 2)%nat = Some w -> path !! (length path - 1)%nat = Some x ->
    exists t, net !! x = Some t /\ _own_id t = x /\ has_file item d (env x) w t /\ answered_id t item = tid
}.

Lemma answer_run net item tid s d path fuel i w x z : requested net item tid s d path -> (length path <= fuel)%nat -> length path = S (S i) ->
  path !! 0%nat = Some z -> path !! i = Some w -> path !! S i = Some x -> ot_PeerId item = x ->
  exists net', run fuel net [(w, OpenTunnel item)] [] =
      Some (net', [(x, AddVirtualPeer (Some d) (ot_file_hash item) (virtual_peer_id tid) DIRECTION_CLIENT);
                   (z, AddVirtualPeer (Some s) (ot_file_hash item) (virtual_peer_id tid) DIRECTION_SERVER)]) /\
    established net' tid (ot_file_hash item) s d path.
Proof.
  intros [Hnd Hl Hwait Hfile] Hf Elen Ez Ew Ex Hp. destruct fuel as [|fuel]; [lia|].
  destruct (Hfile w x) as (t & Et & Eo & Hhas & Etid);
    [by replace (length path - 2)%nat with i by lia|by replace (length path - 1)%nat with (S i) by lia|].
  pose (it := item <| ot_PeerId := w |>). destruct (answer_made (env x) t it d Hhas) as (Eev & Eo' & He' & Ev & Er & Hs).
  pose proof (handle_open (env x) t it (proj1 Hhas)) as Eh. change (answered_id t it) with (answered_id t item) in *. rewrite Etid in *.
  destruct (handleTunnelRequest pow_int pow (env x) t it) as [t' ev]. cbn [fst snd] in *. subst ev. rewrite <- Hp in Et, Eh.
  rewrite (run_step fuel net w (OpenTunnel item) [] t t' _ [] Et Eh). cbn [sends calls omap list_omap app item_PeerId].
  pose (ok := mk_RsTurtleTunnelOkItem w tid (ot_request_id item)).
  destruct (ok_run i fuel (<[ot_PeerId item := t']> net) path (ot_request_id item) tid (ot_file_hash item) s x w z ok
    [(ot_PeerId item, AddVirtualPeer (Some d) (ot_file_hash item) (virtual_peer_id tid) DIRECTION_CLIENT)]) as (net' & Erun & Hok & Hstart & Hrest);
    try done; [|lia|].
  { intros j u Hj Eu. destruct (Hwait j u Eu) as (t2 & Et2 & H2); [lia|]. exists t2. rewrite lookup_insert_ne; [done|]. rewrite Hp.
    apply (path_neq path (S i) j); [done..|lia]. }
  assert (Hx : net' !! x = Some t').
  { rewrite Hrest; [by rewrite Hp, lookup_insert_eq|]. intros Hin. apply elem_of_take in Hin as (j & Ej & Hj). by apply (path_neq path j (S i) x x Hnd Ej Ex); [lia|]. }
  exists net'. rewrite Hp in Erun |- *. split; [exact Erun|]. constructor; [done|lia| | |].
  - intros j u Eu. destruct (decide (j = S i)) as [->|]; [|apply Hok; [apply lookup_lt_Some in Eu; lia|done]]. rewrite Ex in Eu. injection Eu as <-.
    exists t', (ot_file_hash item), (virtual_peer_id tid). split_and!; [done|congruence|done|]. unfold dst_of. cbn. rewrite Ew, lookup_ge_None_2 by lia.
    cbn. by rewrite <- Eo.
  - intros u Eu. rewrite Ez in Eu. by injection Eu as <-.
  - intros u Eu. rewrite Elen in Eu. cbn in Eu. rewrite Ex in Eu. injection Eu as <-. by exists t', w, (_own_id t).
Qed.

(** C9 A tunnel comes about.  When a request for a file hash has wandered along [path] - every node remembers, for less than twenty
    seconds, that it came from the one before, the first one made it - and reaches a node at the end whose service has the file,
    then the answer travels back by itself: both services are told of the new virtual peer, first the one that has the
    file, and all nodes have the tunnel, each with its neighbours.  [length path] deliveries are enough. *)
Theorem tunnel_established net item tid s d path fuel w x z : requested net item tid s d path -> (length path <= fuel)%nat ->
  path !! 0%nat = Some z -> path !! (length path - 2)%nat = Some w -> path !! (length path - 1)%nat = Some x -> ot_PeerId item = x ->
  exists net', run fuel net [(w, OpenTunnel item)] [] =
      Some (net', [(x, AddVirtualPeer (Some d) (ot_file_hash item) (virtual_peer_id tid) DIRECTION_CLIENT);
                   (z, AddVirtualPeer (Some s) (ot_file_hash item) (virtual_peer_id tid) DIRECTION_SERVER)]) /\
    established net' tid (ot_file_hash item) s d path.
Proof.
  intros Hr Hf Ez Ew Ex Hp. pose proof (rq_long _ _ _ _ _ _ Hr) as Hl.
  apply (answer_run net item tid s d path fuel (length path - 2)); try done; [lia|]. by replace (S (length path - 2)) with (length path - 1)%nat by lia.
Qed.

(** C8 Data cross a tunnel.  In an established tunnel, what the service at one end sends to its virtual peer arrives at the service
    of the other end, once and with its data, marked with the direction in which it travels; no other service hears of it, and the
    tunnel stays established.  [length path] deliveries are enough. *)
Theorem tunnel_carries_data net tid hash s d path fuel x z item : established net tid hash s d path -> (length path <= fuel)%nat ->
  path !! 0%nat = Some x -> path !! (length path - 1)%nat = Some z ->
  (exists net' out, send_from fuel net x (virtual_peer_id tid) item =
      Some (net', [(z, ReceiveTurtleData (Some d) out hash (virtual_peer_id tid) DIRECTION_SERVER)]) /\
    gt_data out = gt_data item /\ gt_tunnel_id out = tid /\ established net' tid hash s d path) /\
  (exists net' out, send_from fuel net z (virtual_peer_id tid) item =
      Some (net', [(x, ReceiveTurtleData (Some s) out hash (virtual_peer_id tid) DIRECTION_CLIENT)]) /\
    gt_data out = gt_data item /\ gt_tunnel_id out = tid /\ established net' tid hash s d path).
Proof.
  intros Hes Hf Ex Ez. pose proof (es_long _ _ _ _ _ _ Hes) as Hl. split.
  - destruct (start_info _ _ _ _ _ _ x Hes Ex) as (t & y & h & vp & Et & Eo & Een & Ey & Hyx & Er & -> & _).
    destruct (es_start _ _ _ _ _ _ Hes x Ex) as (t2 & src & dst & Et2 & Ev & _). rewrite Et in Et2. injection Et2 as <-.
    destruct (send_end (env x) t tid item x y h _ Ev Er) as [Hsend _]; [congruence|].
    destruct (send_generic fuel net x t _ item tid hash s d path _ Hes Et (Hsend (eq_sym Eo))) as (net1 & _ & Hes1 & ->).
    edestruct (forward_run (length path - 2) fuel net1 tid hash s d path 0 x y) as (net2 & w & Hn2 & _ & ->); try done; [lia..|].
    eexists _, _. split; [reflexivity|]. split; [reflexivity|]. split; [reflexivity|]. by eapply established_same.
  - destruct (end_info _ _ _ _ _ _ _ z Hes eq_refl Ez) as (t & src & h & vp & Et & Eo & Een & Esrc & Hne & Er & -> & _).
    destruct (es_end _ _ _ _ _ _ Hes z Ez) as (t2 & src2 & dst & Et2 & Ev & _). rewrite Et in Et2. injection Et2 as <-.
    destruct (send_end (env z) t tid item src z h _ Ev Er Hne) as [_ Hsend].
    destruct (send_generic fuel net z t _ item tid hash s d path _ Hes Et (Hsend (eq_sym Eo))) as (net1 & _ & Hes1 & ->).
    destruct (length path - 1)%nat as [|i] eqn:En; [lia|]. cbn in Esrc.
    destruct (path !! i) as [y|] eqn:Ey; [|apply lookup_ge_None in Ey; lia]. cbn in Esrc. subst y.
    edestruct (backward_run i fuel net1 tid hash s d path z src) as (net2 & w & Hn2 & _ & ->); try done; [lia|].
    eexists _, _. split; [reflexivity|]. split; [reflexivity|]. split; [reflexivity|]. by eapply established_same.
Qed.
End net.

(** ** An example: three nodes, of which the first asks the last *)

Module ThreeNodes.

(** A service is its id and the one hash that it has. *)
#[export] Instance demo_service : RsTurtleClientService (Z * Z) := {|
  serviceId s := s.1; is_ftServer _ := true; client_handleTunnelRequest s hash _ := s.2 =? hash;
  client_receiveSearchRequest _ _ max := (None, max) |}.

Definition demo_pow_int (x : float32) (n : Z) : float32 := x.
Definition demo_pow (x y : float32) : float32 := f32_of_Z 1.

Definition demo_env (friends : list Z) : turtle_env :=
  mk_turtle_env 1000 friends (fun _ => 0x80000) (fun _ => false) (fun _ _ => []) (fun _ _ => []) (fun _ => 12345).
Definition demo_envs (id : Z) : turtle_env := demo_env (if id =? 2 then [1; 3] else [2]).

Definition seeker : Z * Z := (23, 0).
Definition keeper : Z * Z := (23, 555).

(** The first node digs for the hash, the second one passes the request on. *)
Definition dug : p3turtle (Z * Z) * list (turtle_event (Z * Z)) :=
  Eval vm_compute in manageTunnels demo_pow_int demo_pow (demo_envs 1) (monitorTunnels (new_p3turtle 1 77) 555 seeker false 3) 424242.
Definition request_of (ev : list (turtle_event (Z * Z))) : RsTurtleOpenTunnelItem :=
  match ev with [SendItem (OpenTunnel i)] => i | _ => mk_RsTurtleOpenTunnelItem 0 0 0 0 0 end.
Definition passed : p3turtle (Z * Z) * list (turtle_event (Z * Z)) :=
  Eval vm_compute in handleTunnelRequest demo_pow_int demo_pow (demo_envs 2) (new_p3turtle 2 88) ((request_of dug.2) <| ot_PeerId := 1 |>).

Definition three : gmap Z (p3turtle (Z * Z)) :=
  <[1 := dug.1]> (<[2 := passed.1]> {[3 := registerTunnelService (new_p3turtle 3 99) keeper]}).
Definition last_request_item : RsTurtleOpenTunnelItem := Eval vm_compute in request_of passed.2.
Definition three_tunnel : Z := Eval vm_compute in answered_id (registerTunnelService (new_p3turtle 3 99) keeper) last_request_item.

Lemma three_requested : requested demo_envs three last_request_item three_tunnel seeker keeper [1; 2; 3].
Proof.
  constructor.
  - apply (bool_decide_unpack _). vm_compute. exact I.
  - cbn. lia.
  - intros [|[|[|i]]] x Ex Hi; cbn in Hi; try lia; injection Ex as <-; eexists; (split; [reflexivity|]); (split; [reflexivity|]); split.
    1, 3: split; [reflexivity|]; split; [by vm_compute|]; eexists; (split; [by vm_compute|]); (split; [reflexivity|]); split; [by vm_compute|apply not_elem_of_empty].
    + intros _. split; [eexists; split; [reflexivity|split; reflexivity]|]. intros hash h Eh _.
      change (_incoming_file_hashes dug.1) with ({[555 := mk_TurtleHashInfo [] 424242 1000 (Some seeker) false]} : gmap Z (TurtleHashInfo (Z * Z))) in Eh.
      by apply lookup_singleton_Some in Eh as [<- _].
    + done.
  - intros w x Ew Ex. injection Ew as <-. injection Ex as <-. eexists. split; [reflexivity|]. split; [reflexivity|].
    split; [|by vm_compute]. by vm_compute.
Qed.

Definition after_answer : gmap Z (p3turtle (Z * Z)) :=
  match run demo_pow_int demo_pow demo_envs 3 three [(2, OpenTunnel last_request_item)] [] with Some (net, _) => net | None => ∅ end.

Lemma three_established : established after_answer three_tunnel 555 seeker keeper [1; 2; 3].
Proof.
  destruct (answer_run demo_pow_int demo_pow demo_envs three last_request_item three_tunnel seeker keeper [1; 2; 3] 3 1 2 3 1 three_requested)
    as (net & Erun & Hes); try reflexivity. unfold after_answer. rewrite Erun. exact Hes.
Qed.

Lemma tunnel_established_witness : exists net',
  run demo_pow_int demo_pow demo_envs 3 three [(2, OpenTunnel last_request_item)] [] =
    Some (net', [(3, AddVirtualPeer (Some keeper) 555 (virtual_peer_id three_tunnel) DIRECTION_CLIENT);
                 (1, AddVirtualPeer (Some seeker) 555 (virtual_peer_id three_tunnel) DIRECTION_SERVER)]) /\
  established net' three_tunnel 555 seeker keeper [1; 2; 3].
Proof.
  exact (tunnel_established demo_pow_int demo_pow demo_envs three last_request_item three_tunnel seeker keeper [1; 2; 3] 3 2 3 1 three_requested
    ltac:(cbn; lia) eq_refl eq_refl eq_refl eq_refl).
Defined.

Definition demo_data : RsTurtleGenericTunnelItem := mk_RsTurtleGenericTunnelItem 0 0 0 true 20 [1; 2; 3].

Lemma tunnel_carries_data_witness :
  exists net' out, send_from demo_pow_int demo_pow demo_envs 3 after_answer 1 (virtual_peer_id three_tunnel) demo_data =
      Some (net', [(3, ReceiveTurtleData (Some keeper) out 555 (virtual_peer_id three_tunnel) DIRECTION_SERVER)]) /\
    gt_data out = [1; 2; 3].
Proof.
  destruct (tunnel_carries_data demo_pow_int demo_pow demo_envs after_answer three_tunnel 555 seeker keeper [1; 2; 3] 3 1 3 demo_data three_established
    ltac:(cbn; lia) eq_refl eq_refl) as [(net' & out & E & Ed & _) _]. exists net', out. split; [exact E|exact Ed].
Defined.

End ThreeNodes.
