(* ===== verification/TurtleFlood.v ===== *)
(** * Tunnel requests come to an end

    A request for a tunnel spreads from friend to friend, and every node that can answer sends an answer back.  Whatever
    the nodes remember from before, and whoever is whose friend, this ends: a node passes a request on once, and an
    answer once.  The number of deliveries is bounded by a weight of the items on their way and of what the nodes do not know yet. *)

From S2P Require Import Prelude RawSerial Tlv TlvSets RsExpr Turtle TurtleNet.
From Stdlib Require Import ZArith Lia SpecFloat.
From stdpp Require Import base list gmap sorting.
Open Scope Z_scope.

Section flood.
Context {C : Type} `{RsTurtleClientService C} (pow_int : float32 -> Z -> float32) (pow : float32 -> float32 -> float32).
Context (env : Z -> turtle_env).

(** ** Sums over the nodes *)

Definition total (f : p3turtle C -> nat) (net : gmap Z (p3turtle C)) : nat := sum_list ((fun x => f x.2) <$> map_to_list net).

Lemma sum_list_permutation (l l' : list nat) : l ≡ₚ l' -> sum_list l = sum_list l'.
Proof. induction 1; cbn; lia. Qed.

Lemma sum_app (l l' : list nat) : sum_list (l ++ l') = (sum_list l + sum_list l')%nat.
Proof. induction l as [|n l IH]; cbn; lia. Qed.

Lemma total_insert f net x t t' : net !! x = Some t -> (total f (<[x := t']> net) + f t = total f net + f t')%nat.
Proof.
  intros E. assert (Hd : forall u, total f (<[x := u]> net) = (f u + total f (delete x net))%nat).
  { intros u. rewrite <- insert_delete_eq. unfold total. erewrite sum_list_permutation; [|by rewrite map_to_list_insert by apply lookup_delete_eq]. done. }
  rewrite Hd. rewrite <- (insert_id net x t E) at 2. rewrite Hd. lia.
Qed.

Lemma sum_list_le (l : list (Z * p3turtle C)) (f g : p3turtle C -> nat) : (forall t, (f t <= g t)%nat) ->
  (sum_list ((fun x => f x.2) <$> l) <= sum_list ((fun x => g x.2) <$> l))%nat.
Proof. intros Hfg. induction l as [|x l IH]; cbn; [lia|]. specialize (Hfg x.2). lia. Qed.

Lemma total_le_size f net : (forall t, (f t <= 1)%nat) -> (total f net <= size net)%nat.
Proof.
  intros Hf. rewrite <- length_map_to_list. unfold total. etransitivity; [by apply (sum_list_le _ f (fun _ => 1%nat))|].
  induction (map_to_list net); cbn; lia.
Qed.

Lemma total_insert_le f net x t t' : net !! x = Some t -> (f t' <= f t)%nat -> (total f (<[x := t']> net) <= total f net)%nat.
Proof. intros E Hf. pose proof (total_insert f net x t t' E). lia. Qed.

Lemma total_insert_lt f net x t t' : net !! x = Some t -> (f t' < f t)%nat -> (total f (<[x := t']> net) < total f net)%nat.
Proof. intros E Hf. pose proof (total_insert f net x t t' E). lia. Qed.

(** ** What a node does not know yet *)

Definition known_response (t : p3turtle C) (rid tid : Z) : bool :=
  match _tunnel_requests_origins t !! rid with Some req => bool_decide (tid ∈ responses req) | None => false end.

Definition response_weight (rid tid : Z) (t : p3turtle C) : nat := if known_response t rid tid then 0 else 1.

Definition request_weight (R : list Z) (t : p3turtle C) : nat := length (filter (fun rid => _tunnel_requests_origins t !! rid = None) R).

Definition item_weight (net : gmap Z (p3turtle C)) (i : turtle_item) : nat :=
  match i with TunnelOk i => S (total (response_weight (ok_request_id i) (ok_tunnel_id i)) net) | _ => 1 end.

Definition weight (W : nat) (R : list Z) (net : gmap Z (p3turtle C)) (queue : list (Z * turtle_item)) : nat :=
  (W * total (request_weight R) net + sum_list ((fun x => item_weight net x.2) <$> queue))%nat.

(** The items of requests with an id in [R], and their answers. *)
Definition about (R : list Z) (i : turtle_item) : Prop :=
  match i with OpenTunnel i => ot_request_id i ∈ R | TunnelOk i => ok_request_id i ∈ R | _ => False end.

(** What handling such an item changes in a node, and what it sends: nothing; a new request, and copies of it or one answer; or an
    answer that it did not know, and that answer. *)
Inductive effect (D : nat) (t t' : p3turtle C) : turtle_item -> list turtle_item -> Prop :=
| NoEffect i : _tunnel_requests_origins t' = _tunnel_requests_origins t -> effect D t t' i []
| NewRequest i req out : _tunnel_requests_origins t !! ot_request_id i = None -> responses req = ∅ ->
    _tunnel_requests_origins t' = <[ot_request_id i := req]> (_tunnel_requests_origins t) ->
    ((length out <= D)%nat /\ Forall (fun o => exists j, o = OpenTunnel j /\ ot_request_id j = ot_request_id i) out \/
     exists j, out = [TunnelOk j] /\ ok_request_id j = ot_request_id i) ->
    effect D t t' (OpenTunnel i) out
| NewResponse i req out : _tunnel_requests_origins t !! ok_request_id i = Some req -> ok_tunnel_id i ∉ responses req ->
    _tunnel_requests_origins t' = <[ok_request_id i := req <| responses := {[ok_tunnel_id i]} ∪ responses req |>]> (_tunnel_requests_origins t) ->
    (out = [] \/ exists j, out = [TunnelOk j] /\ ok_request_id j = ok_request_id i /\ ok_tunnel_id j = ok_tunnel_id i) ->
    effect D t t' (TunnelOk i) out.

Definition sent (ev : list (turtle_event C)) : list turtle_item := omap (fun e => match e with SendItem i => Some i | _ => None end) ev.

Lemma sends_sent from ev : sends from ev = (fun i => (from, i)) <$> sent ev.
Proof.
  unfold sends, sent. induction ev as [|e ev IH]; [done|]. destruct e; cbn [omap list_omap fmap list_fmap]; rewrite IH; reflexivity.
Qed.

Lemma chosen_length e from p l i : (length (chosen_peers e from p l i) <= length l)%nat.
Proof. revert i. induction l as [|x l IH]; intros i; cbn; [lia|]. pose proof (IH i). pose proof (IH (S i)). repeat case_match; cbn; lia. Qed.

Lemma traffic_requests (t : p3turtle C) (x : TurtleTrafficStatisticsInfo) : _tunnel_requests_origins (t <| _traffic_info_buffer := x |>) = _tunnel_requests_origins t.
Proof. done. Qed.

Lemma match_requests rid tid (l : list (Z * TurtleHashInfo C)) st :
  _tunnel_requests_origins (match_hashes rid tid l st).1 = _tunnel_requests_origins st.1.
Proof.
  unfold match_hashes. revert st. induction l as [|x l IH]; intros st; [done|]. cbn [foldl]. rewrite IH. by case_match.
Qed.

Lemma forward_effect e t item : let r := forward_tunnel_request pow_int pow e t item in
  _tunnel_requests_origins r.1 = _tunnel_requests_origins t /\ (length (sent r.2) <= length (onlineIds e))%nat /\
  Forall (fun o => exists j, o = OpenTunnel j /\ ot_request_id j = ot_request_id item) (sent r.2).
Proof.
  unfold forward_tunnel_request. cbv zeta. case_match; cbn [fst snd]; [|split; [done|split; [cbn; lia|constructor]]].
  split; [done|]. match goal with |- context [chosen_peers ?e ?f ?p ?l ?i] => pose proof (chosen_length e f p l i) as Hl; revert Hl; generalize (chosen_peers e f p l i) end.
  intros peers Hl. split.
  - etransitivity; [|exact Hl]. clear Hl. induction peers as [|x peers IH]; cbn; [lia|]. apply le_n_S, IH.
  - clear Hl. induction peers as [|x peers IH]; cbn; constructor; [|exact IH]. by eexists.
Qed.

Lemma request_effect D e t item : (length (onlineIds e) <= D)%nat ->
  let r := handleTunnelRequest pow_int pow e t item in effect D t r.1 (OpenTunnel item) (sent r.2).
Proof.
  intros HD. unfold handleTunnelRequest. cbv zeta. case_match; [by constructor|]. cbn [_tunnel_requests_origins upd].
  destruct (_tunnel_requests_origins t !! ot_request_id item) as [req|] eqn:E; [by constructor|].
  match goal with |- context [match ?x with Some s => _ | None => _ end] => destruct x as [s|] end.
  - eapply NewRequest; [exact E| |reflexivity|]; [reflexivity|]. right. by eexists.
  - match goal with |- context [forward_tunnel_request _ _ ?e ?t' ?i] => destruct (forward_effect e t' i) as (Er & Hl & Hf) end.
    eapply NewRequest; [exact E| |exact Er|]; [reflexivity|]. left. split; [lia|done].
Qed.

Lemma response_effect D e t item : let r := handleTunnelResult e t item in effect D t r.1 (TunnelOk item) (sent r.2).
Proof.
  unfold handleTunnelResult. destruct (_tunnel_requests_origins t !! ok_request_id item) as [req|] eqn:E; [|by constructor].
  case_bool_decide as Hin; [by constructor|]. cbv zeta.
  match goal with |- context [match _local_tunnels ?t1 !! ?k with Some _ => ?a | None => ?b end] =>
    set (u := match _local_tunnels t1 !! k with Some _ => a | None => b end) end.
  assert (Eu : _tunnel_requests_origins u = <[ok_request_id item := req <| responses := {[ok_tunnel_id item]} ∪ responses req |>]> (_tunnel_requests_origins t))
    by (unfold u; by case_match).
  clearbody u.
  case_match; [|case_match].
  - eapply NewResponse; [done|done|exact Eu|by left].
  - destruct (match_hashes _ _ _ _) as [t2 found] eqn:Em. eapply NewResponse; [done|done| |].
    + rewrite <- Eu. cbn [fst]. change t2 with (t2, found).1. rewrite <- Em. apply match_requests.
    + left. cbn [snd]. by repeat case_match.
  - eapply NewResponse; [done|done|exact Eu|]. right. by eexists.
Qed.

(** ** The weight falls *)

Section step.
Context (D : nat) (R : list Z) (net : gmap Z (p3turtle C)) (x : Z) (t t' : p3turtle C) (i : turtle_item) (out : list turtle_item).
Context (Et : net !! x = Some t) (He : effect D t t' i out) (Hi : about R i).

Lemma effect_known rid tid : known_response t rid tid = true -> known_response t' rid tid = true.
Proof.
  unfold known_response. destruct He as [j Eq|j req o En Er Eq _|j req o Er Hn Eq _]; rewrite Eq; [done|..]; rewrite lookup_insert; case_decide as Hd; try done; subst.
  - by rewrite En.
  - rewrite Er. intros Ht%bool_decide_eq_true_1. apply bool_decide_eq_true_2. cbn. set_solver.
Qed.

Lemma effect_response_weight rid tid : (response_weight rid tid t' <= response_weight rid tid t)%nat.
Proof. unfold response_weight. pose proof (effect_known rid tid). do 2 case_match; intuition (congruence || lia). Qed.

Lemma effect_item_weight j : (item_weight (<[x := t']> net) j <= item_weight net j)%nat.
Proof. destruct j; cbn; try lia. apply le_n_S, total_insert_le with t; [done|apply effect_response_weight]. Qed.

Lemma effect_queue (queue : list (Z * turtle_item)) :
  (sum_list ((fun y => item_weight (<[x := t']> net) y.2) <$> queue) <= sum_list ((fun y => item_weight net y.2) <$> queue))%nat.
Proof. induction queue as [|y queue IH]; cbn [fmap list_fmap sum_list]; [cbn; lia|]. pose proof (effect_item_weight y.2). cbn. lia. Qed.

Lemma filter_length_le (P Q : Z -> Prop) `{forall k, Decision (P k)} `{forall k, Decision (Q k)} (l : list Z) :
  (forall k, Q k -> P k) -> (length (filter Q l) <= length (filter P l))%nat.
Proof.
  intros HQP. induction l as [|k l IH]; [done|]. rewrite !filter_cons. pose proof (HQP k). do 2 case_decide; rewrite ?length_cons; intuition lia.
Qed.

Lemma filter_length_lt (P Q : Z -> Prop) `{forall k, Decision (P k)} `{forall k, Decision (Q k)} (l : list Z) k0 :
  (forall k, Q k -> P k) -> k0 ∈ l -> P k0 -> ~ Q k0 -> (length (filter Q l) < length (filter P l))%nat.
Proof.
  intros HQP Hin HP HQ. induction Hin as [k l|k y l Hin IH]; rewrite !filter_cons.
  - rewrite (decide_True (P := P k)), (decide_False (P := Q k)) by done. rewrite length_cons. apply le_n_S. by apply filter_length_le.
  - pose proof (HQP y). do 2 case_decide; rewrite ?length_cons; intuition lia.
Qed.

Lemma effect_unknown rid : _tunnel_requests_origins t' !! rid = None -> _tunnel_requests_origins t !! rid = None.
Proof. destruct He as [j Eq|j req o En Er Eq _|j req o Er Hn Eq _]; rewrite Eq; [done|..]; rewrite lookup_insert; by case_decide. Qed.

Lemma effect_request_weight : (request_weight R t' <= request_weight R t)%nat.
Proof. apply filter_length_le, effect_unknown. Qed.

Lemma out_open rid os : Forall (fun o => exists j, o = OpenTunnel j /\ ot_request_id j = rid) os ->
  sum_list ((fun y => item_weight (<[x := t']> net) y.2) <$> ((fun i => (x, i)) <$> os)) = length os.
Proof. induction 1 as [|o l (j & -> & _) _ IH]; [done|]. cbn. f_equal. exact IH. Qed.

Lemma weight_falls (from : Z) (queue : list (Z * turtle_item)) W : (D + size net + 1 <= W)%nat ->
  (weight W R (<[x := t']> net) (queue ++ ((fun i => (x, i)) <$> out)) < weight W R net ((from, i) :: queue))%nat.
Proof.
  intros HW. pose proof effect_unknown as Hu. unfold weight. rewrite fmap_app, sum_app. cbn [fmap list_fmap sum_list snd].
  pose proof (effect_queue queue) as Hq. pose proof (total_insert_le (request_weight R) net x t t' Et effect_request_weight) as Hk.
  apply (Nat.mul_le_mono_l _ _ W) in Hk.
  destruct He as [j Eq|j req o En Er Eq Ho|j req o Er Hn Eq Ho].
  - cbn. destruct j; cbn; lia.
  - assert (Hlt : (request_weight R t' < request_weight R t)%nat).
    { apply filter_length_lt with (ot_request_id j); [exact Hu|done..|]. by rewrite Eq, lookup_insert_eq. }
    pose proof (total_insert_lt (request_weight R) net x t t' Et Hlt) as Hk'. apply (Nat.mul_le_mono_l _ _ W) in Hk'. rewrite Nat.mul_succ_r in Hk'.
    destruct Ho as [[Hl Hf]|(j' & -> & _)].
    + rewrite (out_open (ot_request_id j)) by done. cbn. lia.
    + pose proof (total_le_size (response_weight (ok_request_id j') (ok_tunnel_id j')) (<[x := t']> net)) as Hs.
      rewrite map_size_insert_Some in Hs by eauto. cbn. unfold response_weight in *. lapply Hs; [lia|]. intros; case_match; lia.
  - assert (Hlt : (response_weight (ok_request_id j) (ok_tunnel_id j) t' < response_weight (ok_request_id j) (ok_tunnel_id j) t)%nat).
    { unfold response_weight, known_response. rewrite Eq, lookup_insert_eq, Er. cbn. rewrite bool_decide_eq_true_2 by (apply elem_of_union_l, elem_of_singleton; reflexivity). rewrite bool_decide_eq_false_2 by done. lia. }
    pose proof (total_insert_lt _ net x t t' Et Hlt) as Hr. destruct Ho as [->|(j' & -> & E1 & E2)]; cbn; [|rewrite E1, E2]; lia.
Qed.

Lemma effect_about : Forall (about R) out.
Proof.
  destruct He as [j Eq|j req o En Er Eq Ho|j req o Er Hn Eq Ho]; [constructor|..].
  - destruct Ho as [[_ Hf]|(j' & -> & Ej)]; [|repeat constructor; cbn; by rewrite Ej].
    eapply Forall_impl; [exact Hf|]. intros o' (j' & -> & Ej). cbn. by rewrite Ej.
  - destruct Ho as [->|(j' & -> & Ej & _)]; repeat constructor. cbn. by rewrite Ej.
Qed.
End step.

Lemma handle_about R D e t i : about R i -> (length (onlineIds e) <= D)%nat ->
  exists t' ev, handleItem pow_int pow e t i = Done (t', ev) /\ effect D t t' i (sent ev).
Proof.
  intros Hi HD. unfold handleItem. destruct (negb _); [by eexists _, _; split; [done|constructor]|].
  destruct i as [i|i|i|i|i]; try done.
  - pose proof (request_effect D e t i HD) as He. destruct (handleTunnelRequest pow_int pow e t i) as [t' ev]. by exists t', ev.
  - pose proof (response_effect D e t i) as He. destruct (handleTunnelResult e t i) as [t' ev]. by exists t', ev.
Qed.

Lemma about_arriving R from i : about R i -> about R (arriving from i).
Proof. by destruct i. Qed.

Lemma item_weight_arriving net from i : item_weight net (arriving from i) = item_weight net i.
Proof. by destruct i. Qed.

Lemma run_ends D R W fuel : (forall x, (length (onlineIds (env x)) <= D)%nat) -> forall net queue log,
  (D + size net + 1 <= W)%nat -> Forall (fun x => about R x.2) queue -> (weight W R net queue <= fuel)%nat ->
  is_Some (run pow_int pow env fuel net queue log).
Proof.
  intros HD. induction fuel as [|fuel IH]; intros net queue log HW Hq Hf; (destruct queue as [|[from i] queue]; [by eexists|]).
  - exfalso. unfold weight in Hf. cbn in Hf. destruct i; cbn in Hf; lia.
  - apply Forall_cons in Hq as [Hi Hq]. cbn [snd] in Hi. cbn [run]. destruct (net !! item_PeerId i) as [t|] eqn:Et.
    + destruct (handle_about R D (env (item_PeerId i)) t (arriving from i)) as (t' & ev & -> & He); [by apply about_arriving|apply HD|].
      rewrite sends_sent. apply IH.
      * rewrite map_size_insert_Some by eauto. done.
      * apply Forall_app. split; [done|]. apply Forall_fmap. eapply effect_about; [exact He|by apply about_arriving].
      * pose proof (weight_falls D R net (item_PeerId i) t t' (arriving from i) (sent ev) Et He (about_arriving R from i Hi) from queue W HW) as Hfall.
        assert (Ew : weight W R net ((from, arriving from i) :: queue) = weight W R net ((from, i) :: queue))
          by (unfold weight; cbn; by rewrite item_weight_arriving).
        lia.
    + apply IH; [done..|]. unfold weight in *. cbn in Hf. destruct i; cbn in Hf; lia.
Qed.

Lemma weight_bound W R net queue : Forall (fun x => about R x.2) queue ->
  (weight W R net queue <= W * (length R * size net) + length queue * (size net + 1))%nat.
Proof.
  intros Hq. unfold weight. apply Nat.add_le_mono.
  - apply Nat.mul_le_mono_l. unfold total. rewrite <- length_map_to_list. induction (map_to_list net) as [|x l IH]; cbn; [lia|].
    assert (request_weight R x.2 <= length R)%nat by apply length_filter. lia.
  - induction Hq as [|[from i] queue Hi _ IH]; cbn; [lia|]. assert (item_weight net i <= S (size net))%nat; [|lia].
    destruct i; cbn; try lia. apply le_n_S, total_le_size. intros t. unfold response_weight. case_match; lia.
Qed.

(** C11 Requests for tunnels end.  Take any nodes in any states, of which none has more than [D] friends online, and any requests for tunnels
    and answers to them on their way, with ids in [R].  Then only finitely many items are delivered until none is left:
    with [N] nodes, at most [(D + N + 1) * |R| * N] more than [N + 1] for each item on its way; and no node reads out of its memory. *)
Theorem tunnel_requests_end D R net queue log : (forall x, (length (onlineIds (env x)) <= D)%nat) -> Forall (fun x => about R x.2) queue ->
  let N := size net in let fuel := ((D + N + 1) * (length R * N) + length queue * (N + 1))%nat in
  is_Some (run pow_int pow env fuel net queue log).
Proof. intros HD Hq N fuel. by apply run_ends with D R (D + N + 1)%nat; [..|apply weight_bound]. Qed.
End flood.

(** Three nodes that are all friends, and one asks. *)
Definition circle_env (id : Z) : turtle_env := ThreeNodes.demo_env (filter (fun x => x <> id) [1; 2; 3]).

Lemma tunnel_requests_end_witness :
  is_Some (run (H := ThreeNodes.demo_service) ThreeNodes.demo_pow_int ThreeNodes.demo_pow circle_env 25 ThreeNodes.three [(2, OpenTunnel ThreeNodes.last_request_item)] []).
Proof.
  pose proof (tunnel_requests_end (H := ThreeNodes.demo_service) ThreeNodes.demo_pow_int ThreeNodes.demo_pow circle_env 3
    [ot_request_id ThreeNodes.last_request_item] ThreeNodes.three [(2, OpenTunnel ThreeNodes.last_request_item)] []
    (fun x => length_filter (fun y => y <> x) [1; 2; 3]) ltac:(apply Forall_singleton; by left)) as Hr.
  cbv zeta in Hr. replace (size ThreeNodes.three) with 3%nat in Hr by (by vm_compute). exact Hr.
Defined.
