(* ===== verification/TurtleProps.v ===== *)
(** * Properties of one turtle router

    What holds in every state that a router reaches by handling items, by its clock and by calls of the rest of the program;
    how requests and results are bounded; and what cleaning leaves. *)

From S2P Require Import Prelude RawSerial Tlv TlvSets RsExpr Turtle TurtleNet.
From Stdlib Require Import ZArith Lia SpecFloat.
From stdpp Require Import base list gmap sorting.
Open Scope Z_scope.

(** ** The loop that removes a tunnel from a list *)

Lemma delete_last {A} (l : list A) i (x y : A) : l !! i = Some x -> last l = Some y ->
  x :: take (length l - 1) (<[i := y]> l) ≡ₚ l.
Proof.
  intros Ei El. destruct (proj1 (last_Some l y) El) as [l' ->]. rewrite length_app. cbn [length].
  replace (length l' + 1 - 1)%nat with (length l') by lia. destruct (decide (i < length l')%nat) as [Hi|Hi].
  - rewrite insert_app_l, take_app_length' by (rewrite ?length_insert; done). rewrite lookup_app_l in Ei by done.
    rewrite insert_take_drop by done. rewrite <- (take_drop_middle l' i x Ei) at 3. rewrite <- app_assoc. cbn. solve_Permutation.
  - apply lookup_app_Some in Ei as [Ei|[_ Ei]]; [apply lookup_lt_Some in Ei; lia|].
    assert (i = length l') as -> by (apply lookup_lt_Some in Ei; cbn in Ei; lia). rewrite Nat.sub_diag in Ei. injection Ei as ->.
    rewrite insert_app_r_alt, take_app_length by lia. by rewrite Permutation_cons_append.
Qed.

Lemma filter_others (tid : Z) (l : list Z) : tid ∉ l -> filter (fun x => x <> tid) l = l.
Proof.
  induction l as [|x l IH]; intros Hn; [done|]. apply not_elem_of_cons in Hn as [Hx Hn]. rewrite filter_cons_True by congruence. by rewrite IH.
Qed.

(** What is left: the elements other than [tid]. *)
Lemma remove_tunnel_perm fuel tid : forall i l, (length l < fuel + i)%nat -> tid ∉ take i l ->
  remove_tunnel fuel tid i l ≡ₚ filter (fun x => x <> tid) l.
Proof.
  induction fuel as [|fuel IH]; intros i l Hf Hi.
  - cbn. rewrite filter_others; [done|]. intros Hx. apply Hi. by rewrite take_ge by lia.
  - cbn [remove_tunnel]. destruct (l !! i) as [x|] eqn:Ei.
    + destruct (Z.eqb_spec x tid) as [->|Hne].
      * destruct (last l) as [y|] eqn:El; [|apply last_None in El; subst; done]. cbn [default].
        unfold id. pose proof (delete_last l i tid y Ei El) as Hp. pose proof (lookup_lt_Some _ _ _ Ei) as Hlt.
        rewrite IH.
        -- apply (filter_Permutation (fun x => x <> tid)) in Hp. rewrite filter_cons_False in Hp by (by intros []). exact Hp.
        -- rewrite length_take, length_insert. lia.
        -- rewrite take_take. intros Hin. apply Hi. apply elem_of_take in Hin as (j & Ej & Hj).
           rewrite list_lookup_insert_ne in Ej by lia. apply elem_of_take. exists j. split; [done|lia].
      * apply IH; [lia|]. rewrite (take_S_r _ _ _ Ei). intros [Hin|Hin%list_elem_of_singleton]%elem_of_app; [done|congruence].
    + rewrite filter_others; [done|]. intros Hx. apply Hi. rewrite take_ge; [done|]. by apply lookup_ge_None.
Qed.

Lemma removed_tunnel tid l : remove_tunnel (S (length l)) tid 0 l ≡ₚ filter (fun x => x <> tid) l.
Proof. apply remove_tunnel_perm; [lia|apply not_elem_of_nil]. Qed.

(** ** The operations of a router *)

Section props.
Context {C : Type} `{RsTurtleClientService C} (pow_int : float32 -> Z -> float32) (pow : float32 -> float32 -> float32).

Inductive turtle_op :=
| OpTick (e : turtle_env) (items : list turtle_item) (id : Z)
| OpSearch (e : turtle_env) (q : search_query) (id : Z)
| OpSend (e : turtle_env) (virtual_peer : Z) (item : RsTurtleGenericTunnelItem)
| OpMonitor (hash : Z) (s : C) (allow_multi_tunnels : bool) (r : Z)
| OpStop (hash : Z)
| OpReDigg (e : turtle_env) (hash id : Z)
| OpRegister (s : C)
| OpEnable (b : bool)
| OpSession (b : bool)
| OpRate (val : Z)
| OpLoad (pairs : list RsTlvKeyValue).

Definition turtle_step (t : p3turtle C) (o : turtle_op) : access (p3turtle C * list (turtle_event C)) :=
  match o with
  | OpTick e items id => tick pow_int pow e t items id
  | OpSearch e q id => turtleSearch e t q id
  | OpSend e vp item => Done (sendTurtleData e t vp item)
  | OpMonitor hash s b r => Done (monitorTunnels t hash s b r, [])
  | OpStop hash => Done (stopMonitoringTunnels t hash, [])
  | OpReDigg e hash id => Done (forceReDiggTunnels pow_int pow e t hash id)
  | OpRegister s => Done (registerTunnelService t s, [])
  | OpEnable b => Done (setEnabled t b, [])
  | OpSession b => Done (setSessionEnabled t b, [])
  | OpRate v => Done (setMaxTRForwardRate t v, [])
  | OpLoad pairs => Done (loadList t pairs, [])
  end.

Fixpoint turtle_run (t : p3turtle C) (l : list turtle_op) : access (p3turtle C * list (turtle_event C)) :=
  match l with
  | [] => Done (t, [])
  | o :: l =>
      '(t, ev) ← turtle_step t o;
      '(t, ev') ← turtle_run t l;
      Done (t, ev ++ ev')
  end.

(** ** The invariant *)

Definition hash_ok (h : TurtleHashInfo C) : Prop := service h <> None /\ NoDup (tunnels h).
Definition tunnel_ok (tid : Z) (tn : TurtleTunnel) : Prop := vpid tn = 0 \/ vpid tn = virtual_peer_id tid.

Record turtle_ok (t : p3turtle C) : Prop := {
  tk_cache : (size (_search_requests_origins t) <= S MAX_ALLOWED_SR_IN_CACHE)%nat;
  tk_virtual : map_Forall (fun vp tid => vp = virtual_peer_id tid) (_virtual_peers t);
  tk_hashes : map_Forall (fun _ h => hash_ok h) (_incoming_file_hashes t);
  tk_tunnels : map_Forall tunnel_ok (_local_tunnels t);
  tk_rate : exists v, MAX_TR_FORWARD_PER_SEC_LOWER_LIMIT <= v <= MAX_TR_FORWARD_PER_SEC_UPPER_LIMIT /\ _max_tr_up_rate t = f32_of_Z v
}.

(** A call goes to a service. *)
Definition call_ok (ev : turtle_event C) : Prop :=
  match ev with AddVirtualPeer None _ _ _ | RemoveVirtualPeer None _ _ | ReceiveTurtleData None _ _ _ _ => False | _ => True end.

Definition fine (r : p3turtle C * list (turtle_event C)) : Prop := turtle_ok r.1 /\ Forall call_ok r.2.

Lemma fine_nil t : turtle_ok t -> fine (t, []).
Proof. intros. split; [done|constructor]. Qed.

Lemma ok_traffic t (x : TurtleTrafficStatisticsInfo) : turtle_ok t -> turtle_ok (t <| _traffic_info_buffer := x |>).
Proof. by intros []. Qed.

Lemma ok_requests t (x : gmap Z TurtleTunnelRequestInfo) : turtle_ok t -> turtle_ok (t <| _tunnel_requests_origins := x |>).
Proof. by intros []. Qed.

Lemma ok_enabled t (b : bool) : turtle_ok t -> turtle_ok (t <| _turtle_routing_enabled := b |>).
Proof. by intros []. Qed.

Lemma ok_outgoing t (x : gmap Z C) : turtle_ok t -> turtle_ok (t <| _outgoing_tunnel_client_services := x |>).
Proof. by intros []. Qed.

Lemma ok_set_tunnel t tid tn : turtle_ok t -> tunnel_ok tid tn -> turtle_ok (set_tunnel t tid tn).
Proof. intros [] Ht. constructor; try done. by apply map_Forall_insert_2. Qed.

Lemma ok_set_hash t m hash h : turtle_ok t -> m = _incoming_file_hashes t -> hash_ok h -> turtle_ok (t <| _incoming_file_hashes := <[hash := h]> m |>).
Proof. intros [] -> Ht. constructor; try done. by apply map_Forall_insert_2. Qed.

Lemma ok_add_peer t tid : turtle_ok t -> turtle_ok (locked_addDistantPeer t tid).
Proof. intros []. constructor; try done; cbn; apply map_Forall_insert_2; try done. by right. Qed.

Lemma ok_delete_peer t m vp : turtle_ok t -> m = _virtual_peers t -> turtle_ok (t <| _virtual_peers := delete vp m |>).
Proof. intros [] ->. constructor; try done. by apply map_Forall_delete. Qed.

Lemma ok_delete_tunnel t tid : turtle_ok t -> turtle_ok (t <| _local_tunnels := delete tid (_local_tunnels t) |>).
Proof. intros []. constructor; try done. by apply map_Forall_delete. Qed.

Lemma ok_delete_hash t hash : turtle_ok t -> turtle_ok (t <| _incoming_file_hashes := delete hash (_incoming_file_hashes t) |>).
Proof. intros []. constructor; try done. by apply map_Forall_delete. Qed.

Lemma ok_hash t hash h : turtle_ok t -> _incoming_file_hashes t !! hash = Some h -> hash_ok h.
Proof. intros [_ _ Hh _ _] E. exact (Hh _ _ E). Qed.

Lemma ok_tunnel t tid tn : turtle_ok t -> _local_tunnels t !! tid = Some tn -> tunnel_ok tid tn.
Proof. intros [_ _ _ Ht _] E. exact (Ht _ _ E). Qed.

Lemma fine_app t r (ev : list (turtle_event C)) : fine r -> Forall call_ok ev -> r.1 = t -> fine (t, ev ++ r.2).
Proof. intros [Hok Hev] He <-. split; [done|by apply Forall_app]. Qed.

(** *** Data *)

Lemma info_service t tid vp hash (s : option C) : turtle_ok t -> getTunnelServiceInfo t tid = Some (vp, hash, s) -> s <> None.
Proof.
  intros Hok. unfold getTunnelServiceInfo. destruct (_local_tunnels t !! tid) as [tn|]; [|done]. case_match.
  - destruct (_incoming_file_hashes t !! tn_hash tn) as [h|] eqn:E; [|done]. intros [= _ _ <-]. by destruct (ok_hash t _ h Hok E).
  - case_match; [|done]. case_match; [|done]. by intros [= _ _ <-].
Qed.

Lemma recv_fine t item : turtle_ok t -> Forall call_ok (handleRecvGenericTunnelItem t item).
Proof.
  intros Hok. unfold handleRecvGenericTunnelItem. destruct (getTunnelServiceInfo t (gt_tunnel_id item)) as [[[vp hash] s]|] eqn:E; [|constructor].
  apply Forall_singleton. cbn. destruct s; [done|]. by apply (info_service t _ _ _ _ Hok) in E.
Qed.

Lemma stamp_ok e b n tid tn : tunnel_ok tid tn -> tunnel_ok tid (stamp_tunnel e b n tn).
Proof. by destruct b. Qed.

Lemma route_fine e t item : turtle_ok t -> fine (routeGenericTunnelItem e t item).
Proof.
  intros Hok. unfold routeGenericTunnelItem. destruct (_local_tunnels t !! gt_tunnel_id item) as [tn|] eqn:E; [|by apply fine_nil]. cbv zeta.
  pose proof (ok_set_tunnel t _ _ Hok (stamp_ok e (gt_shouldStampTunnel item) (gt_size item) _ _ (ok_tunnel t _ _ Hok E))) as Hs.
  repeat case_match; try (by apply fine_nil); (split; [by apply ok_traffic|]);
    try (by apply Forall_singleton); by apply recv_fine, ok_traffic.
Qed.

Lemma send_fine e t vp item : turtle_ok t -> fine (sendTurtleData e t vp item).
Proof.
  intros Hok. unfold sendTurtleData. destruct (_virtual_peers t !! vp) as [tid|]; [|by apply fine_nil].
  destruct (_local_tunnels t !! tid) as [tn|] eqn:E; [|by apply fine_nil]. cbv zeta.
  pose proof (ok_set_tunnel t _ _ Hok (stamp_ok e (gt_shouldStampTunnel (item <| gt_tunnel_id := tid |>)) (gt_size (item <| gt_tunnel_id := tid |>)) _ _ (ok_tunnel t _ _ Hok E))) as Hs.
  repeat case_match; try (by apply fine_nil); (split; [by apply ok_traffic|by apply Forall_singleton]).
Qed.

(** *** Requests for tunnels *)

Lemma calls_fine {A} (f : A -> turtle_item) (l : list A) : Forall call_ok ((fun x => SendItem (f x)) <$> l).
Proof. apply Forall_fmap, Forall_true. done. Qed.

Lemma answer_fine e t item (s : C) : turtle_ok t -> fine (answer_tunnel e t item s).
Proof.
  intros Hok. unfold answer_tunnel. cbv zeta. split; [|by repeat constructor].
  apply ok_outgoing, ok_add_peer, ok_set_tunnel; [done|by left].
Qed.

Lemma forward_fine e t item : turtle_ok t -> fine (forward_tunnel_request pow_int pow e t item).
Proof.
  intros Hok. unfold forward_tunnel_request. cbv zeta. case_match; [|by apply fine_nil]. split; [by apply ok_traffic|apply calls_fine].
Qed.

Lemma request_fine e t item : turtle_ok t -> fine (handleTunnelRequest pow_int pow e t item).
Proof.
  intros Hok. unfold handleTunnelRequest. cbv zeta. pose proof (ok_traffic t) as Ht. case_match; [by apply fine_nil, Ht|].
  case_match; [by apply fine_nil, Ht|]. case_match; [apply answer_fine|apply forward_fine]; by apply ok_requests, Ht.
Qed.

Lemma start_ok t hash h tid : turtle_ok t -> hash_ok h -> turtle_ok (start_tunnel t hash h tid).
Proof.
  intros Hok [Hs Hn]. unfold start_tunnel. cbv zeta. apply ok_add_peer, ok_set_tunnel.
  - apply ok_set_hash; [done..|]. case_bool_decide as Hin; [done|]. split; [done|]. cbn. apply NoDup_app. split_and!; [done|by intros x Hx ->%list_elem_of_singleton|apply NoDup_singleton].
  - cbn [_local_tunnels upd]. destruct (_local_tunnels t !! tid) as [tn|] eqn:E; cbn [default]; [|by left]. exact (ok_tunnel t tid tn Hok E).
Qed.

Lemma match_ok rid tid (l : list (Z * TurtleHashInfo C)) : forall st, Forall (fun x => hash_ok x.2) l -> turtle_ok st.1 ->
  (forall hash s, st.2 = Some (hash, s) -> s <> None) ->
  turtle_ok (match_hashes rid tid l st).1 /\ forall hash s, (match_hashes rid tid l st).2 = Some (hash, s) -> s <> None.
Proof.
  induction l as [|x l IH]; intros st Hl Hok Hs; [done|]. apply Forall_cons in Hl as [Hx Hl]. unfold match_hashes in *. cbn [foldl].
  apply IH; [done|..]; case_match; try done; [by apply start_ok|]. cbn. intros hash s [= _ <-]. apply Hx.
Qed.

Lemma hashes_in_order t : turtle_ok t -> Forall (fun x => hash_ok x.2) (in_order (_incoming_file_hashes t)).
Proof. intros Hok. apply Forall_forall. intros [k h] Hx%elem_of_in_order. exact (ok_hash t k h Hok Hx). Qed.

Lemma result_fine e t item : turtle_ok t -> fine (handleTunnelResult e t item).
Proof.
  intros Hok. unfold handleTunnelResult. case_match; [|by apply fine_nil]. case_match; [by apply fine_nil|]. cbv zeta.
  match goal with |- context [match ?x with Some _ => ?a | None => ?b end] =>
    assert (Hu : turtle_ok (match x with Some _ => a | None => b end)) by (case_match; [by apply ok_requests|apply ok_set_tunnel; [by apply ok_requests|by left]]);
    set (u := match x with Some _ => a | None => b end) in * end.
  clearbody u. case_match; [by apply fine_nil|]. case_match; [|split; [done|by apply Forall_singleton]].
  pose proof (match_ok (ok_request_id item) (ok_tunnel_id item) (in_order (_incoming_file_hashes u)) (u, None) (hashes_in_order u Hu) Hu ltac:(done)) as [Hm Hf].
  destruct (match_hashes _ _ _ _) as [t2 found]. split; [done|]. cbn [snd]. repeat case_match; try constructor; done.
Qed.

Lemma digg_fine e t hash id h : turtle_ok t -> _incoming_file_hashes t !! hash = Some h -> fine (diggTunnel pow_int pow e t hash id).
Proof.
  intros Hok E. unfold diggTunnel. rewrite E. cbn [default]. apply request_fine, ok_set_hash; [done..|]. exact (ok_hash t hash h Hok E).
Qed.

Lemma total_speed_ok t l : turtle_ok t -> turtle_ok (total_speed t l).1 /\ _incoming_file_hashes (total_speed t l).1 = _incoming_file_hashes t.
Proof.
  intros Hok. unfold total_speed. assert (Hg : forall st : p3turtle C * Z, turtle_ok st.1 -> let r := foldl (fun st tid =>
    let tn := default new_tunnel (_local_tunnels st.1 !! tid) in
    (set_tunnel st.1 tid tn, u32 (Z_of_float (f32_add (f32_of_Z st.2) (speed_Bps tn))))) st l in
    turtle_ok r.1 /\ _incoming_file_hashes r.1 = _incoming_file_hashes st.1); [|by apply (Hg (t, 0))].
  induction l as [|tid l IH]; intros st Hst; [done|]. cbn [foldl]. destruct (IH (set_tunnel st.1 tid (default new_tunnel (_local_tunnels st.1 !! tid)),
    u32 (Z_of_float (f32_add (f32_of_Z st.2) (speed_Bps (default new_tunnel (_local_tunnels st.1 !! tid))))))) as [H1 H2]; [|by split].
  apply ok_set_tunnel; [done|]. destruct (_local_tunnels st.1 !! tid) as [tn|] eqn:E; [|by left]. by apply (ok_tunnel st.1 tid tn).
Qed.

Lemma hashes_to_digg_ok e t : turtle_ok t -> let r := hashes_to_digg e t in
  turtle_ok r.1 /\ _incoming_file_hashes r.1 = _incoming_file_hashes t /\ forall x, x ∈ r.2 -> is_Some (_incoming_file_hashes t !! x.1).
Proof.
  intros Hok. unfold hashes_to_digg.
  assert (Hin : forall x, x ∈ in_order (_incoming_file_hashes t) -> is_Some (_incoming_file_hashes t !! x.1)) by (intros x ->%elem_of_in_order; eauto).
  revert Hin. generalize (in_order (_incoming_file_hashes t)). intros l Hin.
  assert (Hg : forall st : p3turtle C * list (Z * Z), turtle_ok st.1 -> _incoming_file_hashes st.1 = _incoming_file_hashes t ->
    (forall x, x ∈ st.2 -> is_Some (_incoming_file_hashes t !! x.1)) ->
    let r := foldl (fun st x => let '(t, total) := total_speed st.1 (tunnels x.2) in
      (t, if due e x.2 total then st.2 ++ [(x.1, last_digg_time x.2)] else st.2)) st l in
    turtle_ok r.1 /\ _incoming_file_hashes r.1 = _incoming_file_hashes t /\ forall x, x ∈ r.2 -> is_Some (_incoming_file_hashes t !! x.1));
    [|apply (Hg (t, [])); [done..|intros x Hx; by apply elem_of_nil in Hx]].
  induction l as [|y l IH]; intros st Hst Eh Hd; [done|]. cbn [foldl]. pose proof (total_speed_ok st.1 (tunnels y.2) Hst) as [H1 H2].
  destruct (total_speed st.1 (tunnels y.2)) as [t' total]. apply IH; cbn [fst snd] in *; [intros x Hx; apply Hin; by right|done|congruence|].
  intros x. case_match; [|apply Hd]. intros [Hx| ->%list_elem_of_singleton]%elem_of_app; [by apply Hd|]. apply (Hin y). by left.
Qed.

Lemma manage_fine e t id : turtle_ok t -> fine (manageTunnels pow_int pow e t id).
Proof.
  intros Hok. unfold manageTunnels. pose proof (hashes_to_digg_ok e t Hok) as (H1 & H2 & H3). destruct (hashes_to_digg e t) as [t' l]. cbn [fst snd] in *.
  destruct (take _ (merge_sort older l)) as [|[hash d] l'] eqn:E; [by apply fine_nil|].
  destruct (H3 (hash, d)) as [h Eh]; [|apply digg_fine with h; [done|by rewrite H2]].
  rewrite <- (merge_sort_Permutation older l). rewrite <- (take_drop MAX_TUNNEL_REQS_PER_SECOND (merge_sort older l)), E. by left.
Qed.

(** *** Searches *)

(** What is sent on is copies of the request. *)
Lemma forward_search_sends e (t : p3turtle C) item fwd : forward_search e t item = Done fwd ->
  exists (f : Z -> search_request) l, fwd = (fun x => SendItem (SearchRequest (f x))) <$> l.
Proof.
  unfold forward_search. cbv zeta. destruct (_ || _); [|intros [= <-]; by exists (fun _ => item), []].
  destruct (filter _ _) as [|x l]; [intros [= <-]; by exists (fun _ => item), []|]. destruct (clone _) as [q|]; [|done]. cbn [mbind access_bind].
  intros Ef. injection Ef as <-. exists (fun p => item <| sq_depth := fwd_depth (random_dshift t (sq_request_id item) (sq_depth item)) (sq_depth item) |> <| sq_PeerId := p |> <| sq_query := q |>), (x :: l). reflexivity.
Qed.

Lemma search_fine e t item t' ev : turtle_ok t -> handleSearchRequest e t item = Done (t', ev) -> fine (t', ev).
Proof.
  intros Hok. unfold handleSearchRequest. case_match; [intros [= <- <-]; by apply fine_nil|].
  destruct (Nat.ltb_spec MAX_ALLOWED_SR_IN_CACHE (size (_search_requests_origins t))) as [|Hsize]; [intros [= <- <-]; by apply fine_nil|].
  destruct (_search_requests_origins t !! sq_request_id item) as [|] eqn:E; [intros [= <- <-]; by apply fine_nil|].
  match goal with |- context [mbind _ ?x] => destruct x as [[[r n] m]|] end; [|done]. cbn [mbind access_bind].
  destruct (query_GetKeywords _) as [kw|]; [|done]. cbn [mbind access_bind].
  assert (Hok' : forall req, turtle_ok (t <| _search_requests_origins := <[sq_request_id item := req]> (_search_requests_origins t) |>)).
  { intros req. destruct Hok as [Hc Hv Hh Ht Hr]. constructor; try done. cbn [_search_requests_origins upd]. rewrite map_size_insert_None by done. lia. }
  assert (Hs : Forall call_ok ((fun h => SendItem (SearchResult (mk_search_result (sq_PeerId item) (sq_request_id item) h))) <$> r)) by apply calls_fine.
  destruct (m <=? n); [intros [= <- <-]; split; [apply Hok'|done]|].
  match goal with |- context [forward_search e ?u item] => destruct (forward_search e u item) as [fwd|] eqn:Ef; [|done] end. cbn [mbind access_bind]. intros [= <- <-]. split; [apply Hok'|]. apply Forall_app. split; [done|].
  destruct (forward_search_sends _ _ _ _ Ef) as (f & l & ->). apply calls_fine.
Qed.

Lemma search_result_fine e t item t' ev : turtle_ok t -> handleSearchResult e t item = Done (t', ev) -> fine (t', ev).
Proof.
  intros Hok. unfold handleSearchResult. destruct (filter_banned _ _) as [hits|]; [|intros [= <- <-]; by apply fine_nil]. cbv zeta. cbn [sr_request_id upd].
  destruct (_search_requests_origins t !! sr_request_id item) as [req|] eqn:E; [|intros [= <- <-]; by apply fine_nil].
  destruct (_ <? now e); [intros [= <- <-]; by apply fine_nil|].
  assert (Hok' : forall req', turtle_ok (t <| _search_requests_origins := <[sr_request_id item := req']> (_search_requests_origins t) |>)).
  { intros req'. destruct Hok as [Hc Hv Hh Ht Hr]. constructor; try done. cbn [_search_requests_origins upd]. by rewrite map_size_insert_Some by eauto. }
  destruct (_ =? _own_id t); [intros [= <- <-]; split; [apply Hok'|]|destruct (_ <=? _); [intros [= <- <-]; by apply fine_nil|]].
  - cbn [snd]. unfold notify_result. repeat case_match; repeat constructor.
  - case_match. destruct (duplicate _) as [h|]; [|done]. cbn [mbind access_bind]. intros [= <- <-]. split; [apply Hok'|by apply Forall_singleton].
Qed.

(** *** Closing tunnels *)

Definition services_ok (l : list (option C * Z * Z)) : Prop := Forall (fun x => x.1.1 <> None) l.

Lemma close_tunnel_ok t tid : turtle_ok t -> turtle_ok (locked_closeTunnel t tid).1 /\ services_ok (locked_closeTunnel t tid).2.
Proof.
  intros Hok. unfold locked_closeTunnel. destruct (_local_tunnels t !! tid) as [tn|]; [|by split; [|constructor]].
  destruct (local_src tn =? _own_id t); [|destruct (local_dst tn =? _own_id t)].
  - cbn [_incoming_file_hashes upd]. destruct (_incoming_file_hashes t !! tn_hash tn) as [h|] eqn:E.
    + pose proof (ok_hash t _ h Hok E) as [Hs Hn]. split; [|apply Forall_singleton; exact Hs]. apply ok_delete_tunnel.
      apply ok_set_hash; [by apply ok_delete_peer|done|].
      split; [done|]. cbn [tunnels upd]. rewrite removed_tunnel. by apply NoDup_filter.
    + split; [|constructor]. apply ok_delete_tunnel. by apply ok_delete_peer.
  - destruct (_outgoing_tunnel_client_services t !! tid) as [s|]; [|by split; [apply ok_delete_tunnel|constructor]].
    split; [|by apply Forall_singleton]. apply ok_delete_tunnel, ok_delete_peer; [by apply ok_outgoing|done].
  - split; [by apply ok_delete_tunnel|constructor].
Qed.

Lemma close_tunnels_ok t l : turtle_ok t -> turtle_ok (close_tunnels t l).1 /\ services_ok (close_tunnels t l).2.
Proof.
  intros Hok. unfold close_tunnels. assert (Hg : forall st, turtle_ok st.1 -> services_ok st.2 -> let r := foldl
    (fun st tid => let '(t, r) := locked_closeTunnel st.1 tid in (t, st.2 ++ r)) st l in turtle_ok r.1 /\ services_ok r.2); [|by apply (Hg (t, [])); [|constructor]].
  induction l as [|tid l IH]; intros st Hst Hs; [done|]. cbn [foldl]. pose proof (close_tunnel_ok st.1 tid Hst) as [H1 H2].
  destruct (locked_closeTunnel st.1 tid) as [t' r]. apply IH; [done|]. by apply Forall_app.
Qed.

Lemma remove_hash_ok st hash : turtle_ok st.1 -> services_ok st.2 -> turtle_ok (remove_hash st hash).1 /\ services_ok (remove_hash st hash).2.
Proof.
  intros Hst Hs. unfold remove_hash. destruct (_incoming_file_hashes st.1 !! hash) as [h|]; [|done].
  pose proof (close_tunnels_ok st.1 (tunnels h) Hst) as [H1 H2]. destruct (close_tunnels _ _) as [t' r]. split; [by apply ok_delete_hash|by apply Forall_app].
Qed.

Lemma wash_hashes_ok t : turtle_ok t -> turtle_ok (wash_hashes t).1 /\ services_ok (wash_hashes t).2.
Proof.
  intros Hok. unfold wash_hashes. generalize (merge_sort Z.le (elements (_hashes_to_remove t))). intros l.
  assert (Hg : forall st, turtle_ok st.1 -> services_ok st.2 -> let r := foldl remove_hash st l in turtle_ok r.1 /\ services_ok r.2).
  { induction l as [|hash l IH]; intros st Hst Hs; [done|]. cbn [foldl]. apply IH; by apply remove_hash_ok. }
  specialize (Hg (t, []) Hok ltac:(constructor)) as [H1 H2]. destruct (foldl _ _ _) as [t' r]. split; [by destruct H1|done].
Qed.

Lemma wash_requests_ok e t : turtle_ok t -> turtle_ok (wash_requests e t).
Proof.
  intros [Hc Hv Hh Ht Hr]. constructor; try done. cbn [_search_requests_origins wash_requests upd]. etransitivity; [|exact Hc].
  apply map_subseteq_size, map_filter_subseteq.
Qed.

Lemma autoWash_fine e t : turtle_ok t -> fine (autoWash e t).
Proof.
  intros Hok. unfold autoWash. pose proof (wash_hashes_ok t Hok) as [H1 H2]. destruct (wash_hashes t) as [t1 r1]. cbn [fst snd] in *.
  pose proof (wash_requests_ok e t1 H1) as H3. pose proof (close_tunnels_ok (wash_requests e t1) (idle_tunnels e (wash_requests e t1)) H3) as [H4 H5].
  destruct (close_tunnels _ _) as [t2 r2]. split; [done|]. cbn [snd]. apply Forall_fmap. assert (Hr : services_ok (r1 ++ r2)) by (by apply Forall_app).
  eapply Forall_impl; [exact Hr|]. intros [[[s|] hash] vp] Hx; done.
Qed.

(** *** All operations *)

Lemma item_fine e t item t' ev : turtle_ok t -> handleItem pow_int pow e t item = Done (t', ev) -> fine (t', ev).
Proof.
  intros Hok. unfold handleItem. case_match; [intros [= <- <-]; by apply fine_nil|].
  destruct item as [i|i|i|i|i]; [by apply search_fine|by apply search_result_fine|intros [= E]; rewrite <- E..].
  - by apply request_fine.
  - by apply result_fine.
  - by apply route_fine.
Qed.

Lemma incoming_fine e items : forall t t' ev, turtle_ok t -> handleIncoming pow_int pow e t items = Done (t', ev) -> fine (t', ev).
Proof.
  induction items as [|item items IH]; intros t t' ev Hok; cbn [handleIncoming]; [intros [= <- <-]; by apply fine_nil|].
  destruct (handleItem pow_int pow e t item) as [[t1 ev1]|] eqn:E1; [|done]. cbn [mbind access_bind].
  destruct (item_fine e t item t1 ev1 Hok E1) as [Hok1 Hev1]. cbn [fst snd] in *.
  destruct (handleIncoming pow_int pow e t1 items) as [[t2 ev2]|] eqn:E2; [|done]. cbn [mbind access_bind]. intros [= <- <-].
  destruct (IH t1 t2 ev2 Hok1 E2) as [Hok2 Hev2]. split; [done|by apply Forall_app].
Qed.

Lemma estimate_ok t : turtle_ok t -> turtle_ok (estimateTunnelSpeeds t).
Proof.
  intros [Hc Hv Hh Ht Hr]. constructor; try done. unfold estimateTunnelSpeeds. cbn [_local_tunnels upd].
  intros tid tn. rewrite lookup_fmap. destruct (_local_tunnels t !! tid) as [tn0|] eqn:E; [|done]. cbn. intros [= <-]. exact (Ht tid tn0 E).
Qed.

Lemma tick_fine e t items id t' ev : turtle_ok t -> tick pow_int pow e t items id = Done (t', ev) -> fine (t', ev).
Proof.
  intros Hok. unfold tick. destruct (handleIncoming pow_int pow e t items) as [[t1 ev1]|] eqn:E1; [|done]. cbn [mbind access_bind].
  destruct (incoming_fine e items t t1 ev1 Hok E1) as [Hok1 Hev1]. cbn [fst snd] in *. cbv zeta.
  match goal with |- context [let '(t, ev2) := ?x in _] => assert (Hx : fine x); [|destruct x as [t2 ev2]] end.
  { case_match; [|by apply fine_nil]. case_match. subst. assert (Hm : fine (p, l)).
    { match goal with Hp : _ = (p, l) |- _ => rewrite <- Hp end. case_match; [by apply manage_fine|by apply fine_nil]. }
    destruct Hm as [[] Hm]. split; [by constructor|done]. }
  destruct Hx as [Hok2 Hev2]. cbn [fst snd] in *.
  match goal with |- context [let '(t, ev3) := ?x in _] => assert (Hx : fine x); [|destruct x as [t3 ev3]] end.
  { case_match; [|by apply fine_nil]. pose proof (autoWash_fine e t2 Hok2) as Hw. destruct (autoWash e t2) as [t3 ev3]. destruct Hw as [[] Hw]. split; [by constructor|done]. }
  destruct Hx as [Hok3 Hev3]. cbn [fst snd] in *. intros [= <- <-].
  split; [|cbn [snd]; by rewrite !Forall_app]. cbn [fst]. case_match; [|done]. by destruct (estimate_ok t3 Hok3).
Qed.

Lemma rate_ok t v : turtle_ok t -> turtle_ok (setMaxTRForwardRate t v).
Proof.
  intros Hok. unfold setMaxTRForwardRate. case_match eqn:E; [done|]. apply orb_false_iff in E as [E1%Z.ltb_ge E2%Z.ltb_ge].
  destruct Hok. constructor; try done. by exists v.
Qed.

Lemma load_ok pairs : forall t, turtle_ok t -> turtle_ok (loadList t pairs).
Proof.
  induction pairs as [|kv pairs IH]; intros t Hok; [done|]. apply IH. unfold load_pair.
  repeat case_match; try apply ok_enabled; by first [apply rate_ok|exact Hok].
Qed.

Lemma monitor_ok t hash s b r : turtle_ok t -> turtle_ok (monitorTunnels t hash s b r).
Proof.
  intros Hok. unfold monitorTunnels. cbv zeta. cbn [_incoming_file_hashes upd].
  destruct (_incoming_file_hashes t !! hash); [by destruct Hok|]. apply ok_set_hash; [by destruct Hok|done|]. split; [done|constructor].
Qed.

Lemma redigg_fine e t hash id : turtle_ok t -> fine (forceReDiggTunnels pow_int pow e t hash id).
Proof.
  intros Hok. unfold forceReDiggTunnels. destruct (_incoming_file_hashes t !! hash) as [h|] eqn:Eh; [by apply digg_fine with h|by apply fine_nil].
Qed.

Lemma step_fine t o t' ev : turtle_ok t -> turtle_step t o = Done (t', ev) -> fine (t', ev).
Proof.
  intros Hok. destruct o as [e items id|e q id|e vp item|hash s b r|hash|e hash id|s|b|b|v|pairs]; cbn [turtle_step];
    [by apply tick_fine|by apply search_fine|..]; intros [= E]; subst.
  - rewrite <- E. by apply send_fine.
  - by apply fine_nil, monitor_ok.
  - apply fine_nil. by destruct Hok.
  - rewrite <- E. by apply redigg_fine.
  - apply fine_nil. by destruct Hok.
  - apply fine_nil. by destruct Hok.
  - apply fine_nil. by destruct Hok.
  - by apply fine_nil, rate_ok.
  - by apply fine_nil, load_ok.
Qed.

Lemma run_fine l : forall t t' ev, turtle_ok t -> turtle_run t l = Done (t', ev) -> fine (t', ev).
Proof.
  induction l as [|o l IH]; intros t t' ev Hok; cbn [turtle_run]; [intros [= <- <-]; by apply fine_nil|].
  destruct (turtle_step t o) as [[t1 ev1]|] eqn:E1; [|done]. cbn [mbind access_bind].
  destruct (step_fine t o t1 ev1 Hok E1) as [Hok1 Hev1]. cbn [fst snd] in *.
  destruct (turtle_run t1 l) as [[t2 ev2]|] eqn:E2; [|done]. cbn [mbind access_bind]. intros [= <- <-].
  destruct (IH t1 t2 ev2 Hok1 E2) as [Hok2 Hev2]. split; [done|by apply Forall_app].
Qed.

Lemma new_ok own bias : turtle_ok (new_p3turtle own bias).
Proof.
  constructor; [cbn [_search_requests_origins new_p3turtle]; rewrite map_size_empty; lia|apply map_Forall_empty..|].
  exists MAX_TR_FORWARD_PER_SEC. split; [|done]. unfold MAX_TR_FORWARD_PER_SEC_LOWER_LIMIT, MAX_TR_FORWARD_PER_SEC, MAX_TR_FORWARD_PER_SEC_UPPER_LIMIT. lia.
Qed.

Lemma rate_read v : 10 <= v <= 100 -> Z_of_float (f32_of_Z v) = v.
Proof.
  intros Hv. assert (Hall : forallb (fun v => Z_of_float (f32_of_Z v) =? v) (seqZ 10 91) = true) by (by vm_compute).
  rewrite forallb_forall in Hall. apply Z.eqb_eq, Hall, list_elem_of_In, elem_of_seqZ. lia.
Qed.

(** C31 The states of a router.  Whatever items, friends, times and random numbers a router meets, and whatever the rest of the program asks
    of it: at most 121 searches are remembered; a virtual peer's id is that of its tunnel; a hash that is monitored has a service and
    lists a tunnel once; the rate limit stays within 10 and 100; and no call goes to a service through a null pointer. *)
Theorem router_states own bias l t ev : turtle_run (new_p3turtle own bias) l = Done (t, ev) ->
  (size (_search_requests_origins t) <= 121)%nat /\
  (forall vp tid, _virtual_peers t !! vp = Some tid -> vp = virtual_peer_id tid) /\
  (forall hash h, _incoming_file_hashes t !! hash = Some h -> service h <> None /\ NoDup (tunnels h)) /\
  (forall tid tn, _local_tunnels t !! tid = Some tn -> vpid tn = 0 \/ vpid tn = virtual_peer_id tid) /\
  10 <= getMaxTRForwardRate t <= 100 /\ Forall call_ok ev.
Proof.
  intros E. destruct (run_fine l _ _ _ (new_ok own bias) E) as [[Hc Hv Hh Ht (v & Hr & Ev)] Hev]. assert (Hv10 : 10 <= v <= 100) by exact Hr.
  split_and!; try done; unfold getMaxTRForwardRate; cbn [fst] in Ev; rewrite Ev, rate_read; lia.
Qed.

(** ** Hits that are passed back *)

Definition hits_in (h : search_hits) : Z := match h with FTSearchResult l => Z.of_nat (length l) | GenericSearchResult _ => 0 end.

(** The hits of the results for a request that are sent on. *)
Definition hits_sent (rid : Z) (ev : list (turtle_event C)) : Z :=
  foldr (fun e n => n + match e with SendItem (SearchResult r) => if sr_request_id r =? rid then hits_in (sr_hits r) else 0 | _ => 0 end) 0 ev.

(** Items handled one after the other, each with what the router gets at that time. *)
Fixpoint handle_all (t : p3turtle C) (l : list (turtle_env * turtle_item)) : access (p3turtle C * list (turtle_event C)) :=
  match l with
  | [] => Done (t, [])
  | (e, i) :: l =>
      '(t, ev) ← handleItem pow_int pow e t i;
      '(t, ev') ← handle_all t l;
      Done (t, ev ++ ev')
  end.

Lemma hits_app rid ev ev' : hits_sent rid (ev ++ ev') = hits_sent rid ev + hits_sent rid ev'.
Proof. unfold hits_sent. induction ev as [|e ev IH]; cbn [app foldr]; lia. Qed.

Lemma hits_none rid (ev : list (turtle_event C)) :
  Forall (fun e => match e with SendItem (SearchResult r) => sr_request_id r <> rid | _ => True end) ev -> hits_sent rid ev = 0.
Proof.
  unfold hits_sent. induction 1 as [|e ev He _ IH]; [done|]. cbn [foldr]. rewrite IH. destruct e as [[| r | | |]| | | |]; try done.
  by destruct (Z.eqb_spec (sr_request_id r) rid).
Qed.

Lemma pop_hits n h : hits_in (Nat.iter n pop h) = match h with FTSearchResult _ => Z.max 0 (hits_in h - Z.of_nat n) | _ => 0 end.
Proof.
  assert (Hk : match h with FTSearchResult l => exists l', Nat.iter n pop h = FTSearchResult l' /\ length l' = (length l - n)%nat
    | _ => Nat.iter n pop h = h end).
  { induction n as [|n IH]; destruct h as [l|d]; cbn [Nat.iter nat_rect]; [exists l; split; [done|lia]|done|..].
    - destruct IH as (l' & E & El). change (nat_rect _ _ _ n) with (Nat.iter n pop (FTSearchResult l)). rewrite E. cbn. eexists. split; [done|]. rewrite length_take. lia.
    - change (nat_rect _ _ _ n) with (Nat.iter n pop (GenericSearchResult d)). by rewrite IH. }
  destruct h as [l|d]; [|by rewrite Hk]. destruct Hk as (l' & -> & El). cbn. lia.
Qed.

(** What may still be sent for a request. *)
Definition hits_left (rid : Z) (t : p3turtle C) : Z :=
  match _search_requests_origins t !! rid with
  | None => TURTLE_SEARCH_RESULT_MAX_HITS_FILES
  | Some req => if si_origin req =? _own_id t then 0 else Z.max 0 (si_max_allowed_hits req - si_result_count req)
  end.

Definition counts_ok (rid : Z) (t : p3turtle C) : Prop :=
  match _search_requests_origins t !! rid with
  | None => True
  | Some req => 0 <= si_result_count req /\ si_max_allowed_hits req <= TURTLE_SEARCH_RESULT_MAX_HITS_FILES
  end.

Definition sum_hits (l : list search_hits) : Z := foldr (fun h n => n + hits_in h) 0 l.

Lemma chop_sum l : forall count cur items n, 0 <= count < TURTLE_SEARCH_RESULT_MAX_HITS_FILES -> chop_results l count cur = (items, n) ->
  count <= n <= TURTLE_SEARCH_RESULT_MAX_HITS_FILES /\
  sum_hits (FTSearchResult <$> items) = n - count + match cur with Some (c, _) => Z.of_nat (length c) | None => 0 end.
Proof.
  unfold TURTLE_SEARCH_RESULT_MAX_HITS_FILES. induction l as [|f l IH]; intros count cur items n Hc; cbn [chop_results].
  - intros [= <- <-]. split; [lia|]. destruct cur as [[c k]|]; cbn; lia.
  - destruct (default ([], 0) cur) as [c item_size] eqn:Ecur. assert (Ec : Z.of_nat (length c) = match cur with Some (c, _) => Z.of_nat (length c) | None => 0 end)
      by (destruct cur as [[c' k]|]; cbn in Ecur; by injection Ecur as <- <-).
    cbv zeta. rewrite (wrap_small 32 (count + 1)) by (unfold is_word; lia). 
    destruct (Z.leb_spec TURTLE_SEARCH_RESULT_MAX_HITS_FILES (count + 1)) as [E1|E1]; unfold TURTLE_SEARCH_RESULT_MAX_HITS_FILES in E1;
      [|destruct (RSTURTLE_MAX_SEARCH_RESPONSE_SIZE <? _)].
    + intros [= <- <-]. split; [lia|]. cbn. rewrite length_app. cbn. lia.
    + destruct (chop_results l (count + 1) None) as [items' n'] eqn:Er. intros [= <- <-]. destruct (IH (count + 1) None items' n' ltac:(lia) Er) as [H1 H2].
      split; [lia|]. cbn [fmap list_fmap sum_hits foldr hits_in]. change (foldr _ 0 _) with (sum_hits (FTSearchResult <$> items')). rewrite H2, length_app. cbn. lia.
    + intros Er. destruct (IH (count + 1) _ items n ltac:(lia) Er) as [H1 H2]. split; [lia|]. rewrite H2, length_app. cbn. lia.
Qed.

Lemma hits_of_results rid from (l : list search_hits) rest :
  hits_sent rid (((fun h => SendItem (SearchResult (mk_search_result from rid h))) <$> l) ++ rest) = sum_hits l + hits_sent rid rest.
Proof.
  unfold hits_sent, sum_hits. induction l as [|h l IH]; cbn [fmap list_fmap app foldr]; [lia|]. rewrite IH. cbn [sr_request_id sr_hits]. rewrite Z.eqb_refl. lia.
Qed.

(** A bound on what generic services allow, and on the results that arrive. *)
Definition modest_services : Prop := forall s d, (client_receiveSearchRequest s d TURTLE_SEARCH_RESULT_MAX_HITS_DEFAULT).2 <= TURTLE_SEARCH_RESULT_MAX_HITS_FILES.
Definition modest_item (i : turtle_item) : Prop := match i with SearchResult r => hits_in (sr_hits r) < 2 ^ 31 | _ => True end.

Lemma local_search_hits e t item r n m : modest_services -> performLocalSearch e t item = Done (r, n, m) ->
  sum_hits r = n /\ 0 <= n <= TURTLE_SEARCH_RESULT_MAX_HITS_FILES /\ m <= TURTLE_SEARCH_RESULT_MAX_HITS_FILES /\
  (m = TURTLE_SEARCH_RESULT_MAX_HITS_FILES \/ n = 0).
Proof.
  intros Hm. unfold performLocalSearch, performLocalSearch_files. assert (Hf : forall l : list TurtleFileInfo,
    (let '(items, c) := chop_results l 0 None in Done (FTSearchResult <$> items, c, TURTLE_SEARCH_RESULT_MAX_HITS_FILES)) = Done (r, n, m) ->
    sum_hits r = n /\ 0 <= n <= TURTLE_SEARCH_RESULT_MAX_HITS_FILES /\ m <= TURTLE_SEARCH_RESULT_MAX_HITS_FILES /\
    (m = TURTLE_SEARCH_RESULT_MAX_HITS_FILES \/ n = 0)).
  { intros l. destruct (chop_results l 0 None) as [items c] eqn:Ec. intros [= <- <- <-].
    destruct (chop_sum l 0 None items c ltac:(unfold TURTLE_SEARCH_RESULT_MAX_HITS_FILES; lia) Ec) as [H1 H2]. split_and!; try lia. }
  destruct (sq_query item) as [w|x|sid k d].
  - apply Hf.
  - destruct (file_search _ _ _) as [l|]; [apply Hf|done].
  - unfold performLocalSearch_generic. intros [= E]. revert E. case_match.
    + specialize (Hm c d). destruct (client_receiveSearchRequest c d _) as [a k']. intros [= <- <- <-]. split_and!; [by destruct a|unfold TURTLE_SEARCH_RESULT_MAX_HITS_FILES; lia..|exact Hm|by right].
    + intros [= <- <- <-]. unfold TURTLE_SEARCH_RESULT_MAX_HITS_FILES, TURTLE_SEARCH_RESULT_MAX_HITS_DEFAULT. split_and!; [done|lia..|by right].
Qed.

Lemma forward_search_hits e t item fwd rid : forward_search e t item = Done fwd -> hits_sent rid fwd = 0.
Proof. intros Ef. destruct (forward_search_sends e t item fwd Ef) as (f & l & ->). apply hits_none. by apply Forall_fmap, Forall_true. Qed.

(** One step spends at most what it takes from [hits_left]. *)
Definition spends (rid : Z) (t : p3turtle C) (r : p3turtle C * list (turtle_event C)) : Prop :=
  counts_ok rid r.1 /\ 0 <= hits_sent rid r.2 /\ hits_sent rid r.2 + hits_left rid r.1 <= hits_left rid t.

Lemma hits_left_nonneg rid t : 0 <= hits_left rid t.
Proof. unfold hits_left, TURTLE_SEARCH_RESULT_MAX_HITS_FILES. repeat case_match; lia. Qed.

Lemma spends_none rid t t' (ev : list (turtle_event C)) : counts_ok rid t -> _search_requests_origins t' = _search_requests_origins t ->
  _own_id t' = _own_id t -> hits_sent rid ev = 0 -> spends rid t (t', ev).
Proof. intros Hc Es Eo Eh. unfold spends, counts_ok, hits_left in *. cbn [fst snd]. rewrite Es, Eo, Eh. split; [done|lia]. Qed.

Lemma search_spends rid e t item t' ev : modest_services -> counts_ok rid t -> handleSearchRequest e t item = Done (t', ev) -> spends rid t (t', ev).
Proof.
  intros Hm Hc. unfold handleSearchRequest. case_match; [intros [= <- <-]; by apply spends_none|]. case_match; [intros [= <- <-]; by apply spends_none|].
  destruct (_search_requests_origins t !! sq_request_id item) as [|] eqn:E; [intros [= <- <-]; by apply spends_none|].
  match goal with |- context [mbind _ ?x] => destruct x as [[[r n] m]|] eqn:El end; [|done]. cbn [mbind access_bind].
  assert (Hl : sum_hits r = n /\ 0 <= n <= TURTLE_SEARCH_RESULT_MAX_HITS_FILES /\ m <= TURTLE_SEARCH_RESULT_MAX_HITS_FILES /\ (m = TURTLE_SEARCH_RESULT_MAX_HITS_FILES \/ n = 0)).
  { revert El. case_match; [by apply local_search_hits|]. intros [= <- <- <-]. unfold TURTLE_SEARCH_RESULT_MAX_HITS_FILES, TURTLE_SEARCH_RESULT_MAX_HITS_DEFAULT.
    split_and!; [done|lia..|by right]. }
  clear El. destruct Hl as (Hs & Hn & Hm' & Ho). destruct (query_GetKeywords _) as [kw|]; [|done]. cbn [mbind access_bind].
  assert (Hgoal : forall rest, hits_sent rid rest = 0 -> spends rid t
    (t <| _search_requests_origins := <[sq_request_id item := mk_TurtleSearchRequestInfo (sq_PeerId item) (u32 (now e)) (sq_depth item) n kw
            (query_serviceId (sq_query item)) m]> (_search_requests_origins t) |>,
     ((fun h => SendItem (SearchResult (mk_search_result (sq_PeerId item) (sq_request_id item) h))) <$> r) ++ rest)).
  { intros rest Hrest. unfold spends, counts_ok, hits_left in *. cbn [fst snd _search_requests_origins _own_id upd]. rewrite lookup_insert. destruct (decide (sq_request_id item = rid)) as [<-|Hne].
    - rewrite hits_of_results, Hs, Hrest, E. cbn [si_result_count si_max_allowed_hits si_origin]. unfold TURTLE_SEARCH_RESULT_MAX_HITS_FILES in *. destruct (sq_PeerId item =? _own_id t); lia.
    - split; [done|]. rewrite hits_app, Hrest, hits_none; [lia|]. by apply Forall_fmap, Forall_true. }
  destruct (m <=? n).
  - intros [= <- <-]. specialize (Hgoal [] eq_refl). by rewrite app_nil_r in Hgoal.
  - match goal with |- context [forward_search e ?u item] => destruct (forward_search e u item) as [fwd|] eqn:Ef; [|done] end. cbn [mbind access_bind]. intros [= <- <-]. apply Hgoal. by eapply forward_search_hits.
Qed.

Lemma result_spends rid e t item t' ev : counts_ok rid t -> hits_in (sr_hits item) < 2 ^ 31 -> handleSearchResult e t item = Done (t', ev) -> spends rid t (t', ev).
Proof.
  intros Hc Hsmall. pose proof Hc as Hc0. unfold handleSearchResult. destruct (filter_banned e (sr_hits item)) as [hits|] eqn:Ef; [|intros [= <- <-]; by apply spends_none]. cbv zeta. cbn [sr_request_id upd].
  assert (Hh : 0 <= hits_in hits < 2 ^ 31 /\ match hits with FTSearchResult l => count hits = hits_in hits | _ => 0 <= count hits < 2 ^ 31 end).
  { unfold filter_banned in Ef. destruct (sr_hits item) as [l|d].
    - pose proof (length_filter (fun f => isHashBanned e (fi_hash f) = false) l) as Hl. cbn in Hsmall.
      destruct (filter _ l) as [|f l'] eqn:El; [done|]. injection Ef as <-. cbn [hits_in count]. rewrite wrap_small by (unfold is_word; lia). lia.
    - injection Ef as <-. split; [cbn; lia|]. cbn [count].
      pose proof (Z.mod_pos_bound (Z.of_nat (length d)) (2 ^ 32) ltac:(lia)). unfold wrap. split; [apply Z.div_pos|apply Z.div_lt_upper_bound]; lia. }
  destruct Hh as [Hh Hcount].
  destruct (_search_requests_origins t !! sr_request_id item) as [req|] eqn:E; [|intros [= <- <-]; by apply spends_none]. destruct (_ <? now e); [intros [= <- <-]; by apply spends_none|].
  assert (Hset : forall n evs, (sr_request_id item <> rid -> hits_sent rid evs = 0) -> 0 <= hits_sent rid evs ->
    (sr_request_id item = rid -> 0 <= n /\ hits_sent rid evs + (if si_origin req =? _own_id t then 0 else Z.max 0 (si_max_allowed_hits req - n))
       <= if si_origin req =? _own_id t then 0 else Z.max 0 (si_max_allowed_hits req - si_result_count req)) ->
    spends rid t (t <| _search_requests_origins := <[sr_request_id item := req <| si_result_count := n |>]> (_search_requests_origins t) |>, evs)).
  { intros n evs Hne Hev Heq. unfold spends, counts_ok, hits_left in *. cbn [fst snd _search_requests_origins _own_id upd]. rewrite lookup_insert.
    destruct (decide (sr_request_id item = rid)) as [<-|Hd]; [|rewrite (Hne Hd); split; [done|lia]]. rewrite E in *.
    cbn [si_result_count si_max_allowed_hits si_origin upd]. destruct Hc, (Heq eq_refl). split_and!; lia. }
  destruct (si_origin req =? _own_id t) eqn:Eown; try rewrite Eown in Hset.
  - assert (Hz : forall s : option C, hits_sent rid (match s with Some s => notify_result s (item <| sr_hits := hits |>) | None => [] end) = 0).
    { intros [s|]; [|done]. apply hits_none. unfold notify_result. repeat case_match; repeat constructor. }
    intros [= <- <-]. apply Hset; rewrite ?Hz; try lia. intros _. split; [apply Z.mod_pos_bound; lia|lia].
  - destruct (Z.leb_spec (si_max_allowed_hits req) (si_result_count req)) as [|Hlt]; [intros [= <- <-]; by apply spends_none|].
    match goal with |- context [let '(hits, n) := ?x in _] => destruct x as [hits' n] eqn:Ex end.
    destruct (duplicate hits') as [h|] eqn:Edup; [|done]. cbn [mbind access_bind]. intros [= <- <-]. assert (h = hits') as -> by (destruct hits' as [|[|]]; cbn in Edup; congruence).
    assert (Hsent : forall j, hits_sent rid [SendItem (SearchResult (j <| sr_hits := hits' |> <| sr_PeerId := si_origin req |>))]
      = if sr_request_id j =? rid then hits_in hits' else 0) by (intros j; unfold hits_sent; cbn; by case_match).
    assert (Hpos : 0 <= hits_in hits') by (destruct hits'; cbn; lia).
    apply Hset; rewrite Hsent; cbn [sr_request_id upd]; [intros Hne; by destruct (Z.eqb_spec (sr_request_id item) rid)|destruct (sr_request_id item =? rid); lia|].
    intros <-. rewrite Z.eqb_refl. unfold counts_ok in Hc0. rewrite E in Hc0. destruct Hc0 as [Hc1 Hc2]. unfold TURTLE_SEARCH_RESULT_MAX_HITS_FILES in Hc2.
    destruct hits as [l|d].
    + rewrite Hcount in Ex. rewrite (wrap_small 32) in Ex by (unfold is_word; lia).
      destruct (Z.ltb_spec (si_max_allowed_hits req) (si_result_count req + hits_in (FTSearchResult l))); injection Ex as <- <-; [rewrite pop_hits; cbv iota|]; cbn [hits_in] in *; lia.
    + rewrite (wrap_small 32) in Ex by (unfold is_word; lia).
      assert (Hz : hits_in hits' = 0) by (destruct (_ <? _); injection Ex as <- <-; [by rewrite pop_hits|done]). rewrite Hz.
      destruct (Z.ltb_spec (si_max_allowed_hits req) (si_result_count req + count (GenericSearchResult d))); injection Ex as <- <-; cbn [count] in *; lia.
Qed.

(** *** The other items leave searches alone *)

Definition no_result (ev : turtle_event C) : Prop := match ev with SendItem (SearchResult _) => False | _ => True end.

Definition quiet (t : p3turtle C) (r : p3turtle C * list (turtle_event C)) : Prop :=
  _search_requests_origins r.1 = _search_requests_origins t /\ _own_id r.1 = _own_id t /\ Forall no_result r.2.

Lemma quiet_spends rid t r : counts_ok rid t -> quiet t r -> spends rid t r.
Proof.
  intros Hc (Es & Eo & Hf). destruct r as [t' ev]. apply spends_none; [done..|]. apply hits_none. eapply Forall_impl; [exact Hf|].
  intros [[]| | | |]; done.
Qed.

Lemma recv_quiet t item : Forall no_result (handleRecvGenericTunnelItem t item).
Proof. unfold handleRecvGenericTunnelItem. repeat case_match; repeat constructor. Qed.

Lemma route_quiet e t item : quiet t (routeGenericTunnelItem e t item).
Proof.
  unfold routeGenericTunnelItem, quiet. destruct (_local_tunnels t !! gt_tunnel_id item); [|by repeat constructor]. cbv zeta.
  repeat case_match; (split; [reflexivity|split; [reflexivity|]]); cbn [snd]; first [apply recv_quiet|by repeat constructor].
Qed.

Lemma sends_quiet {A} (f : A -> RsTurtleOpenTunnelItem) (l : list A) : Forall no_result ((fun x => SendItem (OpenTunnel (f x))) <$> l).
Proof. by apply Forall_fmap, Forall_true. Qed.

Lemma request_quiet e t item : quiet t (handleTunnelRequest pow_int pow e t item).
Proof.
  unfold handleTunnelRequest. cbv zeta. destruct (isHashBanned e (ot_file_hash item)); [by repeat constructor|]. cbn [_tunnel_requests_origins upd].
  destruct (_tunnel_requests_origins t !! ot_request_id item); [by repeat constructor|].
  match goal with |- context [match ?x with Some s => _ | None => _ end] => destruct x as [s|] end; [by repeat constructor|].
  unfold forward_tunnel_request. cbv zeta. destruct (_ || _); [|by repeat constructor]. split; [reflexivity|split; [reflexivity|apply sends_quiet]].
Qed.

Lemma match_quiet rid tid (l : list (Z * TurtleHashInfo C)) : forall st, let r := match_hashes rid tid l st in
  _search_requests_origins r.1 = _search_requests_origins st.1 /\ _own_id r.1 = _own_id st.1.
Proof.
  induction l as [|x l IH]; intros st; [done|]. unfold match_hashes in *. cbn [foldl].
  destruct (last_request x.2 =? rid); [|by apply IH]. by destruct (IH (start_tunnel st.1 x.1 x.2 tid, Some (x.1, service x.2))) as [-> ->].
Qed.

Lemma ok_quiet e t item : quiet t (handleTunnelResult e t item).
Proof.
  unfold handleTunnelResult. destruct (_tunnel_requests_origins t !! ok_request_id item) as [req|]; [|by repeat constructor].
  case_bool_decide; [by repeat constructor|]. cbv zeta.
  match goal with |- context [match ?x with Some _ => ?a | None => ?b end] => set (u := match x with Some _ => a | None => b end) end.
  assert (Hu : _search_requests_origins u = _search_requests_origins t /\ _own_id u = _own_id t) by (unfold u; by case_match). clearbody u. destruct Hu as [Hu1 Hu2].
  destruct (_ <? now e); [by repeat constructor|]. destruct (_ =? _own_id u); [|by repeat constructor].
  destruct (match_quiet (ok_request_id item) (ok_tunnel_id item) (in_order (_incoming_file_hashes u)) (u, None)) as [H1 H2].
  destruct (match_hashes _ _ _ _) as [t2 found]. cbn [fst snd] in *. split; [cbn; congruence|]. split; [cbn; congruence|].
  cbn [snd]. repeat case_match; repeat constructor.
Qed.

Lemma item_spends rid e t i t' ev : modest_services -> modest_item i -> counts_ok rid t ->
  handleItem pow_int pow e t i = Done (t', ev) -> spends rid t (t', ev).
Proof.
  intros Hm Hi Hc. unfold handleItem. destruct (negb _); [intros [= <- <-]; by apply spends_none|].
  destruct i as [i|i|i|i|i]; [by apply search_spends|by apply result_spends|intros [= E]; rewrite <- E..]; (apply quiet_spends; [done|]);
    [apply request_quiet|apply ok_quiet|apply route_quiet].
Qed.

Lemma all_spend rid l : modest_services -> Forall (fun x => modest_item x.2) l -> forall t t' ev, counts_ok rid t ->
  handle_all t l = Done (t', ev) -> spends rid t (t', ev).
Proof.
  intros Hm. induction 1 as [|[e i] l Hi _ IH]; intros t t' ev Hc; cbn [handle_all]; [intros [= <- <-]; by apply spends_none|].
  destruct (handleItem pow_int pow e t i) as [[t1 ev1]|] eqn:E1; [|done]. cbn [mbind access_bind].
  destruct (item_spends rid e t i t1 ev1 Hm Hi Hc E1) as (Hc1 & H1 & H1'). cbn [fst snd] in *.
  destruct (handle_all t1 l) as [[t2 ev2]|] eqn:E2; [|done]. cbn [mbind access_bind]. intros [= <- <-].
  destruct (IH t1 t2 ev2 Hc1 E2) as (Hc2 & H2 & H2'). split; [done|]. cbn [fst snd] in *. rewrite hits_app. lia.
Qed.

(** C32 Hits that are passed back are bounded.  However many results arrive for a search, from however many friends and whenever: as long as
    the node remembers the search, what it sends back to where the search came from - its own results and those of
    others - holds at most 5000 files.  (Provided that no generic service allows itself more hits than that, and that a
    result holds fewer than 2^31 files, which the size of packets ensures.) *)
Theorem hits_sent_bounded rid l t t' ev : modest_services -> Forall (fun x => modest_item x.2) l ->
  _search_requests_origins t !! rid = None -> handle_all t l = Done (t', ev) -> 0 <= hits_sent rid ev <= 5000.
Proof.
  intros Hm Hl En E. destruct (all_spend rid l Hm Hl t t' ev) as (_ & H1 & H2); [by unfold counts_ok; rewrite En|done|]. cbn [fst snd] in *.
  pose proof (hits_left_nonneg rid t'). unfold hits_left at 2 in H2. rewrite En in H2. unfold TURTLE_SEARCH_RESULT_MAX_HITS_FILES in H2. lia.
Qed.

(** ** Requests for tunnels are passed on once *)

(** The copies of a request that go to a friend. *)
Definition is_copy (rid peer : Z) (ev : turtle_event C) : bool :=
  match ev with SendItem (OpenTunnel j) => (ot_request_id j =? rid) && (ot_PeerId j =? peer) | _ => false end.

Definition copies (rid peer : Z) (ev : list (turtle_event C)) : nat := length (filter (fun e => is_copy rid peer e = true) ev).

Lemma copies_app rid peer ev ev' : copies rid peer (ev ++ ev') = (copies rid peer ev + copies rid peer ev')%nat.
Proof. unfold copies. by rewrite filter_app, length_app. Qed.

Lemma copies_none rid peer (ev : list (turtle_event C)) : Forall (fun e => is_copy rid peer e = false) ev -> copies rid peer ev = 0%nat.
Proof. unfold copies. induction 1 as [|e ev He _ IH]; [done|]. rewrite filter_cons_False by congruence. done. Qed.

Lemma chosen_sublist e from p l : forall i, chosen_peers e from p l i `sublist_of` l.
Proof. induction l as [|x l IH]; intros i; cbn [chosen_peers]; [done|]. repeat case_match; (apply sublist_skip || apply sublist_cons); apply IH. Qed.

Lemma copies_peers rid peer (f : Z -> RsTurtleOpenTunnelItem) l : NoDup l -> (forall x, ot_PeerId (f x) = x) ->
  (copies rid peer ((fun x => SendItem (OpenTunnel (f x))) <$> l) <= 1)%nat.
Proof.
  intros Hn Hf. induction Hn as [|x l Hx Hn IH]; cbn [fmap list_fmap]; [cbn; lia|].
  destruct (decide (is_copy rid peer (SendItem (OpenTunnel (f x))) = true)) as [Hc|Hc]; unfold copies in *.
  - rewrite filter_cons_True by done. cbn [length]. apply le_n_S. fold (copies rid peer ((fun x => SendItem (OpenTunnel (f x))) <$> l)).
    rewrite copies_none; [done|]. apply Forall_fmap, Forall_forall. intros y Hy. cbn in *. rewrite Hf in *. apply andb_true_iff in Hc as [_ Hc%Z.eqb_eq].
    apply andb_false_iff. right. apply Z.eqb_neq. congruence.
  - rewrite filter_cons_False by done. exact IH.
Qed.

Definition knows (rid : Z) (t : p3turtle C) : Prop := is_Some (_tunnel_requests_origins t !! rid).

(** A step keeps what is known, sends nothing for a known request, and one copy of a request that it then knows. *)
Definition passes (rid peer : Z) (t : p3turtle C) (r : p3turtle C * list (turtle_event C)) : Prop :=
  (knows rid t -> knows rid r.1 /\ copies rid peer r.2 = 0%nat) /\
  (copies rid peer r.2 <= 1)%nat /\ ((0 < copies rid peer r.2)%nat -> knows rid r.1).

Lemma passes_none rid peer t t' (ev : list (turtle_event C)) : (knows rid t -> knows rid t') -> Forall (fun e => is_copy rid peer e = false) ev -> passes rid peer t (t', ev).
Proof. intros Hk Hf. apply copies_none in Hf. unfold passes. cbn [fst snd]. rewrite Hf. split_and!; [auto|lia..]. Qed.

Lemma insert_knows rid k req (t : p3turtle C) : knows rid t -> is_Some (<[k := req]> (_tunnel_requests_origins t) !! rid).
Proof. unfold knows. rewrite lookup_insert. case_decide; eauto. Qed.

Lemma request_passes rid peer e t item : NoDup (onlineIds e) -> passes rid peer t (handleTunnelRequest pow_int pow e t item).
Proof.
  intros Hn. unfold handleTunnelRequest. cbv zeta. destruct (isHashBanned e (ot_file_hash item)); [by apply passes_none|]. cbn [_tunnel_requests_origins upd].
  destruct (_tunnel_requests_origins t !! ot_request_id item) as [req|] eqn:E; [by apply passes_none|].
  match goal with |- context [match ?x with Some s => _ | None => _ end] => destruct x as [s|] end.
  - apply passes_none; [apply insert_knows|by repeat constructor].
  - unfold forward_tunnel_request. cbv zeta. destruct (_ || _); [|apply passes_none; [apply insert_knows|constructor]].
    match goal with |- context [chosen_peers ?e ?f ?p ?l ?i] => pose proof (chosen_sublist e f p l i) as Hs; revert Hs; generalize (chosen_peers e f p l i) end.
    intros peers Hs%(sublist_NoDup _ _); [|done]. unfold passes, knows. cbn [fst snd _tunnel_requests_origins upd].
    match goal with |- context [copies rid peer ((fun x => SendItem (OpenTunnel (@?f x))) <$> peers)] => pose proof (copies_peers rid peer f peers Hs ltac:(done)) as Hc;
      assert (Hz : ot_request_id item <> rid -> copies rid peer ((fun x => SendItem (OpenTunnel (f x))) <$> peers) = 0%nat) end.
    { intros Hne. apply copies_none, Forall_fmap, Forall_true. intros x. cbn. by rewrite (proj2 (Z.eqb_neq _ _) Hne). }
    rewrite lookup_insert. destruct (decide (ot_request_id item = rid)) as [<-|Hne]; [|specialize (Hz Hne)].
    + split_and!; [|exact Hc|by eexists]. rewrite E. by intros [].
    + split_and!; [done|exact Hc|lia].
Qed.

Lemma match_knows rid k tid (l : list (Z * TurtleHashInfo C)) : forall st, _tunnel_requests_origins (match_hashes k tid l st).1 !! rid = _tunnel_requests_origins st.1 !! rid.
Proof. unfold match_hashes. induction l as [|x l IH]; intros st; [done|]. cbn [foldl]. rewrite IH. by case_match. Qed.

Lemma ok_passes rid peer e t item : passes rid peer t (handleTunnelResult e t item).
Proof.
  unfold handleTunnelResult. destruct (_tunnel_requests_origins t !! ok_request_id item) as [req|]; [|by apply passes_none].
  case_bool_decide; [by apply passes_none|]. cbv zeta.
  match goal with |- context [match ?x with Some _ => ?a | None => ?b end] => set (u := match x with Some _ => a | None => b end) end.
  assert (Hu : knows rid t -> knows rid u) by (intros Hk; unfold u, knows; case_match; cbn [_tunnel_requests_origins set_tunnel upd]; by apply insert_knows). clearbody u.
  destruct (_ <? now e); [by apply passes_none|]. destruct (_ =? _own_id u); [|apply passes_none; [done|by repeat constructor]].
  pose proof (match_knows rid (ok_request_id item) (ok_tunnel_id item) (in_order (_incoming_file_hashes u)) (u, None)) as Hm.
  destruct (match_hashes _ _ _ _) as [t2 found]. cbn [fst snd] in *. apply passes_none; [unfold knows; by rewrite Hm|]. repeat case_match; by repeat constructor.
Qed.

Lemma route_passes rid peer e t item : passes rid peer t (routeGenericTunnelItem e t item).
Proof.
  unfold routeGenericTunnelItem. destruct (_local_tunnels t !! gt_tunnel_id item); [|by apply passes_none]. cbv zeta.
  repeat case_match; (apply passes_none; [exact id|]); try (by repeat constructor); unfold handleRecvGenericTunnelItem; repeat case_match; by repeat constructor.
Qed.

Lemma result_passes rid peer e t item t' ev : handleSearchResult e t item = Done (t', ev) -> passes rid peer t (t', ev).
Proof.
  unfold handleSearchResult. destruct (filter_banned _ _) as [hits|]; [|intros [= <- <-]; by apply passes_none]. cbv zeta.
  destruct (_search_requests_origins t !! _) as [req|]; [|intros [= <- <-]; by apply passes_none].
  destruct (_ <? now e); [intros [= <- <-]; by apply passes_none|].
  destruct (_ =? _own_id t); [intros [= <- <-]; apply passes_none; [exact id|]; unfold notify_result; repeat case_match; by repeat constructor|].
  destruct (_ <=? _); [intros [= <- <-]; by apply passes_none|]. case_match. destruct (duplicate _) as [h|]; [|done]. cbn [mbind access_bind].
  intros [= <- <-]. apply passes_none; [exact id|by repeat constructor].
Qed.

Lemma search_passes rid peer e t item t' ev : handleSearchRequest e t item = Done (t', ev) -> passes rid peer t (t', ev).
Proof.
  unfold handleSearchRequest. destruct (_ <? search_request_size item); [intros [= <- <-]; by apply passes_none|].
  destruct (_ <? size _)%nat; [intros [= <- <-]; by apply passes_none|].
  destruct (_search_requests_origins t !! sq_request_id item) as [|]; [intros [= <- <-]; by apply passes_none|].
  match goal with |- context [mbind _ ?x] => destruct x as [[[r n] m]|] end; [|done]. cbn [mbind access_bind].
  destruct (query_GetKeywords _) as [kw|]; [|done]. cbn [mbind access_bind].
  destruct (m <=? n); [intros [= <- <-]; apply passes_none; [exact id|by apply Forall_fmap, Forall_true]|].
  match goal with |- context [forward_search e ?u item] => destruct (forward_search e u item) as [fwd|] eqn:Ef; [|done] end. cbn [mbind access_bind]. intros [= <- <-]. apply passes_none; [exact id|].
  apply Forall_app. split; [by apply Forall_fmap, Forall_true|]. destruct (forward_search_sends _ _ _ _ Ef) as (f & l & ->). by apply Forall_fmap, Forall_true.
Qed.

Lemma item_passes rid peer e t i t' ev : NoDup (onlineIds e) -> handleItem pow_int pow e t i = Done (t', ev) -> passes rid peer t (t', ev).
Proof.
  intros Hn. unfold handleItem. destruct (negb _); [intros [= <- <-]; by apply passes_none|].
  destruct i as [i|i|i|i|i]; [by apply search_passes|by apply result_passes|intros [= E]; rewrite <- E..];
    [by apply request_passes|apply ok_passes|apply route_passes].
Qed.

(** A request for a tunnel is passed on once.  However often a request comes in, from whichever friends and whenever: as long as it is
    remembered, every friend gets at most one copy of it. *)
Theorem tunnel_request_sent_once rid peer l t t' ev : Forall (fun x => NoDup (onlineIds x.1)) l -> handle_all t l = Done (t', ev) ->
  (copies rid peer ev <= 1)%nat.
Proof.
  intros Hl E. assert (Hp : passes rid peer t (t', ev)); [|by destruct Hp as (_ & Hp & _)].
  revert t t' ev E. induction Hl as [|[e i] l Hn _ IH]; intros t t' ev; cbn [handle_all]; [intros [= <- <-]; by apply passes_none|].
  destruct (handleItem pow_int pow e t i) as [[t1 ev1]|] eqn:E1; [|done]. cbn [mbind access_bind].
  destruct (item_passes rid peer e t i t1 ev1 Hn E1) as (H1 & H2 & H3). cbn [fst snd] in *.
  destruct (handle_all t1 l) as [[t2 ev2]|] eqn:E2; [|done]. cbn [mbind access_bind]. intros [= <- <-].
  destruct (IH t1 t2 ev2 E2) as (H1' & H2' & H3'). unfold passes. cbn [fst snd] in *. rewrite copies_app. split_and!.
  - intros Hk. destruct (H1 Hk) as [Hk1 ->]. by apply H1'.
  - destruct (copies rid peer ev1) as [|n] eqn:Ec; [done|]. destruct (H1' (H3 ltac:(lia))) as [_ ->]. lia.
  - intros Hpos. destruct (copies rid peer ev1) as [|n] eqn:Ec; [by apply H3'|]. by apply (H1' (H3 ltac:(lia))).
Qed.

(** ** A search with an empty block *)

(** An empty search ends the process.  A friend sends a generic search without data: a new one, with a small depth, for a service that would
    pass it on.  The node survives exactly if there is no other friend online with a fast link: to pass the search on, it clones
    the request, and [rs_malloc] ends the process when it is asked for an empty block. *)
Theorem empty_search_ends_process e t item service_id request_type : sq_query item = GenericSearch service_id request_type [] ->
  sq_PeerId item <> _own_id t -> (size (_search_requests_origins t) <= 120)%nat -> _search_requests_origins t !! sq_request_id item = None ->
  0 < (performLocalSearch_generic t service_id []).2 -> sq_depth item < TURTLE_MAX_SEARCH_DEPTH ->
  (handleSearchRequest e t item = Oob <-> exists p, p ∈ onlineIds e /\ slow_link e p = false /\ p <> sq_PeerId item).
Proof.
  intros Eq Hp Hsize En Hmax Hd. unfold handleSearchRequest.
  replace (TURTLE_MAX_SEARCH_REQ_ACCEPTED_SERIAL_SIZE <? search_request_size item) with false by (unfold search_request_size; rewrite Eq; reflexivity).
  destruct (Nat.ltb_spec MAX_ALLOWED_SR_IN_CACHE (size (_search_requests_origins t))) as [Hs|_]; [unfold MAX_ALLOWED_SR_IN_CACHE in Hs; lia|].
  rewrite En. destruct (Z.eqb_spec (sq_PeerId item) (_own_id t)); [done|]. cbn [negb]. unfold performLocalSearch. rewrite Eq.
  assert (Hn : (performLocalSearch_generic t service_id []).1.2 = 0) by (unfold performLocalSearch_generic; repeat case_match; done).
  destruct (performLocalSearch_generic t service_id []) as [[r n0] m]. cbn [fst snd] in *. subst n0. cbn [mbind access_bind query_GetKeywords].
  destruct (Z.leb_spec m 0); [lia|]. unfold forward_search. cbv zeta. rewrite (proj2 (Z.ltb_lt _ _) Hd). cbn [orb].
  destruct (filter (fun p => slow_link e p = false /\ p <> sq_PeerId item) (onlineIds e)) as [|p l] eqn:Ef.
  - split; [done|]. intros (p & Hin & Hc). exfalso. assert (Hin' : p ∈ filter (fun p => slow_link e p = false /\ p <> sq_PeerId item) (onlineIds e))
      by (by apply list_elem_of_filter). rewrite Ef in Hin'. by apply elem_of_nil in Hin'.
  - rewrite Eq. split; [|done]. intros _. exists p. assert (Hin : p ∈ filter (fun p => slow_link e p = false /\ p <> sq_PeerId item) (onlineIds e))
      by (rewrite Ef; by left). apply list_elem_of_filter in Hin as [[H1 H2] H3]. done.
Qed.
End props.

(** ** Examples: a router that is asked for tunnels and searches by two friends *)

Module Demo.
Import ThreeNodes.

Definition demo_open (from : Z) : turtle_item := OpenTunnel (mk_RsTurtleOpenTunnelItem from 777 99 1234 0).
Definition demo_search : turtle_item := SearchRequest (mk_search_request 2 33 0 (StringSearch [65; 66; 67])).
Definition demo_hit : turtle_item := SearchResult (mk_search_result 3 33 (FTSearchResult [mk_TurtleFileInfo 1 [65] 10; mk_TurtleFileInfo 2 [66] 20])).
Definition demo_items : list (turtle_env * turtle_item) :=
  [(demo_env [2; 3], demo_open 2); (demo_env [2; 3], demo_search); (demo_env [2; 3], demo_hit); (demo_env [2; 3], demo_open 3)].

Definition demo_handled : p3turtle (Z * Z) * list (turtle_event (Z * Z)) := Eval vm_compute in
  match handle_all demo_pow_int demo_pow dug.1 demo_items with Done r => r | Oob => (dug.1, []) end.

Lemma demo_handles : handle_all demo_pow_int demo_pow dug.1 demo_items = Done demo_handled.
Proof. by vm_compute. Qed.

Definition demo_ops : list (turtle_op (C := Z * Z)) := [OpRegister keeper; OpMonitor 555 seeker false 3; OpTick (demo_env [2; 3]) [demo_open 2] 424242; OpRate 5].
Definition demo_ran : p3turtle (Z * Z) * list (turtle_event (Z * Z)) := Eval vm_compute in
  match turtle_run demo_pow_int demo_pow (new_p3turtle 1 77) demo_ops with Done r => r | Oob => (new_p3turtle 1 77, []) end.

Lemma router_states_witness : (size (_search_requests_origins demo_ran.1) <= 121)%nat /\ 10 <= getMaxTRForwardRate demo_ran.1 <= 100 /\ Forall call_ok demo_ran.2.
Proof.
  destruct (router_states demo_pow_int demo_pow 1 77 demo_ops demo_ran.1 demo_ran.2) as (H1 & _ & _ & _ & H2 & H3); [by vm_compute|].
  split; [exact H1|split; [exact H2|exact H3]].
Defined.

Lemma hits_sent_bounded_witness : 0 <= hits_sent 33 demo_handled.2 <= 5000.
Proof.
  apply (hits_sent_bounded demo_pow_int demo_pow 33 demo_items dug.1 demo_handled.1 demo_handled.2).
  - intros s d. vm_compute. discriminate.
  - repeat constructor.
  - reflexivity.
  - exact demo_handles.
Defined.

(** It does pass hits back. *)
Example hits_are_sent : hits_sent 33 demo_handled.2 = 2.
Proof. by vm_compute. Qed.

Lemma tunnel_request_sent_once_witness : (copies 99 3 demo_handled.2 <= 1)%nat.
Proof.
  apply (tunnel_request_sent_once demo_pow_int demo_pow 99 3 demo_items dug.1 demo_handled.1 demo_handled.2); [|exact demo_handles].
  repeat (constructor; [apply (bool_decide_unpack _); by vm_compute|]); constructor.
Defined.

Example request_is_sent : copies 99 3 demo_handled.2 = 1%nat.
Proof. by vm_compute. Qed.

Definition empty_search : search_request := mk_search_request 2 44 1 (GenericSearch 23 0 []).

Lemma empty_search_ends_process_witness : handleSearchRequest (demo_env [2; 3]) dug.1 empty_search = Oob.
Proof.
  apply (empty_search_ends_process (demo_env [2; 3]) dug.1 empty_search 23 0); try reflexivity; [discriminate|by apply Nat.leb_le|].
  exists 3. split; [apply (bool_decide_unpack _); by vm_compute|split; [reflexivity|discriminate]].
Defined.

End Demo.
