(* ===== verification/TurtleClean.v ===== *)
(** * What cleaning the turtle router leaves

    [autoWash] forgets old requests, closes the tunnels of hashes that are not monitored any more and those that carry
    nothing.  A tunnel id that entered the list of a hash although the tunnel does not start here is never taken out of it. *)

From S2P Require Import Prelude RawSerial Tlv TlvSets RsExpr Turtle TurtleNet TurtleProps.
From Stdlib Require Import ZArith Lia SpecFloat.
From stdpp Require Import base list gmap sorting.
Open Scope Z_scope.

Section clean.
Context {C : Type} `{RsTurtleClientService C} (pow_int : float32 -> Z -> float32) (pow : float32 -> float32 -> float32).

(** ** Closing, as a relation: the tunnels [S] are closed, the hashes [K] forgotten *)

(** A hash that is kept only loses closed tunnels. *)
Definition hash_closes (S : list Z) (h h' : TurtleHashInfo C) : Prop :=
  h' = h <| tunnels := tunnels h' |> /\ (forall x, x ∈ tunnels h' -> x ∈ tunnels h) /\ (forall x, x ∈ tunnels h -> x ∈ tunnels h' \/ x ∈ S).

Record closes (S K : list Z) (t t' : p3turtle C) : Prop := {
  cl_tunnels : forall tid tn, _local_tunnels t' !! tid = Some tn <-> _local_tunnels t !! tid = Some tn /\ tid ∉ S;
  cl_gone : forall hash, hash ∈ K -> _incoming_file_hashes t' !! hash = None;
  cl_hashes : forall hash, hash ∉ K -> option_Forall2 (hash_closes S) (_incoming_file_hashes t !! hash) (_incoming_file_hashes t' !! hash);
  cl_searches : _search_requests_origins t' = _search_requests_origins t;
  cl_requests : _tunnel_requests_origins t' = _tunnel_requests_origins t;
  cl_remove : _hashes_to_remove t' = _hashes_to_remove t
}.

Lemma both_known S (a b : option (TurtleHashInfo C)) : option_Forall2 (hash_closes S) a b -> (is_Some a <-> is_Some b).
Proof. intros []; split; intros []; try done; by eexists. Qed.

Lemma hash_closes_refl S h : hash_closes S h h.
Proof. split; [by destruct h|]. split; auto. Qed.

Lemma option_closes_refl S (o : option (TurtleHashInfo C)) : option_Forall2 (hash_closes S) o o.
Proof. destruct o; constructor. apply hash_closes_refl. Qed.

Lemma closes_refl t : closes [] [] t t.
Proof.
  constructor; try done; [|intros ? Hx; by apply elem_of_nil in Hx|intros; apply option_closes_refl].
  intros. split; [|by intros []]. intros; split; [done|apply not_elem_of_nil].
Qed.

Lemma closes_trans S1 K1 S2 K2 t1 t2 t3 : closes S1 K1 t1 t2 -> closes S2 K2 t2 t3 -> closes (S1 ++ S2) (K1 ++ K2) t1 t3.
Proof.
  intros [T1 G1 H1 A1 B1 C1] [T2 G2 H2 A2 B2 C2]. constructor; try congruence.
  - intros tid tn. rewrite T2, T1, not_elem_of_app. tauto.
  - intros hash [Hin|Hin]%elem_of_app; [|by apply G2]. destruct (decide (hash ∈ K2)) as [Hk|Hk]; [by apply G2|].
    specialize (H2 hash Hk). rewrite (G1 hash Hin) in H2. by inversion H2.
  - intros hash [Hn1 Hn2]%not_elem_of_app. specialize (H1 hash Hn1). specialize (H2 hash Hn2).
    destruct H1 as [h h2 (E1 & I1 & O1)|]; inversion H2 as [h' h3 (E2 & I2 & O2)|]; subst; constructor.
    split; [|split]; [rewrite E2 at 1; rewrite E1; by destruct h|auto|]. intros x Hx. rewrite elem_of_app.
    destruct (O1 x Hx) as [Hx2|]; [destruct (O2 x Hx2)|]; auto.
Qed.

Lemma remove_tunnel_in tid l x : x ∈ remove_tunnel (S (length l)) tid 0 l <-> x <> tid /\ x ∈ l.
Proof. by rewrite removed_tunnel, list_elem_of_filter. Qed.

Lemma close_closes t tid : closes [tid] [] t (locked_closeTunnel t tid).1.
Proof.
  assert (Hd : forall (m : gmap Z TurtleTunnel) k tn, delete tid m !! k = Some tn <-> m !! k = Some tn /\ k ∉ [tid])
    by (intros m k tn; rewrite lookup_delete_Some, list_elem_of_singleton; intuition congruence).
  unfold locked_closeTunnel. destruct (_local_tunnels t !! tid) as [tn|] eqn:Et.
  - destruct (local_src tn =? _own_id t); [|destruct (local_dst tn =? _own_id t)].
    + cbn [_incoming_file_hashes upd]. destruct (_incoming_file_hashes t !! tn_hash tn) as [h|] eqn:Eh.
      * constructor; try done; [apply Hd|intros ? Hx; by apply elem_of_nil in Hx|]. intros hash _. cbn [fst _incoming_file_hashes upd].
        rewrite lookup_insert. destruct (decide (tn_hash tn = hash)) as [<-|]; [|apply option_closes_refl]. rewrite Eh. constructor.
        split; [by destruct h|]. cbn [tunnels upd]. split; intros x; rewrite remove_tunnel_in, ?list_elem_of_singleton; [tauto|].
        destruct (decide (x = tid)); tauto.
      * constructor; try done; [apply Hd|intros ? Hx; by apply elem_of_nil in Hx|]. intros; apply option_closes_refl.
    + destruct (_outgoing_tunnel_client_services t !! tid); (constructor; try done; [apply Hd|intros ? Hx; by apply elem_of_nil in Hx|]; intros; apply option_closes_refl).
    + constructor; try done; [apply Hd|intros ? Hx; by apply elem_of_nil in Hx|]. intros; apply option_closes_refl.
  - constructor; try done; [|intros ? Hx; by apply elem_of_nil in Hx|intros; apply option_closes_refl].
    intros k tn. cbn. rewrite list_elem_of_singleton. intuition congruence.
Qed.

Lemma foldl_close l : forall st S K t0, closes S K t0 st.1 ->
  closes (S ++ l) K t0 (foldl (fun st tid => let '(t, r) := locked_closeTunnel st.1 tid in (t, st.2 ++ r)) st l).1.
Proof.
  induction l as [|tid l IH]; intros st S K t0 Hc; [by rewrite app_nil_r|]. cbn [foldl]. pose proof (close_closes st.1 tid) as H1.
  destruct (locked_closeTunnel st.1 tid) as [t' r]. replace (S ++ tid :: l) with ((S ++ [tid]) ++ l) by (by rewrite <- app_assoc). apply IH.
  pose proof (closes_trans _ _ _ _ _ _ _ Hc H1) as H2. by rewrite app_nil_r in H2.
Qed.

Lemma close_tunnels_closes t l : closes l [] t (close_tunnels t l).1.
Proof. apply (foldl_close l (t, []) [] []), closes_refl. Qed.

(** Forgetting a hash closes its tunnels. *)
Lemma remove_hash_closes st hash S K t0 : closes S K t0 st.1 ->
  closes (S ++ default [] (tunnels <$> _incoming_file_hashes st.1 !! hash)) (K ++ [hash]) t0 (remove_hash st hash).1.
Proof.
  intros Hc. unfold remove_hash. destruct (_incoming_file_hashes st.1 !! hash) as [h|] eqn:Eh.
  - cbn [default fmap option_fmap option_map]. pose proof (close_tunnels_closes st.1 (tunnels h)) as H1.
    destruct (close_tunnels st.1 (tunnels h)) as [t' r]. cbn [fst] in *.
    assert (H2 : closes [] [hash] t' (t' <| _incoming_file_hashes := delete hash (_incoming_file_hashes t') |>)).
    { constructor; try done.
      - intros. split; [|by intros []]. intros; split; [done|apply not_elem_of_nil].
      - intros k ->%list_elem_of_singleton. cbn. apply lookup_delete_eq.
      - intros k Hk. cbn. rewrite lookup_delete_ne; [apply option_closes_refl|]. intros ->. apply Hk. by apply list_elem_of_singleton. }
    pose proof (closes_trans _ _ _ _ _ _ _ H1 H2) as H3. cbn [app] in H3. rewrite app_nil_r in H3. by apply closes_trans with st.1.
  - cbn [default fmap option_fmap option_map]. rewrite app_nil_r. destruct Hc as [T G Hh A B D]. constructor; try done.
    + intros k [Hk|Hk]%elem_of_app; [by apply G|]. by apply list_elem_of_singleton in Hk as ->.
    + intros k [Hk _]%not_elem_of_app. by apply Hh.
Qed.

(** The tunnels of the hashes in [l]. *)
Definition tunnels_of (t : p3turtle C) (l : list Z) (tid : Z) : Prop :=
  exists hash h, hash ∈ l /\ _incoming_file_hashes t !! hash = Some h /\ tid ∈ tunnels h.

Lemma remove_hashes_closes l : forall st S K t0, NoDup (K ++ l) -> closes S K t0 st.1 -> (forall x, x ∈ S <-> tunnels_of t0 K x) ->
  exists S', closes S' (K ++ l) t0 (foldl remove_hash st l).1 /\ forall x, x ∈ S' <-> tunnels_of t0 (K ++ l) x.
Proof.
  induction l as [|hash l IH]; intros st S K t0 Hn Hc HS; [exists S; by rewrite app_nil_r|]. cbn [foldl].
  pose proof (remove_hash_closes st hash S K t0 Hc) as Hc'. replace (K ++ hash :: l) with ((K ++ [hash]) ++ l) in * by (by rewrite <- app_assoc).
  eapply IH; [exact Hn|exact Hc'|]. assert (Hk : hash ∉ K).
  { intros Hk. apply NoDup_app in Hn as (Hn & _ & _). apply NoDup_app in Hn as (_ & Hd & _). by apply (Hd hash Hk), list_elem_of_singleton. }
  pose proof (cl_hashes _ _ _ _ Hc hash Hk) as Hh. intros x. rewrite elem_of_app, HS. unfold tunnels_of. split.
  - intros [(k & h & Hin & E & Hx)|Hx]; [exists k, h; split; [apply elem_of_app; by left|done]|].
    inversion Hh as [h h' (_ & I & _) E1 E2|E1 E2]; rewrite <- E2 in Hx; cbn in Hx; [|by apply elem_of_nil in Hx].
    exists hash, h. split; [apply elem_of_app; right; by left|]. split; [done|by apply I].
  - intros (k & h & [Hin| ->%list_elem_of_singleton]%elem_of_app & E & Hx); [left; eauto|]. rewrite E in Hh. inversion Hh as [h1 h' (_ & _ & O) E1 E2|]; subst.
    cbn. destruct (O x Hx) as [|HxS]; [by right|]. left. by apply HS.
Qed.

(** A tunnel that nothing has gone through for a minute. *)
Definition idle (e : turtle_env) (tn : TurtleTunnel) : Prop := tn_time_stamp tn + MAXIMUM_TUNNEL_IDLE_TIME < now e.

Lemma idle_tunnels_in e (t : p3turtle C) tid : tid ∈ idle_tunnels e t <-> exists tn, _local_tunnels t !! tid = Some tn /\ idle e tn.
Proof.
  unfold idle_tunnels. rewrite list_elem_of_fmap. split.
  - intros ([k tn] & -> & Hx). apply list_elem_of_filter in Hx as [Hi Hx%elem_of_in_order]. by exists tn.
  - intros (tn & E & Hi). exists (tid, tn). split; [done|]. apply list_elem_of_filter. split; [done|]. by apply elem_of_in_order.
Qed.

(** Cleaning.  [autoWash] forgets exactly the searches and the requests for tunnels that are older than ten minutes, exactly the hashes
    that are not monitored any more, and closes exactly the tunnels that those hashes list and those that have been idle for more than a
    minute. *)
Theorem autoWash_spec e (t : p3turtle C) : let t' := (autoWash e t).1 in
  (forall id r, _search_requests_origins t' !! id = Some r <-> _search_requests_origins t !! id = Some r /\ now e <= si_time_stamp r + 600) /\
  (forall id r, _tunnel_requests_origins t' !! id = Some r <-> _tunnel_requests_origins t !! id = Some r /\ now e <= ti_time_stamp r + 600) /\
  (forall tid tn, _local_tunnels t' !! tid = Some tn <->
     _local_tunnels t !! tid = Some tn /\ now e <= tn_time_stamp tn + 60 /\ ~ tunnels_of t (elements (_hashes_to_remove t)) tid) /\
  (forall hash, is_Some (_incoming_file_hashes t' !! hash) <-> is_Some (_incoming_file_hashes t !! hash) /\ hash ∉ _hashes_to_remove t) /\
  _hashes_to_remove t' = ∅.
Proof.
  unfold autoWash, wash_hashes.
  destruct (remove_hashes_closes (merge_sort Z.le (elements (_hashes_to_remove t))) (t, []) [] [] t) as (S & H1 & HS).
  { cbn. rewrite merge_sort_Permutation. apply NoDup_elements. }
  { apply closes_refl. }
  { intros x. unfold tunnels_of. split; [intros Hx; by apply elem_of_nil in Hx|]. intros (k & h & Hk & _). by apply elem_of_nil in Hk. }
  destruct (foldl remove_hash _ _) as [t1 r1]. cbn [app fst] in *.
  pose proof (close_tunnels_closes (wash_requests e (t1 <| _hashes_to_remove := ∅ |>)) (idle_tunnels e (wash_requests e (t1 <| _hashes_to_remove := ∅ |>)))) as H2.
  pose proof (idle_tunnels_in e (wash_requests e (t1 <| _hashes_to_remove := ∅ |>))) as Hi.
  destruct (close_tunnels _ _) as [t2 r2]. cbn [fst] in *. destruct H1 as [T1 G1 Hh1 A1 B1 _], H2 as [T2 _ Hh2 A2 B2 C2].
  assert (HK : forall hash, hash ∈ merge_sort Z.le (elements (_hashes_to_remove t)) <-> hash ∈ _hashes_to_remove t)
    by (intros; by rewrite merge_sort_Permutation, elem_of_elements).
  assert (HS' : forall x, x ∈ S <-> tunnels_of t (elements (_hashes_to_remove t)) x).
  { intros x. rewrite HS. unfold tunnels_of. by setoid_rewrite (merge_sort_Permutation Z.le (elements (_hashes_to_remove t))). }
  split_and!.
  - intros id r. rewrite A2. cbn [_search_requests_origins wash_requests upd]. rewrite A1, map_lookup_filter_Some. done.
  - intros id r. rewrite B2. cbn [_tunnel_requests_origins wash_requests upd]. rewrite B1, map_lookup_filter_Some. done.
  - intros tid tn. rewrite T2, Hi. cbn [_local_tunnels wash_requests upd]. rewrite T1, HS'. unfold idle, MAXIMUM_TUNNEL_IDLE_TIME. split.
    + intros [[E Hd] Hn]. split_and!; [done| |done]. apply Z.nlt_ge. intros Hlt. apply Hn. exists tn. split; [|done]. apply T1. by rewrite HS'.
    + intros (E & Hle & Hd). split; [done|]. intros (tn' & E' & Hlt). apply T1 in E' as [E' _]. rewrite E in E'. injection E' as <-. lia.
  - intros hash. specialize (Hh2 hash (not_elem_of_nil _)). cbn [_incoming_file_hashes wash_requests upd] in Hh2.
    destruct (decide (hash ∈ merge_sort Z.le (elements (_hashes_to_remove t)))) as [Hk|Hk]; pose proof Hk as Hk'; rewrite HK in Hk'.
    + specialize (G1 hash Hk). rewrite G1 in Hh2. apply both_known in Hh2. rewrite <- Hh2. split; [intros Hs; by apply is_Some_None in Hs|by intros [_ []]].
    + apply both_known in Hh2. rewrite <- Hh2, <- (both_known _ _ _ (Hh1 hash Hk)). tauto.
  - by rewrite C2.
Qed.

(** ** A tunnel that does not start here, in the list of a hash *)

Record stuck (hash tid : Z) (t : p3turtle C) : Prop := {
  st_own : _own_id t <> 0;
  st_hash : exists h, _incoming_file_hashes t !! hash = Some h /\ use_aggressive_mode h = false /\ tid ∈ tunnels h;
  st_monitored : hash ∉ _hashes_to_remove t;
  st_foreign : forall tn, _local_tunnels t !! tid = Some tn -> local_src tn <> _own_id t
}.

(** What matters of a state for it. *)
Lemma stuck_same hash tid t t' : stuck hash tid t -> _own_id t' = _own_id t -> _incoming_file_hashes t' !! hash = _incoming_file_hashes t !! hash ->
  _hashes_to_remove t' = _hashes_to_remove t ->
  (forall tn, _local_tunnels t' !! tid = Some tn -> local_src tn <> _own_id t) -> stuck hash tid t'.
Proof. intros [So Sh Sm Sf] Eo Eh Em Ht. constructor; rewrite ?Eo, ?Eh, ?Em; auto. Qed.

Lemma stuck_speed hash tid t l : stuck hash tid t -> stuck hash tid (total_speed t l).1 /\ _incoming_file_hashes (total_speed t l).1 = _incoming_file_hashes t.
Proof.
  intros Hs. unfold total_speed. assert (Hg : forall st : p3turtle C * Z, stuck hash tid st.1 -> let r := foldl (fun st tid =>
    let tn := default new_tunnel (_local_tunnels st.1 !! tid) in
    (set_tunnel st.1 tid tn, u32 (Z_of_float (f32_add (f32_of_Z st.2) (speed_Bps tn))))) st l in
    stuck hash tid r.1 /\ _incoming_file_hashes r.1 = _incoming_file_hashes st.1); [|by apply (Hg (t, 0))].
  clear Hs. induction l as [|k l IH]; intros st Hst; [done|]. cbn [foldl].
  destruct (IH (set_tunnel st.1 k (default new_tunnel (_local_tunnels st.1 !! k)),
    u32 (Z_of_float (f32_add (f32_of_Z st.2) (speed_Bps (default new_tunnel (_local_tunnels st.1 !! k))))))) as [H1 H2]; [|by split].
  cbn [fst]. apply (stuck_same hash tid st.1); try done. intros tn. cbn [_local_tunnels set_tunnel upd]. rewrite lookup_insert.
  destruct (decide (k = tid)) as [->|]; [|apply Hst]. intros [= <-]. destruct (_local_tunnels st.1 !! tid) as [tn|] eqn:E; [by apply Hst|].
  cbn. apply not_eq_sym, Hst.
Qed.

Lemma stuck_digg_list hash tid e t : stuck hash tid t -> let r := hashes_to_digg e t in stuck hash tid r.1 /\ Forall (fun x => x.1 <> hash) r.2.
Proof.
  intros Hs. unfold hashes_to_digg.
  assert (Hin : forall x, x ∈ in_order (_incoming_file_hashes t) -> x.1 = hash -> use_aggressive_mode x.2 = false /\ tunnels x.2 <> []).
  { intros x Hx%elem_of_in_order <-. destruct (st_hash _ _ _ Hs) as (h & Eh & Ha & Ht). rewrite Eh in Hx. injection Hx as <-. split; [done|].
    intros E. rewrite E in Ht. by apply elem_of_nil in Ht. }
  revert Hin. generalize (in_order (_incoming_file_hashes t)). intros l Hin.
  assert (Hg : forall st : p3turtle C * list (Z * Z), stuck hash tid st.1 -> Forall (fun x => x.1 <> hash) st.2 ->
    let r := foldl (fun st x => let '(t, total) := total_speed st.1 (tunnels x.2) in
      (t, if due e x.2 total then st.2 ++ [(x.1, last_digg_time x.2)] else st.2)) st l in
    stuck hash tid r.1 /\ Forall (fun x => x.1 <> hash) r.2); [|by apply (Hg (t, [])); [|constructor]].
  clear Hs. induction l as [|y l IH]; intros st Hst Hd; [done|]. cbn [foldl]. pose proof (stuck_speed hash tid st.1 (tunnels y.2) Hst) as [H1 _].
  destruct (total_speed st.1 (tunnels y.2)) as [t' total]. apply IH; [intros x Hx; apply Hin; by right|done|]. cbn [snd].
  destruct (due e y.2 total) eqn:Edue; [|done]. apply Forall_app. split; [done|]. apply Forall_singleton. cbn. intros Ey.
  destruct (Hin y) as [Ha Hn]; [by left|done|]. unfold due in Edue. rewrite Ha, bool_decide_eq_false_2 in Edue by done. done.
Qed.

Definition not_dug (hash : Z) (ev : list (turtle_event C)) : Prop :=
  Forall (fun ev => match ev with SendItem (OpenTunnel j) => ot_file_hash j <> hash | _ => True end) ev.

(** A request of our own for another hash. *)
Lemma stuck_request hash tid e t item : stuck hash tid t -> ot_PeerId item = _own_id t -> ot_file_hash item <> hash ->
  let r := handleTunnelRequest pow_int pow e t item in stuck hash tid r.1 /\ not_dug hash r.2.
Proof.
  intros Hs Ho Hne. unfold handleTunnelRequest. cbv zeta. destruct (isHashBanned e (ot_file_hash item)); [by split; [destruct Hs|constructor]|].
  cbn [_tunnel_requests_origins _own_id upd]. destruct (_tunnel_requests_origins t !! ot_request_id item); [by split; [destruct Hs|constructor]|].
  rewrite Ho, Z.eqb_refl. cbn [negb]. unfold forward_tunnel_request. cbv zeta. destruct (_ || _); (split; [by destruct Hs|]); [|constructor].
  unfold not_dug. apply Forall_fmap, Forall_true. intros x. exact Hne.
Qed.

Lemma stuck_manage hash tid e t id : stuck hash tid t -> let r := manageTunnels pow_int pow e t id in stuck hash tid r.1 /\ not_dug hash r.2.
Proof.
  intros Hs. unfold manageTunnels. destruct (stuck_digg_list hash tid e t Hs) as [H1 H2]. destruct (hashes_to_digg e t) as [t' l]. cbn [fst snd] in *.
  destruct (take _ (merge_sort older l)) as [|[other d] l'] eqn:E; [by split; [|constructor]|].
  assert (Hne : other <> hash).
  { rewrite <- (merge_sort_Permutation older l) in H2. rewrite <- (take_drop MAX_TUNNEL_REQS_PER_SECOND (merge_sort older l)), E in H2.
    apply Forall_app in H2 as [H2 _]. by apply Forall_cons in H2 as [H2 _]. }
  unfold diggTunnel. cbv zeta. apply stuck_request; [|done|done].
  apply (stuck_same hash tid t'); try done; [|by apply H1]. cbn. by rewrite lookup_insert_ne.
Qed.

Lemma stuck_close hash tid t k : stuck hash tid t -> stuck hash tid (locked_closeTunnel t k).1.
Proof.
  intros Hs. unfold locked_closeTunnel. destruct (_local_tunnels t !! k) as [tn|] eqn:Et; [|done].
  assert (Hd : forall tn', delete k (_local_tunnels t) !! tid = Some tn' -> local_src tn' <> _own_id t) by (intros tn' [_ E]%lookup_delete_Some; by apply Hs).
  destruct (Z.eqb_spec (local_src tn) (_own_id t)) as [Hsrc|Hsrc]; [|destruct (local_dst tn =? _own_id t)].
  - cbn [_incoming_file_hashes upd]. destruct (_incoming_file_hashes t !! tn_hash tn) as [h|] eqn:Eh; [|by apply (stuck_same hash tid t)].
    destruct Hs as [So (h0 & E0 & Ha & Hin) Sm Sf]. constructor; try done. cbn. rewrite lookup_insert.
    destruct (decide (tn_hash tn = hash)) as [Eq|]; [|by exists h0]. rewrite Eq, E0 in Eh. injection Eh as <-. eexists. split; [done|]. split; [done|].
    apply (remove_tunnel_in k (tunnels h0) tid). split; [|done]. intros ->. by apply (Sf tn).
  - destruct (_outgoing_tunnel_client_services t !! k); by apply (stuck_same hash tid t).
  - by apply (stuck_same hash tid t).
Qed.

Lemma stuck_close_tunnels hash tid t l : stuck hash tid t -> stuck hash tid (close_tunnels t l).1.
Proof.
  intros Hs. unfold close_tunnels. assert (Hg : forall st : p3turtle C * list (option C * Z * Z), stuck hash tid st.1 ->
    stuck hash tid (foldl (fun st tid => let '(t, r) := locked_closeTunnel st.1 tid in (t, st.2 ++ r)) st l).1); [|by apply (Hg (t, []))].
  clear Hs. induction l as [|k l IH]; intros st Hst; [done|]. cbn [foldl]. pose proof (stuck_close hash tid st.1 k Hst).
  destruct (locked_closeTunnel st.1 k). by apply IH.
Qed.

Lemma stuck_remove_hash hash tid st other : stuck hash tid st.1 -> other <> hash -> stuck hash tid (remove_hash st other).1.
Proof.
  intros Hs Hne. unfold remove_hash. destruct (_incoming_file_hashes st.1 !! other) as [h|]; [|done].
  pose proof (stuck_close_tunnels hash tid st.1 (tunnels h) Hs) as Hc. destruct (close_tunnels st.1 (tunnels h)) as [t' r]. cbn [fst] in *.
  apply (stuck_same hash tid t'); try done; [|by apply Hc]. cbn. by rewrite lookup_delete_ne.
Qed.

Lemma stuck_autoWash hash tid e t : stuck hash tid t -> stuck hash tid (autoWash e t).1 /\ not_dug hash (autoWash e t).2.
Proof.
  intros Hs. unfold autoWash, wash_hashes.
  assert (Hl : Forall (fun x => x <> hash) (merge_sort Z.le (elements (_hashes_to_remove t)))).
  { rewrite merge_sort_Permutation. apply Forall_forall. intros x Hx%elem_of_elements ->. by apply (st_monitored _ _ _ Hs). }
  assert (Hg : forall st, stuck hash tid st.1 -> stuck hash tid (foldl remove_hash st (merge_sort Z.le (elements (_hashes_to_remove t)))).1).
  { induction Hl as [|k l Hk _ IH]; intros st Hst; [done|]. cbn [foldl]. by apply IH, stuck_remove_hash. }
  specialize (Hg (t, []) Hs). destruct (foldl remove_hash _ _) as [t1 r1]. cbn [fst] in Hg.
  assert (H1 : stuck hash tid (wash_requests e (t1 <| _hashes_to_remove := ∅ |>))) by (destruct Hg as [? ? _ ?]; by constructor).
  pose proof (stuck_close_tunnels hash tid _ (idle_tunnels e (wash_requests e (t1 <| _hashes_to_remove := ∅ |>))) H1) as H2.
  destruct (close_tunnels _ _) as [t2 r2]. split; [done|]. unfold not_dug. by apply Forall_fmap, Forall_true.
Qed.

Lemma stuck_estimate hash tid t : stuck hash tid t -> stuck hash tid (estimateTunnelSpeeds t).
Proof.
  intros Hs. apply (stuck_same hash tid t); try done. intros tn. unfold estimateTunnelSpeeds. cbn [_local_tunnels upd]. rewrite lookup_fmap.
  destruct (_local_tunnels t !! tid) as [tn0|] eqn:E; [|done]. cbn. intros [= <-]. exact (st_foreign _ _ _ Hs tn0 E).
Qed.

Lemma stuck_tick hash tid e t id : stuck hash tid t ->
  exists t' ev, tick pow_int pow e t [] id = Done (t', ev) /\ stuck hash tid t' /\ not_dug hash ev.
Proof.
  intros Hs. unfold tick. cbn [handleIncoming mbind access_bind]. cbv zeta.
  match goal with |- context [let '(t, ev2) := ?x in _] => assert (Hx : stuck hash tid x.1 /\ not_dug hash x.2); [|destruct x as [t2 ev2]] end.
  { destruct (_ <=? now e); [|by split; [|constructor]]. destruct (_ && _).
    - destruct (stuck_manage hash tid e t id Hs) as [H1 H2]. destruct (manageTunnels _ _ _ _ _) as [t1 ev1]. split; [by destruct H1|done].
    - split; [by destruct Hs|constructor]. }
  destruct Hx as [H1 H2]. cbn [fst snd] in *.
  match goal with |- context [let '(t, ev3) := ?x in _] => assert (Hx : stuck hash tid x.1 /\ not_dug hash x.2); [|destruct x as [t3 ev3]] end.
  { destruct (_ <? now e); [|by split; [|constructor]]. destruct (stuck_autoWash hash tid e t2 H1) as [H3 H4]. destruct (autoWash e t2). split; [by destruct H3|done]. }
  destruct Hx as [H3 H4]. cbn [fst snd] in *. eexists _, _. split; [reflexivity|]. split; [|unfold not_dug; cbn [app]; by apply Forall_app].
  destruct (_ <=? now e); [|done]. by destruct (stuck_estimate hash tid t3 H3).
Qed.

(** The clock, with the times, friends and random ids that it gets. *)
Fixpoint ticks (t : p3turtle C) (l : list (turtle_env * Z)) : access (p3turtle C * list (turtle_event C)) :=
  match l with
  | [] => Done (t, [])
  | (e, id) :: l =>
      '(t, ev) ← tick pow_int pow e t [] id;
      '(t, ev') ← ticks t l;
      Done (t, ev ++ ev')
  end.

Lemma stuck_ticks hash tid l : forall t, stuck hash tid t -> exists t' ev, ticks t l = Done (t', ev) /\ stuck hash tid t' /\ not_dug hash ev.
Proof.
  induction l as [|[e id] l IH]; intros t Hs; cbn [ticks]; [by exists t, []; split; [|split; [|constructor]]|].
  destruct (stuck_tick hash tid e t id Hs) as (t1 & ev1 & -> & H1 & N1). cbn [mbind access_bind].
  destruct (IH t1 H1) as (t2 & ev2 & -> & H2 & N2). cbn [mbind access_bind]. exists t2, (ev1 ++ ev2). split; [done|]. split; [done|]. by apply Forall_app.
Qed.

(** An answer to our own request that names a tunnel which passes through this node. *)
Lemma foreign_answer hash e t item h tn req : _own_id t <> 0 -> _tunnel_requests_origins t !! ok_request_id item = Some req ->
  ti_origin req = _own_id t -> ok_tunnel_id item ∉ responses req -> now e <= ti_time_stamp req + TUNNEL_REQUESTS_RESULT_TIME ->
  _local_tunnels t !! ok_tunnel_id item = Some tn -> local_src tn <> _own_id t ->
  in_order (_incoming_file_hashes t) = [(hash, h)] -> last_request h = ok_request_id item -> use_aggressive_mode h = false ->
  hash ∉ _hashes_to_remove t -> stuck hash (ok_tunnel_id item) (handleTunnelResult e t item).1.
Proof.
  intros Hown Er Ho Hn Hnow Et Hsrc Eh El Ha Hm. unfold handleTunnelResult. rewrite Er, bool_decide_eq_false_2 by done. cbv zeta. cbn [_local_tunnels upd].
  rewrite Et. cbn [_own_id upd]. destruct (Z.ltb_spec (ti_time_stamp req + TUNNEL_REQUESTS_RESULT_TIME) (now e)); [lia|]. rewrite Ho, Z.eqb_refl.
  cbn [_incoming_file_hashes upd]. rewrite Eh. unfold match_hashes. cbn [foldl fst snd]. rewrite El, Z.eqb_refl. cbn [fst].
  unfold start_tunnel. cbv zeta. cbn [_local_tunnels upd]. rewrite Et. constructor; try done.
  - cbn. eexists. rewrite lookup_insert_eq. split; [done|]. case_bool_decide; [done|]. split; [done|]. cbn. apply elem_of_app. right. by left.
  - intros tn'. cbn. rewrite !lookup_insert_eq. cbn. by intros [= <-].
Qed.

(** A tunnel of others stops digging.  A friend answers our request for a file with the id of a tunnel that merely passes through this
    node.  The id enters the list of the hash; closing that tunnel does not take it out, since the tunnel does not start here; and
    the list is not empty any more.  Unless the hash digs aggressively, no tunnel for it is ever dug again, whatever the clock, the
    friends and the random numbers are. *)
Theorem foreign_answer_stops_digging hash e t item h tn req l : _own_id t <> 0 -> _tunnel_requests_origins t !! ok_request_id item = Some req ->
  ti_origin req = _own_id t -> ok_tunnel_id item ∉ responses req -> now e <= ti_time_stamp req + TUNNEL_REQUESTS_RESULT_TIME ->
  _local_tunnels t !! ok_tunnel_id item = Some tn -> local_src tn <> _own_id t ->
  in_order (_incoming_file_hashes t) = [(hash, h)] -> last_request h = ok_request_id item -> use_aggressive_mode h = false ->
  hash ∉ _hashes_to_remove t ->
  exists t' ev, ticks (handleTunnelResult e t item).1 l = Done (t', ev) /\ not_dug hash ev /\
    exists h', _incoming_file_hashes t' !! hash = Some h' /\ ok_tunnel_id item ∈ tunnels h'.
Proof.
  intros. destruct (stuck_ticks hash (ok_tunnel_id item) l _ (foreign_answer hash e t item h tn req ltac:(done) ltac:(done) ltac:(done) ltac:(done) ltac:(done)
    ltac:(done) ltac:(done) ltac:(done) ltac:(done) ltac:(done) ltac:(done))) as (t' & ev & E & [_ (h' & E' & _ & Hin) _ _] & Hd).
  exists t', ev. split; [done|]. split; [done|]. by exists h'.
Qed.
End clean.

(** ** An example: the first of the three nodes, with a tunnel of others from 2 to 3 *)

Module ForeignAnswer.
Import ThreeNodes.

Definition transit_request : RsTurtleOpenTunnelItem := mk_RsTurtleOpenTunnelItem 2 777 99 1234 0.
Definition transit : p3turtle (Z * Z) := Eval vm_compute in
  (handleTunnelResult (demo_env [2; 3]) (handleTunnelRequest demo_pow_int demo_pow (demo_env [2; 3]) dug.1 transit_request).1
    (mk_RsTurtleTunnelOkItem 3 7 99)).1.
Definition bad_answer : RsTurtleTunnelOkItem := mk_RsTurtleTunnelOkItem 2 7 424242.

Definition later (n : Z) : turtle_env := mk_turtle_env n [2; 3] (fun _ => 0x80000) (fun _ => false) (fun _ _ => []) (fun _ _ => []) (fun _ => 12345).

Lemma foreign_answer_stops_digging_witness : exists t' ev,
  ticks demo_pow_int demo_pow (handleTunnelResult (demo_env [2; 3]) transit bad_answer).1 [(later 1100, 5); (later 1200, 6); (later 2000, 7)] = Done (t', ev) /\
  not_dug 555 ev.
Proof.
  destruct (foreign_answer_stops_digging demo_pow_int demo_pow 555 (demo_env [2; 3]) transit bad_answer
    (mk_TurtleHashInfo [] 424242 1000 (Some seeker) false) (mk_TurtleTunnel 2 3 1000 0 (f32_of_Z 0) 0 0) (mk_TurtleTunnelRequestInfo 1 1000 0 ∅)
    [(later 1100, 5); (later 1200, 6); (later 2000, 7)]) as (t' & ev & E & Hd & _); try reflexivity; try (by vm_compute); [apply not_elem_of_empty..|].
  exists t', ev. split; [exact E|exact Hd].
Defined.

(** Without the bad answer the hash is dug again. *)
Example digs_again : match ticks demo_pow_int demo_pow transit [(later 1100, 5)] with
  | Done (_, ev) => existsb (fun ev => match ev with SendItem (OpenTunnel j) => ot_file_hash j =? 555 | _ => false end) ev
  | Oob => false end = true.
Proof. by vm_compute. Qed.

End ForeignAnswer.
