(* ===== verification/StdMap.v ===== *)
(** * Maps ordered by a comparison of keys: std::map

    Where the code keys a [std::map] by something other than a number, the comparison matters: two keys are one to the map
    when neither is less, whether or not they are equal, and iteration follows the comparison.  A map is the list of its
    entries in order.  Assignment through [operator[]] keeps the key that is there. *)

From S2P Require Import Prelude.
From Stdlib Require Import ZArith Lia.
From stdpp Require Import base list sorting.
Open Scope Z_scope.

(** ** Keys *)

Class KeyLt (K : Type) := key_lt : K -> K -> bool.

(** Neither key is less. *)
Definition key_eqv {K} `{KeyLt K} (a b : K) : Prop := key_lt a b = false /\ key_lt b a = false.

(** What [std::map] asks of a comparison. *)
Class StrictWeakOrder (K : Type) `{KeyLt K} : Prop := {
  key_lt_irrefl : forall a : K, key_lt a a = false;
  key_lt_trans : forall a b c : K, key_lt a b = true -> key_lt b c = true -> key_lt a c = true;
  key_eqv_trans : forall a b c : K, key_eqv a b -> key_eqv b c -> key_eqv a c
}.

#[export] Instance key_eqv_dec {K} `{KeyLt K} (a b : K) : Decision (key_eqv a b) := and_dec _ _.

#[export] Instance Z_key_lt : KeyLt Z := Z.ltb.

#[export] Instance Z_key_order : StrictWeakOrder Z.
Proof.
  split; unfold key_eqv, key_lt, Z_key_lt; intros; rewrite ?Z.ltb_lt, ?Z.ltb_ge in *; lia.
Qed.

Lemma Z_key_eqv (a b : Z) : key_eqv a b <-> a = b.
Proof. unfold key_eqv, key_lt, Z_key_lt. rewrite !Z.ltb_ge. lia. Qed.

Section Keys.
Context {K : Type} `{StrictWeakOrder K}.

#[export] Instance key_eqv_equivalence : Equivalence (@key_eqv K _).
Proof.
  split.
  - intros a. split; apply key_lt_irrefl.
  - intros a b [? ?]. by split.
  - intros a b c. apply key_eqv_trans.
Qed.

Lemma key_lt_asym a b : key_lt a b = true -> key_lt b a = false.
Proof.
  intros E. destruct (key_lt b a) eqn:E'; [|done]. pose proof (key_lt_trans _ _ _ E E') as E2. by rewrite key_lt_irrefl in E2.
Qed.

(** Keys that are one to the map compare alike. *)
Lemma key_lt_eqv_l a a' b : key_eqv a a' -> key_lt a b = true -> key_lt a' b = true.
Proof.
  intros Ha Hb. destruct (key_lt a' b) eqn:E1; [done|]. destruct (key_lt b a') eqn:E2.
  - pose proof (key_lt_trans _ _ _ Hb E2) as E3. destruct Ha as [Ha _]. congruence.
  - assert (Hab : key_eqv a b) by (etransitivity; [exact Ha|by split]). destruct Hab. congruence.
Qed.

Lemma key_lt_eqv_r a b b' : key_eqv b b' -> key_lt a b = true -> key_lt a b' = true.
Proof.
  intros Hb Hl. destruct (key_lt a b') eqn:E1; [done|]. destruct (key_lt b' a) eqn:E2.
  - pose proof (key_lt_trans _ _ _ E2 Hl) as E3. destruct Hb as [_ Hb]. congruence.
  - assert (Hab : key_eqv a b) by (etransitivity; [|symmetry; exact Hb]; by split). destruct Hab. congruence.
Qed.

#[export] Instance key_lt_proper : Proper (key_eqv ==> key_eqv ==> (=)) (@key_lt K _).
Proof.
  intros a a' Ha b b' Hb. destruct (key_lt a b) eqn:E1; destruct (key_lt a' b') eqn:E2; [done| | |done].
  - apply (key_lt_eqv_l _ _ _ Ha) in E1. apply (key_lt_eqv_r _ _ _ Hb) in E1. congruence.
  - apply (key_lt_eqv_l _ _ _ (symmetry Ha)) in E2. apply (key_lt_eqv_r _ _ _ (symmetry Hb)) in E2. congruence.
Qed.

End Keys.

(** ** Maps *)

Section Maps.
Context {K V : Type} `{KeyLt K}.
Implicit Types (m : list (K * V)) (k : K) (v : V).

(** The entry [find] points to. *)
Fixpoint map_find m k : option V :=
  match m with
  | [] => None
  | (k', v) :: m => if decide (key_eqv k k') then Some v else map_find m k
  end.

(** [m[k] = v]. *)
Fixpoint map_set m k v : list (K * V) :=
  match m with
  | [] => [(k, v)]
  | (k', v') :: m' =>
      if key_lt k k' then (k, v) :: m
      else if key_lt k' k then (k', v') :: map_set m' k v
      else (k', v) :: m'
  end.

Fixpoint map_erase m k : list (K * V) :=
  match m with
  | [] => []
  | (k', v') :: m => if decide (key_eqv k k') then m else (k', v') :: map_erase m k
  end.

Definition map_sorted : list (K * V) -> Prop := StronglySorted (fun x y => key_lt x.1 y.1 = true).

End Maps.

Section MapFacts.
Context {K V : Type} `{StrictWeakOrder K}.
Implicit Types (m : list (K * V)) (k : K) (v : V).

#[export] Instance map_find_proper m : Proper (key_eqv ==> (=)) (map_find m).
Proof.
  intros k k' Hk. induction m as [|[k0 v0] m IH]; [done|]. cbn. rewrite IH.
  destruct (decide (key_eqv k k0)) as [E|E], (decide (key_eqv k' k0)) as [E'|E']; try done; exfalso.
  - apply E'. by rewrite <- Hk.
  - apply E. by rewrite Hk.
Qed.

(** The entries of a sorted map are what is found. *)
Lemma map_find_elem m k v : map_sorted m -> map_find m k = Some v <-> exists k', key_eqv k k' /\ (k', v) ∈ m.
Proof.
  induction m as [|[k0 v0] m IH]; intros Hs; cbn.
  - split; [done|]. intros (k' & _ & Hin). by apply not_elem_of_nil in Hin.
  - apply StronglySorted_inv in Hs as [Hs Hall]. rewrite Forall_forall in Hall. specialize (IH Hs).
    destruct (decide (key_eqv k k0)) as [E|E].
    + split.
      * intros [= ->]. exists k0. split; [done|by left].
      * intros (k' & Hk & [?|Hin]%elem_of_cons); [by simplify_eq|]. apply Hall in Hin. cbn in Hin.
        rewrite <- Hk, E in Hin. by rewrite key_lt_irrefl in Hin.
    + rewrite IH. split; intros (k' & Hk & Hin).
      * exists k'. split; [done|by right].
      * apply elem_of_cons in Hin as [?|Hin]; [by simplify_eq|]. by exists k'.
Qed.

Lemma elem_of_map_set m k v x : x ∈ map_set m k v -> (exists k', key_eqv k k' /\ x = (k', v)) \/ x ∈ m.
Proof.
  induction m as [|[k0 v0] m IH]; cbn.
  - intros ->%list_elem_of_singleton. left. by exists k.
  - destruct (key_lt k k0) eqn:E1; [|destruct (key_lt k0 k) eqn:E2].
    + intros [->|Hx]%elem_of_cons; [left; by exists k|by right].
    + intros [->|Hx]%elem_of_cons; [right; by left|]. apply IH in Hx as [Hx|Hx]; [by left|right; by right].
    + intros [->|Hx]%elem_of_cons; [left; by exists k0|right; by right].
Qed.

Lemma map_sorted_set m k v : map_sorted m -> map_sorted (map_set m k v).
Proof.
  induction m as [|[k0 v0] m IH]; intros Hs; cbn; [repeat constructor|].
  apply StronglySorted_inv in Hs as [Hs Hall]. destruct (key_lt k k0) eqn:E1; [|destruct (key_lt k0 k) eqn:E2].
  - constructor; [by constructor|]. constructor; [done|]. eapply Forall_impl; [exact Hall|]. intros x Hx. cbn in *.
    by eapply key_lt_trans.
  - constructor; [by apply IH|]. apply Forall_forall. intros x Hx. rewrite Forall_forall in Hall.
    apply elem_of_map_set in Hx as [(k' & Hk & ->)|Hx]; [|by apply Hall]. cbn. by rewrite <- Hk.
  - by constructor.
Qed.

Lemma elem_of_map_erase m k x : x ∈ map_erase m k -> x ∈ m.
Proof.
  induction m as [|[k0 v0] m IH]; cbn; [done|]. destruct (decide (key_eqv k k0)); [by right|].
  intros [->|Hx]%elem_of_cons; [by left|right; by apply IH].
Qed.

Lemma map_sorted_erase m k : map_sorted m -> map_sorted (map_erase m k).
Proof.
  induction m as [|[k0 v0] m IH]; intros Hs; cbn; [done|]. apply StronglySorted_inv in Hs as [Hs Hall].
  destruct (decide (key_eqv k k0)); [done|]. constructor; [by apply IH|]. apply Forall_forall. intros x Hx.
  rewrite Forall_forall in Hall. apply elem_of_map_erase in Hx. by apply Hall.
Qed.

Lemma map_sorted_filter (P : K * V -> Prop) `{forall x, Decision (P x)} m : map_sorted m -> map_sorted (filter P m).
Proof.
  induction m as [|x m IH]; intros Hs; [done|]. apply StronglySorted_inv in Hs as [Hs Hall].
  rewrite filter_cons. destruct (decide (P x)); [|by apply IH]. constructor; [by apply IH|].
  apply Forall_forall. intros y Hy. apply list_elem_of_filter in Hy as [_ Hy]. rewrite Forall_forall in Hall. by apply Hall.
Qed.

Lemma map_find_set_eq m k k' v : key_eqv k k' -> map_find (map_set m k v) k' = Some v.
Proof.
  intros Hk. rewrite <- Hk. clear k' Hk. induction m as [|[k0 v0] m IH]; cbn.
  - by rewrite decide_True.
  - destruct (key_lt k k0) eqn:E1; [|destruct (key_lt k0 k) eqn:E2]; cbn.
    + by rewrite decide_True.
    + rewrite decide_False; [done|]. intros [_ ?]. congruence.
    + by rewrite decide_True.
Qed.

Lemma map_find_set_ne m k k' v : ~ key_eqv k k' -> map_find (map_set m k v) k' = map_find m k'.
Proof.
  intros Hk. assert (Hk' : ~ key_eqv k' k) by (intros E; by apply Hk; symmetry). induction m as [|[k0 v0] m IH]; cbn.
  - by rewrite decide_False.
  - destruct (key_lt k k0) eqn:E1; [|destruct (key_lt k0 k) eqn:E2]; cbn.
    + by rewrite decide_False.
    + by rewrite IH.
    + assert (E : key_eqv k k0) by done. rewrite E in Hk'. by rewrite !decide_False.
Qed.

Lemma map_find_erase_eq m k k' : map_sorted m -> key_eqv k k' -> map_find (map_erase m k) k' = None.
Proof.
  intros Hs Hk. rewrite <- Hk. clear k' Hk. induction m as [|[k0 v0] m IH]; cbn; [done|].
  pose proof Hs as Hs0. apply StronglySorted_inv in Hs as [Hs Hall]. destruct (decide (key_eqv k k0)) as [E|E].
  - destruct (map_find m k) eqn:F; [|done]. apply map_find_elem in F as (k' & Hk' & Hin); [|done].
    rewrite Forall_forall in Hall. apply Hall in Hin. cbn in Hin. rewrite <- Hk', E in Hin. by rewrite key_lt_irrefl in Hin.
  - cbn. rewrite decide_False by done. by apply IH.
Qed.

Lemma map_find_erase_ne m k k' : ~ key_eqv k k' -> map_find (map_erase m k) k' = map_find m k'.
Proof.
  intros Hk. induction m as [|[k0 v0] m IH]; cbn; [done|]. destruct (decide (key_eqv k k0)) as [E|E].
  - rewrite decide_False; [done|]. intros E'. apply Hk. by rewrite E, E'.
  - cbn. by rewrite IH.
Qed.

(** A map built by assignments is sorted. *)
Lemma map_sorted_foldl {A} (f : list (K * V) -> A -> list (K * V)) (l : list A) :
  (forall m x, map_sorted m -> map_sorted (f m x)) -> forall m, map_sorted m -> map_sorted (foldl f m l).
Proof. intros Hf. induction l as [|x l IH]; intros m Hm; cbn; [done|]. by apply IH, Hf. Qed.

Lemma map_sorted_nil : map_sorted (@nil (K * V)).
Proof. constructor. Qed.

End MapFacts.

(** Sortedness of maps goes through every operation. *)
Create HintDb stdmap.
#[export] Hint Resolve map_sorted_nil map_sorted_set map_sorted_erase map_sorted_filter : stdmap.

(** ** Lexicographic comparisons *)

Fixpoint lex_lt (l1 l2 : list Z) : bool :=
  match l1, l2 with
  | x :: l1, y :: l2 => if x =? y then lex_lt l1 l2 else x <? y
  | [], _ :: _ => true
  | _, [] => false
  end.

Lemma lex_lt_irrefl l : lex_lt l l = false.
Proof. induction l as [|x l IH]; cbn; [done|]. by rewrite Z.eqb_refl. Qed.

Lemma lex_lt_trans l1 : forall l2 l3, lex_lt l1 l2 = true -> lex_lt l2 l3 = true -> lex_lt l1 l3 = true.
Proof.
  induction l1 as [|x l1 IH]; intros [|y l2] [|z l3] H1 H2; cbn in *; try done.
  destruct (Z.eqb_spec x y) as [->|E1], (Z.eqb_spec y z) as [->|E2]; [eauto|done| |].
  - by destruct (Z.eqb_spec x z).
  - apply Z.ltb_lt in H1, H2. destruct (Z.eqb_spec x z); [lia|]. apply Z.ltb_lt. lia.
Qed.

Lemma lex_lt_eqv l1 : forall l2, lex_lt l1 l2 = false -> lex_lt l2 l1 = false -> l1 = l2.
Proof.
  induction l1 as [|x l1 IH]; intros [|y l2] H1 H2; cbn in *; try done.
  rewrite (Z.eqb_sym y x) in H2. destruct (Z.eqb_spec x y) as [->|E]; [f_equal; auto|].
  apply Z.ltb_ge in H1, H2. lia.
Qed.

(** A comparison that compares lists of numbers computed from the keys is an order. *)
Section ByList.
Context {K : Type} `{KeyLt K} (f : K -> list Z) (Hf : forall a b, key_lt a b = lex_lt (f a) (f b)).

Lemma key_eqv_by_list a b : key_eqv a b <-> f a = f b.
Proof.
  unfold key_eqv. rewrite !Hf. split; [intros [? ?]; by apply lex_lt_eqv|]. intros ->. by rewrite lex_lt_irrefl.
Qed.

Lemma order_by_list : StrictWeakOrder K.
Proof.
  split.
  - intros a. rewrite Hf. apply lex_lt_irrefl.
  - intros a b c. rewrite !Hf. apply lex_lt_trans.
  - intros a b c. rewrite !key_eqv_by_list. congruence.
Qed.

End ByList.

(** ** Loops over the entries of a map *)

Section Loops.
Context {K W A : Type} `{StrictWeakOrder K}.

(** A loop each of whose turns changes at most the value found at one key. *)
Context (turn : list (K * W) -> A -> list (K * W)) (at_key : A -> K) (new : A -> option W -> option W)
  (Hturn : forall m x k, map_find (turn m x) k = if decide (key_eqv (at_key x) k) then new x (map_find m k) else map_find m k).

Lemma foldl_other_keys (l : list A) : forall m k, (forall x, x ∈ l -> ~ key_eqv (at_key x) k) -> map_find (foldl turn m l) k = map_find m k.
Proof using Hturn.
  induction l as [|x l IH]; intros m k Hk; [done|]. cbn [foldl]. rewrite IH by (intros y Hy; apply Hk; by right).
  rewrite Hturn, decide_False; [done|]. apply Hk. by left.
Qed.

(** The turn for a key, when the keys of the turns ascend. *)
Lemma foldl_one_key (l : list A) : forall m k x, StronglySorted (fun x y => key_lt (at_key x) (at_key y) = true) l ->
  x ∈ l -> key_eqv (at_key x) k -> map_find (foldl turn m l) k = new x (map_find m k).
Proof using All.
  induction l as [|y l IH]; intros m k x Hs Hx Hk; [by apply not_elem_of_nil in Hx|]. apply StronglySorted_inv in Hs as [Hs Hall].
  rewrite Forall_forall in Hall. cbn [foldl]. apply elem_of_cons in Hx as [->|Hx].
  - rewrite foldl_other_keys, Hturn, decide_True; [done|done|]. intros z Hz E. apply Hall in Hz.
    rewrite Hk, E in Hz. by rewrite key_lt_irrefl in Hz.
  - rewrite (IH _ k x) by done. rewrite Hturn, decide_False; [done|]. intros E. apply Hall in Hx.
    rewrite Hk, E in Hx. by rewrite key_lt_irrefl in Hx.
Qed.
End Loops.

Section MoreFacts.
Context {K V : Type} `{StrictWeakOrder K}.
Implicit Types (m : list (K * V)) (k : K) (v : V).

Lemma map_find_filter (P : V -> Prop) `{forall v, Decision (P v)} m k : map_sorted m ->
  map_find (filter (fun kv => P kv.2) m) k = (v ← map_find m k; if decide (P v) then Some v else None).
Proof.
  intros Hs. destruct (map_find m k) as [v|] eqn:E; cbn.
  - apply map_find_elem in E as (k' & Hk & Hin); [|done]. destruct (decide (P v)) as [Hp|Hp].
    + apply map_find_elem; [by apply map_sorted_filter|]. exists k'. split; [done|]. by apply list_elem_of_filter.
    + destruct (map_find (filter _ m) k) as [w|] eqn:E2; [|done]. apply map_find_elem in E2 as (k2 & Hk2 & Hin2); [|by apply map_sorted_filter].
      apply list_elem_of_filter in Hin2 as [Hp2 Hin2]. cbn in Hp2.
      assert (E1 : map_find m k = Some v) by (apply map_find_elem; eauto).
      assert (E3 : map_find m k = Some w) by (apply map_find_elem; eauto). congruence.
  - destruct (map_find (filter _ m) k) as [w|] eqn:E2; [|done]. apply map_find_elem in E2 as (k2 & Hk2 & Hin2); [|by apply map_sorted_filter].
    apply list_elem_of_filter in Hin2 as [_ Hin2]. assert (E3 : map_find m k = Some w) by (apply map_find_elem; eauto). congruence.
Qed.

(** A new key is put between smaller and greater ones. *)
Lemma map_set_new m k v : map_find m k = None -> exists m1 m2, m = m1 ++ m2 /\ map_set m k v = m1 ++ (k, v) :: m2.
Proof.
  induction m as [|[k0 v0] m IH]; cbn; [by exists [], []|]. destruct (decide (key_eqv k k0)) as [E|E]; [done|]. intros Hf.
  destruct (key_lt k k0) eqn:E1; [by exists [], ((k0, v0) :: m)|]. destruct (key_lt k0 k) eqn:E2.
  - destruct (IH Hf) as (m1 & m2 & -> & ->). by exists ((k0, v0) :: m1), m2.
  - by destruct E.
Qed.

Lemma map_find_None m k : map_find m k = None -> forall kv, kv ∈ m -> ~ key_eqv k kv.1.
Proof.
  induction m as [|[k0 v0] m IH]; cbn; intros Hf kv Hin; [by apply not_elem_of_nil in Hin|].
  destruct (decide (key_eqv k k0)); [done|]. apply elem_of_cons in Hin as [->|Hin]; [done|by apply IH].
Qed.

End MoreFacts.

(** ** Maps whose keys follow from the values *)

Section Keyed.
Context {K V : Type} `{StrictWeakOrder K} (f : V -> K).
Implicit Types (m : list (K * V)) (k : K) (v : V).

Definition keyed m : Prop := map_sorted m /\ forall kv, kv ∈ m -> key_eqv kv.1 (f kv.2).

Lemma keyed_nil : keyed [].
Proof. split; [constructor|]. intros kv Hin. by apply not_elem_of_nil in Hin. Qed.

Lemma keyed_set m k v : keyed m -> key_eqv k (f v) -> keyed (map_set m k v).
Proof.
  intros [Hs Hk] Hv. split; [by apply map_sorted_set|]. intros kv Hin.
  apply elem_of_map_set in Hin as [(k' & E & ->)|Hin]; [|by apply Hk]. cbn. by rewrite <- E.
Qed.

Lemma keyed_erase m k : keyed m -> keyed (map_erase m k).
Proof. intros [Hs Hk]. split; [by apply map_sorted_erase|]. intros kv Hin%elem_of_map_erase. by apply Hk. Qed.

Lemma keyed_filter (P : K * V -> Prop) `{forall x, Decision (P x)} m : keyed m -> keyed (filter P m).
Proof. intros [Hs Hk]. split; [by apply map_sorted_filter|]. intros kv [_ Hin]%list_elem_of_filter. by apply Hk. Qed.

Lemma keyed_find m k v : keyed m -> map_find m k = Some v -> key_eqv k (f v).
Proof.
  intros [Hs Hk] Hf. apply map_find_elem in Hf as (k' & E & Hin); [|done]. rewrite E. by apply (Hk (k', v)).
Qed.

(** The keys ascend. *)
Lemma keyed_ascending m : keyed m -> StronglySorted (fun x y => key_lt (f x) (f y) = true) m.*2.
Proof.
  intros [Hs Hk]. induction m as [|[k v] m IH]; cbn; [constructor|]. apply StronglySorted_inv in Hs as [Hs Hall].
  constructor; [apply IH; [done|]; intros kv Hin; apply Hk; by right|]. apply Forall_forall. intros w Hw.
  apply list_elem_of_fmap in Hw as ([k' w'] & -> & Hin). rewrite Forall_forall in Hall. pose proof (Hall _ Hin) as Hlt. cbn in *.
  rewrite (Hk (k, v)) in Hlt by (by left). rewrite (Hk (k', w')) in Hlt by (by right). exact Hlt.
Qed.

(** What is found at a key, as a fact about the values. *)
Lemma keyed_find_value m k : keyed m ->
  (forall v, v ∈ m.*2 -> key_eqv (f v) k -> map_find m k = Some v) /\
  ((forall v, v ∈ m.*2 -> ~ key_eqv (f v) k) -> map_find m k = None).
Proof.
  intros Hm. pose proof Hm as [Hs Hk]. split.
  - intros v Hv E. apply list_elem_of_fmap in Hv as ([k' v'] & -> & Hin). apply map_find_elem; [done|]. exists k'. split; [|done].
    rewrite (Hk (k', v') Hin). by symmetry.
  - intros Hn. destruct (map_find m k) as [v|] eqn:E; [|done]. exfalso.
    pose proof (keyed_find m k v Hm E) as Hv. apply map_find_elem in E as (k' & _ & Hin); [|done].
    apply (Hn v); [|by symmetry]. by apply (list_elem_of_fmap_2 snd m (k', v)).
Qed.

End Keyed.

#[export] Hint Resolve keyed_nil keyed_set keyed_erase keyed_filter : stdmap.
