(* ===== verification/NetAddr.v ===== *)
(** * Network addresses: src/util/rsnet_ss.cc, src/util/rsnet.cc

    A [sockaddr_storage] holds an IPv4 or an IPv6 address; the code casts it to [sockaddr_in] or [sockaddr_in6], which overlap.
    The record below has the fields in the order of the bytes: what [sockaddr_in] calls its address is the flow information
    of [sockaddr_in6].  Numbers are as a little-endian machine loads them, so fields in network order are swapped by
    [ntohs] and [ntohl].  The padding behind the last field is never looked at.  Conversions to and from text are the
    operating system's, and are left out. *)

From S2P Require Import Prelude StdMap.
From Stdlib Require Import ZArith Lia.
From stdpp Require Import base list.
Open Scope Z_scope.

Definition AF_INET : Z := 2.
Definition AF_INET6 : Z := 10.

Record sockaddr_storage := mk_sockaddr {
  ss_family : Z;
  ss_port : Z;
  ss_addr4 : Z;
  s6_addr16 : list Z;
  sin6_scope_id : Z
}.

#[export] Instance eta_sockaddr : Eta sockaddr_storage := fun a =>
  mk_sockaddr (ss_family a) (ss_port a) (ss_addr4 a) (s6_addr16 a) (sin6_scope_id a).

Definition htons (z : Z) : Z := le_val (be_bytes 2 z).
Definition ntohs : Z -> Z := htons.
Definition ntohl (z : Z) : Z := le_val (be_bytes 4 z).

(** ** Set and clear *)

Definition sockaddr_storage_clear : sockaddr_storage := mk_sockaddr 0 0 0 (replicate 8 0) 0.

Definition sockaddr_storage_copy (src : sockaddr_storage) : sockaddr_storage :=
  if ss_family src =? AF_INET then
    sockaddr_storage_clear <| ss_family := AF_INET |> <| ss_addr4 := ss_addr4 src |> <| ss_port := ss_port src |>
  else src.

Definition sockaddr_storage_ipv4_zeroip (addr : sockaddr_storage) : bool * sockaddr_storage := (true, addr <| ss_addr4 := 0 |>).
Definition sockaddr_storage_ipv6_zeroip (addr : sockaddr_storage) : bool * sockaddr_storage :=
  (true, addr <| s6_addr16 := replicate 8 0 |>).

Definition sockaddr_storage_zeroip (addr : sockaddr_storage) : bool * sockaddr_storage :=
  if ss_family addr =? AF_INET then sockaddr_storage_ipv4_zeroip addr
  else if ss_family addr =? AF_INET6 then sockaddr_storage_ipv6_zeroip addr
  else (false, sockaddr_storage_clear).

Definition sockaddr_storage_ipv4_copyip (dst src : sockaddr_storage) : bool * sockaddr_storage :=
  (true, dst <| ss_family := AF_INET |> <| ss_addr4 := ss_addr4 src |>).
Definition sockaddr_storage_ipv6_copyip (dst src : sockaddr_storage) : bool * sockaddr_storage :=
  (true, dst <| ss_family := AF_INET6 |> <| s6_addr16 := s6_addr16 src |>).

Definition sockaddr_storage_copyip (dst src : sockaddr_storage) : bool * sockaddr_storage :=
  if ss_family src =? AF_INET then sockaddr_storage_ipv4_copyip dst src
  else if ss_family src =? AF_INET6 then sockaddr_storage_ipv6_copyip dst src
  else (false, dst).

Definition sockaddr_storage_ipv4_port (addr : sockaddr_storage) : Z := ntohs (ss_port addr).
Definition sockaddr_storage_ipv6_port (addr : sockaddr_storage) : Z := ntohs (ss_port addr).

Definition sockaddr_storage_port (addr : sockaddr_storage) : Z :=
  if ss_family addr =? AF_INET then sockaddr_storage_ipv4_port addr
  else if ss_family addr =? AF_INET6 then sockaddr_storage_ipv6_port addr
  else 0.

Definition sockaddr_storage_ipv4_setport (addr : sockaddr_storage) (port : Z) : bool * sockaddr_storage :=
  (true, addr <| ss_port := htons port |>).
Definition sockaddr_storage_ipv6_setport (addr : sockaddr_storage) (port : Z) : bool * sockaddr_storage :=
  (true, addr <| ss_port := htons port |>).

Definition sockaddr_storage_setport (addr : sockaddr_storage) (port : Z) : bool * sockaddr_storage :=
  if ss_family addr =? AF_INET then sockaddr_storage_ipv4_setport addr port
  else if ss_family addr =? AF_INET6 then sockaddr_storage_ipv6_setport addr port
  else (false, addr).

(** The arguments are the fields of a [sockaddr_in] and of a [sockaddr_in6]. *)
Definition sockaddr_storage_setipv4 (s_addr sin_port : Z) : sockaddr_storage :=
  sockaddr_storage_clear <| ss_family := AF_INET |> <| ss_addr4 := s_addr |> <| ss_port := sin_port |>.
Definition sockaddr_storage_setipv6 (s6_addr : list Z) (sin6_port : Z) : sockaddr_storage :=
  sockaddr_storage_clear <| ss_family := AF_INET6 |> <| s6_addr16 := s6_addr |> <| ss_port := sin6_port |>.

(** ** IPv4 addresses as IPv6 addresses *)

Definition word16 (a : sockaddr_storage) (i : nat) : Z := nth i (s6_addr16 a) 0.

Definition sockaddr_storage_ipv4_to_ipv6 (addr : sockaddr_storage) : bool * sockaddr_storage :=
  if ss_family addr =? AF_INET6 then (true, addr)
  else if ss_family addr =? AF_INET then
    let ip := ss_addr4 addr in
    let port := ss_port addr in
    (true, sockaddr_storage_clear <| ss_family := AF_INET6 |> <| ss_port := port |>
             <| s6_addr16 := [0; 0; 0; 0; 0; htons 0xffff; ip mod 2 ^ 16; ip / 2 ^ 16] |>)
  else (false, addr).

Definition sockaddr_storage_ipv6_to_ipv4 (addr : sockaddr_storage) : bool * sockaddr_storage :=
  if ss_family addr =? AF_INET then (true, addr)
  else if ss_family addr =? AF_INET6 then
    let ipv4m := (word16 addr 5 =? htons 0xffff) && forallb (fun i => word16 addr i =? htons 0) (seq 0 5) in
    if ipv4m then
      let ip := word16 addr 6 + 2 ^ 16 * word16 addr 7 in
      let port := ss_port addr in
      (true, sockaddr_storage_clear <| ss_family := AF_INET |> <| ss_port := port |> <| ss_addr4 := ip |>)
    else (false, addr)
  else (false, addr).

(** ** Comparisons *)

Definition sockaddr_storage_samefamily (a b : sockaddr_storage) : bool := ss_family a =? ss_family b.

Definition sockaddr_storage_ipv4_lessthan (a b : sockaddr_storage) : bool :=
  if ss_addr4 a =? ss_addr4 b then ss_port a <? ss_port b else ss_addr4 a <? ss_addr4 b.
Definition sockaddr_storage_ipv4_same (a b : sockaddr_storage) : bool :=
  (ss_addr4 a =? ss_addr4 b) && (ss_port a =? ss_port b).
Definition sockaddr_storage_ipv4_sameip (a b : sockaddr_storage) : bool := ss_addr4 a =? ss_addr4 b.

(** The [i]-th of the four words the comparisons of IPv6 addresses read. *)
Definition word32 (a : sockaddr_storage) (i : nat) : Z := word16 a (2 * i) + 2 ^ 16 * word16 a (2 * i + 1).

Fixpoint ipv6_less_from (ws : list nat) (a b : sockaddr_storage) : bool :=
  match ws with
  | [] => ss_port a <? ss_port b
  | i :: ws => if word32 a i =? word32 b i then ipv6_less_from ws a b else word32 a i <? word32 b i
  end.

Definition sockaddr_storage_ipv6_lessthan (a b : sockaddr_storage) : bool := ipv6_less_from (seq 0 4) a b.
Definition sockaddr_storage_ipv6_sameip (a b : sockaddr_storage) : bool :=
  forallb (fun i => word32 a i =? word32 b i) (seq 0 4).
Definition sockaddr_storage_ipv6_same (a b : sockaddr_storage) : bool :=
  sockaddr_storage_ipv6_sameip a b && (ss_port a =? ss_port b).

(** [operator<] *)
Definition sockaddr_storage_less (a b : sockaddr_storage) : bool :=
  if negb (sockaddr_storage_samefamily a b) then ss_family a <? ss_family b
  else if ss_family a =? AF_INET then sockaddr_storage_ipv4_lessthan a b
  else if ss_family a =? AF_INET6 then sockaddr_storage_ipv6_lessthan a b
  else false.

Definition sockaddr_storage_same (a b : sockaddr_storage) : bool :=
  if negb (sockaddr_storage_samefamily a b) then false
  else if ss_family a =? AF_INET then sockaddr_storage_ipv4_same a b
  else if ss_family a =? AF_INET6 then sockaddr_storage_ipv6_same a b
  else false.

Definition sockaddr_storage_sameip (a b : sockaddr_storage) : bool :=
  if negb (sockaddr_storage_samefamily a b) then false
  else if ss_family a =? AF_INET then sockaddr_storage_ipv4_sameip a b
  else if ss_family a =? AF_INET6 then sockaddr_storage_ipv6_sameip a b
  else false.

(** ** Net checks

    The first group is about an [in_addr], the number [s_addr]. *)

Definition INADDR_NONE : Z := 0xffffffff.

Definition isValidNet (addr : Z) : bool :=
  if addr =? INADDR_NONE then false else if addr =? 0 then false else true.

Definition isLoopbackNet (addr : Z) : bool := ntohl addr =? Z.lor (Z.shiftl 127 24) 1.

Definition isPrivateNet (addr : Z) : bool :=
  let taddr := ntohl addr in
  if (Z.shiftr taddr 24 =? 10) || (Z.shiftr taddr 20 =? Z.lor (Z.shiftl 172 4) (Z.shiftr 16 4)) ||
     (Z.shiftr taddr 16 =? Z.lor (Z.shiftl 192 8) 168) || (Z.shiftr taddr 16 =? Z.lor (Z.shiftl 169 8) 254)
  then true else false.

Definition isLinkLocalNet (addr : Z) : bool :=
  let taddr := ntohl addr in if Z.shiftr taddr 16 =? Z.lor (Z.shiftl 169 8) 254 then true else false.

Definition isExternalNet (addr : Z) : bool :=
  if negb (isValidNet addr) then false
  else if isLoopbackNet addr then false
  else if isPrivateNet addr then false
  else true.

Definition sockaddr_storage_ipv4_isnull (addr : sockaddr_storage) : bool :=
  if negb (ss_family addr =? AF_INET) then true
  else if (ss_addr4 addr =? 0) || (ss_addr4 addr =? 1) then true
  else false.

Definition sockaddr_storage_ipv4_isValidNet (addr : sockaddr_storage) : bool :=
  if negb (ss_family addr =? AF_INET) then false else isValidNet (ss_addr4 addr).
Definition sockaddr_storage_ipv4_isLoopbackNet (addr : sockaddr_storage) : bool :=
  if negb (ss_family addr =? AF_INET) then false else isLoopbackNet (ss_addr4 addr).
Definition sockaddr_storage_ipv4_isPrivateNet (addr : sockaddr_storage) : bool :=
  if negb (ss_family addr =? AF_INET) then false else isPrivateNet (ss_addr4 addr).
Definition sockaddr_storage_ipv4_isExternalNet (addr : sockaddr_storage) : bool :=
  if negb (ss_family addr =? AF_INET) then false else isExternalNet (ss_addr4 addr).

(** The code computes whether all words are zero, and returns the zero it compared with. *)
Definition sockaddr_storage_ipv6_isnull (addr : sockaddr_storage) : bool :=
  let nZero := htons 0 in
  let isZero := (word16 addr 7 =? nZero) && forallb (fun i => word16 addr i =? nZero) (seq 0 7) in
  negb (nZero =? 0).

Definition sockaddr_storage_ipv6_isValidNet (addr : sockaddr_storage) : bool := negb (sockaddr_storage_ipv6_isnull addr).

Definition sockaddr_storage_ipv6_isLoopbackNet (addr : sockaddr_storage) : bool :=
  (word16 addr 7 =? htons 1) && forallb (fun i => word16 addr i =? htons 0) (seq 0 7).

Definition sockaddr_storage_ipv6_isPrivateNet (addr : sockaddr_storage) : bool := true.
Definition sockaddr_storage_ipv6_isExternalNet (addr : sockaddr_storage) : bool := false.

Definition sockaddr_storage_ipv6_isLinkLocalNet (addr : sockaddr_storage) : bool :=
  if negb (ss_family addr =? AF_INET6) then false
  else Z.land (word16 addr 0) (htons 0xffc0) =? htons 0xfe80.

Definition sockaddr_storage_isnull (addr : sockaddr_storage) : bool :=
  if ss_family addr =? 0 then true
  else if ss_family addr =? AF_INET then sockaddr_storage_ipv4_isnull addr
  else if ss_family addr =? AF_INET6 then sockaddr_storage_ipv6_isnull addr
  else true.

Definition sockaddr_storage_isValidNet (addr : sockaddr_storage) : bool :=
  if ss_family addr =? AF_INET then sockaddr_storage_ipv4_isValidNet addr
  else if ss_family addr =? AF_INET6 then sockaddr_storage_ipv6_isValidNet addr
  else false.

Definition sockaddr_storage_isLoopbackNet (pAddr : sockaddr_storage) : bool :=
  let addr := sockaddr_storage_copy pAddr in
  let addr := (sockaddr_storage_ipv6_to_ipv4 addr).2 in
  if ss_family addr =? AF_INET then sockaddr_storage_ipv4_isLoopbackNet addr
  else if ss_family addr =? AF_INET6 then sockaddr_storage_ipv6_isLoopbackNet addr
  else false.

Definition sockaddr_storage_isPrivateNet (addr : sockaddr_storage) : bool :=
  if ss_family addr =? AF_INET then sockaddr_storage_ipv4_isPrivateNet addr
  else if ss_family addr =? AF_INET6 then sockaddr_storage_ipv6_isPrivateNet addr
  else false.

Definition sockaddr_storage_isLinkLocalNet (addr : sockaddr_storage) : bool :=
  if ss_family addr =? AF_INET then isLinkLocalNet (ss_addr4 addr)
  else if ss_family addr =? AF_INET6 then sockaddr_storage_ipv6_isLinkLocalNet addr
  else false.

Definition sockaddr_storage_isExternalNet (addr : sockaddr_storage) : bool :=
  if ss_family addr =? AF_INET then sockaddr_storage_ipv4_isExternalNet addr
  else if ss_family addr =? AF_INET6 then sockaddr_storage_ipv6_isExternalNet addr
  else false.

(** ** Addresses as keys of maps *)

#[export] Instance sockaddr_key_lt : KeyLt sockaddr_storage := sockaddr_storage_less.

(** What [operator<] looks at. *)
Definition sockaddr_rank (a : sockaddr_storage) : list Z :=
  ss_family a ::
    (if ss_family a =? AF_INET then [ss_addr4 a; ss_port a]
     else if ss_family a =? AF_INET6 then [word32 a 0; word32 a 1; word32 a 2; word32 a 3; ss_port a]
     else []).

Lemma less_rank a b : key_lt a b = lex_lt (sockaddr_rank a) (sockaddr_rank b).
Proof.
  unfold key_lt, sockaddr_key_lt, sockaddr_storage_less, sockaddr_storage_samefamily, sockaddr_rank.
  destruct (Z.eqb_spec (ss_family a) (ss_family b)) as [E|E]; cbn [negb lex_lt].
  - rewrite E, Z.eqb_refl. destruct (ss_family b =? AF_INET).
    { unfold sockaddr_storage_ipv4_lessthan. cbn [lex_lt]. destruct (ss_addr4 a =? ss_addr4 b); [|done].
      destruct (Z.eqb_spec (ss_port a) (ss_port b)); [lia|done]. }
    destruct (ss_family b =? AF_INET6); [|done]. unfold sockaddr_storage_ipv6_lessthan. cbn [seq ipv6_less_from lex_lt].
    do 4 (destruct (word32 a _ =? word32 b _); [|reflexivity]). destruct (Z.eqb_spec (ss_port a) (ss_port b)); [lia|reflexivity].
  - by destruct (Z.eqb_spec (ss_family a) (ss_family b)).
Qed.

#[export] Instance sockaddr_order : StrictWeakOrder sockaddr_storage := order_by_list sockaddr_rank less_rank.

(** C37 [operator<] orders the addresses as [std::map] needs it, and takes two addresses for one exactly if [sockaddr_storage_same]
    says that they are, except that all addresses of one unknown family are one key. *)
Theorem sockaddr_map_keys (a b c : sockaddr_storage) :
  sockaddr_storage_less a a = false /\
  (sockaddr_storage_less a b = true -> sockaddr_storage_less b c = true -> sockaddr_storage_less a c = true) /\
  (key_eqv a b -> key_eqv b c -> key_eqv a c) /\
  (key_eqv a b <->
     sockaddr_storage_same a b = true \/
     ss_family a = ss_family b /\ ss_family a <> AF_INET /\ ss_family a <> AF_INET6).
Proof.
  split; [apply (key_lt_irrefl a)|]. split; [apply (key_lt_trans a b c)|]. split; [apply key_eqv_trans|].
  rewrite (key_eqv_by_list _ less_rank). unfold sockaddr_rank, sockaddr_storage_same, sockaddr_storage_samefamily.
  destruct (Z.eqb_spec (ss_family a) (ss_family b)) as [E|E]; cbn [negb]; [rewrite E|].
  2: { split; [intros [= ? _]; lia|intros [?|[? _]]; [done|lia]]. }
  destruct (Z.eqb_spec (ss_family b) AF_INET) as [E4|N4].
  { unfold sockaddr_storage_ipv4_same. rewrite andb_true_iff, !Z.eqb_eq. split.
    - intros [= -> ->]. by left.
    - intros [[-> ->]|(_ & ? & _)]; done. }
  destruct (Z.eqb_spec (ss_family b) AF_INET6) as [E6|N6]; [|split; [by right|done]].
  unfold sockaddr_storage_ipv6_same, sockaddr_storage_ipv6_sameip. cbn [seq forallb]. rewrite !andb_true_iff, !Z.eqb_eq. split.
  - intros [= -> -> -> -> ->]. by left.
  - intros [((-> & -> & -> & -> & _) & ->)|(_ & _ & ?)]; done.
Qed.

(** ** Dotted addresses *)

Definition octet (z : Z) : Prop := 0 <= z < 256.

Definition dotted_word (a b c d : Z) : Z := a + 2 ^ 8 * b + 2 ^ 16 * c + 2 ^ 24 * d.

Definition dotted (a b c d : Z) : sockaddr_storage := sockaddr_storage_setipv4 (dotted_word a b c d) 0.

Lemma dotted_word_ok a b c d : octet a -> octet b -> octet c -> octet d -> is_word 32 (dotted_word a b c d).
Proof. unfold octet, is_word, dotted_word. lia. Qed.

Lemma dotted_word_inj a b c d a' b' c' d' : octet a -> octet b -> octet c -> octet a' -> octet b' -> octet c' ->
  dotted_word a b c d = dotted_word a' b' c' d' -> a = a' /\ b = b' /\ c = c' /\ d = d'.
Proof. unfold octet, dotted_word. lia. Qed.

(** Every word is a dotted address. *)
Lemma dotted_word_surj w : is_word 32 w -> exists a b c d, octet a /\ octet b /\ octet c /\ octet d /\ w = dotted_word a b c d.
Proof.
  unfold is_word, octet, dotted_word. intros Hw.
  pose proof (Z.div_mod w 256). pose proof (Z.mod_pos_bound w 256). set (w1 := w / 256) in *.
  pose proof (Z.div_mod w1 256). pose proof (Z.mod_pos_bound w1 256). set (w2 := w1 / 256) in *.
  pose proof (Z.div_mod w2 256). pose proof (Z.mod_pos_bound w2 256).
  exists (w mod 256), (w1 mod 256), (w2 mod 256), (w2 / 256). lia.
Qed.

Lemma ntohl_dotted a b c d : octet a -> octet b -> octet c -> octet d ->
  ntohl (dotted_word a b c d) = 2 ^ 24 * a + 2 ^ 16 * b + 2 ^ 8 * c + d.
Proof.
  unfold octet, ntohl, dotted_word. intros Ha Hb Hc Hd. unfold be_bytes, le_val. cbn [app fold_right].
  replace (a + 2 ^ 8 * b + 2 ^ 16 * c + 2 ^ 24 * d) with (a + (b + (c + d * 256) * 256) * 256) by lia.
  assert (D : forall x y, 0 <= x < 256 -> (x + y * 256) / 256 = y) by (intros; rewrite Z.div_add, Z.div_small by lia; lia).
  assert (M : forall x y, 0 <= x < 256 -> (x + y * 256) mod 256 = x) by (intros; rewrite Z.mod_add, Z.mod_small by lia; lia).
  rewrite !D, !M, (Z.mod_small d) by done. lia.
Qed.

Lemma isPrivateNet_dotted a b c d : octet a -> octet b -> octet c -> octet d ->
  isPrivateNet (dotted_word a b c d) = true <-> a = 10 \/ (a = 172 /\ 16 <= b < 32) \/ (a = 192 /\ b = 168) \/ (a = 169 /\ b = 254).
Proof.
  intros Ha Hb Hc Hd. unfold isPrivateNet. rewrite ntohl_dotted by done. unfold octet in *.
  set (t := 2 ^ 24 * a + 2 ^ 16 * b + 2 ^ 8 * c + d).
  assert (E16 : Z.shiftr t 16 = 256 * a + b) by (rewrite Z.shiftr_div_pow2 by lia; symmetry; apply (Z.div_unique _ _ _ (256 * c + d)); lia).
  assert (E24 : Z.shiftr t 24 = a) by (rewrite Z.shiftr_div_pow2 by lia; symmetry; apply (Z.div_unique _ _ _ (2 ^ 16 * b + 256 * c + d)); lia).
  assert (E20 : Z.shiftr t 20 = 16 * a + b / 16).
  { rewrite Z.shiftr_div_pow2 by lia. symmetry. pose proof (Z.div_mod b 16). pose proof (Z.mod_pos_bound b 16).
    apply (Z.div_unique _ _ _ (2 ^ 16 * (b mod 16) + 256 * c + d)); lia. }
  rewrite E16, E24, E20. change (Z.lor (Z.shiftl 172 4) (Z.shiftr 16 4)) with 2753. change (Z.lor (Z.shiftl 192 8) 168) with 49320.
  change (Z.lor (Z.shiftl 169 8) 254) with 43518. pose proof (Z.div_mod b 16). pose proof (Z.mod_pos_bound b 16).
  destruct (Z.eqb_spec a 10); [cbn; split; [by left|done]|].
  destruct (Z.eqb_spec (16 * a + b / 16) 2753); [cbn; split; [intros _; right; left; lia|done]|].
  destruct (Z.eqb_spec (256 * a + b) 49320); [cbn; split; [intros _; right; right; left; lia|done]|].
  destruct (Z.eqb_spec (256 * a + b) 43518); cbn; (split; [|lia]); [intros _; right; right; right; lia|done].
Qed.

(** An IPv4 address survives the way through IPv6. *)
Lemma ipv4_in_ipv6 (addr : sockaddr_storage) : ss_family addr = AF_INET ->
  sockaddr_storage_ipv6_to_ipv4 (sockaddr_storage_ipv4_to_ipv6 addr).2 = (true, sockaddr_storage_copy addr).
Proof.
  intros E. unfold sockaddr_storage_ipv4_to_ipv6, sockaddr_storage_copy. rewrite E. cbn [Z.eqb AF_INET AF_INET6 Pos.eqb snd].
  unfold sockaddr_storage_ipv6_to_ipv4. cbn -[Z.pow Z.div Z.modulo Z.mul Z.add htons]. change (htons 0xffff =? htons 0xffff) with true.
  change (0 =? htons 0) with true. cbn [andb].
  replace (_ + _) with (ss_addr4 addr) by (pose proof (Z.div_mod (ss_addr4 addr) (2 ^ 16)); lia). reflexivity.
Qed.

(** Which IPv4 addresses are valid, loopback, private and external, in their four octets; and that the same address
    written as IPv6 is still recognised as loopback but counts as valid and private whatever it is. *)
Theorem address_classes (a b c d : Z) (Ha : octet a) (Hb : octet b) (Hc : octet c) (Hd : octet d) :
  let addr := dotted a b c d in
  let mapped := (sockaddr_storage_ipv4_to_ipv6 addr).2 in
  let valid := ~ (a = 0 /\ b = 0 /\ c = 0 /\ d = 0) /\ ~ (a = 255 /\ b = 255 /\ c = 255 /\ d = 255) in
  let loopback := a = 127 /\ b = 0 /\ c = 0 /\ d = 1 in
  let private := a = 10 \/ (a = 172 /\ 16 <= b < 32) \/ (a = 192 /\ b = 168) \/ (a = 169 /\ b = 254) in
  (sockaddr_storage_isValidNet addr = true <-> valid) /\
  (sockaddr_storage_isLoopbackNet addr = true <-> loopback) /\
  (sockaddr_storage_isPrivateNet addr = true <-> private) /\
  (sockaddr_storage_isExternalNet addr = true <-> valid /\ ~ loopback /\ ~ private) /\
  sockaddr_storage_ipv6_to_ipv4 mapped = (true, addr) /\
  sockaddr_storage_isLoopbackNet mapped = sockaddr_storage_isLoopbackNet addr /\
  sockaddr_storage_isValidNet mapped = true /\ sockaddr_storage_isnull mapped = false /\
  sockaddr_storage_isPrivateNet mapped = true /\ sockaddr_storage_isExternalNet mapped = false.
Proof.
  cbv zeta. assert (Hv : isValidNet (dotted_word a b c d) = true <->
    ~ (a = 0 /\ b = 0 /\ c = 0 /\ d = 0) /\ ~ (a = 255 /\ b = 255 /\ c = 255 /\ d = 255)).
  { unfold isValidNet, INADDR_NONE, dotted_word, octet in *. destruct (Z.eqb_spec (a + 2 ^ 8 * b + 2 ^ 16 * c + 2 ^ 24 * d) 0xffffffff); [split; [done|lia]|].
    destruct (Z.eqb_spec (a + 2 ^ 8 * b + 2 ^ 16 * c + 2 ^ 24 * d) 0); (split; [|done || lia]); [done|lia]. }
  assert (Hl : isLoopbackNet (dotted_word a b c d) = true <-> a = 127 /\ b = 0 /\ c = 0 /\ d = 1).
  { unfold isLoopbackNet. rewrite ntohl_dotted by done. change (Z.lor (Z.shiftl 127 24) 1) with 2130706433.
    unfold octet in *. rewrite Z.eqb_eq. lia. }
  pose proof (isPrivateNet_dotted a b c d Ha Hb Hc Hd) as Hp.
  split; [exact Hv|]. split; [exact Hl|]. split; [exact Hp|]. split.
  { change (sockaddr_storage_isExternalNet (dotted a b c d)) with (isExternalNet (dotted_word a b c d)). unfold isExternalNet.
    rewrite <- Hv, <- Hl, <- Hp. destruct (isValidNet _), (isLoopbackNet _), (isPrivateNet _); cbn; intuition done. }
  pose proof (ipv4_in_ipv6 (dotted a b c d) eq_refl) as Hm. split; [exact Hm|]. split; [|done].
  unfold sockaddr_storage_isLoopbackNet.
  replace (sockaddr_storage_copy (sockaddr_storage_ipv4_to_ipv6 (dotted a b c d)).2) with (sockaddr_storage_ipv4_to_ipv6 (dotted a b c d)).2 by done.
  by rewrite Hm.
Qed.

Lemma address_classes_witness :
  octet 8 /\ sockaddr_storage_isExternalNet (dotted 8 8 4 4) = true /\
  sockaddr_storage_isExternalNet (sockaddr_storage_ipv4_to_ipv6 (dotted 8 8 4 4)).2 = false.
Proof.
  assert (H8 : octet 8) by (unfold octet; lia). assert (H4 : octet 4) by (unfold octet; lia).
  destruct (address_classes 8 8 4 4 H8 H8 H4 H4) as (_ & _ & _ & E & _ & _ & _ & _ & _ & M).
  split; [exact H8|]. split; [apply E; lia|exact M].
Defined.
