(* ===== verification/BanList.v ===== *)
(** * The list of banned addresses: src/services/p3banlist.cc, p3banlist.h, retroshare/rsbanlist.h

    Which addresses may connect.  The user bans or allows ranges; the DHT and the friends report single addresses, which are
    kept per source and condensed into one set; ranges are banned automatically where the set is dense.  A range is a key
    of a map: the address with its masked octets set to 255.

    The clock, the own id, the friends online and what the DHT found are the record [ban_env].  Items to send are part of the
    results; [mConfigChanged] is the mark that [IndicateConfigChanged] sets in the base class.  Levels come as 32-bit
    numbers from friends and are converted to and from [int] unchanged. *)

From S2P Require Import Prelude RawSerial Tlv TlvSets StdMap NetAddr.
From Stdlib Require Import ZArith Lia Ascii String.
From stdpp Require Import base list.
Open Scope Z_scope.

(** ** Constants *)

Definition RSBANLIST_ENTRY_MAX_AGE : Z := 60 * 60 * 24.
Definition RSBANLIST_SEND_PERIOD : Z := 600.
Definition RSBANLIST_DELAY_BETWEEN_TALK_TO_DHT : Z := 240.

Definition RSBANLIST_ORIGIN_UNKNOWN : Z := 0.
Definition RSBANLIST_ORIGIN_SELF : Z := 1.
Definition RSBANLIST_ORIGIN_FRIEND : Z := 2.

Definition RSBANLIST_REASON_UNKNOWN : Z := 0.
Definition RSBANLIST_REASON_USER : Z := 1.
Definition RSBANLIST_REASON_DHT : Z := 2.
Definition RSBANLIST_REASON_AUTO_RANGE : Z := 3.

Definition RSBANLIST_CHECKING_FLAGS_BLACKLIST : Z := 1.
Definition RSBANLIST_CHECKING_FLAGS_WHITELIST : Z := 2.

Definition RSBANLIST_CHECK_RESULT_NOCHECK : Z := 1.
Definition RSBANLIST_CHECK_RESULT_BLACKLISTED : Z := 2.
Definition RSBANLIST_CHECK_RESULT_NOT_WHITELISTED : Z := 3.
Definition RSBANLIST_CHECK_RESULT_ACCEPTED : Z := 4.

Definition RSBANLIST_TYPE_PEERLIST : Z := 1.
Definition RSBANLIST_TYPE_BLACKLIST : Z := 2.
Definition RSBANLIST_TYPE_WHITELIST : Z := 3.

(** ** State *)

Record BanListPeer := mk_BanListPeer {
  addr : sockaddr_storage;
  masked_bytes : Z;
  reason : Z;
  level : Z;
  state : bool;
  connect_attempts : Z;
  mTs : Z;
  comment : list Z
}.

#[export] Instance eta_BanListPeer : Eta BanListPeer := fun p =>
  mk_BanListPeer (addr p) (masked_bytes p) (reason p) (level p) (state p) (connect_attempts p) (mTs p) (comment p).

Definition new_BanListPeer : BanListPeer :=
  mk_BanListPeer sockaddr_storage_clear 0 RSBANLIST_REASON_UNKNOWN RSBANLIST_ORIGIN_UNKNOWN true 0 0 [].

Record RsTlvBanListEntry := mk_BanListEntry {
  e_addr : sockaddr_storage; e_level : Z; e_reason : Z; e_age : Z; e_masked_bytes : Z; e_comment : list Z }.

Definition toRsTlvBanListEntry (now : Z) (p : BanListPeer) : RsTlvBanListEntry :=
  mk_BanListEntry (addr p) (level p) (reason p) (u32 (now - mTs p)) (masked_bytes p) (comment p).

Definition fromRsTlvBanListEntry (now : Z) (e : RsTlvBanListEntry) : BanListPeer :=
  mk_BanListPeer (e_addr e) (e_masked_bytes e) (e_reason e) (e_level e) true 0 (now - e_age e) (e_comment e).

Abbreviation addr_map := (list (sockaddr_storage * BanListPeer)).

(** [BanList] *)
Record BanSource := mk_BanSource { mPeerId : Z; mLastUpdate : Z; mBanPeers : addr_map }.

#[export] Instance eta_BanSource : Eta BanSource := fun s => mk_BanSource (mPeerId s) (mLastUpdate s) (mBanPeers s).

Record p3BanList := mk_p3BanList {
  mSentListTime : Z;
  mBanSources : list (Z * BanSource);
  mBanSet : addr_map;
  mBanRanges : addr_map;
  mWhiteListedRanges : addr_map;
  mLastDhtInfoRequest : Z;
  mAutoRangeLimit : Z;
  mAutoRangeIps : bool;
  mIPFilteringEnabled : bool;
  mIPFriendGatheringEnabled : bool;
  mIPDHTGatheringEnabled : bool;
  mConfigChanged : bool
}.

#[export] Instance eta_p3BanList : Eta p3BanList := fun t =>
  mk_p3BanList (mSentListTime t) (mBanSources t) (mBanSet t) (mBanRanges t) (mWhiteListedRanges t) (mLastDhtInfoRequest t)
    (mAutoRangeLimit t) (mAutoRangeIps t) (mIPFilteringEnabled t) (mIPFriendGatheringEnabled t) (mIPDHTGatheringEnabled t)
    (mConfigChanged t).

Definition new_p3BanList : p3BanList := mk_p3BanList 0 [] [] [] [] 0 2 true true false false false.

(** An address the DHT filters: its number and port, and when it was seen last. *)
Record RsDhtFilteredPeer := mk_FilteredPeer { mAddr : Z; mPort : Z; mLastSeen : Z }.

Record ban_env := mk_ban_env { now : Z; ownId : Z; peersConnected : list Z; listOfBannedIps : list RsDhtFilteredPeer }.

Definition IndicateConfigChanged (t : p3BanList) : p3BanList := t <| mConfigChanged := true |>.

(** ** Ranges *)

Definition getBitRange (addr : sockaddr_storage) : Z :=
  let s := (sockaddr_storage_copyip sockaddr_storage_clear addr).2 in
  if negb (Z.land (ss_addr4 s) 0xff000000 =? 0xff000000) then 0
  else if negb (Z.land (ss_addr4 s) 0x00ff0000 =? 0x00ff0000) then 1
  else if negb (Z.land (ss_addr4 s) 0x0000ff00 =? 0x0000ff00) then 2
  else if negb (Z.land (ss_addr4 s) 0x000000ff =? 0x000000ff) then 3
  else 4.

Definition makeBitsRange (addr : sockaddr_storage) (masked_bytes : Z) : sockaddr_storage :=
  let s := (sockaddr_storage_copyip sockaddr_storage_clear addr).2 in
  if masked_bytes =? 1 then s <| ss_addr4 := Z.lor (ss_addr4 s) 0xff000000 |>
  else if masked_bytes =? 2 then s <| ss_addr4 := Z.lor (ss_addr4 s) 0xffff0000 |>
  else s.

Definition isWhiteListed_locked (t : p3BanList) (addr : sockaddr_storage) : bool :=
  if map_find (mWhiteListedRanges t) (makeBitsRange addr 0) is Some _ then true
  else if map_find (mWhiteListedRanges t) (makeBitsRange addr 1) is Some _ then true
  else if map_find (mWhiteListedRanges t) (makeBitsRange addr 2) is Some _ then true
  else false.

(** ** Condensing the sources *)

(** The key of a single address. *)
Definition banned_key (addr : sockaddr_storage) : sockaddr_storage :=
  let bannedaddr := sockaddr_storage_clear <| ss_family := AF_INET |> in
  let bannedaddr := (sockaddr_storage_copyip bannedaddr addr).2 in
  (sockaddr_storage_setport bannedaddr 0).2.

Definition condense_entry (t : p3BanList) (now : Z) (own : bool) (set : addr_map) (p : BanListPeer) : addr_map :=
  if RSBANLIST_ENTRY_MAX_AGE + mTs p <? now then set
  else
    let lvl := if own then level p else u32 (level p + 1) in
    let bannedaddr := banned_key (addr p) in
    if isWhiteListed_locked t bannedaddr then set
    else
      let enter := map_set set bannedaddr
        (p <| level := lvl |> <| masked_bytes := 0 |> <| addr := (sockaddr_storage_setport (addr p) 0).2 |>) in
      match map_find set bannedaddr with
      | None => enter
      | Some s =>
          if lvl <? level s then enter
          else if lvl =? level s then
            map_set set bannedaddr
              (s <| reason := Z.lor (reason s) (reason p) |> <| mTs := if mTs s <? mTs p then mTs p else mTs s |>)
          else set
      end.

Definition condense_source (t : p3BanList) (e : ban_env) (set : addr_map) (src : Z * BanSource) : addr_map :=
  if RSBANLIST_ENTRY_MAX_AGE <? now e - mLastUpdate src.2 then set
  else foldl (fun set kp => condense_entry t (now e) (src.1 =? ownId e) set kp.2) set (mBanPeers src.2).

Definition condenseBanSources_locked (e : ban_env) (t : p3BanList) : p3BanList :=
  t <| mBanSet := foldl (condense_source t e) [] (mBanSources t) |>.

(** ** Automatic ranges *)

Definition not_automatic (kp : sockaddr_storage * BanListPeer) : Prop := reason kp.2 <> RSBANLIST_REASON_AUTO_RANGE.

#[export] Instance not_automatic_dec kp : Decision (not_automatic kp) := _.

Definition range_counts (set : addr_map) : list (sockaddr_storage * Z) :=
  foldl (fun m kp => let k := makeBitsRange kp.1 1 in map_set m k (u32 (default 0 (map_find m k) + 1))) [] set.

Definition ban_dense_range (now limit : Z) (ranges : addr_map) (kn : sockaddr_storage * Z) : addr_map :=
  let '(k, n) := kn in
  if limit <=? n then
    let peer := default new_BanListPeer (map_find ranges k) in
    if reason peer =? RSBANLIST_REASON_USER then map_set ranges k peer
    else map_set ranges k (peer <| addr := k |> <| masked_bytes := 1 |> <| reason := RSBANLIST_REASON_AUTO_RANGE |>
                             <| level := RSBANLIST_ORIGIN_SELF |> <| state := true |> <| mTs := now |> <| connect_attempts := sint32 n |>)
  else ranges.

Definition autoFigureOutBanRanges (e : ban_env) (t : p3BanList) : p3BanList :=
  let t := IndicateConfigChanged (t <| mBanRanges := filter not_automatic (mBanRanges t) |>) in
  if negb (mAutoRangeIps t) then t
  else
    let t := t <| mBanRanges := foldl (ban_dense_range (now e) (mAutoRangeLimit t)) (mBanRanges t) (range_counts (mBanSet t)) |> in
    condenseBanSources_locked e t.

(** ** Which addresses are accepted *)

Definition acceptedBanSet_locked (t : p3BanList) (blp : BanListPeer) : bool :=
  if (1 <? level blp) && mIPFriendGatheringEnabled t then true
  else if reason blp =? RSBANLIST_REASON_USER then true
  else if reason blp =? RSBANLIST_REASON_DHT then mIPDHTGatheringEnabled t && (level blp =? 1)
  else false.

Definition acceptedBanRanges_locked (t : p3BanList) (blp : BanListPeer) : bool :=
  if reason blp =? RSBANLIST_REASON_USER then true
  else if reason blp =? RSBANLIST_REASON_AUTO_RANGE then mAutoRangeIps t
  else false.

(** [++it->second.connect_attempts] *)
Definition count_attempt (m : addr_map) (k : sockaddr_storage) (p : BanListPeer) : addr_map :=
  map_set m k (p <| connect_attempts := sint32 (connect_attempts p + 1) |>).

(** The entry of a range that is in force. *)
Definition range_hit (t : p3BanList) (k : sockaddr_storage) : option BanListPeer :=
  p ← map_find (mBanRanges t) k; if acceptedBanRanges_locked t p then Some p else None.

Definition set_hit (t : p3BanList) (k : sockaddr_storage) : option BanListPeer :=
  p ← map_find (mBanSet t) k; if acceptedBanSet_locked t p then Some p else None.

(** The answer, the reason for it, and the state with the attempt counted. *)
Definition isAddressAccepted (t : p3BanList) (dAddr : sockaddr_storage) (checking_flags : Z) : bool * Z * p3BanList :=
  let '(ok, addr) := sockaddr_storage_ipv6_to_ipv4 (sockaddr_storage_copy dAddr) in
  if negb ok then (true, RSBANLIST_CHECK_RESULT_NOCHECK, t)
  else if sockaddr_storage_isLoopbackNet addr then (true, RSBANLIST_CHECK_RESULT_NOCHECK, t)
  else if negb (mIPFilteringEnabled t) then (true, RSBANLIST_CHECK_RESULT_NOCHECK, t)
  else
    let addr_32 := makeBitsRange addr 0 in
    let addr_24 := makeBitsRange addr 1 in
    let addr_16 := makeBitsRange addr 2 in
    let found k := if map_find (mWhiteListedRanges t) k is Some _ then true else false in
    let white_list_found := found addr_16 || found addr_24 || found addr_32 in
    if white_list_found then (true, RSBANLIST_CHECK_RESULT_ACCEPTED, t)
    else if negb (Z.land checking_flags RSBANLIST_CHECKING_FLAGS_WHITELIST =? 0) then
      (false, RSBANLIST_CHECK_RESULT_NOT_WHITELISTED, t)
    else if Z.land checking_flags RSBANLIST_CHECKING_FLAGS_BLACKLIST =? 0 then (true, RSBANLIST_CHECK_RESULT_ACCEPTED, t)
    else
      let reject_range k p := (false, RSBANLIST_CHECK_RESULT_BLACKLISTED, t <| mBanRanges := count_attempt (mBanRanges t) k p |>) in
      match range_hit t addr_16 with
      | Some p => reject_range addr_16 p
      | None =>
          match range_hit t addr_24 with
          | Some p => reject_range addr_24 p
          | None =>
              match range_hit t addr_32 with
              | Some p => reject_range addr_32 p
              | None =>
                  match set_hit t addr_32 with
                  | Some p => (false, RSBANLIST_CHECK_RESULT_BLACKLISTED, t <| mBanSet := count_attempt (mBanSet t) addr_32 p |>)
                  | None => (true, RSBANLIST_CHECK_RESULT_ACCEPTED, t)
                  end
              end
          end
      end.

Definition getWhiteListedIps (t : p3BanList) : list BanListPeer := (mWhiteListedRanges t).*2.

Definition banned_alone (t : p3BanList) (kp : sockaddr_storage * BanListPeer) : bool :=
  if negb (acceptedBanSet_locked t kp.2) then false
  else match range_hit t (makeBitsRange kp.1 1) with
       | Some _ => false
       | None => match range_hit t (makeBitsRange kp.1 2) with Some _ => false | None => true end
       end.

Definition getBannedIps (t : p3BanList) : list BanListPeer :=
  (filter (fun kp => banned_alone t kp = true) (mBanSet t)).*2 ++
  (filter (fun kp => acceptedBanRanges_locked t kp.2 = true) (mBanRanges t)).*2.

(** ** Ranges of the user *)

Definition removeIpRange (e : ban_env) (t : p3BanList) (dAddr : sockaddr_storage) (masked_bytes list_type : Z) : bool * p3BanList :=
  let '(ok, addr) := sockaddr_storage_ipv6_to_ipv4 (sockaddr_storage_copy dAddr) in
  if negb ok then (false, t)
  else
    let k := makeBitsRange addr masked_bytes in
    let '(changed, t) :=
      if list_type =? RSBANLIST_TYPE_BLACKLIST then
        match map_find (mBanRanges t) k with
        | Some _ => (true, IndicateConfigChanged (t <| mBanRanges := map_erase (mBanRanges t) k |>))
        | None => (false, t)
        end
      else if list_type =? RSBANLIST_TYPE_WHITELIST then
        match map_find (mWhiteListedRanges t) k with
        | Some _ => (true, IndicateConfigChanged (t <| mWhiteListedRanges := map_erase (mWhiteListedRanges t) k |>))
        | None => (false, t)
        end
      else (false, t) in
    (changed, condenseBanSources_locked e t).

(** The entries of the address with fewer octets masked are erased, then the new one is set. *)
Definition insert_range (banlist : addr_map) (addr : sockaddr_storage) (masked_bytes : Z) (blp : BanListPeer) : addr_map :=
  let banlist := foldl (fun m i => map_erase m (makeBitsRange addr (Z.of_nat i))) banlist (seq 0 (Z.to_nat masked_bytes)) in
  map_set banlist (makeBitsRange addr masked_bytes) blp.

Definition addIpRange (e : ban_env) (t : p3BanList) (dAddr : sockaddr_storage) (mask list_type : Z) (cmt : list Z)
    : bool * p3BanList :=
  let '(ok, a) := sockaddr_storage_ipv6_to_ipv4 (sockaddr_storage_copy dAddr) in
  if negb ok then (false, t)
  else if u32 mask <? getBitRange a then (false, t)
  else
    let blp := new_BanListPeer <| level := RSBANLIST_ORIGIN_SELF |> <| connect_attempts := 0 |> <| addr := a |>
                 <| masked_bytes := wrap 8 mask |> <| mTs := now e |> <| reason := RSBANLIST_REASON_USER |> <| comment := cmt |> in
    if negb ((mask =? 0) || (mask =? 1) || (mask =? 2)) then (false, t)
    else if negb ((list_type =? RSBANLIST_TYPE_BLACKLIST) || (list_type =? RSBANLIST_TYPE_WHITELIST)) then (false, t)
    else
      let t := if list_type =? RSBANLIST_TYPE_BLACKLIST then t <| mBanRanges := insert_range (mBanRanges t) a mask blp |>
               else t <| mWhiteListedRanges := insert_range (mWhiteListedRanges t) a mask blp |> in
      (true, condenseBanSources_locked e (IndicateConfigChanged t)).

Definition enableIPFiltering (t : p3BanList) (b : bool) : p3BanList := t <| mIPFilteringEnabled := b |>.
Definition enableIPsFromFriends (t : p3BanList) (b : bool) : p3BanList :=
  t <| mIPFriendGatheringEnabled := b |> <| mLastDhtInfoRequest := 0 |>.
Definition enableIPsFromDHT (t : p3BanList) (b : bool) : p3BanList :=
  IndicateConfigChanged (t <| mIPDHTGatheringEnabled := b |> <| mLastDhtInfoRequest := 0 |>).
Definition enableAutoRange (e : ban_env) (t : p3BanList) (b : bool) : p3BanList :=
  IndicateConfigChanged (autoFigureOutBanRanges e (t <| mAutoRangeIps := b |>)).

(** The [int] becomes unsigned. *)
Definition setAutoRangeLimit (e : ban_env) (t : p3BanList) (n : Z) : p3BanList :=
  IndicateConfigChanged (autoFigureOutBanRanges e (t <| mAutoRangeLimit := u32 n |>)).

(** ** Reports of single addresses *)

Definition addBanEntry (e : ban_env) (t : p3BanList) (peerId : Z) (dAddr : sockaddr_storage) (lvl rsn time_stamp : Z)
    : bool * p3BanList :=
  let '(ok, a) := sockaddr_storage_ipv6_to_ipv4 (sockaddr_storage_copy dAddr) in
  if negb ok then (false, t)
  else if negb (sockaddr_storage_isExternalNet a) then (false, t)
  else
    let '(updated, src) :=
      match map_find (mBanSources t) peerId with
      | None => (true, mk_BanSource peerId (now e) [])
      | Some src => (false, src)
      end in
    let bannedaddr := banned_key a in
    let '(updated, src) :=
      match map_find (mBanPeers src) bannedaddr with
      | None =>
          let blp := new_BanListPeer <| addr := a |> <| reason := rsn |> <| level := lvl |> <| mTs := time_stamp |> <| masked_bytes := 0 |> in
          (true, src <| mBanPeers := map_set (mBanPeers src) bannedaddr blp |> <| mLastUpdate := now e |>)
      | Some p =>
          if negb (reason p =? rsn) || negb (level p =? lvl) || (mTs p <? time_stamp) then
            let p := p <| addr := a |> <| reason := rsn |> <| level := lvl |> <| mTs := time_stamp |> <| masked_bytes := 0 |> in
            (true, src <| mBanPeers := map_set (mBanPeers src) bannedaddr p |> <| mLastUpdate := now e |>)
          else (updated, src)
      end in
    let t := t <| mBanSources := map_set (mBanSources t) peerId src |> in
    (updated, if updated then IndicateConfigChanged t else t).

(** A list a friend sent. *)
Record RsBanListItem := mk_BanListItem { PeerId : Z; peerList : list RsTlvBanListEntry }.

Definition recvBanItem (e : ban_env) (t : p3BanList) (item : RsBanListItem) : bool * p3BanList :=
  foldl (fun r entry =>
           let '(updated, t) := addBanEntry e r.2 (PeerId item) (e_addr entry) (e_level entry) (e_reason entry) (now e - e_age entry) in
           (updated || r.1, t))
    (false, t) (peerList item).

(** The items that wait, [None] for one of another subtype. *)
Definition processIncoming (e : ban_env) (t : p3BanList) (items : list (option RsBanListItem)) : p3BanList :=
  let '(updated, t) :=
    foldl (fun r item =>
             match item with
             | None => r
             | Some item => let '(updated, t) := recvBanItem e r.2 item in (updated || r.1, t)
             end) (false, t) items in
  if updated then condenseBanSources_locked e t else t.

(** [pqiNetAssistPeerShare]: a time stamp is an [int]. *)
Definition updatePeer (e : ban_env) (t : p3BanList) (dAddr : sockaddr_storage) (time_stamp : Z) : p3BanList :=
  let '(ok, a) := sockaddr_storage_ipv6_to_ipv4 (sockaddr_storage_copy dAddr) in
  if negb ok then t
  else condenseBanSources_locked e (addBanEntry e t (ownId e) a RSBANLIST_ORIGIN_SELF RSBANLIST_REASON_DHT time_stamp).2.

Definition getDhtInfo (e : ban_env) (t : p3BanList) : p3BanList :=
  let t := foldl (fun t p => (addBanEntry e t (ownId e) (sockaddr_storage_setipv4 (mAddr p) (mPort p)) RSBANLIST_ORIGIN_SELF
                                RSBANLIST_REASON_DHT (sint32 (mLastSeen p))).2) t (listOfBannedIps e) in
  condenseBanSources_locked e t.

(** ** Sending and the clock *)

Definition sendBanSet (e : ban_env) (t : p3BanList) (peerid : Z) : RsBanListItem :=
  let own := filter (fun kp => level kp.2 < RSBANLIST_ORIGIN_FRIEND) (mBanSet t) in
  mk_BanListItem peerid
    ((fun kp => let bi := toRsTlvBanListEntry (now e) kp.2 in
                mk_BanListEntry (e_addr bi) (e_level bi) (e_reason bi) (e_age bi) 0 []) <$> own).

Definition sendBanLists (e : ban_env) (t : p3BanList) : list RsBanListItem := sendBanSet e t <$> peersConnected e.

Definition sendPackets (e : ban_env) (t : p3BanList) : p3BanList * list RsBanListItem :=
  if RSBANLIST_SEND_PERIOD <? now e - mSentListTime t then (t <| mSentListTime := now e |>, sendBanLists e t) else (t, []).

Definition tick (e : ban_env) (t : p3BanList) (items : list (option RsBanListItem)) : p3BanList * list RsBanListItem :=
  let t := processIncoming e t items in
  let '(t, sent) := sendPackets e t in
  if mLastDhtInfoRequest t + RSBANLIST_DELAY_BETWEEN_TALK_TO_DHT <? now e then
    let t := getDhtInfo e t in
    let t := t <| mLastDhtInfoRequest := now e |> in
    (if mAutoRangeIps t then autoFigureOutBanRanges e t else t, sent)
  else (t, sent).

(** ** Configuration *)

(** [RsBanListConfigItem] and [RsConfigKeyValueSet] *)
Record RsBanListConfigItem := mk_BanListConfig {
  banListType : Z; banListPeerId : Z; update_time : Z; banned_peers : list RsTlvBanListEntry }.

Inductive ban_config_item :=
| BanListConfig (item : RsBanListConfigItem)
| KeyValueSet (pairs : list RsTlvKeyValue).

Definition truth (b : bool) : list Z := if b then text "TRUE" else text "FALSE".

Definition save_map (e : ban_env) (m : addr_map) : list RsTlvBanListEntry := (fun kp => toRsTlvBanListEntry (now e) kp.2) <$> m.

Definition saveList (e : ban_env) (t : p3BanList) : list ban_config_item :=
  ((fun s => BanListConfig (mk_BanListConfig RSBANLIST_TYPE_PEERLIST (mPeerId s.2) (mLastUpdate s.2) (save_map e (mBanPeers s.2))))
     <$> mBanSources t) ++
  [BanListConfig (mk_BanListConfig RSBANLIST_TYPE_WHITELIST 0 0 (save_map e (mWhiteListedRanges t)));
   BanListConfig (mk_BanListConfig RSBANLIST_TYPE_BLACKLIST 0 0 (save_map e (mBanRanges t)));
   KeyValueSet [
     mk_RsTlvKeyValue (text "IP_FILTERING_ENABLED") (truth (mIPFilteringEnabled t));
     mk_RsTlvKeyValue (text "IP_FILTERING_AUTORANGE_IPS") (truth (mAutoRangeIps t));
     mk_RsTlvKeyValue (text "IP_FILTERING_FRIEND_GATHERING_ENABLED") (truth (mIPFriendGatheringEnabled t));
     mk_RsTlvKeyValue (text "IP_FILTERING_DHT_GATHERING_ENABLED") (truth (mIPDHTGatheringEnabled t));
     mk_RsTlvKeyValue (text "IP_FILTERING_AUTORANGE_IPS_LIMIT") (NumberToString (mAutoRangeLimit t))]].

Definition load_pair (t : p3BanList) (kv : RsTlvKeyValue) : p3BanList :=
  let is_true := bool_decide (value kv = text "TRUE") in
  let t := if bool_decide (key kv = text "IP_FILTERING_ENABLED") then t <| mIPFilteringEnabled := is_true |> else t in
  let t := if bool_decide (key kv = text "IP_FILTERING_AUTORANGE_IPS") then t <| mAutoRangeIps := is_true |> else t in
  let t := if bool_decide (key kv = text "IP_FILTERING_FRIEND_GATHERING_ENABLED") then t <| mIPFriendGatheringEnabled := is_true |> else t in
  let t := if bool_decide (key kv = text "IP_FILTERING_DHT_GATHERING_ENABLED") then t <| mIPDHTGatheringEnabled := is_true |> else t in
  if bool_decide (key kv = text "IP_FILTERING_AUTORANGE_IPS_LIMIT") then
    match scan_int (value kv) with Some val => t <| mAutoRangeLimit := u32 val |> | None => t end
  else t.

(** The entries with a valid address, each under the key the list asks for. *)
Definition load_map (e : ban_env) (key_of : BanListPeer -> sockaddr_storage) (l : list RsTlvBanListEntry) : addr_map :=
  foldl (fun m entry =>
           let blp := fromRsTlvBanListEntry (now e) entry in
           if sockaddr_storage_isValidNet (addr blp) then map_set m (key_of blp) blp else m) [] l.

Definition range_key (p : BanListPeer) : sockaddr_storage := makeBitsRange (addr p) (masked_bytes p).

Definition load_item (e : ban_env) (t : p3BanList) (item : ban_config_item) : p3BanList :=
  match item with
  | KeyValueSet pairs => foldl load_pair t pairs
  | BanListConfig c =>
      if banListType c =? RSBANLIST_TYPE_PEERLIST then
        t <| mBanSources := map_set (mBanSources t) (banListPeerId c)
               (mk_BanSource (banListPeerId c) (update_time c) (load_map e addr (banned_peers c))) |>
      else if banListType c =? RSBANLIST_TYPE_BLACKLIST then t <| mBanRanges := load_map e range_key (banned_peers c) |>
      else if banListType c =? RSBANLIST_TYPE_WHITELIST then t <| mWhiteListedRanges := load_map e range_key (banned_peers c) |>
      else t
  end.

Definition loadList (e : ban_env) (t : p3BanList) (l : list ban_config_item) : p3BanList := foldl (load_item e) t l.
