(* ===== verification/BanListProps.v ===== *)
(** * The list of banned addresses: what is banned

    What the condensed set contains, what banning and allowing a range does to every address, which ranges are banned
    automatically, and what the list of a friend can do. *)

From S2P Require Import Prelude RawSerial Tlv TlvSets StdMap NetAddr BanList.
From Stdlib Require Import ZArith Lia.
From stdpp Require Import base list.
Open Scope Z_scope.

(** ** Keys *)

(** The key of a range in octets: the address with the last [m] octets masked. *)
Definition masked_word (m a b c d : Z) : Z :=
  if m =? 1 then dotted_word a b c 255 else if m =? 2 then dotted_word a b 255 255 else dotted_word a b c d.

Definition ip4 (w : Z) : sockaddr_storage := sockaddr_storage_setipv4 w 0.

Lemma ip4_eqv w w' : key_eqv (ip4 w) (ip4 w') <-> w = w'.
Proof. rewrite (key_eqv_by_list _ less_rank). cbn. split; [by intros [= ->]|by intros ->]. Qed.

Lemma lor_octets x y n m : 0 <= n -> 0 <= x < 2 ^ n -> 0 <= y < 2 ^ m -> 0 <= m ->
  Z.lor (x + 2 ^ n * y) (Z.shiftl (Z.ones m) n) = x + 2 ^ n * Z.ones m.
Proof.
  intros Hn Hx Hy Hm. assert (E : forall z, x + 2 ^ n * z = Z.lor x (Z.shiftl z n)).
  { intros z. rewrite lor_shiftl_add by done. rewrite Z.shiftl_mul_pow2 by lia. lia. }
  rewrite !E, <- Z.lor_assoc, <- Z.shiftl_lor. do 2 f_equal. apply Z.bits_inj'. intros i Hi.
  rewrite Z.lor_spec. destruct (Z.ltb_spec i m); [by rewrite Z.ones_spec_low, orb_true_r by lia|].
  rewrite Z.ones_spec_high by lia. rewrite (testbit_above m y i); [done|done|lia].
Qed.

Lemma makeBitsRange_dotted m a b c d : octet a -> octet b -> octet c -> octet d ->
  makeBitsRange (dotted a b c d) m = ip4 (masked_word m a b c d).
Proof.
  unfold octet. intros Ha Hb Hc Hd. unfold makeBitsRange, masked_word.
  change (sockaddr_storage_copyip sockaddr_storage_clear (dotted a b c d)).2 with (ip4 (dotted_word a b c d)).
  destruct (m =? 1).
  - change 0xff000000 with (Z.shiftl (Z.ones 8) 24). unfold ip4. cbn. do 2 f_equal.
    unfold dotted_word. rewrite lor_octets by lia. reflexivity.
  - destruct (m =? 2); [|done]. change 0xffff0000 with (Z.shiftl (Z.ones 16) 16). cbn. do 2 f_equal. unfold dotted_word.
    replace (a + 2 ^ 8 * b + 2 ^ 16 * c + 2 ^ 24 * d) with ((a + 2 ^ 8 * b) + 2 ^ 16 * (c + 2 ^ 8 * d)) by lia.
    rewrite lor_octets by lia. change (2 ^ 16 * Z.ones 16) with (2 ^ 16 * 255 + 2 ^ 24 * 255). by rewrite Z.add_assoc.
Qed.

(** Masking respects the equivalence of keys. *)
#[export] Instance makeBitsRange_proper : Proper (key_eqv ==> (=) ==> key_eqv) makeBitsRange.
Proof.
  intros x y Hk m _ <-. rewrite (key_eqv_by_list _ less_rank) in *. unfold sockaddr_rank in Hk.
  pose proof (f_equal hd_error Hk) as Hf. cbn in Hf. injection Hf as Hf.
  unfold makeBitsRange, sockaddr_storage_copyip. rewrite Hf in Hk |- *.
  destruct (Z.eqb_spec (ss_family y) AF_INET) as [E|E].
  - injection Hk as Hw _. cbn. rewrite Hw. destruct (m =? 1); [done|by destruct (m =? 2)].
  - destruct (Z.eqb_spec (ss_family y) AF_INET6) as [E6|E6]; [|done]. injection Hk as H0 H1 H2 H3 _.
    destruct (m =? 1); [|destruct (m =? 2)]; unfold sockaddr_rank; cbn [fst snd]; cbn;
      unfold word32, word16 in *; cbn -[Z.mul Z.add] in *; by rewrite H0, H1, H2, H3.
Qed.

#[export] Instance isWhiteListed_proper t : Proper (key_eqv ==> (=)) (isWhiteListed_locked t).
Proof.
  intros x y Hk. unfold isWhiteListed_locked.
  assert (E : forall m, map_find (mWhiteListedRanges t) (makeBitsRange x m) = map_find (mWhiteListedRanges t) (makeBitsRange y m)).
  { intros m. apply map_find_proper. by apply makeBitsRange_proper. }
  by rewrite !E.
Qed.

(** ** The condensed set *)

Lemma filter_none {A} (P : A -> Prop) `{forall x, Decision (P x)} (l : list A) : (forall x, x ∈ l -> ~ P x) -> filter P l = [].
Proof.
  induction l as [|x l IH]; intros Hl; [done|]. rewrite filter_cons_False by (apply Hl; by left). apply IH. intros y Hy. apply Hl. by right.
Qed.

(** A report: an entry of a source with the level it has here. *)
Definition report_of (own : bool) (p : BanListPeer) : Z * BanListPeer := (if own then level p else u32 (level p + 1), p).

(** The reports of a source that count: if it was updated within a day, those not older than a day. *)
Definition source_entries (e : ban_env) (src : Z * BanSource) : list (Z * BanListPeer) :=
  if RSBANLIST_ENTRY_MAX_AGE <? now e - mLastUpdate src.2 then []
  else report_of (src.1 =? ownId e) <$> filter (fun p => now e <= RSBANLIST_ENTRY_MAX_AGE + mTs p) (mBanPeers src.2).*2.

Definition entries (e : ban_env) (t : p3BanList) : list (Z * BanListPeer) := concat (source_entries e <$> mBanSources t).

(** The reports about the address with key [k]. *)
Definition about (k : sockaddr_storage) (l : list (Z * BanListPeer)) : list (Z * BanListPeer) :=
  filter (fun r => key_eqv (banned_key (addr r.2)) k) l.

Definition reports (e : ban_env) (t : p3BanList) (k : sockaddr_storage) : list (Z * BanListPeer) := about k (entries e t).

Definition entered (r : Z * BanListPeer) : BanListPeer :=
  r.2 <| level := r.1 |> <| masked_bytes := 0 |> <| addr := (sockaddr_storage_setport (addr r.2) 0).2 |>.

(** Entering one report where another may be. *)
Definition merge_report (s : option BanListPeer) (r : Z * BanListPeer) : option BanListPeer :=
  match s with
  | None => Some (entered r)
  | Some s =>
      if r.1 <? level s then Some (entered r)
      else if r.1 =? level s then
        Some (s <| reason := Z.lor (reason s) (reason r.2) |> <| mTs := if mTs s <? mTs r.2 then mTs r.2 else mTs s |>)
      else Some s
  end.

Lemma condense_entry_find t n own set p k :
  map_find (condense_entry t n own set p) k =
    if decide (n <= RSBANLIST_ENTRY_MAX_AGE + mTs p /\ key_eqv (banned_key (addr p)) k) then
      (if isWhiteListed_locked t k then map_find set k else merge_report (map_find set k) (report_of own p))
    else map_find set k.
Proof.
  unfold condense_entry, report_of, merge_report. cbn [fst snd]. destruct (Z.ltb_spec (RSBANLIST_ENTRY_MAX_AGE + mTs p) n).
  { rewrite decide_False; [done|]. lia. }
  set (lvl := if own then level p else u32 (level p + 1)). set (b := banned_key (addr p)).
  destruct (decide (n <= RSBANLIST_ENTRY_MAX_AGE + mTs p /\ key_eqv b k)) as [[_ Hk]|Hk].
  - rewrite <- (isWhiteListed_proper t _ _ Hk). assert (Ef : map_find set k = map_find set b) by (by apply map_find_proper).
    destruct (isWhiteListed_locked t b); [done|]. rewrite Ef. destruct (map_find set b) as [s|] eqn:E; [|by rewrite map_find_set_eq].
    destruct (lvl <? level s); [by rewrite map_find_set_eq|]. destruct (lvl =? level s); [by rewrite map_find_set_eq|done].
  - assert (Hk' : ~ key_eqv b k) by (intros ?; by apply Hk). destruct (isWhiteListed_locked t b); [done|].
    destruct (map_find set b) as [s|]; [|by rewrite map_find_set_ne].
    destruct (lvl <? level s); [by rewrite map_find_set_ne|]. destruct (lvl =? level s); [by rewrite map_find_set_ne|done].
Qed.

Definition merge_all (t : p3BanList) (k : sockaddr_storage) (s : option BanListPeer) (l : list (Z * BanListPeer)) : option BanListPeer :=
  if isWhiteListed_locked t k then s else foldl merge_report s (about k l).

Lemma merge_all_app t k s l1 l2 : merge_all t k s (l1 ++ l2) = merge_all t k (merge_all t k s l1) l2.
Proof. unfold merge_all, about. destruct (isWhiteListed_locked t k); [done|]. by rewrite filter_app, foldl_app. Qed.

Lemma condense_source_find t e set src k :
  map_find (condense_source t e set src) k =
    merge_all t k (map_find set k) (source_entries e src).
Proof.
  unfold condense_source, source_entries. destruct (_ <? _); [unfold merge_all; by destruct (isWhiteListed_locked t k)|].
  set (own := src.1 =? ownId e). generalize (mBanPeers src.2). intros l. revert set.
  induction l as [|[k0 p] l IH]; intros set; cbn [foldl fmap list_fmap snd].
  - unfold merge_all. by destruct (isWhiteListed_locked t k).
  - rewrite IH, condense_entry_find, filter_cons. destruct (decide (now e <= _)) as [Ht|Ht].
    + cbn [fmap list_fmap]. change (report_of own p :: ?x) with ([report_of own p] ++ x). rewrite (merge_all_app t k _ [_]). f_equal.
      unfold merge_all, about. rewrite filter_cons. cbn [report_of snd filter list_filter].
      destruct (decide (key_eqv (banned_key (addr p)) k)).
      * rewrite decide_True by done. by destruct (isWhiteListed_locked t k).
      * rewrite decide_False by (by intros [? ?]). by destruct (isWhiteListed_locked t k).
    + rewrite decide_False by (by intros [? ?]). done.
Qed.

(** What is condensed at a key is the merge of the reports about it. *)
Lemma condense_find e t k :
  map_find (mBanSet (condenseBanSources_locked e t)) k = if isWhiteListed_locked t k then None else foldl merge_report None (reports e t k).
Proof.
  change (map_find (foldl (condense_source t e) [] (mBanSources t)) k = merge_all t k None (entries e t)). unfold entries.
  change (@None BanListPeer) with (map_find (@nil (sockaddr_storage * BanListPeer)) k).
  generalize (@nil (sockaddr_storage * BanListPeer)). induction (mBanSources t) as [|src l IH]; intros set.
  - unfold merge_all. by destruct (isWhiteListed_locked t k).
  - cbn [foldl fmap list_fmap concat]. by rewrite IH, condense_source_find, merge_all_app.
Qed.

(** What merging a list of reports gives: the lowest level, and of the reports with that level all reasons, the latest time
    and the rest of the first. *)
Record merged (l : list (Z * BanListPeer)) (p : BanListPeer) : Prop := {
  merged_level : (exists r, r ∈ l /\ r.1 = level p) /\ forall r, r ∈ l -> level p <= r.1;
  merged_reason : reason p = foldr (fun r acc => Z.lor (reason r.2) acc) 0 (filter (fun r => r.1 = level p) l);
  merged_time : (exists r, r ∈ l /\ r.1 = level p /\ mTs r.2 = mTs p) /\ forall r, r ∈ l -> r.1 = level p -> mTs r.2 <= mTs p;
  merged_first : exists r, head (filter (fun r => r.1 = level p) l) = Some r /\
    comment p = comment r.2 /\ addr p = (sockaddr_storage_setport (addr r.2) 0).2;
  merged_masked : masked_bytes p = 0
}.

Lemma lor_all_app (l1 l2 : list (Z * BanListPeer)) :
  foldr (fun r acc => Z.lor (reason r.2) acc) 0 (l1 ++ l2) =
  Z.lor (foldr (fun r acc => Z.lor (reason r.2) acc) 0 l1) (foldr (fun r acc => Z.lor (reason r.2) acc) 0 l2).
Proof. induction l1 as [|r l1 IH]; cbn; [done|]. by rewrite IH, Z.lor_assoc. Qed.

(** One more report. *)
Lemma merged_snoc l p r : merged l p -> exists p', merge_report (Some p) r = Some p' /\ merged (l ++ [r]) p'.
Proof.
  intros [[Hex Hle] Hr [Ht1 Ht2] (f & Hf1 & Hf2 & Hf3) Hm]. unfold merge_report. destruct (Z.ltb_spec r.1 (level p)) as [Hlt|Hge].
  - eexists. split; [done|].
    assert (El : filter (fun x => x.1 = r.1) (l ++ [r]) = [r]).
    { rewrite filter_app, (filter_cons_True _ r []) by done. rewrite filter_none; [done|].
      intros x Hx E. apply Hle in Hx. lia. }
    split; cbn [entered fst snd level addr reason mTs comment masked_bytes upd].
    + split; [exists r; split; [apply elem_of_app; right; by left|done]|].
      intros x [Hx| ->%list_elem_of_singleton]%elem_of_app; [apply Hle in Hx; lia|lia].
    + rewrite El. cbn. by rewrite Z.lor_0_r.
    + split; [exists r; split; [apply elem_of_app; right; by left|done]|].
      intros x [Hx| ->%list_elem_of_singleton]%elem_of_app E; [apply Hle in Hx; lia|lia].
    + exists r. by rewrite El.
    + done.
  - destruct (Z.eqb_spec r.1 (level p)) as [Heq|Hne].
    + eexists. split; [done|].
      assert (El : filter (fun x => x.1 = level p) (l ++ [r]) = filter (fun x => x.1 = level p) l ++ [r]).
      { by rewrite filter_app, (filter_cons_True _ r []). }
      split; cbn [entered fst snd level addr reason mTs comment masked_bytes upd].
      * split; [destruct Hex as (x & Hx & E); exists x; split; [apply elem_of_app; by left|done]|].
        intros x [Hx| ->%list_elem_of_singleton]%elem_of_app; [by apply Hle|lia].
      * rewrite El, lor_all_app, Hr. cbn. by rewrite Z.lor_0_r.
      * destruct (Z.ltb_spec (mTs p) (mTs r.2)).
        { split; [exists r; split; [apply elem_of_app; right; by left|done]|].
          intros x [Hx| ->%list_elem_of_singleton]%elem_of_app E; [specialize (Ht2 x Hx E); lia|lia]. }
        { split; [destruct Ht1 as (x & Hx & E); exists x; split; [apply elem_of_app; by left|done]|].
          intros x [Hx| ->%list_elem_of_singleton]%elem_of_app E; [by apply Ht2|lia]. }
      * exists f. rewrite El. split; [|done]. destruct (filter (fun x => x.1 = level p) l); [done|exact Hf1].
      * done.
    + eexists. split; [done|].
      assert (El : filter (fun x => x.1 = level p) (l ++ [r]) = filter (fun x => x.1 = level p) l).
      { by rewrite filter_app, (filter_cons_False _ r []), app_nil_r. }
      split; rewrite ?El; try done.
      * split; [destruct Hex as (x & Hx & E); exists x; split; [apply elem_of_app; by left|done]|].
        intros x [Hx| ->%list_elem_of_singleton]%elem_of_app; [by apply Hle|lia].
      * split; [destruct Ht1 as (x & Hx & E); exists x; split; [apply elem_of_app; by left|done]|].
        intros x [Hx| ->%list_elem_of_singleton]%elem_of_app E; [by apply Ht2|lia].
      * by exists f.
Qed.

Lemma merged_one r : exists p, merge_report None r = Some p /\ merged [r] p.
Proof.
  eexists. split; [done|].
  assert (El : filter (fun x => x.1 = r.1) [r] = [r]) by (by rewrite filter_cons_True).
  split; cbn [entered fst snd level addr reason mTs comment masked_bytes upd]; rewrite ?El.
  - split; [exists r; split; [by left|done]|]. intros x ->%list_elem_of_singleton. lia.
  - cbn. by rewrite Z.lor_0_r.
  - split; [exists r; split; [by left|done]|]. intros x ->%list_elem_of_singleton. lia.
  - by exists r.
  - done.
Qed.

Lemma merge_list l : match foldl merge_report None l with Some p => merged l p | None => l = [] end.
Proof.
  induction l as [|r l IH] using rev_ind; [done|]. rewrite foldl_snoc. destruct (foldl merge_report None l) as [p|].
  - destruct (merged_snoc l p r IH) as (p' & -> & Hm). exact Hm.
  - subst l. destruct (merged_one r) as (p' & -> & Hm). exact Hm.
Qed.

(** C23 The condensed set holds an address exactly if a report about it counts and it is not on the white list; its entry has the
    lowest level of these reports, where those of friends count one more, and of the reports at that level all reasons combined,
    the latest time, and the comment and address of the first. *)
Theorem condense_spec (e : ban_env) (t : p3BanList) (k : sockaddr_storage) :
  match map_find (mBanSet (condenseBanSources_locked e t)) k with
  | Some p => isWhiteListed_locked t k = false /\ merged (reports e t k) p
  | None => isWhiteListed_locked t k = true \/ reports e t k = []
  end.
Proof.
  rewrite condense_find. destruct (isWhiteListed_locked t k); [by left|].
  pose proof (merge_list (reports e t k)) as Hm. destruct (foldl merge_report None _); [done|by right].
Qed.

(** ** Banning and allowing ranges *)

Lemma land_octet w n : 0 <= n -> Z.land w (Z.shiftl 255 n) = Z.shiftl ((w / 2 ^ n) mod 2 ^ 8) n.
Proof.
  intros Hn. change 255 with (Z.ones 8). rewrite <- Z.land_ones, <- Z.shiftr_div_pow2 by lia. apply Z.bits_inj'. intros i Hi.
  rewrite Z.land_spec, !Z.shiftl_spec by lia. destruct (Z.ltb_spec i n).
  { rewrite !(Z.testbit_neg_r _ (i - n)) by lia. by rewrite andb_false_r. }
  rewrite Z.land_spec, Z.shiftr_spec by lia. do 2 f_equal. lia.
Qed.

Lemma getBitRange_dotted a b c d : octet a -> octet b -> octet c -> octet d ->
  getBitRange (dotted a b c d) =
    if negb (d =? 255) then 0 else if negb (c =? 255) then 1 else if negb (b =? 255) then 2 else if negb (a =? 255) then 3 else 4.
Proof.
  unfold octet. intros Ha Hb Hc Hd. unfold getBitRange.
  change (ss_addr4 (sockaddr_storage_copyip sockaddr_storage_clear (dotted a b c d)).2) with (dotted_word a b c d).
  assert (E : forall K n y x z, K = Z.shiftl 255 n -> 0 <= n -> 0 <= x < 2 ^ n -> 0 <= y < 256 -> dotted_word a b c d = x + 2 ^ n * (y + 256 * z) ->
    (Z.land (dotted_word a b c d) K =? K) = (y =? 255)).
  { intros K n y x z -> Hn Hx Hy ->. rewrite land_octet by done.
    replace ((x + 2 ^ n * (y + 256 * z)) / 2 ^ n) with (y + z * 256) by (apply (Z.div_unique _ _ _ x); lia).
    change (2 ^ 8) with 256. rewrite Z.mod_add, Z.mod_small by lia. rewrite !Z.shiftl_mul_pow2 by lia.
    destruct (Z.eqb_spec y 255) as [->|N]; [apply Z.eqb_refl|]. apply Z.eqb_neq. nia. }
  rewrite (E _ 24 d (a + 2 ^ 8 * b + 2 ^ 16 * c) 0), (E _ 16 c (a + 2 ^ 8 * b) d), (E _ 8 b a (c + 2 ^ 8 * d)),
    (E _ 0 a 0 (b + 2 ^ 8 * c + 2 ^ 16 * d)); unfold dotted_word; first [reflexivity | lia].
Qed.

(** The addresses that agree with a range up to the masked octets - and, for a /24 range whose third octet is 255, those that agree on
    two octets, since its key is that of the /16 range. *)
Definition covered (m : Z) (r x : Z * Z * Z * Z) : Prop :=
  let '(a', b', c', d') := r in
  let '(a, b, c, d) := x in
  a = a' /\ b = b' /\ (m = 2 \/ c = c' /\ (m = 1 \/ d = d') \/ m = 1 /\ c' = 255).

#[export] Instance covered_dec m r x : Decision (covered m r x).
Proof. destruct r as [[[a' b'] c'] d'], x as [[[a b] c] d]. apply _. Defined.

Definition address (x : Z * Z * Z * Z) : sockaddr_storage := let '(a, b, c, d) := x in dotted a b c d.

Definition octets (x : Z * Z * Z * Z) : Prop := let '(a, b, c, d) := x in octet a /\ octet b /\ octet c /\ octet d.

(** When [addIpRange] takes a range: the mask is the length of the tail of octets 255 at least. *)
Definition range_accepted (m : Z) (r : Z * Z * Z * Z) : Prop :=
  let '(a, b, c, d) := r in if m =? 0 then d <> 255 else if m =? 1 then ~ (c = 255 /\ d = 255) else ~ (b = 255 /\ c = 255 /\ d = 255).

Lemma getBitRange_accepted m r : octets r -> 0 <= m <= 2 -> (u32 m <? getBitRange (address r)) = false <-> range_accepted m r.
Proof.
  destruct r as [[[a b] c] d]. intros (Ha & Hb & Hc & Hd) Hm. cbn [address]. rewrite getBitRange_dotted by done.
  rewrite wrap_small by (unfold is_word; lia). unfold range_accepted. rewrite Z.ltb_ge.
  destruct (Z.eqb_spec m 0), (Z.eqb_spec m 1), (Z.eqb_spec d 255), (Z.eqb_spec c 255), (Z.eqb_spec b 255), (Z.eqb_spec a 255); cbn; lia.
Qed.

(** The keys under which an address is looked up. *)
Definition key_of (m : Z) (x : Z * Z * Z * Z) : sockaddr_storage := let '(a, b, c, d) := x in ip4 (masked_word m a b c d).

Lemma makeBitsRange_address m x : octets x -> makeBitsRange (address x) m = key_of m x.
Proof. destruct x as [[[a b] c] d]. intros (Ha & Hb & Hc & Hd). by apply makeBitsRange_dotted. Qed.

Lemma key_of_covered i j m r x : octets r -> octets x -> range_accepted m r -> 0 <= i <= m -> m <= 2 -> 0 <= j <= 2 ->
  key_eqv (key_of i r) (key_of j x) -> covered m r x.
Proof.
  destruct r as [[[a' b'] c'] d'], x as [[[a b] c] d]. unfold octets, octet, range_accepted, key_of, covered.
  intros Hr Hx Ha Hi Hm Hj. rewrite ip4_eqv. unfold masked_word, dotted_word.
  destruct (Z.eqb_spec m 0), (Z.eqb_spec m 1); try lia; destruct (Z.eqb_spec i 1), (Z.eqb_spec i 2), (Z.eqb_spec j 1), (Z.eqb_spec j 2); lia.
Qed.

Lemma covered_key m r x : octets r -> octets x -> 0 <= m <= 2 -> covered m r x -> exists j, 0 <= j <= 2 /\ key_eqv (key_of m r) (key_of j x).
Proof.
  destruct r as [[[a' b'] c'] d'], x as [[[a b] c] d]. unfold octets, octet, key_of, covered.
  intros Hr Hx Hm (-> & -> & Hc). assert (Ho : m = 2 \/ m <> 2 /\ c = c' /\ (m = 1 \/ d = d') \/ m = 1 /\ c' = 255 /\ c <> c') by lia.
  destruct Ho as [->|[(Hm2 & -> & Hd)|(-> & -> & _)]]; [exists 2|exists m|exists 2]; (split; [lia|]); rewrite ip4_eqv.
  - done.
  - unfold masked_word. destruct (Z.eqb_spec m 1); [done|]. destruct (Z.eqb_spec m 2); [lia|]. f_equal. lia.
  - done.
Qed.

Lemma insert_range_find M r m p x j : octets r -> octets x -> range_accepted m r -> 0 <= m <= 2 -> 0 <= j <= 2 ->
  ~ covered m r x -> map_find (insert_range M (address r) m p) (key_of j x) = map_find M (key_of j x).
Proof.
  intros Hr Hx Ha Hm Hj Hc.
  assert (Hne : forall i, 0 <= i <= m -> ~ key_eqv (makeBitsRange (address r) i) (key_of j x)).
  { intros i Hi. rewrite makeBitsRange_address by done. intros E. apply Hc. by apply (key_of_covered i j); try lia. }
  unfold insert_range. rewrite map_find_set_ne by (apply Hne; lia).
  assert (Hs : Forall (fun i : nat => 0 <= Z.of_nat i <= m) (seq 0 (Z.to_nat m))).
  { apply Forall_forall. intros i Hi%elem_of_seq. lia. }
  revert M. induction (seq 0 (Z.to_nat m)) as [|i l IH]; intros M; [done|]. apply Forall_cons in Hs as [Hi Hs]. cbn [foldl].
  rewrite (IH Hs). apply map_find_erase_ne. by apply Hne.
Qed.

Lemma insert_range_new M r m p x : octets r -> octets x -> 0 <= m <= 2 -> covered m r x ->
  exists j, 0 <= j <= 2 /\ map_find (insert_range M (address r) m p) (key_of j x) = Some p.
Proof.
  intros Hr Hx Hm Hc. destruct (covered_key m r x Hr Hx Hm Hc) as (j & Hj & E). exists j. split; [done|].
  unfold insert_range. apply map_find_set_eq. by rewrite makeBitsRange_address.
Qed.

(** ** Verdicts *)

Definition holds {A} (o : option A) : bool := match o with Some _ => true | None => false end.

(** A range or an entry in force at the address. *)
Definition banned (t : p3BanList) (x : Z * Z * Z * Z) : bool :=
  holds (range_hit t (key_of 2 x)) || holds (range_hit t (key_of 1 x)) || holds (range_hit t (key_of 0 x)) || holds (set_hit t (key_of 0 x)).

Definition whitelisted (t : p3BanList) (x : Z * Z * Z * Z) : bool := isWhiteListed_locked t (address x).

(** The verdict on an address when both lists are to be asked, [BLACKLIST] without [WHITELIST]. *)
Definition verdict (t : p3BanList) (x : Z * Z * Z * Z) : bool := (isAddressAccepted t (address x) RSBANLIST_CHECKING_FLAGS_BLACKLIST).1.1.

Definition loopback : Z * Z * Z * Z := (127, 0, 0, 1).

Lemma address_not_loopback x : octets x -> x <> loopback -> sockaddr_storage_isLoopbackNet (address x) = false.
Proof.
  destruct x as [[[a b] c] d]. intros (Ha & Hb & Hc & Hd) Hx.
  change (isLoopbackNet (dotted_word a b c d) = false). unfold isLoopbackNet. rewrite ntohl_dotted by done.
  change (Z.lor (Z.shiftl 127 24) 1) with 2130706433. apply Z.eqb_neq. unfold octet in *. intros E. apply Hx. unfold loopback. repeat f_equal; lia.
Qed.

Lemma address_ipv4 x : sockaddr_storage_ipv6_to_ipv4 (sockaddr_storage_copy (address x)) = (true, address x).
Proof. by destruct x as [[[a b] c] d]. Qed.

Lemma isAddressAccepted_eq t x flags : octets x -> x <> loopback -> mIPFilteringEnabled t = true ->
  (isAddressAccepted t (address x) flags).1.1 =
    (if whitelisted t x then true
     else if negb (Z.land flags RSBANLIST_CHECKING_FLAGS_WHITELIST =? 0) then false
     else if Z.land flags RSBANLIST_CHECKING_FLAGS_BLACKLIST =? 0 then true
     else negb (banned t x)).
Proof.
  intros Hx Hl Hf. unfold isAddressAccepted. rewrite address_ipv4. cbn [negb]. rewrite address_not_loopback, Hf by done. cbn [negb].
  unfold whitelisted, isWhiteListed_locked, banned. rewrite !makeBitsRange_address by done.
  destruct (map_find (mWhiteListedRanges t) (key_of 0 x)), (map_find (mWhiteListedRanges t) (key_of 1 x)), (map_find (mWhiteListedRanges t) (key_of 2 x));
    cbn [orb]; try done.
  destruct (negb _); [done|]. destruct (_ =? 0); [done|].
  destruct (range_hit t (key_of 2 x)); [done|]. destruct (range_hit t (key_of 1 x)); [done|].
  destruct (range_hit t (key_of 0 x)); [done|]. by destruct (set_hit t (key_of 0 x)).
Qed.

Lemma verdict_eq t x : octets x -> x <> loopback -> mIPFilteringEnabled t = true -> verdict t x = whitelisted t x || negb (banned t x).
Proof. intros. unfold verdict. rewrite isAddressAccepted_eq by done. by destruct (whitelisted t x). Qed.

Lemma whitelisted_keys t x : octets x ->
  whitelisted t x = holds (map_find (mWhiteListedRanges t) (key_of 0 x)) || holds (map_find (mWhiteListedRanges t) (key_of 1 x)) ||
                    holds (map_find (mWhiteListedRanges t) (key_of 2 x)).
Proof.
  intros Hx. unfold whitelisted, isWhiteListed_locked. rewrite !makeBitsRange_address by done. unfold holds.
  by destruct (map_find _ (key_of 0 x)), (map_find _ (key_of 1 x)), (map_find _ (key_of 2 x)).
Qed.

(** Two states with the same settings and ranges at the keys of an address, the same reports and the white list. *)
Lemma banned_ext t t' x : octets x ->
  (forall p, acceptedBanRanges_locked t' p = acceptedBanRanges_locked t p) ->
  (forall p, acceptedBanSet_locked t' p = acceptedBanSet_locked t p) ->
  (forall j, 0 <= j <= 2 -> map_find (mBanRanges t') (key_of j x) = map_find (mBanRanges t) (key_of j x)) ->
  map_find (mBanSet t') (key_of 0 x) = map_find (mBanSet t) (key_of 0 x) -> banned t' x = banned t x.
Proof.
  intros Hx Hr Hs Hm He. unfold banned, range_hit, set_hit. rewrite !Hm, He by lia.
  assert (Eo : forall (o : option BanListPeer) (f g : BanListPeer -> bool), (forall p, f p = g p) ->
    (p ← o; if f p then Some p else None) = (p ← o; if g p then Some p else None)).
  { intros [p|] f g Hfg; cbn; [by rewrite Hfg|done]. }
  by rewrite !(Eo _ _ _ Hr), (Eo _ _ _ Hs).
Qed.

(** The parts of the state a verdict depends on. *)
Lemma banned_covered t m r x p M : octets r -> octets x -> 0 <= m <= 2 -> covered m r x -> reason p = RSBANLIST_REASON_USER ->
  mBanRanges t = insert_range M (address r) m p -> banned t x = true.
Proof.
  intros Hr Hx Hm Hc Hp Ht. destruct (insert_range_new M r m p x Hr Hx Hm Hc) as (j & Hj & E).
  assert (Hh : range_hit t (key_of j x) = Some p).
  { unfold range_hit. rewrite Ht, E. cbn. unfold acceptedBanRanges_locked. by rewrite Hp. }
  unfold banned. assert (Ho : j = 0 \/ j = 1 \/ j = 2) by lia.
  destruct Ho as [->|[->| ->]]; rewrite Hh; cbn [holds]; rewrite ?orb_true_r; done.
Qed.

Lemma set_find_unlisted e t t' x : octets x -> mBanSources t' = mBanSources t ->
  isWhiteListed_locked t' (key_of 0 x) = isWhiteListed_locked t (key_of 0 x) ->
  map_find (mBanSet (condenseBanSources_locked e t')) (key_of 0 x) = map_find (mBanSet (condenseBanSources_locked e t)) (key_of 0 x).
Proof.
  intros Hx Hs Hw. rewrite !condense_find, Hw.
  assert (Hr : reports e t' (key_of 0 x) = reports e t (key_of 0 x)) by (unfold reports, entries; by rewrite Hs).
  by rewrite Hr.
Qed.

Lemma key_of_0 x : key_of 0 x = address x.
Proof. by destruct x as [[[a b] c] d]. Qed.

Lemma whitelisted_covered t m r x p M : octets r -> octets x -> 0 <= m <= 2 -> covered m r x ->
  mWhiteListedRanges t = insert_range M (address r) m p -> whitelisted t x = true.
Proof.
  intros Hr Hx Hm Hc Ht. destruct (insert_range_new M r m p x Hr Hx Hm Hc) as (j & Hj & E).
  rewrite whitelisted_keys, Ht by done. assert (Ho : j = 0 \/ j = 1 \/ j = 2) by lia.
  destruct Ho as [->|[->| ->]]; rewrite E; cbn [holds]; rewrite ?orb_true_r; done.
Qed.

(** C22 Banning a range: an address is accepted afterwards exactly if it was before and lies outside the range or on the white list;
    allowing one: exactly if it was before or lies in the range.  The range is what its octets say, except that banning or
    allowing a.b.255.x/24 does so for all of a.b.x.x. *)
Theorem addIpRange_verdict (e : ban_env) (t t' : p3BanList) (m list_type : Z) (r x : Z * Z * Z * Z) (cmt : list Z)
  (Hr : octets r) (Hx : octets x) (Hl : x <> loopback) (Hm : 0 <= m <= 2) (Hf : mIPFilteringEnabled t = true)
  (Hadd : addIpRange e t (address r) m list_type cmt = (true, t')) :
  range_accepted m r /\
  ((list_type = RSBANLIST_TYPE_BLACKLIST /\
    (verdict t' x = true <-> verdict (condenseBanSources_locked e t) x = true /\ (covered m r x -> whitelisted t x = true))) \/
   (list_type = RSBANLIST_TYPE_WHITELIST /\
    (verdict t' x = true <-> verdict (condenseBanSources_locked e t) x = true \/ covered m r x))).
Proof.
  revert Hadd. unfold addIpRange. rewrite address_ipv4. cbn [negb].
  destruct (u32 m <? getBitRange (address r)) eqn:Eb; [done|]. apply getBitRange_accepted in Eb; [|done|done].
  assert (Em : negb ((m =? 0) || (m =? 1) || (m =? 2)) = false) by lia. rewrite Em.
  match goal with |- context [insert_range (mBanRanges t) _ _ ?p] => set (blp := p); assert (Hu : reason blp = RSBANLIST_REASON_USER) by done end.
  clearbody blp.
  destruct (Z.eqb_spec list_type RSBANLIST_TYPE_BLACKLIST) as [Et|Et]; cbn [orb negb].
  - intros [= <-]. split; [done|]. left. split; [done|]. set (t' := condenseBanSources_locked e (IndicateConfigChanged _)).
    rewrite !verdict_eq by done. change (whitelisted t' x) with (whitelisted t x).
    change (whitelisted (condenseBanSources_locked e t) x) with (whitelisted t x). destruct (decide (covered m r x)) as [Hc|Hc].
    + rewrite (banned_covered t' m r x blp (mBanRanges t)) by done. destruct (whitelisted t x); cbn; split; [done|done|done|].
      intros [_ Hw]. by apply Hw.
    + rewrite (banned_ext (condenseBanSources_locked e t) t'); [split; [done|by intros [? _]]|done|done|done| |done].
      intros j Hj. by apply insert_range_find.
  - destruct (Z.eqb_spec list_type RSBANLIST_TYPE_WHITELIST) as [Ew|Ew]; cbn [negb]; [|done].
    intros [= <-]. split; [done|]. right. split; [done|]. set (t' := condenseBanSources_locked e (IndicateConfigChanged _)).
    rewrite !verdict_eq by done. change (whitelisted (condenseBanSources_locked e t) x) with (whitelisted t x).
    destruct (decide (covered m r x)) as [Hc|Hc].
    + rewrite (whitelisted_covered t' m r x blp (mWhiteListedRanges t)) by done. split; [by right|done].
    + assert (Hw : whitelisted t' x = whitelisted t x).
      { rewrite !whitelisted_keys by done. change (mWhiteListedRanges t') with (insert_range (mWhiteListedRanges t) (address r) m blp).
        by rewrite !insert_range_find by (done || lia). }
      rewrite Hw, (banned_ext (condenseBanSources_locked e t) t'); [split; [by left|by intros [?|?]]|done|done|done|done|].
      apply set_find_unlisted; [done|done|]. unfold whitelisted in Hw. rewrite <- key_of_0 in Hw. exact Hw.
Qed.

(** ** An example *)

Definition demo_env : ban_env := mk_ban_env 1000000 1 [] [].

Ltac octets := unfold octets, octet; lia.

(** 8.8.4.0/24 is banned. *)
Definition banned_24 : p3BanList :=
  Eval vm_compute in (addIpRange demo_env new_p3BanList (address (8, 8, 4, 0)) 1 RSBANLIST_TYPE_BLACKLIST []).2.

Lemma addIpRange_verdict_witness :
  addIpRange demo_env new_p3BanList (address (8, 8, 4, 0)) 1 RSBANLIST_TYPE_BLACKLIST [] = (true, banned_24) /\
  verdict banned_24 (8, 8, 4, 200) = false /\ verdict banned_24 (8, 8, 5, 200) = true.
Proof.
  assert (E : addIpRange demo_env new_p3BanList (address (8, 8, 4, 0)) 1 RSBANLIST_TYPE_BLACKLIST [] = (true, banned_24)) by (vm_compute; reflexivity).
  split; [exact E|].
  pose proof (fun x Hx Hl => addIpRange_verdict demo_env new_p3BanList banned_24 1 RSBANLIST_TYPE_BLACKLIST (8, 8, 4, 0) x []
    ltac:(octets) Hx Hl ltac:(lia) eq_refl E) as H. split.
  - destruct (H (8, 8, 4, 200)) as (_ & [[_ Hv]|[? _]]); [octets|done| |done]. destruct (verdict banned_24 (8, 8, 4, 200)); [|reflexivity].
    exfalso. destruct (proj1 Hv eq_refl) as [_ Hc]. discriminate Hc. unfold covered. lia.
  - destruct (H (8, 8, 5, 200)) as (_ & [[_ Hv]|[? _]]); [octets|done| |done]. apply Hv. split; [vm_compute; reflexivity|].
    unfold covered. lia.
Defined.

(** A user who bans 8.8.255.7/24 bans 8.8.1.1. *)
Example third_octet_255_bans_sixteen :
  let r := addIpRange demo_env new_p3BanList (address (8, 8, 255, 7)) 1 RSBANLIST_TYPE_BLACKLIST [] in
  r.1 = true /\ verdict r.2 (8, 8, 1, 1) = false.
Proof. vm_compute. by split. Qed.
