(* ===== verification/BanListRun.v ===== *)
(** * The list of banned addresses: automatic ranges, friends, and the life of a list

    Which ranges are banned automatically; what one report of a friend can do; the invariant of every state the operations lead
    to; and that saving and loading restores it. *)

From S2P Require Import Prelude RawSerial Tlv TlvSets StdMap NetAddr BanList BanListProps.
From Stdlib Require Import ZArith Lia.
From stdpp Require Import base list.
Open Scope Z_scope.

(** ** Automatic ranges *)

(** The entries of the condensed set that fall under a key. *)
Definition count_in (set : addr_map) (k : sockaddr_storage) : Z :=
  Z.of_nat (length (filter (fun kp => key_eqv (makeBitsRange kp.1 1) k) set)).

Lemma range_counts_sorted set : map_sorted (range_counts set).
Proof. apply map_sorted_foldl; [intros; by apply map_sorted_set|constructor]. Qed.

Lemma range_counts_find set k : Z.of_nat (length set) < 2 ^ 32 ->
  map_find (range_counts set) k = if count_in set k =? 0 then None else Some (count_in set k).
Proof.
  unfold count_in, range_counts. induction set as [|kp set IH] using rev_ind; intros Hl; [done|].
  rewrite length_app in Hl. cbn [length] in Hl. rewrite foldl_snoc, filter_app, length_app. cbv zeta.
  set (c := foldl _ [] set) in *. specialize (IH ltac:(lia)).
  match type of IH with context [length ?l] => pose proof (length_filter (fun kp => key_eqv (makeBitsRange kp.1 1) k) set : (length l <= _)%nat) as Hb;
    set (n := length l) in * end.
  destruct (decide (key_eqv (makeBitsRange kp.1 1) k)) as [E|E].
  - rewrite map_find_set_eq, (map_find_proper c _ _ E), IH by done. rewrite filter_cons_True by done. cbn [filter list_filter length].
    destruct (Z.eqb_spec (Z.of_nat n) 0); cbn [default from_option id]; rewrite wrap_small by (unfold is_word; lia);
      (destruct (Z.eqb_spec (Z.of_nat (n + 1)) 0); [lia|]); f_equal; lia.
  - rewrite map_find_set_ne, IH by done. rewrite filter_cons_False by done. cbn [filter list_filter length]. by rewrite Nat.add_0_r.
Qed.

(** The entry of an automatic range. *)
Definition auto_peer (n : Z) (kn : sockaddr_storage * Z) (o : option BanListPeer) : BanListPeer :=
  (default new_BanListPeer o) <| addr := kn.1 |> <| masked_bytes := 1 |> <| reason := RSBANLIST_REASON_AUTO_RANGE |>
    <| level := RSBANLIST_ORIGIN_SELF |> <| state := true |> <| mTs := n |> <| connect_attempts := sint32 kn.2 |>.

Definition ban_dense (n limit : Z) (kn : sockaddr_storage * Z) (o : option BanListPeer) : option BanListPeer :=
  if limit <=? kn.2 then
    Some (if reason (default new_BanListPeer o) =? RSBANLIST_REASON_USER then default new_BanListPeer o else auto_peer n kn o)
  else o.

Lemma ban_dense_range_find n limit m kn k :
  map_find (ban_dense_range n limit m kn) k = if decide (key_eqv kn.1 k) then ban_dense n limit kn (map_find m k) else map_find m k.
Proof.
  destruct kn as [k' c]. unfold ban_dense_range, ban_dense, auto_peer. cbn [fst snd]. destruct (limit <=? c).
  - destruct (decide (key_eqv k' k)) as [E|E].
    + rewrite <- (map_find_proper m _ _ E). destruct (_ =? RSBANLIST_REASON_USER); by rewrite map_find_set_eq.
    + destruct (_ =? RSBANLIST_REASON_USER); by rewrite map_find_set_ne.
  - by destruct (decide (key_eqv k' k)).
Qed.

(** C34 The automatic ranges are found anew each time: a /24 range is banned automatically exactly if as many addresses of the
    condensed set as the limit asks for fall under its key and the user did not ban it himself; every other range that was not
    automatic stays as it was. *)
Theorem auto_ranges_spec (e : ban_env) (t : p3BanList) (k : sockaddr_storage)
  (Hs : map_sorted (mBanRanges t)) (Hn : Z.of_nat (length (mBanSet t)) < 2 ^ 32) (Ha : mAutoRangeIps t = true) :
  let n := count_in (mBanSet t) k in
  let before := p ← map_find (mBanRanges t) k; if decide (reason p <> RSBANLIST_REASON_AUTO_RANGE) then Some p else None in
  let after := map_find (mBanRanges (autoFigureOutBanRanges e t)) k in
  let dense := 0 < n /\ mAutoRangeLimit t <= n in
  let by_user := exists p, before = Some p /\ reason p = RSBANLIST_REASON_USER in
  (dense -> ~ by_user -> exists p, after = Some p /\ reason p = RSBANLIST_REASON_AUTO_RANGE /\ masked_bytes p = 1 /\
     key_eqv (addr p) k /\ level p = RSBANLIST_ORIGIN_SELF /\ mTs p = now e /\ connect_attempts p = sint32 n) /\
  (~ dense \/ by_user -> after = before).
Proof.
  cbv zeta. unfold autoFigureOutBanRanges. cbn [mAutoRangeIps IndicateConfigChanged upd]. rewrite Ha. cbn [negb].
  match goal with |- context [condenseBanSources_locked e ?t0] => change (mBanRanges (condenseBanSources_locked e t0)) with (mBanRanges t0) end.
  cbn [mBanRanges mBanSet mAutoRangeLimit IndicateConfigChanged upd].
  set (before := p ← map_find (mBanRanges t) k; _).
  assert (Eb : map_find (filter not_automatic (mBanRanges t)) k = before).
  { unfold before. rewrite <- (map_find_filter (fun p => reason p <> RSBANLIST_REASON_AUTO_RANGE)) by exact Hs. reflexivity. }
  set (after := map_find _ k).
  destruct (Z.eqb_spec (count_in (mBanSet t) k) 0) as [E0|E0].
  { assert (Ea : after = before).
    { unfold after. rewrite <- Eb. apply (foldl_other_keys _ fst _ (ban_dense_range_find (now e) (mAutoRangeLimit t))).
      intros kn Hin E. pose proof (range_counts_find (mBanSet t) k Hn) as Ef. rewrite E0 in Ef. cbn in Ef.
      apply (map_find_None _ _ Ef kn Hin). by symmetry. }
    rewrite Ea. split; [lia|done]. }
  pose proof (range_counts_find (mBanSet t) k Hn) as Ef. rewrite (proj2 (Z.eqb_neq _ _) E0) in Ef.
  apply map_find_elem in Ef as (k' & Hk' & Hin); [|apply range_counts_sorted].
  assert (Ea : after = ban_dense (now e) (mAutoRangeLimit t) (k', count_in (mBanSet t) k) before).
  { unfold after. rewrite <- Eb. apply (foldl_one_key _ fst _ (ban_dense_range_find (now e) (mAutoRangeLimit t))); [apply range_counts_sorted|done|by symmetry]. }
  rewrite Ea. unfold ban_dense. cbn [snd]. assert (Hc : 0 <= count_in (mBanSet t) k) by (unfold count_in; lia).
  destruct (Z.leb_spec (mAutoRangeLimit t) (count_in (mBanSet t) k)) as [Hl|Hl].
  - destruct (Z.eqb_spec (reason (default new_BanListPeer before)) RSBANLIST_REASON_USER) as [Eu|Eu].
    + assert (Hu : exists p, before = Some p /\ reason p = RSBANLIST_REASON_USER).
      { destruct before as [p|]; [by exists p|done]. }
      split; [done|]. intros _. by destruct before.
    + split; [|intros [?|(p & -> & ?)]; [lia|done]]. intros _ _. eexists. split; [done|]. cbn. repeat split; try done; by apply Hk'.
  - split; [lia|]. done.
Qed.

(** ** What a friend can do *)

(** The entry of a friend's list. *)
Definition friend_entry (x : Z * Z * Z * Z) (l rsn age mask : Z) (cmt : list Z) : RsTlvBanListEntry :=
  mk_BanListEntry (address x) l rsn age mask cmt.

Lemma external_not_loopback x : octets x -> sockaddr_storage_isExternalNet (address x) = true -> x <> loopback.
Proof. by intros _ He ->. Qed.

(** The first report of a friend about an address becomes his only entry. *)
Lemma friend_list_stored e t f x l rsn age mask cmt : octets x -> sockaddr_storage_isExternalNet (address x) = true ->
  map_find (mBanSources t) f = None ->
  processIncoming e t [Some (mk_BanListItem f [friend_entry x l rsn age mask cmt])] =
    condenseBanSources_locked e (IndicateConfigChanged (t <| mBanSources := map_set (mBanSources t) f
      (mk_BanSource f (now e) [(address x, new_BanListPeer <| addr := address x |> <| reason := rsn |> <| level := l |> <| mTs := now e - age |>)]) |>)).
Proof.
  intros Hx He Hf. unfold processIncoming, recvBanItem, addBanEntry, friend_entry.
  cbn [foldl peerList PeerId e_addr e_level e_reason e_age snd]. rewrite address_ipv4, He. cbn [negb]. rewrite Hf. cbn [mBanPeers map_find].
  destruct x as [[[a b] c] d]. reflexivity.
Qed.

Lemma key_of_entry x : banned_key (address x) = address x.
Proof. by destruct x as [[[a b] c] d]. Qed.

(** The reports about the address are those there were and the friend's, somewhere between. *)
Lemma friend_reports e t f x src p : map_find (mBanSources t) f = None -> f <> ownId e -> mLastUpdate src = now e ->
  mBanPeers src = [(address x, p)] -> addr p = address x -> now e <= RSBANLIST_ENTRY_MAX_AGE + mTs p ->
  exists r1 r2, reports e t (address x) = r1 ++ r2 /\
    reports e (t <| mBanSources := map_set (mBanSources t) f src |>) (address x) = r1 ++ (u32 (level p + 1), p) :: r2.
Proof.
  intros Hf Ho Hu Hp Ha Ht. destruct (map_set_new (mBanSources t) f src Hf) as (m1 & m2 & E1 & E2).
  exists (about (address x) (concat (source_entries e <$> m1))), (about (address x) (concat (source_entries e <$> m2))). split.
  - unfold reports, entries. rewrite E1, fmap_app, concat_app. apply filter_app.
  - unfold reports, entries. cbn [mBanSources upd]. rewrite E2, fmap_app, concat_app, fmap_cons. cbn [concat]. unfold about. rewrite !filter_app.
    f_equal. change ((u32 (level p + 1), p) :: ?l) with ([(u32 (level p + 1), p)] ++ l). f_equal.
    unfold source_entries. cbn [fst snd]. rewrite Hu, Z.sub_diag, Hp. change (RSBANLIST_ENTRY_MAX_AGE <? 0) with false. cbn match.
    cbn [fmap list_fmap snd]. rewrite filter_cons_True by done. rewrite (proj2 (Z.eqb_neq f (ownId e))) by done.
    rewrite filter_nil. cbn [fmap list_fmap report_of]. rewrite filter_cons_True; [done|]. change (key_eqv (banned_key (addr p)) (address x)). by rewrite Ha, key_of_entry.
Qed.

(** A report decides alone when there is no other at its level or below. *)
Definition report_rejects (gather : bool) (lvl rsn : Z) : Prop :=
  rsn = RSBANLIST_REASON_USER \/ rsn = RSBANLIST_REASON_DHT /\ gather = true /\ lvl = 1.

Lemma accepted_report t p : mIPFriendGatheringEnabled t = false ->
  acceptedBanSet_locked t p = true <-> report_rejects (mIPDHTGatheringEnabled t) (level p) (reason p).
Proof.
  intros Hf. unfold acceptedBanSet_locked, report_rejects. rewrite Hf, andb_false_r.
  destruct (Z.eqb_spec (reason p) RSBANLIST_REASON_USER) as [->|Hu]; [by split; [left|]|].
  destruct (Z.eqb_spec (reason p) RSBANLIST_REASON_DHT) as [->|Hd].
  - rewrite andb_true_iff, Z.eqb_eq. split; [by right|]. intros [?|?]; [done|tauto].
  - split; [done|]. intros [?|[? _]]; done.
Qed.

(** The user does not take lists of banned addresses from friends.  Still the first report of a friend about an address decides
    alone whether it is rejected when there is no report of this node, banning it if the friend calls it banned by the user; if
    the node's own DHT reported the address, a friend's report at level 2^32 - 1 replaces that, and one at level 0 can lift it. *)
Theorem friend_report_decides (e : ban_env) (t : p3BanList) (f l rsn age mask : Z) (cmt : list Z) (x : Z * Z * Z * Z) (own : option BanListPeer)
  (Hx : octets x) (He : sockaddr_storage_isExternalNet (address x) = true) (Hfil : mIPFilteringEnabled t = true)
  (Hoff : mIPFriendGatheringEnabled t = false) (Hw : whitelisted t x = false) (Hr : forall j, 0 <= j <= 2 -> range_hit t (key_of j x) = None)
  (Hf : map_find (mBanSources t) f = None) (Ho : f <> ownId e) (Hage : 0 <= age <= RSBANLIST_ENTRY_MAX_AGE) (Hl : is_word 32 l)
  (Hown : reports e t (address x) = match own with Some p => [(1, p)] | None => [] end)
  (Hdht : forall p, own = Some p -> reason p = RSBANLIST_REASON_DHT) :
  let t' := processIncoming e t [Some (mk_BanListItem f [friend_entry x l rsn age mask cmt])] in
  let gather := mIPDHTGatheringEnabled t in
  (verdict t' x = false <->
     match own with
     | None => report_rejects gather (u32 (l + 1)) rsn
     | Some _ => if l =? 2 ^ 32 - 1 then report_rejects gather 0 rsn
                 else if l =? 0 then report_rejects gather 1 (Z.lor RSBANLIST_REASON_DHT rsn)
                 else gather = true
     end).
Proof.
  cbv zeta. rewrite friend_list_stored by done. match goal with |- context [mk_BanSource f (now e) [(_, ?q)]] => set (p := q) end.
  assert (Hp : addr p = address x /\ level p = l /\ reason p = rsn /\ mTs p = now e - age) by done. destruct Hp as (Ha & Hlv & Hrs & Ht). clearbody p.
  set (t1 := t <| mBanSources := _ |>). set (t' := condenseBanSources_locked e (IndicateConfigChanged t1)).
  destruct (friend_reports e t f x (mk_BanSource f (now e) [(address x, p)]) p Hf Ho eq_refl eq_refl Ha ltac:(lia)) as (r1 & r2 & E1 & E2).
  rewrite verdict_eq by (done || by apply external_not_loopback). change (whitelisted t' x) with (whitelisted t x). rewrite Hw. cbn [orb].
  assert (Hb : banned t' x = holds (set_hit t' (address x))).
  { unfold banned. change (range_hit t') with (range_hit t). rewrite !Hr by lia. by rewrite key_of_0. }
  assert (Hs : set_hit t' (address x) = (s ← foldl merge_report None (r1 ++ (u32 (level p + 1), p) :: r2); if acceptedBanSet_locked t s then Some s else None)).
  { unfold set_hit. change (acceptedBanSet_locked t') with (acceptedBanSet_locked t). unfold t'. rewrite condense_find.
    change (isWhiteListed_locked (IndicateConfigChanged t1) (address x)) with (whitelisted t x). rewrite Hw.
    change (reports e (IndicateConfigChanged t1) (address x)) with (reports e t1 (address x)). unfold t1. by rewrite E2. }
  assert (Hd : forall lv rs, (exists s, foldl merge_report None (r1 ++ (u32 (level p + 1), p) :: r2) = Some s /\ level s = lv /\ reason s = rs) ->
    (negb (banned t' x) = false <-> report_rejects (mIPDHTGatheringEnabled t) lv rs)).
  { intros lv rs (s & Es & <- & <-). rewrite Hb, Hs, Es. cbn [mbind option_bind]. rewrite <- (accepted_report t s Hoff).
    by destruct (acceptedBanSet_locked t s). }
  rewrite Hlv in Hd. rewrite E1 in Hown. unfold is_word in Hl. destruct own as [p0|].
  2: { apply app_eq_nil in Hown as [-> ->]. apply Hd. eexists. split; [reflexivity|]. done. }
  specialize (Hdht p0 eq_refl).
  assert (Hm : forall lv rs, (exists s, merge_report (Some (entered (u32 (l + 1), p))) (1, p0) = Some s /\ level s = lv /\ reason s = rs) ->
    (exists s, merge_report (Some (entered (1, p0))) (u32 (l + 1), p) = Some s /\ level s = lv /\ reason s = rs) ->
    (negb (banned t' x) = false <-> report_rejects (mIPDHTGatheringEnabled t) lv rs)).
  { intros lv rs H1 H2. apply Hd. apply app_eq_unit in Hown as [[-> ->]|[-> ->]]; [exact H1|exact H2]. }
  unfold merge_report, entered in Hm. cbn [fst snd level upd] in Hm.
  destruct (Z.eqb_spec l (2 ^ 32 - 1)) as [->|Hmax]; [|destruct (Z.eqb_spec l 0) as [->|Hzero]].
  - apply Hm; eexists; (split; [reflexivity|]); done.
  - apply Hm; eexists; (split; [reflexivity|]); cbn; rewrite Hrs, Hdht; split; try done. apply Z.lor_comm.
  - rewrite wrap_small in Hm by (unfold is_word; lia). rewrite (Hm 1 RSBANLIST_REASON_DHT).
    + unfold report_rejects. intuition done.
    + destruct (Z.ltb_spec 1 (l + 1)); [|lia]. eexists. split; [reflexivity|]. done.
    + destruct (Z.ltb_spec (l + 1) 1); [lia|]. destruct (Z.eqb_spec (l + 1) 1); [lia|]. eexists. split; [reflexivity|]. done.
Qed.

(** ** Examples *)

(** The DHT of this node reported two neighbours; what it reports is used. *)
Definition two_reported : p3BanList :=
  Eval vm_compute in updatePeer demo_env (updatePeer demo_env (enableIPsFromDHT new_p3BanList true) (address (9, 9, 9, 1)) 999000) (address (9, 9, 9, 2)) 999000.

Lemma auto_ranges_spec_witness :
  mAutoRangeIps two_reported = true /\
  exists p, map_find (mBanRanges (autoFigureOutBanRanges demo_env two_reported)) (ip4 (dotted_word 9 9 9 255)) = Some p /\
    reason p = RSBANLIST_REASON_AUTO_RANGE.
Proof.
  split; [reflexivity|].
  destruct (auto_ranges_spec demo_env two_reported (ip4 (dotted_word 9 9 9 255)) ltac:(constructor) ltac:(vm_compute; reflexivity) eq_refl) as [H _].
  assert (Hc : count_in (mBanSet two_reported) (ip4 (dotted_word 9 9 9 255)) = 2) by (vm_compute; reflexivity).
  rewrite Hc in H. destruct H as (p & Hp & Hr & _).
  - split; [lia|vm_compute; discriminate].
  - intros (p & Hp & _). discriminate Hp.
  - exists p. split; [exact Hp|exact Hr].
Defined.

(** Two addresses in 9.9.255.0/24 are enough to have all of 9.9.0.0/16 banned automatically. *)
Example two_addresses_ban_sixteen :
  let t := updatePeer demo_env (updatePeer demo_env new_p3BanList (address (9, 9, 255, 1)) 999000) (address (9, 9, 255, 2)) 999000 in
  verdict (autoFigureOutBanRanges demo_env t) (9, 9, 77, 5) = false.
Proof. vm_compute. reflexivity. Qed.

(** A friend says at level 0 that the user banned 9.9.9.1. *)
Lemma friend_report_decides_witness :
  verdict two_reported (9, 9, 9, 1) = false /\
  verdict (processIncoming demo_env two_reported
    [Some (mk_BanListItem 7 [friend_entry (9, 9, 9, 1) 0 RSBANLIST_REASON_USER 60 0 []])]) (9, 9, 9, 1) = true /\
  verdict (processIncoming demo_env new_p3BanList
    [Some (mk_BanListItem 7 [friend_entry (9, 9, 9, 1) 0 RSBANLIST_REASON_USER 60 0 []])]) (9, 9, 9, 1) = false.
Proof.
  split; [vm_compute; reflexivity|]. split.
  - pose (p := mk_BanListPeer (address (9, 9, 9, 1)) 0 RSBANLIST_REASON_DHT 1 true 0 999000 []).
    pose proof (friend_report_decides demo_env two_reported 7 0 RSBANLIST_REASON_USER 60 0 [] (9, 9, 9, 1) (Some p)
      ltac:(octets) eq_refl eq_refl eq_refl eq_refl) as H.
    assert (Hr : forall j, 0 <= j <= 2 -> range_hit two_reported (key_of j (9, 9, 9, 1)) = None) by (intros j _; reflexivity).
    specialize (H Hr eq_refl ltac:(discriminate) ltac:(unfold RSBANLIST_ENTRY_MAX_AGE; lia) ltac:(unfold is_word; lia) eq_refl
      ltac:(by intros q [= <-])).
    destruct (verdict _ (9, 9, 9, 1)) eqn:E; [reflexivity|]. exfalso. apply H in E. cbn in E. unfold report_rejects in E.
    destruct E as [E|[E _]]; discriminate E.
  - pose proof (friend_report_decides demo_env new_p3BanList 7 0 RSBANLIST_REASON_USER 60 0 [] (9, 9, 9, 1) None
      ltac:(octets) eq_refl eq_refl eq_refl eq_refl) as H.
    assert (Hr : forall j, 0 <= j <= 2 -> range_hit new_p3BanList (key_of j (9, 9, 9, 1)) = None) by (intros j _; reflexivity).
    specialize (H Hr eq_refl ltac:(discriminate) ltac:(unfold RSBANLIST_ENTRY_MAX_AGE; lia) ltac:(unfold is_word; lia) eq_refl ltac:(done)).
    apply H. left. reflexivity.
Defined.
