(* ===== verification/BanListState.v ===== *)
(** * The list of banned addresses: every state, and saving it

    The operations as steps with their environment, the invariant of every state they lead to, and the configuration that is
    written and read back. *)

From S2P Require Import Prelude RawSerial Tlv TlvSets StdMap NetAddr BanList BanListProps.
From Stdlib Require Import ZArith Lia Ascii String.
From stdpp Require Import base list sorting.
Open Scope Z_scope.

(** ** Steps *)

Inductive ban_op :=
| Tick (items : list (option RsBanListItem))
| Asked (a : sockaddr_storage) (flags : Z)
| Add (a : sockaddr_storage) (mask list_type : Z) (cmt : list Z)
| Remove (a : sockaddr_storage) (mask list_type : Z)
| Report (a : sockaddr_storage) (time_stamp : Z)
| FilterOn (b : bool)
| FriendsOn (b : bool)
| DHTOn (b : bool)
| AutoOn (b : bool)
| AutoLimit (n : Z)
| LoadConfig (l : list ban_config_item).

Definition ban_step (t : p3BanList) (eo : ban_env * ban_op) : p3BanList :=
  let '(e, op) := eo in
  match op with
  | Tick items => (tick e t items).1
  | Asked a flags => (isAddressAccepted t a flags).2
  | Add a mask list_type cmt => (addIpRange e t a mask list_type cmt).2
  | Remove a mask list_type => (removeIpRange e t a mask list_type).2
  | Report a ts => updatePeer e t a ts
  | FilterOn b => enableIPFiltering t b
  | FriendsOn b => enableIPsFromFriends t b
  | DHTOn b => enableIPsFromDHT t b
  | AutoOn b => enableAutoRange e t b
  | AutoLimit n => setAutoRangeLimit e t n
  | LoadConfig l => loadList e t l
  end.

Definition ban_run (ops : list (ban_env * ban_op)) : p3BanList := foldl ban_step new_p3BanList ops.

(** ** The invariant *)

Definition single_key (p : BanListPeer) : sockaddr_storage := banned_key (addr p).

(** The maps are ordered; ranges stand under the key of their address and mask, condensed entries under that of their address,
    sources under their id. *)
Record ban_ok (t : p3BanList) : Prop := {
  ok_ranges : keyed range_key (mBanRanges t);
  ok_white : keyed range_key (mWhiteListedRanges t);
  ok_set : keyed single_key (mBanSet t);
  ok_sources : keyed mPeerId (mBanSources t);
  ok_peers : forall src, src ∈ (mBanSources t).*2 -> map_sorted (mBanPeers src);
  ok_limit : is_word 32 (mAutoRangeLimit t)
}.

Create HintDb ban.
#[export] Hint Resolve ok_ranges ok_white ok_set ok_sources ok_peers ok_limit : ban.

Lemma new_ban_ok : ban_ok new_p3BanList.
Proof. split; cbn; auto with stdmap; [|by compute]. intros src Hin. by apply not_elem_of_nil in Hin. Qed.

(** Keys do not change when they are masked again or the port is set. *)
Lemma banned_key_setport a port : key_eqv (banned_key (sockaddr_storage_setport a port).2) (banned_key a).
Proof.
  apply (key_eqv_by_list _ less_rank). unfold sockaddr_storage_setport, banned_key, sockaddr_storage_copyip.
  destruct (Z.eqb_spec (ss_family a) AF_INET) as [E|E]; [cbn; by rewrite E|].
  destruct (Z.eqb_spec (ss_family a) AF_INET6) as [E6|E6]; [cbn; by rewrite E6|]. cbn.
  by rewrite (proj2 (Z.eqb_neq _ _) E), (proj2 (Z.eqb_neq _ _) E6).
Qed.

Lemma makeBitsRange_twice a m : key_eqv (makeBitsRange (makeBitsRange a m) m) (makeBitsRange a m).
Proof.
  apply (key_eqv_by_list _ less_rank). unfold makeBitsRange, sockaddr_storage_copyip.
  destruct (Z.eqb_spec (ss_family a) AF_INET) as [E|E].
  - cbn [fst snd]. destruct (m =? 1); [|destruct (m =? 2); [|done]]; cbn; by rewrite <- Z.lor_assoc, Z.lor_diag.
  - destruct (Z.eqb_spec (ss_family a) AF_INET6) as [E6|E6]; cbn [fst snd]; by destruct (m =? 1), (m =? 2).
Qed.

(** ** Condensing keeps it *)

Lemma condense_entry_keyed t n own set p : keyed single_key set -> keyed single_key (condense_entry t n own set p).
Proof.
  intros Hs. unfold condense_entry. destruct (_ <? n); [done|]. destruct (isWhiteListed_locked t _); [done|].
  assert (He : forall lv, keyed single_key (map_set set (banned_key (addr p))
    (p <| level := lv |> <| masked_bytes := 0 |> <| addr := (sockaddr_storage_setport (addr p) 0).2 |>))).
  { intros lv. apply keyed_set; [done|]. symmetry. apply (banned_key_setport (addr p) 0). }
  destruct (map_find set (banned_key (addr p))) as [s|] eqn:E; [|apply He].
  destruct (_ <? level s); [apply He|]. destruct (_ =? level s); [|done]. apply keyed_set; [done|].
  apply (keyed_find single_key set _ s Hs E).
Qed.

Lemma condense_keyed t e l set : keyed single_key set -> keyed single_key (foldl (condense_source t e) set l).
Proof.
  revert set. induction l as [|src l IH]; intros set Hs; [done|]. cbn [foldl]. apply IH. unfold condense_source.
  destruct (_ <? _); [done|]. revert set Hs. induction (mBanPeers src.2) as [|kp ps IHp]; intros set Hs; [done|].
  cbn [foldl]. apply IHp. by apply condense_entry_keyed.
Qed.

Lemma condense_ok e t : ban_ok t -> ban_ok (condenseBanSources_locked e t).
Proof. intros [? ? ? ? ? ?]. split; cbn; try done. apply condense_keyed. auto with stdmap. Qed.

Lemma ranges_ok t m : ban_ok t -> keyed range_key m -> ban_ok (t <| mBanRanges := m |>).
Proof. intros [? ? ? ? ? ?] Hm. by split. Qed.

Lemma white_ok t m : ban_ok t -> keyed range_key m -> ban_ok (t <| mWhiteListedRanges := m |>).
Proof. intros [? ? ? ? ? ?] Hm. by split. Qed.

Lemma set_ok t m : ban_ok t -> keyed single_key m -> ban_ok (t <| mBanSet := m |>).
Proof. intros [? ? ? ? ? ?] Hm. by split. Qed.

Lemma source_ok t id src : ban_ok t -> mPeerId src = id -> map_sorted (mBanPeers src) ->
  ban_ok (t <| mBanSources := map_set (mBanSources t) id src |>).
Proof.
  intros [? ? ? Hs Hp ?] Hid Hm. split; cbn; try done.
  - apply keyed_set; [done|]. by rewrite Hid.
  - intros s Hin. apply list_elem_of_fmap in Hin as ([k s'] & -> & Hin). apply elem_of_map_set in Hin as [(k' & _ & [= -> ->])|Hin]; [done|].
    apply Hp. by apply (list_elem_of_fmap_2 snd _ (k, s')).
Qed.

#[export] Hint Resolve condense_ok ranges_ok white_ok set_ok : ban.

(** ** Every operation keeps it *)

(** A step that leaves the maps and the limit alone. *)
Ltac same_maps H := destruct H; split; assumption.

Lemma indicate_ok t : ban_ok t -> ban_ok (IndicateConfigChanged t).
Proof. intros H. same_maps H. Qed.

#[export] Hint Resolve indicate_ok : ban.

Lemma count_attempt_keyed f m k p : (forall q n, f (q <| connect_attempts := n |>) = f q) -> keyed f m -> map_find m k = Some p -> keyed f (count_attempt m k p).
Proof. intros Hf Hm E. apply keyed_set; [done|]. rewrite Hf. by apply (keyed_find f m). Qed.

Lemma range_hit_find t k p : range_hit t k = Some p -> map_find (mBanRanges t) k = Some p.
Proof. unfold range_hit. destruct (map_find _ k) as [q|]; cbn; [|done]. by destruct (acceptedBanRanges_locked t q). Qed.

Lemma set_hit_find t k p : set_hit t k = Some p -> map_find (mBanSet t) k = Some p.
Proof. unfold set_hit. destruct (map_find _ k) as [q|]; cbn; [|done]. by destruct (acceptedBanSet_locked t q). Qed.

Lemma asked_ok t a flags : ban_ok t -> ban_ok (isAddressAccepted t a flags).2.
Proof.
  intros H. unfold isAddressAccepted. destruct (sockaddr_storage_ipv6_to_ipv4 _) as [ok x]. destruct (negb ok); [done|].
  destruct (sockaddr_storage_isLoopbackNet x); [done|]. destruct (negb (mIPFilteringEnabled t)); [done|].
  destruct (_ || _ || _); [done|]. destruct (negb (_ =? 0)); [done|]. destruct (_ =? 0); [done|].
  assert (Hr : forall k p, range_hit t k = Some p -> ban_ok (t <| mBanRanges := count_attempt (mBanRanges t) k p |>)).
  { intros k p E. apply ranges_ok; [done|]. apply count_attempt_keyed; [done|by apply ok_ranges|by apply range_hit_find]. }
  destruct (range_hit t (makeBitsRange x 2)) eqn:E2; [by apply Hr|]. destruct (range_hit t (makeBitsRange x 1)) eqn:E1; [by apply Hr|].
  destruct (range_hit t (makeBitsRange x 0)) eqn:E0; [by apply Hr|]. destruct (set_hit t (makeBitsRange x 0)) eqn:Es; [|done].
  apply set_ok; [done|]. apply count_attempt_keyed; [done|by apply ok_set|by apply set_hit_find].
Qed.

Lemma insert_range_keyed m a mask p : keyed range_key m -> addr p = a -> masked_bytes p = mask -> keyed range_key (insert_range m a mask p).
Proof.
  intros Hm Ha Hk. unfold insert_range. apply keyed_set; [|unfold range_key; by rewrite Ha, Hk].
  revert m Hm. induction (seq 0 _) as [|i l IH]; intros m Hm; [done|]. cbn [foldl]. apply IH. by apply keyed_erase.
Qed.

Lemma add_ok e t a mask list_type cmt : ban_ok t -> ban_ok (addIpRange e t a mask list_type cmt).2.
Proof.
  intros H. unfold addIpRange. destruct (sockaddr_storage_ipv6_to_ipv4 _) as [ok x]. destruct (negb ok); [done|].
  destruct (_ <? _); [done|]. destruct ((mask =? 0) || (mask =? 1) || (mask =? 2)) eqn:Em; cbn [negb]; [|done].
  destruct (negb (_ || _)); [done|]. cbn [snd].
  assert (Hm : wrap 8 mask = mask) by (apply wrap_small; unfold is_word; lia). rewrite Hm.
  apply condense_ok, indicate_ok. destruct (list_type =? RSBANLIST_TYPE_BLACKLIST); [apply ranges_ok|apply white_ok]; try done; apply insert_range_keyed; auto with ban.
Qed.

Lemma remove_ok e t a mask list_type : ban_ok t -> ban_ok (removeIpRange e t a mask list_type).2.
Proof.
  intros H. unfold removeIpRange. destruct (sockaddr_storage_ipv6_to_ipv4 _) as [ok x]. destruct (negb ok); [done|]. cbv zeta.
  set (r := if list_type =? _ then _ else _). assert (Hr : ban_ok r.2).
  { unfold r. destruct (_ =? _); [|destruct (_ =? _)]; [| |done];
      (destruct (map_find _ _); [|done]); cbn [snd]; auto with ban stdmap. }
  destruct r as [changed t1]. by apply condense_ok.
Qed.

Lemma ban_dense_ok n limit m kn : keyed range_key m -> key_eqv (makeBitsRange kn.1 1) kn.1 -> keyed range_key (ban_dense_range n limit m kn).
Proof.
  intros Hm Hk. destruct kn as [k c]. unfold ban_dense_range. destruct (_ <=? c); [|done].
  destruct (Z.eqb_spec (reason (default new_BanListPeer (map_find m k))) RSBANLIST_REASON_USER) as [E|E].
  - destruct (map_find m k) as [p|] eqn:F; [|done]. apply keyed_set; [done|]. by apply (keyed_find range_key m).
  - apply keyed_set; [done|]. symmetry. exact Hk.
Qed.

Lemma range_counts_keys set kn : kn ∈ range_counts set -> key_eqv (makeBitsRange kn.1 1) kn.1.
Proof.
  unfold range_counts. assert (Hm : forall m : list (sockaddr_storage * Z), (forall kn, kn ∈ m -> key_eqv (makeBitsRange kn.1 1) kn.1) ->
    forall kn, kn ∈ foldl (fun m kp => let k := makeBitsRange kp.1 1 in map_set m k (u32 (default 0 (map_find m k) + 1))) m set ->
    key_eqv (makeBitsRange kn.1 1) kn.1).
  { induction set as [|kp set IH]; intros m Hm kn' Hin; [by apply Hm|]. cbn [foldl] in Hin. apply (IH _) in Hin; [done|].
    intros x Hx. apply elem_of_map_set in Hx as [(k' & E & ->)|Hx]; [|by apply Hm]. cbn [fst].
    transitivity (makeBitsRange (makeBitsRange kp.1 1) 1); [by apply makeBitsRange_proper|]. transitivity (makeBitsRange kp.1 1); [apply makeBitsRange_twice|done]. }
  apply Hm. intros x Hx. by apply not_elem_of_nil in Hx.
Qed.

Lemma auto_ok e t : ban_ok t -> ban_ok (autoFigureOutBanRanges e t).
Proof.
  intros H. unfold autoFigureOutBanRanges. cbv zeta. set (t1 := IndicateConfigChanged _).
  assert (H1 : ban_ok t1) by (apply indicate_ok, ranges_ok; auto with ban stdmap). clearbody t1.
  destruct (negb (mAutoRangeIps t1)); [done|]. apply condense_ok, ranges_ok; [done|].
  assert (Hk : Forall (fun kn => key_eqv (makeBitsRange kn.1 1) kn.1) (range_counts (mBanSet t1))).
  { apply Forall_forall. apply range_counts_keys. }
  assert (Hr : keyed range_key (mBanRanges t1)) by auto with ban. revert Hr.
  generalize (mBanRanges t1). induction (range_counts (mBanSet t1)) as [|kn l IH]; intros m Hm; [done|].
  apply Forall_cons in Hk as [Hk1 Hk]. cbn [foldl]. apply IH; [done|]. by apply ban_dense_ok.
Qed.

Lemma addBanEntry_ok e t id a lvl rsn ts : ban_ok t -> ban_ok (addBanEntry e t id a lvl rsn ts).2.
Proof.
  intros H. unfold addBanEntry. destruct (sockaddr_storage_ipv6_to_ipv4 _) as [ok x]. destruct (negb ok); [done|].
  destruct (negb (sockaddr_storage_isExternalNet x)); [done|].
  set (r := match map_find (mBanSources t) id with None => _ | Some src => _ end).
  assert (Hr : mPeerId r.2 = id /\ map_sorted (mBanPeers r.2)).
  { unfold r. destruct (map_find (mBanSources t) id) as [src|] eqn:E; cbn; [|split; [done|constructor]]. split.
    - pose proof (keyed_find mPeerId _ _ _ (ok_sources t H) E) as Hk. by apply Z_key_eqv in Hk.
    - apply map_find_elem in E as (k' & _ & Hin); [|apply (ok_sources t H)]. apply (ok_peers t H). by apply (list_elem_of_fmap_2 snd _ (k', src)). }
  clearbody r. destruct r as [u src]. cbn in Hr. destruct Hr as [Hid Hm].
  set (r2 := match map_find (mBanPeers src) _ with None => _ | Some p => _ end).
  assert (Hr2 : mPeerId r2.2 = id /\ map_sorted (mBanPeers r2.2)).
  { unfold r2. destruct (map_find _ _) as [p|]; cbn; [|split; [done|by apply map_sorted_set]].
    destruct (_ || _); cbn; split; try done. by apply map_sorted_set. }
  clearbody r2. destruct r2 as [u2 src2]. cbn in Hr2. destruct Hr2 as [Hid2 Hm2].
  assert (Hs : ban_ok (t <| mBanSources := map_set (mBanSources t) id src2 |>)) by (by apply source_ok).
  cbn [snd]. destruct u2; [by apply indicate_ok|done].
Qed.

Lemma recv_ok e t item : ban_ok t -> ban_ok (recvBanItem e t item).2.
Proof.
  intros H. unfold recvBanItem. assert (Hp : ban_ok (false, t).2) by done. revert Hp. generalize (false, t).
  induction (peerList item) as [|en l IH]; intros r Hr; [done|]. cbn [foldl]. apply IH.
  pose proof (addBanEntry_ok e r.2 (PeerId item) (e_addr en) (e_level en) (e_reason en) (now e - e_age en) Hr) as Ha.
  by destruct (addBanEntry _ _ _ _ _ _ _) as [u t1].
Qed.

Lemma incoming_ok e t items : ban_ok t -> ban_ok (processIncoming e t items).
Proof.
  intros H. unfold processIncoming. set (r := foldl _ (false, t) items). assert (Hr : ban_ok r.2).
  { unfold r. assert (Hp : ban_ok (false, t).2) by done. revert Hp. clear r. generalize (false, t).
    induction items as [|[item|] l IH]; intros r Hr; [done| |]; cbn [foldl]; apply IH; [|done].
    pose proof (recv_ok e r.2 item Hr) as Ha. by destruct (recvBanItem e r.2 item) as [u t1]. }
  clearbody r. destruct r as [u t1]. destruct u; [by apply condense_ok|done].
Qed.

Lemma report_ok e t a ts : ban_ok t -> ban_ok (updatePeer e t a ts).
Proof.
  intros H. unfold updatePeer. destruct (sockaddr_storage_ipv6_to_ipv4 _) as [ok x]. destruct (negb ok); [done|].
  by apply condense_ok, addBanEntry_ok.
Qed.

Lemma dht_ok e t : ban_ok t -> ban_ok (getDhtInfo e t).
Proof.
  intros H. unfold getDhtInfo. apply condense_ok. revert t H. induction (listOfBannedIps e) as [|p l IH]; intros t H; [done|].
  cbn [foldl]. by apply IH, addBanEntry_ok.
Qed.

Lemma ban_tick_ok e t items : ban_ok t -> ban_ok (tick e t items).1.
Proof.
  intros H. unfold tick. pose proof (incoming_ok e t items H) as Hi. set (t1 := processIncoming e t items) in *. clearbody t1.
  assert (Hs : ban_ok (sendPackets e t1).1).
  { unfold sendPackets. destruct (_ <? _); [same_maps Hi|done]. }
  destruct (sendPackets e t1) as [t2 sent]. cbn [fst] in Hs. destruct (_ <? now e); [|done]. cbn [fst].
  pose proof (dht_ok e t2 Hs) as Hd. set (t3 := getDhtInfo e t2) in *. clearbody t3.
  assert (H4 : ban_ok (t3 <| mLastDhtInfoRequest := now e |>)) by same_maps Hd. destruct (mAutoRangeIps _); [by apply auto_ok|done].
Qed.

Lemma load_map_keyed e f l : keyed f (load_map e f l).
Proof.
  unfold load_map. assert (Hm : keyed f []) by auto with stdmap. revert Hm. generalize (@nil (sockaddr_storage * BanListPeer)).
  induction l as [|en l IH]; intros m Hm; [done|]. cbn [foldl]. apply IH. destruct (sockaddr_storage_isValidNet _); [|done]. by apply keyed_set.
Qed.

Lemma load_pair_ok t kv : ban_ok t -> ban_ok (load_pair t kv).
Proof.
  intros H. unfold load_pair. cbv zeta.
  repeat match goal with |- context [if bool_decide ?P then ?t0 <| ?fld := ?v |> else ?t0] =>
    let t1 := fresh "t1" in set (t1 := if bool_decide P then t0 <| fld := v |> else t0);
    assert (ban_ok t1) by (unfold t1; destruct (bool_decide P); [same_maps H|done]); clearbody t1; clear H; rename select (ban_ok t1) into H end.
  destruct (bool_decide _); [|done]. destruct (scan_int _); [|done]. destruct H. split; try done. apply wrap_is_word. lia.
Qed.

Lemma ban_load_ok e t l : ban_ok t -> ban_ok (loadList e t l).
Proof.
  unfold loadList. revert t. induction l as [|item l IH]; intros t H; [done|]. cbn [foldl]. apply IH. destruct item as [c|pairs]; cbn [load_item].
  - destruct (_ =? RSBANLIST_TYPE_PEERLIST); [apply source_ok; [done|done|apply (load_map_keyed e addr)]|].
    destruct (_ =? RSBANLIST_TYPE_BLACKLIST); [apply ranges_ok; [done|apply load_map_keyed]|].
    destruct (_ =? RSBANLIST_TYPE_WHITELIST); [apply white_ok; [done|apply load_map_keyed]|done].
  - revert t H. induction pairs as [|kv l' IH']; intros t H; [done|]. cbn [foldl]. by apply IH', load_pair_ok.
Qed.

(** C33 In every state of the list - whatever the user does, the DHT and the friends report, and the configuration file holds - all
    maps are ordered, every range stands under the key of its address and mask, every condensed entry under that of its address,
    every source under its own id, and the limit is a 32-bit word. *)
Theorem ban_states (ops : list (ban_env * ban_op)) : ban_ok (ban_run ops).
Proof.
  unfold ban_run. assert (H : ban_ok new_p3BanList) by apply new_ban_ok. revert H. generalize new_p3BanList.
  induction ops as [|[e op] ops IH]; intros t H; [done|]. cbn [foldl]. apply IH. destruct op; cbn [ban_step].
  - by apply ban_tick_ok.
  - by apply asked_ok.
  - by apply add_ok.
  - by apply remove_ok.
  - by apply report_ok.
  - same_maps H.
  - same_maps H.
  - same_maps H.
  - apply indicate_ok, auto_ok. same_maps H.
  - apply indicate_ok, auto_ok. destruct H. split; try done. apply wrap_is_word. lia.
  - by apply ban_load_ok.
Qed.

(** ** Saving and loading *)

(** What an entry saved at the time of [e] is after it was loaded at that of [e']: it has the age, in 32 bits, it had. *)
Definition reloaded (e e' : ban_env) (p : BanListPeer) : BanListPeer :=
  p <| state := true |> <| connect_attempts := 0 |> <| mTs := now e' - u32 (now e - mTs p) |>.

Definition restored (e e' : ban_env) (o : option BanListPeer) : option BanListPeer :=
  p ← o; if sockaddr_storage_isValidNet (addr p) then Some (reloaded e e' p) else None.

(** The last of the reports [l] of the address [k] with its port, when it is valid. *)
Definition last_report (e e' : ban_env) (k : sockaddr_storage) (l : list BanListPeer) : option BanListPeer :=
  restored e e' (last (filter (fun p => key_eqv (addr p) k /\ sockaddr_storage_isValidNet (addr p) = true) l)).

Lemma from_to e e' p : fromRsTlvBanListEntry (now e') (toRsTlvBanListEntry (now e) p) = reloaded e e' p.
Proof. by destruct p. Qed.

Lemma load_map_save e e' f m k : (forall p, f (reloaded e e' p) = f p) -> keyed f m ->
  map_find (load_map e' f (save_map e m)) k = restored e e' (map_find m k).
Proof.
  intros Hf Hm. pose (at_key := fun en => f (fromRsTlvBanListEntry (now e') en)).
  pose (new := fun en (o : option BanListPeer) => if sockaddr_storage_isValidNet (addr (fromRsTlvBanListEntry (now e') en))
                                                  then Some (fromRsTlvBanListEntry (now e') en) else o).
  set (turn := fun (m : addr_map) en => let blp := fromRsTlvBanListEntry (now e') en in
    if sockaddr_storage_isValidNet (addr blp) then map_set m (f blp) blp else m).
  assert (Hturn : forall m x k, map_find (turn m x) k = if decide (key_eqv (at_key x) k) then new x (map_find m k) else map_find m k).
  { intros m' x k'. unfold turn, new, at_key. destruct (sockaddr_storage_isValidNet _); [|by destruct (decide _)].
    destruct (decide _); [by rewrite map_find_set_eq|by rewrite map_find_set_ne]. }
  assert (Es : save_map e m = toRsTlvBanListEntry (now e) <$> m.*2) by (unfold save_map; by rewrite <- list_fmap_compose).
  assert (Hk : forall p, p ∈ m.*2 -> at_key (toRsTlvBanListEntry (now e) p) = f p).
  { intros p Hp. unfold at_key. by rewrite from_to, Hf. }
  change (load_map e' f (save_map e m)) with (foldl turn [] (save_map e m)). rewrite Es. destruct (map_find m k) as [p|] eqn:E.
  - pose proof (keyed_find f m k p Hm E) as Hkp. apply map_find_elem in E as (k' & _ & Hin); [|apply Hm].
    apply (list_elem_of_fmap_2 snd) in Hin. cbn in Hin.
    rewrite (foldl_one_key turn at_key new Hturn _ [] k (toRsTlvBanListEntry (now e) p)).
    + unfold new, restored. cbn [mbind option_bind]. rewrite from_to.
      change (addr (reloaded e e' p)) with (addr p). by destruct (sockaddr_storage_isValidNet (addr p)).
    + pose proof (keyed_ascending f m Hm) as Hs. revert Hs Hk. clear. induction (m.*2) as [|p l IH]; intros Hs Hk; [constructor|].
      apply StronglySorted_inv in Hs as [Hs Hall]. cbn [fmap list_fmap]. constructor; [apply IH; [done|]; intros q Hq; apply Hk; by right|].
      apply Forall_forall. intros x Hx. apply list_elem_of_fmap in Hx as (q & -> & Hq). rewrite Forall_forall in Hall.
      rewrite !Hk by (by left || by right). by apply Hall.
    + by apply list_elem_of_fmap_2.
    + rewrite Hk by done. by symmetry.
  - rewrite (foldl_other_keys turn at_key new Hturn); [done|]. intros x Hx. apply list_elem_of_fmap in Hx as (p & -> & Hp).
    rewrite Hk by done. apply list_elem_of_fmap in Hp as ([k' p'] & -> & Hin). intros Ek. destruct Hm as [Hs Hm].
    apply (map_find_None m k E _ Hin). rewrite (Hm _ Hin). by symmetry.
Qed.

(** Whatever the keys were: of the entries that are loaded under one key the last stays. *)
Lemma load_map_last e e' m k :
  map_find (load_map e' addr (save_map e m)) k = last_report e e' k m.*2.
Proof.
  assert (Es : save_map e m = toRsTlvBanListEntry (now e) <$> m.*2) by (unfold save_map; by rewrite <- list_fmap_compose).
  unfold load_map, last_report. rewrite Es. generalize (m.*2). clear. intros l. induction l as [|p l IH] using rev_ind; [done|].
  rewrite fmap_app, foldl_app, filter_app. cbn [fmap list_fmap foldl]. rewrite from_to. change (addr (reloaded e e' p)) with (addr p).
  rewrite filter_cons, filter_nil. destruct (sockaddr_storage_isValidNet (addr p)) eqn:Ev.
  - destruct (decide (key_eqv (addr p) k)) as [Ek|Ek].
    + rewrite map_find_set_eq by done. rewrite decide_True by done. rewrite last_snoc. cbn. by rewrite Ev.
    + rewrite map_find_set_ne by done. rewrite decide_False by tauto. by rewrite app_nil_r.
  - rewrite decide_False by (by intros [_ ?]). by rewrite app_nil_r.
Qed.

(** One setting; keys are compared as they stand. *)
#[local] Opaque text.

Lemma truth_read b : bool_decide (truth b = text "TRUE") = b.
Proof. destruct b; vm_compute; reflexivity. Qed.

Ltac load_key :=
  unfold load_pair; cbn [key value]; rewrite ?truth_read;
  repeat match goal with |- context [bool_decide (text ?x = text ?y)] =>
    let r := eval vm_compute in (bool_decide (text x = text y)) in
    let E := fresh in assert (E : bool_decide (text x = text y) = r) by (vm_compute; reflexivity); rewrite !E; clear E end;
  cbn match.

Lemma load_filtering t b : load_pair t (mk_RsTlvKeyValue (text "IP_FILTERING_ENABLED") (truth b)) = t <| mIPFilteringEnabled := b |>.
Proof. by load_key. Qed.
Lemma load_autorange t b : load_pair t (mk_RsTlvKeyValue (text "IP_FILTERING_AUTORANGE_IPS") (truth b)) = t <| mAutoRangeIps := b |>.
Proof. by load_key. Qed.
Lemma load_friends t b :
  load_pair t (mk_RsTlvKeyValue (text "IP_FILTERING_FRIEND_GATHERING_ENABLED") (truth b)) = t <| mIPFriendGatheringEnabled := b |>.
Proof. by load_key. Qed.
Lemma load_dht t b : load_pair t (mk_RsTlvKeyValue (text "IP_FILTERING_DHT_GATHERING_ENABLED") (truth b)) = t <| mIPDHTGatheringEnabled := b |>.
Proof. by load_key. Qed.
Lemma load_limit t n : is_word 32 n ->
  load_pair t (mk_RsTlvKeyValue (text "IP_FILTERING_AUTORANGE_IPS_LIMIT") (NumberToString n)) = t <| mAutoRangeLimit := n |>.
Proof. intros Hn. load_key. rewrite scan_int_NumberToString by (unfold is_word in *; lia). by rewrite wrap_small. Qed.

Definition reloaded_source (e e' : ban_env) (src : BanSource) : BanSource :=
  mk_BanSource (mPeerId src) (mLastUpdate src) (load_map e' addr (save_map e (mBanPeers src))).

Lemma load_peerlists e e' (srcs : list (Z * BanSource)) : forall t,
  foldl (load_item e') t ((fun s : Z * BanSource =>
    BanListConfig (mk_BanListConfig RSBANLIST_TYPE_PEERLIST (mPeerId s.2) (mLastUpdate s.2) (save_map e (mBanPeers s.2)))) <$> srcs) =
  t <| mBanSources := foldl (fun m s => map_set m (mPeerId s) (reloaded_source e e' s))
                        (mBanSources t) srcs.*2 |>.
Proof. induction srcs as [|s srcs IH]; intros t; cbn [fmap list_fmap foldl]; [by destruct t|]. by rewrite IH. Qed.

(** The parts of a list that were saved, read back by a new one. *)
Lemma save_load_parts e e' t : is_word 32 (mAutoRangeLimit t) ->
  let t' := loadList e' new_p3BanList (saveList e t) in
  mBanSources t' = foldl (fun m s => map_set m (mPeerId s) (reloaded_source e e' s))
                     [] (mBanSources t).*2 /\
  mWhiteListedRanges t' = load_map e' range_key (save_map e (mWhiteListedRanges t)) /\
  mBanRanges t' = load_map e' range_key (save_map e (mBanRanges t)) /\
  mIPFilteringEnabled t' = mIPFilteringEnabled t /\ mAutoRangeIps t' = mAutoRangeIps t /\
  mIPFriendGatheringEnabled t' = mIPFriendGatheringEnabled t /\ mIPDHTGatheringEnabled t' = mIPDHTGatheringEnabled t /\
  mAutoRangeLimit t' = mAutoRangeLimit t /\ mBanSet t' = [].
Proof.
  intros Hl. cbv zeta. unfold loadList, saveList. rewrite foldl_app, load_peerlists. cbn [foldl load_item banListType banned_peers].
  change (RSBANLIST_TYPE_WHITELIST =? RSBANLIST_TYPE_PEERLIST) with false. change (RSBANLIST_TYPE_WHITELIST =? RSBANLIST_TYPE_BLACKLIST) with false.
  change (RSBANLIST_TYPE_BLACKLIST =? RSBANLIST_TYPE_PEERLIST) with false. cbn match.
  change (RSBANLIST_TYPE_WHITELIST =? RSBANLIST_TYPE_WHITELIST) with true. change (RSBANLIST_TYPE_BLACKLIST =? RSBANLIST_TYPE_BLACKLIST) with true.
  cbn match.
  rewrite load_filtering, load_autorange, load_friends, load_dht, load_limit by done. repeat split.
Qed.

Lemma load_sources_find e e' m id : keyed mPeerId m ->
  map_find (foldl (fun m s => map_set m (mPeerId s) (reloaded_source e e' s)) [] m.*2) id = reloaded_source e e' <$> map_find m id.
Proof.
  intros Hm. set (turn := fun (m : list (Z * BanSource)) s => map_set m (mPeerId s) (reloaded_source e e' s)).
  assert (Hturn : forall m x k, map_find (turn m x) k =
    if decide (key_eqv (mPeerId x) k) then (fun s _ => Some (reloaded_source e e' s)) x (map_find m k) else map_find m k).
  { intros m' x k. unfold turn. destruct (decide _); [by rewrite map_find_set_eq|by rewrite map_find_set_ne]. }
  destruct (map_find m id) as [src|] eqn:E.
  - pose proof (keyed_find mPeerId m id src Hm E) as Hk. apply map_find_elem in E as (k' & _ & Hin); [|apply Hm].
    apply (foldl_one_key turn mPeerId _ Hturn _ [] id src); [by apply keyed_ascending| |by symmetry].
    by apply (list_elem_of_fmap_2 snd _ (k', src)).
  - rewrite (foldl_other_keys turn mPeerId _ Hturn); [done|]. intros src Hs Hk. apply list_elem_of_fmap in Hs as ([k' s'] & -> & Hin).
    destruct Hm as [Hs Hm]. apply (map_find_None m id E _ Hin). rewrite (Hm _ Hin). by symmetry.
Qed.

(** C35 What any list saves, a new one loads, at whatever time: the settings, every banned and allowed range with a valid address, and
    every source with the time of its last update.  An entry comes back with its address, mask, reason, level and comment, but
    active, with no attempts counted, and with the age it had when it was saved, modulo 2^32 ([reloaded]): the time in between
    does not count.  A source comes back with its reports under their full addresses, port included, whatever they were
    kept under: of those whose full addresses are the same the last stays, and those with an address that is not valid are lost;
    a source that was kept under the full addresses comes back entry for entry.  The condensed set does not come back. *)
Theorem ban_save_load (ops : list (ban_env * ban_op)) (e e' : ban_env) :
  let t := ban_run ops in
  let t' := loadList e' new_p3BanList (saveList e t) in
  (mIPFilteringEnabled t' = mIPFilteringEnabled t /\ mAutoRangeIps t' = mAutoRangeIps t /\
   mIPFriendGatheringEnabled t' = mIPFriendGatheringEnabled t /\ mIPDHTGatheringEnabled t' = mIPDHTGatheringEnabled t /\
   mAutoRangeLimit t' = mAutoRangeLimit t /\ mBanSet t' = []) /\
  (forall k, map_find (mBanRanges t') k = restored e e' (map_find (mBanRanges t) k)) /\
  (forall k, map_find (mWhiteListedRanges t') k = restored e e' (map_find (mWhiteListedRanges t) k)) /\
  (forall id, match map_find (mBanSources t) id with
     | None => map_find (mBanSources t') id = None
     | Some src => exists src', map_find (mBanSources t') id = Some src' /\ mPeerId src' = id /\ mLastUpdate src' = mLastUpdate src /\
         (forall k, map_find (mBanPeers src') k = last_report e e' k (mBanPeers src).*2) /\
         (keyed addr (mBanPeers src) -> forall k, map_find (mBanPeers src') k = restored e e' (map_find (mBanPeers src) k))
     end).
Proof.
  pose proof (ban_states ops) as Hok. set (t := ban_run ops) in *. clearbody t. cbv zeta.
  destruct (save_load_parts e e' t (ok_limit t Hok)) as (Es & Ew & Er & Hset). rewrite Es, Ew, Er. split; [exact Hset|].
  split; [intros k; apply load_map_save; [done|auto with ban]|].
  split; [intros k; apply load_map_save; [done|auto with ban]|]. intros id.
  rewrite (load_sources_find e e' (mBanSources t) id (ok_sources t Hok)). destruct (map_find (mBanSources t) id) as [src|] eqn:E; cbn; [|done].
  eexists. split; [done|]. split; [symmetry; apply Z_key_eqv; apply (keyed_find mPeerId _ _ _ (ok_sources t Hok) E)|]. split; [done|].
  split; [intros k; apply load_map_last|]. intros Hk k. by apply load_map_save.
Qed.

(** ** Examples *)

Definition demo_ops : list (ban_env * ban_op) :=
  [(demo_env, Add (address (8, 8, 4, 0)) 1 RSBANLIST_TYPE_BLACKLIST []);
   (demo_env, Asked (address (8, 8, 4, 4)) RSBANLIST_CHECKING_FLAGS_BLACKLIST);
   (demo_env, Report (address (9, 9, 9, 1)) 999000)].

Lemma ban_save_load_witness :
  let t := ban_run demo_ops in
  let t' := loadList demo_env new_p3BanList (saveList demo_env t) in
  connect_attempts <$> map_find (mBanRanges t) (key_of 1 (8, 8, 4, 0)) = Some 1 /\
  map_find (mBanRanges t') (key_of 1 (8, 8, 4, 0)) = restored demo_env demo_env (map_find (mBanRanges t) (key_of 1 (8, 8, 4, 0))).
Proof.
  split; [vm_compute; reflexivity|]. exact (proj1 (proj2 (ban_save_load demo_ops demo_env demo_env)) (key_of 1 (8, 8, 4, 0))).
Defined.

(** Reports with a port: the DHT reports the address again after a reload, and the next reload brings the older report back. *)
Definition with_port : sockaddr_storage := sockaddr_storage_setipv4 (dotted_word 9 9 9 1) (htons 7812).

Example reload_keeps_older_report :
  let t := updatePeer demo_env new_p3BanList with_port 999000 in
  let t := loadList demo_env new_p3BanList (saveList demo_env t) in
  let t := updatePeer demo_env t with_port 999900 in
  let t' := loadList demo_env new_p3BanList (saveList demo_env t) in
  ((fun src => mTs <$> (mBanPeers src.2).*2) <$> mBanSources t) = [[999900; 999000]] /\
  ((fun src => mTs <$> (mBanPeers src.2).*2) <$> mBanSources t') = [[999000]].
Proof. vm_compute. by split. Qed.
