(* ===== verification/TlvAddrs.v ===== *)
(** * TLV items with fields, and lists of them: src/serialiser/rstlvaddrs.cc, rstlvlist.h, rstlvbanlist.cc

    An item is a header and fields behind it.  Writers and readers of the fields run one after the other, and go on when one
    failed; the item then ends where its header says.  [t_RsTlvList] is a template: here it is defined and proved against the class
    [TlvClass], and used for address sets and lists of banned addresses.  A reader that fails leaves the object partly read;
    its callers drop it, so failure is [None]. *)

From S2P Require Import Prelude RawSerial Tlv TlvSets NetAddr BanList.
From Stdlib Require Import ZArith Lia.
From stdpp Require Import base list.
Open Scope Z_scope.

Definition TLV_TYPE_STR_COMMENT : Z := 0x0055.
Definition TLV_TYPE_IPV4 : Z := 0x0085.
Definition TLV_TYPE_IPV6 : Z := 0x0086.
Definition TLV_TYPE_ADDRESS_INFO : Z := 0x1070.
Definition TLV_TYPE_ADDRESS_SET : Z := 0x1071.
Definition TLV_TYPE_ADDRESS : Z := 0x1072.
Definition TLV_TYPE_BAN_ENTRY : Z := 0x1092.
Definition TLV_TYPE_BAN_LIST : Z := 0x1091.

(** ** Fields *)

Definition writer : Type := list Z -> Z -> Z -> access (bool * list Z * Z).
Definition reader (A : Type) : Type := list Z -> Z -> Z -> access (option A * Z).

(** [ok &= f; ok &= g] *)
Definition then_write (f g : writer) : writer := fun data size off =>
  '(ok1, data, off) ← f data size off;
  '(ok2, data, off) ← g data size off;
  Done (ok1 && ok2, data, off).

Definition then_read {A B} (f : reader A) (g : reader B) : reader (A * B) := fun data size off =>
  '(a, off) ← f data size off;
  '(b, off) ← g data size off;
  Done (x ← a; y ← b; Some (x, y), off).

(** ** Items *)

Definition item_set (type tlvsize : Z) (fields : writer) : writer := fun data size off =>
  let tlvend := u32 (off + tlvsize) in
  if size <? tlvend then Done (false, data, off)
  else
    '(ok1, data, off) ← SetTlvBase data tlvend off type tlvsize;
    '(ok2, data, off) ← fields data tlvend off;
    Done (ok1 && ok2, data, off).

(** Whatever the fields left, the offset is set to the end of the item. *)
Definition item_get {A} (type : Z) (fields : reader A) : reader A := fun data size off =>
  r ← ref_open data size off type;
  match r with
  | None => Done (None, off)
  | Some tlvend => '(v, _) ← fields data tlvend (u32 (off + TLV_HEADER_SIZE)); Done (v, tlvend)
  end.

(** ** RsTlvIpAddress *)

Definition IpAddress_TlvSize (a : sockaddr_storage) : Z :=
  if ss_family a =? AF_INET then TLV_HEADER_SIZE + GetTlvIpAddrPortV4Size
  else if ss_family a =? AF_INET6 then TLV_HEADER_SIZE + GetTlvIpAddrPortV6Size
  else TLV_HEADER_SIZE.

(** The casts. *)
Definition to_sockaddr_in (a : sockaddr_storage) : sockaddr_in := mk_sockaddr_in (ss_addr4 a) (ss_port a).
Definition to_sockaddr_in6 (a : sockaddr_storage) : sockaddr_in6 :=
  mk_sockaddr_in6 (word32 a 0) (word32 a 1) (word32 a 2) (word32 a 3) (ss_port a).

Definition halves (w : Z) : list Z := [w mod 2 ^ 16; w / 2 ^ 16].

Definition of_sockaddr_in (x : sockaddr_in) : sockaddr_storage := sockaddr_storage_setipv4 (s_addr x) (sin_port x).
Definition of_sockaddr_in6 (x : sockaddr_in6) : sockaddr_storage :=
  sockaddr_storage_setipv6 (halves (s6_word0 x) ++ halves (s6_word1 x) ++ halves (s6_word2 x) ++ halves (s6_word3 x)) (sin6_port x).

Definition IpAddress_SetTlv (a : sockaddr_storage) : writer :=
  item_set TLV_TYPE_ADDRESS (IpAddress_TlvSize a) (fun data size off =>
    if ss_family a =? AF_INET then SetTlvIpAddrPortV4 data size off TLV_TYPE_IPV4 (to_sockaddr_in a)
    else if ss_family a =? AF_INET6 then SetTlvIpAddrPortV6 data size off TLV_TYPE_IPV6 (to_sockaddr_in6 a)
    else Done (true, data, off)).

(** The type of the address is read wherever the header of the item ends. *)
Definition IpAddress_fields (data : list Z) (tlvend off : Z) : access (option sockaddr_storage * Z) :=
  if off =? tlvend then Done (Some sockaddr_storage_clear, off)
  else
    iptype ← GetTlvType data off;
    if iptype =? TLV_TYPE_IPV4 then
      '(r, off) ← GetTlvIpAddrPortV4 data tlvend off TLV_TYPE_IPV4; Done (x ← r; Some (of_sockaddr_in x), off)
    else if iptype =? TLV_TYPE_IPV6 then
      '(r, off) ← GetTlvIpAddrPortV6 data tlvend off TLV_TYPE_IPV6; Done (x ← r; Some (of_sockaddr_in6 x), off)
    else Done (Some sockaddr_storage_clear, off).

Definition IpAddress_GetTlv : reader sockaddr_storage := item_get TLV_TYPE_ADDRESS IpAddress_fields.

(** ** RsTlvIpAddressInfo *)

Record RsTlvIpAddressInfo := mk_IpAddressInfo { info_addr : sockaddr_storage; seenTime : Z; source : Z }.

Definition IpAddressInfo_TlvSize (x : RsTlvIpAddressInfo) : Z := u32 (TLV_HEADER_SIZE + IpAddress_TlvSize (info_addr x) + 8 + 4).

Definition IpAddressInfo_SetTlv (x : RsTlvIpAddressInfo) : writer :=
  item_set TLV_TYPE_ADDRESS_INFO (IpAddressInfo_TlvSize x)
    (then_write (then_write (IpAddress_SetTlv (info_addr x)) (fun data size off => setRawUInt64 data size off (seenTime x)))
       (fun data size off => setRawUInt32 data size off (source x))).

Definition IpAddressInfo_GetTlv : reader RsTlvIpAddressInfo := fun data size off =>
  '(r, off) ← item_get TLV_TYPE_ADDRESS_INFO (then_read (then_read IpAddress_GetTlv getRawUInt64) getRawUInt32) data size off;
  Done (x ← r; Some (mk_IpAddressInfo x.1.1 x.1.2 x.2), off).

(** ** RsTlvBanListEntry *)

Definition BanListEntry_TlvSize (x : RsTlvBanListEntry) : Z :=
  u32 (TLV_HEADER_SIZE + IpAddress_TlvSize (e_addr x) + 4 + 4 + 4 + 1 + GetTlvStringSize (e_comment x)).

Definition BanListEntry_SetTlv (x : RsTlvBanListEntry) : writer :=
  item_set TLV_TYPE_BAN_ENTRY (BanListEntry_TlvSize x)
    (then_write (then_write (then_write (then_write (then_write (IpAddress_SetTlv (e_addr x))
       (fun data size off => setRawUInt32 data size off (e_level x))) (fun data size off => setRawUInt32 data size off (e_reason x)))
       (fun data size off => setRawUInt32 data size off (e_age x))) (fun data size off => setRawUInt8 data size off (e_masked_bytes x)))
       (fun data size off => SetTlvString data size off TLV_TYPE_STR_COMMENT (e_comment x))).

Definition BanListEntry_GetTlv : reader RsTlvBanListEntry := fun data size off =>
  '(r, off) ← item_get TLV_TYPE_BAN_ENTRY
    (then_read (then_read (then_read (then_read (then_read IpAddress_GetTlv getRawUInt32) getRawUInt32) getRawUInt32) getRawUInt8)
       (fun data size off => GetTlvString data size off TLV_TYPE_STR_COMMENT)) data size off;
  Done (x ← r; let '(a, l, s, g, m, c) := x in Some (mk_BanListEntry a l s g m c), off).

(** ** t_RsTlvList *)

(** What the template asks of a class, with what the class promises: the size is that of the encoding, writing and reading are
    inverse, and a read that succeeds moves on. *)
Definition reads {A} (g : reader A) (enc : list Z) (v : A) : Prop :=
  forall data size off, buffer_ok data size -> 0 <= off -> size + 12 < 2 ^ 32 -> off + Z.of_nat (length enc) <= size ->
    slice (Z.to_nat off) (length enc) data = enc -> g data size off = Done (Some v, off + Z.of_nat (length enc)).

Class TlvClass (T : Type) := {
  tlv_size : T -> Z;
  tlv_set : T -> writer;
  tlv_get : reader T;
  tlv_ok : T -> Prop;
  tlv_enc : T -> list Z;
  tlv_size_enc x : tlv_ok x -> tlv_size x = Z.of_nat (length (tlv_enc x));
  tlv_set_enc x : tlv_ok x -> writes (tlv_set x) (tlv_enc x);
  tlv_get_enc x : tlv_ok x -> reads tlv_get (tlv_enc x) x;
  tlv_enc_long x : tlv_ok x -> (6 < length (tlv_enc x))%nat;
  tlv_get_moves data size off v off' : 0 <= off <= size -> size + 12 < 2 ^ 32 -> tlv_get data size off = Done (Some v, off') -> off < off' <= size
}.

Section TlvList.
Context {T : Type} `{TlvClass T} (TLV_TYPE : Z).

Definition TlvList_TlvSize (mList : list T) : Z := foldl (fun size x => u32 (size + tlv_size x)) TLV_HEADER_SIZE mList.

Fixpoint set_list (mList : list T) : writer := fun data size off =>
  match mList with
  | [] => Done (true, data, off)
  | x :: mList =>
      '(ok1, data, off) ← tlv_set x data size off;
      '(ok2, data, off) ← set_list mList data size off;
      Done (ok1 && ok2, data, off)
  end.

Definition TlvList_SetTlv (mList : list T) : writer := item_set TLV_TYPE (TlvList_TlvSize mList) (set_list mList).

(** The loop over the items; [None] when the fuel ran out. *)
Fixpoint get_list (fuel : nat) (data : list Z) (tlvend off : Z) (mList : list T) : access (option (list T * Z)) :=
  match fuel with
  | O => Done None
  | S fuel =>
      if u32 (off + 6) <? tlvend then
        '(item, off) ← tlv_get data tlvend off;
        match item with
        | Some x => get_list fuel data tlvend off (mList ++ [x])
        | None => Done (Some (mList, off))
        end
      else Done (Some (mList, off))
  end.

(** The answer, the list and the offset.  The answer is whether the items end where the list does. *)
Definition TlvList_GetTlv (fuel : nat) (mList : list T) (data : list Z) (size off : Z) : access (option (bool * list T * Z)) :=
  r ← ref_open data size off TLV_TYPE;
  match r with
  | None => Done (Some (false, mList, off))
  | Some tlvend =>
      r ← get_list fuel data tlvend (u32 (off + TLV_HEADER_SIZE)) [];
      Done ('(l, off) ← r; Some (off =? tlvend, l, off))
  end.

End TlvList.

(** ** Writing and reading *)

Lemma writes_then f g e1 e2 : writes f e1 -> writes g e2 -> writes (then_write f g) (e1 ++ e2).
Proof.
  intros Hf Hg data size off Hb Ho Hl. rewrite length_app, Nat2Z.inj_add in Hl. unfold then_write.
  rewrite Hf by (done || lia). cbn [mbind access_bind]. rewrite (writes_next _ _ _ _ _ _ Hg) by (done || lia). done.
Qed.

Lemma writes_uint (n : nat) v : (n <= 8)%nat -> writes (fun data size off => setRawUInt (Z.of_nat n) data size off v) (be_bytes n v).
Proof.
  intros Hn data size off Hb Ho Hl. rewrite length_be_bytes in *. by apply setRawUInt_fits.
Qed.

Lemma writes_string type s : is_word 16 type -> string_ok type s -> writes (fun data size off => SetTlvString data size off type s) (string_enc type s).
Proof. intros Ht Hs data size off Hb Ho Hl. exact (@rc_set_fits _ (codec_tlv_string type Ht) data size off s Hs Hb Ho Hl). Qed.

Lemma writes_item type tlvsize f body : tlvsize = 6 + Z.of_nat (length body) -> writes f body -> writes (item_set type tlvsize f) (item_enc type body).
Proof.
  intros -> Hf data size off Hb Ho Hl. pose proof Hb as [Hs Hd]. rewrite length_item_enc in *. unfold item_set.
  rewrite wrap_small by (unfold is_word; lia). destruct (Z.ltb_spec size (off + (6 + Z.of_nat (length body)))); [lia|].
  assert (Hb' : buffer_ok data (off + (6 + Z.of_nat (length body)))) by (eapply buffer_ok_shrink; [exact Hb|lia]).
  rewrite SetTlvBase_fits by (done || lia). cbn [mbind access_bind].
  assert (E6 : off + 6 = off + Z.of_nat (length (tlv_header type (6 + Z.of_nat (length body))))) by (rewrite length_tlv_header; lia).
  rewrite E6, (writes_next _ _ _ _ _ _ Hf) by first [lia | done | rewrite length_tlv_header; lia]. cbn [mbind access_bind].
  fold (item_enc type body). by rewrite length_item_enc.
Qed.

(** A reader of fields that ends with its buffer. *)
Definition reads_all {A} (g : reader A) (body : list Z) (v : A) : Prop :=
  forall data off, buffer_ok data (off + Z.of_nat (length body)) -> 0 <= off -> off + Z.of_nat (length body) + 12 < 2 ^ 32 ->
    slice (Z.to_nat off) (length body) data = body -> exists off', g data (off + Z.of_nat (length body)) off = Done (Some v, off').

Lemma reads_reads_all {A} (g : reader A) body v : reads g body v -> reads_all g body v.
Proof. intros Hg data off Hb Ho Hl Hsl. eexists. apply Hg; (done || lia). Qed.

Lemma reads_then {A B} (f : reader A) (g : reader B) e1 e2 a b : reads f e1 a -> reads g e2 b -> reads (then_read f g) (e1 ++ e2) (a, b).
Proof.
  intros Hf Hg data size off Hb Ho Hn Hl Hsl. apply slice_app_inv in Hsl as [H1 H2]. rewrite length_app, Nat2Z.inj_add in *. unfold then_read.
  rewrite Hf by (done || lia). cbn [mbind access_bind]. rewrite Hg; [|done|lia|lia|lia|].
  - cbn. do 2 f_equal. lia.
  - by replace (Z.to_nat (off + Z.of_nat (length e1))) with (Z.to_nat off + length e1)%nat by lia.
Qed.

Lemma reads_uint (n : nat) v : (n <= 8)%nat -> is_word (8 * Z.of_nat n) v -> reads (fun data size off => getRawUInt (Z.of_nat n) data size off) (be_bytes n v) v.
Proof. intros Hn Hv data size off Hb Ho Hm Hl Hsl. rewrite length_be_bytes in *. by apply getRawUInt_enc. Qed.

Lemma reads_string type s : is_word 16 type -> string_ok type s -> reads (fun data size off => GetTlvString data size off type) (string_enc type s) s.
Proof. intros Ht Hs data size off Hb Ho Hm Hl Hsl. by apply read_string. Qed.

Lemma ref_open_enc data size off type body : is_word 16 type -> buffer_ok data size -> 0 <= off -> size + 12 < 2 ^ 32 ->
  off + Z.of_nat (length (item_enc type body)) <= size ->
  slice (Z.to_nat off) (length (item_enc type body)) data = item_enc type body ->
  ref_open data size off type = Done (Some (off + Z.of_nat (length (item_enc type body)))).
Proof.
  intros Ht Hb Ho Hn Hf Hsl. pose proof Hb as [Hs Hd]. rewrite length_item_enc in *. apply slice_header in Hsl as [Hh _].
  destruct (header_fields data off type (6 + Z.of_nat (length body)) Ht) as [H1 H2]; [unfold is_word; lia|done|lia|done|].
  unfold ref_open. change TLV_HEADER_SIZE with 6. rewrite !wrap_small by (unfold is_word; lia). destruct (Z.ltb_spec size (off + 6)); [lia|].
  rewrite H1, H2. cbn [mbind access_bind]. rewrite wrap_small by (unfold is_word; lia).
  destruct (Z.ltb_spec size (off + (6 + Z.of_nat (length body)))); [lia|]. rewrite Z.eqb_refl. cbn [negb]. do 2 f_equal. lia.
Qed.

Lemma reads_item {A} type (f : reader A) body v : is_word 16 type -> reads_all f body v -> reads (item_get type f) (item_enc type body) v.
Proof.
  intros Ht Hf data size off Hb Ho Hn Hl Hsl. unfold item_get. rewrite (ref_open_enc _ _ _ type body) by done. cbn [mbind access_bind].
  pose proof Hsl as Hsl'. apply slice_header in Hsl' as [_ Hbody]. rewrite length_item_enc in *. change TLV_HEADER_SIZE with 6.
  rewrite wrap_small by (unfold is_word; lia).
  replace (off + Z.of_nat (6 + length body)) with (off + 6 + Z.of_nat (length body)) by lia.
  destruct (Hf data (off + 6)) as [off' E].
  - eapply buffer_ok_shrink; [exact Hb|lia].
  - lia.
  - lia.
  - by replace (Z.to_nat (off + 6)) with (Z.to_nat off + 6)%nat by lia.
  - rewrite E. done.
Qed.

(** ** Addresses *)

(** The addresses an item holds: without the fields that are not written. *)
Definition addr_ok (a : sockaddr_storage) : Prop :=
  (exists w p, is_word 32 w /\ is_word 16 p /\ a = sockaddr_storage_setipv4 w p) \/
  (exists l p, length l = 8%nat /\ Forall (is_word 16) l /\ is_word 16 p /\ a = sockaddr_storage_setipv6 l p) \/
  a = sockaddr_storage_clear.

Definition address_body (a : sockaddr_storage) : list Z :=
  if ss_family a =? AF_INET then ip4_enc TLV_TYPE_IPV4 (to_sockaddr_in a)
  else if ss_family a =? AF_INET6 then ip6_enc TLV_TYPE_IPV6 (to_sockaddr_in6 a)
  else [].

Definition address_enc (a : sockaddr_storage) : list Z := item_enc TLV_TYPE_ADDRESS (address_body a).

Lemma ipv4_word : is_word 16 TLV_TYPE_IPV4. Proof. by vm_compute. Qed.
Lemma ipv6_word : is_word 16 TLV_TYPE_IPV6. Proof. by vm_compute. Qed.
Lemma address_word : is_word 16 TLV_TYPE_ADDRESS. Proof. by vm_compute. Qed.
Lemma comment_word : is_word 16 TLV_TYPE_STR_COMMENT. Proof. by vm_compute. Qed.

Lemma length_ip4_enc t a : length (ip4_enc t a) = 12%nat.
Proof. unfold ip4_enc. by rewrite !length_app, length_tlv_header, !length_be_bytes. Qed.

Lemma length_ip6_enc t a : length (ip6_enc t a) = 24%nat.
Proof. unfold ip6_enc. by rewrite !length_app, length_tlv_header, !length_be_bytes. Qed.

Lemma length_address_enc a : Z.of_nat (length (address_enc a)) = IpAddress_TlvSize a.
Proof.
  unfold address_enc, address_body, IpAddress_TlvSize. rewrite length_item_enc. destruct (ss_family a =? AF_INET); [by rewrite length_ip4_enc|].
  destruct (ss_family a =? AF_INET6); [by rewrite length_ip6_enc|done].
Qed.

Lemma IpAddress_TlvSize_bound a : 6 <= IpAddress_TlvSize a <= 30.
Proof. unfold IpAddress_TlvSize. destruct (_ =? AF_INET); [by vm_compute|]. destruct (_ =? AF_INET6); by vm_compute. Qed.

Lemma halves_pair x y : is_word 16 x -> halves (x + 2 ^ 16 * y) = [x; y].
Proof.
  unfold is_word, halves. intros Hx. rewrite Z.mul_comm, Z.mod_add, Z.mod_small by lia. rewrite Z.div_add, Z.div_small by lia. done.
Qed.

Lemma of_to_sockaddr_in6 l p : length l = 8%nat -> Forall (is_word 16) l -> of_sockaddr_in6 (to_sockaddr_in6 (sockaddr_storage_setipv6 l p)) = sockaddr_storage_setipv6 l p.
Proof.
  intros Hl Hw. do 8 (destruct l as [|? l]; [done|]). destruct l; [|done]. do 8 (apply Forall_cons in Hw as [? Hw]).
  unfold of_sockaddr_in6, to_sockaddr_in6, word32, word16. cbn -[Z.pow Z.mul halves]. by rewrite !halves_pair.
Qed.

Lemma word32_ok l i : Forall (is_word 16) (s6_addr16 l) -> is_word 32 (word32 l i).
Proof.
  intros Hw. unfold word32. assert (Hn : forall j, 0 <= word16 l j < 2 ^ 16).
  { intros j. unfold word16. destruct (nth_in_or_default j (s6_addr16 l) 0) as [Hin| ->]; [|lia].
    rewrite Forall_forall in Hw. by apply Hw, list_elem_of_In. }
  pose proof (Hn (2 * i)%nat). pose proof (Hn (2 * i + 1)%nat). unfold is_word. lia.
Qed.

Lemma IpAddress_SetTlv_writes a : addr_ok a -> writes (IpAddress_SetTlv a) (address_enc a).
Proof.
  intros Ha. unfold IpAddress_SetTlv, address_enc. apply writes_item.
  { rewrite <- length_address_enc. unfold address_enc. rewrite length_item_enc. lia. }
  intros data size off Hb Ho Hl. unfold address_body in *.
  destruct Ha as [(w & p & Hw & Hp & ->)|[(l & p & Hn & Hl' & Hp & ->)| ->]].
  - exact (@rc_set_fits _ (codec_tlv_ip4 TLV_TYPE_IPV4 ipv4_word) data size off (to_sockaddr_in (sockaddr_storage_setipv4 w p)) (conj Hw Hp) Hb Ho Hl).
  - assert (Hd : @rc_dom _ (codec_tlv_ip6 TLV_TYPE_IPV6 ipv6_word) (to_sockaddr_in6 (sockaddr_storage_setipv6 l p))).
    { cbn. repeat split; try apply word32_ok; try done; apply Hp. }
    exact (@rc_set_fits _ (codec_tlv_ip6 TLV_TYPE_IPV6 ipv6_word) data size off _ Hd Hb Ho Hl).
  - cbn. unfold splice. cbn. by rewrite Nat.add_0_r, take_drop, Z.add_0_r.
Qed.

Lemma ip4_item t x : ip4_enc t x = item_enc t (be_bytes 4 (s_addr x) ++ be_bytes 2 (sin_port x)).
Proof. unfold ip4_enc, item_enc. rewrite length_app, !length_be_bytes, <- app_assoc. done. Qed.

Lemma ip6_item t x : ip6_enc t x = item_enc t (be_bytes 4 (s6_word0 x) ++ be_bytes 4 (s6_word1 x) ++ be_bytes 4 (s6_word2 x) ++
  be_bytes 4 (s6_word3 x) ++ be_bytes 2 (sin6_port x)).
Proof. unfold ip6_enc, item_enc. rewrite !length_app, !length_be_bytes, <- !app_assoc. done. Qed.

Lemma type_at data size off t body enc : enc = item_enc t body -> is_word 16 t -> buffer_ok data size -> 0 <= off -> off + Z.of_nat (length enc) <= size ->
  slice (Z.to_nat off) (length enc) data = enc -> GetTlvType data off = Done t.
Proof. intros -> Ht Hb Ho Hl Hsl. by apply (item_open data size off t body). Qed.

Lemma IpAddress_fields_reads a : addr_ok a -> reads_all IpAddress_fields (address_body a) a.
Proof.
  intros Ha data off Hb Ho Hn Hsl. unfold IpAddress_fields.
  destruct Ha as [(w & p & Hw & Hp & ->)|[(l & p & Hl & Hl' & Hp & ->)| ->]].
  - set (x := to_sockaddr_in (sockaddr_storage_setipv4 w p)).
    change (address_body (sockaddr_storage_setipv4 w p)) with (ip4_enc TLV_TYPE_IPV4 x) in *.
    rewrite (type_at _ _ _ _ _ _ (ip4_item _ x) ipv4_word Hb) by (done || lia). rewrite length_ip4_enc in *.
    destruct (Z.eqb_spec off (off + Z.of_nat 12)); [lia|]. cbn [mbind access_bind]. change (TLV_TYPE_IPV4 =? TLV_TYPE_IPV4) with true. cbn match.
    pose proof (@rc_get_enc _ (codec_tlv_ip4 TLV_TYPE_IPV4 ipv4_word) data (off + Z.of_nat 12) off x (conj Hw Hp) Hb Ho) as G.
    cbn [rc_enc rc_get codec_tlv_ip4] in G. rewrite length_ip4_enc in G. rewrite G by (done || lia). eexists. done.
  - set (x := to_sockaddr_in6 (sockaddr_storage_setipv6 l p)).
    change (address_body (sockaddr_storage_setipv6 l p)) with (ip6_enc TLV_TYPE_IPV6 x) in *.
    rewrite (type_at _ _ _ _ _ _ (ip6_item _ x) ipv6_word Hb) by (done || lia). rewrite length_ip6_enc in *.
    destruct (Z.eqb_spec off (off + Z.of_nat 24)); [lia|]. cbn [mbind access_bind].
    change (TLV_TYPE_IPV6 =? TLV_TYPE_IPV4) with false. change (TLV_TYPE_IPV6 =? TLV_TYPE_IPV6) with true. cbn match.
    assert (Hd : @rc_dom _ (codec_tlv_ip6 TLV_TYPE_IPV6 ipv6_word) x).
    { cbn. repeat split; try apply word32_ok; try done; apply Hp. }
    pose proof (@rc_get_enc _ (codec_tlv_ip6 TLV_TYPE_IPV6 ipv6_word) data (off + Z.of_nat 24) off x Hd Hb Ho) as G.
    cbn [rc_enc rc_get codec_tlv_ip6] in G. rewrite length_ip6_enc in G. rewrite G by (done || lia). cbn [mbind access_bind option_bind].
    unfold x. rewrite of_to_sockaddr_in6 by done. eexists. done.
  - change (address_body sockaddr_storage_clear) with (@nil Z) in *. cbn [length]. destruct (Z.eqb_spec off (off + Z.of_nat 0)); [|lia].
    eexists. done.
Qed.

Lemma IpAddress_GetTlv_reads a : addr_ok a -> reads IpAddress_GetTlv (address_enc a) a.
Proof. intros Ha. apply reads_item; [apply address_word|by apply IpAddress_fields_reads]. Qed.

(** What a successful read says. *)
Lemma item_get_inv {A} type (f : reader A) data size off v off' : item_get type f data size off = Done (Some v, off') ->
  u32 (off + 6) <= size /\ off' <= size /\ exists o, f data off' (u32 (off + 6)) = Done (Some v, o).
Proof.
  unfold item_get, ref_open. change TLV_HEADER_SIZE with 6. destruct (Z.ltb_spec size (u32 (off + 6))); [done|].
  destruct (GetTlvType data off) as [ty|]; [|done]. cbn [mbind access_bind]. destruct (GetTlvSize data off) as [sz|]; [|done]. cbn [mbind access_bind].
  destruct (Z.ltb_spec size (u32 (off + sz))); [done|]. destruct (negb _); [done|]. cbn [mbind access_bind].
  destruct (f data (u32 (off + sz)) (u32 (off + 6))) as [[v' o]|] eqn:E; [|done]. cbn. intros [= -> <-]. split; [lia|]. split; [lia|]. by exists o.
Qed.

Lemma then_read_inv {A B} (f : reader A) (g : reader B) data size off a b off' :
  then_read f g data size off = Done (Some (a, b), off') -> exists o, f data size off = Done (Some a, o) /\ g data size o = Done (Some b, off').
Proof.
  unfold then_read. destruct (f data size off) as [[a' o]|]; [|done]. cbn [mbind access_bind].
  destruct (g data size o) as [[b' o']|] eqn:E; [|done]. cbn [mbind access_bind]. intros [= Hab ->]. exists o.
  destruct a' as [a'|], b' as [b'|]; cbn in Hab; try discriminate Hab. by injection Hab as -> ->.
Qed.

(** An item that starts with an address moves on. *)
Definition starts_with_address {A} (f : reader A) : Prop :=
  forall data size off v o, f data size off = Done (Some v, o) -> exists a o', IpAddress_GetTlv data size off = Done (Some a, o').

Lemma address_starts : starts_with_address IpAddress_GetTlv.
Proof. intros data size off v o E. by exists v, o. Qed.

Lemma then_starts {A B} (f : reader A) (g : reader B) : starts_with_address f -> starts_with_address (then_read f g).
Proof. intros Hf data size off [a b] o E. apply then_read_inv in E as (o1 & E & _). by eapply Hf. Qed.

Lemma address_first {A} type (f : reader A) data size off v off' : starts_with_address f -> 0 <= off <= size -> size + 12 < 2 ^ 32 ->
  item_get type f data size off = Done (Some v, off') -> off < off' <= size.
Proof.
  intros Hf Ho Hn Hg. apply item_get_inv in Hg as (H1 & H2 & o & Hv). apply Hf in Hv as (a & o' & Ha).
  apply item_get_inv in Ha as (H3 & _ & _). rewrite (wrap_small 32 (off + 6)) in * by (unfold is_word; lia).
  rewrite wrap_small in H3 by (unfold is_word; lia). lia.
Qed.

#[local] Hint Resolve address_starts then_starts : core.

(** ** The classes of the lists *)

Definition info_ok (x : RsTlvIpAddressInfo) : Prop := addr_ok (info_addr x) /\ is_word 64 (seenTime x) /\ is_word 32 (source x).

Definition info_body (x : RsTlvIpAddressInfo) : list Z := (address_enc (info_addr x) ++ be_bytes 8 (seenTime x)) ++ be_bytes 4 (source x).

Definition info_enc (x : RsTlvIpAddressInfo) : list Z := item_enc TLV_TYPE_ADDRESS_INFO (info_body x).

Lemma info_word : is_word 16 TLV_TYPE_ADDRESS_INFO. Proof. by vm_compute. Qed.

Lemma info_size x : IpAddressInfo_TlvSize x = 6 + Z.of_nat (length (info_body x)).
Proof.
  unfold info_body, IpAddressInfo_TlvSize. rewrite !length_app, !length_be_bytes. pose proof (length_address_enc (info_addr x)).
  pose proof (IpAddress_TlvSize_bound (info_addr x)). change TLV_HEADER_SIZE with 6. rewrite wrap_small by (unfold is_word; lia). lia.
Qed.

Lemma IpAddressInfo_SetTlv_writes x : info_ok x -> writes (IpAddressInfo_SetTlv x) (info_enc x).
Proof.
  intros (Ha & Ht & Hs). apply writes_item; [apply info_size|].
  apply writes_then; [apply writes_then|]; [by apply IpAddress_SetTlv_writes|apply (writes_uint 8); lia|apply (writes_uint 4); lia].
Qed.

Lemma IpAddressInfo_GetTlv_reads x : info_ok x -> reads IpAddressInfo_GetTlv (info_enc x) x.
Proof.
  intros (Ha & Ht & Hs) data size off Hb Ho Hn Hl Hsl. unfold IpAddressInfo_GetTlv.
  assert (Hr : reads_all (then_read (then_read IpAddress_GetTlv getRawUInt64) getRawUInt32) (info_body x) (info_addr x, seenTime x, source x)).
  { apply reads_reads_all, reads_then; [apply reads_then|].
    - by apply IpAddress_GetTlv_reads.
    - apply (reads_uint 8); [lia|done].
    - apply (reads_uint 4); [lia|done]. }
  rewrite (reads_item _ _ _ _ info_word Hr) by done. cbn. by destruct x.
Qed.

Lemma IpAddressInfo_GetTlv_moves data size off v off' : 0 <= off <= size -> size + 12 < 2 ^ 32 ->
  IpAddressInfo_GetTlv data size off = Done (Some v, off') -> off < off' <= size.
Proof.
  intros Ho Hn. unfold IpAddressInfo_GetTlv. destruct (item_get _ _ data size off) as [[[w|] o]|] eqn:E; cbn; try done.
  intros [= _ <-]. eapply address_first; [|exact Ho|exact Hn|exact E]. auto.
Qed.

Lemma item_enc_long type body : (0 < length body)%nat -> (6 < length (item_enc type body))%nat.
Proof. rewrite length_item_enc. lia. Qed.

#[refine, export] Instance IpAddressInfo_class : TlvClass RsTlvIpAddressInfo := {|
  tlv_size := IpAddressInfo_TlvSize; tlv_set := IpAddressInfo_SetTlv; tlv_get := IpAddressInfo_GetTlv; tlv_ok := info_ok; tlv_enc := info_enc;
  tlv_size_enc := _; tlv_enc_long := _; tlv_set_enc := IpAddressInfo_SetTlv_writes; tlv_get_enc := IpAddressInfo_GetTlv_reads; tlv_get_moves := IpAddressInfo_GetTlv_moves
|}.
Proof.
  - intros x _. unfold info_enc. rewrite length_item_enc, info_size. lia.
  - intros x _. apply item_enc_long. unfold info_body. rewrite !length_app, !length_be_bytes. lia.
Defined.

Definition entry_ok (x : RsTlvBanListEntry) : Prop :=
  addr_ok (e_addr x) /\ is_word 32 (e_level x) /\ is_word 32 (e_reason x) /\ is_word 32 (e_age x) /\ is_word 8 (e_masked_bytes x) /\
  string_ok TLV_TYPE_STR_COMMENT (e_comment x) /\ Z.of_nat (length (e_comment x)) + 60 < 2 ^ 32.

Definition entry_body (x : RsTlvBanListEntry) : list Z :=
  ((((address_enc (e_addr x) ++ be_bytes 4 (e_level x)) ++ be_bytes 4 (e_reason x)) ++ be_bytes 4 (e_age x)) ++ be_bytes 1 (e_masked_bytes x)) ++
  string_enc TLV_TYPE_STR_COMMENT (e_comment x).

Definition entry_enc (x : RsTlvBanListEntry) : list Z := item_enc TLV_TYPE_BAN_ENTRY (entry_body x).

Lemma entry_word : is_word 16 TLV_TYPE_BAN_ENTRY. Proof. by vm_compute. Qed.

Lemma entry_size x : entry_ok x -> BanListEntry_TlvSize x = 6 + Z.of_nat (length (entry_body x)).
Proof.
  intros (_ & _ & _ & _ & _ & _ & Hc). unfold entry_body, BanListEntry_TlvSize, GetTlvStringSize. rewrite !length_app, !length_be_bytes. unfold string_enc. rewrite length_app, length_tlv_header.
  pose proof (length_address_enc (e_addr x)). pose proof (IpAddress_TlvSize_bound (e_addr x)). change TLV_HEADER_SIZE with 6.
  rewrite (wrap_small 32 (6 + _)) by (unfold is_word; lia). rewrite wrap_small by (unfold is_word; lia). lia.
Qed.

Lemma BanListEntry_SetTlv_writes x : entry_ok x -> writes (BanListEntry_SetTlv x) (entry_enc x).
Proof.
  intros Hx. apply writes_item; [by apply entry_size|]. destruct Hx as (Ha & Hl & Hr & Hg & Hm & Hc & _).
  repeat apply writes_then; [by apply IpAddress_SetTlv_writes|apply (writes_uint 4); lia|apply (writes_uint 4); lia|apply (writes_uint 4); lia|
    apply (writes_uint 1); lia|by apply writes_string].
Qed.

Lemma BanListEntry_GetTlv_reads x : entry_ok x -> reads BanListEntry_GetTlv (entry_enc x) x.
Proof.
  intros (Ha & Hl & Hr & Hg & Hm & Hc & _) data size off Hb Ho Hn Hf Hsl. unfold BanListEntry_GetTlv.
  assert (Hrd : reads_all (then_read (then_read (then_read (then_read (then_read IpAddress_GetTlv getRawUInt32) getRawUInt32) getRawUInt32) getRawUInt8)
    (fun data size off => GetTlvString data size off TLV_TYPE_STR_COMMENT)) (entry_body x)
    (e_addr x, e_level x, e_reason x, e_age x, e_masked_bytes x, e_comment x)).
  { apply reads_reads_all. repeat apply reads_then;
      [by apply IpAddress_GetTlv_reads|apply (reads_uint 4); [lia|done]|apply (reads_uint 4); [lia|done]|apply (reads_uint 4); [lia|done]|
       apply (reads_uint 1); [lia|done]|by apply reads_string]. }
  rewrite (reads_item _ _ _ _ entry_word Hrd) by done. cbn. by destruct x.
Qed.

Lemma BanListEntry_GetTlv_moves data size off v off' : 0 <= off <= size -> size + 12 < 2 ^ 32 ->
  BanListEntry_GetTlv data size off = Done (Some v, off') -> off < off' <= size.
Proof.
  intros Ho Hn. unfold BanListEntry_GetTlv. destruct (item_get _ _ data size off) as [[[w|] o]|] eqn:E; cbn; try done.
  destruct w as [[[[[? ?] ?] ?] ?] ?]. intros [= _ <-]. eapply address_first; [|exact Ho|exact Hn|exact E]. auto 8.
Qed.

#[refine, export] Instance BanListEntry_class : TlvClass RsTlvBanListEntry := {|
  tlv_size := BanListEntry_TlvSize; tlv_set := BanListEntry_SetTlv; tlv_get := BanListEntry_GetTlv; tlv_ok := entry_ok; tlv_enc := entry_enc;
  tlv_size_enc := _; tlv_enc_long := _; tlv_set_enc := BanListEntry_SetTlv_writes; tlv_get_enc := BanListEntry_GetTlv_reads;
  tlv_get_moves := BanListEntry_GetTlv_moves
|}.
Proof.
  - intros x Hx. unfold entry_enc. rewrite length_item_enc, entry_size by done. lia.
  - intros x _. apply item_enc_long. unfold entry_body. rewrite !length_app, !length_be_bytes. lia.
Defined.

(** ** The lists *)

Section ListProps.
Context {T : Type} `{TlvClass T} (TLV_TYPE : Z).

Definition list_body (l : list T) : list Z := concat (map tlv_enc l).

Definition list_enc (l : list T) : list Z := item_enc TLV_TYPE (list_body l).

Definition list_ok (l : list T) : Prop := Forall tlv_ok l /\ Z.of_nat (length (list_enc l)) < 2 ^ 32.

Lemma list_size_from l n : Forall tlv_ok l -> 0 <= n -> n + Z.of_nat (length (list_body l)) < 2 ^ 32 ->
  foldl (fun size x => u32 (size + tlv_size x)) n l = n + Z.of_nat (length (list_body l)).
Proof.
  intros Hl. revert n. induction Hl as [|x l Hx Hl IH]; intros n Hn Hf; [cbn; lia|]. unfold list_body in *. cbn [foldl map concat] in *.
  rewrite length_app, Nat2Z.inj_add in *. rewrite tlv_size_enc by done. rewrite wrap_small by (unfold is_word; lia). rewrite IH by lia. lia.
Qed.

Lemma list_size l : list_ok l -> TlvList_TlvSize l = 6 + Z.of_nat (length (list_body l)).
Proof. intros [Hl Hn]. unfold list_enc in Hn. rewrite length_item_enc in Hn. by apply list_size_from; [|lia|lia]. Qed.

Lemma set_list_writes l : Forall tlv_ok l -> writes (set_list l) (list_body l).
Proof.
  induction 1 as [|x l Hx Hl IH]; [|exact (writes_then _ _ _ _ (tlv_set_enc x Hx) IH)].
  intros data size off Hb Ho Hf. cbn. unfold splice. cbn. by rewrite Nat.add_0_r, take_drop, Z.add_0_r.
Qed.

Lemma get_list_enc l : forall fuel data tlvend off acc, (length l < fuel)%nat -> Forall tlv_ok l -> buffer_ok data tlvend -> 0 <= off -> tlvend + 12 < 2 ^ 32 ->
  tlvend = off + Z.of_nat (length (list_body l)) -> slice (Z.to_nat off) (length (list_body l)) data = list_body l ->
  get_list fuel data tlvend off acc = Done (Some (acc ++ l, tlvend)).
Proof.
  induction l as [|x l IH]; intros [|fuel] data tlvend off acc Hfu Hl Hb Ho Hn -> Hsl; try (cbn in Hfu; lia); cbn [get_list].
  - unfold list_body. cbn [map concat length]. rewrite wrap_small by (unfold is_word, list_body in *; cbn in *; lia).
    destruct (Z.ltb_spec (off + 6) (off + Z.of_nat 0)); [lia|]. by rewrite app_nil_r, Z.add_0_r.
  - apply Forall_cons in Hl as [Hx Hl]. change (list_body (x :: l)) with (tlv_enc x ++ list_body l) in *.
    apply slice_app_inv in Hsl as [S1 S2]. rewrite length_app, Nat2Z.inj_add in *. pose proof (tlv_enc_long x Hx).
    rewrite wrap_small by (unfold is_word; lia). destruct (Z.ltb_spec (off + 6) (off + (Z.of_nat (length (tlv_enc x)) + Z.of_nat (length (list_body l))))); [|lia].
    rewrite (tlv_get_enc x Hx) by (done || lia). cbn [mbind access_bind]. rewrite IH; [|cbn in Hfu; lia|done|done|lia|lia|lia|].
    + by rewrite <- app_assoc.
    + by replace (Z.to_nat (off + Z.of_nat (length (tlv_enc x)))) with (Z.to_nat off + length (tlv_enc x))%nat by lia.
Qed.

(** The loop moves on, so that the size is fuel enough. *)
Lemma get_list_ends : forall fuel data tlvend off acc, (Z.to_nat tlvend < fuel + Z.to_nat off)%nat -> 0 <= off <= tlvend -> tlvend + 12 < 2 ^ 32 ->
  match get_list fuel data tlvend off acc with
  | Done None => False
  | Done (Some (l, _)) => Z.of_nat (length l) <= Z.of_nat (length acc) + (tlvend - off)
  | Oob => True
  end.
Proof.
  induction fuel as [|fuel IH]; intros data tlvend off acc Hf Ho Hn; [lia|]. cbn [get_list]. destruct (_ <? _); [|lia].
  destruct (tlv_get data tlvend off) as [[[x|] o]|] eqn:E; cbn [mbind access_bind]; [|lia|done].
  apply tlv_get_moves in E; [|done|done]. specialize (IH data tlvend o (acc ++ [x])).
  destruct (get_list fuel data tlvend o (acc ++ [x])) as [[[l o']|]|]; [|apply IH; lia|done].
  rewrite length_app in IH. cbn in IH. assert (Z.of_nat (length l) <= Z.of_nat (length acc + 1) + (tlvend - o)) by (apply IH; lia). lia.
Qed.

End ListProps.

(** ** What is shown *)

(** Reads in the bytes, wherever the size says they end. *)
Lemma getRawUInt_in_bytes n data size off : 0 <= n <= 8 -> Z.of_nat (length data) < 2 ^ 31 -> size <= Z.of_nat (length data) ->
  0 <= off <= Z.of_nat (length data) + 12 ->
  exists r o, getRawUInt n data size off = Done (r, o) /\ 0 <= o <= Z.of_nat (length data) + 12.
Proof.
  intros Hn Hl Hs Ho. unfold getRawUInt. rewrite wrap_small by (unfold is_word; lia). destruct (Z.ltb_spec size (off + n)); [by exists None, off|].
  rewrite mem_read_in by lia. cbn [mbind access_bind]. eexists _, _. split; [done|lia].
Qed.

Ltac read_in_bytes :=
  match goal with |- context [getRawUInt ?n ?d ?s ?o] =>
    destruct (getRawUInt_in_bytes n d s o) as (? & ? & -> & ?); [lia|lia|lia|lia|]; cbn [mbind access_bind] end.

Lemma tlv_open_in_bytes data size off type : Z.of_nat (length data) < 2 ^ 31 -> size <= Z.of_nat (length data) -> 0 <= off <= Z.of_nat (length data) ->
  exists r, tlv_open data size off type = Done r /\ forall tlvend, r = Some tlvend -> tlvend <= size.
Proof.
  intros Hl Hs Ho. unfold tlv_open, GetTlvType, GetTlvSize. change TLV_HEADER_SIZE with 6. change TLV_HEADER_TYPE_SIZE with 2. change TLV_HEADER_LEN_SIZE with 4.
  rewrite wrap_small by (unfold is_word; lia). destruct (Z.ltb_spec size (off + 6)); [by eexists|]. rewrite !mem_read_in by lia. cbn [mbind access_bind].
  destruct (_ || _); [by eexists|]. destruct (Z.ltb_spec size (u32 (off + be_val (slice (Z.to_nat (off + 2)) (Z.to_nat 4) data)))); [by eexists|].
  destruct (negb _); [by eexists|]. eexists. split; [done|]. by intros e [= <-].
Qed.

Lemma GetTlvIpAddrPort_in_bytes data size off type : Z.of_nat (length data) < 2 ^ 31 -> size <= Z.of_nat (length data) -> 0 <= off <= Z.of_nat (length data) ->
  GetTlvIpAddrPortV4 data size off type <> Oob /\ GetTlvIpAddrPortV6 data size off type <> Oob.
Proof.
  intros Hl Hs Ho. destruct (tlv_open_in_bytes data size off type) as (r & E & Hr); [done..|]. unfold GetTlvIpAddrPortV4, GetTlvIpAddrPortV6. rewrite E.
  cbn [mbind access_bind]. destruct r as [e|]; [|done]. specialize (Hr e eq_refl). change TLV_HEADER_SIZE with 6. rewrite wrap_small by (unfold is_word; lia).
  unfold getRawUInt32, getRawUInt16. split; repeat read_in_bytes; done.
Qed.

Lemma IpAddress_fields_oob data tlvend off : Z.of_nat (length data) < 2 ^ 31 -> tlvend <= Z.of_nat (length data) -> 0 <= off <= Z.of_nat (length data) ->
  IpAddress_fields data tlvend off = Oob <-> off <> tlvend /\ Z.of_nat (length data) < off + 2.
Proof.
  intros Hl He Ho. unfold IpAddress_fields, GetTlvType. change TLV_HEADER_TYPE_SIZE with 2. destruct (Z.eqb_spec off tlvend) as [->|Hne]; [split; [done|tauto]|].
  destruct (Z.ltb_spec (Z.of_nat (length data)) (off + 2)) as [Hs|Hs]; [by rewrite mem_read_out by lia|]. rewrite mem_read_in by lia. cbn [mbind access_bind].
  split; [|lia]. destruct (_ =? TLV_TYPE_IPV4).
  { destruct (GetTlvIpAddrPort_in_bytes data tlvend off TLV_TYPE_IPV4) as [H4 _]; [done..|]. by destruct (GetTlvIpAddrPortV4 _ _ _ _) as [[??]|]. }
  destruct (_ =? TLV_TYPE_IPV6); [|done].
  destruct (GetTlvIpAddrPort_in_bytes data tlvend off TLV_TYPE_IPV6) as [_ H6]; [done..|]. by destruct (GetTlvIpAddrPortV6 _ _ _ _) as [[??]|].
Qed.

(** Reading an address from the [off]th byte of a packet reads behind it exactly when the header is that of an address and announces a
    size other than the header's own, the size announced is within the packet (in 32 bits), and fewer than two bytes follow the header: the
    type of the address inside is read without a check. *)
Theorem IpAddress_GetTlv_oob (data : list Z) (off : Z) (Hsize : Z.of_nat (length data) < 2 ^ 31) (Hoff : 0 <= off <= Z.of_nat (length data)) :
  let size := Z.of_nat (length data) in
  let announced := be_val (slice (Z.to_nat (off + 2)) 4 data) in
  IpAddress_GetTlv data size off = Oob <->
    off + 6 <= size < off + 8 /\ be_val (slice (Z.to_nat off) 2 data) = TLV_TYPE_ADDRESS /\ u32 (off + announced) <= size /\ u32 (off + announced) <> off + 6.
Proof.
  cbv zeta. set (size := Z.of_nat (length data)) in *. set (n := be_val (slice (Z.to_nat (off + 2)) 4 data)). set (ty := be_val (slice (Z.to_nat off) 2 data)).
  unfold IpAddress_GetTlv, item_get, ref_open, GetTlvType, GetTlvSize. change TLV_HEADER_SIZE with 6. change TLV_HEADER_TYPE_SIZE with 2.
  change TLV_HEADER_LEN_SIZE with 4. rewrite !(wrap_small 32 (off + 6)) by (unfold is_word; lia).
  destruct (Z.ltb_spec size (off + 6)); [split; [done|lia]|]. rewrite !mem_read_in by (unfold size in *; lia). cbn [mbind access_bind].
  change (Z.to_nat 2) with 2%nat. change (Z.to_nat 4) with 4%nat. fold n ty. set (e := u32 (off + n)).
  destruct (Z.ltb_spec size e); [split; [done|lia]|]. destruct (Z.eqb_spec ty TLV_TYPE_ADDRESS) as [Ht|Ht]; cbn [negb mbind access_bind]; [|split; [done|tauto]].
  pose proof (IpAddress_fields_oob data e (off + 6)) as HF. fold size in HF.
  destruct (IpAddress_fields data e (off + 6)) as [[v o]|]; cbn; (split; [intros D|intros (H1 & _ & H3 & H4)]); try discriminate D; try done.
  - assert (@Done (option sockaddr_storage * Z) (v, o) = Oob) by (apply HF; lia). done.
  - destruct HF as [HF _]; [lia..|]. specialize (HF eq_refl). repeat split; (done || lia).
Qed.

Lemma IpAddress_GetTlv_oob_witness :
  IpAddress_GetTlv [0x10; 0x72; 0; 0; 0; 7; 0] 7 0 = Oob /\ IpAddress_GetTlv [0x10; 0x72; 0; 0; 0; 6; 0] 7 0 = Done (Some sockaddr_storage_clear, 6).
Proof.
  split; [|by vm_compute].
  apply (IpAddress_GetTlv_oob [0x10; 0x72; 0; 0; 0; 7; 0] 0); [by vm_compute|cbn; lia|]. repeat split; by vm_compute.
Defined.

(** A list of items of any class that keeps its promises is written, and read back as it was, from anywhere in a packet. *)
Theorem tlv_list_roundtrip {T} `{TlvClass T} (TLV_TYPE : Z) (l old : list T) (data : list Z) (size off : Z)
    (Htype : is_word 16 TLV_TYPE) (Hl : list_ok TLV_TYPE l) (Hbuf : buffer_ok data size) (Hoff : 0 <= off) (Hsize : size + 12 < 2 ^ 32)
    (Hfits : off + TlvList_TlvSize l <= size) :
  exists data', TlvList_SetTlv TLV_TYPE l data size off = Done (true, data', off + TlvList_TlvSize l) /\ length data' = length data /\
    TlvList_GetTlv TLV_TYPE (S (length l)) old data' size off = Done (Some (true, l, off + TlvList_TlvSize l)).
Proof.
  assert (E : TlvList_TlvSize l = Z.of_nat (length (list_enc TLV_TYPE l))) by (unfold list_enc; rewrite (list_size TLV_TYPE), length_item_enc by done; lia).
  rewrite E in *. exists (splice (Z.to_nat off) (list_enc TLV_TYPE l) data). pose proof Hbuf as [Hs Hd].
  assert (Hlen : length (splice (Z.to_nat off) (list_enc TLV_TYPE l) data) = length data) by (apply length_splice; lia).
  split; [|split; [done|]].
  - apply writes_item; [by apply (list_size TLV_TYPE)|by apply set_list_writes, Hl|done|done|done].
  - unfold TlvList_GetTlv. assert (Hsl : slice (Z.to_nat off) (length (list_enc TLV_TYPE l)) (splice (Z.to_nat off) (list_enc TLV_TYPE l) data) = list_enc TLV_TYPE l)
      by (apply slice_splice_eq; lia).
    assert (Hb' : buffer_ok (splice (Z.to_nat off) (list_enc TLV_TYPE l) data) size) by (split; [done|by rewrite Hlen]).
    unfold list_enc in Hsl |- *. rewrite (ref_open_enc _ _ _ TLV_TYPE (list_body l)) by done.
    cbn [mbind access_bind]. pose proof Hsl as Hbody. apply slice_header in Hbody as [_ Hbody]. unfold list_enc in *. rewrite length_item_enc in *.
    change TLV_HEADER_SIZE with 6. rewrite wrap_small by (unfold is_word; lia).
    rewrite (get_list_enc l); [|lia|apply Hl|eapply buffer_ok_shrink; [exact Hb'|lia]|lia|lia|lia|].
    + cbn. by rewrite Z.eqb_refl.
    + by replace (Z.to_nat (off + 6)) with (Z.to_nat off + 6)%nat by lia.
Qed.

(** Whatever the bytes, reading a list ends within as many rounds as the packet has bytes: every item read moves on, so that there are
    at most as many items as bytes. *)
Theorem tlv_list_ends {T} `{TlvClass T} (TLV_TYPE : Z) (old : list T) (data : list Z) (size off : Z) (Hoff : 0 <= off <= size) (Hsize : size + 12 < 2 ^ 32) :
  match TlvList_GetTlv TLV_TYPE (S (Z.to_nat size)) old data size off with
  | Done None => False
  | Done (Some (ok, l, _)) => ok = true -> Z.of_nat (length l) <= size - off
  | Oob => True
  end.
Proof.
  unfold TlvList_GetTlv. destruct (ref_open data size off TLV_TYPE) as [[e|]|] eqn:E; cbn [mbind access_bind]; [|done|done].
  assert (He : e <= size /\ u32 (off + 6) <= size).
  { revert E. unfold ref_open. change TLV_HEADER_SIZE with 6. destruct (Z.ltb_spec size (u32 (off + 6))); [done|].
    destruct (GetTlvType data off) as [ty|]; [|done]. cbn [mbind access_bind]. destruct (GetTlvSize data off) as [sz|]; [|done]. cbn [mbind access_bind].
    destruct (Z.ltb_spec size (u32 (off + sz))); [done|]. destruct (negb _); [done|]. intros [= <-]. lia. }
  change TLV_HEADER_SIZE with 6. rewrite wrap_small in * by (unfold is_word; lia). destruct (Z.le_gt_cases (off + 6) e) as [Hle|Hgt].
  - pose proof (get_list_ends (S (Z.to_nat size)) data e (off + 6) []) as HG.
    destruct (get_list _ data e (off + 6) []) as [[[l o]|]|]; cbn [mbind access_bind option_bind] in *; [|apply HG; lia|done].
    intros _. cbn in HG. assert (Z.of_nat (length l) <= 0 + (e - (off + 6))) by (apply HG; lia). lia.
  - cbn [get_list]. rewrite wrap_small by (unfold is_word; lia). destruct (Z.ltb_spec (off + 6 + 6) e); [lia|]. cbn. lia.
Qed.

Definition example_entry : RsTlvBanListEntry := mk_BanListEntry (sockaddr_storage_setipv4 0x0100007f 8080) 1 2 3 4 [104; 105].

Lemma example_entry_ok : entry_ok example_entry.
Proof.
  split; [left; exists 0x0100007f, 8080; unfold is_word; repeat split; lia|]. unfold is_word, string_ok. cbn [e_level e_reason e_age e_masked_bytes e_comment example_entry].
  repeat split; by vm_compute.
Qed.

Lemma tlv_list_roundtrip_witness :
  exists data', TlvList_SetTlv TLV_TYPE_BAN_LIST [example_entry; example_entry] (replicate 110 0) 110 2 = Done (true, data', 98) /\
    length data' = 110%nat /\ TlvList_GetTlv TLV_TYPE_BAN_LIST 3 [] data' 110 2 = Done (Some (true, [example_entry; example_entry], 98)).
Proof.
  assert (E : TlvList_TlvSize [example_entry; example_entry] = 96) by (by vm_compute). change 98 with (2 + 96). rewrite <- E.
  apply (tlv_list_roundtrip TLV_TYPE_BAN_LIST [example_entry; example_entry] [] (replicate 110 0) 110 2).
  - split; by vm_compute.
  - split; [|by vm_compute]. repeat apply Forall_cons_2; [apply example_entry_ok..|apply Forall_nil_2].
  - split; by vm_compute.
  - lia.
  - lia.
  - rewrite E. lia.
Defined.

Lemma tlv_list_ends_witness :
  match TlvList_GetTlv TLV_TYPE_BAN_LIST 9 [example_entry] [0x10; 0x91; 0; 0; 0; 8; 1; 2] 8 0 with
  | Done None => False
  | Done (Some (ok, l, _)) => ok = true -> Z.of_nat (length l) <= 8 - 0
  | Oob => True
  end.
Proof. apply (tlv_list_ends TLV_TYPE_BAN_LIST [example_entry] [0x10; 0x91; 0; 0; 0; 8; 1; 2] 8 0); lia. Defined.

(** The answer is whether the items end with the list: a last item that was not understood ends there too, is not in the list, and the
    answer is true.  In front of another item it makes the answer false. *)
Example bad_last_item_answers_true :
  let x := mk_IpAddressInfo (sockaddr_storage_setipv4 0x0100007f 8080) 1 2 in
  let bad := item_enc TLV_TYPE_ADDRESS_INFO (address_enc (info_addr x)) in
  let read body := TlvList_GetTlv TLV_TYPE_ADDRESS_SET 9 [] (item_enc TLV_TYPE_ADDRESS_SET body) (Z.of_nat (length (item_enc TLV_TYPE_ADDRESS_SET body))) 0 in
  read (info_enc x ++ bad) = Done (Some (true, [x], 66)) /\ read (bad ++ info_enc x) = Done (Some (false, [], 30)).
Proof. split; by vm_compute. Qed.

(** A last entry that is cut reads its comment behind the packet: strings are read without a check of their header. *)
Example cut_ban_entry_reads_outside :
  let data := item_enc TLV_TYPE_BAN_LIST (entry_enc example_entry ++ item_enc TLV_TYPE_BAN_ENTRY [1; 2; 3]) in
  TlvList_GetTlv TLV_TYPE_BAN_LIST 9 [] data (Z.of_nat (length data)) 0 = Oob.
Proof. by vm_compute. Qed.
