(* ===== verification/U256.v ===== *)
(** * 256-bit integers: [struct uint256_32] of src/crypto/chacha20.cpp

    The multi-precision arithmetic under the Poly1305 authenticator.  A
    [uint256_32] is the list of its eight 32-bit words, least significant first
    ([b[0]] is the head).  Every operation is translated with its carries; the
    theorems show that each one is the operation of Z modulo 2^256, and that
    [remainder] is the Euclidean remainder. *)

From S2P Require Import Prelude.
From Stdlib Require Import ZArith Lia.
From stdpp Require Import base list.
Open Scope Z_scope.

(** ** Operations *)

Definition mk256 (b7 b6 b5 b4 b3 b2 b1 b0 : Z) : list Z := [b0; b1; b2; b3; b4; b5; b6; b7].

Definition zero256 : list Z := mk256 0 0 0 0 0 0 0 0.

Definition eq256 (a u : list Z) : bool := forallb (fun p => p.1 =? p.2) (zip a u).

(** One line of [operator+=] per word: [v] is the 64-bit carry accumulator. *)
Fixpoint add_words (v : Z) (b u : list Z) : list Z :=
  match b, u with
  | x :: b, y :: u =>
      let v := u64 (v + (x + y)) in
      u32 v :: add_words (Z.shiftr v 32) b u
  | _, _ => []
  end.

Definition add256 (b u : list Z) : list Z := add_words 0 b u.

(** [operator++]: stop at the first word that does not become zero. *)
Fixpoint incr256 (b : list Z) : list Z :=
  match b with
  | [] => []
  | x :: b => let x := u32 (x + 1) in if negb (x =? 0) then x :: b else x :: incr256 b
  end.

Definition not256 (b : list Z) : list Z := (fun x => u32 (Z.lnot x)) <$> b.

Definition sub256 (b u : list Z) : list Z := incr256 (add256 b (not256 u)).

(** [operator<], scanning from the most significant word. *)
Fixpoint lt_words (b u : list Z) : bool :=
  match b, u with
  | x :: b, y :: u => if x <? y then true else if y <? x then false else lt_words b u
  | _, _ => false
  end.

Definition lt256 (b u : list Z) : bool := lt_words (reverse b) (reverse u).

Definition poly1305clamp (b : list Z) : list Z :=
  match b with
  | b0 :: b1 :: b2 :: b3 :: r =>
      Z.land b0 0x0fffffff :: Z.land b1 0x0ffffffc :: Z.land b2 0x0ffffffc
        :: Z.land b3 0x0ffffffc :: r
  | _ => b
  end.

(** The product of words [i] and [j], as a number of its own. *)
Definition mul_partial (b u : list Z) (i j : nat) : list Z :=
  let s := u64 (nth j u 0 * nth i b 0) in
  let partial := <[(i + j)%nat := Z.land s 0xffffffff]> zero256 in
  if (i + j + 1 <? 8)%nat then <[(i + j + 1)%nat := u32 (Z.shiftr s 32)]> partial else partial.

Definition mul256 (b u : list Z) : list Z :=
  fold_left (fun r i =>
    fold_left (fun r j =>
      if (i + j <? 8)%nat then add256 r (mul_partial b u i j) else r)
      (seq 0 8) r) (seq 0 8) zero256.

(** Highest set bit of a byte, and of the number; -1 for zero. *)
Fixpoint high_bit_from (i : nat) (s : Z) : Z :=
  if negb (Z.land s (Z.shiftl 1 (Z.of_nat i)) =? 0) then Z.of_nat i
  else match i with O => -1 | S i => high_bit_from i s end.

Definition max_non_zero_of_height_bits (s : Z) : Z := high_bit_from 7 s.

Definition word_high_bit (w : Z) : Z :=
  if negb (Z.land w 0xff000000 =? 0) then 3 * 8 + max_non_zero_of_height_bits (u8 (Z.shiftr w 24))
  else if negb (Z.land w 0x00ff0000 =? 0) then 2 * 8 + max_non_zero_of_height_bits (u8 (Z.shiftr w 16))
  else if negb (Z.land w 0x0000ff00 =? 0) then 1 * 8 + max_non_zero_of_height_bits (u8 (Z.shiftr w 8))
  else 0 * 8 + max_non_zero_of_height_bits (u8 w).

(** [words] is the number from its most significant word, number [c]. *)
Fixpoint max_bit_from (c : Z) (words : list Z) : Z :=
  match words with
  | [] => -1
  | w :: r => if negb (w =? 0) then c * 32 + word_high_bit w else max_bit_from (c - 1) r
  end.

Definition max_non_zero_bit (b : list Z) : Z := max_bit_from 7 (reverse b).

(** [lshift(n)]: whole words first, then the remaining [u] bits with carry [r]. *)
Fixpoint lshift_bits (u r : Z) (b : list Z) : list Z :=
  match b with
  | [] => []
  | x :: b =>
      let r1 := Z.shiftr x (31 - u + 1) in
      u32 (Z.land (u32 (Z.shiftl x u)) 0xffffffff + r) :: lshift_bits u r1 b
  end.

Definition lshift_words (p : Z) (b : list Z) : list Z :=
  imap (fun i _ => if p <=? Z.of_nat i then nth (i - Z.to_nat p) b 0 else 0) b.

Definition lshift_n (n : Z) (b : list Z) : list Z :=
  let p := Z.shiftr n 5 in
  let u := Z.land n 0x1f in
  let b := if 0 <? p then lshift_words p b else b in
  if 0 <? u then lshift_bits u 0 b else b.

(** [lshift()]: one bit. *)
Fixpoint lshift1_words (r : Z) (b : list Z) : list Z :=
  match b with
  | [] => []
  | x :: b => u32 (u32 (Z.shiftl x 1) + r) :: lshift1_words (Z.shiftr x 31) b
  end.

Definition lshift1 (b : list Z) : list Z := lshift1_words 0 b.

(** [rshift()]: one bit, from the most significant word down. *)
Fixpoint rshift_words (r : Z) (words : list Z) : list Z :=
  match words with
  | [] => []
  | x :: w =>
      (if r =? 0 then Z.shiftr x 1 else u32 (Z.shiftr x 1 + 0x80000000))
        :: rshift_words (Z.land x 1) w
  end.

Definition rshift256 (b : list Z) : list Z := reverse (rshift_words 0 (reverse b)).

(** The loops of [quotient] and [remainder]; [k] is [b + 1]. *)
Fixpoint remainder_loop (k : nat) (d r : list Z) : list Z :=
  match k with
  | O => r
  | S k => remainder_loop k (rshift256 d) (if negb (lt256 r d) then sub256 r d else r)
  end.

(** [d.lshift(bmax)] converts the [int] to [uint32_t]; a negative [bmax] runs the
    loop zero times. *)
Definition remainder (n p : list Z) : list Z :=
  let bmax := max_non_zero_bit n - max_non_zero_bit p in
  remainder_loop (Z.to_nat (bmax + 1)) (lshift_n (u32 bmax) p) n.

Fixpoint quotient_loop (k : nat) (d m q r : list Z) : list Z * list Z :=
  match k with
  | O => (q, r)
  | S k =>
      let '(q, r) := if negb (lt256 r d) then (add256 q m, sub256 r d) else (q, r) in
      quotient_loop k (rshift256 d) (rshift256 m) q r
  end.

(** [m.b[bmax/32] = 1u << (bmax%32)] is undefined for a negative [bmax]: [None]. *)
Definition quotient (n p : list Z) : option (list Z * list Z) :=
  let bmax := max_non_zero_bit n - max_non_zero_bit p in
  if bmax <? 0 then None
  else
    let m := <[Z.to_nat (bmax / 32) := Z.shiftl 1 (bmax mod 32)]> zero256 in
    Some (quotient_loop (Z.to_nat (bmax + 1)) (lshift_n (u32 bmax) p) m zero256 n).

(** ** Values *)

Definition wf256 (b : list Z) : Prop := length b = 8%nat /\ Forall (is_word 32) b.

Fixpoint val256 (b : list Z) : Z :=
  match b with
  | [] => 0
  | x :: b => x + 2 ^ 32 * val256 b
  end.

(** ** Values and words *)

(** 2^(32 n), in the shape the inductions need. *)
Fixpoint base (n : nat) : Z := match n with O => 1 | S n => 2 ^ 32 * base n end.

Lemma base_pow n : base n = 2 ^ (32 * Z.of_nat n).
Proof.
  induction n as [|n IH]; [done|]. cbn [base]. rewrite IH.
  replace (32 * Z.of_nat (S n)) with (32 + 32 * Z.of_nat n) by lia.
  by rewrite Z.pow_add_r by lia.
Qed.

Lemma base_pos n : 0 < base n.
Proof. rewrite base_pow. lia. Qed.

Lemma base_add n m : base (n + m) = base n * base m.
Proof. rewrite !base_pow, <- Z.pow_add_r by lia. f_equal. lia. Qed.

Lemma mod_base_S x y n :
  is_word 32 x -> (x + 2 ^ 32 * y) mod base (S n) = x + 2 ^ 32 * (y mod base n).
Proof.
  intros Hx. unfold is_word in Hx. pose proof (base_pos n). cbn [base].
  rewrite Z.rem_mul_r by lia.
  replace (x + 2 ^ 32 * y) with (x + y * 2 ^ 32) by lia.
  rewrite Z_mod_plus_full, Z.mod_small, Z.div_add, Z.div_small by lia. done.
Qed.

Lemma val256_range b : Forall (is_word 32) b -> 0 <= val256 b < base (length b).
Proof.
  induction 1 as [|x b Hx Hb IH]; cbn [val256 length base]; [lia|].
  unfold is_word in Hx. nia.
Qed.

Lemma val256_inj b u :
  length b = length u -> Forall (is_word 32) b -> Forall (is_word 32) u ->
  val256 b = val256 u -> b = u.
Proof.
  intros Hl Hb. revert u Hl. induction Hb as [|x b Hx Hb IH]; intros [|y u] Hl Hu He; try done.
  apply Forall_cons in Hu as [Hy Hu]. cbn in He. unfold is_word in Hx, Hy.
  assert (x = y /\ val256 b = val256 u) as [-> Hv] by lia.
  f_equal. apply IH; [|done|done]. by injection Hl.
Qed.

Lemma val256_app b u : val256 (b ++ u) = val256 b + base (length b) * val256 u.
Proof.
  induction b as [|x b IH]; cbn [app val256 length base]; [lia|]. rewrite IH. lia.
Qed.

Lemma val256_take n b :
  Forall (is_word 32) b -> val256 (take n b) = val256 b mod base n.
Proof.
  intros Hb. revert n. induction Hb as [|x b Hx Hb IH]; intros [|n]; cbn [take val256].
  - done.
  - by rewrite Z.mod_0_l by (pose proof (base_pos (S n)); lia).
  - by rewrite Z.mod_1_r.
  - by rewrite mod_base_S, IH.
Qed.

Lemma val256_replicate0 n : val256 (replicate n 0) = 0.
Proof. induction n as [|n IH]; cbn [replicate val256]; lia. Qed.

Lemma val256_nth b :
  val256 b = sum_with (fun j => nth j b 0 * base j) (seq 0 (length b)).
Proof.
  induction b as [|x b IH] using rev_ind; [done|].
  rewrite val256_app, length_app, seq_app, sum_with_app. cbn.
  rewrite app_nth2, Nat.sub_diag by lia. cbn [nth].
  rewrite IH. replace (base (length b) * (x + _)) with (x * base (length b) + 0) by (cbn; lia).
  f_equal. apply sum_with_ext. intros j Hj. apply elem_of_seq in Hj.
  by rewrite app_nth1 by lia.
Qed.

Lemma nth_word j b : Forall (is_word 32) b -> is_word 32 (nth j b 0).
Proof.
  intros Hb. destruct (nth_in_or_default j b 0) as [Hin| ->]; [|split; lia].
  by apply (proj1 (List.Forall_forall _ _) Hb).
Qed.

(** ** Addition, increment, complement, subtraction *)

Lemma length_add_words v b u : length b = length u -> length (add_words v b u) = length b.
Proof. revert v u. induction b as [|x b IH]; intros v [|y u] H; try done. cbn. by rewrite IH by (by injection H). Qed.

Lemma add_words_word v b u : Forall (is_word 32) (add_words v b u).
Proof.
  revert v u. induction b as [|x b IH]; intros v [|y u]; cbn; constructor; [|done].
  by apply wrap_is_word.
Qed.

Lemma add_words_val v b u :
  length b = length u -> Forall (is_word 32) b -> Forall (is_word 32) u -> is_word 32 v ->
  val256 (add_words v b u) = (v + val256 b + val256 u) mod base (length b).
Proof.
  intros Hl Hb. revert v u Hl. induction Hb as [|x b Hx Hb IH]; intros v [|y u] Hl Hu Hv; try done.
  - cbn. by rewrite Z.mod_1_r.
  - apply Forall_cons in Hu as [Hy Hu]. cbn [add_words val256 length].
    unfold is_word in Hx, Hy, Hv.
    rewrite (wrap_small 64 (v + (x + y))) by (unfold is_word; lia).
    set (t := v + (x + y)). assert (Ht : t = u32 t + 2 ^ 32 * Z.shiftr t 32).
    { rewrite Z.shiftr_div_pow2 by lia. unfold wrap.
      pose proof (Z.div_mod t (2 ^ 32)). lia. }
    rewrite IH; [|by injection Hl|done|].
    + rewrite <- mod_base_S by (by apply wrap_is_word). f_equal. unfold t in *. lia.
    + rewrite Z.shiftr_div_pow2 by lia. split.
      * apply Z.div_pos; unfold t; lia.
      * apply Z.div_lt_upper_bound; unfold t; lia.
Qed.

Lemma length_incr b : length (incr256 b) = length b.
Proof. induction b as [|x b IH]; cbn; [done|]. destruct (negb _); cbn; by rewrite ?IH. Qed.

Lemma incr_word b : Forall (is_word 32) b -> Forall (is_word 32) (incr256 b).
Proof.
  induction 1 as [|x b Hx Hb IH]; cbn; [constructor|].
  destruct (negb _); constructor; try done; by apply wrap_is_word.
Qed.

Lemma incr_val b :
  Forall (is_word 32) b -> val256 (incr256 b) = (val256 b + 1) mod base (length b).
Proof.
  induction 1 as [|x b Hx Hb IH]; cbn [incr256]; [cbn; by rewrite Z.mod_1_r|].
  cbn [length]. unfold is_word in Hx. pose proof (val256_range b Hb).
  destruct (decide (x = 2 ^ 32 - 1)) as [->|Hne].
  - change (u32 (2 ^ 32 - 1 + 1)) with 0. cbn [Z.eqb negb val256].
    rewrite IH, <- mod_base_S by (unfold is_word; lia). f_equal. lia.
  - rewrite wrap_small by (unfold is_word; lia).
    destruct (Z.eqb_spec (x + 1) 0); [lia|]. cbn [negb val256].
    replace (x + 2 ^ 32 * val256 b + 1) with ((x + 1) + 2 ^ 32 * val256 b) by lia.
    by rewrite mod_base_S, Z.mod_small by (unfold is_word; lia).
Qed.

Lemma u32_lnot x : is_word 32 x -> u32 (Z.lnot x) = 2 ^ 32 - 1 - x.
Proof.
  intros [H0 H1]. unfold Z.lnot, wrap.
  replace (Z.pred (- x)) with (2 ^ 32 - 1 - x + (-1) * 2 ^ 32) by lia.
  rewrite Z_mod_plus_full. apply Z.mod_small. lia.
Qed.

Lemma not_word b : Forall (is_word 32) (not256 b).
Proof. apply Forall_fmap, Forall_true. intros x. by apply wrap_is_word. Qed.

Lemma not_val b :
  Forall (is_word 32) b -> val256 (not256 b) = base (length b) - 1 - val256 b.
Proof.
  induction 1 as [|x b Hx Hb IH]; [done|]. unfold not256 in *. cbn [fmap list_fmap val256].
  rewrite IH, u32_lnot by done. cbn [length base]. lia.
Qed.

Lemma sub_val b u :
  length b = length u -> Forall (is_word 32) b -> Forall (is_word 32) u ->
  val256 (sub256 b u) = (val256 b - val256 u) mod base (length b).
Proof.
  intros Hl Hb Hu. unfold sub256, add256.
  assert (Hlu : length b = length (not256 u)) by (unfold not256; by rewrite length_fmap).
  rewrite incr_val by apply add_words_word.
  rewrite length_add_words, add_words_val, not_val by (done || apply not_word || split; lia).
  rewrite Zplus_mod_idemp_l, Hl.
  replace (0 + val256 b + (base (length u) - 1 - val256 u) + 1)
    with (val256 b - val256 u + 1 * base (length u)) by lia.
  apply Z_mod_plus_full.
Qed.

Lemma length_sub b u : length b = length u -> length (sub256 b u) = length b.
Proof.
  intros H. unfold sub256, add256. rewrite length_incr, length_add_words; [done|].
  unfold not256. by rewrite length_fmap.
Qed.

Lemma sub_word b u : Forall (is_word 32) (sub256 b u).
Proof. apply incr_word, add_words_word. Qed.

(** ** Comparison *)

Lemma val256_reverse_cons x w : val256 (reverse (x :: w)) = val256 (reverse w) + base (length w) * x.
Proof.
  rewrite reverse_cons, val256_app, length_reverse. cbn [val256]. lia.
Qed.

Lemma lt_words_val b u :
  length b = length u -> Forall (is_word 32) b -> Forall (is_word 32) u ->
  lt_words b u = (val256 (reverse b) <? val256 (reverse u)).
Proof.
  intros Hl Hb. revert u Hl. induction Hb as [|x b Hx Hb IH]; intros [|y u] Hl Hu; try done.
  apply Forall_cons in Hu as [Hy Hu]. injection Hl as Hl. cbn [lt_words].
  rewrite !val256_reverse_cons, <- Hl.
  pose proof (val256_range (reverse b) ltac:(by apply Forall_reverse)) as Rb.
  pose proof (val256_range (reverse u) ltac:(by apply Forall_reverse)) as Ru.
  rewrite length_reverse in Rb, Ru. rewrite <- Hl in Ru.
  destruct (Z.ltb_spec x y); [symmetry; apply Z.ltb_lt; nia|].
  destruct (Z.ltb_spec y x); [symmetry; apply Z.ltb_ge; nia|].
  assert (x = y) as -> by lia. rewrite IH by done.
  destruct (Z.ltb_spec (val256 (reverse b)) (val256 (reverse u))); symmetry;
    [apply Z.ltb_lt|apply Z.ltb_ge]; lia.
Qed.

Lemma lt256_val b u :
  length b = length u -> Forall (is_word 32) b -> Forall (is_word 32) u ->
  lt256 b u = (val256 b <? val256 u).
Proof.
  intros Hl Hb Hu. unfold lt256.
  rewrite lt_words_val by (rewrite ?length_reverse; done || by apply Forall_reverse).
  by rewrite !reverse_involutive.
Qed.

(** ** Shifts *)

Lemma length_rshift_words r w : length (rshift_words r w) = length w.
Proof. revert r. induction w as [|x w IH]; intros r; cbn; [done|]. by rewrite IH. Qed.

Lemma shiftr1_word x : is_word 32 x -> 0 <= Z.shiftr x 1 < 2 ^ 31.
Proof.
  intros Hx. unfold is_word in Hx. rewrite Z.shiftr_div_pow2 by lia. change (2 ^ 1) with 2.
  split; [apply Z.div_pos; lia|apply Z.div_lt_upper_bound; lia].
Qed.

Lemma rshift_words_word r w :
  Forall (is_word 32) w -> Forall (is_word 32) (rshift_words r w).
Proof.
  intros Hw. revert r. induction Hw as [|x w Hx Hw IH]; intros r; cbn; constructor; [|done].
  destruct (r =? 0); [|by apply wrap_is_word].
  pose proof (shiftr1_word x Hx). unfold is_word. lia.
Qed.

Lemma land_1 x : Z.land x 1 = x mod 2.
Proof. change 1 with (Z.ones 1). by rewrite Z.land_ones. Qed.

Lemma rshift_words_val r w :
  Forall (is_word 32) w -> 0 <= r <= 1 ->
  val256 (reverse (rshift_words r w)) = (val256 (reverse w) + r * base (length w)) / 2.
Proof.
  intros Hw. revert r. induction Hw as [|x w Hx Hw IH]; intros r Hr.
  - cbn. destruct (decide (r = 0)) as [->|]; [done|]. by replace r with 1 by lia.
  - cbn [rshift_words]. rewrite !val256_reverse_cons, length_rshift_words, land_1.
    pose proof (Z.mod_pos_bound x 2 ltac:(lia)).
    rewrite IH by lia. cbn [length base].
    assert (Hh : (if r =? 0 then Z.shiftr x 1 else u32 (Z.shiftr x 1 + 0x80000000))
                 = x / 2 + r * 2 ^ 31).
    { pose proof (shiftr1_word x Hx). rewrite Z.shiftr_div_pow2 in * by lia. change (2 ^ 1) with 2 in *.
      destruct (Z.eqb_spec r 0) as [->|]; [lia|]. rewrite wrap_small by (unfold is_word; lia).
      replace r with 1 by lia. lia. }
    rewrite Hh. pose proof (Z.div_mod x 2 ltac:(lia)) as Hx2.
    replace (val256 (reverse w) + base (length w) * x + r * (2 ^ 32 * base (length w)))
      with (val256 (reverse w) + x mod 2 * base (length w)
            + (base (length w) * (x / 2 + r * 2 ^ 31)) * 2) by nia.
    by rewrite Z.div_add by lia.
Qed.

Lemma rshift256_val b : Forall (is_word 32) b -> val256 (rshift256 b) = val256 b / 2.
Proof.
  intros Hb. unfold rshift256. rewrite rshift_words_val; [|by apply Forall_reverse|lia].
  by rewrite reverse_involutive, Z.mul_0_l, Z.add_0_r.
Qed.

Lemma length_rshift256 b : length (rshift256 b) = length b.
Proof. unfold rshift256. by rewrite length_reverse, length_rshift_words, length_reverse. Qed.

Lemma rshift256_word b : Forall (is_word 32) b -> Forall (is_word 32) (rshift256 b).
Proof. intros Hb. by apply Forall_reverse, rshift_words_word, Forall_reverse. Qed.

(** *** Left shifts *)

Lemma shiftl_split x u :
  0 <= u <= 32 -> is_word 32 x ->
  Z.shiftl x u = u32 (Z.shiftl x u) + 2 ^ 32 * Z.shiftr x (32 - u).
Proof.
  intros Hu Hx. unfold is_word in Hx.
  rewrite Z.shiftl_mul_pow2, Z.shiftr_div_pow2 by lia. unfold wrap.
  rewrite (Z.div_mod (x * 2 ^ u) (2 ^ 32)) at 1 by lia.
  rewrite Z.add_comm. do 2 f_equal.
  replace (2 ^ 32) with (2 ^ u * 2 ^ (32 - u)) by (rewrite <- Z.pow_add_r by lia; f_equal; lia).
  rewrite Z.mul_comm. apply Z.div_mul_cancel_l; lia.
Qed.

Lemma land_word x : is_word 32 x -> Z.land x 0xffffffff = x.
Proof.
  intros Hx. change 0xffffffff with (Z.ones 32). rewrite Z.land_ones by lia. by apply Z.mod_small.
Qed.

Lemma shiftl_low x u r :
  0 <= u <= 32 -> 0 <= r < 2 ^ u -> 0 <= u32 (Z.shiftl x u) + r < 2 ^ 32.
Proof.
  intros Hu Hr. unfold wrap. rewrite Z.shiftl_mul_pow2 by lia.
  replace (2 ^ 32) with (2 ^ (32 - u) * 2 ^ u) by (rewrite <- Z.pow_add_r by lia; f_equal; lia).
  rewrite Zmult_mod_distr_r.
  pose proof (Z.mod_pos_bound x (2 ^ (32 - u)) ltac:(lia)). nia.
Qed.

Lemma lshift_bits_val u r b :
  0 < u < 32 -> 0 <= r < 2 ^ u -> Forall (is_word 32) b ->
  val256 (lshift_bits u r b) = (val256 b * 2 ^ u + r) mod base (length b).
Proof.
  intros Hu Hr Hb. revert r Hr. induction Hb as [|x b Hx Hb IH]; intros r Hr.
  - cbn. by rewrite Z.mod_1_r.
  - cbn [lshift_bits val256 length]. rewrite land_word by (by apply wrap_is_word).
    pose proof (shiftl_low x u r ltac:(lia) Hr) as Hlow.
    rewrite wrap_small by done. replace (31 - u + 1) with (32 - u) by lia.
    rewrite IH.
    + rewrite <- mod_base_S by done. f_equal.
      pose proof (shiftl_split x u ltac:(lia) Hx) as Hs.
      rewrite Z.shiftl_mul_pow2 in Hs |- * by lia. lia.
    + unfold is_word in Hx. rewrite Z.shiftr_div_pow2 by lia. split; [apply Z.div_pos; lia|].
      apply Z.div_lt_upper_bound; [lia|]. rewrite <- Z.pow_add_r by lia.
      replace (32 - u + u) with 32 by lia. lia.
Qed.

Lemma lshift_words_eq p b :
  0 <= p -> lshift_words p b = take (length b) (replicate (Z.to_nat p) 0 ++ b).
Proof.
  intros Hp. apply list_eq. intros i. unfold lshift_words. rewrite list_lookup_imap.
  destruct (decide (i < length b)%nat) as [Hi|Hi].
  - rewrite lookup_take_lt by done.
    destruct (lookup_lt_is_Some_2 b i Hi) as [x Hx]. rewrite Hx. cbn.
    destruct (Z.leb_spec p (Z.of_nat i)).
    + rewrite lookup_app_r by (rewrite length_replicate; lia). rewrite length_replicate.
      destruct (lookup_lt_is_Some_2 b (i - Z.to_nat p) ltac:(lia)) as [y Hy].
      by rewrite nth_lookup, Hy.
    + rewrite lookup_app_l by (rewrite length_replicate; lia).
      by rewrite lookup_replicate_2 by lia.
  - rewrite lookup_ge_None_2 by lia. by rewrite lookup_take_ge by lia.
Qed.

Lemma length_lshift_bits u r b : length (lshift_bits u r b) = length b.
Proof. revert r. induction b as [|x b IH]; intros r; cbn; [done|]. by rewrite IH. Qed.

Lemma lshift_bits_word u r b : Forall (is_word 32) (lshift_bits u r b).
Proof. revert r. induction b as [|x b IH]; intros r; cbn; constructor; [by apply wrap_is_word|done]. Qed.

Lemma lshift_words_val p b :
  0 <= p -> Forall (is_word 32) b ->
  val256 (lshift_words p b) = (val256 b * 2 ^ (32 * p)) mod base (length b).
Proof.
  intros Hp Hb. rewrite lshift_words_eq by done.
  rewrite val256_take by (apply Forall_app; split; [apply Forall_replicate; split; lia|done]).
  rewrite val256_app, val256_replicate0, length_replicate, base_pow.
  f_equal. rewrite Z2Nat.id by done. lia.
Qed.

Lemma lshift_words_wf p b :
  0 <= p -> Forall (is_word 32) b ->
  length (lshift_words p b) = length b /\ Forall (is_word 32) (lshift_words p b).
Proof.
  intros Hp Hb. rewrite lshift_words_eq by done. split.
  - rewrite length_take, length_app, length_replicate. lia.
  - apply Forall_take, Forall_app. split; [apply Forall_replicate; split; lia|done].
Qed.

Lemma land_31 n : Z.land n 0x1f = n mod 32.
Proof. change 0x1f with (Z.ones 5). by rewrite Z.land_ones. Qed.

Lemma lshift_n_val n b :
  0 <= n -> Forall (is_word 32) b ->
  val256 (lshift_n n b) = (val256 b * 2 ^ n) mod base (length b) /\
  length (lshift_n n b) = length b /\ Forall (is_word 32) (lshift_n n b).
Proof.
  intros Hn Hb. unfold lshift_n. rewrite land_31, Z.shiftr_div_pow2 by lia.
  change (2 ^ 5) with 32. set (p := n / 32). set (u := n mod 32).
  assert (Hp : 0 <= p) by (apply Z.div_pos; lia).
  assert (Hu : 0 <= u < 32) by (apply Z.mod_pos_bound; lia).
  assert (Hnpu : n = 32 * p + u) by (apply Z.div_mod; lia).
  set (b1 := if 0 <? p then lshift_words p b else b).
  assert (H1 : val256 b1 = (val256 b * 2 ^ (32 * p)) mod base (length b) /\
               length b1 = length b /\ Forall (is_word 32) b1).
  { unfold b1. destruct (Z.ltb_spec 0 p).
    - split; [by apply lshift_words_val|by apply lshift_words_wf].
    - split; [|done]. replace p with 0 by lia. rewrite Z.mul_0_r, Z.mul_1_r.
      symmetry. apply Z.mod_small. by apply val256_range. }
  destruct H1 as (V1 & L1 & W1).
  destruct (Z.ltb_spec 0 u).
  - split; [|split; [by rewrite length_lshift_bits|apply lshift_bits_word]].
    rewrite lshift_bits_val, L1, V1, Z.add_0_r, Zmult_mod_idemp_l by (done || lia).
    rewrite Hnpu, Z.pow_add_r by lia. f_equal. lia.
  - split; [|done]. rewrite V1. do 3 f_equal. lia.
Qed.

(** ** Multiplication *)

Lemma val256_insert i v b :
  (i < length b)%nat ->
  val256 (<[i := v]> b) = val256 b + (v - nth i b 0) * base i.
Proof.
  revert i. induction b as [|x b IH]; intros [|i] H; cbn in H; try lia.
  - cbn. lia.
  - cbn [insert list_insert val256 nth base]. change (list_insert i v b) with (<[i := v]> b).
    rewrite IH by lia. lia.
Qed.

Lemma zero256_nth i : nth i zero256 0 = 0.
Proof. do 8 (destruct i as [|i]; [done|]). by destruct i. Qed.

Lemma Forall_insert_word i v b :
  is_word 32 v -> Forall (is_word 32) b -> Forall (is_word 32) (<[i := v]> b).
Proof. intros Hv Hb. by apply Forall_insert. Qed.

Lemma zero256_wf : wf256 zero256.
Proof. split; [done|]. repeat constructor; unfold is_word; lia. Qed.

Lemma word_mul x y : is_word 32 x -> is_word 32 y -> is_word 64 (x * y).
Proof.
  unfold is_word. replace (2 ^ 64) with (2 ^ 32 * 2 ^ 32) by done.
  intros Hx Hy. split; [nia|]. apply Z.mul_lt_mono_nonneg; lia.
Qed.

Lemma mul_partial_val b u i j :
  Forall (is_word 32) b -> Forall (is_word 32) u -> (i + j < 8)%nat ->
  wf256 (mul_partial b u i j) /\
  val256 (mul_partial b u i j) mod base 8 =
    (nth j u 0 * nth i b 0 * base (i + j)) mod base 8.
Proof.
  intros Hb Hu Hij. pose proof (nth_word i b Hb) as Wi. pose proof (nth_word j u Hu) as Wj.
  unfold mul_partial. pose proof (word_mul _ _ Wj Wi) as Hs. rewrite (wrap_small 64) by exact Hs.
  set (s := nth j u 0 * nth i b 0) in *. unfold is_word in Hs.
  assert (Hlo : Z.land s 0xffffffff = s mod 2 ^ 32).
  { change 0xffffffff with (Z.ones 32). by rewrite Z.land_ones. }
  assert (Hhi : u32 (Z.shiftr s 32) = s / 2 ^ 32).
  { rewrite Z.shiftr_div_pow2 by lia. apply wrap_small. split; [apply Z.div_pos; lia|].
    apply Z.div_lt_upper_bound; lia. }
  rewrite Hlo, Hhi. pose proof (Z.div_mod s (2 ^ 32) ltac:(lia)) as Hdm.
  assert (W1 : is_word 32 (s mod 2 ^ 32)) by (apply Z.mod_pos_bound; lia).
  assert (W2 : is_word 32 (s / 2 ^ 32)).
  { split; [apply Z.div_pos; lia|apply Z.div_lt_upper_bound; lia]. }
  assert (Hw1 : wf256 (<[(i + j)%nat := s mod 2 ^ 32]> zero256)).
  { split; [by rewrite length_insert|]. apply Forall_insert_word; [done|apply zero256_wf]. }
  assert (Hv1 : val256 (<[(i + j)%nat := s mod 2 ^ 32]> zero256) = s mod 2 ^ 32 * base (i + j)).
  { rewrite val256_insert, zero256_nth by done. change (val256 zero256) with 0. lia. }
  destruct (Nat.ltb_spec (i + j + 1) 8) as [H8|H8].
  - split.
    + split; [by rewrite length_insert; apply Hw1|]. apply Forall_insert_word; [done|apply Hw1].
    + f_equal. rewrite val256_insert by (rewrite length_insert; done). rewrite Hv1.
      rewrite nth_lookup, list_lookup_insert_ne, <- nth_lookup, zero256_nth by lia.
      replace (i + j + 1)%nat with (S (i + j)) by lia. cbn [base]. nia.
  - split; [done|]. rewrite Hv1.
    replace (nth j u 0 * nth i b 0) with s by done.
    replace (s * base (i + j)) with (s mod 2 ^ 32 * base (i + j) + (s / 2 ^ 32) * base 8).
    + by rewrite Z_mod_plus_full.
    + replace (i + j)%nat with 7%nat by lia.
      replace (base 8) with (2 ^ 32 * base 7) by done. rewrite Hdm at 3. ring.
Qed.

Lemma wf_add r u : wf256 r -> wf256 u -> wf256 (add256 r u) /\
  val256 (add256 r u) = (val256 r + val256 u) mod base 8.
Proof.
  intros [L1 W1] [L2 W2]. unfold add256. split.
  - split; [by rewrite length_add_words; congruence|apply add_words_word].
  - by rewrite add_words_val, L1 by (done || congruence || split; lia).
Qed.

Lemma mul_inner_val b u i js : forall r,
  Forall (is_word 32) b -> Forall (is_word 32) u -> wf256 r -> (i < 8)%nat ->
  let r' := fold_left (fun r j =>
      if (i + j <? 8)%nat then add256 r (mul_partial b u i j) else r) js r in
  wf256 r' /\
  val256 r' mod base 8 =
    (val256 r + nth i b 0 * base i * sum_with (fun j => nth j u 0 * base j) js) mod base 8.
Proof.
  induction js as [|j js IH]; intros r Hb Hu Hr Hi; cbn [fold_left]; rewrite ?sum_with_cons, ?sum_with_nil.
  - split; [exact Hr|]. by rewrite Z.mul_0_r, Z.add_0_r.
  - destruct (Nat.ltb_spec (i + j) 8) as [Hij|Hij].
    + destruct (mul_partial_val b u i j Hb Hu Hij) as [Hp Hpv].
      destruct (wf_add r _ Hr Hp) as [Ha Hav].
      destruct (IH (add256 r (mul_partial b u i j)) Hb Hu Ha Hi) as [W V].
      split; [exact W|]. cbv zeta in V. rewrite V, Hav, Zplus_mod_idemp_l.
      rewrite <- Zplus_mod_idemp_l, <- (Zplus_mod_idemp_r (val256 (mul_partial _ _ _ _))), Hpv.
      rewrite Zplus_mod_idemp_r, Zplus_mod_idemp_l, base_add. f_equal. ring.
    + destruct (IH r Hb Hu Hr Hi) as [W V]. split; [exact W|]. cbv zeta in V. rewrite V.
      rewrite Z.mul_add_distr_l.
      replace (nth i b 0 * base i * (nth j u 0 * base j))
        with (nth i b 0 * nth j u 0 * base (i + j - 8) * base 8).
      * rewrite <- (Z_mod_plus_full (val256 r + _) (nth i b 0 * nth j u 0 * base (i + j - 8))).
        f_equal. ring.
      * replace (nth i b 0 * base i * (nth j u 0 * base j))
          with (nth i b 0 * nth j u 0 * (base i * base j)) by ring.
        rewrite <- base_add. replace (base (i + j)) with (base (i + j - 8) * base 8); [ring|].
        rewrite <- base_add. f_equal. lia.
Qed.

Lemma mul_outer_val b u idx : forall r,
  Forall (is_word 32) b -> wf256 u -> wf256 r -> Forall (fun i => (i < 8)%nat) idx ->
  let r' := fold_left (fun r i => fold_left (fun r j =>
      if (i + j <? 8)%nat then add256 r (mul_partial b u i j) else r) (seq 0 8) r) idx r in
  wf256 r' /\
  val256 r' mod base 8 =
    (val256 r + sum_with (fun i => nth i b 0 * base i) idx * val256 u) mod base 8.
Proof.
  induction idx as [|i idx IH]; intros r Hb [Lu Wu] Hr Hi; cbn [fold_left]; rewrite ?sum_with_cons, ?sum_with_nil.
  - split; [exact Hr|]. by rewrite Z.mul_0_l, Z.add_0_r.
  - apply Forall_cons in Hi as [Hi Hidx].
    destruct (mul_inner_val b u i (seq 0 8) r Hb Wu Hr Hi) as [W V]. cbv zeta in W, V.
    destruct (IH _ Hb (conj Lu Wu) W Hidx) as [W' V']. split; [exact W'|].
    cbv zeta in V'. rewrite V', <- Zplus_mod_idemp_l, V, Zplus_mod_idemp_l.
    rewrite (val256_nth u), Lu. f_equal. ring.
Qed.

Lemma mul256_val b u :
  wf256 b -> wf256 u ->
  wf256 (mul256 b u) /\ val256 (mul256 b u) = (val256 b * val256 u) mod base 8.
Proof.
  intros [Lb Wb] Hu. unfold mul256.
  destruct (mul_outer_val b u (seq 0 8) zero256 Wb Hu zero256_wf) as [W V].
  { apply Forall_seq. lia. }
  split; [done|]. cbv zeta in V.
  rewrite <- (Z.mod_small (val256 _) (base 8)).
  - rewrite V. rewrite (val256_nth b), Lb. done.
  - destruct W as [L W]. rewrite <- L at 2. by apply val256_range.
Qed.

(** ** Bit lengths *)

Lemma high_bit_byte s :
  is_byte s -> max_non_zero_of_height_bits s = if s =? 0 then -1 else Z.log2 s.
Proof.
  intros Hs. unfold is_word in Hs.
  assert (Hall : forallb (fun s => max_non_zero_of_height_bits s =? (if s =? 0 then -1 else Z.log2 s))
                  (Z.of_nat <$> seq 0 256) = true) by (vm_compute; reflexivity).
  rewrite forallb_forall in Hall. apply Z.eqb_eq, Hall.
  apply list_elem_of_In, list_elem_of_fmap. exists (Z.to_nat s).
  split; [lia|]. apply elem_of_seq. lia.
Qed.

(** Masking a byte of a word tests that byte. *)
Lemma land_byte_mask w n :
  0 <= w -> 0 <= n -> Z.land w (Z.shiftl 0xff n) = Z.shiftl (Z.shiftr w n mod 256) n.
Proof.
  intros Hw Hn. change 256 with (2 ^ 8). rewrite <- Z.land_ones by lia.
  apply Z.bits_inj_iff'. intros i Hi.
  rewrite Z.land_spec, !Z.shiftl_spec by done.
  destruct (decide (i < n)).
  - rewrite !(Z.testbit_neg_r _ (i - n)) by lia. apply andb_false_r.
  - rewrite Z.land_spec, Z.shiftr_spec by lia. by replace (i - n + n) with i by lia.
Qed.

Lemma log2_byte w n :
  0 <= n -> 2 ^ n <= w < 2 ^ (n + 8) ->
  n + max_non_zero_of_height_bits (u8 (Z.shiftr w n)) = Z.log2 w.
Proof.
  intros Hn Hw. assert (Hb : 0 < Z.shiftr w n < 256).
  { rewrite Z.shiftr_div_pow2 by lia. split.
    - apply Z.div_str_pos. lia.
    - apply Z.div_lt_upper_bound; [lia|]. rewrite Z.mul_comm.
      rewrite Z.pow_add_r in Hw by lia. change (2 ^ 8) with 256 in Hw. lia. }
  rewrite wrap_small by (unfold is_word; lia). rewrite high_bit_byte by (unfold is_word; lia).
  destruct (Z.eqb_spec (Z.shiftr w n) 0); [lia|].
  rewrite Z.log2_shiftr by lia.
  pose proof (Z.log2_le_pow2 w n ltac:(lia)). lia.
Qed.

Lemma mask_zero w n :
  0 <= n -> 0 <= w < 2 ^ (n + 8) ->
  (Z.land w (Z.shiftl 0xff n) =? 0) = (w <? 2 ^ n).
Proof.
  intros Hn Hw. rewrite land_byte_mask by lia.
  rewrite Z.shiftr_div_pow2, Z.shiftl_mul_pow2 by lia.
  assert (0 < 2 ^ n) by lia.
  assert (Hd : 0 <= w / 2 ^ n < 256).
  { split; [apply Z.div_pos; lia|]. apply Z.div_lt_upper_bound; [lia|].
    rewrite Z.pow_add_r in Hw by lia. change (2 ^ 8) with 256 in Hw. lia. }
  rewrite Z.mod_small by lia.
  destruct (Z.ltb_spec w (2 ^ n)).
  - rewrite Z.div_small by lia. done.
  - assert (0 < w / 2 ^ n) by (apply Z.div_str_pos; lia). apply Z.eqb_neq. nia.
Qed.

Lemma word_high_bit_log2 w : 0 < w < 2 ^ 32 -> word_high_bit w = Z.log2 w.
Proof.
  intros Hw. unfold word_high_bit.
  change 0xff000000 with (Z.shiftl 0xff 24). change 0x00ff0000 with (Z.shiftl 0xff 16).
  change 0x0000ff00 with (Z.shiftl 0xff 8).
  rewrite (mask_zero w 24) by lia. destruct (Z.ltb_spec w (2 ^ 24)); [|apply (log2_byte w 24); lia].
  rewrite (mask_zero w 16) by lia. destruct (Z.ltb_spec w (2 ^ 16)); [|apply (log2_byte w 16); lia].
  rewrite (mask_zero w 8) by lia. destruct (Z.ltb_spec w (2 ^ 8)); [|apply (log2_byte w 8); lia].
  cbn [negb]. rewrite wrap_small by (unfold is_word; lia).
  rewrite high_bit_byte by (unfold is_word; lia). destruct (Z.eqb_spec w 0); lia.
Qed.

Lemma max_bit_from_val w :
  Forall (is_word 32) w ->
  max_bit_from (Z.of_nat (length w) - 1) w =
    if val256 (reverse w) =? 0 then -1 else Z.log2 (val256 (reverse w)).
Proof.
  induction 1 as [|x w Hx Hw IH]; [done|].
  cbn [max_bit_from length]. rewrite val256_reverse_cons.
  pose proof (val256_range (reverse w) ltac:(by apply Forall_reverse)) as R.
  rewrite length_reverse in R. unfold is_word in Hx.
  destruct (Z.eqb_spec x 0) as [->|Hne]; cbn [negb].
  - rewrite Z.mul_0_r, Z.add_0_r, <- IH. f_equal. lia.
  - destruct (Z.eqb_spec (val256 (reverse w) + base (length w) * x) 0); [nia|].
    rewrite word_high_bit_log2 by lia. rewrite base_pow in *.
    set (k := 32 * Z.of_nat (length w)) in *.
    replace ((Z.of_nat (S (length w)) - 1) * 32) with k by lia.
    symmetry. apply Z.log2_unique; [pose proof (Z.log2_nonneg x); lia|].
    pose proof (Z.log2_spec x ltac:(lia)) as [L1 L2]. pose proof (Z.log2_nonneg x).
    replace (Z.succ (k + Z.log2 x)) with (k + Z.succ (Z.log2 x)) by lia.
    rewrite !Z.pow_add_r by lia. split; nia.
Qed.

Lemma max_non_zero_bit_val b :
  wf256 b ->
  max_non_zero_bit b = if val256 b =? 0 then -1 else Z.log2 (val256 b).
Proof.
  intros [L W]. unfold max_non_zero_bit.
  pose proof (max_bit_from_val (reverse b) ltac:(by apply Forall_reverse)) as H.
  by rewrite length_reverse, L, reverse_involutive in H.
Qed.

(** ** Division *)

Lemma wf_sub r u : wf256 r -> wf256 u -> wf256 (sub256 r u) /\
  val256 (sub256 r u) = (val256 r - val256 u) mod base 8.
Proof.
  intros [L1 W1] [L2 W2]. split; [split|].
  - by rewrite length_sub; congruence.
  - apply sub_word.
  - by rewrite sub_val, L1 by (done || congruence).
Qed.

Lemma wf_range b : wf256 b -> 0 <= val256 b < base 8.
Proof. intros [L W]. rewrite <- L. by apply val256_range. Qed.

Lemma wf_rshift b : wf256 b -> wf256 (rshift256 b) /\ val256 (rshift256 b) = val256 b / 2.
Proof.
  intros [L W]. split; [split|by apply rshift256_val].
  - by rewrite length_rshift256.
  - by apply rshift256_word.
Qed.

Lemma wf_lt a b : wf256 a -> wf256 b -> lt256 a b = (val256 a <? val256 b).
Proof. intros [L1 W1] [L2 W2]. by rewrite lt256_val by (done || congruence). Qed.

(** One iteration: subtract [d] when it is not larger. *)
Lemma reduce_step d r :
  wf256 d -> wf256 r ->
  let r' := if negb (lt256 r d) then sub256 r d else r in
  wf256 r' /\ val256 r' = if val256 r <? val256 d then val256 r else val256 r - val256 d.
Proof.
  intros Hd Hr. cbv zeta. rewrite wf_lt by done. destruct (Z.ltb_spec (val256 r) (val256 d)).
  - done.
  - cbn. destruct (wf_sub r d Hr Hd) as [W V]. split; [done|]. rewrite V.
    apply Z.mod_small. pose proof (wf_range r Hr). pose proof (wf_range d Hd). lia.
Qed.

Lemma pow2_S k : 2 ^ Z.of_nat (S k) = 2 * 2 ^ Z.of_nat k.
Proof. rewrite Nat2Z.inj_succ, Z.pow_succ_r by lia. done. Qed.

Lemma halve_multiple P k : (P * 2 ^ Z.of_nat (S k)) / 2 = P * 2 ^ Z.of_nat k.
Proof. rewrite pow2_S. replace (P * (2 * _)) with (P * 2 ^ Z.of_nat k * 2) by lia. by apply Z.div_mul. Qed.

Lemma remainder_loop_val P k : forall d r,
  0 < P -> wf256 d -> wf256 r ->
  match k with O => True | S k => val256 d = P * 2 ^ Z.of_nat k end ->
  val256 r < P * 2 ^ Z.of_nat k ->
  wf256 (remainder_loop k d r) /\ val256 (remainder_loop k d r) = val256 r mod P.
Proof.
  induction k as [|k IH]; intros d r HP Hd Hr Hdv Hrv.
  - cbn. split; [done|]. symmetry. apply Z.mod_small. pose proof (wf_range r Hr).
    change (2 ^ Z.of_nat 0) with 1 in Hrv. lia.
  - cbn [remainder_loop]. destruct (reduce_step d r Hd Hr) as [W V]. cbv zeta in W, V.
    destruct (wf_rshift d Hd) as [Wd Vd]. rewrite pow2_S in Hrv.
    destruct (IH (rshift256 d) _ HP Wd W) as [W' V'].
    + destruct k as [|k]; [done|]. by rewrite Vd, Hdv, halve_multiple.
    + rewrite V. destruct (Z.ltb_spec (val256 r) (val256 d)); lia.
    + split; [done|]. rewrite V', V.
      destruct (Z.ltb_spec (val256 r) (val256 d)); [done|]. rewrite Hdv.
      replace (val256 r - P * 2 ^ Z.of_nat k) with (val256 r + (- 2 ^ Z.of_nat k) * P) by lia.
      apply Z_mod_plus_full.
Qed.

(** The divisor brought under the dividend's highest bit. *)
Section aligned.
Context (n p : list Z) (Hn : wf256 n) (Hp : wf256 p) (Hp0 : 0 < val256 p).
Let bmax : Z := max_non_zero_bit n - max_non_zero_bit p.

Lemma aligned_neg : bmax < 0 -> val256 n < val256 p.
Proof.
  unfold bmax. rewrite !max_non_zero_bit_val by done. pose proof (wf_range n Hn).
  destruct (Z.eqb_spec (val256 p) 0); [lia|]. destruct (Z.eqb_spec (val256 n) 0); [lia|].
  intros Hb. apply Z.log2_lt_cancel. lia.
Qed.

Lemma aligned_pos : 0 <= bmax ->
  bmax < 256 /\ wf256 (lshift_n (u32 bmax) p) /\
  val256 (lshift_n (u32 bmax) p) = val256 p * 2 ^ bmax /\
  val256 n < val256 p * 2 ^ (bmax + 1).
Proof.
  intros Hb. pose proof (wf_range n Hn) as Rn. pose proof (wf_range p Hp) as Rp.
  unfold bmax in *. rewrite !max_non_zero_bit_val in * by done.
  destruct (Z.eqb_spec (val256 p) 0); [lia|].
  pose proof (Z.log2_nonneg (val256 p)).
  destruct (Z.eqb_spec (val256 n) 0) as [E|]; [lia|].
  set (k := Z.log2 (val256 n) - Z.log2 (val256 p)) in *.
  pose proof (Z.log2_spec (val256 n) ltac:(lia)) as [Ln1 Ln2].
  pose proof (Z.log2_spec (val256 p) ltac:(lia)) as [Lp1 Lp2].
  assert (Hl : Z.log2 (val256 n) < 256) by (apply Z.log2_lt_pow2; [lia|]; apply Rn).
  split; [lia|]. rewrite wrap_small by (unfold is_word; lia).
  destruct Hp as [Lp Wp]. destruct (lshift_n_val k p Hb Wp) as (V & L & W).
  rewrite Lp in *. split; [done|].
  assert (Hfit : val256 p * 2 ^ k < base 8).
  { apply Z.lt_le_trans with (2 ^ Z.succ (Z.log2 (val256 p)) * 2 ^ k).
    - apply Z.mul_lt_mono_pos_r; lia.
    - rewrite <- Z.pow_add_r, base_pow by lia. apply Z.pow_le_mono_r; lia. }
  split.
  - rewrite V. apply Z.mod_small. nia.
  - eapply Z.lt_le_trans; [exact Ln2|].
    replace (Z.succ (Z.log2 (val256 n))) with (Z.log2 (val256 p) + (k + 1)) by lia.
    rewrite Z.pow_add_r by lia. apply Z.mul_le_mono_nonneg_r; lia.
Qed.

End aligned.

Lemma remainder_val n p :
  wf256 n -> wf256 p -> 0 < val256 p ->
  wf256 (remainder n p) /\ val256 (remainder n p) = val256 n mod val256 p.
Proof.
  intros Hn Hp Hp0. unfold remainder. set (bmax := _ - _).
  destruct (decide (bmax < 0)) as [Hb|Hb].
  - replace (Z.to_nat (bmax + 1)) with O by lia. cbn. split; [done|].
    symmetry. apply Z.mod_small. split; [by apply wf_range|]. by apply aligned_neg.
  - destruct (aligned_pos n p Hn Hp Hp0 ltac:(unfold bmax in *; lia)) as (_ & W & V & Hlt).
    fold bmax in W, V, Hlt.
    replace (Z.to_nat (bmax + 1)) with (S (Z.to_nat bmax)) by lia.
    apply remainder_loop_val; try done.
    + by rewrite Z2Nat.id by lia.
    + by rewrite Nat2Z.inj_succ, Z2Nat.id by lia.
Qed.

Lemma quotient_loop_val P k : forall d m q r,
  0 < P -> wf256 d -> wf256 m -> wf256 q -> wf256 r ->
  match k with O => True | S k => val256 d = P * 2 ^ Z.of_nat k /\ val256 m = 2 ^ Z.of_nat k end ->
  val256 r < P * 2 ^ Z.of_nat k ->
  val256 q + val256 r / P < base 8 ->
  wf256 (quotient_loop k d m q r).1 /\ wf256 (quotient_loop k d m q r).2 /\
  val256 (quotient_loop k d m q r).1 = val256 q + val256 r / P /\
  val256 (quotient_loop k d m q r).2 = val256 r mod P.
Proof.
  induction k as [|k IH]; intros d m q r HP Hd Hm Hq Hr Hdv Hrv Hfit.
  - cbn. change (2 ^ Z.of_nat 0) with 1 in Hrv. pose proof (wf_range r Hr).
    rewrite Z.div_small, Z.mod_small by lia. repeat split; try apply Hq; try apply Hr. lia.
  - destruct Hdv as [Hdv Hmv]. cbn [quotient_loop]. rewrite wf_lt by done.
    destruct (wf_rshift d Hd) as [Wd Vd]. destruct (wf_rshift m Hm) as [Wm Vm].
    rewrite pow2_S in Hrv.
    assert (Hnext : match k with O => True | S k =>
       val256 (rshift256 d) = P * 2 ^ Z.of_nat k /\ val256 (rshift256 m) = 2 ^ Z.of_nat k end).
    { destruct k as [|k]; [done|]. rewrite Vd, Vm, Hdv, Hmv, halve_multiple. split; [done|].
      rewrite <- (Z.mul_1_l (2 ^ Z.of_nat (S k))). by rewrite halve_multiple, Z.mul_1_l. }
    destruct (Z.ltb_spec (val256 r) (val256 d)) as [Hlt|Hge]; cbn [negb].
    + by apply IH; try done; lia.
    + destruct (wf_sub r d Hr Hd) as [Wr Vr]. destruct (wf_add q m Hq Hm) as [Wq Vq].
      pose proof (wf_range r Hr). pose proof (wf_range d Hd). pose proof (wf_range q Hq).
      pose proof (wf_range m Hm). rewrite Z.mod_small in Vr by lia.
      assert (Hdiv : val256 r / P = 2 ^ Z.of_nat k + (val256 r - val256 d) / P).
      { rewrite Hdv. replace (val256 r) with ((val256 r - P * 2 ^ Z.of_nat k) + 2 ^ Z.of_nat k * P) at 1 by lia.
        rewrite Z.div_add by lia. lia. }
      assert (0 <= (val256 r - val256 d) / P) by (apply Z.div_pos; lia).
      rewrite Z.mod_small in Vq by lia.
      destruct (IH (rshift256 d) (rshift256 m) _ _ HP Wd Wm Wq Wr Hnext) as (A & B & C & D).
      * lia.
      * rewrite Vq, Vr. lia.
      * split; [done|]. split; [done|]. rewrite C, D, Vq, Vr. split; [lia|].
        rewrite Hdv. replace (val256 r - P * 2 ^ Z.of_nat k)
          with (val256 r + (- 2 ^ Z.of_nat k) * P) by lia. apply Z_mod_plus_full.
Qed.

Lemma bit256_val k :
  0 <= k < 256 ->
  wf256 (<[Z.to_nat (k / 32) := Z.shiftl 1 (k mod 32)]> zero256) /\
  val256 (<[Z.to_nat (k / 32) := Z.shiftl 1 (k mod 32)]> zero256) = 2 ^ k.
Proof.
  intros Hk. pose proof (Z.mod_pos_bound k 32 ltac:(lia)).
  assert (Hq : 0 <= k / 32 < 8) by (split; [apply Z.div_pos; lia|apply Z.div_lt_upper_bound; lia]).
  rewrite Z.shiftl_1_l. split.
  - split; [by rewrite length_insert|]. apply Forall_insert_word; [|apply zero256_wf].
    split; [lia|]. apply Z.pow_lt_mono_r; lia.
  - rewrite val256_insert, zero256_nth by (cbn; lia). change (val256 zero256) with 0.
    rewrite base_pow, Z2Nat.id, Z.sub_0_r, Z.add_0_l, <- Z.pow_add_r by lia.
    f_equal. pose proof (Z.div_mod k 32 ltac:(lia)). lia.
Qed.

Lemma lshift1_words_bits b : forall r,
  lshift1_words r b = lshift_bits 1 r b.
Proof.
  induction b as [|x b IH]; intros r; [done|]. cbn [lshift1_words lshift_bits].
  rewrite land_word by (by apply wrap_is_word). by rewrite IH.
Qed.

Lemma eq256_spec a b : length a = length b -> eq256 a b = bool_decide (a = b).
Proof.
  unfold eq256. revert b. induction a as [|x a IH]; intros [|y b] Hl; try done.
  cbn. rewrite IH by (by injection Hl).
  destruct (Z.eqb_spec x y) as [->|Hne]; cbn.
  - apply bool_decide_ext. split; congruence.
  - symmetry. apply bool_decide_eq_false. congruence.
Qed.

(** ** Properties *)

(** C40 The eight-word arithmetic of [uint256_32] is arithmetic modulo 2^256:
    every operator returns eight 32-bit words whose value is that of the
    corresponding operation on integers, carries and borrows included. *)
Theorem uint256_refines_Z (a b : list Z) (n : Z)
    (Ha : wf256 a) (Hb : wf256 b) (Hn : 0 <= n) :
  (wf256 (add256 a b) /\ val256 (add256 a b) = (val256 a + val256 b) mod 2 ^ 256) /\
  (wf256 (sub256 a b) /\ val256 (sub256 a b) = (val256 a - val256 b) mod 2 ^ 256) /\
  (wf256 (mul256 a b) /\ val256 (mul256 a b) = (val256 a * val256 b) mod 2 ^ 256) /\
  (wf256 (incr256 a) /\ val256 (incr256 a) = (val256 a + 1) mod 2 ^ 256) /\
  (wf256 (not256 a) /\ val256 (not256 a) = 2 ^ 256 - 1 - val256 a) /\
  (wf256 (lshift_n n a) /\ val256 (lshift_n n a) = (val256 a * 2 ^ n) mod 2 ^ 256) /\
  (wf256 (lshift1 a) /\ val256 (lshift1 a) = (2 * val256 a) mod 2 ^ 256) /\
  (wf256 (rshift256 a) /\ val256 (rshift256 a) = val256 a / 2) /\
  lt256 a b = (val256 a <? val256 b) /\
  (eq256 a b = true <-> val256 a = val256 b).
Proof.
  change (2 ^ 256) with (base 8).
  pose proof Ha as [La Wa]. pose proof Hb as [Lb Wb].
  split; [by apply wf_add|]. split; [by apply wf_sub|]. split; [by apply mul256_val|].
  split; [|split; [|split; [|split; [|split; [|split]]]]].
  - split; [split; [by rewrite length_incr|by apply incr_word]|]. by rewrite incr_val, La.
  - split; [split; [unfold not256; by rewrite length_fmap|apply not_word]|]. by rewrite not_val, La.
  - destruct (lshift_n_val n a Hn Wa) as (V & L & W). rewrite La in *. by split.
  - unfold lshift1. rewrite lshift1_words_bits. split; [split|].
    + by rewrite length_lshift_bits.
    + apply lshift_bits_word.
    + rewrite lshift_bits_val by (done || lia). rewrite La, Z.add_0_r. f_equal. lia.
  - by apply wf_rshift.
  - by apply wf_lt.
  - rewrite eq256_spec, bool_decide_eq_true by congruence. split; [by intros ->|].
    intros Hv. apply val256_inj; congruence.
Qed.

Definition sample_a : list Z := mk256 1 0xffffffff 0 3 0xffffffff 0xfffffffe 7 0xffffffff.
Definition sample_b : list Z := mk256 0 0xffffffff 5 0 0xffffffff 2 0xffffffff 0x80000001.

Lemma sample_a_wf : wf256 sample_a.
Proof. split; [done|]. repeat constructor; unfold is_word; lia. Qed.

Lemma sample_b_wf : wf256 sample_b.
Proof. split; [done|]. repeat constructor; unfold is_word; lia. Qed.

Lemma uint256_refines_Z_witness :
  wf256 (mul256 sample_a sample_b) /\
  val256 (mul256 sample_a sample_b) = (val256 sample_a * val256 sample_b) mod 2 ^ 256.
Proof.
  destruct (uint256_refines_Z sample_a sample_b 77 sample_a_wf sample_b_wf ltac:(lia))
    as (_ & _ & H & _).
  exact H.
Defined.

(** [remainder] is the remainder of the division for every dividend and every
    non-zero divisor, and [quotient] returns quotient and remainder of the division
    exactly when the dividend has at least as many bits as the divisor; with fewer
    bits it indexes and shifts by a negative amount, which C leaves undefined. *)
Theorem uint256_division (n p : list Z)
    (Hn : wf256 n) (Hp : wf256 p) (Hp0 : 0 < val256 p) :
  (wf256 (remainder n p) /\ val256 (remainder n p) = val256 n mod val256 p) /\
  (match quotient n p with
   | Some (q, r) =>
       Z.log2 (val256 p) <= Z.log2 (val256 n) /\ wf256 q /\ wf256 r /\
       val256 q = val256 n / val256 p /\ val256 r = val256 n mod val256 p
   | None => val256 n < val256 p
   end).
Proof.
  split; [by apply remainder_val|]. unfold quotient. set (bmax := _ - _).
  destruct (Z.ltb_spec bmax 0); [by apply aligned_neg|].
  destruct (aligned_pos n p Hn Hp Hp0 ltac:(done)) as (Hb & W & V & Hlt). fold bmax in Hb, W, V, Hlt.
  destruct (bit256_val bmax ltac:(lia)) as [Wm Vm].
  replace (Z.to_nat (bmax + 1)) with (S (Z.to_nat bmax)) by lia.
  destruct (quotient_loop_val (val256 p) (S (Z.to_nat bmax)) (lshift_n (u32 bmax) p)
              (<[Z.to_nat (bmax / 32) := Z.shiftl 1 (bmax mod 32)]> zero256) zero256 n)
    as (A & B & C & D); try done.
  - apply zero256_wf.
  - by rewrite Z2Nat.id by lia.
  - by rewrite Nat2Z.inj_succ, Z2Nat.id by lia.
  - change (val256 zero256) with 0. pose proof (wf_range n Hn).
    pose proof (Z.div_le_upper_bound (val256 n) (val256 p) (val256 n) ltac:(lia) ltac:(nia)). lia.
  - destruct (quotient_loop _ _ _ _ _) as [q r]. cbn in *. split; [|done].
    unfold bmax in *. rewrite !max_non_zero_bit_val in * by done.
    destruct (Z.eqb_spec (val256 p) 0); [lia|].
    destruct (Z.eqb_spec (val256 n) 0) as [E|]; [|lia].
    pose proof (Z.log2_nonneg (val256 p)). lia.
Qed.

Lemma uint256_division_witness :
  wf256 (remainder sample_a sample_b) /\
  val256 (remainder sample_a sample_b) = val256 sample_a mod val256 sample_b.
Proof.
  destruct (uint256_division sample_a sample_b sample_a_wf sample_b_wf
              ltac:(vm_compute; reflexivity)) as [H _].
  exact H.
Defined.
