(* ===== verification/ChaCha20.v ===== *)
(** * ChaCha20, Poly1305 and the AEAD constructions: src/crypto/chacha20.cpp

    The cipher state is the list of its sixteen 32-bit words; keys, nonces, data
    and tags are lists of bytes, with the length arguments of the C functions
    explicit.  [CRYPTO_memcmp] and HMAC-SHA256 are OpenSSL's and stay parameters of
    the section [aead]; the build modelled is the one that uses the functions of
    this file ([chacha20_encrypt_rs], [AEAD_chacha20_poly1305_rs]) rather than
    OpenSSL's EVP interface. *)

From S2P Require Import Prelude U256.
From Stdlib Require Import ZArith Lia.
From stdpp Require Import base list sets strings.
Open Scope Z_scope.

(** ** The block function *)

(** [x = (x << n) | (x >> (-n & 31))] *)
Definition rotl (x n : Z) : Z :=
  Z.lor (u32 (Z.shiftl x n)) (Z.shiftr x (Z.land (- n) 31)).

(** Four bytes, least significant first, starting at [i]. *)
Definition word_at (bs : list Z) (i : nat) : Z :=
  u32 (nth i bs 0 + u32 (Z.shiftl (nth (i + 1) bs 0) 8) + u32 (Z.shiftl (nth (i + 2) bs 0) 16)
       + u32 (Z.shiftl (nth (i + 3) bs 0) 24)).

Definition chacha20_state (key : list Z) (block_counter : Z) (nounce : list Z) : list Z :=
  [0x61707865; 0x3320646e; 0x79622d32; 0x6b206574;
   word_at key 0; word_at key 4; word_at key 8; word_at key 12;
   word_at key 16; word_at key 20; word_at key 24; word_at key 28;
   block_counter;
   word_at nounce 0; word_at nounce 4; word_at nounce 8].

Definition quarter_round (a b c d : Z) : Z * Z * Z * Z :=
  let a := u32 (a + b) in let d := rotl (Z.lxor d a) 16 in
  let c := u32 (c + d) in let b := rotl (Z.lxor b c) 12 in
  let a := u32 (a + b) in let d := rotl (Z.lxor d a) 8 in
  let c := u32 (c + d) in let b := rotl (Z.lxor b c) 7 in
  (a, b, c, d).

(** [quarter_round(s.c[i], s.c[j], s.c[k], s.c[l])]: four references into the state. *)
Definition quarter_round_at (s : list Z) (ix : nat * nat * nat * nat) : list Z :=
  let '(i, j, k, l) := ix in
  let '(a, b, c, d) := quarter_round (nth i s 0) (nth j s 0) (nth k s 0) (nth l s 0) in
  <[l := d]> (<[k := c]> (<[j := b]> (<[i := a]> s))).

Definition double_round_indices : list (nat * nat * nat * nat) :=
  [(0, 4, 8, 12); (1, 5, 9, 13); (2, 6, 10, 14); (3, 7, 11, 15);
   (0, 5, 10, 15); (1, 6, 11, 12); (2, 7, 8, 13); (3, 4, 9, 14)]%nat.

Definition add_state (s t : list Z) : list Z := zip_with (fun x y => u32 (x + y)) s t.

Definition apply_20_rounds (s : list Z) : list Z :=
  add_state (Nat.iter 10 (fun s => fold_left quarter_round_at double_round_indices s) s) s.

(** ** Encryption *)

(** [uint8_t((s.c[k/4] >> (8*(k%4))) & 0xff)] *)
Definition keystream_byte (s : list Z) (k : nat) : Z :=
  u8 (Z.land (Z.shiftr (nth (k / 4) s 0) (8 * Z.of_nat (k mod 4))) 0xff).

(** The body of the loop over blocks. *)
Definition encrypt_block (key : list Z) (block_counter : Z) (nonce : list Z) (size : Z)
    (data : list Z) (i : nat) : list Z :=
  let s := apply_20_rounds (chacha20_state key (u32 (block_counter + Z.of_nat i)) nonce) in
  fold_left (fun data k =>
    let pos := u32 (Z.of_nat k + u32 (64 * Z.of_nat i)) in
    if pos <? size
    then alter (fun x => Z.lxor x (keystream_byte s k)) (Z.to_nat pos) data
    else data) (seq 0 64) data.

Definition chacha20_encrypt_rs (key : list Z) (block_counter : Z) (nonce data : list Z) (size : Z)
    : list Z :=
  fold_left (encrypt_block key block_counter nonce size)
    (seq 0 (Z.to_nat (size / 64 + 1))) data.

(** ** Poly1305 *)

Record poly1305_state := mk_poly { pr : list Z; ps : list Z; pp : list Z; pa : list Z }.

Definition poly1305_init (key : list Z) : poly1305_state :=
  mk_poly
    (poly1305clamp (mk256 0 0 0 0 (word_at key 12) (word_at key 8) (word_at key 4) (word_at key 0)))
    (mk256 0 0 0 0 (word_at key 28) (word_at key 24) (word_at key 20) (word_at key 16))
    (mk256 0 0 0 0x3 0xffffffff 0xffffffff 0xffffffff 0xfffffffb)
    zero256.

(** The loop that packs up to 16 bytes into words; returns the final [j] too. *)
Definition pack_block (bytes : list Z) : nat * list Z :=
  fold_left (fun '(j, block) m =>
      (S j, alter (fun w => u32 (w + u64 (Z.shiftl m (8 * Z.of_nat (j mod 4))))) (j / 4)%nat block))
    bytes (O, zero256).

(** The block of the message bytes [bytes] with the marker bit appended, either
    after the last byte or, with [pad_to_16_bytes], at bit 128. *)
Definition message_block (bytes : list Z) (pad_to_16_bytes : bool) : list Z :=
  let '(j, block) := pack_block bytes in
  if pad_to_16_bytes
  then alter (fun w => u32 (w + 1)) 4%nat block
  else alter (fun w => u32 (w + u32 (Z.shiftl 1 (8 * Z.of_nat (j mod 4))))) (j / 4)%nat block.

(** One iteration: absorb the block and reduce. *)
Definition poly1305_absorb (s : poly1305_state) (block : list Z) : poly1305_state :=
  let a := add256 (pa s) block in
  let a := mul256 a (pr s) in
  mk_poly (pr s) (ps s) (pp s) (remainder a (pp s)).

Definition poly1305_add (s : poly1305_state) (message : list Z) (size : Z) (pad_to_16_bytes : bool)
    : poly1305_state :=
  fold_left (fun s i =>
      poly1305_absorb s
        (message_block (take 16 (drop (i * 16) (take (Z.to_nat size) message))) pad_to_16_bytes))
    (seq 0 (Z.to_nat (u32 (size + 15) / 16))) s.

Definition word_bytes (w : Z) : list Z :=
  [Z.land (Z.shiftr w 0) 0xff; Z.land (Z.shiftr w 8) 0xff;
   Z.land (Z.shiftr w 16) 0xff; Z.land (Z.shiftr w 24) 0xff].

Definition poly1305_finish (s : poly1305_state) : list Z :=
  let a := add256 (pa s) (ps s) in
  word_bytes (nth 0 a 0) ++ word_bytes (nth 1 a 0) ++ word_bytes (nth 2 a 0) ++ word_bytes (nth 3 a 0).

Definition poly1305_tag (key message : list Z) (size : Z) : list Z :=
  poly1305_finish (poly1305_add (poly1305_init key) message size false).

Definition poly1305_key_gen (key nonce : list Z) : list Z :=
  let s := apply_20_rounds (chacha20_state key 0 nonce) in
  flat_map (fun k => word_bytes (nth k s 0)) (seq 0 8).

(** ** Authenticated encryption *)

Definition lengths_vector (aad_size data_size : Z) : list Z :=
  word_bytes aad_size ++ [0; 0; 0; 0] ++ word_bytes data_size ++ [0; 0; 0; 0].

(** The tag of [AEAD_chacha20_poly1305_rs] over the cipher text, computed the same
    way by both branches. *)
Definition aead_poly1305 (session_key data : list Z) (data_size : Z) (aad : list Z) (aad_size : Z)
    : list Z :=
  let pls := poly1305_init session_key in
  let pls := poly1305_add pls aad aad_size true in
  let pls := poly1305_add pls data data_size true in
  let pls := poly1305_add pls (lengths_vector aad_size data_size) 16 true in
  poly1305_finish pls.

Section aead.
(** OpenSSL's constant-time comparison of [n] bytes: 0 when they are equal. *)
Context (CRYPTO_memcmp : list Z -> list Z -> Z -> Z).
(** OpenSSL's HMAC-SHA256 of the concatenated updates under a 32-byte key. *)
Context (HMAC_SHA256 : list Z -> list Z -> list Z).

Definition constant_time_memory_compare (m1 m2 : list Z) (size : Z) : bool :=
  CRYPTO_memcmp m1 m2 size =? 0.

(** Returns the data buffer, the tag buffer and the boolean. *)
Definition AEAD_chacha20_poly1305_rs (key nonce data : list Z) (data_size : Z)
    (aad : list Z) (aad_size : Z) (tag : list Z) (encrypt : bool) : list Z * list Z * bool :=
  let session_key := poly1305_key_gen key nonce in
  if encrypt then
    let data := chacha20_encrypt_rs key 1 nonce data data_size in
    (data, aead_poly1305 session_key data data_size aad aad_size, true)
  else
    let computed_tag := aead_poly1305 session_key data data_size aad aad_size in
    let data := chacha20_encrypt_rs key 1 nonce data data_size in
    (data, tag, constant_time_memory_compare tag computed_tag 16).

Definition AEAD_chacha20_sha256 (key nonce data : list Z) (data_size : Z)
    (aad : list Z) (aad_size : Z) (tag : list Z) (encrypt : bool) : list Z * list Z * bool :=
  let hmac data := HMAC_SHA256 (take 32 key)
                     (take (Z.to_nat aad_size) aad ++ take (Z.to_nat data_size) data) in
  if encrypt then
    let data := chacha20_encrypt_rs key 1 nonce data data_size in
    (data, take 16 (hmac data), true)
  else
    let computed_tag := hmac data in
    let data := chacha20_encrypt_rs key 1 nonce data data_size in
    (data, tag, constant_time_memory_compare tag computed_tag 16).

End aead.

(** ** The self-test vectors of [perform_tests] *)

Definition ascii_bytes (s : String.string) : list Z :=
  (fun a => Z.of_nat (Ascii.nat_of_ascii a)) <$> String.list_ascii_of_string s.

Example quarter_round_rfc7539_2_1_1 :
  quarter_round 0x11111111 0x01020304 0x9b8d6f43 0x01234567
  = (0xea2a92f4, 0xcb1cf8ce, 0x4581472e, 0x5881c4bb).
Proof. vm_compute. reflexivity. Qed.

Definition test_key : list Z := Z.of_nat <$> seq 0 32.

Example block_rfc7539_2_3_2 :
  apply_20_rounds (chacha20_state test_key 1 [0; 0; 0; 9; 0; 0; 0; 0x4a; 0; 0; 0; 0])
  = [0xe4e7f110; 0x15593bd1; 0x1fdd0f50; 0xc47120a3; 0xc7f4d1c7; 0x0368c033; 0x9aaa2204; 0x4e6cd4c3;
     0x466482d2; 0x09aa9f07; 0x05d7c214; 0xa2028bd9; 0xd19c12b5; 0xb94e16de; 0xe883d0cb; 0x4e3c50a2].
Proof. vm_compute. reflexivity. Qed.

Definition test_nonce : list Z := [0; 0; 0; 0; 0; 0; 0; 0x4a; 0; 0; 0; 0].

Definition test_plaintext : list Z := ascii_bytes
  "Ladies and Gentlemen of the class of '99: If I could offer you only one tip for the future, sunscreen would be it.".

Example encrypt_rfc7539_2_4_2 :
  take 16 (chacha20_encrypt_rs test_key 1 test_nonce test_plaintext 114)
  = [0x6e; 0x2e; 0x35; 0x9a; 0x25; 0x68; 0xf9; 0x80; 0x41; 0xba; 0x07; 0x28; 0xdd; 0x0d; 0x69; 0x81].
Proof. vm_compute. reflexivity. Qed.

Example poly1305_rfc7539_2_5 :
  poly1305_tag
    [0x85; 0xd6; 0xbe; 0x78; 0x57; 0x55; 0x6d; 0x33; 0x7f; 0x44; 0x52; 0xfe; 0x42; 0xd5; 0x06; 0xa8;
     0x01; 0x03; 0x80; 0x8a; 0xfb; 0x0d; 0xb2; 0xfd; 0x4a; 0xbf; 0xf6; 0xaf; 0x41; 0x49; 0xf5; 0x1b]
    (ascii_bytes "Cryptographic Forum Research Group") 34
  = [0xa8; 0x06; 0x1d; 0xc1; 0x30; 0x51; 0x36; 0xc6; 0xc2; 0x2b; 0x8b; 0xaf; 0x0c; 0x01; 0x27; 0xa9].
Proof. vm_compute. reflexivity. Qed.

(** ** The key stream *)

(** The byte of key stream that position [j] of the data is xored with. *)
Definition keystream (key : list Z) (block_counter : Z) (nonce : list Z) (j : nat) : Z :=
  keystream_byte
    (apply_20_rounds (chacha20_state key (u32 (block_counter + Z.of_nat (j / 64))) nonce))
    (j mod 64).

Lemma xor_positions s base size (data : list Z) (ks : list nat) : forall j,
  NoDup ks -> (forall k, k ∈ ks -> (k < 64)%nat) -> 0 <= base -> base + 63 < 2 ^ 32 ->
  fold_left (fun data k =>
    let pos := u32 (Z.of_nat k + base) in
    if pos <? size
    then alter (fun x => Z.lxor x (keystream_byte s k)) (Z.to_nat pos) data
    else data) ks data !! j
  = if decide ((Z.to_nat base <= j)%nat /\ (j - Z.to_nat base)%nat ∈ ks /\ Z.of_nat j < size)
    then (fun x => Z.lxor x (keystream_byte s (j - Z.to_nat base))) <$> data !! j
    else data !! j.
Proof.
  revert data. induction ks as [|k ks IH]; intros data j Hnd Hlt Hb0 Hb.
  - cbn [fold_left]. rewrite decide_False; [done|]. intros (_ & H & _). by apply not_elem_of_nil in H.
  - apply NoDup_cons in Hnd as [Hk Hnd].
    pose proof (Hlt k ltac:(set_solver)) as Hk64.
    cbn [fold_left]. cbv zeta. rewrite IH by (done || set_solver || lia).
    rewrite (wrap_small 32) by (unfold is_word; lia).
    destruct (decide (j = Z.to_nat base + k)%nat) as [->|Hne].
    + replace (Z.to_nat base + k - Z.to_nat base)%nat with k by lia.
      rewrite decide_False by (intros (_ & H & _); done).
      destruct (Z.ltb_spec (Z.of_nat k + base) size).
      * rewrite decide_True by (split; [lia|]; split; [set_solver|lia]).
        replace (Z.to_nat (Z.of_nat k + base)) with (Z.to_nat base + k)%nat by lia.
        by rewrite list_lookup_alter_eq.
      * rewrite decide_False; [done|]. intros (_ & _ & H'). lia.
    + replace ((if Z.of_nat k + base <? size then _ else _) !! j) with (data !! j).
      * apply decide_ext. split; intros (H1 & H2 & H3); (split; [done|]; split; [|done]).
        -- set_solver.
        -- apply elem_of_cons in H2 as [H2|H2]; [lia|done].
      * destruct (_ <? size); [|done]. by rewrite list_lookup_alter_ne by lia.
Qed.

Lemma encrypt_block_lookup key ctr nonce size data i j :
  0 <= size < 2 ^ 32 -> Z.of_nat i <= size / 64 ->
  encrypt_block key ctr nonce size data i !! j =
    if decide ((j / 64 = i)%nat /\ Z.of_nat j < size)
    then (fun x => Z.lxor x (keystream key ctr nonce j)) <$> data !! j else data !! j.
Proof.
  intros Hs Hi. unfold encrypt_block.
  assert (Hb : 64 * Z.of_nat i + 63 < 2 ^ 32).
  { pose proof (Z.mul_div_le size 64 ltac:(lia)). pose proof (Z.div_le_mono size (2 ^ 32 - 1) 64).
    change ((2 ^ 32 - 1) / 64) with 67108863 in *. lia. }
  rewrite (wrap_small 32 (64 * Z.of_nat i)) by (unfold is_word; lia).
  rewrite xor_positions; [|apply NoDup_seq|intros k Hk; apply elem_of_seq in Hk; lia|lia|lia].
  replace (Z.to_nat (64 * Z.of_nat i)) with (64 * i)%nat by lia.
  destruct (decide (j / 64 = i)%nat) as [<-|Hne].
  - pose proof (Nat.div_mod_eq j 64). pose proof (Nat.mod_upper_bound j 64 ltac:(lia)).
    replace (j - 64 * (j / 64))%nat with (j mod 64)%nat by lia.
    apply decide_ext. rewrite elem_of_seq. split; intros; repeat split; lia.
  - rewrite decide_False, decide_False; [done|by intros [? _]|].
    intros (H1 & H2 & _). apply elem_of_seq in H2. apply Hne.
    symmetry. apply (Nat.div_unique j 64 i (j - 64 * i)); lia.
Qed.

Lemma encrypt_blocks_lookup key ctr nonce size n : forall data j,
  0 <= size < 2 ^ 32 -> Z.of_nat n <= size / 64 + 1 ->
  fold_left (encrypt_block key ctr nonce size) (seq 0 n) data !! j =
    if decide ((j / 64 < n)%nat /\ Z.of_nat j < size)
    then (fun x => Z.lxor x (keystream key ctr nonce j)) <$> data !! j else data !! j.
Proof.
  induction n as [|n IH]; intros data j Hs Hn.
  - cbn. rewrite decide_False; [done|lia].
  - rewrite seq_S, fold_left_app. cbn [fold_left]. rewrite Nat.add_0_l.
    rewrite encrypt_block_lookup, IH by lia.
    destruct (decide ((j / 64 = n)%nat /\ Z.of_nat j < size)) as [[-> Hj]|Hne].
    + rewrite decide_False by lia. by rewrite decide_True by lia.
    + apply decide_ext. lia.
Qed.

Lemma chacha20_lookup key ctr nonce data size j :
  0 <= size < 2 ^ 32 ->
  chacha20_encrypt_rs key ctr nonce data size !! j =
    if decide (Z.of_nat j < size)
    then (fun x => Z.lxor x (keystream key ctr nonce j)) <$> data !! j else data !! j.
Proof.
  intros Hs. unfold chacha20_encrypt_rs.
  assert (0 <= size / 64) by (apply Z.div_pos; lia).
  rewrite encrypt_blocks_lookup by lia. apply decide_ext. split; [lia|]. intros Hj. split; [|done].
  assert (Z.of_nat (j / 64) <= size / 64); [|lia].
  rewrite Nat2Z.inj_div. apply Z.div_le_mono; lia.
Qed.

Lemma chacha20_involutive key ctr nonce data size :
  0 <= size < 2 ^ 32 ->
  chacha20_encrypt_rs key ctr nonce (chacha20_encrypt_rs key ctr nonce data size) size = data.
Proof.
  intros Hs. apply list_eq. intros j. rewrite !chacha20_lookup by done.
  destruct (decide (Z.of_nat j < size)); [|done].
  destruct (data !! j) as [x|]; [|done]. cbn.
  by rewrite Z.lxor_assoc, Z.lxor_nilpotent, Z.lxor_0_r.
Qed.

(** ** Poly1305 over the integers *)

Definition p1305 : Z := 2 ^ 130 - 5.

(** The number a 16-byte (or shorter) chunk stands for. *)
Definition block_num (pad : bool) (bytes : list Z) : Z :=
  le_val bytes + 2 ^ (if pad then 128 else 8 * Z.of_nat (length bytes)).

Definition chunks16 (message : list Z) : list (list Z) :=
  (fun i => take 16 (drop (i * 16) message)) <$> seq 0 ((length message + 15) / 16).

Definition poly_eval (r acc : Z) (blocks : list Z) : Z :=
  fold_left (fun a b => ((a + b) * r) mod p1305) blocks acc.

Definition clamp_mask : Z := 0x0ffffffc0ffffffc0ffffffc0fffffff.

(** The authenticator of RFC 7539, section 2.5, as an integer. *)
Definition poly1305_spec (key message : list Z) : Z :=
  (poly_eval (Z.land (le_val (take 16 key)) clamp_mask) 0 (block_num false <$> chunks16 message)
   + le_val (take 16 (drop 16 key))) mod 2 ^ 128.

(** *** Little-endian values *)

Lemma le_val_app a b : le_val (a ++ b) = le_val a + 2 ^ (8 * Z.of_nat (length a)) * le_val b.
Proof.
  induction a as [|x a IH]; [change (2 ^ (8 * Z.of_nat (length (@nil Z)))) with 1; cbn [app]; change (le_val []) with 0; lia|].
  cbn [app le_val fold_right length]. fold (le_val (a ++ b)) (le_val a). rewrite IH.
  replace (8 * Z.of_nat (S (length a))) with (8 + 8 * Z.of_nat (length a)) by lia.
  rewrite Z.pow_add_r by lia. change (2 ^ 8) with 256. ring.
Qed.

Lemma le_val_range l : bytes_ok l -> 0 <= le_val l < 2 ^ (8 * Z.of_nat (length l)).
Proof.
  induction 1 as [|x l Hx Hl IH]; [done|]. cbn [le_val fold_right length]. fold (le_val l).
  replace (8 * Z.of_nat (S (length l))) with (8 + 8 * Z.of_nat (length l)) by lia.
  rewrite Z.pow_add_r by lia. change (2 ^ 8) with 256. unfold is_word in Hx. lia.
Qed.

Lemma val256_alter f i b :
  (i < length b)%nat -> val256 (alter f i b) = val256 b + (f (nth i b 0) - nth i b 0) * base i.
Proof.
  revert i. induction b as [|x b IH]; intros [|i] H; cbn in H; try lia.
  - cbn. lia.
  - cbn [alter list_alter val256 nth base]. change (list_alter f i b) with (alter f i b).
    rewrite IH by lia. lia.
Qed.

Lemma alter_wf f i b :
  wf256 b -> (i < 8)%nat -> is_word 32 (f (nth i b 0)) -> wf256 (alter f i b).
Proof.
  intros [L W] Hi Hf. split; [by rewrite length_alter|].
  apply Forall_lookup. intros j x Hj. rewrite list_lookup_alter in Hj. case_decide as Hd.
  - subst j. destruct (lookup_lt_is_Some_2 b i ltac:(lia)) as [y Hy].
    rewrite Hy in Hj. injection Hj as <-. by rewrite (nth_lookup_Some b i 0 y Hy) in Hf.
  - by apply (proj1 (Forall_lookup _ b) W j).
Qed.

Lemma nth_val i b : Forall (is_word 32) b -> (i < length b)%nat ->
  nth i b 0 = (val256 b / base i) mod 2 ^ 32.
Proof.
  intros Hb. revert i. induction Hb as [|x b Hx Hb IH]; intros [|i] H; cbn in H; try lia.
  - cbn [nth val256 base]. rewrite Z.div_1_r.
    rewrite Z.mul_comm, Z_mod_plus_full. symmetry. by apply Z.mod_small.
  - cbn [nth val256 base]. rewrite IH by lia. f_equal.
    rewrite <- Z.div_div by (pose proof (base_pos i); lia).
    replace (x + 2 ^ 32 * val256 b) with (x + val256 b * 2 ^ 32) by lia.
    rewrite Z.div_add by lia. rewrite (Z.div_small x) by exact Hx. by rewrite Z.add_0_l.
Qed.

(** When the value has [8 j] bits, word [j/4] has [8 (j mod 4)] bits. *)
Lemma nth_partial j b :
  wf256 b -> (j < 32)%nat -> val256 b < 2 ^ (8 * Z.of_nat j) ->
  0 <= nth (j / 4) b 0 < 2 ^ (8 * Z.of_nat (j mod 4)).
Proof.
  intros Hw Hj Hv. pose proof (wf_range b Hw) as R. destruct Hw as [L W].
  assert (j / 4 < 8)%nat by (apply Nat.Div0.div_lt_upper_bound; lia).
  pose proof (Nat.div_mod_eq j 4) as Hd. pose proof (Nat.mod_upper_bound j 4 ltac:(lia)).
  assert (Hb : val256 b / base (j / 4) < 2 ^ (8 * Z.of_nat (j mod 4))).
  { apply Z.div_lt_upper_bound; [apply base_pos|]. rewrite base_pow, <- Z.pow_add_r by lia.
    replace (32 * Z.of_nat (j / 4) + 8 * Z.of_nat (j mod 4)) with (8 * Z.of_nat j) by lia. done. }
  assert (0 <= val256 b / base (j / 4)) by (apply Z.div_pos; [lia|apply base_pos]).
  assert (2 ^ (8 * Z.of_nat (j mod 4)) <= 2 ^ 32) by (apply Z.pow_le_mono_r; lia).
  rewrite nth_val by (done || lia). rewrite Z.mod_small; [done|lia].
Qed.

(** Adding a digit below 2^8 at byte [j] of a number with [8 j] bits. *)
Lemma add_digit j b m :
  wf256 b -> (j < 32)%nat -> val256 b < 2 ^ (8 * Z.of_nat j) -> 0 <= m < 256 ->
  wf256 (alter (fun w => u32 (w + Z.shiftl m (8 * Z.of_nat (j mod 4)))) (j / 4)%nat b) /\
  val256 (alter (fun w => u32 (w + Z.shiftl m (8 * Z.of_nat (j mod 4)))) (j / 4)%nat b)
  = val256 b + m * 2 ^ (8 * Z.of_nat j).
Proof.
  intros Hw Hj Hv Hm. pose proof (nth_partial j b Hw Hj Hv) as Hn.
  assert (Hj8 : (j / 4 < 8)%nat) by (apply Nat.Div0.div_lt_upper_bound; lia).
  pose proof (Nat.div_mod_eq j 4) as Hd. pose proof (Nat.mod_upper_bound j 4 ltac:(lia)).
  assert (Hs : 0 <= nth (j / 4) b 0 + Z.shiftl m (8 * Z.of_nat (j mod 4)) < 2 ^ 32).
  { rewrite Z.shiftl_mul_pow2 by lia. split; [nia|].
    apply Z.lt_le_trans with (256 * 2 ^ (8 * Z.of_nat (j mod 4))); [nia|].
    change 256 with (2 ^ 8). rewrite <- Z.pow_add_r by lia. apply Z.pow_le_mono_r; lia. }
  split.
  - apply alter_wf; [done..|]. by apply wrap_is_word.
  - rewrite val256_alter by (by destruct Hw as [-> _]).
    rewrite wrap_small by done. rewrite Z.shiftl_mul_pow2, base_pow by lia.
    replace (8 * Z.of_nat j) with (8 * Z.of_nat (j mod 4) + 32 * Z.of_nat (j / 4)) by lia.
    rewrite Z.pow_add_r by lia. ring.
Qed.

Lemma pack_block_val bytes :
  bytes_ok bytes -> (length bytes <= 16)%nat ->
  (pack_block bytes).1 = length bytes /\ wf256 (pack_block bytes).2 /\
  val256 (pack_block bytes).2 = le_val bytes.
Proof.
  induction bytes as [|m l IH] using rev_ind; intros Hb Hl.
  - split; [done|]. split; [apply zero256_wf|done].
  - apply Forall_app in Hb as [Hb Hm]. apply Forall_inv in Hm.
    rewrite length_app in *. cbn in Hl. destruct (IH Hb ltac:(lia)) as (J & W & V).
    unfold pack_block in *. rewrite fold_left_app. cbn [fold_left].
    destruct (fold_left _ l _) as [j block]. cbn [fst snd] in J, W, V |- *. subst j.
    pose proof (le_val_range l Hb) as R.
    assert (Hsh : u64 (Z.shiftl m (8 * Z.of_nat (length l mod 4)))
                  = Z.shiftl m (8 * Z.of_nat (length l mod 4))).
    { apply wrap_small. unfold is_word in *. rewrite Z.shiftl_mul_pow2 by lia.
      pose proof (Nat.mod_upper_bound (length l) 4 ltac:(lia)).
      pose proof (Z.pow_le_mono_r 2 (8 * Z.of_nat (length l mod 4)) 24 ltac:(lia) ltac:(lia)).
      split; [nia|]. apply Z.le_lt_trans with (255 * 2 ^ 24); [nia|done]. }
    rewrite Hsh.
    destruct (add_digit (length l) block m W ltac:(lia) ltac:(lia) Hm) as [W' V'].
    cbn [length]. split; [lia|]. split; [done|]. rewrite V', V, le_val_app.
    unfold le_val at 3. cbn [fold_right]. lia.
Qed.

(** Marker bits are digits too: [1 << 8*(j & 3)] in word [j/4]. *)
Lemma message_block_val bytes (pad : bool) :
  bytes_ok bytes -> (length bytes <= 16)%nat ->
  wf256 (message_block bytes pad) /\ val256 (message_block bytes pad) = block_num pad bytes.
Proof.
  intros Hb Hl. unfold message_block, block_num.
  destruct (pack_block_val bytes Hb Hl) as (J & W & V).
  destruct (pack_block bytes) as [j block]. cbn [fst snd] in J, W, V. subst j.
  pose proof (le_val_range bytes Hb) as R.
  assert (R16 : 2 ^ (8 * Z.of_nat (length bytes)) <= 2 ^ (8 * Z.of_nat 16))
    by (apply Z.pow_le_mono_r; lia).
  destruct pad.
  - destruct (add_digit 16 block 1 W) as [W' V']; [lia..|].
    split; [exact W'|]. etransitivity; [exact V'|]. change (8 * Z.of_nat 16) with 128. lia.
  - pose proof (Nat.mod_upper_bound (length bytes) 4 ltac:(lia)).
    rewrite (wrap_small 32 (Z.shiftl 1 _)).
    2: { rewrite Z.shiftl_1_l. split; [lia|]. apply Z.pow_lt_mono_r; lia. }
    destruct (add_digit (length bytes) block 1 W) as [W' V']; [lia..|].
    split; [exact W'|]. rewrite V'. lia.
Qed.

Lemma block_num_range pad bytes :
  bytes_ok bytes -> (length bytes <= 16)%nat -> 0 <= block_num pad bytes < 2 ^ 129.
Proof.
  intros Hb Hl. unfold block_num. pose proof (le_val_range bytes Hb).
  assert (2 ^ (8 * Z.of_nat (length bytes)) <= 2 ^ 128) by (apply Z.pow_le_mono_r; lia).
  change (2 ^ 129) with (2 ^ 128 + 2 ^ 128).
  destruct pad; lia.
Qed.

(** *** Key words *)

Lemma word_at_val key i :
  bytes_ok key -> (i + 4 <= length key)%nat -> word_at key i = le_val (take 4 (drop i key)).
Proof.
  intros Hb Hl. unfold word_at.
  destruct (lookup_lt_is_Some_2 key i ltac:(lia)) as [a Ha].
  destruct (lookup_lt_is_Some_2 key (i + 1) ltac:(lia)) as [b Hb1].
  destruct (lookup_lt_is_Some_2 key (i + 2) ltac:(lia)) as [c Hc].
  destruct (lookup_lt_is_Some_2 key (i + 3) ltac:(lia)) as [d Hd].
  rewrite (nth_lookup_Some _ _ _ _ Ha), (nth_lookup_Some _ _ _ _ Hb1),
    (nth_lookup_Some _ _ _ _ Hc), (nth_lookup_Some _ _ _ _ Hd).
  replace (take 4 (drop i key)) with [a; b; c; d].
  2: { apply list_eq. intros k. destruct k as [|[|[|[|k]]]]; rewrite ?lookup_take_lt by lia;
       rewrite ?lookup_drop, ?Nat.add_0_r; try done. by rewrite lookup_take_ge by lia. }
  pose proof (proj1 (Forall_lookup _ _) Hb _ _ Ha). pose proof (proj1 (Forall_lookup _ _) Hb _ _ Hb1).
  pose proof (proj1 (Forall_lookup _ _) Hb _ _ Hc). pose proof (proj1 (Forall_lookup _ _) Hb _ _ Hd).
  unfold is_word in *. rewrite !Z.shiftl_mul_pow2 by lia.
  rewrite !wrap_small by (unfold is_word; rewrite ?wrap_small; unfold is_word; lia).
  cbn [le_val fold_right]. lia.
Qed.

Lemma land_digits x y m n :
  is_word 32 x -> is_word 32 m ->
  Z.land (x + 2 ^ 32 * y) (m + 2 ^ 32 * n) = Z.land x m + 2 ^ 32 * Z.land y n.
Proof.
  intros Hx Hm.
  assert (Hlm : is_word 32 (Z.land x m)) by (apply is_word_land; [lia|done|apply Hm]).
  assert (E : forall u v, is_word 32 u -> u + 2 ^ 32 * v = Z.lor u (Z.shiftl v 32)).
  { intros u v Hu. rewrite lor_shiftl_add by (done || lia). rewrite Z.shiftl_mul_pow2; lia. }
  rewrite !E by done. apply Z.bits_inj_iff'. intros i Hi.
  rewrite Z.land_spec, !Z.lor_spec, Z.land_spec. destruct (decide (i < 32)).
  - by rewrite !Z.shiftl_spec_low, !orb_false_r by done.
  - rewrite !Z.shiftl_spec by done. rewrite !(testbit_above 32) by (done || lia).
    rewrite (testbit_above 32 m) by (done || lia). by rewrite Z.land_spec.
Qed.

Lemma land_word_mask x m : is_word 32 x -> 0 <= m -> is_word 32 (Z.land x m).
Proof. intros Hx Hm. by apply is_word_land. Qed.

Lemma clamp_val b :
  wf256 b -> (forall i, (4 <= i)%nat -> nth i b 0 = 0) ->
  wf256 (poly1305clamp b) /\ val256 (poly1305clamp b) = Z.land (val256 b) clamp_mask.
Proof.
  intros [L W] H0.
  destruct b as [|b0 [|b1 [|b2 [|b3 [|b4 [|b5 [|b6 [|b7 [|]]]]]]]]]; try discriminate L.
  pose proof (H0 4%nat ltac:(lia)). pose proof (H0 5%nat ltac:(lia)).
  pose proof (H0 6%nat ltac:(lia)). pose proof (H0 7%nat ltac:(lia)). cbn in *. subst.
  rewrite !Forall_cons in W. destruct W as (W0 & W1 & W2 & W3 & _). split.
  - split; [done|]. repeat constructor; try lia; by apply land_word_mask.
  - cbn [val256 poly1305clamp].
    change clamp_mask with (0x0fffffff + 2 ^ 32 * (0x0ffffffc + 2 ^ 32 * (0x0ffffffc + 2 ^ 32 * 0x0ffffffc))).
    rewrite !Z.mul_0_r, !Z.add_0_r.
    rewrite !land_digits by (done || (split; lia)). lia.
Qed.

Lemma key_words_val key i :
  bytes_ok key -> (i + 16 <= length key)%nat ->
  let b := mk256 0 0 0 0 (word_at key (i + 12)) (word_at key (i + 8)) (word_at key (i + 4)) (word_at key i) in
  wf256 b /\ val256 b = le_val (take 16 (drop i key)).
Proof.
  intros Hb Hl. cbv zeta. split.
  - split; [done|]. repeat constructor; try lia; by apply wrap_is_word.
  - unfold mk256. rewrite !word_at_val by (done || lia). cbn [val256].
    rewrite !Z.mul_0_r, Z.add_0_r.
    replace (take 16 (drop i key)) with
      (take 4 (drop i key) ++ take 4 (drop (i + 4) key) ++ take 4 (drop (i + 8) key)
       ++ take 4 (drop (i + 12) key)).
    2: { rewrite <- !drop_drop. generalize (drop i key) as k. intros k.
         change 16%nat with (4 + (4 + (4 + 4)))%nat.
         rewrite <- (take_take_drop k 4), <- (take_take_drop (drop 4 k) 4),
           <- (take_take_drop (drop 4 (drop 4 k)) 4), !drop_drop. done. }
    rewrite !le_val_app, !length_take, !length_drop.
    rewrite !Nat.min_l by lia. change (8 * Z.of_nat 4) with 32. lia.
Qed.

(** ** The authenticator computes [poly1305_spec] *)

Definition poly_ok (s : poly1305_state) : Prop :=
  wf256 (pr s) /\ wf256 (ps s) /\ wf256 (pp s) /\ wf256 (pa s) /\
  val256 (pr s) < 2 ^ 124 /\ val256 (ps s) < 2 ^ 128 /\
  val256 (pp s) = p1305 /\ val256 (pa s) < p1305.

Lemma poly1305_init_ok key :
  bytes_ok key -> length key = 32%nat ->
  let s := poly1305_init key in
  poly_ok s /\ val256 (pa s) = 0 /\
  val256 (pr s) = Z.land (le_val (take 16 key)) clamp_mask /\
  val256 (ps s) = le_val (take 16 (drop 16 key)).
Proof.
  intros Hb Hl. cbv zeta. unfold poly1305_init, poly_ok. cbn [pr ps pp pa].
  destruct (key_words_val key 0 Hb ltac:(lia)) as [Wr Vr].
  destruct (key_words_val key 16 Hb ltac:(lia)) as [Ws Vs]. cbn [Nat.add] in *.
  assert (H4 : forall a b c d i, (4 <= i)%nat -> nth i (mk256 0 0 0 0 a b c d) 0 = 0).
  { intros a b c d i Hi. do 4 (destruct i as [|i]; [lia|]).
    by destruct i as [|[|[|[|[|i]]]]]. }
  destruct (clamp_val _ Wr ltac:(intros; by apply H4)) as [Wc Vc].
  rewrite Vr, drop_0 in Vc.
  assert (Rc : is_word 124 (Z.land (le_val (take 16 key)) clamp_mask)).
  { rewrite Z.land_comm. apply is_word_land; [lia|by split|].
    apply le_val_range. by apply Forall_take. }
  assert (Rs : le_val (take 16 (drop 16 key)) < 2 ^ 128).
  { pose proof (le_val_range (take 16 (drop 16 key))) as R.
    rewrite length_take, length_drop, Hl in R. apply R. by apply Forall_take, Forall_drop. }
  split; [|split; [done|split; [exact Vc|exact Vs]]].
  split; [exact Wc|]. split; [exact Ws|]. split; [split; [done|repeat constructor; lia]|].
  split; [apply zero256_wf|]. rewrite Vc, Vs. split; [apply Rc|]. split; [exact Rs|]. done.
Qed.

Lemma absorb_val s block :
  poly_ok s -> wf256 block -> val256 block < 2 ^ 129 ->
  let s' := poly1305_absorb s block in
  poly_ok s' /\ pr s' = pr s /\ ps s' = ps s /\
  val256 (pa s') = ((val256 (pa s) + val256 block) * val256 (pr s)) mod p1305.
Proof.
  intros (Wr & Ws & Wp & Wa & Vr & Vs & Vp & Va) Wb Vb. cbv zeta. unfold poly1305_absorb, poly_ok.
  cbn [pr ps pp pa].
  pose proof (wf_range _ Wr). pose proof (wf_range _ Wa). pose proof (wf_range _ Wb).
  destruct (wf_add _ _ Wa Wb) as [W1 V1]. destruct (mul256_val _ _ W1 Wr) as [W2 V2].
  assert (HP : 0 < p1305 < 2 ^ 130) by done.
  destruct (remainder_val _ _ W2 Wp) as [W3 V3]; [rewrite Vp; apply HP|].
  assert (Hs : 0 <= val256 (pa s) + val256 block < 2 ^ 131)
    by (change (2 ^ 131) with (2 ^ 130 + 2 ^ 129 + 2 ^ 129); lia).
  change (base 8) with (2 ^ 256) in V1, V2.
  rewrite Z.mod_small in V1 by (split; [apply Hs|]; eapply Z.lt_trans; [apply Hs|done]).
  rewrite V1, Z.mod_small in V2.
  2: { split; [nia|]. apply Z.lt_le_trans with (2 ^ 131 * 2 ^ 124); [nia|done]. }
  rewrite V2, Vp in V3.
  pose proof (Z.mod_pos_bound ((val256 (pa s) + val256 block) * val256 (pr s)) p1305 ltac:(lia)).
  split; [|split; [reflexivity|split; [reflexivity|exact V3]]].
  split; [exact Wr|]. split; [exact Ws|]. split; [exact Wp|]. split; [exact W3|].
  split; [exact Vr|]. split; [exact Vs|]. split; [exact Vp|rewrite V3; lia].
Qed.

Lemma length_chunk16 (l : list Z) i : (length (take 16 (drop i l)) <= 16)%nat.
Proof. rewrite length_take. lia. Qed.

Lemma absorb_chunks pad message ixs : forall s,
  poly_ok s -> bytes_ok message ->
  let chunk i := take 16 (drop (i * 16) message) in
  let s' := fold_left (fun s i => poly1305_absorb s (message_block (chunk i) pad)) ixs s in
  poly_ok s' /\ pr s' = pr s /\ ps s' = ps s /\
  val256 (pa s') = poly_eval (val256 (pr s)) (val256 (pa s)) (block_num pad <$> (chunk <$> ixs)).
Proof.
  induction ixs as [|i ixs IH]; intros s Hs Hm; cbv zeta; [done|].
  cbn [fold_left fmap list_fmap].
  assert (Hc : bytes_ok (take 16 (drop (i * 16) message))) by (by apply Forall_take, Forall_drop).
  destruct (message_block_val _ pad Hc (length_chunk16 message _)) as [Wb Vb].
  pose proof (block_num_range pad _ Hc (length_chunk16 message _)) as Rb.
  destruct (absorb_val s _ Hs Wb) as (Ok & Er & Es & Ea); [rewrite Vb; apply Rb|].
  destruct (IH _ Ok Hm) as (Ok' & Er' & Es' & Ea').
  split; [exact Ok'|]. split; [by rewrite Er'|]. split; [by rewrite Es'|].
  rewrite Ea', Er, Ea, Vb. done.
Qed.

Lemma poly1305_add_val s message size pad :
  poly_ok s -> bytes_ok message -> 0 <= size -> size + 15 < 2 ^ 32 -> size <= Z.of_nat (length message) ->
  let s' := poly1305_add s message size pad in
  poly_ok s' /\ pr s' = pr s /\ ps s' = ps s /\
  val256 (pa s') = poly_eval (val256 (pr s)) (val256 (pa s))
                     (block_num pad <$> chunks16 (take (Z.to_nat size) message)).
Proof.
  intros Hs Hm H0 Hsz Hlen. cbv zeta. unfold poly1305_add, chunks16.
  rewrite wrap_small by (split; lia). rewrite length_take, Nat.min_l by lia.
  replace (Z.to_nat ((size + 15) / 16)) with ((Z.to_nat size + 15) / 16)%nat
    by (rewrite Z2Nat.inj_div, Z2Nat.inj_add by lia; done).
  apply (absorb_chunks pad (take (Z.to_nat size) message)); [done|by apply Forall_take].
Qed.

Lemma word_bytes_val w :
  is_word 32 w ->
  bytes_ok (word_bytes w) /\ length (word_bytes w) = 4%nat /\ le_val (word_bytes w) = w.
Proof.
  intros Hw. unfold is_word in Hw. unfold word_bytes.
  change 0xff with (Z.ones 8). rewrite !Z.land_ones, !Z.shiftr_div_pow2 by lia.
  rewrite Z.div_1_r. change (2 ^ 0) with 1. split; [|split; [done|]].
  - repeat constructor; try (apply Z.mod_pos_bound; lia).
  - cbn [le_val fold_right]. change (2 ^ 8) with 256. change (2 ^ 16) with (256 * 256).
    change (2 ^ 24) with (256 * 256 * 256). rewrite <- !Z.div_div by lia.
    pose proof (Z.div_mod w 256 ltac:(lia)).
    pose proof (Z.div_mod (w / 256) 256 ltac:(lia)).
    pose proof (Z.div_mod (w / 256 / 256) 256 ltac:(lia)).
    pose proof (Z.mod_small (w / 256 / 256 / 256) 256).
    assert (w / 256 / 256 / 256 < 256) by (rewrite !Z.div_div by lia; apply Z.div_lt_upper_bound; lia).
    assert (0 <= w / 256 / 256 / 256) by (repeat apply Z.div_pos; lia). lia.
Qed.

Lemma words_le_val (ws : list Z) :
  Forall (is_word 32) ws ->
  let bs := flat_map word_bytes ws in
  bytes_ok bs /\ length bs = (4 * length ws)%nat /\ le_val bs = val256 ws.
Proof.
  cbv zeta. induction 1 as [|w ws Hw Hws (B & L & V)]; [done|].
  destruct (word_bytes_val w Hw) as (Bw & Lw & Vw). cbn [flat_map].
  split; [by apply Forall_app|]. split; [rewrite length_app, Lw, L; cbn; lia|].
  rewrite le_val_app, Lw, Vw, V. done.
Qed.

Lemma poly1305_finish_val s :
  poly_ok s ->
  bytes_ok (poly1305_finish s) /\ length (poly1305_finish s) = 16%nat /\
  le_val (poly1305_finish s) = (val256 (pa s) + val256 (ps s)) mod 2 ^ 128.
Proof.
  intros (_ & Ws & _ & Wa & _ & Vs & _ & Va).
  destruct (wf_add _ _ Wa Ws) as [[L W] V]. pose proof (wf_range _ Ws). pose proof (wf_range _ Wa).
  unfold poly1305_finish. set (a := add256 (pa s) (ps s)) in *.
  assert (E : word_bytes (nth 0 a 0) ++ word_bytes (nth 1 a 0) ++ word_bytes (nth 2 a 0)
              ++ word_bytes (nth 3 a 0) = flat_map word_bytes (take 4 a)).
  { destruct a as [|? [|? [|? [|? a]]]]; try discriminate L. cbn [take nth flat_map].
    by rewrite app_nil_r. }
  rewrite E. destruct (words_le_val (take 4 a) ltac:(by apply Forall_take)) as (B & L' & V').
  split; [exact B|]. split; [rewrite L', length_take, L; done|].
  rewrite V', val256_take by done. rewrite V. rewrite (Z.mod_small _ (base 8)); [done|].
  split; [lia|]. apply Z.lt_trans with (p1305 + 2 ^ 128); [lia|done].
Qed.

Lemma poly_eval_app r a l1 l2 : poly_eval r a (l1 ++ l2) = poly_eval r (poly_eval r a l1) l2.
Proof. apply fold_left_app. Qed.

(** *** Padding to 16 bytes, as RFC 7539 writes it *)

Definition pad16 (l : list Z) : list Z := l ++ replicate ((16 - length l mod 16) mod 16)%nat 0.

Lemma length_pad16 l : (length (pad16 l) = 16 * ((length l + 15) / 16))%nat.
Proof.
  unfold pad16. rewrite length_app, length_replicate.
  pose proof (Nat.div_mod_eq (length l) 16). pose proof (Nat.mod_upper_bound (length l) 16 ltac:(lia)).
  destruct (decide (length l mod 16 = 0)%nat) as [E|E].
  - rewrite E, Nat.sub_0_r. change (16 mod 16)%nat with 0%nat.
    rewrite <- (Nat.div_unique (length l + 15) 16 (length l / 16) 15); lia.
  - rewrite (Nat.mod_small (16 - _)) by lia.
    rewrite <- (Nat.div_unique (length l + 15) 16 (length l / 16 + 1) (length l mod 16 - 1)); lia.
Qed.

Lemma le_val_zeros l n : le_val (l ++ replicate n 0) = le_val l.
Proof.
  rewrite le_val_app. replace (le_val (replicate n 0)) with 0; [lia|].
  induction n as [|n IH]; [done|]. cbn [replicate le_val fold_right].
  change (0 = 0 + 256 * le_val (replicate n 0)). lia.
Qed.

Lemma take_replicate_le n m (x : Z) : exists k, take n (replicate m x) = replicate k x.
Proof. exists (n `min` m)%nat. apply take_replicate. Qed.

Lemma padded_block l i :
  (i < (length l + 15) / 16)%nat ->
  block_num true (take 16 (drop (i * 16) l)) = block_num false (take 16 (drop (i * 16) (pad16 l))).
Proof.
  intros Hi. unfold block_num.
  assert (Hl : (i * 16 < length l)%nat).
  { pose proof (Nat.div_mod_eq (length l + 15) 16).
    pose proof (Nat.mod_upper_bound (length l + 15) 16 ltac:(lia)). lia. }
  rewrite length_take, length_drop, length_pad16, Nat.min_l by lia. change (8 * Z.of_nat 16) with 128.
  f_equal. unfold pad16. rewrite drop_app_le by lia. rewrite take_app.
  destruct (take_replicate_le (16 - length (drop (i * 16) l)) ((16 - length l mod 16) mod 16) 0) as [k ->].
  by rewrite le_val_zeros.
Qed.

Lemma padded_blocks l :
  block_num true <$> chunks16 l = block_num false <$> chunks16 (pad16 l).
Proof.
  unfold chunks16. rewrite <- !list_fmap_compose, length_pad16.
  replace ((16 * ((length l + 15) / 16) + 15) / 16)%nat with ((length l + 15) / 16)%nat.
  2: { apply (Nat.div_unique _ 16 _ 15); lia. }
  apply list_fmap_ext. intros ? i Hi. apply lookup_seq in Hi as [-> Hi]. cbn [compose].
  by apply padded_block.
Qed.

Lemma chunks16_app a b k :
  length a = (16 * k)%nat -> chunks16 (a ++ b) = chunks16 a ++ chunks16 b.
Proof.
  intros La. unfold chunks16. rewrite length_app, La.
  replace ((16 * k + 15) / 16)%nat with k by (apply (Nat.div_unique _ 16 _ 15); lia).
  replace ((16 * k + length b + 15) / 16)%nat with (k + (length b + 15) / 16)%nat.
  2: { replace (16 * k + length b + 15)%nat with ((length b + 15) + k * 16)%nat by lia.
       rewrite Nat.div_add by lia. lia. }
  rewrite seq_app, fmap_app. f_equal.
  - apply list_fmap_ext. intros ? i Hi. apply lookup_seq in Hi as [-> Hi].
    rewrite drop_app_le by lia. apply take_app_le. rewrite length_drop. lia.
  - apply list_eq. intros j. rewrite !list_lookup_fmap. destruct (decide (j < (length b + 15) / 16)%nat).
    + rewrite !lookup_seq_lt by done. cbn. rewrite drop_app_ge by lia. do 3 f_equal. lia.
    + by rewrite !lookup_seq_ge by lia.
Qed.

Lemma fold_left_length {A B} (f : list A -> B -> list A) (l : list B) : forall x,
  (forall x b, length (f x b) = length x) -> length (fold_left f l x) = length x.
Proof. induction l as [|b l IH]; intros x Hf; cbn [fold_left]; [done|]. by rewrite IH, Hf. Qed.

Lemma chacha20_length key ctr nonce data size :
  length (chacha20_encrypt_rs key ctr nonce data size) = length data.
Proof.
  apply fold_left_length. intros x i. unfold encrypt_block. apply fold_left_length.
  intros y k. cbv zeta. case_goal; [apply length_alter|done].
Qed.

Lemma aead_poly1305_val key data aad :
  bytes_ok key -> length key = 32%nat -> bytes_ok data -> bytes_ok aad ->
  Z.of_nat (length data) + 15 < 2 ^ 32 -> Z.of_nat (length aad) + 15 < 2 ^ 32 ->
  let n := Z.of_nat (length data) in let m := Z.of_nat (length aad) in
  let tag := aead_poly1305 key data n aad m in
  bytes_ok tag /\ length tag = 16%nat /\
  le_val tag = poly1305_spec key (pad16 aad ++ pad16 data ++ lengths_vector m n).
Proof.
  intros Hk Lk Hd Ha Ld La. cbv zeta. unfold aead_poly1305, poly1305_spec.
  assert (HL : bytes_ok (lengths_vector (Z.of_nat (length aad)) (Z.of_nat (length data)))
               /\ length (lengths_vector (Z.of_nat (length aad)) (Z.of_nat (length data))) = 16%nat).
  { destruct (word_bytes_val (Z.of_nat (length aad))) as (B1 & L1 & _); [split; lia|].
    destruct (word_bytes_val (Z.of_nat (length data))) as (B2 & L2 & _); [split; lia|].
    unfold lengths_vector. split; [|by rewrite !length_app, L1, L2].
    repeat apply Forall_app_2; try done; repeat constructor; lia. }
  destruct HL as [BL LL]. set (lens := lengths_vector _ _) in *.
  destruct (poly1305_init_ok key Hk Lk) as (K0 & A0 & R0 & S0).
  set (s0 := poly1305_init key) in *.
  destruct (poly1305_add_val s0 aad (Z.of_nat (length aad)) true K0 Ha) as (K1 & R1 & S1 & A1); [lia..|].
  set (s1 := poly1305_add s0 _ _ _) in *.
  destruct (poly1305_add_val s1 data (Z.of_nat (length data)) true K1 Hd) as (K2 & R2 & S2 & A2); [lia..|].
  set (s2 := poly1305_add s1 _ _ _) in *.
  destruct (poly1305_add_val s2 lens 16 true K2 BL) as (K3 & R3 & S3 & A3); [lia..|].
  set (s3 := poly1305_add s2 _ _ _) in *.
  destruct (poly1305_finish_val s3 K3) as (B & L & V). split; [exact B|]. split; [exact L|].
  rewrite V, S3, S2, S1, S0, A3, A2, A1, R2, R1, R0, A0.
  rewrite (take_ge aad), (take_ge data), (take_ge lens) by lia. rewrite !padded_blocks.
  rewrite (chunks16_app (pad16 aad) _ _ (length_pad16 aad)), (chunks16_app (pad16 data) _ _ (length_pad16 data)).
  assert (E : pad16 lens = lens) by (unfold pad16; rewrite LL; apply app_nil_r).
  by rewrite E, !fmap_app, !poly_eval_app.
Qed.

(** ** Properties *)

(** The cipher of [chacha20_encrypt_rs]: byte [j < size] is xored with byte
    [j mod 64] of the block of counter [block_counter + j/64], bytes from [size] on are
    left alone, and encrypting twice restores the data, for every 32-bit size (the
    block offset [64*i] never wraps). *)
Theorem chacha20_encrypt_correct key ctr nonce data size :
  is_word 32 size ->
  let enc := chacha20_encrypt_rs key ctr nonce data size in
  length enc = length data /\
  (forall j, enc !! j = if decide (Z.of_nat j < size)
                        then (fun x => Z.lxor x (keystream key ctr nonce j)) <$> data !! j
                        else data !! j) /\
  chacha20_encrypt_rs key ctr nonce enc size = data.
Proof.
  intros Hs. cbv zeta. split; [apply chacha20_length|]. split.
  - intros j. by apply chacha20_lookup.
  - by apply chacha20_involutive.
Qed.

Lemma chacha20_encrypt_correct_witness :
  is_word 32 5 /\ chacha20_encrypt_rs test_key 1 test_nonce
    (chacha20_encrypt_rs test_key 1 test_nonce [1; 2; 3; 4; 5] 5) 5 = [1; 2; 3; 4; 5].
Proof.
  assert (H : is_word 32 5) by (split; reflexivity || discriminate).
  split; [exact H|]. exact (proj2 (proj2 (chacha20_encrypt_correct test_key 1 test_nonce [1; 2; 3; 4; 5] 5 H))).
Defined.

(** C27 [poly1305_tag] on the 256-bit words of the code (shifts, schoolbook
    multiplication, shift-and-subtract reduction) yields the 16 little-endian bytes
    of the RFC 7539 authenticator computed on integers: each 16-byte chunk with its marker
    bit is added and multiplied by the clamped key modulo 2^130 - 5, then the
    second key half is added modulo 2^128. *)
Theorem poly1305_tag_correct key message :
  bytes_ok key -> length key = 32%nat -> bytes_ok message ->
  Z.of_nat (length message) + 15 < 2 ^ 32 ->
  let tag := poly1305_tag key message (Z.of_nat (length message)) in
  bytes_ok tag /\ length tag = 16%nat /\ le_val tag = poly1305_spec key message.
Proof.
  intros Hk Lk Hm Lm. cbv zeta. unfold poly1305_tag, poly1305_spec.
  destruct (poly1305_init_ok key Hk Lk) as (K0 & A0 & R0 & S0).
  destruct (poly1305_add_val _ message (Z.of_nat (length message)) false K0 Hm)
    as (K1 & R1 & S1 & A1); [lia..|].
  destruct (poly1305_finish_val _ K1) as (B & L & V). split; [exact B|]. split; [exact L|].
  by rewrite V, S1, S0, A1, R0, A0, (take_ge message) by lia.
Qed.

Lemma poly1305_tag_correct_witness :
  le_val (poly1305_tag test_key [7; 9; 200] 3) = poly1305_spec test_key [7; 9; 200].
Proof.
  apply (poly1305_tag_correct test_key [7; 9; 200]).
  - apply Forall_fmap, Forall_seq. unfold compose, is_word. lia.
  - reflexivity.
  - repeat constructor; (reflexivity || discriminate).
  - reflexivity.
Defined.

(** The tag of [AEAD_chacha20_poly1305_rs] is the one of RFC 7539, section 2.8: the
    authenticator, under the generated key, of the additional data padded to 16 bytes, the
    cipher text padded to 16 bytes and the two lengths.  The code never builds that
    message; it relies on [pad_to_16_bytes] putting the marker at bit 128. *)
Theorem aead_tag_rfc7539 session_key data aad :
  bytes_ok session_key -> length session_key = 32%nat -> bytes_ok data -> bytes_ok aad ->
  Z.of_nat (length data) + 15 < 2 ^ 32 -> Z.of_nat (length aad) + 15 < 2 ^ 32 ->
  let n := Z.of_nat (length data) in let m := Z.of_nat (length aad) in
  let tag := aead_poly1305 session_key data n aad m in
  length tag = 16%nat /\
  le_val tag = poly1305_spec session_key (pad16 aad ++ pad16 data ++ lengths_vector m n).
Proof. intros. by apply aead_poly1305_val. Qed.

Lemma aead_tag_rfc7539_witness :
  length (aead_poly1305 test_key [1; 2; 3] 3 [4; 5] 2) = 16%nat /\
  le_val (aead_poly1305 test_key [1; 2; 3] 3 [4; 5] 2)
  = poly1305_spec test_key (pad16 [4; 5] ++ pad16 [1; 2; 3] ++ lengths_vector 2 3).
Proof.
  apply (aead_tag_rfc7539 test_key [1; 2; 3] [4; 5]).
  - apply Forall_fmap, Forall_seq. unfold compose, is_word. lia.
  - reflexivity.
  - repeat constructor; (reflexivity || discriminate).
  - repeat constructor; (reflexivity || discriminate).
  - reflexivity.
  - reflexivity.
Defined.

Section aead_props.
Context (CRYPTO_memcmp : list Z -> list Z -> Z -> Z) (HMAC_SHA256 : list Z -> list Z -> list Z).
(** The documented contract: [CRYPTO_memcmp] returns 0 exactly on equal memory. *)
Context (memcmp_eq : forall m1 m2 n,
  CRYPTO_memcmp m1 m2 n = 0 <-> take (Z.to_nat n) m1 = take (Z.to_nat n) m2).

Lemma compare_spec m1 m2 :
  constant_time_memory_compare CRYPTO_memcmp m1 m2 16 = true <-> take 16 m1 = take 16 m2.
Proof. unfold constant_time_memory_compare. rewrite Z.eqb_eq. apply memcmp_eq. Qed.

(** C28 Both authenticated encryptions invert: with the tag of the encryption, decryption
    accepts and restores the plain text; and decryption of any data accepts exactly the
    tag (of 16 bytes) that encrypting the recovered plain text gives, so a modified cipher
    text passes only with a matching authenticator.  The buffer is decrypted whatever the
    verdict. *)
Theorem aead_roundtrip key nonce data aad tag :
  Z.of_nat (length data) < 2 ^ 32 -> length tag = 16%nat ->
  Forall (fun aead : list Z -> list Z -> list Z -> Z -> list Z -> Z -> list Z -> bool -> list Z * list Z * bool =>
    let n := Z.of_nat (length data) in let m := Z.of_nat (length aad) in
    let '(cipher, t, ok) := aead key nonce data n aad m tag true in
    ok = true /\ aead key nonce cipher n aad m t false = (data, t, true) /\
    let '(plain, _, accepted) := aead key nonce data n aad m tag false in
    aead key nonce plain n aad m tag true = (data, (aead key nonce plain n aad m tag true).1.2, true) /\
    (accepted = true <-> tag = take 16 (aead key nonce plain n aad m tag true).1.2))
  [AEAD_chacha20_poly1305_rs CRYPTO_memcmp; AEAD_chacha20_sha256 CRYPTO_memcmp HMAC_SHA256].
Proof.
  intros Hd Ht. assert (Hw : 0 <= Z.of_nat (length data) < 2 ^ 32) by lia.
  assert (T16 : take 16 tag = tag) by (apply take_ge; lia).
  repeat constructor; cbn [AEAD_chacha20_poly1305_rs AEAD_chacha20_sha256 fst snd];
    unfold AEAD_chacha20_poly1305_rs, AEAD_chacha20_sha256; cbn [fst snd].
  - rewrite chacha20_involutive by done. do 2 f_equal. by apply compare_spec.
  - by rewrite chacha20_involutive.
  - rewrite chacha20_involutive by done. intros H%compare_spec. congruence.
  - rewrite chacha20_involutive by done. intros H. apply compare_spec. congruence.
  - rewrite chacha20_involutive by done. do 2 f_equal. apply compare_spec. by rewrite take_take.
  - by rewrite chacha20_involutive.
  - rewrite chacha20_involutive by done. intros H%compare_spec. rewrite take_take, Nat.min_id. congruence.
  - rewrite chacha20_involutive by done. rewrite take_take, Nat.min_id. intros H. apply compare_spec. congruence.
Qed.

End aead_props.

(** A comparison that meets the contract, and a 32-byte digest to instantiate the HMAC. *)
Definition list_memcmp (m1 m2 : list Z) (n : Z) : Z :=
  if decide (take (Z.to_nat n) m1 = take (Z.to_nat n) m2) then 0 else 1.

Lemma list_memcmp_eq m1 m2 n :
  list_memcmp m1 m2 n = 0 <-> take (Z.to_nat n) m1 = take (Z.to_nat n) m2.
Proof. unfold list_memcmp. by case_decide. Qed.

Definition toy_hmac (key message : list Z) : list Z :=
  (fun i => u8 (nth i key 0 + sum_with id message * Z.of_nat (i + 1))) <$> seq 0 32.

Lemma aead_roundtrip_witness :
  let '(cipher, t, ok) := AEAD_chacha20_poly1305_rs list_memcmp test_key test_nonce [1; 2; 3] 3 [4] 1
                            (replicate 16 0) true in
  ok = true /\
  AEAD_chacha20_poly1305_rs list_memcmp test_key test_nonce cipher 3 [4] 1 t false = ([1; 2; 3], t, true).
Proof.
  assert (L : Z.of_nat (length [1; 2; 3]) < 2 ^ 32) by reflexivity.
  pose proof (aead_roundtrip list_memcmp toy_hmac list_memcmp_eq test_key test_nonce [1; 2; 3] [4]
                (replicate 16 0) L eq_refl) as H.
  apply Forall_inv in H. cbn beta iota zeta delta [length Z.of_nat] in H.
  change (Z.of_nat (length [1; 2; 3])) with 3 in H. change (Z.of_nat (length [4])) with 1 in H.
  destruct (AEAD_chacha20_poly1305_rs _ _ _ _ _ _ _ _ true) as [[c t] ok].
  destruct H as (H1 & H2 & _). split; assumption.
Defined.
