(* ===== verification/ConnectState.v ===== *)
(** * The connection state box of a DHT peer: src/dht/connectstatebox.cc

    [PeerConnectStateBox] decides, for one friend, when to try a TCP, direct,
    proxied or relayed connection.  Its members are the fields of [Box]; the clock
    ([time(NULL)]) and [RSRandom::random_u32()] are arguments of the operations.
    Messages to [std::cerr] are left out.  Times are seconds in [rstime_t] (64-bit
    signed): the sums formed here stay far from its bounds, so they are plain
    integers. *)

From S2P Require Import Prelude.
From Stdlib Require Import ZArith Lia.
From stdpp Require Import base list strings.
Open Scope Z_scope.

(** ** Constants *)

Definition CSB_START : Z := 1.
Definition CSB_TCP_WAIT : Z := 2.
Definition CSB_DIRECT_ATTEMPT : Z := 3.
Definition CSB_DIRECT_WAIT : Z := 4.
Definition CSB_PROXY_ATTEMPT : Z := 5.
Definition CSB_PROXY_WAIT : Z := 6.
Definition CSB_RELAY_ATTEMPT : Z := 7.
Definition CSB_RELAY_WAIT : Z := 8.
Definition CSB_REVERSE_WAIT : Z := 9.
Definition CSB_FAILED_WAIT : Z := 10.
Definition CSB_CONNECTED : Z := 11.

Definition CSB_NETSTATE_UNKNOWN : Z := 0.
Definition CSB_NETSTATE_FORWARD : Z := 1.
Definition CSB_NETSTATE_STABLENAT : Z := 2.
Definition CSB_NETSTATE_EXCLUSIVENAT : Z := 3.
Definition CSB_NETSTATE_FIREWALLED : Z := 4.

Definition CSB_CONNECT_DIRECT : Z := 1.
Definition CSB_CONNECT_UNREACHABLE : Z := 2.

Definition CSB_ACTION_WAIT : Z := 0x0001.
Definition CSB_ACTION_TCP_CONN : Z := 0x0002.
Definition CSB_ACTION_DIRECT_CONN : Z := 0x0004.
Definition CSB_ACTION_PROXY_CONN : Z := 0x0008.
Definition CSB_ACTION_RELAY_CONN : Z := 0x0010.
Definition CSB_ACTION_DHT_PORT : Z := 0x0100.
Definition CSB_ACTION_PROXY_PORT : Z := 0x0200.

Definition CSB_UPDATE_NONE : Z := 0.
Definition CSB_UPDATE_CONNECTED : Z := 1.
Definition CSB_UPDATE_DISCONNECTED : Z := 2.
Definition CSB_UPDATE_AUTH_DENIED : Z := 3.
Definition CSB_UPDATE_RETRY_ATTEMPT : Z := 4.
Definition CSB_UPDATE_FAILED_ATTEMPT : Z := 5.
Definition CSB_UPDATE_MODE_UNAVAILABLE : Z := 6.

Definition FAILED_WAIT_TIME : Z := 1800.
Definition TCP_WAIT_TIME : Z := 60.
Definition DIRECT_MAX_WAIT_TIME : Z := 60.
Definition PROXY_BASE_WAIT_TIME : Z := 30.
Definition PROXY_MAX_WAIT_TIME : Z := 120.
Definition RELAY_MAX_WAIT_TIME : Z := 60.
Definition REVERSE_WAIT_TIME : Z := 300.
Definition MAX_DIRECT_ATTEMPTS : Z := 5.
Definition MAX_PROXY_ATTEMPTS : Z := 10.
Definition MAX_RELAY_ATTEMPTS : Z := 5.
Definition MAX_DIRECT_FAILED_ATTEMPTS : Z := 3.
Definition MAX_PROXY_FAILED_ATTEMPTS : Z := 3.
Definition MAX_RELAY_FAILED_ATTEMPTS : Z := 3.

(** [RsNetworkMode], [RsNatTypeMode] and [RsNatHoleMode] of retroshare/rsconfig.h. *)
Inductive RsNetworkMode := Net_UNKNOWN | Net_RESTARTING | Net_OFFLINE | Net_LOCALNET
  | Net_BEHINDNAT | Net_EXTERNALIP.
Inductive RsNatTypeMode := Nat_NONE | Nat_UNKNOWN | Nat_SYMMETRIC | Nat_DETERM_SYM
  | Nat_RESTRICTED_CONE | Nat_FULL_CONE | Nat_OTHER.
Inductive RsNatHoleMode := Hole_UNKNOWN | Hole_NONE | Hole_UPNP | Hole_NATPMP | Hole_FORWARDED.

#[export] Instance RsNetworkMode_eq_dec : EqDecision RsNetworkMode.
Proof. solve_decision. Defined.
#[export] Instance RsNatTypeMode_eq_dec : EqDecision RsNatTypeMode.
Proof. solve_decision. Defined.
#[export] Instance RsNatHoleMode_eq_dec : EqDecision RsNatHoleMode.
Proof. solve_decision. Defined.

(** ** State *)

Record Box := mk_Box {
  mState : Z;              (* uint32_t *)
  mNetState : Z;           (* uint32_t *)
  mStateTS : Z;            (* rstime_t *)
  mNoAttempts : Z;         (* uint32_t *)
  mNoFailedAttempts : Z;   (* uint32_t *)
  mNextAttemptTS : Z;      (* rstime_t *)
  mAttemptLength : Z;      (* rstime_t *)
  mProxyPortFlags : Z;     (* uint32_t *)
  mProxyPortChoice : bool;
  mProxyPortTS : Z         (* rstime_t *)
}.

#[export] Instance eta_Box : Eta Box := fun b =>
  mk_Box (mState b) (mNetState b) (mStateTS b) (mNoAttempts b) (mNoFailedAttempts b)
         (mNextAttemptTS b) (mAttemptLength b) (mProxyPortFlags b) (mProxyPortChoice b)
         (mProxyPortTS b).

Definition PeerConnectStateBox (now : Z) : Box :=
  mk_Box CSB_START CSB_NETSTATE_UNKNOWN now 0 0 now 0 0 false 0.

(** ** Names *)

Definition NetStateAsString (netstate : Z) : string :=
  if netstate =? CSB_NETSTATE_FORWARD then "Forwarded"
  else if netstate =? CSB_NETSTATE_STABLENAT then "StableNat"
  else if netstate =? CSB_NETSTATE_EXCLUSIVENAT then "ExclusiveNat"
  else if netstate =? CSB_NETSTATE_FIREWALLED then "Firewalled"
  else "Unknown NetState".

Definition StateAsString (state : Z) : string :=
  if state =? CSB_START then "Start:"
  else if state =? CSB_TCP_WAIT then "TCP Wait:"
  else if state =? CSB_DIRECT_ATTEMPT then "Direct Attempt:"
  else if state =? CSB_DIRECT_WAIT then "Direct Wait:"
  else if state =? CSB_PROXY_ATTEMPT then "Proxy Attempt:"
  else if state =? CSB_PROXY_WAIT then "Proxy Wait:"
  else if state =? CSB_RELAY_ATTEMPT then "Relay Attempt:"
  else if state =? CSB_RELAY_WAIT then "Relay Wait:"
  else if state =? CSB_REVERSE_WAIT then "Reverse Wait:"
  else if state =? CSB_FAILED_WAIT then "Failed Wait:"
  else if state =? CSB_CONNECTED then "Connected:"
  else "Unknown State:".

Definition UpdateAsString (update : Z) : string :=
  if update =? CSB_UPDATE_NONE then "none"
  else if update =? CSB_UPDATE_CONNECTED then "Connected"
  else if update =? CSB_UPDATE_DISCONNECTED then "Disconnected"
  else if update =? CSB_UPDATE_AUTH_DENIED then "Auth Denied"
  else if update =? CSB_UPDATE_FAILED_ATTEMPT then "Failed Attempt:"
  else if update =? CSB_UPDATE_MODE_UNAVAILABLE then "Mode Unavailable:"
  else "Unknown Update".

(** ** The network state *)

Definition convertNetStateToInternal (netmode : RsNetworkMode) (nathole : RsNatHoleMode)
    (nattype : RsNatTypeMode) : Z :=
  if decide (netmode = Net_EXTERNALIP) then CSB_NETSTATE_FORWARD
  else if decide (nathole <> Hole_UNKNOWN /\ nathole <> Hole_NONE) then CSB_NETSTATE_FORWARD
  else if decide (netmode = Net_BEHINDNAT) then
    if decide (nattype = Nat_RESTRICTED_CONE \/ nattype = Nat_FULL_CONE) then CSB_NETSTATE_STABLENAT
    else if decide (nattype = Nat_DETERM_SYM) then CSB_NETSTATE_EXCLUSIVENAT
    else CSB_NETSTATE_FIREWALLED
  else CSB_NETSTATE_UNKNOWN.

Definition shouldUseProxyPortInternal (netstate : Z) : bool :=
  if netstate =? CSB_NETSTATE_FORWARD then false else true.

Definition shouldUseProxyPort (netmode : RsNetworkMode) (nathole : RsNatHoleMode)
    (nattype : RsNatTypeMode) : bool :=
  shouldUseProxyPortInternal (convertNetStateToInternal netmode nathole nattype).

Definition calcNetState (netmode : RsNetworkMode) (nathole : RsNatHoleMode)
    (nattype : RsNatTypeMode) : Z :=
  convertNetStateToInternal netmode nathole nattype.

(** ** Asking for an action *)

(** The case [CSB_START], which the unexpected states fall through to. *)
Definition restart (b : Box) (now : Z) : Box :=
  b <| mState := CSB_TCP_WAIT |> <| mStateTS := now |> <| mNoAttempts := 0 |>
    <| mNoFailedAttempts := 0 |> <| mNextAttemptTS := now + TCP_WAIT_TIME |>.

Definition give_up_for_now (b : Box) (now : Z) : Box :=
  b <| mState := CSB_FAILED_WAIT |> <| mStateTS := now |> <| mNoAttempts := 0 |>
    <| mNoFailedAttempts := 0 |> <| mNextAttemptTS := now + FAILED_WAIT_TIME |>.

Definition first_attempt (b : Box) (state now : Z) : Box :=
  b <| mState := state |> <| mStateTS := now |> <| mNoAttempts := 0 |> <| mNoFailedAttempts := 0 |>.

Definition next_attempt (b : Box) (state now : Z) : Box :=
  b <| mState := state |> <| mStateTS := now |> <| mNoAttempts := u32 (mNoAttempts b + 1) |>.

Definition connectCb_direct (b : Box) (now : Z) : Box * Z :=
  let st := mState b in
  let too_soon := now <? mNextAttemptTS b in
  if (st =? CSB_DIRECT_ATTEMPT) || (st =? CSB_PROXY_ATTEMPT) || (st =? CSB_RELAY_ATTEMPT)
  then (b, CSB_ACTION_WAIT)
  else if st =? CSB_TCP_WAIT then
    if too_soon then (b, CSB_ACTION_WAIT)
    else (first_attempt b CSB_DIRECT_ATTEMPT now, Z.lor CSB_ACTION_DIRECT_CONN CSB_ACTION_DHT_PORT)
  else if st =? CSB_DIRECT_WAIT then
    if too_soon then (b, CSB_ACTION_WAIT)
    else if (MAX_DIRECT_ATTEMPTS <=? mNoAttempts b)
            || (MAX_DIRECT_FAILED_ATTEMPTS <=? mNoFailedAttempts b)
    then (give_up_for_now b now, CSB_ACTION_WAIT)
    else (next_attempt b CSB_DIRECT_ATTEMPT now, Z.lor CSB_ACTION_DIRECT_CONN CSB_ACTION_DHT_PORT)
  else if st =? CSB_CONNECTED then (b, CSB_ACTION_WAIT)
  else if (st =? CSB_FAILED_WAIT) && too_soon then (b, CSB_ACTION_WAIT)
  else (restart b now, CSB_ACTION_TCP_CONN).

(** The cases [CSB_REVERSE_WAIT] and [CSB_RELAY_WAIT]. *)
Definition unreachable_relay_phase (b : Box) (now : Z) : Box * Z :=
  let too_soon := now <? mNextAttemptTS b in
  if mState b =? CSB_REVERSE_WAIT then
    if too_soon then (b, CSB_ACTION_WAIT)
    else (first_attempt b CSB_RELAY_ATTEMPT now, Z.lor CSB_ACTION_RELAY_CONN CSB_ACTION_DHT_PORT)
  else
    if too_soon then (b, CSB_ACTION_WAIT)
    else if (MAX_RELAY_ATTEMPTS <=? mNoAttempts b)
            || (MAX_RELAY_FAILED_ATTEMPTS <=? mNoFailedAttempts b)
    then (give_up_for_now b now, CSB_ACTION_WAIT)
    else (next_attempt b CSB_RELAY_ATTEMPT now, Z.lor CSB_ACTION_RELAY_CONN CSB_ACTION_DHT_PORT).

Definition connectCb_unreachable (b : Box) (now : Z) : Box * Z :=
  let st := mState b in
  let too_soon := now <? mNextAttemptTS b in
  let proxyPortMode :=
    if negb (shouldUseProxyPortInternal (mNetState b)) then CSB_ACTION_DHT_PORT
    else CSB_ACTION_PROXY_PORT in
  if (st =? CSB_DIRECT_ATTEMPT) || (st =? CSB_PROXY_ATTEMPT) || (st =? CSB_RELAY_ATTEMPT)
  then (b, CSB_ACTION_WAIT)
  else if st =? CSB_TCP_WAIT then
    if too_soon then (b, CSB_ACTION_WAIT)
    else if negb (st =? CSB_NETSTATE_FIREWALLED)
    then (first_attempt b CSB_PROXY_ATTEMPT now, Z.lor CSB_ACTION_PROXY_CONN proxyPortMode)
    else (first_attempt b CSB_RELAY_ATTEMPT now, Z.lor CSB_ACTION_RELAY_CONN CSB_ACTION_DHT_PORT)
  else if st =? CSB_PROXY_WAIT then
    if too_soon then (b, CSB_ACTION_WAIT)
    else if (MAX_PROXY_ATTEMPTS <=? mNoAttempts b)
            || (MAX_PROXY_FAILED_ATTEMPTS <=? mNoFailedAttempts b)
    then (first_attempt b CSB_RELAY_ATTEMPT now, Z.lor CSB_ACTION_RELAY_CONN CSB_ACTION_DHT_PORT)
    else (next_attempt b CSB_PROXY_ATTEMPT now, Z.lor CSB_ACTION_PROXY_CONN proxyPortMode)
  else if (st =? CSB_REVERSE_WAIT) || (st =? CSB_RELAY_WAIT) then unreachable_relay_phase b now
  else if st =? CSB_CONNECTED then (b, CSB_ACTION_WAIT)
  else if (st =? CSB_FAILED_WAIT) && too_soon then (b, CSB_ACTION_WAIT)
  else (restart b now, CSB_ACTION_WAIT).

Definition connectCb (b : Box) (cbtype : Z) (netmode : RsNetworkMode) (nathole : RsNatHoleMode)
    (nattype : RsNatTypeMode) (now : Z) : Box * Z :=
  let netstate := convertNetStateToInternal netmode nathole nattype in
  let b := if negb (netstate =? mNetState b) then b <| mNetState := netstate |> else b in
  if cbtype =? CSB_CONNECT_DIRECT then connectCb_direct b now else connectCb_unreachable b now.

(** ** Feedback *)

(** The inner [switch] of the two kinds of failure. *)
Definition back_to_wait (b : Box) (now rnd : Z) : Box :=
  if mState b =? CSB_DIRECT_ATTEMPT then
    b <| mState := CSB_DIRECT_WAIT |> <| mStateTS := now |>
      <| mNextAttemptTS := now + rnd mod DIRECT_MAX_WAIT_TIME |>
  else if mState b =? CSB_PROXY_ATTEMPT then
    b <| mState := CSB_PROXY_WAIT |> <| mStateTS := now |>
      <| mNextAttemptTS := now + PROXY_BASE_WAIT_TIME
                           + rnd mod (PROXY_MAX_WAIT_TIME - PROXY_BASE_WAIT_TIME) |>
  else if mState b =? CSB_RELAY_ATTEMPT then
    b <| mState := CSB_RELAY_WAIT |> <| mStateTS := now |>
      <| mNextAttemptTS := now + rnd mod RELAY_MAX_WAIT_TIME |>
  else b.

Definition update_connected (b : Box) (now : Z) : Box :=
  let b :=
    if (mState b =? CSB_DIRECT_ATTEMPT) || (mState b =? CSB_PROXY_ATTEMPT)
       || (mState b =? CSB_RELAY_ATTEMPT)
    then b <| mAttemptLength := now - mStateTS b |>
    else b <| mAttemptLength := 0 |> in
  b <| mState := CSB_CONNECTED |> <| mStateTS := now |>.

Definition update_mode_unavailable (b : Box) (now rnd : Z) : Box * Z :=
  let b := b <| mAttemptLength := now - mStateTS b |> in
  if mState b =? CSB_PROXY_ATTEMPT then
    if mNetState b =? CSB_NETSTATE_FORWARD then
      (b <| mState := CSB_REVERSE_WAIT |> <| mStateTS := now |>
         <| mNextAttemptTS := now + REVERSE_WAIT_TIME |>, 1)
    else
      (b <| mState := CSB_RELAY_WAIT |> <| mNoAttempts := 0 |> <| mStateTS := now |>
         <| mNextAttemptTS := now + rnd mod RELAY_MAX_WAIT_TIME |>, 1)
  else
    let b := b <| mState := CSB_FAILED_WAIT |> <| mStateTS := now |>
               <| mNextAttemptTS := now + FAILED_WAIT_TIME |> in
    if (mState b =? CSB_DIRECT_ATTEMPT) || (mState b =? CSB_PROXY_ATTEMPT) then (b, 1) else (b, 0).

Definition updateCb (b : Box) (update now rnd : Z) : Box * Z :=
  if update =? CSB_UPDATE_CONNECTED then (update_connected b now, 0)
  else if update =? CSB_UPDATE_DISCONNECTED then
    if negb (mState b =? CSB_CONNECTED) then (b, 0)
    else (b <| mState := CSB_START |> <| mStateTS := now |>, 1)
  else if negb ((mState b =? CSB_DIRECT_ATTEMPT) || (mState b =? CSB_PROXY_ATTEMPT)
                || (mState b =? CSB_RELAY_ATTEMPT)) then (b, 0)
  else if update =? CSB_UPDATE_AUTH_DENIED then
    let b := b <| mState := CSB_FAILED_WAIT |> <| mStateTS := now |> in
    (b <| mAttemptLength := now - mStateTS b |> <| mNextAttemptTS := now + FAILED_WAIT_TIME |>, 1)
  else if update =? CSB_UPDATE_RETRY_ATTEMPT then
    (back_to_wait (b <| mAttemptLength := now - mStateTS b |>) now rnd, 1)
  else if update =? CSB_UPDATE_FAILED_ATTEMPT then
    let b := b <| mNoFailedAttempts := u32 (mNoFailedAttempts b + 1) |> in
    (back_to_wait (b <| mAttemptLength := now - mStateTS b |>) now rnd, 1)
  else if update =? CSB_UPDATE_MODE_UNAVAILABLE then update_mode_unavailable b now rnd
  else (b, 0).

Definition storeProxyPortChoice (b : Box) (flags : Z) (useProxyPort : bool) (now : Z) : Box * bool :=
  (b <| mProxyPortFlags := flags |> <| mProxyPortChoice := useProxyPort |>
     <| mProxyPortTS := now |>, useProxyPort).

Definition getProxyPortChoice (b : Box) : bool := mProxyPortChoice b.

(** ** Executions

    Any sequence of calls with a clock that does not run backwards. *)

Inductive event :=
  | Connect (cbtype : Z) (netmode : RsNetworkMode) (nathole : RsNatHoleMode) (nattype : RsNatTypeMode)
  | Update (update rnd : Z)
  | StoreProxyPort (flags : Z) (useProxyPort : bool).

Definition run_event (b : Box) (e : event) (now : Z) : Box :=
  match e with
  | Connect cbtype netmode nathole nattype => (connectCb b cbtype netmode nathole nattype now).1
  | Update update rnd => (updateCb b update now rnd).1
  | StoreProxyPort flags useProxyPort => (storeProxyPortChoice b flags useProxyPort now).1
  end.

Definition event_ok (e : event) : Prop :=
  match e with Update _ rnd => is_word 32 rnd | _ => True end.

Inductive reachable : Z -> Box -> Prop :=
  | reach_new now : reachable now (PeerConnectStateBox now)
  | reach_step t b e now :
      reachable t b -> t <= now -> event_ok e -> reachable now (run_event b e now).

Definition attempting (b : Box) : bool :=
  (mState b =? CSB_DIRECT_ATTEMPT) || (mState b =? CSB_PROXY_ATTEMPT) || (mState b =? CSB_RELAY_ATTEMPT).

(** Direct or relay phase. *)
Definition short_phase (b : Box) : bool :=
  (mState b =? CSB_DIRECT_ATTEMPT) || (mState b =? CSB_DIRECT_WAIT)
  || (mState b =? CSB_RELAY_ATTEMPT) || (mState b =? CSB_RELAY_WAIT).

Record box_inv (t : Z) (b : Box) : Prop := {
  inv_state : CSB_START <= mState b <= CSB_CONNECTED;
  inv_net : 0 <= mNetState b <= 4;
  inv_ts : mStateTS b <= t;
  inv_next : mNextAttemptTS b <= t + FAILED_WAIT_TIME;
  inv_length : 0 <= mAttemptLength b;
  inv_attempts : 0 <= mNoAttempts b <= (if short_phase b then MAX_DIRECT_ATTEMPTS else MAX_PROXY_ATTEMPTS);
  inv_failed : 0 <= mNoFailedAttempts b <=
    (if attempting b then MAX_DIRECT_FAILED_ATTEMPTS - 1 else MAX_DIRECT_FAILED_ATTEMPTS)
}.

Ltac csb_unfold :=
  cbv [CSB_START CSB_TCP_WAIT CSB_DIRECT_ATTEMPT CSB_DIRECT_WAIT CSB_PROXY_ATTEMPT CSB_PROXY_WAIT
    CSB_RELAY_ATTEMPT CSB_RELAY_WAIT CSB_REVERSE_WAIT CSB_FAILED_WAIT CSB_CONNECTED
    CSB_NETSTATE_UNKNOWN CSB_NETSTATE_FORWARD CSB_NETSTATE_STABLENAT CSB_NETSTATE_EXCLUSIVENAT
    CSB_NETSTATE_FIREWALLED CSB_CONNECT_DIRECT CSB_CONNECT_UNREACHABLE
    CSB_UPDATE_NONE CSB_UPDATE_CONNECTED CSB_UPDATE_DISCONNECTED CSB_UPDATE_AUTH_DENIED
    CSB_UPDATE_RETRY_ATTEMPT CSB_UPDATE_FAILED_ATTEMPT CSB_UPDATE_MODE_UNAVAILABLE
    FAILED_WAIT_TIME TCP_WAIT_TIME DIRECT_MAX_WAIT_TIME PROXY_BASE_WAIT_TIME PROXY_MAX_WAIT_TIME
    RELAY_MAX_WAIT_TIME REVERSE_WAIT_TIME MAX_DIRECT_ATTEMPTS MAX_PROXY_ATTEMPTS MAX_RELAY_ATTEMPTS
    MAX_DIRECT_FAILED_ATTEMPTS MAX_PROXY_FAILED_ATTEMPTS MAX_RELAY_FAILED_ATTEMPTS
    attempting short_phase restart give_up_for_now first_attempt next_attempt back_to_wait
    update_connected update_mode_unavailable unreachable_relay_phase] in *.

(** The state of a box ranges over eleven values: after the split every guard on it computes. *)
Ltac csb_states b :=
  let H := fresh "Hst" in
  assert (H : mState b = 1 \/ mState b = 2 \/ mState b = 3 \/ mState b = 4 \/ mState b = 5
    \/ mState b = 6 \/ mState b = 7 \/ mState b = 8 \/ mState b = 9 \/ mState b = 10
    \/ mState b = 11) by (csb_unfold; lia);
  destruct b; cbn in H |- *;
  destruct H as [->|[->|[->|[->|[->|[->|[->|[->|[->|[->| ->]]]]]]]]]]; cbn in *.

Lemma mod_bounds rnd m : 0 < m -> 0 <= rnd mod m < m.
Proof. intros. by apply Z.mod_pos_bound. Qed.

Lemma convertNetState_range netmode nathole nattype :
  0 <= convertNetStateToInternal netmode nathole nattype <= 4.
Proof. unfold convertNetStateToInternal. csb_unfold. repeat case_decide; lia. Qed.

Ltac csb_solve :=
  csb_unfold; cbn in *; repeat case_goal; constructor; cbn; csb_unfold;
  rewrite ?wrap_small by blia; blia.

Lemma connectCb_direct_inv t b now :
  box_inv t b -> t <= now -> box_inv now (connectCb_direct b now).1.
Proof. intros [] Ht. unfold connectCb_direct. csb_states b; csb_solve. Qed.

Lemma connectCb_unreachable_inv t b now :
  box_inv t b -> t <= now -> box_inv now (connectCb_unreachable b now).1.
Proof. intros [] Ht. unfold connectCb_unreachable. csb_states b; csb_solve. Qed.

Lemma set_netstate_inv t b n :
  box_inv t b -> 0 <= n <= 4 -> box_inv t (if negb (n =? mNetState b) then b <| mNetState := n |> else b).
Proof. intros [] Hn. destruct (negb _); constructor; done. Qed.

Lemma connectCb_inv t b cbtype netmode nathole nattype now :
  box_inv t b -> t <= now -> box_inv now (connectCb b cbtype netmode nathole nattype now).1.
Proof.
  intros Hb Ht. unfold connectCb.
  pose proof (set_netstate_inv t b _ Hb (convertNetState_range netmode nathole nattype)).
  destruct (cbtype =? _); [by eapply connectCb_direct_inv|by eapply connectCb_unreachable_inv].
Qed.

Lemma updateCb_inv t b update now rnd :
  box_inv t b -> t <= now -> is_word 32 rnd -> box_inv now (updateCb b update now rnd).1.
Proof.
  intros [] Ht Hr. unfold updateCb.
  pose proof (mod_bounds rnd 60 ltac:(lia)). pose proof (mod_bounds rnd (120 - 30) ltac:(lia)).
  csb_states b; csb_solve.
Qed.

Lemma new_box_inv now : box_inv now (PeerConnectStateBox now).
Proof. constructor; cbn; csb_unfold; cbn; lia. Qed.

Lemma reachable_inv t b : reachable t b -> box_inv t b.
Proof.
  induction 1 as [now|t b e now _ IH Ht He]; [apply new_box_inv|].
  destruct e as [cbtype netmode nathole nattype|update rnd|flags choice]; cbn [run_event].
  - by eapply connectCb_inv.
  - by eapply updateCb_inv.
  - destruct IH. constructor; cbn; csb_unfold; lia || done.
Qed.

(** *** One round of a peer that stays unreachable

    The owner asks for an action once the timer has run out, and reports the failure of
    the attempt if one was started. *)

Definition failed_round (b : Box) (net : RsNetworkMode * RsNatHoleMode * RsNatTypeMode)
    (now rnd : Z) : Box :=
  let '(netmode, nathole, nattype) := net in
  let b := (connectCb b CSB_CONNECT_UNREACHABLE netmode nathole nattype now).1 in
  (updateCb b CSB_UPDATE_FAILED_ATTEMPT now rnd).1.

(** Rounds left before [FAILED_WAIT]. *)
Definition rank (b : Box) : Z :=
  let f := mNoFailedAttempts b in
  let st := mState b in
  if st =? CSB_FAILED_WAIT then 0
  else if (st =? CSB_RELAY_WAIT) || (st =? CSB_RELAY_ATTEMPT) then 4 - f
  else if st =? CSB_REVERSE_WAIT then 4
  else if (st =? CSB_PROXY_WAIT) || (st =? CSB_PROXY_ATTEMPT) then 7 - f
  else if st =? CSB_TCP_WAIT then 7
  else if st =? CSB_DIRECT_ATTEMPT then 9
  else 8.

Lemma rank_bounds t b : box_inv t b -> 0 <= rank b <= 9.
Proof. intros []. unfold rank. csb_states b; csb_unfold; cbn in *; lia. Qed.

Lemma failed_round_inv t b net now rnd :
  box_inv t b -> t <= now -> is_word 32 rnd -> box_inv now (failed_round b net now rnd).
Proof.
  intros Hb Ht Hr. destruct net as [[netmode nathole] nattype]. unfold failed_round.
  eapply updateCb_inv; [by eapply connectCb_inv|lia|done].
Qed.

Lemma failed_round_rank t b net now rnd :
  box_inv t b -> t <= now -> mNextAttemptTS b <= now -> mState b <> CSB_CONNECTED ->
  mState b <> CSB_FAILED_WAIT ->
  rank (failed_round b net now rnd) < rank b /\
  mState (failed_round b net now rnd) <> CSB_CONNECTED.
Proof.
  intros Hb Ht Hn Hc Hf. destruct net as [[netmode nathole] nattype]. unfold failed_round, connectCb.
  pose proof (set_netstate_inv t b _ Hb (convertNetState_range netmode nathole nattype)) as [].
  pose proof (rank_bounds t b Hb) as [R0 R9].
  set (b0 := if negb _ then _ else b) in *.
  assert (E : rank b = rank b0 /\ mNextAttemptTS b = mNextAttemptTS b0 /\ mState b = mState b0)
    by (subst b0; by destruct (negb _)).
  destruct E as (E1 & E2 & E3). rewrite E1, E2, E3 in *. clearbody b0.
  change (CSB_CONNECT_UNREACHABLE =? CSB_CONNECT_DIRECT) with false. cbv iota.
  unfold connectCb_unreachable, updateCb, rank in *.
  csb_states b0; csb_unfold; cbn in *; try lia;
    repeat (case_goal; cbn in *); csb_unfold; rewrite ?wrap_small by blia; cbn in *; blia.
Qed.

Fixpoint rounds (b : Box) (l : list ((RsNetworkMode * RsNatHoleMode * RsNatTypeMode) * Z * Z)) : Box :=
  match l with
  | [] => b
  | (net, now, rnd) :: l => rounds (failed_round b net now rnd) l
  end.

(** Every round of [l] comes after the timer of the state it finds. *)
Fixpoint due (t : Z) (b : Box) (l : list ((RsNetworkMode * RsNatHoleMode * RsNatTypeMode) * Z * Z)) : Prop :=
  match l with
  | [] => True
  | (net, now, rnd) :: l =>
      t <= now /\ mNextAttemptTS b <= now /\ is_word 32 rnd /\ due now (failed_round b net now rnd) l
  end.

Lemma rounds_reach_failed l : forall t b,
  box_inv t b -> mState b <> CSB_CONNECTED -> due t b l -> rank b <= Z.of_nat (length l) ->
  exists k, (k <= length l)%nat /\ mState (rounds b (take k l)) = CSB_FAILED_WAIT.
Proof.
  induction l as [|[[net now] rnd] l IH]; intros t b Hb Hc Hd Hr;
    (destruct (decide (mState b = CSB_FAILED_WAIT)) as [Hf|Hf]; [by exists 0%nat; split; [lia|]|]).
  - exfalso. revert Hr Hf Hc. destruct Hb. unfold rank. csb_states b; csb_unfold; cbn in *; lia.
  - destruct Hd as (Ht & Hn & Hrnd & Hd).
    destruct (failed_round_rank t b net now rnd Hb Ht Hn Hc Hf) as [Hlt Hc'].
    destruct (IH now _ (failed_round_inv t b net now rnd Hb Ht Hrnd) Hc' Hd) as (k & Hk & Hs).
    + cbn [length] in Hr. lia.
    + exists (S k). split; [cbn; lia|exact Hs].
Qed.

(** ** Properties *)

Definition attempt_action (b : Box) : Z :=
  if mState b =? CSB_DIRECT_ATTEMPT then Z.lor CSB_ACTION_DIRECT_CONN CSB_ACTION_DHT_PORT
  else if mState b =? CSB_PROXY_ATTEMPT then
    Z.lor CSB_ACTION_PROXY_CONN
      (if mNetState b =? CSB_NETSTATE_FORWARD then CSB_ACTION_DHT_PORT else CSB_ACTION_PROXY_PORT)
  else Z.lor CSB_ACTION_RELAY_CONN CSB_ACTION_DHT_PORT.

(** In every execution the box stays in its eleven states, the counters stay within
    the limits of the code (so [uint32_t] increments never wrap), a started attempt has
    at most two recorded failures, no timer is more than [FAILED_WAIT_TIME] ahead of the clock,
    and the recorded attempt length is never negative. *)
Theorem box_reachable_bounds t b :
  reachable t b ->
  CSB_START <= mState b <= CSB_CONNECTED /\ 0 <= mNetState b <= 4 /\
  0 <= mNoAttempts b <= MAX_PROXY_ATTEMPTS /\
  0 <= mNoFailedAttempts b <= 3 /\ (attempting b = true -> mNoFailedAttempts b <= 2) /\
  (short_phase b = true -> mNoAttempts b <= 5) /\
  mStateTS b <= t /\ mNextAttemptTS b <= t + FAILED_WAIT_TIME /\ 0 <= mAttemptLength b.
Proof.
  intros Hr. destruct (reachable_inv t b Hr). csb_states b; csb_unfold; cbn in *; lia.
Qed.

Lemma box_reachable_bounds_witness :
  mState (run_event (PeerConnectStateBox 100)
            (Connect CSB_CONNECT_DIRECT Net_BEHINDNAT Hole_NONE Nat_FULL_CONE) 105) <= CSB_CONNECTED.
Proof.
  assert (Hr : reachable 105 (run_event (PeerConnectStateBox 100)
            (Connect CSB_CONNECT_DIRECT Net_BEHINDNAT Hole_NONE Nat_FULL_CONE) 105)).
  { apply (reach_step 100); [constructor|lia|exact I]. }
  exact (proj2 (proj1 (box_reachable_bounds 105 _ Hr))).
Defined.

(** What [connectCb] answers, in every reachable state.  An attempt in flight or an
    established connection is never disturbed.  Otherwise an attempt starts only when the
    timer has run out, in which case the state is stamped with the time and the answer names
    exactly the attempted mode and port; without an attempt the answer is [WAIT], or
    [TCP_CONN] on the first direct request. *)
Theorem connectCb_safe t b cbtype netmode nathole nattype now :
  reachable t b -> t <= now ->
  let '(b', action) := connectCb b cbtype netmode nathole nattype now in
  mNetState b' = calcNetState netmode nathole nattype /\
  (attempting b = true \/ mState b = CSB_CONNECTED ->
     mState b' = mState b /\ mStateTS b' = mStateTS b /\ action = CSB_ACTION_WAIT) /\
  (attempting b = false -> attempting b' = true ->
     mNextAttemptTS b <= now /\ mStateTS b' = now /\ action = attempt_action b') /\
  (attempting b' = false ->
     action = CSB_ACTION_WAIT \/
     (action = CSB_ACTION_TCP_CONN /\ cbtype = CSB_CONNECT_DIRECT /\ mState b' = CSB_TCP_WAIT)).
Proof.
  intros Hr Ht. apply reachable_inv in Hr. unfold connectCb, calcNetState.
  pose proof (set_netstate_inv t b _ Hr (convertNetState_range netmode nathole nattype)) as [].
  set (n := convertNetStateToInternal _ _ _) in *.
  set (b0 := if negb _ then _ else b) in *.
  assert (E : mNetState b0 = n /\ mNextAttemptTS b = mNextAttemptTS b0 /\ mState b = mState b0
              /\ mStateTS b = mStateTS b0).
  { unfold b0. destruct (Z.eqb_spec n (mNetState b)) as [e|]; cbn; rewrite ?e; done. }
  destruct E as (E1 & E2 & E3 & E4). unfold attempting at 1 2. rewrite <- E1, E2, E3, E4. clearbody b0.
  unfold connectCb_direct, connectCb_unreachable, attempt_action, shouldUseProxyPortInternal.
  csb_states b0; csb_unfold; cbn in *; repeat (case_goal; cbn in *); csb_unfold; cbn in *;
    repeat split; intros; try done; try blia; try tauto; right; repeat split; blia.
Qed.

Lemma connectCb_safe_witness :
  let b := run_event (PeerConnectStateBox 100)
             (Connect CSB_CONNECT_DIRECT Net_BEHINDNAT Hole_NONE Nat_FULL_CONE) 105 in
  let '(b', action) := connectCb b CSB_CONNECT_DIRECT Net_BEHINDNAT Hole_NONE Nat_FULL_CONE 165 in
  mState b' = CSB_DIRECT_ATTEMPT /\ mNextAttemptTS b <= 165 /\ action = attempt_action b'.
Proof.
  cbv zeta.
  assert (Hr : reachable 105 (run_event (PeerConnectStateBox 100)
            (Connect CSB_CONNECT_DIRECT Net_BEHINDNAT Hole_NONE Nat_FULL_CONE) 105)).
  { apply (reach_step 100); [constructor|lia|exact I]. }
  pose proof (connectCb_safe 105 _ CSB_CONNECT_DIRECT Net_BEHINDNAT Hole_NONE Nat_FULL_CONE 165 Hr
                ltac:(lia)) as H.
  split; [reflexivity|]. destruct H as (_ & _ & H & _).
  destruct (H eq_refl eq_refl) as (H1 & _ & H2). split; [exact H1|exact H2].
Defined.

(** A peer that stays unreachable is given up after a bounded effort: from any reachable state
    other than [CONNECTED], asking again each time the timer has run out and failing every
    attempt reaches [FAILED_WAIT] within nine rounds, whatever the network states reported and
    the random delays. *)
Theorem unreachable_peer_gives_up t b l :
  reachable t b -> mState b <> CSB_CONNECTED -> (9 <= length l)%nat -> due t b l ->
  exists k, (k <= 9)%nat /\ mState (rounds b (take k l)) = CSB_FAILED_WAIT.
Proof.
  intros Hr Hc Hl Hd. apply reachable_inv in Hr.
  assert (Hd9 : forall l t b n, due t b l -> due t b (take n l)).
  { clear. intros l. induction l as [|[[net now] rnd] l IH]; intros t b [|n]; cbn; try done.
    intros (? & ? & ? & ?). auto. }
  pose proof (rank_bounds t b Hr) as R.
  assert (L9 : length (take 9 l) = 9%nat) by (rewrite length_take; lia).
  destruct (rounds_reach_failed (take 9 l) t b Hr Hc (Hd9 _ _ _ _ Hd)) as (k & Hk & Hs).
  - rewrite L9. lia.
  - exists k. rewrite L9 in Hk. split; [done|]. rewrite take_take, Nat.min_l in Hs by done. done.
Qed.

Definition patient (net : RsNetworkMode * RsNatHoleMode * RsNatTypeMode)
    : list ((RsNetworkMode * RsNatHoleMode * RsNatTypeMode) * Z * Z) :=
  (fun i => (net, 1000 + 2000 * Z.of_nat i, 7)) <$> seq 1 9.

Lemma unreachable_peer_gives_up_witness :
  exists k, (k <= 9)%nat /\
    mState (rounds (PeerConnectStateBox 1000)
              (take k (patient (Net_BEHINDNAT, Hole_NONE, Nat_SYMMETRIC)))) = CSB_FAILED_WAIT.
Proof.
  apply (unreachable_peer_gives_up 1000 (PeerConnectStateBox 1000)).
  - constructor.
  - vm_compute; discriminate.
  - apply Nat.le_refl.
  - vm_compute. repeat split; discriminate.
Defined.

(** Feedback.  Once the box is attempting, every failure report ends the attempt: the state
    moves to a wait, the next attempt is set between now and [FAILED_WAIT_TIME] ahead, and a
    plain failure is counted; reports other than [CONNECTED] in any other state change nothing
    except a disconnection of a connected peer.  The answer 1 marks a state change, with one
    exception: [MODE_UNAVAILABLE] for a direct or relay attempt moves to [FAILED_WAIT] and
    still answers 0, because the code tests the state it has just overwritten. *)
Theorem updateCb_feedback t b update now rnd :
  reachable t b -> t <= now -> is_word 32 rnd -> update <> CSB_UPDATE_CONNECTED ->
  let '(b', r) := updateCb b update now rnd in
  (attempting b = false -> update <> CSB_UPDATE_DISCONNECTED \/ mState b <> CSB_CONNECTED ->
     b' = b /\ r = 0) /\
  (mState b = CSB_CONNECTED -> update = CSB_UPDATE_DISCONNECTED -> mState b' = CSB_START /\ r = 1) /\
  (attempting b = true ->
     CSB_UPDATE_AUTH_DENIED <= update <= CSB_UPDATE_MODE_UNAVAILABLE ->
     attempting b' = false /\ mState b' <> CSB_CONNECTED /\ mStateTS b' = now /\
     now <= mNextAttemptTS b' <= now + FAILED_WAIT_TIME /\
     mNoFailedAttempts b' = mNoFailedAttempts b + (if update =? CSB_UPDATE_FAILED_ATTEMPT then 1 else 0) /\
     mAttemptLength b' = (if update =? CSB_UPDATE_AUTH_DENIED then 0 else now - mStateTS b) /\
     r = (if (update =? CSB_UPDATE_MODE_UNAVAILABLE) && negb (mState b =? CSB_PROXY_ATTEMPT)
          then 0 else 1)).
Proof.
  intros Hr Ht Hrnd Hu. apply reachable_inv in Hr. destruct Hr. unfold updateCb.
  pose proof (mod_bounds rnd 60 ltac:(lia)). pose proof (mod_bounds rnd (120 - 30) ltac:(lia)).
  csb_states b; csb_unfold; cbn in *; repeat (case_goal; cbn in *); csb_unfold; cbn in *;
    repeat split; intros; try done; rewrite ?wrap_small by blia; try blia.
Qed.

Lemma updateCb_feedback_witness :
  let b := rounds (PeerConnectStateBox 1000) (take 1 (patient (Net_BEHINDNAT, Hole_NONE, Nat_SYMMETRIC))) in
  updateCb b CSB_UPDATE_RETRY_ATTEMPT 3300 7 = (b, 0).
Proof.
  cbv zeta.
  assert (Hr : reachable 3000 (rounds (PeerConnectStateBox 1000)
                 (take 1 (patient (Net_BEHINDNAT, Hole_NONE, Nat_SYMMETRIC))))).
  { apply (reach_step 3000 (run_event (PeerConnectStateBox 1000)
             (Connect CSB_CONNECT_UNREACHABLE Net_BEHINDNAT Hole_NONE Nat_SYMMETRIC) 3000)
             (Update CSB_UPDATE_FAILED_ATTEMPT 7)); [|lia|split; [vm_compute; discriminate|reflexivity]].
    apply (reach_step 1000); [constructor|lia|exact I]. }
  pose proof (updateCb_feedback 3000 _ CSB_UPDATE_RETRY_ATTEMPT 3300 7 Hr ltac:(lia)
                ltac:(split; [vm_compute; discriminate|reflexivity]) ltac:(vm_compute; discriminate)) as H.
  destruct (updateCb _ _ _ _) as [b' r]. destruct H as (H & _).
  destruct (H eq_refl ltac:(left; vm_compute; discriminate)) as [-> ->]. reflexivity.
Defined.

(** The direct transition from [TCP_WAIT] to a relay attempt is dead code: in every state and
    network environment, a firewalled one included, the first attempt after the TCP wait is
    through a proxy, because the test for a firewalled peer compares the connection state instead
    of the network state; a relay is tried only after a proxy, reverse or relay wait. *)
Theorem firewalled_never_skips_proxy b cbtype netmode nathole nattype now :
  mState b = CSB_TCP_WAIT ->
  mState (connectCb b cbtype netmode nathole nattype now).1 <> CSB_RELAY_ATTEMPT /\
  (mNextAttemptTS b <= now -> cbtype <> CSB_CONNECT_DIRECT ->
   mState (connectCb b cbtype netmode nathole nattype now).1 = CSB_PROXY_ATTEMPT).
Proof.
  intros Hs. unfold connectCb. set (n := convertNetStateToInternal _ _ _).
  set (b0 := if negb _ then _ else b).
  assert (E : mNextAttemptTS b = mNextAttemptTS b0 /\ mState b = mState b0)
    by (unfold b0; by destruct (negb _)).
  destruct E as (E1 & E2). rewrite E1. rewrite E2 in Hs. clearbody b0.
  unfold connectCb_direct, connectCb_unreachable. rewrite Hs.
  csb_unfold; cbn; repeat (case_goal; cbn); split; intros; try done; try blia; cbn in *; blia.
Qed.

Lemma firewalled_never_skips_proxy_witness :
  let b := run_event (PeerConnectStateBox 100)
             (Connect CSB_CONNECT_UNREACHABLE Net_BEHINDNAT Hole_NONE Nat_SYMMETRIC) 100 in
  calcNetState Net_BEHINDNAT Hole_NONE Nat_SYMMETRIC = CSB_NETSTATE_FIREWALLED /\
  mState (connectCb b CSB_CONNECT_UNREACHABLE Net_BEHINDNAT Hole_NONE Nat_SYMMETRIC 160).1
  = CSB_PROXY_ATTEMPT.
Proof.
  cbv zeta. split; [reflexivity|].
  refine (proj2 (firewalled_never_skips_proxy (run_event (PeerConnectStateBox 100)
             (Connect CSB_CONNECT_UNREACHABLE Net_BEHINDNAT Hole_NONE Nat_SYMMETRIC) 100)
    CSB_CONNECT_UNREACHABLE Net_BEHINDNAT Hole_NONE Nat_SYMMETRIC 160 eq_refl) _ _);
    vm_compute; discriminate.
Defined.
