(* ===== verification/QoS.v ===== *)
(** * Priority queues with packet slicing: src/pqi/pqiqos.cc and pqiqos.h

    [pqiQoS] keeps one FIFO of serialized items per priority level and hands out
    slices of at most [max_slice_size] bytes.  Which level is served next is decided
    by per-level credit counters in C [float], kept here as IEEE binary32 values.
    Output parameters passed by reference are the record [SliceOut], threaded through
    the calls.  [rs_malloc] (util/rsmemory.h) refuses sizes 0 and above 1 GB by ending the
    process; the branches for a [NULL] result are modelled as they are written. *)

From S2P Require Import Prelude.
From Stdlib Require Import ZArith Lia SpecFloat.
From stdpp Require Import base list sets.
Open Scope Z_scope.

Definition MAX_PACKET_COUNTER_VALUE : Z := 2 ^ 24.
Definition RS_SAFE_MEMALLOC_THRESHOLD : Z := 1024 * 1024 * 1024.

Definition rs_malloc_ok (size : Z) : bool :=
  if size =? 0 then false else if RS_SAFE_MEMALLOC_THRESHOLD <? size then false else true.

(** ** Queues *)

Record ItemRecord := mk_ItemRecord {
  r_data : list Z;        (* the memory item *)
  current_offset : Z;     (* uint32_t *)
  r_size : Z;             (* uint32_t *)
  r_id : Z                (* uint32_t *)
}.
#[export] Instance eta_ItemRecord : Eta ItemRecord := fun r =>
  mk_ItemRecord (r_data r) (current_offset r) (r_size r) (r_id r).

Record ItemQueue := mk_ItemQueue {
  _threshold : float32;
  _counter : float32;
  _inc : float32;
  _items : list ItemRecord
}.
#[export] Instance eta_ItemQueue : Eta ItemQueue := fun q =>
  mk_ItemQueue (_threshold q) (_counter q) (_inc q) (_items q).

Definition new_ItemQueue : ItemQueue := mk_ItemQueue (f32_of_Z 0) (f32_of_Z 0) (f32_of_Z 0) [].

Record SliceOut := mk_SliceOut { o_size : Z; o_starts : bool; o_ends : bool; o_packet_id : Z }.
#[export] Instance eta_SliceOut : Eta SliceOut := fun o =>
  mk_SliceOut (o_size o) (o_starts o) (o_ends o) (o_packet_id o).

(** [NULL] is [None]. *)
Definition pop (q : ItemQueue) : ItemQueue * option (list Z) :=
  match _items q with
  | [] => (q, None)
  | rec :: rest => (q <| _items := rest |>, Some (r_data rec))
  end.

Definition slice (q : ItemQueue) (max_size : Z) (out : SliceOut)
    : ItemQueue * option (list Z) * SliceOut :=
  match _items q with
  | [] => (q, None, out)
  | rec :: rest =>
      let out := out <| o_packet_id := r_id rec |> in
      if (current_offset rec =? 0) && (r_size rec <? max_size) then
        let out := out <| o_starts := true |> <| o_ends := true |> <| o_size := r_size rec |> in
        let '(q, item) := pop q in (q, item, out)
      else
        let starts := current_offset rec =? 0 in
        let ends := r_size rec <=? u32 (current_offset rec + max_size) in
        let out := out <| o_starts := starts |> <| o_ends := ends |> in
        if r_size rec <=? current_offset rec then
          let '(q, _) := pop q in (q, None, out)
        else
          let sz := Z.min max_size (u32 (r_size rec - current_offset rec)) in
          let out := out <| o_size := sz |> in
          if negb (rs_malloc_ok sz) then
            let '(q, _) := pop q in (q, None, out)
          else
            let mem := Prelude.slice (Z.to_nat (current_offset rec)) (Z.to_nat sz) (r_data rec) in
            if ends then (q <| _items := rest |>, Some mem, out)
            else
              let rec := rec <| current_offset := u32 (current_offset rec + sz) |> in
              (q <| _items := rec :: rest |>, Some mem, out)
  end.

Definition push (q : ItemQueue) (item : list Z) (sz ident : Z) : ItemQueue :=
  q <| _items := _items q ++ [mk_ItemRecord item 0 sz ident] |>.

(** ** The set of levels *)

Record pqiQoS := mk_pqiQoS {
  _item_queues : list ItemQueue;
  _alpha : float32;
  _nb_items : Z;       (* uint64_t *)
  _id_counter : Z      (* uint32_t *)
}.
#[export] Instance eta_pqiQoS : Eta pqiQoS := fun s =>
  mk_pqiQoS (_item_queues s) (_alpha s) (_nb_items s) (_id_counter s).

(** The constructor's loop from the last level down: thresholds are powers of alpha. *)
Fixpoint init_levels (i : nat) (c alpha : float32) (qs : list ItemQueue) : list ItemQueue :=
  match i with
  | O => qs
  | S i =>
      init_levels i (f32_mul c alpha) alpha
        (alter (fun q => q <| _threshold := c |> <| _counter := f32_of_Z 0 |> <| _inc := alpha |>) i qs)
  end.

Definition new_pqiQoS (nb_levels : nat) (alpha : float32) : pqiQoS :=
  mk_pqiQoS (init_levels nb_levels (f32_of_Z 1) alpha (replicate nb_levels new_ItemQueue)) alpha 0 0.

Definition clear (s : pqiQoS) : pqiQoS :=
  s <| _item_queues := (fun q => q <| _items := [] |>) <$> _item_queues s |> <| _nb_items := 0 |>.

Definition in_rsItem (s : pqiQoS) (ptr : list Z) (sz priority : Z) : pqiQoS :=
  let n := Z.of_nat (length (_item_queues s)) in
  let priority := if n <=? u32 priority then n - 1 else priority in
  let s := s <| _item_queues :=
                  alter (fun q => push q ptr (u32 sz) (_id_counter s)) (Z.to_nat priority) (_item_queues s) |>
             <| _id_counter := u32 (_id_counter s + 1) |> in
  let s := s <| _nb_items := u64 (_nb_items s + 1) |> in
  if MAX_PACKET_COUNTER_VALUE <=? _id_counter s then s <| _id_counter := 0 |> else s.

(** [while(i > 0 && _item_queues[i]._items.empty()) --i, inc = _item_queues[i]._inc] *)
Fixpoint top_level (qs : list ItemQueue) (i : nat) (inc : float32) : nat * float32 :=
  match i with
  | O => (O, inc)
  | S i' =>
      match qs !! i with
      | Some q => if bool_decide (_items q = [])
                  then top_level qs i' (match qs !! i' with Some q' => _inc q' | None => inc end)
                  else (i, inc)
      | None => (i, inc)
      end
  end.

(** One step of the second loop, for level [j]. *)
Definition credit (inc : float32) (j : nat) (st : list ItemQueue * nat) : list ItemQueue * nat :=
  let '(qs, last) := st in
  match qs !! j with
  | Some q =>
      if bool_decide (_items q = []) then (qs, last)
      else
        let q := q <| _counter := f32_add (_counter q) inc |> in
        if float_le (_threshold q) (_counter q)
        then (<[j := q <| _counter := f32_sub (_counter q) (_threshold q) |>]> qs, j)
        else (<[j := q]> qs, last)
  | None => (qs, last)
  end.

(** Levels [n-1] down to 0. *)
Fixpoint credit_loop (inc : float32) (n : nat) (st : list ItemQueue * nat) : list ItemQueue * nat :=
  match n with
  | O => st
  | S j => credit_loop inc j (credit inc j st)
  end.

(** The level to serve, and the queues with their counters updated. *)
Definition choose_level (qs : list ItemQueue) : list ItemQueue * nat :=
  let '(i, inc) := top_level qs (length qs - 1) (f32_of_Z 1) in
  credit_loop inc (S i) (qs, i).

Definition out_rsItem (s : pqiQoS) (max_slice_size : Z) (out : SliceOut)
    : pqiQoS * option (list Z) * SliceOut :=
  if _nb_items s =? 0 then (s, None, out)
  else
    let '(qs, last) := choose_level (_item_queues s) in
    match qs !! last with
    | Some q =>
        let '(q, res, out) := slice q max_slice_size out in
        let s := s <| _item_queues := <[last := q]> qs |> in
        (if o_ends out then s <| _nb_items := u64 (_nb_items s - 1) |> else s, res, out)
    | None => (s, None, out)
    end.

Definition qos_queue_size (s : pqiQoS) : Z := _nb_items s.

(** ** Invariant *)

Definition levels (s : pqiQoS) : list (list ItemRecord) := _items <$> _item_queues s.

Record rec_ok (r : ItemRecord) : Prop := {
  rec_len : Z.of_nat (length (r_data r)) = r_size r;
  rec_off : 0 <= current_offset r < r_size r;
  rec_size : r_size r < 2 ^ 30
}.

(** Only the front item of a level can have been sliced already. *)
Definition level_ok (l : list ItemRecord) : Prop :=
  Forall rec_ok l /\ Forall (fun r => current_offset r = 0) (tail l).

Record qos_ok (s : pqiQoS) : Prop := {
  qos_levels : Forall level_ok (levels s);
  qos_count : _nb_items s = sum_with (fun l => Z.of_nat (length l)) (levels s);
  qos_room : _nb_items s < 2 ^ 64;
  qos_some : (0 < length (_item_queues s))%nat
}.

(** ** One slice *)

Definition chunk (max : Z) (r : ItemRecord) : list Z :=
  take (Z.to_nat max) (drop (Z.to_nat (current_offset r)) (r_data r)).

Definition finishes (max : Z) (r : ItemRecord) : bool := r_size r <=? current_offset r + max.

Definition advance (max : Z) (r : ItemRecord) (rest : list ItemRecord) : list ItemRecord :=
  if finishes max r then rest else r <| current_offset := current_offset r + max |> :: rest.

Definition slice_out (max : Z) (r : ItemRecord) : SliceOut :=
  mk_SliceOut (Z.of_nat (length (chunk max r))) (current_offset r =? 0) (finishes max r) (r_id r).

Lemma length_chunk max r :
  rec_ok r -> 0 < max ->
  Z.of_nat (length (chunk max r)) = Z.min max (r_size r - current_offset r).
Proof. intros [] Hm. unfold chunk. rewrite length_take, length_drop. lia. Qed.

Lemma slice_spec q max out r rest :
  _items q = r :: rest -> rec_ok r -> 0 < max < 2 ^ 31 ->
  slice q max out = (q <| _items := advance max r rest |>, Some (chunk max r), slice_out max r).
Proof.
  intros Hq Hr Hm. pose proof (length_chunk max r Hr ltac:(lia)) as Hc. pose proof Hr as [].
  unfold slice, pop. rewrite Hq. unfold slice_out, advance, finishes.
  rewrite (wrap_small 32 (current_offset r + max)) by blia.
  rewrite (wrap_small 32 (r_size r - current_offset r)) by blia.
  destruct ((current_offset r =? 0) && (r_size r <? max)) eqn:E.
  - bprop. assert (Hch : chunk max r = r_data r) by (unfold chunk; rewrite take_ge; rewrite ?length_drop;
      [replace (Z.to_nat (current_offset r)) with 0%nat by lia; done|lia]).
    replace (r_size r <=? current_offset r + max) with true by (symmetry; apply Z.leb_le; lia).
    rewrite Hch, rec_len0. replace (current_offset r =? 0) with true by (symmetry; apply Z.eqb_eq; lia).
    by destruct out.
  - clear E. replace (r_size r <=? current_offset r) with false by (symmetry; apply Z.leb_gt; lia).
    assert (Hok : rs_malloc_ok (Z.min max (r_size r - current_offset r)) = true).
    { unfold rs_malloc_ok, RS_SAFE_MEMALLOC_THRESHOLD. zbool; lia || done. }
    rewrite Hok. cbn [negb].
    assert (Hch : Prelude.slice (Z.to_nat (current_offset r)) (Z.to_nat (Z.min max (r_size r - current_offset r)))
                    (r_data r) = chunk max r).
    { unfold Prelude.slice, chunk. destruct (Z.min_spec max (r_size r - current_offset r)) as [[? ->]|[? ->]]; [done|].
      rewrite !take_ge; [done|rewrite length_drop; lia..]. }
    rewrite Hch, Hc. destruct (Z.leb_spec (r_size r) (current_offset r + max)) as [H|H]; [by destruct out|].
    rewrite wrap_small by blia. rewrite Z.min_l by lia. by destruct out.
Qed.

(** ** Choosing the level *)

Lemma top_level_nonempty qs : forall i inc,
  (i < length qs)%nat -> (exists j q, (j <= i)%nat /\ qs !! j = Some q /\ _items q <> []) ->
  let '(k, _) := top_level qs i inc in
  (k <= i)%nat /\ exists q, qs !! k = Some q /\ _items q <> [].
Proof.
  induction i as [|i IH]; intros inc Hi (j & q & Hj & Hq & Hne); cbn [top_level].
  - split; [done|]. exists q. by replace j with 0%nat in Hq by lia.
  - destruct (lookup_lt_is_Some_2 qs (S i) Hi) as [q' Hq']. rewrite Hq'.
    case_bool_decide as He.
    + assert (j <= i)%nat by (destruct (decide (j = S i)) as [->|]; [congruence|lia]).
      set (inc' := match qs !! i with Some _ => _ | None => _ end).
      specialize (IH inc' ltac:(lia) ltac:(by exists j, q)).
      destruct (top_level qs i inc') as [k ?]. destruct IH as [Hk IH]. split; [lia|exact IH].
    + split; [done|]. by exists q'.
Qed.

Definition served (qs : list ItemQueue) (last : nat) : Prop :=
  exists q, qs !! last = Some q /\ _items q <> [].

Lemma credit_items inc j qs last :
  served qs last ->
  let '(qs', last') := credit inc j (qs, last) in
  _items <$> qs' = _items <$> qs /\ served qs' last'.
Proof.
  intros (q0 & Hq0 & Hne0). unfold credit. destruct (qs !! j) as [q|] eqn:Hq; [|split; [done|by exists q0]].
  case_bool_decide as He; [split; [done|by exists q0]|].
  assert (Hsame : forall q', _items q' = _items q ->
            _items <$> <[j := q']> qs = _items <$> qs /\
            served (<[j := q']> qs) j /\ served (<[j := q']> qs) last).
  { intros q' Hi. split; [|split].
    - rewrite list_fmap_insert, Hi. apply list_insert_id. by rewrite list_lookup_fmap, Hq.
    - exists q'. rewrite list_lookup_insert_eq by (by eapply lookup_lt_Some). by rewrite Hi.
    - destruct (decide (j = last)) as [->|Hn].
      + exists q'. rewrite list_lookup_insert_eq by (by eapply lookup_lt_Some). rewrite Hi. split; congruence.
      + exists q0. by rewrite list_lookup_insert_ne. }
  destruct (float_le _ _); split; by apply Hsame.
Qed.

Lemma credit_loop_items inc n : forall qs last,
  served qs last ->
  let '(qs', last') := credit_loop inc n (qs, last) in
  _items <$> qs' = _items <$> qs /\ served qs' last'.
Proof.
  induction n as [|n IH]; intros qs last Hs; cbn [credit_loop]; [done|].
  pose proof (credit_items inc n qs last Hs) as H. destruct (credit inc n (qs, last)) as [qs1 last1].
  destruct H as [E1 S1]. specialize (IH qs1 last1 S1). destruct (credit_loop inc n (qs1, last1)) as [qs2 last2].
  destruct IH as [E2 S2]. split; [by rewrite E2|done].
Qed.

Lemma choose_level_served qs :
  (exists j q, qs !! j = Some q /\ _items q <> []) ->
  let '(qs', last) := choose_level qs in
  _items <$> qs' = _items <$> qs /\ served qs' last.
Proof.
  intros (j & q & Hq & Hne). pose proof (lookup_lt_Some _ _ _ Hq) as Hj. unfold choose_level.
  pose proof (top_level_nonempty qs (length qs - 1) (f32_of_Z 1) ltac:(lia)
                ltac:(exists j, q; split; [lia|done])) as H.
  destruct (top_level _ _ _) as [i inc]. apply credit_loop_items. apply H.
Qed.

(** ** Operations on a well-formed queue set *)

Lemma total_pos s : qos_ok s -> _nb_items s <> 0 ->
  exists j q, _item_queues s !! j = Some q /\ _items q <> [].
Proof.
  intros [_ Hc _ _] Hn. rewrite Hc in Hn. clear Hc. unfold levels in Hn.
  induction (_item_queues s) as [|q qs IH]; cbn in Hn; [done|].
  destruct (decide (_items q = [])) as [E|E].
  - rewrite E in Hn. cbn in Hn. destruct (IH Hn) as (j & q' & Hj & Hne). by exists (S j), q'.
  - by exists 0%nat, q.
Qed.

Lemma rec_ok_advance max r rest :
  rec_ok r -> 0 < max -> level_ok (r :: rest) -> level_ok (advance max r rest).
Proof.
  intros [] Hm [Hf Ht]. apply Forall_cons in Hf as [_ Hf]. cbn [tail] in Ht. unfold advance, finishes.
  destruct (Z.leb_spec (r_size r) (current_offset r + max)).
  - split; [done|]. destruct rest; [done|]. by apply Forall_cons in Ht as [_ Ht].
  - split; [|done]. constructor; [|done]. constructor; cbn; lia.
Qed.

(** [out_rsItem] serves the front item of some non-empty level, the one [choose_level] names. *)
Lemma out_rsItem_spec s max out :
  qos_ok s -> _nb_items s <> 0 -> 0 < max < 2 ^ 31 ->
  exists r rest,
    let l := (choose_level (_item_queues s)).2 in
    levels s !! l = Some (r :: rest) /\ rec_ok r /\
    let '(s', res, out') := out_rsItem s max out in
    res = Some (chunk max r) /\ out' = slice_out max r /\
    levels s' = <[l := advance max r rest]> (levels s) /\
    _nb_items s' = _nb_items s - (if finishes max r then 1 else 0) /\
    _id_counter s' = _id_counter s /\ qos_ok s'.
Proof.
  intros Hok Hn Hm. pose proof (choose_level_served _ (total_pos s Hok Hn)) as Hch.
  pose proof Hok as [Hl Hc Hr Hs]. unfold out_rsItem.
  destruct (choose_level (_item_queues s)) as [qs l] eqn:Ech. destruct Hch as (Hi & q & Hq & Hne).
  destruct (_items q) as [|r rest] eqn:Eq; [done|]. exists r, rest. cbn [snd].
  assert (Hlv : levels s !! l = Some (r :: rest)).
  { unfold levels. by rewrite <- Hi, list_lookup_fmap, Hq, <- Eq. }
  pose proof (proj1 (Forall_lookup _ _) Hl l _ Hlv) as Hlok.
  assert (Hrok : rec_ok r) by (destruct Hlok as [Hf _]; by apply Forall_cons in Hf as [Hf _]).
  split; [done|]. split; [done|].
  replace (_nb_items s =? 0) with false by (symmetry; by apply Z.eqb_neq).
  rewrite Hq, (slice_spec q max out r rest Eq Hrok Hm). cbn [o_ends slice_out].
  pose proof (sum_with_insert (fun l => Z.of_nat (length l)) (levels s) l _ (advance max r rest) Hlv) as Hsum.
  pose proof (sum_with_nonneg (fun l => Z.of_nat (length l)) (<[l := advance max r rest]> (levels s))
                ltac:(intros; apply Zle_0_nat)) as Hpos.
  assert (Hlen : Z.of_nat (length (advance max r rest))
                 = Z.of_nat (length (r :: rest)) - (if finishes max r then 1 else 0)).
  { unfold advance. destruct (finishes max r); cbn [length]; lia. }
  assert (Hcnt : (if finishes max r then u64 (_nb_items s - 1) else _nb_items s)
                 = _nb_items s - (if finishes max r then 1 else 0)).
  { revert Hlen. cbv beta in Hsum. destruct (finishes max r); [|lia]. intros Hlen.
    apply wrap_small. split; lia. }
  match goal with |- context [upd _item_queues ?f ?x] => set (s1 := upd _item_queues f x) end.
  assert (L1 : levels s1 = <[l := advance max r rest]> (levels s)).
  { change (levels s1) with (_items <$> <[l := q <| _items := advance max r rest |>]> qs).
    by rewrite list_fmap_insert, Hi. }
  assert (G : forall s', levels s' = levels s1 -> _nb_items s' = _nb_items s - (if finishes max r then 1 else 0) ->
              length (_item_queues s') = length (_item_queues s1) -> qos_ok s').
  { intros s' E1 E2 E3. constructor; rewrite ?E1, ?L1, ?E2, ?E3.
    - apply Forall_insert; [done|]. apply rec_ok_advance; [done|lia|done].
    - revert Hlen. cbv beta in Hsum. destruct (finishes max r); lia.
    - destruct (finishes max r); lia.
    - cbn. rewrite length_insert. rewrite <- (length_fmap _items qs), Hi, length_fmap. done. }
  destruct (finishes max r) eqn:Ef.
  - split; [done|]. split; [done|]. split; [done|]. split; [done|].
    split; [done|]. by apply G.
  - split; [done|]. split; [done|]. split; [done|]. split; [cbn; lia|].
    split; [done|]. apply G; [done|cbn; lia|done].
Qed.

Definition clamp_level (s : pqiQoS) (priority : Z) : nat :=
  let n := Z.of_nat (length (_item_queues s)) in
  Z.to_nat (if (0 <=? priority) && (priority <? n) then priority else n - 1).

Definition next_id (i : Z) : Z := if MAX_PACKET_COUNTER_VALUE <=? i + 1 then 0 else i + 1.

Lemma level_ok_snoc l r :
  level_ok l -> rec_ok r -> current_offset r = 0 -> level_ok (l ++ [r]).
Proof.
  intros [Hf Ht] Hr Ho. split; [by apply Forall_app_2; [|constructor]|].
  destruct l as [|x l]; cbn; [constructor|]. apply Forall_app_2; [done|]. by constructor.
Qed.

Lemma sum_with_alter {A} (f : A -> Z) (g : A -> A) l i x :
  l !! i = Some x -> sum_with f (alter g i l) = sum_with f l - f x + f (g x).
Proof.
  intros H. rewrite <- (sum_with_insert f l i x (g x) H). f_equal.
  apply list_eq. intros j. destruct (decide (i = j)) as [<-|Hne].
  - rewrite list_lookup_alter_eq, H. cbn. by rewrite list_lookup_insert_eq by (by eapply lookup_lt_Some).
  - by rewrite list_lookup_alter_ne, list_lookup_insert_ne.
Qed.

Lemma in_rsItem_spec s ptr sz priority :
  qos_ok s -> Z.of_nat (length ptr) = sz -> 0 < sz < 2 ^ 30 -> _nb_items s + 1 < 2 ^ 64 ->
  Z.of_nat (length (_item_queues s)) < 2 ^ 31 -> - 2 ^ 31 <= priority < 2 ^ 31 ->
  0 <= _id_counter s < MAX_PACKET_COUNTER_VALUE ->
  let s' := in_rsItem s ptr sz priority in
  levels s' = alter (fun l => l ++ [mk_ItemRecord ptr 0 sz (_id_counter s)]) (clamp_level s priority) (levels s) /\
  _nb_items s' = _nb_items s + 1 /\ _id_counter s' = next_id (_id_counter s) /\
  0 <= _id_counter s' < MAX_PACKET_COUNTER_VALUE /\ qos_ok s'.
Proof.
  intros [Hl Hc Hr Hs] Hp Hsz Hroom Hn Hprio Hid. cbv zeta. unfold in_rsItem.
  set (n := Z.of_nat (length (_item_queues s))) in *.
  assert (Hcl : Z.to_nat (if n <=? u32 priority then n - 1 else priority) = clamp_level s priority).
  { unfold clamp_level. fold n. unfold wrap. f_equal.
    destruct (decide (0 <= priority)).
    - rewrite Z.mod_small by lia. zbool; cbn; lia || done.
    - rewrite <- (Z_mod_plus_full priority 1), Z.mod_small by lia. zbool; cbn; lia || done. }
  rewrite Hcl, (wrap_small 32 sz) by blia. unfold MAX_PACKET_COUNTER_VALUE in Hid.
  assert (Hlt : (clamp_level s priority < length (levels s))%nat).
  { unfold levels. rewrite length_fmap. unfold clamp_level. fold n. zbool; cbn; lia. }
  destruct (lookup_lt_is_Some_2 _ _ Hlt) as [lv Hlv].
  match goal with |- context [alter ?f ?i (_item_queues s)] => set (qs := alter f i (_item_queues s)) end.
  assert (L : _items <$> qs = alter (fun l => l ++ [mk_ItemRecord ptr 0 sz (_id_counter s)])
                                (clamp_level s priority) (levels s)).
  { unfold qs, levels. apply list_fmap_alter. by apply Forall_true. }
  assert (Hok : forall s', _item_queues s' = qs -> _nb_items s' = _nb_items s + 1 -> qos_ok s').
  { intros s' Eq En. constructor; unfold levels; rewrite ?Eq, ?En, ?L.
    - apply Forall_alter; [done|]. intros x Hx Hxok. apply level_ok_snoc; [done| |done].
      constructor; cbn; lia.
    - rewrite (sum_with_alter _ _ _ _ _ Hlv), length_app. cbn. lia.
    - lia.
    - unfold qs. by rewrite length_alter. }
  assert (W1 : u64 (_nb_items s + 1) = _nb_items s + 1).
  { apply wrap_small. split; [|lia]. rewrite Hc.
    pose proof (sum_with_nonneg (fun l : list ItemRecord => Z.of_nat (length l)) (levels s)
                  ltac:(intros; apply Zle_0_nat)). lia. }
  assert (W2 : u32 (_id_counter s + 1) = _id_counter s + 1) by (apply wrap_small; split; lia).
  unfold next_id, MAX_PACKET_COUNTER_VALUE. cbn [upd _item_queues _alpha _nb_items _id_counter].
  rewrite W1, W2. destruct (Z.leb_spec (2 ^ 24) (_id_counter s + 1)).
  - split; [exact L|]. split; [done|]. split; [done|]. split; [cbn; lia|]. by apply Hok.
  - split; [exact L|]. split; [done|]. split; [done|]. split; [cbn; lia|]. by apply Hok.
Qed.

Lemma sum_replicate_nil n :
  sum_with (fun l : list ItemRecord => Z.of_nat (length l)) (replicate n []) = 0.
Proof.
  induction n as [|n IH]; [done|].
  change (replicate (S n) (@nil ItemRecord)) with ([] :: replicate n (@nil ItemRecord)).
  by rewrite sum_with_cons, IH.
Qed.

Lemma clear_spec s :
  qos_ok s -> levels (clear s) = replicate (length (_item_queues s)) [] /\
  qos_queue_size (clear s) = 0 /\ qos_ok (clear s).
Proof.
  intros [Hl Hc Hr Hs].
  assert (L : levels (clear s) = replicate (length (_item_queues s)) []).
  { unfold levels, clear. cbn [upd _item_queues]. rewrite <- list_fmap_compose.
    clear. induction (_item_queues s) as [|q qs IH]; [done|]. cbn. by f_equal. }
  split; [done|]. split; [done|]. constructor; rewrite ?L.
  - apply Forall_replicate. by split.
  - by rewrite sum_replicate_nil.
  - done.
  - cbn. by rewrite length_fmap.
Qed.

Lemma init_levels_items i : forall c alpha qs, _items <$> init_levels i c alpha qs = _items <$> qs.
Proof.
  induction i as [|i IH]; intros c alpha qs; cbn [init_levels]; [done|]. rewrite IH.
  rewrite (list_fmap_alter _ _ (fun l => l)); [|by apply Forall_true].
  apply list_eq. intros j. destruct (decide (i = j)) as [<-|]; [|by rewrite list_lookup_alter_ne].
  rewrite list_lookup_alter_eq. by destruct (_ !! i).
Qed.

Lemma new_pqiQoS_spec n alpha :
  (0 < n)%nat -> levels (new_pqiQoS n alpha) = replicate n [] /\ qos_ok (new_pqiQoS n alpha).
Proof.
  intros Hn. assert (L : levels (new_pqiQoS n alpha) = replicate n []).
  { unfold levels, new_pqiQoS. cbn [_item_queues]. rewrite init_levels_items. by rewrite fmap_replicate. }
  split; [done|]. constructor; rewrite ?L.
  - apply Forall_replicate. by split.
  - by rewrite sum_replicate_nil.
  - done.
  - rewrite <- (length_fmap _items). fold (levels (new_pqiQoS n alpha)). by rewrite L, length_replicate.
Qed.

(** ** Draining the queues

    [drain] calls [out_rsItem] until it returns [NULL], recording for each slice the level
    served.  [reassemble] is what a receiver does with the slices of one level. *)

Definition no_out : SliceOut := mk_SliceOut 0 false false 0.

Fixpoint drain (fuel : nat) (max : Z) (s : pqiQoS) : list (nat * (list Z * SliceOut)) * pqiQoS :=
  match fuel with
  | O => ([], s)
  | S fuel =>
      let l := (choose_level (_item_queues s)).2 in
      let '(s, res, out) := out_rsItem s max no_out in
      match res with
      | None => ([], s)
      | Some b => let '(tr, s) := drain fuel max s in ((l, (b, out)) :: tr, s)
      end
  end.

Definition at_level (k : nat) (tr : list (nat * (list Z * SliceOut))) : list (list Z * SliceOut) :=
  snd <$> filter (fun x => x.1 = k) tr.

Fixpoint reassemble (acc : list Z) (l : list (list Z * SliceOut)) : list (Z * list Z) :=
  match l with
  | [] => []
  | (b, o) :: l =>
      let acc := if o_starts o then b else acc ++ b in
      if o_ends o then (o_packet_id o, acc) :: reassemble [] l else reassemble acc l
  end.

(** What has already left of the front item. *)
Definition sent_part (l : list ItemRecord) : list Z :=
  match l with r :: _ => take (Z.to_nat (current_offset r)) (r_data r) | [] => [] end.

Definition items_of (l : list ItemRecord) : list (Z * list Z) := (fun r => (r_id r, r_data r)) <$> l.

Definition rec_left (r : ItemRecord) : Z := r_size r - current_offset r.
Definition bytes_left (s : pqiQoS) : Z := sum_with (sum_with rec_left) (levels s).

Lemma level_left_nonneg l : level_ok l -> 0 <= sum_with rec_left l.
Proof.
  intros [Hf _]. apply sum_with_nonneg. intros r Hr.
  destruct (proj1 (Forall_forall _ _) Hf r Hr). unfold rec_left. lia.
Qed.

Lemma bytes_left_nonneg s : qos_ok s -> 0 <= bytes_left s.
Proof.
  intros [Hl _ _ _]. apply sum_with_nonneg. intros l Hin.
  apply level_left_nonneg. by apply (proj1 (Forall_forall _ _) Hl).
Qed.

Lemma count_zero_empty s : qos_ok s -> _nb_items s = 0 -> forall l, l ∈ levels s -> l = [].
Proof.
  intros [_ Hc _ _] H0 l Hl. rewrite Hc in H0.
  pose proof (sum_with_zero (fun l : list ItemRecord => Z.of_nat (length l)) (levels s)
                ltac:(intros; apply Zle_0_nat) H0 l Hl) as E.
  destruct l; [done|discriminate E].
Qed.

Lemma sent_chunk max r :
  rec_ok r -> 0 < max ->
  (if current_offset r =? 0 then chunk max r
   else take (Z.to_nat (current_offset r)) (r_data r) ++ chunk max r)
  = take (Z.to_nat (current_offset r + max)) (r_data r).
Proof.
  intros [] Hm. unfold chunk. rewrite Z2Nat.inj_add by lia.
  destruct (Z.eqb_spec (current_offset r) 0) as [->|]; [done|]. apply take_take_drop.
Qed.

Lemma reassemble_step max r rest tr :
  level_ok (r :: rest) -> 0 < max ->
  reassemble (sent_part (advance max r rest)) tr = items_of (advance max r rest) ->
  reassemble (sent_part (r :: rest)) ((chunk max r, slice_out max r) :: tr) = items_of (r :: rest).
Proof.
  intros [Hf Ht] Hm IH. apply Forall_cons in Hf as [Hr Hf]. cbn [tail] in Ht. pose proof Hr as [].
  cbn [reassemble slice_out o_starts o_ends o_packet_id sent_part]. rewrite sent_chunk by done.
  unfold advance in IH. destruct (finishes max r) eqn:Ef.
  - unfold finishes in Ef. bprop. cbn [items_of fmap list_fmap]. rewrite take_ge by lia. f_equal.
    destruct rest as [|r' rest]; [exact IH|]. apply Forall_cons in Ht as [Ht _].
    cbn [sent_part] in IH. by rewrite Ht in IH.
  - exact IH.
Qed.

Lemma left_advance max r rest :
  rec_ok r -> 0 < max -> sum_with rec_left (advance max r rest) <= sum_with rec_left (r :: rest) - 1.
Proof.
  intros [] Hm. unfold advance, finishes. rewrite sum_with_cons. unfold rec_left at 2.
  destruct (Z.leb_spec (r_size r) (current_offset r + max)); [lia|].
  rewrite sum_with_cons. unfold rec_left at 1. cbn. lia.
Qed.

(** A call on a non-empty queue set removes at least one byte. *)
Lemma out_rsItem_progress s max out :
  qos_ok s -> _nb_items s <> 0 -> 0 < max < 2 ^ 31 ->
  let '(s', _, _) := out_rsItem s max out in qos_ok s' /\ 0 <= bytes_left s' <= bytes_left s - 1.
Proof.
  intros Hok Hn Hm. destruct (out_rsItem_spec s max out Hok Hn Hm) as (r & rest & Hl & Hr & H).
  destruct (out_rsItem s max out) as [[s' res] out']. destruct H as (_ & _ & L & _ & _ & Hok').
  split; [done|]. split; [by apply bytes_left_nonneg|]. unfold bytes_left. rewrite L.
  rewrite (sum_with_insert _ _ _ _ _ Hl). pose proof (left_advance max r rest Hr ltac:(lia)). lia.
Qed.

Lemma drain_spec max fuel : forall s,
  qos_ok s -> 0 < max < 2 ^ 31 -> bytes_left s <= Z.of_nat fuel ->
  let '(tr, s') := drain fuel max s in
  qos_ok s' /\ _nb_items s' = 0 /\
  forall k l, levels s !! k = Some l -> reassemble (sent_part l) (at_level k tr) = items_of l.
Proof.
  assert (Hdone : forall s, qos_ok s -> _nb_items s = 0 -> forall k l, levels s !! k = Some l ->
            reassemble (sent_part l) (at_level k []) = items_of l).
  { intros s Hok H0 k l Hk. by rewrite (count_zero_empty s Hok H0 l) by (by eapply list_elem_of_lookup_2). }
  induction fuel as [|fuel IH]; intros s Hok Hm Hb; cbn [drain];
    (destruct (decide (_nb_items s = 0)) as [H0|Hn]).
  - split; [done|]. split; [done|]. by apply Hdone.
  - pose proof (out_rsItem_progress s max no_out Hok Hn Hm). destruct (out_rsItem _ _ _) as [[s' ?] ?]. lia.
  - unfold out_rsItem. rewrite H0. cbn [Z.eqb]. split; [done|]. split; [done|]. by apply Hdone.
  - pose proof (out_rsItem_progress s max no_out Hok Hn Hm) as Hp.
    destruct (out_rsItem_spec s max no_out Hok Hn Hm) as (r & rest & Hl & Hr & H). cbv zeta in H, Hl.
    set (lv := (choose_level (_item_queues s)).2) in *.
    destruct (out_rsItem s max no_out) as [[s' res] out]. destruct H as (-> & -> & L & _ & _ & Hok').
    specialize (IH s' Hok' Hm ltac:(lia)). destruct (drain fuel max s') as [tr s'']. destruct IH as (O & N & IH).
    split; [done|]. split; [done|]. intros k l Hk. unfold at_level. rewrite filter_cons. cbn [fst].
    destruct (decide (lv = k)) as [<-|Hne].
    + rewrite Hl in Hk. injection Hk as <-. cbn [fmap list_fmap snd].
      apply reassemble_step; [by apply (proj1 (Forall_lookup _ _) (qos_levels s Hok) lv)|lia|].
      apply IH. rewrite L, list_lookup_insert_eq; [done|by eapply lookup_lt_Some].
    + apply IH. by rewrite L, list_lookup_insert_ne.
Qed.

(** ** Properties *)

Definition sample : pqiQoS :=
  in_rsItem (in_rsItem (in_rsItem (new_pqiQoS 3 (f32_of_Z 2)) [1; 2; 3; 4; 5] 5 0) [6; 7] 2 2) [8; 9; 10] 3 (-1).

Lemma sample_ok : qos_ok sample.
Proof.
  unfold sample. do 3 (apply in_rsItem_spec; [|closed..]). apply new_pqiQoS_spec. lia.
Qed.

(** C29 Slicing and scheduling lose nothing and never interleave within a level: asking for slices
    until none is left ends (after at most one call per byte queued), leaves the queues empty, and
    for every priority level the slices served from it, glued together from each start to each
    end, are exactly the items of that level with their packet ids, in the order they were queued.
    It holds for every slice size, every mixture of levels and every state of the credit counters. *)
Theorem qos_drain_reassembles s max fuel :
  qos_ok s -> 0 < max < 2 ^ 31 -> bytes_left s <= Z.of_nat fuel ->
  let '(tr, s') := drain fuel max s in
  qos_queue_size s' = 0 /\ (forall l, l ∈ levels s' -> l = []) /\
  forall k l, levels s !! k = Some l -> reassemble (sent_part l) (at_level k tr) = items_of l.
Proof.
  intros Hok Hm Hb. pose proof (drain_spec max fuel s Hok Hm Hb) as H.
  destruct (drain fuel max s) as [tr s']. destruct H as (O & N & H).
  split; [done|]. split; [by apply count_zero_empty|done].
Qed.

Lemma qos_drain_reassembles_witness :
  let '(tr, s') := drain 10 2 sample in
  qos_queue_size s' = 0 /\ reassemble [] (at_level 2 tr) = [(1, [6; 7]); (2, [8; 9; 10])].
Proof.
  pose proof (qos_drain_reassembles sample 2 10 sample_ok ltac:(split; reflexivity)
                ltac:(vm_compute; discriminate)) as H.
  destruct (drain 10 2 sample) as [tr s']. destruct H as (H1 & _ & H2).
  split; [exact H1|]. exact (H2 2%nat _ eq_refl).
Defined.

(** The three operations against their contract, a list of FIFOs.  [in_rsItem] appends the item
    at the end of its level (any priority outside the levels, negative ones included, means the last
    one) under the next packet id, which stays below 2^24; [out_rsItem] on a non-empty queue set
    never returns [NULL]: it takes the next bytes of the front item of a non-empty level,
    says truthfully whether they start and end the item, and counts the item out exactly when it
    ends; [clear] empties every level. *)
Theorem qos_refines_fifos s ptr priority max out :
  qos_ok s -> 0 < Z.of_nat (length ptr) < 2 ^ 30 -> _nb_items s + 1 < 2 ^ 64 ->
  Z.of_nat (length (_item_queues s)) < 2 ^ 31 -> - 2 ^ 31 <= priority < 2 ^ 31 ->
  0 <= _id_counter s < MAX_PACKET_COUNTER_VALUE -> 0 < max < 2 ^ 31 ->
  (let s' := in_rsItem s ptr (Z.of_nat (length ptr)) priority in
   levels s' = alter (fun l => l ++ [mk_ItemRecord ptr 0 (Z.of_nat (length ptr)) (_id_counter s)])
                 (clamp_level s priority) (levels s) /\
   qos_queue_size s' = qos_queue_size s + 1 /\
   _id_counter s' = next_id (_id_counter s) /\ 0 <= _id_counter s' < MAX_PACKET_COUNTER_VALUE /\
   qos_ok s') /\
  (qos_queue_size s <> 0 -> exists l r rest,
   levels s !! l = Some (r :: rest) /\
   let '(s', res, out') := out_rsItem s max out in
   res = Some (chunk max r) /\ out' = slice_out max r /\
   levels s' = <[l := advance max r rest]> (levels s) /\
   qos_queue_size s' = qos_queue_size s - (if finishes max r then 1 else 0) /\ qos_ok s') /\
  (levels (clear s) = replicate (length (_item_queues s)) [] /\ qos_queue_size (clear s) = 0 /\
   qos_ok (clear s)).
Proof.
  intros Hok Hp Hroom Hn Hprio Hid Hm. split; [by apply in_rsItem_spec|]. split; [|by apply clear_spec].
  intros Hne. destruct (out_rsItem_spec s max out Hok Hne Hm) as (r & rest & Hl & Hr & H).
  exists (choose_level (_item_queues s)).2, r, rest. split; [exact Hl|].
  destruct (out_rsItem s max out) as [[s' res] out']. by destruct H as (? & ? & ? & ? & _ & ?).
Qed.

Lemma qos_refines_fifos_witness :
  levels (in_rsItem sample [42] 1 7) =
    alter (fun l => l ++ [mk_ItemRecord [42] 0 1 3]) 2%nat (levels sample) /\
  levels (clear sample) = [[]; []; []].
Proof.
  pose proof (qos_refines_fifos sample [42] 7 2 no_out sample_ok ltac:(split; reflexivity)
    ltac:(reflexivity) ltac:(reflexivity) ltac:(split; [vm_compute; discriminate|reflexivity])
    ltac:(split; [vm_compute; discriminate|reflexivity]) ltac:(split; reflexivity)) as H.
  destruct H as ((H1 & _) & _ & H2 & _). split; [exact H1|exact H2].
Defined.

(** *** Shares of the levels *)

(** Ten levels as in [pqiQoSstreamer], alpha = 2, all with plenty to send. *)
Definition saturated : pqiQoS :=
  fold_left (fun s k => in_rsItem s (replicate 600 0) 600 (Z.of_nat k)) (seq 0 10)
    (new_pqiQoS 10 (f32_of_Z 2)).

Definition shares (n : nat) (s : pqiQoS) : list nat :=
  (fun k => length (at_level k (drain n 1 s).1)) <$> seq 0 10.

(** How the ten levels of a streamer share a saturated link: over 512 slices the levels get
    1, 1, 2, 4, ... 256.  Each level gets twice the slices of the level below, as the header
    promises, except the two lowest, which get the same: when several credits run out in the same
    call only the lowest level is served and the others lose their turn, but the lowest
    level is never overridden. *)
Theorem qos_saturated_shares :
  shares 512 saturated = [1; 1; 2; 4; 8; 16; 32; 64; 128; 256]%nat.
Proof. vm_compute. reflexivity. Qed.
