(* ===== verification/Serialiser.v ===== *)
(** * Packet headers and the serialiser registry: src/serialiser/rsserial.cc, rsserial.h

    A packet starts with its 32-bit type (version, service or class and type,
    sub-type) and its 32-bit size, both big-endian.  [RsSerialiser] dispatches an item
    or a packet to the registered [RsSerialType] with the most specific type.  The
    subclasses of [RsSerialType] are virtual; the record [RsSerialType] is their interface
    and the class [SerialLaws] what the dispatcher relies on. *)

From S2P Require Import Prelude RawSerial.
From Stdlib Require Import ZArith Lia.
From stdpp Require Import base list gmap option.
Open Scope Z_scope.

(** ** Types *)

(** [RsItem(ver, cls, t, subtype)], [RsItem(ver, service, subtype)] and the same for
    [RsSerialType]. *)
Definition item_type (ver cls t subtype : Z) : Z :=
  u32 (Z.shiftl ver 24 + Z.shiftl cls 16 + Z.shiftl t 8 + subtype).
Definition service_item_type (ver service subtype : Z) : Z :=
  u32 (Z.shiftl ver 24 + Z.shiftl service 8 + subtype).

Definition getRsItemVersion (type : Z) : Z := u8 (Z.shiftr type 24).
Definition getRsItemClass (type : Z) : Z := u8 (Z.land (Z.shiftr type 16) 0xFF).
Definition getRsItemType (type : Z) : Z := u8 (Z.land (Z.shiftr type 8) 0xFF).
Definition getRsItemSubType (type : Z) : Z := u8 (Z.land type 0xFF).
Definition getRsItemService (type : Z) : Z := u16 (Z.land (Z.shiftr type 8) 0xFFFF).

(** [setPacketService]: [type &= 0xFF0000FF; type |= (uint32_t) (service << 8)]. *)
Definition setPacketService (type service : Z) : Z :=
  Z.lor (Z.land type 0xFF0000FF) (u32 (Z.shiftl service 8)).

(** ** Headers *)

Definition MAX_SERIAL_SIZE : Z := 262143.
Definition getRsPktMaxSize : Z := MAX_SERIAL_SIZE.
Definition getRsPktBaseSize : Z := 8.

(** Returns the boolean and the buffer. *)
Definition setRsItemHeader (data : list Z) (size type pktsize : Z) : access (bool * list Z) :=
  if size <? 8 then Done (false, data)
  else
    '(ok1, data, offset) ← setRawUInt32 data 8 0 type;
    '(ok2, data, offset) ← setRawUInt32 data 8 offset pktsize;
    Done (ok1 && ok2, data).

Definition getRsItemId (data : list Z) : access Z :=
  '(r, _) ← getRawUInt32 data 4 0; Done (default 0 r).

Definition getRsItemSize (data : list Z) : access Z :=
  '(r, _) ← getRawUInt32 data 8 4; Done (default 0 r).

(** ** The registry *)

Section registry.
Context {RsItem : Type} (PacketId : RsItem -> Z).

(** The virtual methods; [NULL] and [false] are [None], [*size] is returned last. *)
Record RsSerialType := mk_RsSerialType {
  st_type : Z;
  st_size : RsItem -> Z;
  st_serialise : RsItem -> Z -> option (list Z * Z);
  st_deserialise : list Z -> Z -> option RsItem * Z
}.

(** The base class: [RsSerialType::size], [serialise] and [deserialise]. *)
Definition base_RsSerialType (t : Z) : RsSerialType :=
  mk_RsSerialType (Z.land t 0xFFFFFF00) (fun _ => 8) (fun _ _ => None) (fun _ size => (None, size)).

Record RsSerialiser := mk_RsSerialiser { serialisers : gmap Z RsSerialType }.

Definition addSerialType (s : RsSerialiser) (serialiser : RsSerialType) : RsSerialiser * bool :=
  let type := Z.land (st_type serialiser) 0xFFFFFF00 in
  match serialisers s !! type with
  | Some _ => (s, false)
  | None => (mk_RsSerialiser (<[type := serialiser]> (serialisers s)), true)
  end.

(** The three look-ups that [size], [serialise] and [deserialise] share. *)
Definition find_type (s : RsSerialiser) (id : Z) : option RsSerialType :=
  let type := Z.land id 0xFFFFFF00 in
  match serialisers s !! type with
  | Some t => Some t
  | None =>
      let type := Z.land type 0xFFFF0000 in
      match serialisers s !! type with
      | Some t => Some t
      | None => let type := Z.land type 0xFF000000 in serialisers s !! type
      end
  end.

Definition rs_size (s : RsSerialiser) (item : RsItem) : Z :=
  match find_type s (PacketId item) with Some t => st_size t item | None => 0 end.

Definition rs_serialise (s : RsSerialiser) (item : RsItem) (size : Z) : option (list Z * Z) :=
  match find_type s (PacketId item) with Some t => st_serialise t item size | None => None end.

Definition rs_deserialise (s : RsSerialiser) (data : list Z) (size : Z) : access (option RsItem * Z) :=
  if size <? 8 then Done (None, size)
  else
    id ← getRsItemId data;
    pkt_size ← getRsItemSize data;
    if size <? pkt_size then Done (None, size)
    else if MAX_SERIAL_SIZE <? pkt_size then Done (None, size)
    else
      let size := pkt_size in
      match find_type s id with
      | None => Done (None, size)
      | Some t =>
          let '(item, pkt_size) := st_deserialise t data pkt_size in
          match item with
          | None => Done (None, size)
          | Some item => Done (Some item, size)
          end
      end.

(** What a serialiser promises for the items it handles: it fills exactly the size it
    announces, starts with the header, and reads back its own packets, whatever follows them. *)
Class SerialLaws (t : RsSerialType) (handles : RsItem -> Prop) := {
  law_size : forall item, handles item -> 8 <= st_size t item < 2 ^ 32;
  law_serialise : forall item, handles item ->
    exists body, st_serialise t item (st_size t item) =
      Some (be_bytes 4 (PacketId item) ++ be_bytes 4 (st_size t item) ++ body, st_size t item) /\
      8 + Z.of_nat (length body) = st_size t item;
  law_deserialise : forall item bytes rest, handles item ->
    st_serialise t item (st_size t item) = Some (bytes, st_size t item) ->
    st_deserialise t (bytes ++ rest) (st_size t item) = (Some item, st_size t item)
}.

End registry.
Arguments RsSerialType : clear implicits.
Arguments RsSerialiser : clear implicits.
Arguments mk_RsSerialiser {RsItem} _.
Arguments law_size {RsItem PacketId t handles _} item.
Arguments law_serialise {RsItem PacketId t handles _} item.
Arguments law_deserialise {RsItem PacketId t handles _} item.

(** ** Bits of a type *)

Lemma item_type_val ver cls t sub :
  is_byte ver -> is_byte cls -> is_byte t -> is_byte sub ->
  item_type ver cls t sub = ver * 2 ^ 24 + cls * 2 ^ 16 + t * 2 ^ 8 + sub.
Proof.
  unfold is_word, item_type. intros. rewrite !Z.shiftl_mul_pow2 by lia.
  apply wrap_small. unfold is_word. lia.
Qed.

(** Dropping the low [n] bits and keeping [m] of the rest. *)
Lemma field_val x y z n m :
  0 <= n -> 0 <= m -> 0 <= z < 2 ^ n -> 0 <= y < 2 ^ m ->
  Z.land (Z.shiftr (x * 2 ^ (n + m) + y * 2 ^ n + z) n) (Z.ones m) = y.
Proof.
  intros Hn Hm Hz Hy. rewrite Z.land_ones, Z.shiftr_div_pow2, Z.pow_add_r by lia.
  replace (x * (2 ^ n * 2 ^ m) + y * 2 ^ n + z) with (z + (x * 2 ^ m + y) * 2 ^ n) by ring.
  rewrite Z.div_add, Z.div_small by lia.
  rewrite Z.add_0_l, Z.add_comm, Z_mod_plus_full. by apply Z.mod_small.
Qed.

Lemma land_shiftl x y n : 0 <= n -> Z.land x (Z.shiftl y n) = Z.shiftl (Z.land (Z.shiftr x n) y) n.
Proof.
  intros Hn. apply Z.bits_inj_iff'. intros i Hi. rewrite Z.land_spec.
  destruct (decide (i < n)).
  - by rewrite !Z.shiftl_spec_low, andb_false_r.
  - rewrite !Z.shiftl_spec, Z.land_spec, Z.shiftr_spec by lia. do 2 f_equal. lia.
Qed.

Lemma item_type_accessors ver cls t sub :
  is_byte ver -> is_byte cls -> is_byte t -> is_byte sub ->
  let ty := item_type ver cls t sub in
  getRsItemVersion ty = ver /\ getRsItemClass ty = cls /\ getRsItemType ty = t /\
  getRsItemSubType ty = sub /\ getRsItemService ty = cls * 2 ^ 8 + t.
Proof.
  intros Hv Hc Ht Hs. cbv zeta. rewrite item_type_val by done. unfold is_word in *.
  unfold getRsItemVersion, getRsItemClass, getRsItemType, getRsItemSubType, getRsItemService.
  change 0xFF with (Z.ones 8). change 0xFFFF with (Z.ones 16). split; [|split; [|split; [|split]]].
  - rewrite Z.shiftr_div_pow2 by lia.
    rewrite <- (Z.div_unique _ (2 ^ 24) ver (cls * 2 ^ 16 + t * 2 ^ 8 + sub)) by lia.
    apply wrap_small. unfold is_word. lia.
  - replace (ver * 2 ^ 24 + cls * 2 ^ 16 + t * 2 ^ 8 + sub)
      with (ver * 2 ^ (16 + 8) + cls * 2 ^ 16 + (t * 2 ^ 8 + sub)) by lia.
    rewrite field_val by lia. apply wrap_small. unfold is_word. lia.
  - replace (ver * 2 ^ 24 + cls * 2 ^ 16 + t * 2 ^ 8 + sub)
      with ((ver * 2 ^ 8 + cls) * 2 ^ (8 + 8) + t * 2 ^ 8 + sub) by lia.
    rewrite field_val by lia. apply wrap_small. unfold is_word. lia.
  - rewrite <- (Z.shiftr_0_r (ver * 2 ^ 24 + cls * 2 ^ 16 + t * 2 ^ 8 + sub)).
    replace (ver * 2 ^ 24 + cls * 2 ^ 16 + t * 2 ^ 8 + sub)
      with ((ver * 2 ^ 16 + cls * 2 ^ 8 + t) * 2 ^ (0 + 8) + sub * 2 ^ 0 + 0) by lia.
    rewrite field_val by lia. apply wrap_small. unfold is_word. lia.
  - replace (ver * 2 ^ 24 + cls * 2 ^ 16 + t * 2 ^ 8 + sub)
      with (ver * 2 ^ (8 + 16) + (cls * 2 ^ 8 + t) * 2 ^ 8 + sub) by lia.
    rewrite field_val by lia. apply wrap_small. unfold is_word. lia.
Qed.

Lemma setPacketService_item_type ver cls t sub cls' t' :
  is_byte ver -> is_byte cls -> is_byte t -> is_byte sub -> is_byte cls' -> is_byte t' ->
  setPacketService (item_type ver cls t sub) (cls' * 2 ^ 8 + t') = item_type ver cls' t' sub.
Proof.
  intros Hv Hc Ht Hs Hc' Ht'. rewrite !item_type_val by done. unfold setPacketService, is_word in *.
  change 0xFF0000FF with (Z.lor (Z.ones 8) (Z.shiftl (Z.ones 8) 24)).
  rewrite Z.land_lor_distr_r, land_shiftl by lia.
  replace (Z.land (ver * 2 ^ 24 + cls * 2 ^ 16 + t * 2 ^ 8 + sub) (Z.ones 8)) with sub.
  2: { rewrite Z.land_ones by lia. apply (Z.mod_unique _ _ (ver * 2 ^ 16 + cls * 2 ^ 8 + t)); lia. }
  replace (Z.land (Z.shiftr (ver * 2 ^ 24 + cls * 2 ^ 16 + t * 2 ^ 8 + sub) 24) (Z.ones 8)) with ver.
  2: { rewrite Z.land_ones, Z.shiftr_div_pow2 by lia.
       rewrite <- (Z.div_unique _ (2 ^ 24) ver (cls * 2 ^ 16 + t * 2 ^ 8 + sub)) by lia.
       symmetry. apply Z.mod_small. lia. }
  rewrite wrap_small by (unfold is_word; rewrite Z.shiftl_mul_pow2; lia).
  rewrite (Z.lor_comm sub), <- Z.lor_assoc, (lor_shiftl_add sub) by (unfold is_word; lia).
  rewrite Z.lor_comm, lor_shiftl_add; [|lia|unfold is_word; rewrite Z.shiftl_mul_pow2 by lia; lia].
  rewrite !Z.shiftl_mul_pow2 by lia. lia.
Qed.

(** ** Headers in a buffer *)

Lemma setRsItemHeader_spec data size type pktsize :
  8 <= size -> 8 <= Z.of_nat (length data) ->
  setRsItemHeader data size type pktsize =
    Done (true, splice 0 (be_bytes 4 type ++ be_bytes 4 pktsize) data).
Proof.
  intros Hs Hd. unfold setRsItemHeader, setRawUInt32. destruct (Z.ltb_spec size 8); [lia|].
  rewrite (setRawUInt_fits 4) by (unfold buffer_ok; lia). cbn [mbind access_bind].
  rewrite (setRawUInt_fits 4)
    by (unfold buffer_ok; rewrite ?length_splice by (rewrite length_be_bytes; lia); lia).
  cbn [mbind access_bind andb]. do 2 f_equal. change (Z.to_nat (0 + Z.of_nat 4)) with (0 + 4)%nat.
  rewrite <- (length_be_bytes 4 type) at 1. apply splice_splice. rewrite !length_be_bytes. lia.
Qed.

Lemma getRsItemId_spec type rest : is_word 32 type -> getRsItemId (be_bytes 4 type ++ rest) = Done type.
Proof.
  intros Ht. unfold getRsItemId, getRawUInt32. rewrite (getRawUInt_enc 4 ltac:(lia) _ _ _ type); [done|done| |lia|lia|].
  - split; [lia|]. rewrite length_app, length_be_bytes. lia.
  - unfold slice. rewrite drop_0. apply take_app_length'. by rewrite length_be_bytes.
Qed.

Lemma getRsItemSize_spec type size rest :
  is_word 32 size -> getRsItemSize (be_bytes 4 type ++ be_bytes 4 size ++ rest) = Done size.
Proof.
  intros Ht. unfold getRsItemSize, getRawUInt32. rewrite (getRawUInt_enc 4 ltac:(lia) _ _ _ size); [done|done| |lia|lia|].
  - split; [lia|]. rewrite !length_app, !length_be_bytes. lia.
  - unfold slice. rewrite drop_app_length' by (by rewrite length_be_bytes).
    apply take_app_length'. by rewrite length_be_bytes.
Qed.

(** ** Dispatch *)

Section dispatch.
Context {RsItem : Type} (PacketId : RsItem -> Z).
Implicit Types (s : RsSerialiser RsItem) (t : RsSerialType RsItem).

Definition type_key t : Z := Z.land (st_type t) 0xFFFFFF00.

Definition register (l : list (RsSerialType RsItem)) : RsSerialiser RsItem :=
  fold_left (fun s t => (addSerialType s t).1) l (mk_RsSerialiser ∅).

(** The first registration of a key counts. *)
Fixpoint first_with (l : list (RsSerialType RsItem)) (k : Z) : option (RsSerialType RsItem) :=
  match l with
  | [] => None
  | t :: l => if decide (type_key t = k) then Some t else first_with l k
  end.

Lemma register_lookup l k : serialisers (register l) !! k = first_with l k.
Proof.
  unfold register.
  assert (G : forall s, serialisers (fold_left (fun s t => (addSerialType s t).1) l s) !! k =
            match serialisers s !! k with Some t => Some t | None => first_with l k end).
  { induction l as [|t l IH]; intros s; cbn [fold_left first_with]; [by destruct (serialisers s !! k)|].
    rewrite IH. unfold addSerialType. cbv zeta. fold (type_key t).
    destruct (serialisers s !! type_key t) as [t'|] eqn:E; cbn [fst].
    - destruct (serialisers s !! k) eqn:Ek; [done|]. rewrite decide_False; [done|]. congruence.
    - destruct (decide (type_key t = k)) as [<-|Hne].
      + cbn [serialisers]. by rewrite lookup_insert_eq, E.
      + cbn [serialisers]. by rewrite lookup_insert_ne. }
  rewrite G. cbn [serialisers]. by rewrite lookup_empty.
Qed.

Lemma land_masks id m n : Z.land (Z.land id m) n = Z.land id (Z.land m n).
Proof. symmetry. apply Z.land_assoc. Qed.

(** What the three tries amount to. *)
Lemma find_type_spec s id :
  find_type s id =
    match serialisers s !! Z.land id 0xFFFFFF00 with
    | Some t => Some t
    | None => match serialisers s !! Z.land id 0xFFFF0000 with
              | Some t => Some t
              | None => serialisers s !! Z.land id 0xFF000000
              end
    end.
Proof. unfold find_type. by rewrite !land_masks. Qed.

(** The registry: a serialiser is accepted exactly when its 24-bit type is new, registration
    never replaces an earlier one, and an item or packet goes to the first serialiser
    registered for its full 24-bit type, failing that for its 16-bit prefix, failing that for its
    version byte. *)
Theorem registry_dispatch l t id :
  let s := register l in
  ((addSerialType s t).2 = true <-> first_with l (type_key t) = None) /\
  (first_with l (type_key t) <> None -> (addSerialType s t).1 = s) /\
  find_type s id =
    match first_with l (Z.land id 0xFFFFFF00) with
    | Some t => Some t
    | None => match first_with l (Z.land id 0xFFFF0000) with
              | Some t => Some t
              | None => first_with l (Z.land id 0xFF000000)
              end
    end.
Proof.
  unfold addSerialType. cbv zeta. fold (type_key t). rewrite register_lookup. split; [|split].
  - by destruct (first_with l (type_key t)).
  - by destruct (first_with l (type_key t)).
  - by rewrite find_type_spec, !register_lookup.
Qed.

(** ** Reading packets *)

Lemma header_reads data :
  8 <= Z.of_nat (length data) ->
  exists ty sz, getRsItemId data = Done ty /\ getRsItemSize data = Done sz.
Proof.
  intros Hd. unfold getRsItemId, getRsItemSize, getRawUInt32, getRawUInt.
  rewrite !wrap_small by (unfold is_word; lia). cbn [Z.ltb]. rewrite !mem_read_in by lia. cbn.
  eauto.
Qed.

(** [deserialise] never reads outside the packet: on any bytes at least as long as the
    size it is given it looks at the header only when eight bytes are there, and hands the packet to a
    serialiser only when the size announced in the header is within what was received and below
    [MAX_SERIAL_SIZE]; then it reports that size as consumed, otherwise it leaves the size alone. *)
Theorem deserialise_safe s data size :
  size <= Z.of_nat (length data) ->
  exists r size', rs_deserialise s data size = Done (r, size') /\ size' <= Z.max size 0 /\
    (r <> None -> exists ty t, getRsItemId data = Done ty /\ getRsItemSize data = Done size' /\
       find_type s ty = Some t /\ (st_deserialise t data size').1 = r /\ size' <= MAX_SERIAL_SIZE).
Proof.
  intros Hs. unfold rs_deserialise. destruct (Z.ltb_spec size 8).
  - exists None, size. split; [done|]. split; [lia|done].
  - destruct (header_reads data ltac:(lia)) as (ty & sz & E1 & E2). rewrite E1, E2. cbn [mbind access_bind].
    destruct (Z.ltb_spec size sz); [exists None, size; split; [done|split; [lia|done]]|].
    destruct (Z.ltb_spec MAX_SERIAL_SIZE sz); [exists None, size; split; [done|split; [lia|done]]|].
    destruct (find_type s ty) as [t|] eqn:Ef; [|exists None, sz; split; [done|split; [lia|done]]].
    destruct (st_deserialise t data sz) as [r n] eqn:Ed.
    destruct r as [item|]; [|exists None, sz; split; [done|split; [lia|done]]].
    exists (Some item), sz. split; [done|]. split; [lia|]. intros _. exists ty, t.
    by rewrite Ed.
Qed.

(** C30 Round trip through the registry: if the serialiser an item is dispatched to keeps its
    promises, the packet [serialise] produces is read back by [deserialise] as the same item, using up
    exactly the announced size, whatever bytes follow it.  The only exception is an item larger
    than [MAX_SERIAL_SIZE]: it is serialised without complaint and then refused by every reader. *)
Theorem rs_serialiser_roundtrip s item t (handles : RsItem -> Prop)
    `{!SerialLaws PacketId t handles} rest :
  is_word 32 (PacketId item) -> find_type s (PacketId item) = Some t -> handles item ->
  Z.of_nat (length rest) + rs_size PacketId s item < 2 ^ 32 ->
  exists bytes,
    rs_serialise PacketId s item (rs_size PacketId s item) = Some (bytes, rs_size PacketId s item) /\
    let received := Z.of_nat (length (bytes ++ rest)) in
    rs_deserialise s (bytes ++ rest) received =
      if MAX_SERIAL_SIZE <? rs_size PacketId s item then Done (None, received)
      else Done (Some item, rs_size PacketId s item).
Proof.
  intros Hid Hf Hh Hlen. unfold rs_size, rs_serialise in *. rewrite Hf in *.
  pose proof (law_size item Hh) as Hsz. destruct (law_serialise item Hh) as (body & Hs & Hb).
  exists (be_bytes 4 (PacketId item) ++ be_bytes 4 (st_size t item) ++ body). split; [done|]. cbv zeta.
  pose proof (law_deserialise item _ rest Hh Hs) as Hd. rewrite <- !app_assoc in *.
  set (data := be_bytes 4 (PacketId item) ++ be_bytes 4 (st_size t item) ++ body ++ rest) in *.
  assert (Hl : Z.of_nat (length data) = st_size t item + Z.of_nat (length rest)).
  { unfold data. rewrite !length_app, !length_be_bytes. lia. }
  unfold rs_deserialise. rewrite Hl. destruct (Z.ltb_spec (st_size t item + Z.of_nat (length rest)) 8); [lia|].
  assert (Eid : getRsItemId data = Done (PacketId item)) by (by apply getRsItemId_spec).
  assert (Esz : getRsItemSize data = Done (st_size t item)) by (apply getRsItemSize_spec; split; lia).
  rewrite Eid, Esz. cbn [mbind access_bind].
  destruct (Z.ltb_spec (st_size t item + Z.of_nat (length rest)) (st_size t item)); [lia|].
  destruct (MAX_SERIAL_SIZE <? st_size t item); [done|]. rewrite Hf. by rewrite Hd.
Qed.

End dispatch.

(** Types and headers: the constructors of a packet type and its accessors are inverse to each other
    on byte fields, [setPacketService] replaces the two middle bytes only, and a header written by
    [setRsItemHeader] is read back by [getRsItemId] and [getRsItemSize], the bytes after it being
    untouched. *)
Theorem header_roundtrip ver cls t sub cls' t' size pktsize data :
  is_byte ver -> is_byte cls -> is_byte t -> is_byte sub -> is_byte cls' -> is_byte t' ->
  is_word 32 pktsize -> 8 <= size -> 8 <= Z.of_nat (length data) ->
  let ty := item_type ver cls t sub in
  getRsItemVersion ty = ver /\ getRsItemClass ty = cls /\ getRsItemType ty = t /\
  getRsItemSubType ty = sub /\ getRsItemService ty = cls * 2 ^ 8 + t /\
  setPacketService ty (cls' * 2 ^ 8 + t') = item_type ver cls' t' sub /\
  exists data', setRsItemHeader data size ty pktsize = Done (true, data') /\
    getRsItemId data' = Done ty /\ getRsItemSize data' = Done pktsize /\ drop 8 data' = drop 8 data.
Proof.
  intros Hv Hc Ht Hs Hc' Ht' Hp Hsz Hd. cbv zeta.
  destruct (item_type_accessors ver cls t sub Hv Hc Ht Hs) as (E1 & E2 & E3 & E4 & E5).
  repeat (split; [done|]). split; [by apply setPacketService_item_type|].
  rewrite setRsItemHeader_spec by done.
  eexists. split; [done|]. unfold splice. rewrite take_0. cbn [app].
  rewrite length_app, !length_be_bytes, <- app_assoc.
  split; [apply getRsItemId_spec; apply wrap_is_word; lia|].
  split; [by apply getRsItemSize_spec|].
  rewrite app_assoc, drop_app_length' by (by rewrite length_app, !length_be_bytes). done.
Qed.

Lemma header_roundtrip_witness :
  exists data', setRsItemHeader (replicate 10 7) 10 (item_type 2 0 20 1) 300 = Done (true, data') /\
    getRsItemSize data' = Done 300.
Proof.
  destruct (header_roundtrip 2 0 20 1 0 3 10 300 (replicate 10 7)) as (_ & _ & _ & _ & _ & _ & d & H1 & _ & H2 & _).
  all: try closed.
  exists d. split; assumption.
Defined.

(** ** A serialiser that keeps its promises

    Opaque bodies behind a header, as [RsRawSerialiser] handles them. *)

Definition raw_item : Type := Z * list Z.

Definition raw_serial_type (ty : Z) : RsSerialType raw_item :=
  mk_RsSerialType ty
    (fun i => 8 + Z.of_nat (length i.2))
    (fun i _ => let sz := 8 + Z.of_nat (length i.2) in
                Some (be_bytes 4 i.1 ++ be_bytes 4 sz ++ i.2, sz))
    (fun data sz => (Some (be_val (take 4 data), slice 8 (Z.to_nat (sz - 8)) data), sz)).

Definition raw_handles (i : raw_item) : Prop := is_word 32 i.1 /\ Z.of_nat (length i.2) < 2 ^ 31.

#[export] Instance raw_laws ty : SerialLaws fst (raw_serial_type ty) raw_handles.
Proof.
  split; intros [i body]; unfold raw_handles; cbn [raw_serial_type st_size st_serialise st_deserialise fst snd].
  - lia.
  - intros _. by exists body.
  - intros bytes rest [Hi Hb] H.
    assert (E : be_bytes 4 i ++ be_bytes 4 (8 + Z.of_nat (length body)) ++ body = bytes) by congruence.
    rewrite <- E, <- !app_assoc.
    rewrite take_app_length' by (by rewrite length_be_bytes). rewrite be_val_bytes, Z.mod_small by exact Hi.
    unfold slice. rewrite app_assoc, drop_app_length' by (by rewrite length_app, !length_be_bytes).
    rewrite take_app_length' by lia. done.
Qed.

Definition sample_registry : RsSerialiser raw_item :=
  register [raw_serial_type (service_item_type 2 20 0); raw_serial_type (service_item_type 2 0 0)].

Lemma rs_serialiser_roundtrip_witness :
  exists bytes, rs_serialise fst sample_registry (0x02001403, [1; 2; 3]) 11 = Some (bytes, 11) /\
    rs_deserialise sample_registry (bytes ++ [9]) 12 = Done (Some (0x02001403, [1; 2; 3]), 11).
Proof.
  destruct (rs_serialiser_roundtrip fst sample_registry (0x02001403, [1; 2; 3])
              (raw_serial_type (service_item_type 2 20 0)) raw_handles [9]) as (bytes & H1 & H2).
  - closed.
  - reflexivity.
  - closed.
  - closed.
  - exists bytes. split; [exact H1|]. cbv zeta in H2.
    change (rs_size fst sample_registry (0x02001403, [1; 2; 3])) with 11 in H1, H2.
    injection H1 as <-. exact H2.
Defined.

Lemma deserialise_safe_witness :
  exists r size', rs_deserialise sample_registry [2; 0; 20; 3; 0; 0; 0; 99] 8 = Done (r, size') /\ size' <= 8.
Proof.
  destruct (deserialise_safe sample_registry [2; 0; 20; 3; 0; 0; 0; 99] 8 ltac:(closed)) as (r & n & H1 & H2 & _).
  exists r, n. split; [exact H1|exact H2].
Defined.
