(* ===== verification/Streamer.v ===== *)
(** * The packet streamer: src/pqi/pqistreamer.cc and pqiqosstreamer.cc

    [pqiQoSstreamer] (a [pqistreamer] whose output queue is a [pqiQoS]) turns
    serialized items into a byte stream and back.  Items small enough are sent as they are; larger
    ones leave as slices behind an 8-byte slice header and are put together again by
    the receiver.  The connection is a [BinInterface], given as a class; the clock and
    the time stamps are arguments.  Bodies of memory are byte lists; freeing [mPkt_wpending]
    without resetting the pointer leaves [WDangling], and any later use of it is the outcome
    [Fault], as is an access outside a buffer; [Exit] is [rs_malloc] ending the process. *)

From S2P Require Import Prelude RawSerial Serialiser QoS.
From Stdlib Require Import ZArith Lia SpecFloat.
From stdpp Require Import base list gmap.
Open Scope Z_scope.

(** ** Outcomes *)

Inductive run (A : Type) : Type :=
| Ok (a : A)
| Fault
| Exit.
Arguments Ok {A} a.
Arguments Fault {A}.
Arguments Exit {A}.

#[export] Instance run_ret : MRet run := @Ok.
#[export] Instance run_bind : MBind run := fun A B f m =>
  match m with Ok a => f a | Fault => Fault | Exit => Exit end.

Definition of_access {A} (m : access A) : run A := match m with Done a => Ok a | Oob => Fault end.

(** ** The connection: pqi/pqi_base.h

    [readdata] returns the bytes it stores and its result; the streamer assumes it either
    stores the whole length or keeps the data for later. *)
Class BinInterface (B : Type) := {
  isactive : B -> bool;
  cansend : B -> bool;
  moretoread : B -> bool;
  bandwidthLimited : B -> bool;
  senddata : B -> list Z -> Z -> B * Z;
  readdata : B -> Z -> B * list Z * Z;
  bio_close : B -> B
}.

Class BinLaws (B : Type) `{BinInterface B} := {
  law_readdata : forall b len, 0 <= len ->
    let '(_, bytes, n) := readdata b len in
    Z.of_nat (length bytes) <= len /\ -1 <= n <= len /\ (n = len -> Z.of_nat (length bytes) = len) /\
    (n <> len -> bytes = []) /\ bytes_ok bytes;
  law_readdata_neg : forall b len, len < 0 ->
    let '(_, bytes, n) := readdata b len in bytes = [] /\ -1 <= n <= 0;
  law_senddata : forall b bytes len, 0 <= len -> (senddata b bytes len).2 <= len
}.

(** ** Constants *)

Definition PQISTREAM_ABS_MAX : Z := 100000000.
Definition PQISTREAM_OPTIMAL_PACKET_SIZE : Z := 1400.
Definition PQISTREAM_SLICE_FLAG_STARTS : Z := 0x01.
Definition PQISTREAM_SLICE_FLAG_ENDS : Z := 0x02.
Definition PQISTREAM_SLICE_PROTOCOL_VERSION_ID_01 : Z := 0x10.
Definition PQISTREAM_PARTIAL_PACKET_HEADER_SIZE : Z := 8.
Definition PQISTREAM_PACKET_SLICING_PROBE_DELAY : Z := 60.
Definition PQISTREAM_AVG_DT_FRAC : float32 := SFdiv 24 128 (f32_of_Z 99) (f32_of_Z 100).
Definition PACKET_SLICING_PROBE_BYTES : list Z := [0x02; 0xaa; 0xbb; 0xcc; 0x00; 0x00; 0x00; 0x08].
Definition max_failed_read_attempts : Z := 2000.

(** ** State *)

Inductive wpending := WNull | WMem (bytes : list Z) | WDangling.

Record RSTrafficClue := mk_clue {
  tc_TS : Z; tc_size : Z; tc_priority : Z; tc_service_id : Z; tc_service_sub_id : Z; tc_count : Z
}.

Record Streamer (Item : Type) := mk_Streamer {
  qos : pqiQoS;                            (* base class pqiQoS *)
  _total_item_size : Z;                    (* uint32_t *)
  _total_item_count : Z;                   (* uint32_t *)
  mPkt_wpending : wpending;
  mPkt_wpending_size : Z;                  (* uint32_t *)
  mPkt_rpending : option (list Z);
  mPkt_rpend_size : Z;                     (* int *)
  mReading_state : bool;                   (* reading_state_packet_started? *)
  mFailed_read_attempts : Z;               (* int *)
  mPartialPackets : gmap Z (list Z);
  mIncoming : list Item;
  mIncomingSize : Z;                       (* uint32_t *)
  mTotalRead : Z; mTotalSent : Z;          (* uint64_t *)
  mCurrRead : Z; mCurrSent : Z;            (* int *)
  mAvgReadCount : Z; mAvgSentCount : Z;    (* uint32_t *)
  mCurrReadTS : float64; mCurrSentTS : float64;
  mAvgDtOut : float64; mAvgDtIn : float64;
  bwMax_in : float32; bwMax_out : float32; (* RateInterface *)
  traf_in : Z; traf_out : Z;               (* PQInterface, uint64_t *)
  mLastIncomingTs : Z;
  mPreviousStatsChunk_In : list RSTrafficClue;
  mPreviousStatsChunk_Out : list RSTrafficClue;
  mCurrentStatsChunk_In : list RSTrafficClue;
  mCurrentStatsChunk_Out : list RSTrafficClue;
  mStatisticsTimeStamp : Z;
  mAcceptsPacketSlicing : bool;
  mLastSentPacketSlicingProbe : Z          (* rstime_t *)
}.
Arguments qos {Item} _.
Arguments _total_item_size {Item} _.
Arguments _total_item_count {Item} _.
Arguments mPkt_wpending {Item} _.
Arguments mPkt_wpending_size {Item} _.
Arguments mPkt_rpending {Item} _.
Arguments mPkt_rpend_size {Item} _.
Arguments mReading_state {Item} _.
Arguments mFailed_read_attempts {Item} _.
Arguments mPartialPackets {Item} _.
Arguments mIncoming {Item} _.
Arguments mIncomingSize {Item} _.
Arguments mTotalRead {Item} _.
Arguments mTotalSent {Item} _.
Arguments mCurrRead {Item} _.
Arguments mCurrSent {Item} _.
Arguments mAvgReadCount {Item} _.
Arguments mAvgSentCount {Item} _.
Arguments mCurrReadTS {Item} _.
Arguments mCurrSentTS {Item} _.
Arguments mAvgDtOut {Item} _.
Arguments mAvgDtIn {Item} _.
Arguments bwMax_in {Item} _.
Arguments bwMax_out {Item} _.
Arguments traf_in {Item} _.
Arguments traf_out {Item} _.
Arguments mLastIncomingTs {Item} _.
Arguments mPreviousStatsChunk_In {Item} _.
Arguments mPreviousStatsChunk_Out {Item} _.
Arguments mCurrentStatsChunk_In {Item} _.
Arguments mCurrentStatsChunk_Out {Item} _.
Arguments mStatisticsTimeStamp {Item} _.
Arguments mAcceptsPacketSlicing {Item} _.
Arguments mLastSentPacketSlicingProbe {Item} _.

#[export] Instance eta_Streamer Item : Eta (Streamer Item) := fun s =>
  mk_Streamer Item (qos s) (_total_item_size s) (_total_item_count s) (mPkt_wpending s)
    (mPkt_wpending_size s) (mPkt_rpending s) (mPkt_rpend_size s) (mReading_state s)
    (mFailed_read_attempts s) (mPartialPackets s) (mIncoming s) (mIncomingSize s)
    (mTotalRead s) (mTotalSent s) (mCurrRead s) (mCurrSent s) (mAvgReadCount s) (mAvgSentCount s)
    (mCurrReadTS s) (mCurrSentTS s) (mAvgDtOut s) (mAvgDtIn s) (bwMax_in s) (bwMax_out s)
    (traf_in s) (traf_out s) (mLastIncomingTs s) (mPreviousStatsChunk_In s)
    (mPreviousStatsChunk_Out s) (mCurrentStatsChunk_In s) (mCurrentStatsChunk_Out s)
    (mStatisticsTimeStamp s) (mAcceptsPacketSlicing s) (mLastSentPacketSlicingProbe s).

Definition PQI_QOS_STREAMER_MAX_LEVELS : nat := 10.
Definition PQI_QOS_STREAMER_ALPHA : float32 := f32_of_Z 2.

(** [pqistreamer::pqistreamer] and [pqiQoSstreamer::pqiQoSstreamer] at time [t]. *)
Definition new_Streamer (Item : Type) (t : float64) : Streamer Item :=
  mk_Streamer Item (new_pqiQoS PQI_QOS_STREAMER_MAX_LEVELS PQI_QOS_STREAMER_ALPHA) 0 0 WNull 0
    None 0 false 0 ∅ [] 0 0 0 0 0 0 0 t t (f64_of_Z 0) (f64_of_Z 0)
    (SFdiv 24 128 (f32_of_Z 1) (f32_of_Z 10)) (SFdiv 24 128 (f32_of_Z 1) (f32_of_Z 10))
    0 0 0 [] [] [] [] 0 false 0.

Section operations.
Context {Item : Type} (PacketId : Item -> Z) (priority_level : Item -> Z) (stamp_peer : Item -> Item).
Context (ser : RsSerialiser Item).
Context {B : Type} `{BinInterface B}.
Implicit Types (s : Streamer Item) (b : B).

(** ** The output queue: pqiqosstreamer.cc *)

Definition locked_storeInOutputQueue s (ptr : list Z) (sz priority : Z) : Streamer Item :=
  s <| _total_item_size := u32 (_total_item_size s + sz) |>
    <| _total_item_count := u32 (_total_item_count s + 1) |>
    <| qos := in_rsItem (qos s) ptr sz priority |>.

Definition locked_clear_out_queue s : Streamer Item :=
  s <| qos := clear (qos s) |> <| _total_item_size := 0 |> <| _total_item_count := 0 |>.

Definition locked_pop_out_data s (max_slice_size : Z) (o : SliceOut)
    : Streamer Item * option (list Z) * SliceOut :=
  let '(q, out, o) := out_rsItem (qos s) max_slice_size o in
  let s := s <| qos := q |> in
  match out with
  | None => (s, None, o)
  | Some dta =>
      let s := s <| _total_item_size := u32 (_total_item_size s - o_size o) |> in
      let s := if o_ends o then s <| _total_item_count := u32 (_total_item_count s - 1) |> else s in
      (s, Some dta, o)
  end.

Definition locked_out_queue_size s : Z := sint32 (_total_item_count s).
Definition locked_compute_out_pkt_size s : Z := sint32 (_total_item_size s).

Definition getQueueSize s (inq : bool) : Z :=
  if inq then sint32 (mIncomingSize s) else sint32 (qos_queue_size (qos s)).

(** ** Statistics and bandwidth *)

(** [locked_addTrafficClue]; [out] selects the list passed by reference. *)
Definition locked_addTrafficClue s (pqi : Item) (pktsize : Z) (out : bool) (now : Z) : Streamer Item :=
  let s :=
    if mStatisticsTimeStamp s <? now then
      s <| mPreviousStatsChunk_Out := mCurrentStatsChunk_Out s |>
        <| mPreviousStatsChunk_In := mCurrentStatsChunk_In s |>
        <| mCurrentStatsChunk_Out := [] |> <| mCurrentStatsChunk_In := [] |>
        <| mStatisticsTimeStamp := now |>
    else s in
  let tc := mk_clue now pktsize (priority_level pqi) (getRsItemService (PacketId pqi))
              (getRsItemSubType (PacketId pqi)) 1 in
  if out then s <| mCurrentStatsChunk_Out := mCurrentStatsChunk_Out s ++ [tc] |>
  else s <| mCurrentStatsChunk_In := mCurrentStatsChunk_In s ++ [tc] |>.

(** [(int) x] and a [double] returned as [int]. *)
Definition int_of_f64 (x : float64) : Z := Z_of_float x.

(** [FRAC * avg + (1 - FRAC) * dt]; [1 - FRAC] is a [float]. *)
Definition low_pass (avg dt : float64) : float64 :=
  f64_add (f64_mul (f64_of_f32 PQISTREAM_AVG_DT_FRAC) avg)
          (f64_mul (f64_of_f32 (f32_sub (f32_of_Z 1) PQISTREAM_AVG_DT_FRAC)) dt).

Definition clip_dt (dt : float64) : float64 := if float_lt (f64_of_Z 1) dt then f64_of_Z 1 else dt.

Definition outAllowedBytes_locked s b (t : float64) : Streamer Item * Z :=
  if negb (bandwidthLimited b) then
    (s <| mCurrSent := 0 |> <| mCurrSentTS := t |>, PQISTREAM_ABS_MAX)
  else
    let dt := clip_dt (f64_sub t (mCurrSentTS s)) in
    let s := s <| mAvgDtOut := low_pass (mAvgDtOut s) dt |> in
    let maxout := f64_mul (f64_of_f32 (bwMax_out s)) (f64_of_Z 1024) in
    let s := s <| mCurrSent := mCurrSent s - int_of_f64 (f64_mul dt maxout) |> in
    let s := if mCurrSent s <? 0 then s <| mCurrSent := 0 |> else s in
    let s := s <| mCurrSentTS := t |> in
    (s, int_of_f64 (f64_sub (f64_mul (mAvgDtOut s) maxout) (f64_of_Z (mCurrSent s)))).

Definition inAllowedBytes s b (t : float64) : Streamer Item * Z :=
  if negb (bandwidthLimited b) then
    (s <| mCurrRead := 0 |> <| mCurrReadTS := t |>, PQISTREAM_ABS_MAX)
  else
    let dt := clip_dt (f64_sub t (mCurrReadTS s)) in
    let s := s <| mAvgDtIn := low_pass (mAvgDtIn s) dt |> in
    let maxin := f64_mul (f64_of_f32 (bwMax_in s)) (f64_of_Z 1024) in
    let s := s <| mCurrRead := mCurrRead s - int_of_f64 (f64_mul dt maxin) |> in
    let floor := f64_mul (SFopp (mAvgDtIn s)) maxin in
    let s := if float_lt (f64_of_Z (mCurrRead s)) floor
             then s <| mCurrRead := int_of_f64 floor |> else s in
    let s := s <| mCurrReadTS := t |> in
    (s, int_of_f64 (f64_mul (mAvgDtIn s) maxin)).

Definition outSentBytes_locked s (outb : Z) : Streamer Item :=
  s <| mTotalSent := u64 (mTotalSent s + outb) |>
    <| mCurrSent := sint32 (mCurrSent s + outb) |>
    <| mAvgSentCount := u32 (mAvgSentCount s + outb) |>
    <| traf_out := u64 (traf_out s + outb) |>.

Definition inReadBytes s (inb : Z) : Streamer Item :=
  s <| mTotalRead := u64 (mTotalRead s + inb) |>
    <| mCurrRead := sint32 (mCurrRead s + inb) |>
    <| mAvgReadCount := u32 (mAvgReadCount s + inb) |>
    <| traf_in := u64 (traf_in s + inb) |>.

(** ** Queueing an item *)

(** Returns the streamer, [pktsize] and the result. *)
Definition queue_outpqi_locked s (pqi : Item) (now : Z) : run (Streamer Item * Z * Z) :=
  let pktsize := rs_size PacketId ser pqi in
  if negb (rs_malloc_ok pktsize) then Exit
  else
    let s := locked_addTrafficClue s pqi pktsize true now in
    match rs_serialise PacketId ser pqi pktsize with
    | Some (ptr, pktsize) =>
        Ok (locked_storeInOutputQueue s ptr (sint32 pktsize) (priority_level pqi), pktsize, 1)
    | None => Ok (s, pktsize, 1)
    end.

Definition SendItem s (si : Item) (now : Z) : run (Streamer Item * Z * Z) := queue_outpqi_locked s si now.

Definition GetItem s : Streamer Item * option Item :=
  match mIncoming s with
  | [] => (s, None)
  | osr :: rest =>
      (s <| mIncoming := rest |> <| mIncomingSize := u32 (mIncomingSize s - 1) |>, Some osr)
  end.

Definition handleincomingitem s (pqi : Item) (len now : Z) : Streamer Item :=
  let s := s <| mLastIncomingTs := now |> in
  let pqi := stamp_peer pqi in
  let s := s <| mIncoming := mIncoming s ++ [pqi] |> <| mIncomingSize := u32 (mIncomingSize s + 1) |> in
  locked_addTrafficClue s pqi len false now.

(** ** Pending buffers *)

(** [free(mPkt_wpending)] alone. *)
Definition free_wpending (w : wpending) : run wpending :=
  match w with WNull => Ok WNull | WMem _ => Ok WDangling | WDangling => Fault end.

(** [if (mPkt_wpending) { free(mPkt_wpending); mPkt_wpending = NULL; }] *)
Definition reset_wpending s : run (Streamer Item) :=
  w ← free_wpending (mPkt_wpending s); Ok (s <| mPkt_wpending := WNull |>).

Definition allocate_rpend s : Streamer Item :=
  match mPkt_rpending s with
  | Some _ => s
  | None =>
      s <| mPkt_rpend_size := getRsPktMaxSize |>
        <| mPkt_rpending := Some (replicate (Z.to_nat getRsPktMaxSize) 0) |>
  end.

Definition free_pend s : run (Streamer Item) :=
  let s := s <| mPkt_rpending := None |> <| mPkt_rpend_size := 0 |> in
  s ← reset_wpending s;
  let s := s <| mPkt_wpending_size := 0 |> <| mPartialPackets := ∅ |> in
  Ok (locked_clear_out_queue s).

(** ** Sending *)

(** [realloc] to the new size and copy behind what is there. *)
Definition wpending_append (w : wpending) (bytes : list Z) : run wpending :=
  match w with
  | WNull => Ok (WMem bytes)
  | WMem old => Ok (WMem (old ++ bytes))
  | WDangling => Fault
  end.

(** The 8-byte header of a slice. *)
Definition slice_header (o : SliceOut) : list Z :=
  let partial_flags := 0 in
  let partial_flags := if o_starts o then Z.lor partial_flags PQISTREAM_SLICE_FLAG_STARTS else partial_flags in
  let partial_flags := if o_ends o then Z.lor partial_flags PQISTREAM_SLICE_FLAG_ENDS else partial_flags in
  [PQISTREAM_SLICE_PROTOCOL_VERSION_ID_01; partial_flags;
   Z.land (u8 (Z.shiftr (o_packet_id o) 24)) 0xff; Z.land (u8 (Z.shiftr (o_packet_id o) 16)) 0xff;
   Z.land (u8 (Z.shiftr (o_packet_id o) 8)) 0xff; Z.land (u8 (Z.shiftr (o_packet_id o) 0)) 0xff;
   Z.land (u8 (Z.shiftr (o_size o) 8)) 0xff; Z.land (u8 (Z.shiftr (o_size o) 0)) 0xff].

(** Adding one slice to the pending packet; [false] is the early return after the
    "protocol error" message, which frees the packet but keeps the pointer. *)
Definition append_slice s (dta : list Z) (o : SliceOut) : run (Streamer Item * bool) :=
  let body := take (Z.to_nat (o_size o)) dta in
  if o_starts o && o_ends o then
    w ← wpending_append (mPkt_wpending s) body;
    Ok (s <| mPkt_wpending := w |> <| mPkt_wpending_size := u32 (mPkt_wpending_size s + o_size o) |>, true)
  else if (0xffff <? o_size o) || negb (mAcceptsPacketSlicing s) then
    w ← free_wpending (mPkt_wpending s);
    Ok (s <| mPkt_wpending := w |> <| mPkt_wpending_size := 0 |>, false)
  else
    w ← wpending_append (mPkt_wpending s) (slice_header o ++ body);
    Ok (s <| mPkt_wpending := w |>
          <| mPkt_wpending_size := u32 (mPkt_wpending_size s + o_size o
                                        + PQISTREAM_PARTIAL_PACKET_HEADER_SIZE) |>, true).

(** The [do ... while] that packs slices into one packet. *)
Fixpoint fill_packet (fuel : nat) s (maxbytes : Z) (o : SliceOut) : run (Streamer Item * bool) :=
  match fuel with
  | O => Ok (s, true)
  | S fuel =>
      let desired_packet_size :=
        if mAcceptsPacketSlicing s then PQISTREAM_OPTIMAL_PACKET_SIZE else getRsPktMaxSize in
      let '(s, dta, o) := locked_pop_out_data s desired_packet_size o in
      match dta with
      | None => Ok (s, true)
      | Some dta =>
          '(s, ok) ← append_slice s dta o;
          if negb ok then Ok (s, false)
          else if (mPkt_wpending_size s <? u32 maxbytes)
                  && (mPkt_wpending_size s <? PQISTREAM_OPTIMAL_PACKET_SIZE)
          then fill_packet fuel s maxbytes o
          else Ok (s, true)
      end
  end.

(** A packet never takes more turns of the loop than it has bytes below the threshold. *)
Definition fill_fuel : nat := 1401.

(** Building the pending packet when there is none; [false] as above. *)
Definition build_packet s (maxbytes now : Z) : run (Streamer Item * bool) :=
  match mPkt_wpending s with
  | WNull =>
      let s := s <| mPkt_wpending_size := 0 |> in
      let s :=
        if mLastSentPacketSlicingProbe s + PQISTREAM_PACKET_SLICING_PROBE_DELAY <? now then
          s <| mPkt_wpending_size := 8 |> <| mPkt_wpending := WMem PACKET_SLICING_PROBE_BYTES |>
            <| mLastSentPacketSlicingProbe := now |>
        else s in
      fill_packet fill_fuel s maxbytes (mk_SliceOut 0 true true 0)
  | _ => Ok (s, true)
  end.

(** Writing it: [true] when the whole packet was taken by the connection. *)
Definition write_packet s b : run (Streamer Item * B * bool) :=
  match mPkt_wpending s with
  | WNull => Ok (s, b, false)
  | WDangling => Fault
  | WMem bytes =>
      let '(b, ss) := senddata b bytes (mPkt_wpending_size s) in
      if negb (mPkt_wpending_size s =? u32 ss) then Ok (s, b, false)
      else
        let s := outSentBytes_locked s (mPkt_wpending_size s) in
        Ok (s <| mPkt_wpending := WNull |> <| mPkt_wpending_size := 0 |>, b, true)
  end.

(** The loop [while(sent)]; [clock] gives [time(NULL)] at each turn. *)
Fixpoint outgoing_loop (fuel turn : nat) s b (maxbytes sentbytes : Z) (clock : nat -> Z)
    : run (Streamer Item * B * Z) :=
  match fuel with
  | O => Ok (s, b, sentbytes)
  | S fuel =>
      if negb (cansend b) || (maxbytes <? sentbytes) then Ok (s, b, sentbytes)
      else
        '(s, ok) ← build_packet s maxbytes (clock turn);
        if negb ok then Ok (s, b, sentbytes)
        else
          let size := mPkt_wpending_size s in
          '(s, b, sent) ← write_packet s b;
          if (sent : bool) then outgoing_loop fuel (S turn) s b maxbytes (sentbytes + size) clock
          else Ok (s, b, sentbytes)
  end.

Definition handleoutgoing_locked (fuel : nat) s b (t : float64) (clock : nat -> Z) : run (Streamer Item * B * Z) :=
  let '(s, maxbytes) := outAllowedBytes_locked s b t in
  if negb (isactive b) then
    let s := locked_clear_out_queue s in
    let s := s <| mAcceptsPacketSlicing := false |> in
    match mPkt_wpending s with
    | WNull => Ok (s, b, 0)
    | _ => s ← reset_wpending s; Ok (s <| mPkt_wpending_size := 0 |>, b, 0)
    end
  else outgoing_loop fuel 0 s b maxbytes 0 clock.

(** ** Receiving *)

(** Putting a slice into its record; a packet that ends is deserialised and its record erased.
    [realloc(rec.mem, rec.size + slice_length)] computes in [uint32_t]: past 4 GB the copy runs
    out of the buffer. *)
Definition addPartialPacket s (block : list Z) (len slice_packet_id : Z)
    (is_packet_starting is_packet_ending : bool) : run (Streamer Item * option Item * Z) :=
  if is_packet_starting && is_packet_ending then Ok (s, None, 0)
  else
    let slice_length := u32 (len - PQISTREAM_PARTIAL_PACKET_HEADER_SIZE) in
    let slice_data := Prelude.slice (Z.to_nat PQISTREAM_PARTIAL_PACKET_HEADER_SIZE) (Z.to_nat slice_length) block in
    match mPartialPackets s !! slice_packet_id with
    | None =>
        if negb is_packet_starting then Ok (s, None, 0)
        else if negb (rs_malloc_ok slice_length) then Exit
        else Ok (s <| mPartialPackets := <[slice_packet_id := slice_data]> (mPartialPackets s) |>, None, 0)
    | Some rec =>
        let rec := if is_packet_starting then [] else rec in
        if 2 ^ 32 <=? Z.of_nat (length rec) + slice_length then Fault
        else
        let rec := rec ++ slice_data in
        if is_packet_ending then
          '(item, total_len) ← of_access (rs_deserialise ser rec (Z.of_nat (length rec)));
          Ok (s <| mPartialPackets := delete slice_packet_id (mPartialPackets s) |>, item, total_len)
        else
          Ok (s <| mPartialPackets := <[slice_packet_id := rec]> (mPartialPackets s) |>, None, 0)
    end.

(** Storing what [readdata] delivered into the block. *)
Definition store_block s (off : Z) (bytes : list Z) : run (Streamer Item) :=
  match mPkt_rpending s with
  | None => Fault
  | Some block =>
      block ← of_access (mem_write block off bytes);
      Ok (s <| mPkt_rpending := Some block |>)
  end.

Definition block_of s : list Z := default [] (mPkt_rpending s).

Definition restart_reading s : Streamer Item :=
  s <| mReading_state := false |> <| mFailed_read_attempts := 0 |>.

(** How a header is understood: slice or not, starting, ending, id, bytes still to read. *)
Record Header := mk_Header {
  h_partial : bool; h_starting : bool; h_ending : bool; h_id : Z; h_extralen : Z
}.

Definition parse_header (block : list Z) : run Header :=
  let byte i := nth i block 0 in
  let is_packet_starting := byte 1%nat =? PQISTREAM_SLICE_FLAG_STARTS in
  let is_packet_ending := byte 1%nat =? PQISTREAM_SLICE_FLAG_ENDS in
  let is_packet_middle := byte 1%nat =? 0x00 in
  if (byte 0%nat =? PQISTREAM_SLICE_PROTOCOL_VERSION_ID_01)
     && (is_packet_starting || is_packet_middle || is_packet_ending)
  then
    Ok (mk_Header true is_packet_starting is_packet_ending
          (u32 (Z.shiftl (byte 2%nat) 24 + Z.shiftl (byte 3%nat) 16 + Z.shiftl (byte 4%nat) 8
                + Z.shiftl (byte 5%nat) 0))
          (u32 (Z.shiftl (byte 6%nat) 8 + byte 7%nat)))
  else
    size ← of_access (getRsItemSize block);
    Ok (mk_Header false is_packet_starting is_packet_ending 0 (u32 (size - getRsPktBaseSize))).

(** What follows a complete packet of [pktlen] bytes in the block. *)
Definition deliver s (h : Header) (pktlen now : Z) : run (Streamer Item) :=
  '(s, pkt, pktlen) ←
    (if h_partial h then
       '(s, pkt, packet_length) ← addPartialPacket s (block_of s) pktlen (h_id h) (h_starting h) (h_ending h);
       Ok (s, pkt, match pkt with Some _ => packet_length | None => pktlen end)
     else
       '(pkt, n) ← of_access (rs_deserialise ser (block_of s) pktlen);
       Ok (s, pkt, n)) : run (Streamer Item * option Item * Z);
  let s :=
    match pkt with
    | Some pkt => inReadBytes (handleincomingitem s pkt pktlen now) pktlen
    | None => s
    end in
  Ok (restart_reading s).

(** [start_packet_read]: [true] when a header was read and reading goes on with the packet. *)
Definition read_header s b : run (Streamer Item * B * Z * bool) :=
  let blen := getRsPktBaseSize in
  s ← store_block s 0 (replicate (Z.to_nat blen) 0);
  let '(b, bytes, tmplen) := readdata b blen in
  s ← store_block s 0 bytes;
  if negb (tmplen =? blen) then Ok (s, b, 0, false)
  else
    let s := s <| mReading_state := true |> <| mFailed_read_attempts := 0 |> in
    if decide (take 8 (block_of s) = PACKET_SLICING_PROBE_BYTES) then
      Ok (restart_reading (s <| mAcceptsPacketSlicing := true |>), b, blen, false)
    else Ok (s, b, blen, true).

(** [continue_packet]: the body, then the delivery; [true] when the packet was completed. *)
Definition read_body s b (now : Z) : run (Streamer Item * B * Z * bool) :=
  let blen := getRsPktBaseSize in
  h ← parse_header (block_of s);
  let s := if h_partial h then s <| mAcceptsPacketSlicing := true |> else s in
  let extralen := h_extralen h in
  if u32 (mPkt_rpend_size s) <? u32 (extralen + blen) then
    Ok (restart_reading s, bio_close b, 0, false)
  else if 0 <? extralen then
    let '(b, bytes, tmplen) := readdata b (sint32 extralen) in
    s ← store_block s blen bytes;
    if negb (extralen =? u32 tmplen) then
      let s := s <| mFailed_read_attempts := mFailed_read_attempts s + 1 |> in
      if max_failed_read_attempts <? mFailed_read_attempts s
      then Ok (restart_reading s, bio_close b, 0, false)
      else Ok (s, b, 0, false)
    else
      let s := s <| mFailed_read_attempts := 0 |> in
      s ← deliver s h (u32 (blen + extralen)) now;
      Ok (s, b, sint32 extralen, true)
  else
    s ← deliver s h (u32 (blen + extralen)) now;
    Ok (s, b, 0, true).

(** [goto start_packet_read] / [continue_packet], until no more may or can be read. *)
Fixpoint incoming_loop (fuel turn : nat) s b (maxin readbytes : Z) (clock : nat -> Z)
    : run (Streamer Item * B * Z) :=
  match fuel with
  | O => Ok (s, b, readbytes)
  | S fuel =>
      '(s, b, n, go_on) ←
        (if mReading_state s then Ok (s, b, 0, true) else read_header s b)
        : run (Streamer Item * B * Z * bool);
      let readbytes := readbytes + n in
      if negb go_on then Ok (s, b, readbytes)
      else
        '(s, b, n, complete) ← read_body s b (clock turn);
        let readbytes := sint32 (readbytes + n) in
        if negb complete then Ok (s, b, readbytes)
        else if (readbytes <? maxin) && moretoread b
        then incoming_loop fuel (S turn) s b maxin readbytes clock
        else Ok (s, b, readbytes)
  end.

Definition handleincoming (fuel : nat) s b (t : float64) (clock : nat -> Z) : run (Streamer Item * B * Z) :=
  if negb (isactive b) then
    s ← free_pend (s <| mReading_state := false |>);
    Ok (s, b, 0)
  else
    let s := allocate_rpend s in
    let '(s, maxin) := inAllowedBytes s b t in
    incoming_loop fuel 0 s b maxin 0 clock.

(** ** Ticks *)

Definition tick_recv (fuel : nat) s b (t : float64) (clock : nat -> Z) : run (Streamer Item * B * Z) :=
  if negb (isactive b) then s ← free_pend s; Ok (s, b, 0)
  else
    '(s, b, readbytes) ←
      (if moretoread b then handleincoming fuel s b t clock else Ok (s, b, 0))
      : run (Streamer Item * B * Z);
    if negb (isactive b) then s ← free_pend s; Ok (s, b, readbytes) else Ok (s, b, readbytes).

Definition tick_send (fuel : nat) s b (t : float64) (clock : nat -> Z) : run (Streamer Item * B * Z) :=
  if negb (isactive b) then s ← free_pend s; Ok (s, b, 0)
  else
    '(s, b, sentbytes) ←
      (if cansend b then handleoutgoing_locked fuel s b t clock else Ok (s, b, 0))
      : run (Streamer Item * B * Z);
    if negb (isactive b) then s ← free_pend s; Ok (s, b, sentbytes) else Ok (s, b, sentbytes).

End operations.
