(* ===== verification/StreamerProps.v ===== *)
(** * Properties of the packet streamer

    Memory safety of the receiver, the accounting of the output queue, and the end-to-end
    statement: two streamers joined by a byte pipe deliver, level by level, exactly the items
    submitted, in order, whatever the slicing, the interleaving of levels and the schedule. *)

From S2P Require Import Prelude RawSerial Serialiser QoS Streamer.
From Stdlib Require Import ZArith Lia SpecFloat.
From stdpp Require Import base list gmap sets.
Open Scope Z_scope.

(** ** Slices on the wire *)

(** A served slice: level, front record before the call, slice size. *)
Definition served_rec : Type := nat * ItemRecord * Z.

Definition wire (x : served_rec) : list Z :=
  let '(_, r, max) := x in
  let o := slice_out max r in
  if o_starts o && o_ends o then chunk max r else slice_header o ++ chunk max r.

Lemma length_wire l r max : (length (wire (l, r, max)) <= 8 + length (chunk max r))%nat.
Proof. unfold wire. destruct (o_starts _ && o_ends _); [lia|]. rewrite length_app. cbn. lia. Qed.

(** Slices of an item must fit the 16-bit size field. *)
Definition sliceable (max : Z) (r : ItemRecord) : Prop :=
  o_starts (slice_out max r) && o_ends (slice_out max r) = true \/ max < 2 ^ 16.

Inductive serve : list (list ItemRecord) -> list served_rec -> list (list ItemRecord) -> Prop :=
  | serve_nil lv : serve lv [] lv
  | serve_cons lv l r max rest tr lv' :
      lv !! l = Some (r :: rest) -> 0 < max -> sliceable max r ->
      serve (<[l := advance max r rest]> lv) tr lv' ->
      serve lv ((l, r, max) :: tr) lv'.

Lemma serve_app lv tr1 lv1 tr2 lv2 : serve lv tr1 lv1 -> serve lv1 tr2 lv2 -> serve lv (tr1 ++ tr2) lv2.
Proof. induction 1; intros Hx; [done|]. cbn. eapply serve_cons; eauto. Qed.

Lemma alter_insert_comm {A} (f : A -> A) k l x (lv : list A) :
  alter f k (<[l := x]> lv) = <[l := if decide (k = l) then f x else x]> (alter f k lv).
Proof.
  apply list_eq. intros j. destruct (decide (l < length lv)%nat) as [Hl|Hl].
  - destruct (decide (k = l)) as [->|Hkl].
    + destruct (decide (j = l)) as [->|].
      * rewrite list_lookup_alter_eq, !list_lookup_insert_eq by (rewrite ?length_alter; done). done.
      * rewrite list_lookup_alter_ne, !list_lookup_insert_ne, list_lookup_alter_ne by done. done.
    + destruct (decide (j = l)) as [->|].
      * rewrite list_lookup_alter_ne, !list_lookup_insert_eq by (rewrite ?length_alter; done). done.
      * rewrite list_lookup_insert_ne by done. destruct (decide (j = k)) as [->|].
        -- by rewrite !list_lookup_alter_eq, list_lookup_insert_ne.
        -- by rewrite !list_lookup_alter_ne, list_lookup_insert_ne.
  - rewrite !list_insert_ge by (rewrite ?length_alter; lia). done.
Qed.

Lemma advance_app max r rest x : advance max r (rest ++ [x]) = advance max r rest ++ [x].
Proof. unfold advance. by destruct (finishes max r). Qed.

(** Items queued later do not disturb what is served from the front. *)
Lemma serve_queue lv tr lv' k x :
  serve lv tr lv' -> serve (alter (fun l => l ++ [x]) k lv) tr (alter (fun l => l ++ [x]) k lv').
Proof.
  induction 1 as [lv|lv l r max rest tr lv' Hl Hm Hsl _ IH]; [constructor|].
  destruct (decide (k = l)) as [->|Hne].
  - apply serve_cons with (rest := rest ++ [x]); [by rewrite list_lookup_alter_eq, Hl|done|done|].
    rewrite advance_app. rewrite alter_insert_comm, decide_True in IH by done. exact IH.
  - apply serve_cons with (rest := rest); [by rewrite list_lookup_alter_ne by done|done|done|].
    rewrite alter_insert_comm, decide_False in IH by done. exact IH.
Qed.

(** ** The sending side *)

Definition wrep (w : wpending) (bytes : list Z) : Prop :=
  (w = WNull /\ bytes = []) \/ w = WMem bytes.

Section sender.
Context {Item : Type}.
Implicit Types s : Streamer Item.

(** Items fit a packet; a half-sent item needs slicing to be on. *)
Record sender_ok s : Prop := {
  so_qos : qos_ok (qos s);
  so_size : Forall (Forall (fun r => r_size r <= MAX_SERIAL_SIZE)) (levels (qos s));
  so_slicing : mAcceptsPacketSlicing s = false ->
    Forall (Forall (fun r => current_offset r = 0)) (levels (qos s))
}.

Lemma wrep_append w bytes more : wrep w bytes -> wpending_append w more = Ok (WMem (bytes ++ more)).
Proof. intros [[-> ->]| ->]; done. Qed.

Lemma length_slice_header o : length (slice_header o) = 8%nat.
Proof. done. Qed.

Definition desired s : Z := if mAcceptsPacketSlicing s then PQISTREAM_OPTIMAL_PACKET_SIZE else getRsPktMaxSize.

Lemma desired_range s : 0 < desired s < 2 ^ 18.
Proof. unfold desired, PQISTREAM_OPTIMAL_PACKET_SIZE, getRsPktMaxSize, MAX_SERIAL_SIZE. case_goal; lia. Qed.

(** Popping a slice. *)
Lemma pop_spec s o :
  sender_ok s ->
  if decide (qos_queue_size (qos s) = 0) then locked_pop_out_data s (desired s) o = (s, None, o)
  else exists l r rest s',
    levels (qos s) !! l = Some (r :: rest) /\ rec_ok r /\ r_size r <= MAX_SERIAL_SIZE /\
    locked_pop_out_data s (desired s) o = (s', Some (chunk (desired s) r), slice_out (desired s) r) /\
    levels (qos s') = <[l := advance (desired s) r rest]> (levels (qos s)) /\
    mAcceptsPacketSlicing s' = mAcceptsPacketSlicing s /\ mPkt_wpending s' = mPkt_wpending s /\
    mPkt_wpending_size s' = mPkt_wpending_size s /\ qos_ok (qos s') /\
    _id_counter (qos s') = _id_counter (qos s) /\ length (_item_queues (qos s')) = length (_item_queues (qos s)).
Proof.
  intros [Hq Hsz Hsl]. unfold locked_pop_out_data, qos_queue_size. destruct (decide _) as [E|E].
  - unfold out_rsItem. rewrite E. cbn [Z.eqb]. by destruct s.
  - pose proof (desired_range s) as Hd.
    destruct (out_rsItem_spec (qos s) (desired s) o Hq E ltac:(lia)) as (r & rest & Hl & Hr & H).
    cbv zeta in Hl, H. set (l := (choose_level _).2) in *.
    destruct (out_rsItem (qos s) (desired s) o) as [[q res] o']. destruct H as (-> & -> & L & _ & I & Q).
    pose proof (proj1 (Forall_lookup _ _) Hsz l _ Hl) as Hs. apply Forall_cons in Hs as [Hs _].
    assert (Len : length (_item_queues q) = length (_item_queues (qos s))).
    { rewrite <- (length_fmap _items (_item_queues q)), <- (length_fmap _items (_item_queues (qos s))).
      fold (levels q) (levels (qos s)). by rewrite L, length_insert. }
    eexists l, r, rest, _. split; [done|]. split; [done|]. split; [done|]. split; [reflexivity|].
    destruct (o_ends (slice_out (desired s) r)); done.
Qed.

(** What sending leaves alone. *)
Definition same_sender s s' : Prop :=
  mAcceptsPacketSlicing s' = mAcceptsPacketSlicing s /\
  _id_counter (qos s') = _id_counter (qos s) /\
  length (_item_queues (qos s')) = length (_item_queues (qos s)).

Lemma same_sender_refl s : same_sender s s.
Proof. done. Qed.

Lemma same_sender_trans s1 s2 s3 : same_sender s1 s2 -> same_sender s2 s3 -> same_sender s1 s3.
Proof. unfold same_sender. intuition congruence. Qed.

(** Without slicing every slice is a whole item. *)
Lemma whole_or_sliced s l r rest :
  sender_ok s -> levels (qos s) !! l = Some (r :: rest) ->
  let o := slice_out (desired s) r in
  o_starts o && o_ends o = true \/ (mAcceptsPacketSlicing s = true /\ o_size o <= 0xffff).
Proof.
  intros [Hq Hsz Hsl] Hl. cbv zeta. destruct (mAcceptsPacketSlicing s) eqn:Ea.
  - right. split; [done|]. cbn. unfold chunk, desired. rewrite Ea, length_take.
    unfold PQISTREAM_OPTIMAL_PACKET_SIZE. lia.
  - left. pose proof (proj1 (Forall_lookup _ _) (Hsl eq_refl) l _ Hl) as Ho.
    pose proof (proj1 (Forall_lookup _ _) Hsz l _ Hl) as Hs.
    apply Forall_cons in Ho as [Ho _]. apply Forall_cons in Hs as [Hs _].
    unfold slice_out, finishes, desired. cbn [o_starts o_ends]. rewrite Ea, Ho.
    unfold getRsPktMaxSize. cbn [Z.eqb andb]. apply Z.leb_le. lia.
Qed.

Lemma sender_ok_step s s' l r rest :
  sender_ok s -> levels (qos s) !! l = Some (r :: rest) ->
  qos_ok (qos s') -> levels (qos s') = <[l := advance (desired s) r rest]> (levels (qos s)) ->
  mAcceptsPacketSlicing s' = mAcceptsPacketSlicing s -> sender_ok s'.
Proof.
  intros Hs Hl Hq L Ea. pose proof (whole_or_sliced s l r rest Hs Hl) as Hw. destruct Hs as [_ Hsz Hsl].
  split; [done| |].
  - rewrite L. apply Forall_insert; [done|].
    pose proof (proj1 (Forall_lookup _ _) Hsz l _ Hl) as Hs. apply Forall_cons in Hs as [Hr Hs].
    unfold advance. destruct (finishes _ _); [done|]. by constructor.
  - rewrite Ea, L. intros E. apply Forall_insert; [by apply Hsl|].
    pose proof (proj1 (Forall_lookup _ _) (Hsl E) l _ Hl) as Ho. apply Forall_cons in Ho as [Hr Ho].
    unfold advance. destruct Hw as [Hw|[Hw _]]; [|congruence].
    cbn in Hw. apply andb_prop in Hw as [_ Hw]. by rewrite Hw.
Qed.

(** One turn of the packing loop. *)
Lemma append_slice_spec s w l r :
  rec_ok r -> r_size r <= MAX_SERIAL_SIZE ->
  (let o := slice_out (desired s) r in
   o_starts o && o_ends o = true \/ (mAcceptsPacketSlicing s = true /\ o_size o <= 0xffff)) ->
  wrep (mPkt_wpending s) w -> mPkt_wpending_size s = Z.of_nat (length w) -> (length w < 1400)%nat ->
  exists s', append_slice s (chunk (desired s) r) (slice_out (desired s) r) = Ok (s', true) /\
    mPkt_wpending s' = WMem (w ++ wire (l, r, desired s)) /\
    mPkt_wpending_size s' = Z.of_nat (length (w ++ wire (l, r, desired s))) /\
    qos s' = qos s /\ mAcceptsPacketSlicing s' = mAcceptsPacketSlicing s /\
    (0 < length (wire (l, r, desired s)))%nat.
Proof.
  intros Hr Hsz Hw Hrep Hlen Hlt. cbv zeta in Hw. unfold append_slice, wire.
  pose proof (desired_range s) as Hd. pose proof (length_chunk (desired s) r Hr ltac:(lia)) as Hc.
  assert (Hpos : 0 < Z.of_nat (length (chunk (desired s) r)) <= MAX_SERIAL_SIZE) by (destruct Hr; lia).
  unfold MAX_SERIAL_SIZE in Hpos.
  assert (Hbody : take (Z.to_nat (o_size (slice_out (desired s) r))) (chunk (desired s) r) = chunk (desired s) r)
    by (cbn [slice_out o_size]; rewrite Nat2Z.id; by apply take_ge).
  rewrite Hbody. destruct (o_starts _ && o_ends _) eqn:E.
  - rewrite (wrep_append _ w) by done. cbn [mbind run_bind]. eexists. split; [done|].
    split; [done|]. split; [|split; [done|split; [done|lia]]].
    cbn. rewrite Hlen, length_app, wrap_small; [lia|unfold is_word; lia].
  - destruct Hw as [Hw|[Ha Ho]]; [congruence|]. rewrite Ha.
    replace (0xffff <? o_size (slice_out (desired s) r)) with false by (symmetry; apply Z.ltb_ge; lia).
    cbn [orb negb]. rewrite (wrep_append _ w) by done. cbn [mbind run_bind]. eexists. split; [done|].
    split; [done|]. split; [|split; [done|split; [exact Ha|rewrite length_app; cbn [length slice_header]; lia]]].
    cbn [upd mPkt_wpending_size]. rewrite Hlen, !length_app, length_slice_header.
    cbn [slice_out o_size] in *. unfold PQISTREAM_PARTIAL_PACKET_HEADER_SIZE.
    rewrite wrap_small; [lia|unfold is_word; lia].
Qed.

Lemma fill_packet_spec fuel maxbytes : forall s w o,
  sender_ok s -> wrep (mPkt_wpending s) w -> mPkt_wpending_size s = Z.of_nat (length w) ->
  (length w < 1400)%nat ->
  exists tr s' w', fill_packet fuel s maxbytes o = Ok (s', true) /\
    serve (levels (qos s)) tr (levels (qos s')) /\ w' = w ++ concat (wire <$> tr) /\
    wrep (mPkt_wpending s') w' /\ mPkt_wpending_size s' = Z.of_nat (length w') /\
    Z.of_nat (length w') < 2 ^ 31 /\ sender_ok s' /\ same_sender s s' /\
    (fuel <> O -> qos_queue_size (qos s) <> 0 -> tr <> []).
Proof.
  induction fuel as [|fuel IH]; intros s w o Hs Hrep Hlen Hlt; cbn [fill_packet].
  - exists [], s, w. cbn. rewrite app_nil_r. repeat (split; [done || constructor || lia|]). done.
  - fold (desired s). pose proof (pop_spec s o Hs) as Hp. destruct (decide _) as [E|E].
    + rewrite Hp. exists [], s, w. cbn. rewrite app_nil_r. repeat (split; [done || constructor || lia|]).
      intros _ Hq. by destruct (Hq E).
    + destruct Hp as (l & r & rest & s1 & Hl & Hr & Hsz & -> & L1 & A1 & W1 & Z1 & Q1 & I1 & N1).
      assert (D1 : desired s1 = desired s) by (unfold desired; by rewrite A1).
      pose proof (whole_or_sliced s l r rest Hs Hl) as Hw. cbv zeta in Hw. rewrite <- D1, <- A1 in Hw.
      destruct (append_slice_spec s1 w l r Hr Hsz Hw) as (s2 & Ha & W2 & Z2 & Q2 & A2 & Hpos);
        [by rewrite W1|by rewrite Z1|done|].
      rewrite D1 in Ha, W2, Z2, Hpos. rewrite Ha. cbn [mbind run_bind negb].
      pose proof (sender_ok_step s s1 l r rest Hs Hl Q1 L1 A1) as Hs1.
      assert (Hs2 : sender_ok s2).
      { destruct Hs1 as [? ? ?]. by constructor; rewrite ?Q2, ?A2. }
      assert (Hd : 0 < desired s) by (pose proof (desired_range s); lia).
      assert (Hsl : sliceable (desired s) r).
      { rewrite D1, A1 in Hw. destruct Hw as [Hw|[Ha' _]]; [by left|right].
        unfold desired, PQISTREAM_OPTIMAL_PACKET_SIZE. by rewrite Ha'. }
      assert (Hsv : forall tr lv', serve (levels (qos s2)) tr lv' ->
                serve (levels (qos s)) ((l, r, desired s) :: tr) lv').
      { intros tr lv' H. eapply serve_cons; [exact Hl|lia|exact Hsl|]. by rewrite <- L1, <- Q2. }
      assert (Sm : same_sender s s2) by (split; [congruence|split; congruence]).
      destruct ((mPkt_wpending_size s2 <? u32 maxbytes)
                && (mPkt_wpending_size s2 <? PQISTREAM_OPTIMAL_PACKET_SIZE)) eqn:Ec.
      * apply andb_prop in Ec as [_ Ec]. apply Z.ltb_lt in Ec. rewrite Z2 in Ec.
        unfold PQISTREAM_OPTIMAL_PACKET_SIZE in Ec.
        destruct (IH s2 (w ++ wire (l, r, desired s)) (slice_out (desired s) r) Hs2)
          as (tr & s3 & w3 & H3 & S3 & -> & R3 & Z3 & B3 & O3 & M3 & _); [by right|done|lia|].
        rewrite H3. exists ((l, r, desired s) :: tr), s3, ((w ++ wire (l, r, desired s)) ++ concat (wire <$> tr)).
        split; [done|]. split; [by apply Hsv|].
        split; [cbn [fmap list_fmap concat]; by rewrite app_assoc|].
        split; [exact R3|]. split; [exact Z3|]. split; [exact B3|]. split; [exact O3|].
        split; [by eapply same_sender_trans|done].
      * exists [(l, r, desired s)], s2, (w ++ wire (l, r, desired s)). split; [done|].
        split; [apply Hsv; constructor|]. cbn [fmap list_fmap concat]. rewrite app_nil_r. split; [done|].
        split; [by right|]. split; [done|]. split; [|split; [exact Hs2|split; [exact Sm|done]]].
        pose proof (length_wire l r (desired s)).
        pose proof (length_chunk (desired s) r Hr Hd). unfold MAX_SERIAL_SIZE in Hsz.
        rewrite length_app. destruct Hr. lia.
Qed.

End sender.

(** ** A pipe *)

Record Pipe := mk_Pipe { content : list Z; limited : bool; closed_pipe : bool }.

(** All that is asked is delivered, in order; a read gets its whole length or nothing. *)
#[export] Instance pipe_bin : BinInterface Pipe := {
  isactive p := negb (closed_pipe p);
  cansend p := true;
  moretoread p := negb (bool_decide (content p = []));
  bandwidthLimited := limited;
  senddata p bytes len := (mk_Pipe (content p ++ take (Z.to_nat len) bytes) (limited p) (closed_pipe p), len);
  readdata p len :=
    if (0 <=? len) && (len <=? Z.of_nat (length (content p)))
    then (mk_Pipe (drop (Z.to_nat len) (content p)) (limited p) (closed_pipe p),
          take (Z.to_nat len) (content p), len)
    else (p, [], -1);
  bio_close p := mk_Pipe (content p) (limited p) true
}.

(** Frames on the wire: probes and slices. *)
Definition frame : Type := option served_rec.
Definition encode (f : frame) : list Z := match f with Some x => wire x | None => PACKET_SLICING_PROBE_BYTES end.
Definition stream (fs : list frame) : list Z := concat (encode <$> fs).
Definition slices (fs : list frame) : list served_rec := omap (fun f => f) fs.

Lemma stream_app fs1 fs2 : stream (fs1 ++ fs2) = stream fs1 ++ stream fs2.
Proof. unfold stream. by rewrite fmap_app, concat_app. Qed.

Lemma slices_app fs1 fs2 : slices (fs1 ++ fs2) = slices fs1 ++ slices fs2.
Proof. apply omap_app. Qed.

Lemma stream_slices tr : stream (Some <$> tr) = concat (wire <$> tr) /\ slices (Some <$> tr) = tr.
Proof.
  unfold stream, slices. rewrite <- list_fmap_compose. split; [done|].
  induction tr as [|x tr IH]; [done|]. cbn. by f_equal.
Qed.

Section sending.
Context {Item : Type}.
Implicit Types s : Streamer Item.

Lemma build_packet_spec s maxbytes now :
  sender_ok s -> mPkt_wpending s = WNull ->
  exists fs s', build_packet s maxbytes now = Ok (s', true) /\
    serve (levels (qos s)) (slices fs) (levels (qos s')) /\
    wrep (mPkt_wpending s') (stream fs) /\ mPkt_wpending_size s' = Z.of_nat (length (stream fs)) /\
    Z.of_nat (length (stream fs)) < 2 ^ 31 /\ sender_ok s' /\ same_sender s s' /\
    (qos_queue_size (qos s) <> 0 -> slices fs <> []).
Proof.
  intros Hs Hw. unfold build_packet. rewrite Hw.
  match goal with |- context [fill_packet _ ?x _ _] => set (s0 := x) end.
  assert (H0 : exists pf, slices pf = [] /\ wrep (mPkt_wpending s0) (stream pf) /\
            mPkt_wpending_size s0 = Z.of_nat (length (stream pf)) /\ (length (stream pf) < 1400)%nat /\
            qos s0 = qos s /\ mAcceptsPacketSlicing s0 = mAcceptsPacketSlicing s).
  { subst s0. destruct (_ <? now).
    - exists [None]. split; [done|]. split; [by right|]. split; [done|]. split; [cbn; lia|done].
    - exists []. split; [done|]. split; [by left|]. split; [done|]. split; [cbn; lia|done]. }
  destruct H0 as (pf & Ep & R0 & Z0 & L0 & Q0 & A0). clearbody s0.
  assert (Hs0 : sender_ok s0) by (destruct Hs; constructor; rewrite ?Q0, ?A0; done).
  destruct (fill_packet_spec fill_fuel maxbytes s0 (stream pf) (mk_SliceOut 0 true true 0) Hs0 R0 Z0 L0)
    as (tr & s' & w' & Hf & Hv & -> & R' & Z' & B' & O' & M' & P').
  exists (pf ++ (Some <$> tr)), s'. rewrite stream_app, slices_app, Ep.
  destruct (stream_slices tr) as [-> ->]. split; [done|]. split; [by rewrite <- Q0|].
  split; [done|]. split; [done|]. split; [done|]. split; [done|].
  split; [unfold same_sender in *; by rewrite <- Q0, <- A0|]. rewrite <- Q0. by apply P'.
Qed.

Lemma outgoing_loop_spec fuel maxbytes clock : forall turn s (p : Pipe) sentbytes,
  sender_ok s -> mPkt_wpending s = WNull ->
  exists fs s' n,
    outgoing_loop fuel turn s p maxbytes sentbytes clock
      = Ok (s', mk_Pipe (content p ++ stream fs) (limited p) (closed_pipe p), n) /\
    serve (levels (qos s)) (slices fs) (levels (qos s')) /\
    sender_ok s' /\ mPkt_wpending s' = WNull /\ same_sender s s' /\
    (fuel <> O -> sentbytes <= maxbytes -> qos_queue_size (qos s) <> 0 -> slices fs <> []).
Proof.
  induction fuel as [|fuel IH]; intros turn s p sentbytes Hs Hw; cbn [outgoing_loop].
  - exists [], s, sentbytes. rewrite app_nil_r. destruct p. repeat (split; [done || constructor|]). done.
  - cbn [cansend pipe_bin negb orb]. destruct (Z.ltb_spec maxbytes sentbytes).
    { exists [], s, sentbytes. rewrite app_nil_r. destruct p. repeat (split; [done || constructor|]). lia. }
    destruct (build_packet_spec s maxbytes (clock turn) Hs Hw) as (fs & s1 & -> & Hv & R & Zs & Bs & Hs1 & M1 & P1).
    cbn [mbind run_bind negb]. unfold write_packet. destruct R as [[Rw Rb]|Rw]; rewrite Rw; cbn [mbind run_bind].
    { exists fs, s1, sentbytes. rewrite Rb, app_nil_r. destruct p. repeat (split; [done|]). auto. }
    cbn [senddata pipe_bin]. rewrite Zs, wrap_small, Z.eqb_refl by (unfold is_word; lia).
    cbn [negb mbind run_bind]. rewrite Nat2Z.id, take_ge by done.
    set (s2 := upd mPkt_wpending_size _ _).
    destruct (IH (S turn) s2 (mk_Pipe (content p ++ stream fs) (limited p) (closed_pipe p))
                (sentbytes + Z.of_nat (length (stream fs))))
      as (fs' & s' & n & E & Hv' & O' & W' & M' & _); [by destruct Hs1|done|].
    exists (fs ++ fs'), s', n. rewrite stream_app, slices_app, app_assoc. split; [exact E|].
    split; [by eapply serve_app|]. split; [done|]. split; [done|].
    split; [by eapply same_sender_trans|]. intros _ _ Hq Happ. apply app_nil in Happ as [Happ _]. by apply P1.
Qed.

Lemma tick_send_spec fuel s (p : Pipe) t clock :
  sender_ok s -> mPkt_wpending s = WNull -> closed_pipe p = false ->
  exists fs s' n,
    tick_send fuel s p t clock = Ok (s', mk_Pipe (content p ++ stream fs) (limited p) false, n) /\
    serve (levels (qos s)) (slices fs) (levels (qos s')) /\
    sender_ok s' /\ mPkt_wpending s' = WNull /\ same_sender s s' /\
    (fuel <> O -> limited p = false -> qos_queue_size (qos s) <> 0 -> slices fs <> []).
Proof.
  intros Hs Hw Hc. unfold tick_send. cbn [isactive pipe_bin]. rewrite Hc. cbn [negb cansend pipe_bin].
  unfold handleoutgoing_locked. destruct (outAllowedBytes_locked s p t) as [s0 maxbytes] eqn:E0.
  assert (H0 : qos s0 = qos s /\ mAcceptsPacketSlicing s0 = mAcceptsPacketSlicing s /\
            mPkt_wpending s0 = mPkt_wpending s /\ (limited p = false -> 0 <= maxbytes)).
  { unfold outAllowedBytes_locked in E0. cbn [bandwidthLimited pipe_bin] in E0. destruct (limited p); cbn [negb] in E0.
    - destruct (mCurrSent _ <? 0); by injection E0 as <- <-.
    - by injection E0 as <- <-. }
  destruct H0 as (Q0 & A0 & W0 & X0). cbn [isactive pipe_bin]. rewrite Hc. cbn [negb].
  destruct (outgoing_loop_spec fuel maxbytes clock 0 s0 p 0) as (fs & s' & n & -> & Hv & O' & W' & M' & P');
    [by destruct Hs; constructor; rewrite ?Q0, ?A0|by rewrite W0|].
  cbn [mbind run_bind isactive pipe_bin closed_pipe]. rewrite Hc. cbn [negb].
  exists fs, s', n. split; [done|]. split; [by rewrite <- Q0|]. split; [done|]. split; [done|].
  split; [unfold same_sender in *; by rewrite <- Q0, <- A0|]. rewrite <- Q0. auto.
Qed.

End sending.

(** ** The receiving side *)

Section receiver.
Context {Item : Type} (PacketId : Item -> Z) (priority_level : Item -> Z) (stamp_peer : Item -> Item).
Context (ser : RsSerialiser Item).
Implicit Types s : Streamer Item.

(** A serialized item the wire format can tell from slices and probes. *)
Record pkt_ok (data : list Z) (item : Item) : Prop := {
  pk_len : 8 <= Z.of_nat (length data) <= MAX_SERIAL_SIZE;
  pk_version : nth 0 data 0 <> PQISTREAM_SLICE_PROTOCOL_VERSION_ID_01;
  pk_probe : take 8 data <> PACKET_SLICING_PROBE_BYTES;
  pk_size : forall rest, getRsItemSize (take 8 data ++ rest) = Done (Z.of_nat (length data));
  pk_item : forall rest, rs_deserialise ser (data ++ rest) (Z.of_nat (length data))
                         = Done (Some item, Z.of_nat (length data))
}.

(** What a slice does to the partial packets, and the packet it completes. *)
Definition receive (m : gmap Z (list Z)) (x : served_rec) : gmap Z (list Z) * option (list Z) :=
  let '(_, r, max) := x in
  let o := slice_out max r in
  if o_starts o && o_ends o then (m, Some (chunk max r))
  else
    match m !! o_packet_id o with
    | None => (if o_starts o then <[o_packet_id o := chunk max r]> m else m, None)
    | Some rec =>
        let rec := (if o_starts o then [] else rec) ++ chunk max r in
        if o_ends o then (delete (o_packet_id o) m, Some rec) else (<[o_packet_id o := rec]> m, None)
    end.

Record recv_ok s : Prop := {
  ro_block : exists block, mPkt_rpending s = Some block /\ Z.of_nat (length block) = MAX_SERIAL_SIZE;
  ro_size : mPkt_rpend_size s = MAX_SERIAL_SIZE;
  ro_state : mReading_state s = false
}.

Lemma header_byte z n : Z.land (u8 (Z.shiftr z n)) 0xff = Z.shiftr z n mod 256.
Proof.
  unfold wrap. change 0xff with (Z.ones 8). rewrite Z.land_ones by lia. change (2 ^ 8) with 256. apply Zmod_mod.
Qed.

Lemma id_bytes z : is_word 32 z ->
  Z.shiftl (Z.shiftr z 24 mod 256) 24 + Z.shiftl (Z.shiftr z 16 mod 256) 16
  + Z.shiftl (Z.shiftr z 8 mod 256) 8 + Z.shiftl (Z.shiftr z 0 mod 256) 0 = z.
Proof.
  intros Hz. unfold is_word in Hz. rewrite !Z.shiftl_mul_pow2, !Z.shiftr_div_pow2 by lia.
  change (2 ^ 0) with 1. rewrite Z.div_1_r, Z.mul_1_r.
  change (2 ^ 8) with 256. change (2 ^ 16) with (256 * 256). change (2 ^ 24) with (256 * 256 * 256).
  rewrite <- !Z.div_div by lia.
  pose proof (Z.div_mod z 256 ltac:(lia)). pose proof (Z.div_mod (z / 256) 256 ltac:(lia)).
  pose proof (Z.div_mod (z / 256 / 256) 256 ltac:(lia)).
  assert (z / 256 / 256 / 256 < 256) by (rewrite !Z.div_div by lia; apply Z.div_lt_upper_bound; lia).
  assert (0 <= z / 256 / 256 / 256) by (repeat apply Z.div_pos; lia).
  rewrite (Z.mod_small (z / 256 / 256 / 256) 256) by lia. lia.
Qed.

Lemma size_bytes z : is_word 16 z ->
  Z.shiftl (Z.shiftr z 8 mod 256) 8 + Z.shiftr z 0 mod 256 = z.
Proof.
  intros Hz. unfold is_word in Hz. rewrite Z.shiftl_mul_pow2, !Z.shiftr_div_pow2 by lia.
  change (2 ^ 0) with 1. rewrite Z.div_1_r. change (2 ^ 8) with 256.
  pose proof (Z.div_mod z 256 ltac:(lia)).
  rewrite (Z.mod_small (z / 256)); [lia|]. split; [apply Z.div_pos; lia|apply Z.div_lt_upper_bound; lia].
Qed.

(** The header of a slice is understood as it was meant. *)
Lemma parse_slice_header o rest :
  is_word 32 (o_packet_id o) -> is_word 16 (o_size o) -> o_starts o && o_ends o = false ->
  parse_header (slice_header o ++ rest)
  = Ok (mk_Header true (o_starts o) (o_ends o) (o_packet_id o) (o_size o)).
Proof.
  intros Hid Hsz Hse. unfold parse_header, slice_header. rewrite !header_byte. cbn [app nth].
  rewrite id_bytes, size_bytes by done. rewrite !wrap_small by (unfold is_word in *; lia).
  destruct (o_starts o), (o_ends o); done.
Qed.

Lemma parse_packet_header data item rest :
  pkt_ok data item ->
  exists a b, parse_header (take 8 data ++ rest)
    = Ok (mk_Header false a b 0 (Z.of_nat (length data) - 8)).
Proof.
  intros [Hl Hv _ Hs _]. unfold parse_header. unfold MAX_SERIAL_SIZE in Hl.
  assert (E0 : nth 0 (take 8 data ++ rest) 0 = nth 0 data 0) by (destruct data; [cbn in Hl; lia|done]).
  rewrite E0. replace (nth 0 data 0 =? _) with false by (symmetry; by apply Z.eqb_neq).
  cbn [andb]. rewrite Hs. cbn [of_access mbind run_bind]. do 2 eexists.
  unfold getRsPktBaseSize. rewrite wrap_small by (unfold is_word; lia). done.
Qed.

Lemma store_block_spec s block off bytes :
  mPkt_rpending s = Some block -> 0 <= off ->
  off + Z.of_nat (length bytes) <= Z.of_nat (length block) ->
  store_block s off bytes = Ok (s <| mPkt_rpending := Some (splice (Z.to_nat off) bytes block) |>).
Proof. intros Hb H0 Hl. unfold store_block. rewrite Hb, mem_write_in by done. done. Qed.

(** What reading a header or a body does not touch. *)
Definition same_recv s s' : Prop :=
  mPartialPackets s' = mPartialPackets s /\ mIncoming s' = mIncoming s /\
  mPkt_rpend_size s' = mPkt_rpend_size s.

Lemma splice0_splice0 {A} (z a block : list A) :
  length z = length a -> (length z <= length block)%nat ->
  splice 0 a (splice 0 z block) = a ++ drop (length a) block.
Proof.
  intros Hl Hb. unfold splice. rewrite !take_0. cbn [app]. rewrite Hl.
  by rewrite drop_app_length' by done.
Qed.

Lemma read_header_spec s p enc rest :
  recv_ok s -> content p = enc ++ rest -> 8 <= Z.of_nat (length enc) ->
  exists s' tail, let p' := mk_Pipe (drop 8 enc ++ rest) (limited p) (closed_pipe p) in
    same_recv s s' /\ mPkt_rpending s' = Some (take 8 enc ++ tail) /\
    Z.of_nat (length tail) = MAX_SERIAL_SIZE - 8 /\
    ((take 8 enc = PACKET_SLICING_PROBE_BYTES /\ mReading_state s' = false /\
      read_header s p = Ok (s', p', 8, false)) \/
     (take 8 enc <> PACKET_SLICING_PROBE_BYTES /\ read_header s p = Ok (s', p', 8, true))).
Proof.
  intros [(block & Hb & Hlb) Hsz Hst] Hc Hl. cbv zeta. unfold MAX_SERIAL_SIZE in Hlb.
  assert (H8 : length (take 8 enc) = 8%nat) by (rewrite length_take; lia).
  unfold read_header, getRsPktBaseSize. change (Z.to_nat 8) with 8%nat.
  rewrite (store_block_spec s block) by (rewrite ?length_replicate; done || lia). cbn [mbind run_bind].
  cbn [readdata pipe_bin]. rewrite Hc. rewrite length_app.
  replace ((0 <=? 8) && (8 <=? Z.of_nat (length enc + length rest))) with true
    by (symmetry; apply andb_true_intro; split; [done|apply Z.leb_le; lia]).
  change (Z.to_nat 8) with 8%nat. change (Z.to_nat 0) with 0%nat.
  rewrite take_app_le, drop_app_le by lia.
  rewrite (store_block_spec _ (splice 0 (replicate 8 0) block))
    by (rewrite ?length_splice, ?H8; rewrite ?length_replicate; done || lia).
  change (Z.to_nat 0) with 0%nat.
  rewrite splice0_splice0 by (rewrite ?length_replicate, ?H8; lia). rewrite H8.
  cbn [mbind run_bind Z.eqb Pos.eqb negb].
  assert (Ht : take 8 (take 8 enc ++ drop 8 block) = take 8 enc) by (by apply take_app_length').
  match goal with |- context [block_of ?x] => change (block_of x) with (take 8 enc ++ drop 8 block) end.
  rewrite Ht.
  destruct (decide (take 8 enc = PACKET_SLICING_PROBE_BYTES)) as [E|E].
  - eexists _, (drop 8 block). split; [|split; [|split; [|left; split; [exact E|split; [|reflexivity]]]]]; try done.
    unfold MAX_SERIAL_SIZE. rewrite length_drop. lia.
  - eexists _, (drop 8 block). split; [|split; [|split; [|right; split; [exact E|reflexivity]]]]; try done.
    unfold MAX_SERIAL_SIZE. rewrite length_drop. lia.
Qed.

(** The receiver after one frame: its partial packets, and what it delivered. *)
Definition recv_after s s' (m : gmap Z (list Z)) (d : list Item) : Prop :=
  mPartialPackets s' = m /\ mIncoming s' = mIncoming s ++ d /\ mReading_state s' = false /\
  mPkt_rpending s' = mPkt_rpending s /\ mPkt_rpend_size s' = mPkt_rpend_size s.

Lemma handle_fields s item len now :
  let s' := restart_reading (inReadBytes (handleincomingitem PacketId priority_level stamp_peer s item len now) len) in
  recv_after s s' (mPartialPackets s) [stamp_peer item].
Proof.
  cbv zeta. unfold handleincomingitem, locked_addTrafficClue. destruct (_ <? now); done.
Qed.

Lemma deliver_packet s a b data item tail now :
  pkt_ok data item -> block_of s = data ++ tail ->
  exists s', deliver PacketId priority_level stamp_peer ser s
      (mk_Header false a b 0 (Z.of_nat (length data) - 8)) (Z.of_nat (length data)) now = Ok s' /\
    recv_after s s' (mPartialPackets s) [stamp_peer item].
Proof.
  intros Hp Hb. unfold deliver. cbn [h_partial]. rewrite Hb, (pk_item _ _ Hp).
  cbn [of_access mbind run_bind]. eexists. split; [reflexivity|]. apply handle_fields.
Qed.

Lemma deliver_slice s x tail now d :
  let '(_, r, max) := x in let o := slice_out max r in
  o_starts o && o_ends o = false ->
  block_of s = slice_header o ++ chunk max r ++ tail ->
  0 < Z.of_nat (length (chunk max r)) < 2 ^ 16 ->
  (forall rec, mPartialPackets s !! o_packet_id o = Some rec -> Z.of_nat (length rec) < 2 ^ 31) ->
  (forall data, (receive (mPartialPackets s) x).2 = Some data -> exists item, pkt_ok data item /\ d = [stamp_peer item]) ->
  ((receive (mPartialPackets s) x).2 = None -> d = []) ->
  exists s', deliver PacketId priority_level stamp_peer ser s
      (mk_Header true (o_starts o) (o_ends o) (o_packet_id o) (o_size o)) (8 + o_size o) now = Ok s' /\
    recv_after s s' (receive (mPartialPackets s) x).1 d.
Proof.
  destruct x as [[l r] max]. cbv zeta. intros Hse Hb Hc Hm Hd Hn. set (o := slice_out max r) in *.
  assert (Esz : o_size o = Z.of_nat (length (chunk max r))) by done.
  unfold deliver. cbn [h_partial h_id h_starting h_ending]. unfold addPartialPacket. rewrite Hse.
  unfold PQISTREAM_PARTIAL_PACKET_HEADER_SIZE. replace (8 + o_size o - 8) with (o_size o) by lia.
  rewrite wrap_small by (rewrite Esz; unfold is_word; lia).
  assert (Hsl : Prelude.slice (Z.to_nat 8) (Z.to_nat (o_size o)) (block_of s) = chunk max r).
  { rewrite Hb, Esz, Nat2Z.id. unfold Prelude.slice. rewrite drop_app_length' by done.
    by apply take_app_length'. }
  rewrite Hsl. unfold receive in Hd, Hn |- *. fold o in Hd, Hn |- *. rewrite Hse in Hd, Hn |- *.
  destruct (mPartialPackets s !! o_packet_id o) as [rec|] eqn:Em.
  - specialize (Hm rec eq_refl). set (rec' := if o_starts o then [] else rec) in *.
    assert (Hrec : Z.of_nat (length rec') < 2 ^ 31) by (unfold rec'; destruct (o_starts o); [done|lia]).
    replace (2 ^ 32 <=? Z.of_nat (length rec') + o_size o) with false by (symmetry; apply Z.leb_gt; lia).
    destruct (o_ends o).
    + destruct (Hd _ eq_refl) as (item & Hp & ->). cbn [snd] in Hp.
      pose proof (pk_item _ _ Hp []) as Hi. rewrite app_nil_r in Hi. rewrite Hi.
      cbn [of_access mbind run_bind]. eexists. split; [reflexivity|].
      match goal with |- context [handleincomingitem _ _ _ ?s0 _ _ _] => pose proof (handle_fields s0 item (Z.of_nat (length (rec' ++ chunk max r))) now) as G end.
      exact G.
    + rewrite Hn by done. cbn [mbind run_bind]. eexists. split; [reflexivity|]. cbn.
      repeat (split; [done|]). split; [|done]. by rewrite app_nil_r.
  - destruct (o_starts o) eqn:Es; cbn [negb].
    + replace (rs_malloc_ok (o_size o)) with true.
      2: { unfold rs_malloc_ok, RS_SAFE_MEMALLOC_THRESHOLD. rewrite Esz. zbool; lia || done. }
      cbn [negb mbind run_bind]. rewrite Hn by done. eexists. split; [reflexivity|].
      split; [done|]. split; [|done]. cbn. by rewrite app_nil_r.
    + cbn [mbind run_bind]. rewrite Hn by done. eexists. split; [reflexivity|].
      split; [done|]. split; [|done]. cbn. by rewrite app_nil_r.
Qed.

Lemma read_body_reads s (p : Pipe) enc tail rest h now :
  mPkt_rpending s = Some (take 8 enc ++ tail) -> Z.of_nat (length tail) = MAX_SERIAL_SIZE - 8 ->
  mPkt_rpend_size s = MAX_SERIAL_SIZE -> 8 <= Z.of_nat (length enc) <= MAX_SERIAL_SIZE ->
  content p = drop 8 enc ++ rest ->
  parse_header (take 8 enc ++ tail) = Ok h -> h_extralen h = Z.of_nat (length enc) - 8 ->
  exists s1 tail', same_recv s s1 /\ mPkt_rpending s1 = Some (enc ++ tail') /\
    Z.of_nat (length (enc ++ tail')) = MAX_SERIAL_SIZE /\
    read_body PacketId priority_level stamp_peer ser s p now =
      (s2 ← deliver PacketId priority_level stamp_peer ser s1 h (Z.of_nat (length enc)) now;
       Ok (s2, mk_Pipe rest (limited p) (closed_pipe p), Z.of_nat (length enc) - 8, true)).
Proof.
  intros Hb Ht Hsz Hl Hc Hh Hx. unfold read_body, block_of. rewrite Hb. cbn [default from_option id].
  rewrite Hh. cbn [mbind run_bind]. unfold MAX_SERIAL_SIZE, getRsPktBaseSize in *.
  set (s0 := if h_partial h then _ else s).
  assert (E0 : same_recv s s0 /\ mPkt_rpending s0 = mPkt_rpending s) by (unfold s0; by destruct (h_partial h)).
  destruct E0 as [S0 B0]. clearbody s0.
  assert (Ez : mPkt_rpend_size s0 = 262143) by (destruct S0 as (_ & _ & E); lia).
  assert (Ew : u32 (8 + h_extralen h) = Z.of_nat (length enc)) by (rewrite Hx, wrap_small; [lia|split; lia]).
  rewrite Ez, (Z.add_comm (h_extralen h)), Ew, (wrap_small 32 262143) by (split; lia).
  replace (262143 <? Z.of_nat (length enc)) with false by (symmetry; apply Z.ltb_ge; lia).
  assert (H8 : length (take 8 enc) = 8%nat) by (rewrite length_take; lia).
  destruct (Z.ltb_spec 0 (h_extralen h)) as [Hpos|Hpos].
  - assert (Es : sint32 (h_extralen h) = Z.of_nat (length enc) - 8) by (rewrite Hx; apply sint32_small; lia).
    rewrite Es. cbn [readdata pipe_bin]. rewrite Hc, length_app, length_drop.
    replace ((0 <=? _) && _) with true
      by (symmetry; apply andb_true_intro; split; apply Z.leb_le; lia).
    replace (Z.to_nat (Z.of_nat (length enc) - 8)) with (length (drop 8 enc)) by (rewrite length_drop; lia).
    rewrite take_app_length, drop_app_length.
    rewrite (store_block_spec s0 (take 8 enc ++ tail)) by (rewrite ?B0, ?length_app, ?H8, ?length_drop; done || lia).
    cbn [mbind run_bind]. rewrite Hx, wrap_small, Z.eqb_refl by (split; lia). cbn [negb].
    assert (Esp : splice (Z.to_nat 8) (drop 8 enc) (take 8 enc ++ tail) = enc ++ drop (length enc - 8) tail).
    { unfold splice. change (Z.to_nat 8) with 8%nat. rewrite take_app_length' by done.
      rewrite app_assoc, take_drop, drop_app_ge by (rewrite H8; lia). do 2 f_equal.
      rewrite H8, length_drop. lia. }
    rewrite Esp. eexists _, (drop (length enc - 8) tail).
    split; [|split; [|split; [|reflexivity]]]; [exact S0|done|].
    rewrite length_app, length_drop. lia.
  - assert (He : length enc = 8%nat) by lia. exists s0, tail. split; [done|].
    assert (Ee : take 8 enc = enc) by (apply take_ge; lia). rewrite Ee in *.
    split; [by rewrite B0|]. split; [rewrite length_app; lia|].
    rewrite He. cbn [Z.sub]. destruct p as [c lim cl]. cbn [content limited closed_pipe] in *.
    rewrite Hc, drop_ge by lia. done.
Qed.

Definition recv_step s s' (m : gmap Z (list Z)) (d : list Item) : Prop :=
  recv_ok s' /\ mPartialPackets s' = m /\ mIncoming s' = mIncoming s ++ d.

Definition delivers (m : gmap Z (list Z)) (x : served_rec) (d : list Item) : Prop :=
  match (receive m x).2 with
  | Some data => exists item, pkt_ok data item /\ d = [stamp_peer item]
  | None => d = []
  end.

Record slice_ok (m : gmap Z (list Z)) (x : served_rec) : Prop := {
  sl_chunk : let '(_, r, max) := x in
    0 < Z.of_nat (length (chunk max r)) /\
    (o_starts (slice_out max r) && o_ends (slice_out max r) = false ->
     Z.of_nat (length (chunk max r)) < 2 ^ 16) /\ is_word 32 (r_id r);
  sl_records : forall i rec, m !! i = Some rec -> Z.of_nat (length rec) < 2 ^ 31
}.

Lemma slice_header_not_probe o rest : take 8 (slice_header o ++ rest) <> PACKET_SLICING_PROBE_BYTES.
Proof. rewrite take_app_length' by done. discriminate. Qed.

(** One frame, read from the front of the pipe. *)
Lemma read_slice_spec s (p : Pipe) x rest now d :
  recv_ok s -> content p = wire x ++ rest -> slice_ok (mPartialPackets s) x ->
  delivers (mPartialPackets s) x d ->
  exists s1 s' n,
    let p1 := mk_Pipe (drop 8 (wire x) ++ rest) (limited p) (closed_pipe p) in
    read_header s p = Ok (s1, p1, 8, true) /\
    read_body PacketId priority_level stamp_peer ser s1 p1 now
      = Ok (s', mk_Pipe rest (limited p) (closed_pipe p), n, true) /\
    recv_step s s' (receive (mPartialPackets s) x).1 d.
Proof.
  intros Hr Hc [Hx Hm] Hd. destruct x as [[l r] max]. destruct Hx as (Hpos & Hsm & Hid).
  set (o := slice_out max r) in *. pose proof Hr as [(block & Hb & Hlb) Hsz Hst].
  assert (Hfull : o_starts o && o_ends o = true -> wire (l, r, max) = chunk max r /\
            exists item, pkt_ok (chunk max r) item /\ d = [stamp_peer item] /\
              (receive (mPartialPackets s) (l, r, max)).1 = mPartialPackets s).
  { intros E. unfold wire. fold o. rewrite E. split; [done|].
    unfold delivers, receive in Hd. unfold receive. fold o in Hd |- *. rewrite E in Hd |- *. cbn in Hd.
    destruct Hd as (item & Hp & ->). by exists item. }
  assert (Hpart : o_starts o && o_ends o = false -> wire (l, r, max) = slice_header o ++ chunk max r)
    by (intros E; unfold wire; fold o; by rewrite E).
  assert (Hlen : 8 <= Z.of_nat (length (wire (l, r, max))) <= MAX_SERIAL_SIZE).
  { unfold MAX_SERIAL_SIZE. destruct (o_starts o && o_ends o) eqn:E.
    - destruct (Hfull eq_refl) as (-> & item & [Hl _ _ _ _] & _). done.
    - rewrite Hpart, length_app, length_slice_header by done. specialize (Hsm eq_refl). lia. }
  assert (Hnp : take 8 (wire (l, r, max)) <> PACKET_SLICING_PROBE_BYTES).
  { destruct (o_starts o && o_ends o) eqn:E.
    - destruct (Hfull eq_refl) as (-> & item & [_ _ Hp _ _] & _). done.
    - rewrite Hpart by done. apply slice_header_not_probe. }
  destruct (read_header_spec s p _ rest Hr Hc ltac:(lia)) as (s1 & tail & (Sp & Si & Sz) & Rb & Lt & [(E & _)|(_ & Eh)]);
    [done|].
  cbv zeta in *. set (p1 := mk_Pipe (drop 8 _ ++ rest) _ _) in *.
  assert (Hh : exists h, parse_header (take 8 (wire (l, r, max)) ++ tail) = Ok h /\
            h_extralen h = Z.of_nat (length (wire (l, r, max))) - 8 /\
            h = if o_starts o && o_ends o then mk_Header false (h_starting h) (h_ending h) 0 (Z.of_nat (length (wire (l, r, max))) - 8)
                else mk_Header true (o_starts o) (o_ends o) (o_packet_id o) (o_size o)).
  { destruct (o_starts o && o_ends o) eqn:E.
    - destruct (Hfull eq_refl) as (-> & item & Hp & _).
      destruct (parse_packet_header _ item tail Hp) as (a & b & ->). eexists. split; [done|]. by split.
    - rewrite Hpart by done. rewrite take_app_length' by done.
      specialize (Hsm eq_refl). assert (Ho : o_size o = Z.of_nat (length (chunk max r))) by done.
      rewrite parse_slice_header by (done || (unfold is_word; lia)).
      eexists. split; [done|]. split; [|done]. cbn [h_extralen]. rewrite length_app, length_slice_header. lia. }
  destruct Hh as (h & Hh & Hx & Eqh).
  destruct (read_body_reads s1 p1 (wire (l, r, max)) tail rest h now Rb Lt ltac:(lia) Hlen eq_refl Hh Hx)
    as (s2 & tail' & (Sp2 & Si2 & Sz2) & Rb2 & Lb2 & Eb).
  assert (Hdel : exists s', deliver PacketId priority_level stamp_peer ser s2 h (Z.of_nat (length (wire (l, r, max)))) now = Ok s'
            /\ recv_after s2 s' (receive (mPartialPackets s) (l, r, max)).1 d).
  { assert (Hbk : block_of s2 = wire (l, r, max) ++ tail') by (unfold block_of; by rewrite Rb2).
    destruct (o_starts o && o_ends o) eqn:E.
    - destruct (Hfull eq_refl) as (Ew & item & Hp & -> & ->). rewrite Ew in *. rewrite Eqh.
      rewrite <- Sp, <- Sp2. by apply deliver_packet with (tail := tail').
    - rewrite Hpart in * by done. rewrite <- app_assoc in Hbk. specialize (Hsm eq_refl).
      pose proof (deliver_slice s2 (l, r, max) tail' now d) as H. cbv zeta in H. fold o in H.
      assert (Ep : mPartialPackets s2 = mPartialPackets s) by congruence. rewrite Ep in H.
      rewrite Eqh, length_app, length_slice_header.
      replace (Z.of_nat (8 + length (chunk max r))) with (8 + o_size o) by (cbn; lia).
      apply H; [done|done|lia|by intros; eapply Hm| |].
      + intros data Hs. unfold delivers in Hd. by rewrite Hs in Hd.
      + intros Hs. unfold delivers in Hd. by rewrite Hs in Hd. }
  destruct Hdel as (s' & Ed & (Dp & Di & Ds & Db & Dz)).
  exists s1, s', (Z.of_nat (length (wire (l, r, max))) - 8). split; [exact Eh|].
  split; [rewrite Eb, Ed; done|]. split; [|split; [done|congruence]].
  split; [|congruence|done]. exists (wire (l, r, max) ++ tail'). split; [congruence|done].
Qed.

Lemma read_probe_spec s (p : Pipe) rest :
  recv_ok s -> content p = PACKET_SLICING_PROBE_BYTES ++ rest ->
  exists s', read_header s p = Ok (s', mk_Pipe rest (limited p) (closed_pipe p), 8, false) /\
    recv_step s s' (mPartialPackets s) [].
Proof.
  intros Hr Hc. destruct (read_header_spec s p _ rest Hr Hc ltac:(done))
    as (s1 & tail & (Sp & Si & Sz) & Rb & Lt & [(_ & E & Eh)|(E & _)]); [|done].
  exists s1. split; [exact Eh|]. split; [|split; [done|by rewrite app_nil_r]].
  destruct Hr as [_ Hz _].
  split; [|congruence|done]. eexists. split; [exact Rb|]. rewrite length_app.
  change (length (take 8 PACKET_SLICING_PROBE_BYTES)) with 8%nat. unfold MAX_SERIAL_SIZE in *. lia.
Qed.

(** ** Partial packets follow the queues *)

Definition ids (lv : list (list ItemRecord)) : list Z := r_id <$> concat lv.

Record partial_inv (lv : list (list ItemRecord)) (m : gmap Z (list Z)) : Prop := {
  pi_front : forall k l x, lv !! k = Some l -> x ∈ l ->
    m !! r_id x = if current_offset x =? 0 then None
                  else Some (take (Z.to_nat (current_offset x)) (r_data x));
  pi_small : forall i rec, m !! i = Some rec -> Z.of_nat (length rec) < 2 ^ 31
}.

Lemma level_split {A} (lv : list (list A)) l x :
  lv !! l = Some x -> exists lv1 lv2, lv = lv1 ++ x :: lv2 /\ length lv1 = l.
Proof.
  intros H. exists (take l lv), (drop (S l) lv). split; [symmetry; by apply take_drop_middle|].
  apply length_take_le. apply lookup_lt_Some in H. lia.
Qed.

(** The id of a front item occurs nowhere else. *)
Lemma front_id_unique lv l r rest :
  NoDup (ids lv) -> lv !! l = Some (r :: rest) ->
  (forall x, x ∈ rest -> r_id x <> r_id r) /\
  (forall k l' x, k <> l -> lv !! k = Some l' -> x ∈ l' -> r_id x <> r_id r).
Proof.
  intros Hnd Hl. destruct (level_split lv l _ Hl) as (lv1 & lv2 & -> & El). unfold ids in Hnd.
  rewrite concat_app in Hnd. cbn [concat] in Hnd. rewrite !fmap_app in Hnd.
  apply NoDup_app in Hnd as (_ & Hd & Hnd). cbn [app fmap list_fmap] in Hnd.
  apply NoDup_cons in Hnd as [Hn _]. rewrite elem_of_app in Hn.
  assert (In : forall (ys : list (list ItemRecord)) l' x, l' ∈ ys -> x ∈ l' -> r_id x ∈ r_id <$> concat ys).
  { intros ys l' x Hy Hx. apply list_elem_of_fmap_2. apply list_elem_of_In, in_concat.
    exists l'. split; by apply list_elem_of_In. }
  split.
  - intros x Hx E. apply Hn. left. rewrite <- E. by apply list_elem_of_fmap_2.
  - intros k l' x Hk Hl' Hx E. destruct (decide (k < length lv1)%nat) as [Hlt|Hge].
    + rewrite lookup_app_l in Hl' by done. apply (Hd (r_id r)).
      * rewrite <- E. apply (In lv1 l' x); [by eapply list_elem_of_lookup_2|done].
      * cbn. by left.
    + rewrite lookup_app_r in Hl' by lia. destruct (k - length lv1)%nat as [|k'] eqn:Ek; [lia|]. cbn in Hl'.
      apply Hn. right. rewrite <- E. apply (In lv2 l' x); [by eapply list_elem_of_lookup_2|done].
Qed.

Lemma ids_advance lv l r rest max :
  NoDup (ids lv) -> lv !! l = Some (r :: rest) -> NoDup (ids (<[l := advance max r rest]> lv)) /\
  (forall i, i ∈ ids (<[l := advance max r rest]> lv) -> i ∈ ids lv).
Proof.
  intros Hnd Hl. destruct (level_split lv l _ Hl) as (lv1 & lv2 & -> & <-). unfold ids in *.
  rewrite insert_app_r_alt, Nat.sub_diag by lia. cbn [insert list_insert].
  rewrite !concat_app in *. cbn [concat] in *. rewrite !fmap_app in *.
  assert (E : r_id <$> advance max r rest = r_id <$> (if finishes max r then rest else r :: rest))
    by (unfold advance; by destruct (finishes max r)).
  rewrite E. destruct (finishes max r); [|done]. cbn [app fmap list_fmap] in Hnd. split.
  - apply NoDup_app in Hnd as (N1 & Nd & N2). apply NoDup_cons in N2 as [_ N2]. apply NoDup_app.
    split; [done|]. split; [|done]. intros i Hi Hi2. apply (Nd i Hi). by right.
  - intros i. rewrite !elem_of_app. cbn [fmap list_fmap]. rewrite elem_of_cons. tauto.
Qed.

Lemma receive_inv lv m l r rest max :
  Forall level_ok lv -> NoDup (ids lv) -> partial_inv lv m -> lv !! l = Some (r :: rest) -> 0 < max ->
  let '(m', out) := receive m (l, r, max) in
  partial_inv (<[l := advance max r rest]> lv) m' /\
  out = (if finishes max r then Some (r_data r) else None).
Proof.
  intros Hok Hnd [Hf Hsm] Hl Hm. destruct (front_id_unique lv l r rest Hnd Hl) as [U1 U2].
  pose proof (proj1 (Forall_lookup _ _) Hok l _ Hl) as [Hall Htl]. cbn [tail] in Htl.
  apply Forall_cons in Hall as [Hr Hrest].
  pose proof (Hf l _ r Hl ltac:(by left)) as Hmr. pose proof (sent_chunk max r Hr Hm) as Hch.
  assert (Hrest0 : forall x, x ∈ rest -> m !! r_id x = None).
  { intros x Hx. rewrite (Hf l _ x Hl) by (by right).
    by rewrite (proj1 (Forall_forall _ _) Htl x Hx). }
  assert (Hlen : forall n, Z.of_nat (length (take n (r_data r))) < 2 ^ 31).
  { intros n. rewrite length_take. destruct Hr. lia. }
  assert (Hdata : finishes max r = true -> take (Z.to_nat (current_offset r + max)) (r_data r) = r_data r).
  { unfold finishes. intros E. bprop. apply take_ge. destruct Hr. lia. }
  (* the map after the call, for any value of the front item's entry *)
  assert (Hset : forall m', (forall i, i <> r_id r -> m' !! i = m !! i) ->
            (m' !! r_id r = if finishes max r then None
                            else Some (take (Z.to_nat (current_offset r + max)) (r_data r))) ->
            partial_inv (<[l := advance max r rest]> lv) m').
  { intros m' Ho Hs. split.
    - intros k l' x Hk Hx. destruct (decide (k = l)) as [->|Hne].
      + rewrite list_lookup_insert_eq in Hk by (by eapply lookup_lt_Some). injection Hk as <-.
        assert (Hx' : (finishes max r = false /\ x = r <| current_offset := current_offset r + max |>) \/ x ∈ rest).
        { unfold advance in Hx. destruct (finishes max r); [by right|].
          apply elem_of_cons in Hx as [->|Hx]; [by left|by right]. }
        destruct Hx' as [[Ef ->]|Hx'].
        * cbn [r_id current_offset r_data upd]. rewrite Hs, Ef.
          replace (current_offset r + max =? 0) with false; [done|]. symmetry. apply Z.eqb_neq. destruct Hr. lia.
        * rewrite Ho by auto. rewrite (Hrest0 x Hx').
          by rewrite (proj1 (Forall_forall _ _) Htl x Hx').
      + rewrite list_lookup_insert_ne in Hk by done. rewrite Ho by (by eapply U2). by eapply Hf.
    - intros i rec Hi. destruct (decide (i = r_id r)) as [->|Hne].
      + rewrite Hs in Hi. destruct (finishes max r); [done|]. injection Hi as <-. apply Hlen.
      + rewrite Ho in Hi by done. by eapply Hsm. }
  unfold receive. cbn [slice_out o_starts o_ends o_packet_id]. rewrite Hmr.
  destruct (Z.eqb_spec (current_offset r) 0) as [E0|E0]; destruct (finishes max r) eqn:Ef; cbn [andb].
  - split; [apply Hset; [done|]; by rewrite Hmr|]. by rewrite Hch, Hdata.
  - split; [|done]. apply Hset.
    + intros i Hi. by rewrite lookup_insert_ne.
    + by rewrite lookup_insert_eq, Hch.
  - cbn [app]. rewrite Hch. split; [|by rewrite Hdata]. apply Hset.
    + intros i Hi. by rewrite lookup_delete_ne.
    + apply lookup_delete_eq.
  - rewrite Hch. split; [|done]. apply Hset.
    + intros i Hi. by rewrite lookup_insert_ne.
    + by rewrite lookup_insert_eq.
Qed.

Lemma receive_keys m l r max i :
  (receive m (l, r, max)).1 !! i <> None -> m !! i <> None \/ i = r_id r.
Proof.
  unfold receive. cbn [slice_out o_packet_id]. intros H. destruct (decide (i = r_id r)) as [->|Hne]; [by right|].
  left. revert H. destruct (o_starts _ && o_ends _); [done|].
  destruct (m !! r_id r); [destruct (o_ends _)|destruct (o_starts _)]; cbn [fst];
    by rewrite ?lookup_delete_ne, ?lookup_insert_ne by done.
Qed.

Lemma front_id_in lv l r rest : lv !! l = Some (r :: rest) -> r_id r ∈ ids lv.
Proof.
  intros Hl. apply list_elem_of_fmap_2, list_elem_of_In, in_concat. exists (r :: rest).
  split; apply list_elem_of_In; [by eapply list_elem_of_lookup_2|by left].
Qed.

(** ** The receiver's view of a session *)

Definition at_lv (k : nat) (d : list (nat * Item)) : list Item := snd <$> filter (fun x => x.1 = k) d.

Lemma at_lv_app k d1 d2 : at_lv k (d1 ++ d2) = at_lv k d1 ++ at_lv k d2.
Proof. unfold at_lv. by rewrite filter_app, fmap_app. Qed.

Lemma at_lv_one k l i : at_lv k [(l, i)] = if decide (l = k) then [i] else [].
Proof. unfold at_lv. rewrite filter_cons. cbn [fst]. by destruct (decide (l = k)). Qed.

(** [lvS] is the sender's queues, [fs] the frames in the pipe, [d] what was delivered and [sub]
    what was submitted, with their levels. *)
Record view (lvS : list (list ItemRecord)) s (fs : list frame) (d sub : list (nat * Item))
    (lv0 : list (list ItemRecord)) (its0 : list (list Item)) : Prop := {
  v_serve : serve lv0 (slices fs) lvS;
  v_ok : Forall level_ok lv0;
  v_nodup : NoDup (ids lv0);
  v_ids : forall i, i ∈ ids lv0 -> 0 <= i < Z.of_nat (length sub);
  v_count : Z.of_nat (length sub) < MAX_PACKET_COUNTER_VALUE;
  v_partial : partial_inv lv0 (mPartialPackets s);
  v_keys : forall i, mPartialPackets s !! i <> None -> i < Z.of_nat (length sub);
  v_items : Forall2 (Forall2 (fun r i => pkt_ok (r_data r) i)) lv0 its0;
  v_order : forall k, at_lv k d ++ default [] (its0 !! k) = at_lv k sub
}.

Lemma view_slice lvS s x fs d sub lv0 its0 :
  view lvS s (Some x :: fs) d sub lv0 its0 ->
  slice_ok (mPartialPackets s) x /\
  exists d1 lv1 its1,
    delivers (mPartialPackets s) x (stamp_peer <$> (snd <$> d1)) /\
    forall s', mPartialPackets s' = (receive (mPartialPackets s) x).1 ->
      view lvS s' fs (d ++ d1) sub lv1 its1.
Proof.
  intros [Hsv Hok Hnd Hid Hcnt Hpi Hkey Hit Hord]. cbn [slices omap list_omap] in Hsv.
  inversion Hsv as [|lv l r max rest tr lv' Hl Hm Hsl Hsv' E1 E2]. subst.
  pose proof (proj1 (Forall_lookup _ _) Hok l _ Hl) as Hlok. pose proof Hlok as [Hall _].
  apply Forall_cons in Hall as [Hr Hrest].
  pose proof (receive_inv lv0 _ l r rest max Hok Hnd Hpi Hl Hm) as Hri.
  destruct (receive (mPartialPackets s) (l, r, max)) as [m' out] eqn:Er. destruct Hri as [Hpi' ->].
  destruct (ids_advance lv0 l r rest max Hnd Hl) as [Hnd' Hsub].
  destruct (Forall2_lookup_l _ _ _ _ _ Hit Hl) as (li & Hli & Hlr).
  apply Forall2_cons_inv_l in Hlr as (i & li' & Hri & Hrest' & ->).
  assert (Hwf : Forall level_ok (<[l := advance max r rest]> lv0)).
  { apply Forall_insert; [done|]. by apply rec_ok_advance. }
  assert (Hid' : forall j, j ∈ ids (<[l := advance max r rest]> lv0) -> 0 <= j < Z.of_nat (length sub)) by auto.
  pose proof (receive_keys (mPartialPackets s) l r max) as Hrk. rewrite Er in Hrk. cbn [fst] in Hrk.
  split.
  - split.
    + pose proof (length_chunk max r Hr Hm) as Hc. pose proof Hr as [].
      split; [lia|]. split.
      * intros Hse. destruct Hsl as [Hsl|Hsl]; [congruence|lia].
      * specialize (Hid _ (front_id_in lv0 l r rest Hl)). unfold MAX_PACKET_COUNTER_VALUE in Hcnt. split; lia.
    + intros j rec. by apply (pi_small _ _ Hpi).
  - set (fin := finishes max r) in *.
    exists (if fin then [(l, i)] else []), (<[l := advance max r rest]> lv0),
      (<[l := if fin then li' else i :: li']> its0).
    split; [unfold delivers; rewrite Er; cbn [snd]; destruct fin; [by exists i|done]|].
    intros s' Hs'. cbn [fst] in Hs'. split; try done.
    + by rewrite Hs'.
    + rewrite Hs'. intros j Hj. destruct (Hrk j Hj) as [Hj'| ->]; [by apply Hkey|]. by apply Hid, front_id_in with l rest.
    + apply Forall2_insert; [done|]. unfold advance. fold fin. destruct fin; [done|]. by constructor.
    + intros k. rewrite at_lv_app, <- (Hord k), <- app_assoc. f_equal. destruct (decide (k = l)) as [->|Hne].
      * rewrite list_lookup_insert_eq, Hli by (by eapply lookup_lt_Some). cbn [default from_option id].
        destruct fin; [|done]. rewrite at_lv_one. by destruct (decide (l = l)).
      * rewrite list_lookup_insert_ne by done. destruct fin; [|done]. by rewrite at_lv_one, decide_False.
Qed.

End receiver.
