(* ===== verification/Session.v ===== *)
(** * Sessions: two streamers joined by a pipe

    A session is a sending streamer, the bytes under way and a receiving streamer, with the
    events that drive them: an item submitted, a sending tick, a receiving tick, an item taken.
    Whatever the order of the events, each level delivers the items submitted to it, in order,
    once each. *)

From S2P Require Import Prelude RawSerial Serialiser QoS Streamer StreamerProps.
From Stdlib Require Import ZArith Lia SpecFloat.
From stdpp Require Import base list gmap sets.
Open Scope Z_scope.

Section receiving.
Context {Item : Type} (PacketId : Item -> Z) (priority_level : Item -> Z) (stamp_peer : Item -> Item).
Context (ser : RsSerialiser Item).
Implicit Types s : Streamer Item.

Local Abbreviation view := (view ser).
Local Abbreviation incoming_loop := (incoming_loop PacketId priority_level stamp_peer ser).
Local Abbreviation tick_recv := (tick_recv PacketId priority_level stamp_peer ser).

(** What a receiving step may do: read some frames, deliver what they complete. *)
Definition received lvS s s' (fs fs' : list frame) (d d1 sub : list (nat * Item)) : Prop :=
  mIncoming s' = mIncoming s ++ (stamp_peer <$> (snd <$> d1)) /\
  (exists lv its, view lvS s' fs' (d ++ d1) sub lv its) /\
  (exists fs0, fs = fs0 ++ fs').

Lemma received_trans lvS s1 s2 s3 fs1 fs2 fs3 d d1 d2 sub :
  received lvS s1 s2 fs1 fs2 d d1 sub -> received lvS s2 s3 fs2 fs3 (d ++ d1) d2 sub ->
  received lvS s1 s3 fs1 fs3 d (d1 ++ d2) sub.
Proof.
  intros (I1 & _ & f1 & ->) (I2 & V2 & f2 & ->). split; [|split].
  - rewrite I2, I1, !fmap_app. by rewrite app_assoc.
  - rewrite app_assoc. exact V2.
  - exists (f1 ++ f2). by rewrite app_assoc.
Qed.

Lemma view_probe lvS s s' fs d sub lv its :
  view lvS s (None :: fs) d sub lv its -> mPartialPackets s' = mPartialPackets s ->
  view lvS s' fs d sub lv its.
Proof. intros [] E. split; rewrite ?E; done. Qed.

Lemma incoming_loop_spec lvS sub maxin clock fuel : forall turn s (p : Pipe) readbytes fs d lv its,
  recv_ok s -> content p = stream fs -> fs <> [] -> view lvS s fs d sub lv its ->
  exists fs' d1 s' n,
    incoming_loop fuel turn s p maxin readbytes clock
      = Ok (s', mk_Pipe (stream fs') (limited p) (closed_pipe p), n) /\
    recv_ok s' /\ received lvS s s' fs fs' d d1 sub /\ (fuel <> O -> (length fs' < length fs)%nat).
Proof.
  induction fuel as [|fuel IH]; intros turn s p readbytes fs d lv its Hr Hc Hne Hv; cbn [Streamer.incoming_loop].
  - exists fs, [], s, readbytes. rewrite <- Hc. split; [by destruct p|]. split; [done|]. split; [|done].
    split; [by rewrite app_nil_r|]. split; [rewrite app_nil_r; eauto|by exists []].
  - rewrite (ro_state _ Hr). destruct fs as [|[x|] fs]; [done| |].
    + destruct (view_slice stamp_peer ser _ _ _ _ _ _ _ _ Hv) as (Hok & d1 & lv1 & its1 & Hd & Hv1).
      destruct (read_slice_spec PacketId priority_level stamp_peer ser s p x (stream fs) (clock turn) _ Hr Hc Hok Hd)
        as (s1 & s' & n & Eh & Eb & (Hr' & Ep & Ei)).
      rewrite Eh. cbn [mbind run_bind negb]. rewrite Eb. cbn [mbind run_bind negb].
      assert (Hrec : received lvS s s' (Some x :: fs) fs d d1 sub).
      { split; [done|]. split; [eauto|]. by exists [Some x]. }
      match goal with |- context [(?k <? maxin) && ?m] => destruct ((k <? maxin) && m) eqn:Ec end.
      * apply andb_prop in Ec as [_ Ec]. cbn [moretoread pipe_bin content] in Ec. bprop.
        destruct (IH (S turn) s' (mk_Pipe (stream fs) (limited p) (closed_pipe p)) (sint32 (readbytes + 8 + n)) fs (d ++ d1) lv1 its1)
          as (fs' & d2 & s2 & n2 & E & Hr2 & Hrec2 & _); [done|done|by intros ->|by apply Hv1|].
        exists fs', (d1 ++ d2), s2, n2. split; [exact E|]. split; [done|].
        split; [by eapply received_trans|]. intros _. destruct Hrec2 as (_ & _ & f2 & ->).
        cbn [length]. rewrite length_app. lia.
      * eexists fs, d1, s', _. split; [reflexivity|]. split; [done|]. split; [done|]. cbn [length]. lia.
    + destruct (read_probe_spec s p (stream fs) Hr Hc) as (s' & Eh & (Hr' & Ep & Ei)).
      rewrite Eh. cbn [mbind run_bind negb]. eexists fs, [], s', _. split; [reflexivity|]. split; [done|].
      split; [|cbn [length]; lia]. split; [done|]. split; [|by exists [None]].
      rewrite app_nil_r. eexists _, _. by eapply view_probe.
Qed.

(** Between two calls the block is absent or whole. *)
Definition recv_start s : Prop :=
  recv_ok s \/ (mPkt_rpending s = None /\ mReading_state s = false).

Lemma allocate_rpend_spec s : recv_start s ->
  recv_ok (allocate_rpend s) /\ mPartialPackets (allocate_rpend s) = mPartialPackets s /\
  mIncoming (allocate_rpend s) = mIncoming s.
Proof.
  unfold allocate_rpend. intros [Hr|[Hb Hst]].
  - destruct (ro_block _ Hr) as (block & -> & _). done.
  - rewrite Hb. split; [|done]. split; [|done|done]. eexists. split; [reflexivity|].
    rewrite length_replicate. done.
Qed.

Lemma inAllowedBytes_spec s (p : Pipe) t :
  let '(s', _) := inAllowedBytes s p t in
  mPkt_rpending s' = mPkt_rpending s /\ mPkt_rpend_size s' = mPkt_rpend_size s /\
  mReading_state s' = mReading_state s /\ mPartialPackets s' = mPartialPackets s /\
  mIncoming s' = mIncoming s.
Proof. unfold inAllowedBytes. destruct (negb _); [done|]. destruct (float_lt _ _); done. Qed.

Lemma view_same lvS s s' fs d sub lv its :
  view lvS s fs d sub lv its -> mPartialPackets s' = mPartialPackets s -> view lvS s' fs d sub lv its.
Proof. intros [] E. split; rewrite ?E; done. Qed.

Lemma tick_recv_spec lvS sub fuel s (p : Pipe) t clock fs d lv its :
  recv_start s -> content p = stream fs -> closed_pipe p = false -> view lvS s fs d sub lv its ->
  exists fs' d1 s' n,
    tick_recv fuel s p t clock = Ok (s', mk_Pipe (stream fs') (limited p) false, n) /\
    recv_start s' /\ received lvS s s' fs fs' d d1 sub /\
    (fuel <> O -> content p <> [] -> (length fs' < length fs)%nat).
Proof.
  intros Hr Hc Hcl Hv. unfold Streamer.tick_recv. cbn [isactive pipe_bin]. rewrite Hcl. cbn [negb moretoread pipe_bin].
  destruct (bool_decide_reflect (content p = [])) as [E|E]; cbn [negb mbind run_bind].
  - cbn [isactive pipe_bin]. rewrite Hcl. cbn [negb]. exists fs, [], s, 0. rewrite <- Hc.
    split; [destruct p; cbn in *; by subst|]. split; [done|]. split; [|done].
    split; [by rewrite app_nil_r|]. split; [rewrite app_nil_r; eauto|by exists []].
  - unfold handleincoming. cbn [isactive pipe_bin]. rewrite Hcl. cbn [negb].
    destruct (allocate_rpend_spec s Hr) as (Hr1 & Hp1 & Hi1).
    pose proof (inAllowedBytes_spec (allocate_rpend s) p t) as Ha.
    destruct (inAllowedBytes _ p t) as [s1 maxin]. destruct Ha as (A1 & A2 & A3 & A4 & A5).
    destruct (incoming_loop_spec lvS sub maxin clock fuel 0 s1 p 0 fs d lv its) as (fs' & d1 & s' & n & -> & Hr' & Hrec & Hlt).
    + destruct Hr1 as [Hb Hz Hs]. split; rewrite ?A1, ?A2, ?A3; done.
    + done.
    + intros ->. done.
    + apply view_same with s; [done|]. congruence.
    + cbn [mbind run_bind isactive pipe_bin closed_pipe]. rewrite Hcl. cbn [negb].
      exists fs', d1, s', n. split; [done|]. split; [by left|]. split; [|auto].
      destruct Hrec as (I & V & F). split; [congruence|done].
Qed.

End receiving.

(** ** Queues *)

Lemma serve_length lv tr lv' : serve lv tr lv' -> length lv' = length lv.
Proof. induction 1; [done|]. by rewrite IHserve, length_insert. Qed.

Definition queued (lv : list (list ItemRecord)) : Z := sum_with (fun l => Z.of_nat (length l)) lv.
Definition unsent (lv : list (list ItemRecord)) : Z := sum_with (sum_with rec_left) lv.

(** Serving never adds items, and every slice takes bytes away. *)
Lemma serve_measure lv tr lv' :
  serve lv tr lv' -> Forall level_ok lv ->
  queued lv' <= queued lv /\ unsent lv' <= unsent lv /\ (tr <> [] -> unsent lv' < unsent lv).
Proof.
  induction 1 as [|lv l r max rest tr lv' Hl Hm _ _ IH]; intros Hok; [by repeat split|].
  pose proof (proj1 (Forall_lookup _ _) Hok l _ Hl) as Hlok. pose proof Hlok as [Hall _].
  apply Forall_cons in Hall as [Hr _].
  destruct IH as (Hq & Hu & _); [by apply Forall_insert, rec_ok_advance|].
  unfold queued, unsent in *. rewrite !(sum_with_insert _ _ _ _ _ Hl) in *.
  pose proof (left_advance max r rest Hr ltac:(lia)).
  assert (Z.of_nat (length (advance max r rest)) <= Z.of_nat (length (r :: rest)))
    by (unfold advance; destruct (finishes max r); cbn [length]; lia).
  lia.
Qed.

Lemma ids_queue lv k x : (k < length lv)%nat -> ids (alter (fun l => l ++ [x]) k lv) ≡ₚ r_id x :: ids lv.
Proof.
  intros Hk. destruct (lookup_lt_is_Some_2 _ _ Hk) as [l Hl].
  destruct (level_split lv k _ Hl) as (lv1 & lv2 & -> & <-). rewrite alter_app_r_alt, Nat.sub_diag by lia.
  unfold ids. cbn [alter list_alter]. rewrite !concat_app. cbn [concat]. rewrite !fmap_app. cbn [fmap list_fmap].
  solve_Permutation.
Qed.

Lemma partial_inv_queue lv m k x :
  partial_inv lv m -> current_offset x = 0 -> m !! r_id x = None ->
  partial_inv (alter (fun l => l ++ [x]) k lv) m.
Proof.
  intros [Hf Hs] H0 Hm. split; [|done]. intros j l y Hl Hy.
  destruct (decide (j = k)) as [->|Hne].
  - rewrite list_lookup_alter_eq in Hl. destruct (lv !! k) as [l0|] eqn:El; [|done]. injection Hl as <-.
    apply elem_of_app in Hy as [Hy|Hy]; [by eapply Hf|]. apply list_elem_of_singleton in Hy as ->.
    by rewrite Hm, H0.
  - rewrite list_lookup_alter_ne in Hl by done. by eapply Hf.
Qed.

(** ** Sessions *)

Inductive event (Item : Type) : Type :=
| Submit (i : Item) (now : Z)
| SendTick (fuel : nat) (t : float64) (clock : nat -> Z)
| RecvTick (fuel : nat) (t : float64) (clock : nat -> Z)
| Learn
| Take.
Arguments Submit {Item} i now.
Arguments SendTick {Item} fuel t clock.
Arguments RecvTick {Item} fuel t clock.
Arguments Learn {Item}.
Arguments Take {Item}.

Record session (Item : Type) := mk_session {
  sender : Streamer Item; pipe : Pipe; receiver : Streamer Item; taken : list Item
}.
Arguments mk_session {Item} _ _ _ _.
Arguments sender {Item} _.
Arguments pipe {Item} _.
Arguments receiver {Item} _.
Arguments taken {Item} _.

Definition new_session (Item : Type) (t1 t2 : float64) (lim : bool) : session Item :=
  mk_session (new_Streamer Item t1) (mk_Pipe [] lim false) (new_Streamer Item t2) [].

Section session.
Context {Item : Type} (PacketId : Item -> Z) (priority_level : Item -> Z) (stamp_peer : Item -> Item).
Context (ser : RsSerialiser Item).

(** [Learn]: the receiving half of the sender's own streamer has seen a slice or a probe. *)
Definition exec (e : event Item) (x : session Item) : run (session Item) :=
  let '(mk_session s p r tk) := x in
  match e with
  | Submit i now =>
      '(s, _, _) ← SendItem PacketId priority_level ser s i now : run (Streamer Item * Z * Z);
      Ok (mk_session s p r tk)
  | SendTick fuel t clock =>
      '(s, p, _) ← tick_send fuel s p t clock : run (Streamer Item * Pipe * Z);
      Ok (mk_session s p r tk)
  | RecvTick fuel t clock =>
      '(r, p, _) ← tick_recv PacketId priority_level stamp_peer ser fuel r p t clock
        : run (Streamer Item * Pipe * Z);
      Ok (mk_session s p r tk)
  | Learn => Ok (mk_session (s <| mAcceptsPacketSlicing := true |>) p r tk)
  | Take =>
      let '(r, o) := GetItem r in
      Ok (mk_session s p r (tk ++ match o with Some i => [i] | None => [] end))
  end.

Definition run_events (evs : list (event Item)) (x : session Item) : run (session Item) :=
  foldl (fun m e => x ← m; exec e x) (Ok x) evs.

(** The queue an item goes to, and what was submitted, in order. *)
Definition level_of (i : Item) : nat :=
  Z.to_nat (if (0 <=? priority_level i) && (priority_level i <? 10) then priority_level i else 9).

Definition submissions (evs : list (event Item)) : list (nat * Item) :=
  omap (fun e => match e with Submit i _ => Some (level_of i, i) | _ => None end) evs.

(** An item whose serialised form the wire can carry. *)
Definition transportable (i : Item) : Prop :=
  - 2 ^ 31 <= priority_level i < 2 ^ 31 /\
  exists data, rs_size PacketId ser i = Z.of_nat (length data) /\
    rs_serialise PacketId ser i (Z.of_nat (length data)) = Some (data, Z.of_nat (length data)) /\
    pkt_ok ser data i.

(** *** The invariant *)

Record session_inv (x : session Item) (sub d : list (nat * Item)) (fs : list frame)
    (lv : list (list ItemRecord)) (its : list (list Item)) : Prop := {
  si_sender : sender_ok (sender x);
  si_idle : mPkt_wpending (sender x) = WNull;
  si_next : _id_counter (qos (sender x)) = Z.of_nat (length sub);
  si_levels : length (_item_queues (qos (sender x))) = 10%nat;
  si_queued : queued (levels (qos (sender x))) <= Z.of_nat (length sub);
  si_pipe : content (pipe x) = stream fs;
  si_open : closed_pipe (pipe x) = false;
  si_recv : recv_start (receiver x);
  si_view : view ser (levels (qos (sender x))) (receiver x) fs d sub lv its;
  si_taken : taken x ++ mIncoming (receiver x) = stamp_peer <$> (snd <$> d)
}.

Definition session_ok (x : session Item) (sub : list (nat * Item)) : Prop :=
  exists d fs lv its, session_inv x sub d fs lv its.

Lemma new_session_ok t1 t2 lim : session_ok (new_session Item t1 t2 lim) [].
Proof.
  destruct (new_pqiQoS_spec PQI_QOS_STREAMER_MAX_LEVELS PQI_QOS_STREAMER_ALPHA ltac:(unfold PQI_QOS_STREAMER_MAX_LEVELS; lia)) as [L Q].
  exists [], [], (replicate 10 []), (replicate 10 []).
  split; cbn [new_session sender pipe receiver taken new_Streamer qos mPkt_wpending content]; try done.
  - split; cbn [qos new_Streamer mAcceptsPacketSlicing]; [done| |].
    + rewrite L. by apply Forall_replicate.
    + rewrite L. intros _. by apply Forall_replicate.
  - by right.
  - split; try done.
    + rewrite L. constructor.
    + by apply Forall_replicate.
    + constructor.
    + intros i Hi. by apply elem_of_nil in Hi.
    + split; [|done]. intros k l x Hl Hx. apply lookup_replicate in Hl as [-> _]. by apply elem_of_nil in Hx.
    + apply Forall2_replicate. constructor.
    + intros k. destruct (decide (k < 10)%nat).
      * by rewrite lookup_replicate_2.
      * by rewrite lookup_ge_None_2 by (rewrite length_replicate; lia).
Qed.


(** *** Every event keeps it *)

Lemma SendItem_spec s i now (sub : list (nat * Item)) :
  sender_ok s -> transportable i -> _id_counter (qos s) = Z.of_nat (length sub) ->
  length (_item_queues (qos s)) = 10%nat -> queued (levels (qos s)) <= Z.of_nat (length sub) ->
  Z.of_nat (length sub) + 1 < MAX_PACKET_COUNTER_VALUE ->
  exists s' data n, SendItem PacketId priority_level ser s i now = Ok (s', n, 1) /\
    let r := mk_ItemRecord data 0 (Z.of_nat (length data)) (Z.of_nat (length sub)) in
    pkt_ok ser data i /\ rec_ok r /\
    levels (qos s') = alter (fun l => l ++ [r]) (level_of i) (levels (qos s)) /\
    _id_counter (qos s') = Z.of_nat (length sub) + 1 /\
    length (_item_queues (qos s')) = 10%nat /\ queued (levels (qos s')) <= Z.of_nat (length sub) + 1 /\
    mPkt_wpending s' = mPkt_wpending s /\ sender_ok s'.
Proof.
  intros Hs (Hp & data & Esz & Eser & Hok) Hid Hn Hq Hmax.
  pose proof (pk_len _ _ _ Hok) as Hl. unfold MAX_SERIAL_SIZE in Hl.
  unfold SendItem, queue_outpqi_locked. rewrite Esz, Eser.
  replace (rs_malloc_ok (Z.of_nat (length data))) with true.
  2: { unfold rs_malloc_ok, RS_SAFE_MEMALLOC_THRESHOLD. zbool; lia || done. }
  cbn [negb]. set (s0 := locked_addTrafficClue PacketId priority_level s i (Z.of_nat (length data)) true now).
  assert (E0 : qos s0 = qos s /\ mPkt_wpending s0 = mPkt_wpending s /\ mAcceptsPacketSlicing s0 = mAcceptsPacketSlicing s)
    by (unfold s0, locked_addTrafficClue; destruct (_ <? now); done).
  destruct E0 as (Q0 & W0 & A0). clearbody s0. rewrite sint32_small by lia.
  eexists _, data, _. split; [reflexivity|]. cbv zeta.
  unfold locked_storeInOutputQueue. cbn [qos upd mPkt_wpending]. rewrite Q0, W0.
  destruct Hs as [Hqos Hsz Hsl]. pose proof Hqos as [_ Hcnt _ _].
  assert (Hcl : clamp_level (qos s) (priority_level i) = level_of i)
    by (unfold clamp_level, level_of; rewrite Hn; done).
  assert (Hrec : rec_ok (mk_ItemRecord data 0 (Z.of_nat (length data)) (Z.of_nat (length sub))))
    by (constructor; cbn; lia).
  unfold MAX_PACKET_COUNTER_VALUE in Hmax. unfold queued in *.
  destruct (in_rsItem_spec (qos s) data (Z.of_nat (length data)) (priority_level i) Hqos eq_refl)
    as (L & N & I & _ & Q'); [lia|lia|lia|done|unfold MAX_PACKET_COUNTER_VALUE; lia|].
  rewrite Hcl, Hid in L. split; [done|]. split; [done|]. split; [exact L|].
  split; [rewrite I, Hid; unfold next_id, MAX_PACKET_COUNTER_VALUE; zbool; lia|].
  split; [rewrite <- (length_fmap _items); fold (levels (in_rsItem (qos s) data (Z.of_nat (length data)) (priority_level i)));
          rewrite L, length_alter; unfold levels; by rewrite length_fmap|].
  split; [rewrite <- (qos_count _ Q'), N; lia|]. split; [done|].
  split; cbn [qos upd mAcceptsPacketSlicing]; rewrite ?Q0, ?A0, ?L.
  - done.
  - apply Forall_alter; [done|]. intros l _ Hf. apply Forall_app. split; [done|].
    constructor; [|done]. cbn. unfold MAX_SERIAL_SIZE. lia.
  - intros E. apply Forall_alter; [auto|]. intros l _ Hf. apply Forall_app. split; [done|]. by constructor.
Qed.

Lemma view_submit lvS s fs d sub lv its i data :
  view ser lvS s fs d sub lv its -> pkt_ok ser data i ->
  let r := mk_ItemRecord data 0 (Z.of_nat (length data)) (Z.of_nat (length sub)) in
  rec_ok r -> Z.of_nat (length sub) + 1 < MAX_PACKET_COUNTER_VALUE -> (level_of i < length lvS)%nat ->
  view ser (alter (fun l => l ++ [r]) (level_of i) lvS) s fs d (sub ++ [(level_of i, i)])
    (alter (fun l => l ++ [r]) (level_of i) lv) (alter (fun l => l ++ [i]) (level_of i) its).
Proof.
  intros [Hsv Hok Hnd Hid Hcnt Hpi Hkey Hit Hord] Hpk r Hr Hmax Hlt.
  pose proof (serve_length _ _ _ Hsv) as Hlen. pose proof (Forall2_length _ _ _ Hit) as Hlen2.
  pose proof (ids_queue lv (level_of i) r ltac:(lia)) as Hperm.
  assert (Hlen3 : Z.of_nat (length (sub ++ [(level_of i, i)])) = Z.of_nat (length sub) + 1)
    by (rewrite length_app; cbn; lia).
  assert (Hnew : mPartialPackets s !! r_id r = None).
  { destruct (mPartialPackets s !! r_id r) eqn:E; [|done].
    specialize (Hkey (r_id r) ltac:(congruence)). cbn in Hkey. lia. }
  split.
  - by apply serve_queue.
  - apply Forall_alter; [done|]. intros l _ Hl. by apply level_ok_snoc.
  - rewrite Hperm. apply NoDup_cons. split; [|done]. intros Hin. specialize (Hid _ Hin). cbn in Hid. lia.
  - intros j. rewrite Hperm, elem_of_cons. rewrite Hlen3. intros [->|Hj]; [cbn; lia|]. specialize (Hid _ Hj). lia.
  - lia.
  - by apply partial_inv_queue.
  - intros j Hj. specialize (Hkey j Hj). lia.
  - apply Forall2_alter; [done|]. intros x y _ _ Hxy. apply Forall2_app; [done|]. constructor; [done|constructor].
  - intros k. rewrite at_lv_app, at_lv_one, <- (Hord k), <- app_assoc. f_equal.
    destruct (decide (level_of i = k)) as [<-|Hne].
    + rewrite list_lookup_alter_eq. destruct (lookup_lt_is_Some_2 its (level_of i) ltac:(lia)) as [l ->]. done.
    + rewrite list_lookup_alter_ne by done. by rewrite app_nil_r.
Qed.

Lemma level_of_lt i : (level_of i < 10)%nat.
Proof. unfold level_of. zbool; cbn; lia. Qed.

Lemma submit_ok x sub i now :
  session_ok x sub -> transportable i -> Z.of_nat (length sub) + 1 < MAX_PACKET_COUNTER_VALUE ->
  exists x', exec (Submit i now) x = Ok x' /\ session_ok x' (sub ++ [(level_of i, i)]) /\
    limited (pipe x') = limited (pipe x).
Proof.
  intros (d & fs & lv & its & [Hs Hw Hid Hn Hq Hc Hcl Hr Hv Ht]) Htr Hmax. destruct x as [s p r tk]. cbn in *.
  destruct (SendItem_spec s i now sub Hs Htr Hid Hn Hq Hmax) as (s' & data & n & E & Hpk & Hrec & L & I & N & Q & W & S).
  rewrite E. cbn [mbind run_bind]. eexists. split; [reflexivity|]. split; [|done].
  eexists d, fs, _, _.
  assert (Hlen : length (levels (qos s)) = 10%nat) by (unfold levels; by rewrite length_fmap).
  pose proof (view_submit _ _ _ _ _ _ _ i data Hv Hpk Hrec Hmax ltac:(rewrite Hlen; apply level_of_lt)) as Hv'.
  rewrite <- L in Hv'. split; cbn; try done; [congruence| |]; rewrite length_app; cbn [length]; lia.
Qed.

Lemma send_tick_ok x sub fuel t clock :
  session_ok x sub ->
  exists x', exec (SendTick fuel t clock) x = Ok x' /\ session_ok x' sub /\
    limited (pipe x') = limited (pipe x) /\
    unsent (levels (qos (sender x'))) <= unsent (levels (qos (sender x))) /\
    (fuel <> O -> limited (pipe x) = false -> qos_queue_size (qos (sender x)) <> 0 ->
     unsent (levels (qos (sender x'))) < unsent (levels (qos (sender x)))).
Proof.
  intros (d & fs & lv & its & [Hs Hw Hid Hn Hq Hc Hcl Hr Hv Ht]). destruct x as [s p r tk]. cbn in *.
  destruct (tick_send_spec fuel s p t clock Hs Hw Hcl) as (fs' & s' & n & E & Hsv & Hs' & Hw' & (_ & I & N) & Hpr).
  rewrite E. cbn [mbind run_bind]. eexists. split; [reflexivity|].
  destruct (serve_measure _ _ _ Hsv (qos_levels _ (so_qos _ Hs))) as (Hm1 & Hm2 & Hm3).
  split; [|split; [done|split; [exact Hm2|cbn; auto]]].
  exists d, (fs ++ fs'), lv, its. split; cbn; try done; [congruence|congruence|lia|by rewrite Hc, stream_app|].
  destruct Hv as [Hsv0 ? ? ? ? ? ? ? ?]. split; try done. rewrite slices_app. by eapply serve_app.
Qed.

Lemma recv_tick_ok x sub fuel t clock d fs lv its :
  session_inv x sub d fs lv its ->
  exists x' d' fs' lv' its', exec (RecvTick fuel t clock) x = Ok x' /\ session_inv x' sub d' fs' lv' its' /\
    sender x' = sender x /\ limited (pipe x') = limited (pipe x) /\ (length fs' <= length fs)%nat /\
    (fuel <> O -> content (pipe x) <> [] -> (length fs' < length fs)%nat).
Proof.
  intros [Hs Hw Hid Hn Hq Hc Hcl Hr Hv Ht]. destruct x as [s p r tk]. cbn in *.
  destruct (tick_recv_spec PacketId priority_level stamp_peer ser (levels (qos s)) sub fuel r p t clock fs d lv its Hr Hc Hcl Hv)
    as (fs' & d1 & r' & n & E & Hr' & (Hi & (lv' & its' & Hv') & (fs0 & ->)) & Hlt).
  rewrite E. cbn [mbind run_bind].
  eexists (mk_session s _ r' tk), (d ++ d1), fs', lv', its'. split; [reflexivity|].
  split; [|split; [done|split; [done|split; [rewrite length_app; lia|exact Hlt]]]]. split; cbn; try done.
  by rewrite Hi, app_assoc, Ht, !fmap_app.
Qed.

Lemma take_ok x sub :
  session_ok x sub -> exists x', exec Take x = Ok x' /\ session_ok x' sub /\ limited (pipe x') = limited (pipe x).
Proof.
  intros (d & fs & lv & its & [Hs Hw Hid Hn Hq Hc Hcl Hr Hv Ht]). destruct x as [s p r tk]. cbn in *.
  unfold GetItem. destruct (mIncoming r) as [|i rest] eqn:Ei.
  - eexists. split; [reflexivity|]. split; [|done]. exists d, fs, lv, its. split; try done. cbn. by rewrite Ei, app_nil_r.
  - eexists. split; [reflexivity|]. split; [|done]. exists d, fs, lv, its. split; try done.
    + destruct Hr as [[]|Hr]; [left; split; done|right; exact Hr].
    + by apply view_same with r.
    + cbn. by rewrite <- app_assoc.
Qed.

Lemma learn_ok x sub :
  session_ok x sub -> exists x', exec Learn x = Ok x' /\ session_ok x' sub /\ limited (pipe x') = limited (pipe x).
Proof.
  intros (d & fs & lv & its & [[] Hw Hid Hn Hq Hc Hcl Hr Hv Ht]). destruct x as [s p r tk]. cbn in *.
  eexists. split; [reflexivity|]. split; [|done]. exists d, fs, lv, its. by split.
Qed.


Lemma run_events_ok evs : forall x sub,
  session_ok x sub -> Forall (fun y => transportable y.2) (submissions evs) ->
  Z.of_nat (length sub) + Z.of_nat (length (submissions evs)) < MAX_PACKET_COUNTER_VALUE ->
  exists x', run_events evs x = Ok x' /\ session_ok x' (sub ++ submissions evs) /\
    limited (pipe x') = limited (pipe x).
Proof.
  induction evs as [|e evs IH]; intros x sub Hx Htr Hmax.
  - exists x. split; [done|]. change (submissions []) with (@nil (nat * Item)). rewrite app_nil_r. done.
  - assert (Hstep : exists x' new, exec e x = Ok x' /\ session_ok x' (sub ++ new) /\
      limited (pipe x') = limited (pipe x) /\ submissions (e :: evs) = new ++ submissions evs).
    { destruct e as [i now|fuel t clock|fuel t clock| |].
      - cbn in Htr. apply Forall_cons in Htr as [Hi _]. cbn [submissions omap list_omap length] in Hmax.
        destruct (submit_ok x sub i now Hx Hi ltac:(lia)) as (x' & E & H & Hl). by exists x', [(level_of i, i)].
      - destruct (send_tick_ok x sub fuel t clock Hx) as (x' & E & H & Hl & _). exists x', []. rewrite app_nil_r. by repeat split.
      - destruct Hx as (d & fs & lv & its & Hx).
        destruct (recv_tick_ok x sub fuel t clock d fs lv its Hx) as (x' & d' & fs' & lv' & its' & E & H & _ & Hl & _).
        exists x', []. rewrite app_nil_r. split; [done|]. split; [by exists d', fs', lv', its'|by split].
      - destruct (learn_ok x sub Hx) as (x' & E & H & Hl). exists x', []. rewrite app_nil_r. by repeat split.
      - destruct (take_ok x sub Hx) as (x' & E & H & Hl). exists x', []. rewrite app_nil_r. by repeat split. }
    destruct Hstep as (x' & new & E & H & Hl & Esub). rewrite Esub in *.
    destruct (IH x' (sub ++ new) H) as (x2 & E2 & H2 & Hl2).
    + apply Forall_app in Htr as [_ Htr]. exact Htr.
    + rewrite length_app in *. lia.
    + exists x2. rewrite app_assoc. split; [|split; [done|congruence]]. unfold run_events. cbn [foldl mbind run_bind]. by rewrite E.
Qed.

Lemma run_events_app evs1 evs2 x x1 :
  run_events evs1 x = Ok x1 -> run_events (evs1 ++ evs2) x = run_events evs2 x1.
Proof. unfold run_events. rewrite foldl_app. by intros ->. Qed.

(** An empty pipe holds no frame. *)
Lemma no_frames x sub d fs lv its :
  session_inv x sub d fs lv its -> content (pipe x) = [] -> fs = [].
Proof.
  intros [_ _ _ _ _ Hc _ _ Hv _] Hc0. destruct fs as [|f fs]; [done|exfalso].
  rewrite Hc0 in Hc. unfold stream in Hc. cbn [fmap list_fmap concat] in Hc.
  symmetry in Hc. apply app_nil in Hc as [Hc _]. destruct f as [y|]; [|done].
  destruct (view_slice stamp_peer ser _ _ _ _ _ _ _ _ Hv) as ([Hy _] & _).
  destruct y as [[l r] max]. cbn in Hc. destruct Hy as (Hy & _).
  destruct (_ && _); [|done]. rewrite Hc in Hy. done.
Qed.

(** Nothing queued, nothing under way: everything was delivered. *)
Lemma session_drained x sub d fs lv its :
  session_inv x sub d fs lv its -> qos_queue_size (qos (sender x)) = 0 -> content (pipe x) = [] ->
  forall k, at_lv k d = at_lv k sub.
Proof.
  intros Hx Hq0 Hc0 k. pose proof (no_frames _ _ _ _ _ _ Hx Hc0) as ->.
  destruct Hx as [Hs _ _ _ _ _ _ _ [Hsv _ _ _ _ _ _ Hit Hord] _]. cbn in Hsv. inversion Hsv; subst.
  rewrite <- (Hord k). destruct (its !! k) as [l|] eqn:El; [|by rewrite app_nil_r].
  destruct (Forall2_lookup_r _ _ _ _ _ Hit El) as (lr & Hlr & Hf).
  rewrite (count_zero_empty _ (so_qos _ Hs) Hq0 lr) in Hf by (by eapply list_elem_of_lookup_2).
  inversion Hf. by rewrite app_nil_r.
Qed.

(** Enough sending ticks empty the queues. *)
Lemma send_all fuel t clock : fuel <> O -> forall n x sub,
  session_ok x sub -> limited (pipe x) = false -> unsent (levels (qos (sender x))) <= Z.of_nat n ->
  exists x', run_events (replicate n (SendTick fuel t clock)) x = Ok x' /\ session_ok x' sub /\
    qos_queue_size (qos (sender x')) = 0.
Proof.
  intros Hf. induction n as [|n IH]; intros x sub Hx Hlim Hn.
  - exists x. split; [done|]. split; [done|]. destruct (decide (qos_queue_size (qos (sender x)) = 0)); [done|].
    destruct (send_tick_ok x sub fuel t clock Hx) as (x' & _ & Hx' & _ & _ & Hlt).
    destruct Hx' as (d & fs & lv & its & [Hs' _ _ _ _ _ _ _ _ _]). pose proof (bytes_left_nonneg _ (so_qos _ Hs')).
    specialize (Hlt Hf Hlim ltac:(done)). unfold bytes_left in *. fold unsent in *. unfold unsent in *. lia.
  - destruct (send_tick_ok x sub fuel t clock Hx) as (x' & E & Hx' & Hlim' & Hle & Hlt).
    cbn [replicate]. unfold run_events. cbn [foldl mbind run_bind]. rewrite E. apply IH; [done|congruence|].
    destruct (decide (qos_queue_size (qos (sender x)) = 0)) as [E0|E0]; [|specialize (Hlt Hf Hlim E0); lia].
    destruct Hx as (d & fs & lv & its & [Hs _ _ _ _ _ _ _ _ _]).
    assert (Hu : unsent (levels (qos (sender x))) = 0); [|lia].
    unfold unsent. apply sum_with_all_zero. intros l Hl. pose proof (count_zero_empty _ (so_qos _ Hs) E0 l Hl) as ->. done.
Qed.

Lemma recv_all fuel t clock : fuel <> O -> forall n x sub d fs lv its,
  session_inv x sub d fs lv its -> (length fs <= n)%nat ->
  exists x' d' fs' lv' its', run_events (replicate n (RecvTick fuel t clock)) x = Ok x' /\
    session_inv x' sub d' fs' lv' its' /\ sender x' = sender x /\ content (pipe x') = [].
Proof.
  intros Hf. induction n as [|n IH]; intros x sub d fs lv its Hx Hn.
  - exists x, d, fs, lv, its. split; [done|]. split; [done|]. split; [done|].
    destruct Hx as [_ _ _ _ _ Hc _ _ _ _]. rewrite Hc. destruct fs; [done|cbn in Hn; lia].
  - destruct (recv_tick_ok x sub fuel t clock d fs lv its Hx) as (x1 & d1 & fs1 & lv1 & its1 & E & Hx1 & Es & _ & Hle & Hlt).
    destruct (IH x1 sub d1 fs1 lv1 its1 Hx1) as (x' & d' & fs' & lv' & its' & E' & Hx' & Es' & Hc').
    + destruct (decide (content (pipe x) = [])) as [E0|E0]; [|specialize (Hlt Hf E0); lia].
      rewrite (no_frames _ _ _ _ _ _ Hx E0) in Hle. cbn in Hle. lia.
    + exists x', d', fs', lv', its'. split; [|split; [done|split; [congruence|done]]].
      cbn [replicate]. unfold run_events. cbn [foldl mbind run_bind]. by rewrite E.
Qed.


(** *** Items of a registered type *)

(** The promises of a serialiser make its items transportable, unless their type
    reads as a slice or a probe. *)
Lemma laws_transportable t (handles : Item -> Prop) `{!SerialLaws PacketId t handles} i :
  - 2 ^ 31 <= priority_level i < 2 ^ 31 -> is_word 32 (PacketId i) ->
  find_type ser (PacketId i) = Some t -> handles i -> st_size t i <= MAX_SERIAL_SIZE ->
  Z.shiftr (PacketId i) 24 <> PQISTREAM_SLICE_PROTOCOL_VERSION_ID_01 ->
  PacketId i <> be_val (take 4 PACKET_SLICING_PROBE_BYTES) ->
  transportable i.
Proof.
  intros Hp Hid Hf Hh Hmax Hver Hprobe. split; [done|].
  pose proof (law_size i Hh) as Hsz. destruct (law_serialise i Hh) as (body & Hser & Hb).
  pose proof (law_deserialise i) as Hdes. unfold MAX_SERIAL_SIZE in Hmax.
  set (data := be_bytes 4 (PacketId i) ++ be_bytes 4 (st_size t i) ++ body) in *.
  assert (Hlen : Z.of_nat (length data) = st_size t i)
    by (unfold data; rewrite !length_app, !length_be_bytes; lia).
  assert (H8 : take 8 data = be_bytes 4 (PacketId i) ++ be_bytes 4 (st_size t i)).
  { unfold data. rewrite app_assoc, take_app_length' by (by rewrite length_app, !length_be_bytes). done. }
  exists data. rewrite Hlen. unfold rs_size, rs_serialise. rewrite Hf. split; [done|]. split; [done|]. split.
  - unfold MAX_SERIAL_SIZE. lia.
  - intros E. apply Hver. rewrite <- E. unfold data, is_word in *.
    rewrite Z.shiftr_div_pow2 by lia. symmetry.
    transitivity (PacketId i / 256 / 256 / 256 mod 256); [reflexivity|].
    rewrite !Z.div_div by lia. apply Z.mod_small. split; [apply Z.div_pos; lia|apply Z.div_lt_upper_bound; lia].
  - intros E. rewrite H8 in E. apply Hprobe. change PACKET_SLICING_PROBE_BYTES with ([0x02; 0xaa; 0xbb; 0xcc] ++ [0x00; 0x00; 0x00; 0x08]) in E.
    apply app_inj_1 in E as [E _]; [|by rewrite length_be_bytes].
    apply (f_equal be_val) in E. rewrite be_val_bytes, Z.mod_small in E by exact Hid. exact E.
  - intros rest. rewrite H8, <- app_assoc, Hlen. apply getRsItemSize_spec. split; lia.
  - intros rest. specialize (Hdes data rest Hh Hser). rewrite Hlen. unfold rs_deserialise.
    destruct (Z.ltb_spec (st_size t i) 8); [lia|]. unfold data in Hdes |- *. rewrite <- !app_assoc in Hdes |- *.
    rewrite getRsItemId_spec, getRsItemSize_spec by (done || (split; lia)). cbn [mbind access_bind].
    rewrite Z.ltb_irrefl. destruct (Z.ltb_spec MAX_SERIAL_SIZE (st_size t i)); [unfold MAX_SERIAL_SIZE in *; lia|].
    by rewrite Hf, Hdes.
Qed.


(** What was delivered so far: the items taken out of the receiver and those waiting there. *)
Definition delivered (x : session Item) : list Item := taken x ++ mIncoming (receiver x).



End session.

(** ** A concrete session

    A large item at level 1, slicing learnt on the way, a small one at level 7. *)

Definition big_item : raw_item := (0x02001401, (fun k => Z.of_nat k mod 251) <$> seq 0 3000).
Definition small_item : raw_item := (0x02001403, [1; 2; 3]).
Definition level_by_type (i : raw_item) : Z := if i.1 =? 0x02001401 then 1 else 7.
Definition always (n : Z) (k : nat) : Z := n.

Definition sample_events : list (event raw_item) :=
  [Submit big_item 100; Learn; SendTick 1 (f64_of_Z 1) (always 100); RecvTick 1 (f64_of_Z 1) (always 100);
   Submit small_item 101; SendTick 9 (f64_of_Z 2) (always 101); RecvTick 9 (f64_of_Z 2) (always 101);
   Take; RecvTick 9 (f64_of_Z 3) (always 102)].

Definition sample_run : run (session raw_item) :=
  run_events fst level_by_type id sample_registry sample_events
    (new_session raw_item (f64_of_Z 0) (f64_of_Z 0) false).

Lemma sample_run_drains :
  match sample_run with
  | Ok x => (qos_queue_size (qos (sender x)) =? 0) && bool_decide (content (pipe x) = [])
  | _ => false
  end = true.
Proof. vm_compute. reflexivity. Qed.

Lemma sample_transportable :
  Forall (fun y => transportable fst level_by_type sample_registry y.2) (submissions level_by_type sample_events).
Proof.
  change (submissions level_by_type sample_events) with [(1%nat, big_item); (7%nat, small_item)].
  constructor; [|constructor; [|constructor]]; cbn [snd];
    apply (laws_transportable _ _ _ (raw_serial_type (service_item_type 2 20 0)) raw_handles); closed.
Qed.


