(* ===== verification/StreamerSafety.v ===== *)
(** * Memory safety and accounting of the packet streamer

    What holds of one streamer whatever its peer sends and whatever connection carries it, the
    accounting of the output queue, and the inputs on which the code goes wrong: a peer that
    makes the process exit, a double free, reads of a negative length. *)

From S2P Require Import Prelude RawSerial Serialiser QoS Streamer StreamerProps Session.
From Stdlib Require Import ZArith Lia SpecFloat.
From stdpp Require Import base list gmap.
Open Scope Z_scope.

(** ** Safe outcomes *)

(** Anything but an invalid access; a result satisfies [P]. *)
Definition safe {A} (P : A -> Prop) (m : run A) : Prop :=
  match m with Ok a => P a | Exit => True | Fault => False end.

Lemma safe_bind {A C} (m : run A) (f : A -> run C) Q P :
  safe Q m -> (forall a, Q a -> safe P (f a)) -> safe P (m ≫= f).
Proof. destruct m; cbn; auto. Qed.

Lemma safe_mono {A} (P Q : A -> Prop) m : safe P m -> (forall a, P a -> Q a) -> safe Q m.
Proof. destruct m; cbn; auto. Qed.

Section safety.
Context {Item : Type} (PacketId : Item -> Z) (priority_level : Item -> Z) (stamp_peer : Item -> Item).
Context (ser : RsSerialiser Item).
Context {B : Type} {bin : BinInterface B} {laws : BinLaws B}.
Implicit Types (s : Streamer Item) (b : B).

(** No record is longer than [n]. *)
Definition records_ok (n : Z) (m : gmap Z (list Z)) : Prop :=
  forall i rec, m !! i = Some rec -> Z.of_nat (length rec) <= n.

(** The state while reading. *)
Record reading_ok (n : Z) s : Prop := {
  rd_block : exists block, mPkt_rpending s = Some block /\ Z.of_nat (length block) = MAX_SERIAL_SIZE /\ bytes_ok block;
  rd_size : mPkt_rpend_size s = MAX_SERIAL_SIZE;
  rd_records : records_ok n (mPartialPackets s);
  rd_wpending : mPkt_wpending s <> WDangling
}.

(** The state between two ticks. *)
Record idle_ok (n : Z) s : Prop := {
  id_block : mPkt_rpending s = None \/
    (mPkt_rpend_size s = MAX_SERIAL_SIZE /\
     exists block, mPkt_rpending s = Some block /\ Z.of_nat (length block) = MAX_SERIAL_SIZE /\ bytes_ok block);
  id_records : records_ok n (mPartialPackets s);
  id_wpending : mPkt_wpending s <> WDangling
}.

Lemma records_ok_mono n m recs : n <= m -> records_ok n recs -> records_ok m recs.
Proof. intros Hn Hr i rec Hi. specialize (Hr i rec Hi). lia. Qed.

Lemma records_ok_insert n i rec recs :
  records_ok n recs -> Z.of_nat (length rec) <= n -> records_ok n (<[i := rec]> recs).
Proof.
  intros Hr Hl j rec' Hj. destruct (decide (i = j)) as [->|Hne].
  - rewrite lookup_insert_eq in Hj. by injection Hj as <-.
  - rewrite lookup_insert_ne in Hj by done. by eapply Hr.
Qed.

Lemma records_ok_delete n i recs : records_ok n recs -> records_ok n (delete i recs).
Proof. intros Hr j rec Hj. apply lookup_delete_Some in Hj as [_ Hj]. by eapply Hr. Qed.

Lemma reading_ok_mono n m s : n <= m -> reading_ok n s -> reading_ok m s.
Proof. intros Hn []. split; try done. by eapply records_ok_mono. Qed.

Lemma reading_idle n s : reading_ok n s -> idle_ok n s.
Proof. intros []. split; try done. right. done. Qed.

(** ** The receiver *)

Lemma store_block_safe n s off bytes :
  reading_ok n s -> 0 <= off -> off + Z.of_nat (length bytes) <= MAX_SERIAL_SIZE -> bytes_ok bytes ->
  safe (reading_ok n) (store_block s off bytes).
Proof.
  intros [(block & Hb & Hl & Hbs) Hsz Hr Hw] H0 Ho Hby.
  rewrite (store_block_spec s block) by (done || lia). cbn. split; try done.
  eexists. split; [reflexivity|]. rewrite length_splice by lia. split; [done|].
  unfold splice. apply Forall_app. split; [by apply Forall_take|]. apply Forall_app. split; [done|]. by apply Forall_drop.
Qed.

Lemma read_header_safe n s b :
  reading_ok n s -> safe (fun '(s', _, _, _) => reading_ok n s') (read_header s b).
Proof.
  intros Hs. unfold read_header, getRsPktBaseSize. eapply safe_bind.
  { apply (store_block_safe n s 0); [done|lia|done|]. change (Z.to_nat 8) with 8%nat. by repeat constructor. }
  intros s1 Hs1. cbv beta. pose proof (law_readdata b 8 ltac:(lia)) as Hl.
  destruct (readdata b 8) as [[b1 bytes] len]. destruct Hl as (Hl & _ & _ & _ & Hby).
  eapply safe_bind; [apply (store_block_safe n s1 0); [done|lia|unfold MAX_SERIAL_SIZE; lia|done]|].
  intros s2 [(block & Hb & ?) ? ? ?]. destruct (negb _); [by split; eauto|].
  destruct (decide _); cbn; split; eauto.
Qed.

Lemma deserialise_total data size :
  size <= Z.of_nat (length data) -> exists r n, rs_deserialise ser data size = Done (r, n).
Proof.
  intros Hs. unfold rs_deserialise. destruct (Z.ltb_spec size 8); [eauto|].
  destruct (header_reads data ltac:(lia)) as (ty & sz & -> & ->). cbn [mbind access_bind].
  destruct (size <? sz); [eauto|]. destruct (MAX_SERIAL_SIZE <? sz); [eauto|].
  destruct (find_type ser ty) as [t|]; [|eauto]. destruct (st_deserialise t data sz) as [[r|] m]; eauto.
Qed.

Lemma addPartialPacket_safe n s block len id starting ending :
  reading_ok n s -> 8 <= len < 8 + 2 ^ 16 -> 0 <= n -> n + (2 ^ 16 - 1) < 2 ^ 32 ->
  safe (fun '(s', _, _) => reading_ok (n + (2 ^ 16 - 1)) s') (addPartialPacket ser s block len id starting ending).
Proof.
  intros Hs Hlen H0 Hn. pose proof Hs as [Hb Hsz Hr Hw]. unfold addPartialPacket, PQISTREAM_PARTIAL_PACKET_HEADER_SIZE.
  destruct (starting && ending); [cbn; by apply reading_ok_mono with n; [lia|]|].
  rewrite wrap_small by (split; lia). set (data := Prelude.slice _ _ block).
  assert (Hd : Z.of_nat (length data) <= len - 8) by (unfold data, Prelude.slice; rewrite length_take; lia).
  assert (Hr' : records_ok (n + (2 ^ 16 - 1)) (mPartialPackets s)) by (by apply records_ok_mono with n; [lia|]).
  destruct (mPartialPackets s !! id) as [rec|] eqn:E.
  - specialize (Hr id rec E). set (rec' := if starting then [] else rec).
    assert (Hl : Z.of_nat (length rec') <= n) by (unfold rec'; destruct starting; cbn; lia).
    replace (2 ^ 32 <=? _) with false by (symmetry; apply Z.leb_gt; lia).
    assert (Hl' : Z.of_nat (length (rec' ++ data)) <= n + (2 ^ 16 - 1)) by (rewrite length_app; lia).
    destruct ending; [|cbn; split; try done; by apply records_ok_insert].
    destruct (deserialise_total (rec' ++ data) _ (Z.le_refl _)) as (r & m & ->). cbn.
    split; try done. by apply records_ok_delete.
  - destruct (negb starting); [cbn; by split|]. destruct (negb _); [done|]. cbn. split; try done.
    apply records_ok_insert; [done|]. lia.
Qed.

Lemma handle_safe n s item len now :
  reading_ok n s ->
  reading_ok n (inReadBytes (handleincomingitem PacketId priority_level stamp_peer s item len now) len).
Proof. intros []. unfold handleincomingitem, locked_addTrafficClue. destruct (_ <? now); by split. Qed.

Lemma restart_safe n s : reading_ok n s -> reading_ok n (restart_reading s).
Proof. intros []. by split. Qed.

Lemma deliver_safe n s h pktlen now :
  reading_ok n s -> (h_partial h = true -> 8 <= pktlen < 8 + 2 ^ 16) -> pktlen <= MAX_SERIAL_SIZE ->
  0 <= n -> n + (2 ^ 16 - 1) < 2 ^ 32 ->
  safe (reading_ok (n + (2 ^ 16 - 1))) (deliver PacketId priority_level stamp_peer ser s h pktlen now).
Proof.
  intros Hs Hp Hlen H0 Hn. unfold deliver. eapply (safe_bind _ _ (fun '(s', _, _) => reading_ok (n + (2 ^ 16 - 1)) s')).
  - destruct (h_partial h).
    + eapply safe_bind; [apply (addPartialPacket_safe n); auto|]. intros [[s1 pkt] m] Hs1. exact Hs1.
    + pose proof Hs as [(block & Hb & Hl & _) _ _ _]. unfold block_of. rewrite Hb. cbn [default from_option id].
      destruct (deserialise_total block pktlen ltac:(lia)) as (r & m & ->). cbn.
      by apply reading_ok_mono with n; [lia|].
  - intros [[s1 [pkt|]] m] Hs1.
    + change (reading_ok (n + (2 ^ 16 - 1)) (restart_reading (inReadBytes (handleincomingitem PacketId priority_level stamp_peer s1 pkt m now) m))).
      by apply restart_safe, handle_safe.
    + by apply restart_safe.
Qed.

Lemma parse_header_safe block :
  Z.of_nat (length block) = MAX_SERIAL_SIZE -> bytes_ok block ->
  safe (fun h => h_partial h = true -> 0 <= h_extralen h < 2 ^ 16) (parse_header block).
Proof.
  intros Hl Hby. unfold parse_header. unfold MAX_SERIAL_SIZE in Hl. destruct (_ && _) eqn:E.
  - cbn. intros _.
    assert (Hn : forall i, 0 <= nth i block 0 < 2 ^ 8).
    { intros i. destruct (decide (i < length block)%nat) as [Hi|Hi].
      - exact (proj1 (List.Forall_forall _ _) Hby _ (List.nth_In _ _ Hi)).
      - rewrite nth_overflow by lia. lia. }
    pose proof (Hn 6%nat). pose proof (Hn 7%nat). rewrite Z.shiftl_mul_pow2 by lia.
    rewrite wrap_small; [lia|split; lia].
  - destruct (header_reads block ltac:(lia)) as (ty & sz & _ & ->). done.
Qed.

Lemma read_body_safe n s b now :
  reading_ok n s -> 0 <= n -> n + (2 ^ 16 - 1) < 2 ^ 32 ->
  safe (fun '(s', _, _, _) => reading_ok (n + (2 ^ 16 - 1)) s')
    (read_body PacketId priority_level stamp_peer ser s b now).
Proof.
  intros Hs H0 Hn. unfold read_body, getRsPktBaseSize. pose proof Hs as [(block & Hb & Hl & Hby) _ _ _].
  eapply safe_bind; [unfold block_of; rewrite Hb; by apply parse_header_safe|].
  intros h Hh. cbv beta. set (s0 := if h_partial h then _ else s).
  assert (Hs0 : reading_ok n s0) by (unfold s0; destruct Hs; destruct (h_partial h); by split). clearbody s0.
  assert (Hup : forall s', reading_ok n s' -> reading_ok (n + (2 ^ 16 - 1)) s') by (intros; by apply reading_ok_mono with n; [lia|]).
  rewrite (rd_size _ _ Hs0). unfold MAX_SERIAL_SIZE. rewrite (wrap_small 32 262143) by (split; lia).
  destruct (Z.ltb_spec 262143 (u32 (h_extralen h + 8))) as [Hbig|Hfit].
  { apply Hup. by apply restart_safe. }
  assert (Hlen : u32 (8 + h_extralen h) <= MAX_SERIAL_SIZE) by (rewrite Z.add_comm; exact Hfit).
  assert (Hlen' : h_partial h = true -> 8 <= u32 (8 + h_extralen h) < 8 + 2 ^ 16).
  { intros E. specialize (Hh E). rewrite wrap_small by (split; lia). lia. }
  destruct (Z.ltb_spec 0 (h_extralen h)) as [Hpos|Hpos].
  - assert (Hread : let '(_, bytes, _) := readdata b (sint32 (h_extralen h)) in
                    8 + Z.of_nat (length bytes) <= MAX_SERIAL_SIZE /\ bytes_ok bytes).
    { destruct (decide (0 <= sint32 (h_extralen h))) as [Hsg|Hsg].
      - pose proof (law_readdata b _ Hsg) as Hr. destruct (readdata b _) as [[b1 bytes] m].
        destruct Hr as (Hr & _ & _ & _ & Hb2). split; [|done].
        enough (8 + sint32 (h_extralen h) <= MAX_SERIAL_SIZE) by lia.
        rewrite Z.add_comm in Hfit. rewrite <- wrap_add_r in Hfit. unfold sint32 in *.
        pose proof (wrap_range 32 (h_extralen h) ltac:(lia)). destruct (Z.ltb_spec (wrap 32 (h_extralen h)) (2 ^ 31)); [|lia].
        rewrite wrap_small in Hfit by (split; lia). unfold MAX_SERIAL_SIZE. lia.
      - pose proof (law_readdata_neg b (sint32 (h_extralen h)) ltac:(lia)) as Hr.
        destruct (readdata b _) as [[b1 bytes] m]. destruct Hr as [-> _]. split; [cbn; unfold MAX_SERIAL_SIZE; lia|constructor]. }
    destruct (readdata b _) as [[b1 bytes] m]. destruct Hread as [Hr1 Hr2].
    eapply safe_bind; [apply (store_block_safe n s0 8); [done|lia|done|done]|].
    intros s1 Hs1. cbv beta. destruct (negb _).
    + assert (Hs2 : reading_ok n (s1 <| mFailed_read_attempts := mFailed_read_attempts s1 + 1 |>)) by (destruct Hs1; by split).
      destruct (_ <? _); apply Hup; [by apply restart_safe|done].
    + eapply safe_bind; [apply (deliver_safe n); try done; destruct Hs1; by split|].
      intros s2 Hs2. exact Hs2.
  - eapply safe_bind; [by apply (deliver_safe n)|]. intros s2 Hs2. exact Hs2.
Qed.

Lemma incoming_loop_safe fuel maxin clock : forall turn n s b readbytes,
  reading_ok n s -> 0 <= n -> n + Z.of_nat fuel * (2 ^ 16 - 1) < 2 ^ 32 ->
  safe (fun '(s', _, _) => reading_ok (n + Z.of_nat fuel * (2 ^ 16 - 1)) s')
    (incoming_loop PacketId priority_level stamp_peer ser fuel turn s b maxin readbytes clock).
Proof.
  induction fuel as [|fuel IH]; intros turn n s b readbytes Hs H0 Hn; cbn [incoming_loop].
  { cbn. apply reading_ok_mono with n; [lia|done]. }
  eapply (safe_bind _ _ (fun '(s', _, _, _) => reading_ok n s')).
  { destruct (mReading_state s); [done|by apply read_header_safe]. }
  intros [[[s1 b1] m1] go] Hs1. destruct (negb go); [cbn; apply reading_ok_mono with n; [lia|done]|].
  eapply safe_bind; [apply (read_body_safe n); [exact Hs1|lia|lia]|].
  intros [[[s2 b2] m2] complete] Hs2. destruct (negb complete); [cbn; apply reading_ok_mono with (n + (2 ^ 16 - 1)); [lia|done]|].
  destruct (_ && _); [|cbn; apply reading_ok_mono with (n + (2 ^ 16 - 1)); [lia|done]].
  eapply safe_mono; [apply (IH _ (n + (2 ^ 16 - 1))); [done|lia|lia]|].
  intros [[s3 b3] m3] Hs3. apply reading_ok_mono with (n + (2 ^ 16 - 1) + Z.of_nat fuel * (2 ^ 16 - 1)); [lia|done].
Qed.

Lemma free_pend_safe n s : idle_ok n s -> 0 <= n -> safe (idle_ok n) (free_pend s).
Proof.
  intros [_ _ Hw] H0. unfold free_pend, reset_wpending. cbn [mPkt_wpending upd].
  assert (Hr : records_ok n ∅) by (intros i rec Hi; by rewrite lookup_empty in Hi).
  destruct (mPkt_wpending s); [| |done]; cbn; (split; [by left|done|done]).
Qed.

Lemma start_reading n s b t :
  idle_ok n s -> reading_ok n (inAllowedBytes (allocate_rpend s) b t).1.
Proof.
  intros [Hb Hr Hw].
  assert (Ha : reading_ok n (allocate_rpend s)).
  { unfold allocate_rpend. destruct Hb as [Hb|(Hsz & block & Hb & Hl)]; rewrite Hb.
    - split; try done. eexists. split; [reflexivity|]. rewrite length_replicate. split; [done|].
      by apply Forall_replicate.
    - split; try done. eauto. }
  destruct Ha as [? ? ? ?]. unfold inAllowedBytes. destruct (negb _); [by split|].
  destruct (float_lt _ _); by split.
Qed.

(** Where it ends: a slice that brings a packet to 4 GB is copied past the end of the buffer. *)
Lemma oversized_packet_overruns s block rec len pid ending :
  mPartialPackets s !! pid = Some rec -> 8 <= len < 8 + 2 ^ 16 -> 2 ^ 32 <= Z.of_nat (length rec) + (len - 8) ->
  addPartialPacket ser s block len pid false ending = Fault.
Proof.
  intros Hrec Hlen Hbig. unfold addPartialPacket, PQISTREAM_PARTIAL_PACKET_HEADER_SIZE. cbn [andb].
  rewrite wrap_small by (split; lia). rewrite Hrec. by replace (2 ^ 32 <=? _) with true by (symmetry; apply Z.leb_le; lia).
Qed.

(** C25 The receiver is memory safe as long as the packets that are put together from slices stay below 4 GB.  When each of them
    has at most [n] bytes before a receiving tick, and [n] and 65535 for each turn of the reading loop ([fuel]) are less than 2^32
    together, then whatever bytes the connection delivers, in whatever pieces, and whatever the serialisers make of them, the tick
    never reads or writes outside its packet buffer and never uses a freed buffer, and it leaves a state fit for the next
    tick, in which no packet has grown by more than that.  The bound is the code's: it sets no maximum for a packet, and a slice that
    brings one to 2^32 bytes is copied past the end of the buffer ([oversized_packet_overruns]). *)
Theorem receiver_memory_safe fuel n s b t clock :
  idle_ok n s -> 0 <= n -> n + Z.of_nat fuel * (2 ^ 16 - 1) < 2 ^ 32 ->
  tick_recv PacketId priority_level stamp_peer ser fuel s b t clock <> Fault /\
  (forall s' b' m, tick_recv PacketId priority_level stamp_peer ser fuel s b t clock = Ok (s', b', m) ->
    idle_ok (n + Z.of_nat fuel * (2 ^ 16 - 1)) s') /\
  (forall s0 block rec len pid ending, mPartialPackets s0 !! pid = Some rec -> 8 <= len < 8 + 2 ^ 16 ->
    2 ^ 32 <= Z.of_nat (length rec) + (len - 8) -> addPartialPacket ser s0 block len pid false ending = Fault).
Proof.
  intros Hs H0 Hn. set (N := n + Z.of_nat fuel * (2 ^ 16 - 1)) in *.
  assert (HnN : idle_ok N s) by (destruct Hs; split; try done; by apply records_ok_mono with n; [lia|]).
  assert (Hsafe : safe (fun '(s', _, _) => idle_ok N s') (tick_recv PacketId priority_level stamp_peer ser fuel s b t clock)).
  { assert (Hfree : forall (b' : B) (m : Z) s, idle_ok N s ->
              safe (fun '(s', _, _) => idle_ok N s') (s ← free_pend s; Ok (s, b', m))).
    { intros b' m s0 Hs0. eapply safe_bind; [apply free_pend_safe; [exact Hs0|lia]|]. intros s1 Hs1. exact Hs1. }
    unfold tick_recv. destruct (negb (isactive b)) eqn:Ea; [by apply Hfree|].
    eapply (safe_bind _ _ (fun '(s', _, _) => idle_ok N s')).
    - destruct (moretoread b); [|done]. unfold handleincoming. rewrite Ea.
      pose proof (start_reading n s b t Hs) as Hst. destruct (inAllowedBytes _ b t) as [s1 maxin]. cbn [fst] in Hst.
      eapply safe_mono; [by apply (incoming_loop_safe fuel maxin clock 0 n)|].
      intros [[s2 b2] m2] Hs2. by apply reading_idle.
    - intros [[s1 b1] m1] Hs1. destruct (negb (isactive b1)); [by apply Hfree|done]. }
  destruct (tick_recv _ _ _ _ _ _ _ _ _) as [[[s1 b1] m1]| |]; [|done|].
  - split; [done|]. split; [|exact oversized_packet_overruns]. intros s' b' m E. injection E as <- <- <-. exact Hsafe.
  - split; [done|]. split; [discriminate|exact oversized_packet_overruns].
Qed.

End safety.

(** ** Connections for the examples *)

(** Bytes to be read. *)
#[export] Instance byte_list_bin : BinInterface (list Byte.byte) := {
  isactive _ := true;
  cansend _ := true;
  moretoread b := negb (Nat.eqb (length b) 0);
  bandwidthLimited _ := false;
  senddata b _ len := (b, len);
  readdata b len :=
    if (0 <=? len) && (len <=? Z.of_nat (length b))
    then (drop (Z.to_nat len) b, (fun c => Z.of_N (Byte.to_N c)) <$> take (Z.to_nat len) b, len)
    else (b, [], -1);
  bio_close b := b
}.

#[export] Instance byte_list_laws : BinLaws (list Byte.byte).
Proof.
  split.
  - intros b len Hlen. cbn. destruct ((0 <=? len) && (len <=? Z.of_nat (length b))) eqn:E.
    + bprop. rewrite length_fmap, length_take. repeat split; try lia.
      apply Forall_fmap, Forall_true. intros c. pose proof (Byte.to_N_bounded c). unfold compose, is_word. lia.
    + repeat split; try (cbn; lia). constructor.
  - intros b len Hlen. cbn. replace (0 <=? len) with false by (symmetry; apply Z.leb_gt; lia). cbn. split; [done|lia].
  - intros b bytes len _. cbn. lia.
Qed.

(** Records the lengths it is asked for and has nothing to give. *)
Record Tap := mk_Tap { tap_active : bool; tap_log : list Z }.

#[export] Instance tap_bin : BinInterface Tap := {
  isactive := tap_active;
  cansend _ := false;
  moretoread _ := true;
  bandwidthLimited _ := false;
  senddata b _ _ := (b, -1);
  readdata b len := (mk_Tap (tap_active b) (tap_log b ++ [len]), [], -1);
  bio_close b := b
}.

Lemma receiver_memory_safe_witness :
  tick_recv fst level_by_type id sample_registry 3 (new_Streamer raw_item (f64_of_Z 0))
    [Byte.x10; Byte.x01; Byte.x00; Byte.x00; Byte.x00; Byte.x07; Byte.x00; Byte.x02; Byte.xaa; Byte.xbb;
     Byte.x10; Byte.x02; Byte.x00; Byte.x00; Byte.x00; Byte.x07; Byte.x00; Byte.x01; Byte.xcc]
    (f64_of_Z 1) (always 5) <> Fault.
Proof.
  apply (receiver_memory_safe fst level_by_type id sample_registry 3 0 (new_Streamer raw_item (f64_of_Z 0))); [|lia|lia].
  split; [by left|intros i rec Hi; discriminate|discriminate].
Defined.

Section misbehaviour.
Context {Item : Type} (PacketId : Item -> Z) (priority_level : Item -> Z) (stamp_peer : Item -> Item).
Context (ser : RsSerialiser Item).
Implicit Types s : Streamer Item.

(** ** Eight bytes that end the process *)

Lemma zero_slice_exits s h pktlen now :
  h_partial h = true -> h_starting h = true -> h_ending h = false -> pktlen = 8 ->
  mPartialPackets s !! h_id h = None ->
  deliver PacketId priority_level stamp_peer ser s h pktlen now = Exit.
Proof.
  intros Hp Hs He -> Hm. unfold deliver. rewrite Hp, Hs, He. unfold addPartialPacket. cbn [andb].
  by rewrite Hm.
Qed.

(** A peer can end the process with eight bytes.  When the next frame of the stream is a slice header
    with the STARTS flag, an id that is not being reassembled and a length of zero, the
    receiving tick asks [rs_malloc] for zero bytes without an error condition to report to, which
    is fatal.  Nothing before the allocation checks the length of the slice. *)
Theorem zero_length_slice_exits fuel s (p : Pipe) rest pid t clock :
  recv_start s -> mPartialPackets s !! pid = None -> is_word 32 pid -> closed_pipe p = false ->
  content p = slice_header (mk_SliceOut 0 true false pid) ++ rest ->
  tick_recv PacketId priority_level stamp_peer ser (S fuel) s p t clock = Exit.
Proof.
  intros Hr Hm Hid Hcl Hc. unfold tick_recv, handleincoming. cbn [isactive pipe_bin moretoread]. rewrite Hcl.
  rewrite bool_decide_false by (rewrite Hc; discriminate). cbn [negb].
  destruct (allocate_rpend_spec s Hr) as (Hr1 & Hp1 & _).
  pose proof (inAllowedBytes_spec (allocate_rpend s) p t) as Ha.
  destruct (inAllowedBytes _ p t) as [s1 maxin]. destruct Ha as (A1 & A2 & A3 & A4 & _).
  assert (Hr2 : recv_ok s1) by (destruct Hr1; split; rewrite ?A1, ?A2, ?A3; done).
  cbn [incoming_loop]. rewrite (ro_state _ Hr2).
  destruct (read_header_spec s1 p _ rest Hr2 Hc ltac:(done)) as (s2 & tail & (Sp & _ & Sz) & Rb & Lt & [(E & _)|(_ & ->)]); [done|].
  cbn [mbind run_bind negb]. unfold read_body, block_of. rewrite Rb. cbn [default from_option id].
  rewrite take_ge by (cbn; lia). rewrite parse_slice_header by (done || (split; cbn; lia)).
  cbn [mbind run_bind h_partial h_extralen o_size]. cbn [mPkt_rpend_size upd].
  rewrite Sz, (ro_size _ Hr2). unfold getRsPktBaseSize.
  replace (u32 MAX_SERIAL_SIZE <? u32 (0 + 8)) with false by done. replace (0 <? 0) with false by done.
  rewrite zero_slice_exits; try done. change (mPartialPackets s2 !! pid = None). congruence.
Qed.

(** ** Reads of a negative length *)

Lemma undersized_read s block v now :
  mPkt_rpending s = Some block -> mPkt_rpend_size s = MAX_SERIAL_SIZE -> Z.of_nat (length block) = MAX_SERIAL_SIZE ->
  nth 0 block 0 <> PQISTREAM_SLICE_PROTOCOL_VERSION_ID_01 -> getRsItemSize block = Done v -> 0 <= v < 8 ->
  exists s' n complete,
    read_body PacketId priority_level stamp_peer ser s (mk_Tap true []) now
      = Ok (s', mk_Tap true [v - 8], n, complete) /\ (v < 7 -> complete = false).
Proof.
  intros Hb Hsz Hl Hver Hv Hr. unfold read_body, block_of. rewrite Hb. cbn [default from_option id].
  unfold parse_header. replace (nth 0 block 0 =? _) with false by (symmetry; by apply Z.eqb_neq). cbn [andb].
  rewrite Hv. cbn [of_access mbind run_bind h_partial h_extralen]. unfold getRsPktBaseSize, MAX_SERIAL_SIZE in *.
  assert (Ew : u32 (v - 8) = 2 ^ 32 + v - 8).
  { unfold wrap. rewrite <- (Z_mod_plus_full _ 1), Z.mod_small; lia. }
  rewrite wrap_add_l, Hsz. replace (v - 8 + 8) with v by lia. rewrite (wrap_small 32 v), (wrap_small 32 262143) by (split; lia).
  replace (262143 <? v) with false by (symmetry; apply Z.ltb_ge; lia). rewrite Ew.
  replace (0 <? 2 ^ 32 + v - 8) with true by (symmetry; apply Z.ltb_lt; lia).
  assert (Es : sint32 (2 ^ 32 + v - 8) = v - 8).
  { unfold sint32. rewrite wrap_small by (split; lia). destruct (Z.ltb_spec (2 ^ 32 + v - 8) (2 ^ 31)); lia. }
  rewrite Es. cbn [readdata tap_bin tap_active tap_log app].
  rewrite (store_block_spec s block) by (done || (cbn; lia)). cbn [mbind run_bind].
  destruct (negb (2 ^ 32 + v - 8 =? u32 (-1))) eqn:E7.
  - destruct (_ <? _); eauto.
  - unfold deliver. cbn [h_partial].
    replace (u32 (8 + (2 ^ 32 + v - 8))) with v
      by (unfold wrap; rewrite <- (Z_mod_plus_full _ (-1)), Z.mod_small; lia).
    unfold rs_deserialise. replace (v <? 8) with true by (symmetry; apply Z.ltb_lt; lia).
    cbn [of_access mbind run_bind]. eexists _, _, _. split; [reflexivity|].
    intros Hv7. exfalso. apply negb_false_iff, Z.eqb_eq in E7. change (u32 (-1)) with (2 ^ 32 - 1) in E7. lia.
Qed.

(** The size check of a packet header wraps.  For a packet that announces fewer bytes than
    its header has, the number of bytes still to read is computed as [size - 8] in [uint32_t]; the check
    [extralen + blen > maxlen] wraps back to the announced size and lets it pass, and the
    connection is asked to read a negative number of bytes into the packet buffer. *)
Theorem undersized_packet_negative_read s block v now :
  mPkt_rpending s = Some block -> mPkt_rpend_size s = MAX_SERIAL_SIZE -> Z.of_nat (length block) = MAX_SERIAL_SIZE ->
  nth 0 block 0 <> PQISTREAM_SLICE_PROTOCOL_VERSION_ID_01 -> getRsItemSize block = Done v -> 0 <= v < 8 ->
  exists s' n complete,
    read_body PacketId priority_level stamp_peer ser s (mk_Tap true []) now
      = Ok (s', mk_Tap true [v - 8], n, complete).
Proof.
  intros Hb Hsz Hl Hver Hv Hr.
  destruct (undersized_read s block v now Hb Hsz Hl Hver Hv Hr) as (s' & n & c & E & _). eauto.
Qed.

(** A lost connection leaves the reader in the middle of a packet.  If the connection goes down
    after a header was read, the tick that notices it frees the packet buffer but keeps
    [mReading_state]; when the connection is up again the first tick takes the header from the
    fresh, zeroed buffer and asks the connection for minus eight bytes.  ([reset], which is meant to
    prepare for a reconnection, only calls [free_pend] too.) *)
Theorem reconnect_reads_stale_header fuel1 fuel2 s t1 t2 clock1 clock2 :
  mReading_state s = true -> mPkt_wpending s = WNull ->
  exists s1, tick_recv PacketId priority_level stamp_peer ser fuel1 s (mk_Tap false []) t1 clock1
               = Ok (s1, mk_Tap false [], 0) /\
    mReading_state s1 = true /\ mPkt_rpending s1 = None /\
    exists s2 n, tick_recv PacketId priority_level stamp_peer ser (S fuel2) s1 (mk_Tap true []) t2 clock2
                   = Ok (s2, mk_Tap true [-8], n).
Proof.
  intros Hst Hw. unfold tick_recv at 1. cbn [isactive tap_bin tap_active negb].
  unfold free_pend, reset_wpending. cbn [mPkt_wpending upd]. rewrite Hw. cbn [free_wpending mbind run_bind].
  eexists. split; [reflexivity|]. split; [exact Hst|]. split; [done|].
  match goal with |- context [tick_recv _ _ _ _ _ ?x _ _ _] => set (s1 := x) end.
  unfold tick_recv, handleincoming. cbn [isactive tap_bin tap_active negb moretoread].
  unfold allocate_rpend. change (mPkt_rpending s1) with (@None (list Z)). cbv iota.
  assert (Hblk : exists block, replicate (Z.to_nat getRsPktMaxSize) 0 = block /\
            Z.of_nat (length block) = MAX_SERIAL_SIZE /\ nth 0 block 0 <> PQISTREAM_SLICE_PROTOCOL_VERSION_ID_01 /\
            getRsItemSize block = Done 0).
  { eexists. split; [reflexivity|]. split; [by rewrite length_replicate|]. split; [discriminate|].
    vm_compute. reflexivity. }
  destruct Hblk as (block & -> & Hl & Hver & Hv).
  unfold inAllowedBytes. cbn [bandwidthLimited tap_bin negb]. cbn [incoming_loop].
  match goal with |- context [mReading_state ?x] => set (s2 := x) end.
  change (mReading_state s2) with (mReading_state s). rewrite Hst. cbn [mbind run_bind negb].
  destruct (undersized_read s2 block 0 (clock2 0%nat) eq_refl eq_refl Hl Hver Hv ltac:(lia)) as (s3 & n & c & -> & Hc).
  rewrite Hc by lia. cbn [mbind run_bind negb isactive tap_bin tap_active]. eauto.
Qed.

End misbehaviour.

(** Their witnesses. *)

Definition fresh_streamer : Streamer raw_item := new_Streamer raw_item (f64_of_Z 0).

Lemma zero_length_slice_exits_witness :
  tick_recv fst level_by_type id sample_registry 1 fresh_streamer
    (mk_Pipe [0x10; 0x01; 0; 0; 0; 7; 0; 0] false false) (f64_of_Z 1) (always 5) = Exit.
Proof.
  apply (zero_length_slice_exits fst level_by_type id sample_registry 0 fresh_streamer _ [] 7).
  - right. split; reflexivity.
  - reflexivity.
  - closed.
  - reflexivity.
  - reflexivity.
Defined.

Definition undersized_streamer : Streamer raw_item :=
  fresh_streamer <| mPkt_rpending := Some ([2; 0; 20; 3; 0; 0; 0; 5] ++ replicate (Z.to_nat 262135) 0) |>
                 <| mPkt_rpend_size := MAX_SERIAL_SIZE |>.

Lemma undersized_packet_negative_read_witness :
  exists s' n complete,
    read_body fst level_by_type id sample_registry undersized_streamer (mk_Tap true []) 9
      = Ok (s', mk_Tap true [-3], n, complete).
Proof.
  apply (undersized_packet_negative_read fst level_by_type id sample_registry undersized_streamer
           ([2; 0; 20; 3; 0; 0; 0; 5] ++ replicate (Z.to_nat 262135) 0) 5 9).
  - reflexivity.
  - reflexivity.
  - rewrite length_app, length_replicate. reflexivity.
  - discriminate.
  - vm_compute. reflexivity.
  - lia.
Defined.

Definition stale_streamer : Streamer raw_item := fresh_streamer <| mReading_state := true |>.

Lemma reconnect_reads_stale_header_witness :
  exists s1, tick_recv fst level_by_type id sample_registry 1 stale_streamer
               (mk_Tap false []) (f64_of_Z 1) (always 1) = Ok (s1, mk_Tap false [], 0) /\
    mReading_state s1 = true.
Proof.
  destruct (reconnect_reads_stale_header fst level_by_type id sample_registry 1 0
              stale_streamer (f64_of_Z 1) (f64_of_Z 2) (always 1) (always 2)
              eq_refl eq_refl) as (s1 & E & Hst & _).
  exists s1. split; [exact E|exact Hst].
Defined.

(** ** A packet freed twice *)

(** A small item, then one of 262144 bytes at the same level, for a peer that is not known to
    accept slices. *)
Definition two_items : run (Streamer raw_item) :=
  '(s, _, _) ← SendItem fst (fun _ => 0) sample_registry fresh_streamer (0x02001401, [1; 2; 3]) 1
    : run (Streamer raw_item * Z * Z);
  '(s, _, _) ← SendItem fst (fun _ => 0) sample_registry s (0x02001403, replicate (Z.to_nat 262136) 0) 1
    : run (Streamer raw_item * Z * Z);
  Ok s.

Definition sending_tick (s : Streamer raw_item) : run (Streamer raw_item * Pipe * Z) :=
  tick_send 1 s (mk_Pipe [] false false) (f64_of_Z 1) (always 1).

Definition faults {A} (m : run A) : bool := match m with Fault => true | _ => false end.

(** Nothing stops an item larger than a packet from being queued, and sending one crashes: its
    first slice cannot be encoded when the peer is not known to accept slices, so the packet under
    construction is freed, but [mPkt_wpending] keeps pointing to it; the next sending tick
    takes it for a pending packet of zero bytes and frees it again. *)
Theorem oversized_item_double_free :
  faults (s ← two_items; sending_tick s) = false /\
  faults (s ← two_items; '(s, _, _) ← sending_tick s : run (Streamer raw_item * Pipe * Z); sending_tick s) = true.
Proof. vm_compute. split; reflexivity. Qed.

(** ** Accounting of the output queue *)

Section accounting.
Context {Item : Type} (PacketId : Item -> Z) (priority_level : Item -> Z) (ser : RsSerialiser Item).
Implicit Types s : Streamer Item.

(** The two counters against the queues: bytes not sent yet and items not finished. *)
Record acct_ok s : Prop := {
  ac_qos : qos_ok (qos s);
  ac_size : _total_item_size s = u32 (bytes_left (qos s));
  ac_count : _total_item_count s = u32 (qos_queue_size (qos s))
}.

Lemma left_advance_eq max r rest :
  rec_ok r -> 0 < max ->
  sum_with rec_left (advance max r rest) = sum_with rec_left (r :: rest) - Z.of_nat (length (chunk max r)).
Proof.
  intros Hr Hm. rewrite (length_chunk max r Hr Hm). destruct Hr. unfold advance, finishes. rewrite sum_with_cons.
  unfold rec_left at 2. destruct (Z.leb_spec (r_size r) (current_offset r + max)); [lia|].
  rewrite sum_with_cons. unfold rec_left at 1. cbn. lia.
Qed.

(** The output queue's counters are exact (modulo their 32 bits).  Queueing an item adds its
    serialised size and one item; popping a slice takes the slice's size off and, when the
    slice ends the item, one item; clearing zeroes both.  So [locked_compute_out_pkt_size] is the number
    of bytes waiting and [locked_out_queue_size] the number of items, a half-sent one included. *)
Theorem queue_accounting s i now data max o :
  acct_ok s ->
  rs_size PacketId ser i = Z.of_nat (length data) ->
  rs_serialise PacketId ser i (Z.of_nat (length data)) = Some (data, Z.of_nat (length data)) ->
  0 < Z.of_nat (length data) < 2 ^ 30 -> qos_queue_size (qos s) + 1 < 2 ^ 64 ->
  Z.of_nat (length (_item_queues (qos s))) < 2 ^ 31 -> - 2 ^ 31 <= priority_level i < 2 ^ 31 ->
  0 <= _id_counter (qos s) < MAX_PACKET_COUNTER_VALUE -> 0 < max < 2 ^ 31 ->
  (exists s', queue_outpqi_locked PacketId priority_level ser s i now = Ok (s', Z.of_nat (length data), 1) /\
     acct_ok s' /\ bytes_left (qos s') = bytes_left (qos s) + Z.of_nat (length data) /\
     qos_queue_size (qos s') = qos_queue_size (qos s) + 1) /\
  (let '(s', dta, o') := locked_pop_out_data s max o in
   acct_ok s' /\
   match dta with
   | None => qos_queue_size (qos s) = 0 /\ s' = s
   | Some bytes => o_size o' = Z.of_nat (length bytes) /\ bytes_left (qos s') = bytes_left (qos s) - o_size o' /\
                   qos_queue_size (qos s') = qos_queue_size (qos s) - (if o_ends o' then 1 else 0)
   end) /\
  acct_ok (locked_clear_out_queue s) /\ locked_compute_out_pkt_size (locked_clear_out_queue s) = 0 /\
  locked_out_queue_size (locked_clear_out_queue s) = 0.
Proof.
  intros [Hq Hs Hc] Esz Eser Hl Hn Hlv Hp Hid Hm. split; [|split].
  - unfold queue_outpqi_locked. rewrite Esz, Eser.
    replace (rs_malloc_ok (Z.of_nat (length data))) with true.
    2: { unfold rs_malloc_ok, RS_SAFE_MEMALLOC_THRESHOLD. zbool; lia || done. }
    cbn [negb]. set (s0 := locked_addTrafficClue PacketId priority_level s i (Z.of_nat (length data)) true now).
    assert (E0 : qos s0 = qos s /\ _total_item_size s0 = _total_item_size s /\ _total_item_count s0 = _total_item_count s)
      by (unfold s0, locked_addTrafficClue; destruct (_ <? now); done).
    destruct E0 as (Q0 & S0 & C0). clearbody s0. rewrite sint32_small by lia.
    eexists. split; [reflexivity|]. unfold locked_storeInOutputQueue. cbn [qos upd].
    destruct (in_rsItem_spec (qos s) data (Z.of_nat (length data)) (priority_level i) Hq eq_refl) as (L & N & _ & _ & Q');
      [lia|done|done|done|done|].
    set (r := mk_ItemRecord _ _ _ _) in *.
    assert (Hlt : (clamp_level (qos s) (priority_level i) < length (levels (qos s)))%nat).
    { unfold levels. rewrite length_fmap. pose proof (qos_some _ Hq). unfold clamp_level. zbool; cbn; lia. }
    destruct (lookup_lt_is_Some_2 _ _ Hlt) as [l El].
    assert (Eb : bytes_left (in_rsItem (qos s) data (Z.of_nat (length data)) (priority_level i))
                 = bytes_left (qos s) + Z.of_nat (length data)).
    { unfold bytes_left. rewrite L, (sum_with_alter _ _ _ _ _ El), sum_with_app. unfold r, rec_left. cbn. lia. }
    rewrite Q0. split; [|by split]. split; cbn; rewrite ?Q0; [done| |].
    + by rewrite S0, Hs, wrap_add_l, Eb.
    + unfold qos_queue_size in *. by rewrite C0, Hc, wrap_add_l, N.
  - unfold locked_pop_out_data. destruct (decide (qos_queue_size (qos s) = 0)) as [E|E].
    + unfold out_rsItem. unfold qos_queue_size in E. rewrite E. cbn [Z.eqb]. destruct s. by split.
    + destruct (out_rsItem_spec (qos s) max o Hq E Hm) as (r & rest & El & Hr & H). cbv zeta in El, H.
      destruct (out_rsItem (qos s) max o) as [[q res] o']. destruct H as (-> & -> & L & N & _ & Q').
      assert (Eb : bytes_left q = bytes_left (qos s) - Z.of_nat (length (chunk max r))).
      { unfold bytes_left. rewrite L, (sum_with_insert _ _ _ _ _ El), left_advance_eq by (done || lia). lia. }
      cbn [slice_out o_size o_ends]. destruct (finishes max r); (split; [split; cbn|]; try done).
      all: try (by rewrite Hs, wrap_sub_l, Eb).
      all: unfold qos_queue_size in *; try (by rewrite Hc, wrap_sub_l, N).
      all: try (rewrite Hc; f_equal; lia).
  - destruct (clear_spec (qos s) Hq) as (L & N & Q'). split; [|done].
    split; [exact Q'| |change (0 = u32 (qos_queue_size (clear (qos s)))); by rewrite N].
    change (0 = u32 (bytes_left (clear (qos s)))). unfold bytes_left. rewrite L, sum_with_all_zero; [done|]. intros l Hin.
    apply elem_of_replicate_inv in Hin as ->. done.
Qed.

End accounting.

Lemma queue_accounting_witness :
  exists s', queue_outpqi_locked fst level_by_type sample_registry fresh_streamer small_item 5 = Ok (s', 11, 1) /\
    acct_ok s' /\ locked_compute_out_pkt_size s' = 11.
Proof.
  destruct (queue_accounting fst level_by_type sample_registry fresh_streamer small_item 5
              (be_bytes 4 0x02001403 ++ be_bytes 4 11 ++ [1; 2; 3]) 1400 no_out) as ((s' & E & A & Hb & _) & _).
  - split; [|reflexivity|reflexivity].
    apply (proj2 (new_pqiQoS_spec PQI_QOS_STREAMER_MAX_LEVELS PQI_QOS_STREAMER_ALPHA ltac:(unfold PQI_QOS_STREAMER_MAX_LEVELS; lia))).
  - reflexivity.
  - reflexivity.
  - closed.
  - closed.
  - closed.
  - closed.
  - closed.
  - closed.
  - exists s'. split; [exact E|]. split; [exact A|].
    unfold locked_compute_out_pkt_size. rewrite (ac_size _ A), Hb. vm_compute. reflexivity.
Defined.
