(* ===== verification/ChunkMap.v ===== *)
(** * Chunks of a download: src/ft/ftchunkmap.cc

    [ChunkMap] knows which chunks of a file are done, and hands out slices of the others to the peers
    that have them.  A [std::map] is a [gmap]; where the code iterates over one, [in_order] lists it by
    increasing key.  Peer ids are numbers in the order of [RsPeerId].  An access outside a
    vector is [None].  The clock and the result of [rand] are arguments. *)

From S2P Require Import Prelude.
From Stdlib Require Import ZArith Lia SpecFloat.
From stdpp Require Import base list gmap sorting.
Open Scope Z_scope.

(** ** Sums over maps *)

Definition msum {A} (f : Z -> A -> Z) (m : gmap Z A) : Z := sum_with (fun x => f x.1 x.2) (map_to_list m).

(** ** Constants *)

Definition SOURCE_CHUNK_MAP_UPDATE_PERIOD : Z := 60.
Definition INACTIVE_CHUNK_TIME_LAPSE : Z := 3600.
Definition FT_CHUNKMAP_MAX_CHUNK_JUMP : Z := 50.
Definition FT_CHUNKMAP_MAX_SLICE_REASK_DELAY : Z := 10.
Definition CHUNKMAP_FIXED_CHUNK_SIZE : Z := 1024 * 1024.

(** ** Data *)

Inductive ChunkState := CHUNK_OUTSTANDING | CHUNK_ACTIVE | CHUNK_DONE | CHUNK_CHECKING.
Inductive ChunkStrategy := CHUNK_STRATEGY_STREAMING | CHUNK_STRATEGY_RANDOM | CHUNK_STRATEGY_PROGRESSIVE.

#[export] Instance ChunkState_eq_dec : EqDecision ChunkState.
Proof. solve_decision. Defined.

(** A slice handed out to [ftFileCreator]. *)
Record ftChunk := mk_ftChunk { fc_offset : Z; fc_size : Z; fc_id : Z; fc_ts : Z; fc_peer : Z }.

Record Chunk := mk_Chunk { _start : Z; _offset : Z; _end : Z }.

Record SliceRequestInfo := mk_SliceRequestInfo { sr_size : Z; request_time : Z; sr_peers : gset Z }.

Record ChunkDownloadInfo := mk_ChunkDownloadInfo {
  _slices : gmap Z SliceRequestInfo; _remains : Z; _last_data_received : Z
}.

Abbreviation CompressedChunkMap := (list Z).

Record SourceChunksInfo := mk_SourceChunksInfo { sc_cmap : CompressedChunkMap; sc_TS : Z; is_full : bool }.

Record ChunkMap := mk_ChunkMap {
  _file_size : Z;
  _chunk_size : Z;
  _strategy : ChunkStrategy;
  _active_chunks_feed : gmap Z Chunk;
  _slices_to_download : gmap Z ChunkDownloadInfo;
  _map : list ChunkState;
  _peers_chunks_availability : gmap Z SourceChunksInfo;
  _total_downloaded : Z;
  _file_is_complete : bool;
  _assume_availability : bool;
  _chunks_checking_queue : list Z
}.

#[export] Instance eta_Chunk : Eta Chunk := fun c => mk_Chunk (_start c) (_offset c) (_end c).
#[export] Instance eta_SliceRequestInfo : Eta SliceRequestInfo := fun r =>
  mk_SliceRequestInfo (sr_size r) (request_time r) (sr_peers r).
#[export] Instance eta_ChunkDownloadInfo : Eta ChunkDownloadInfo := fun i =>
  mk_ChunkDownloadInfo (_slices i) (_remains i) (_last_data_received i).
#[export] Instance eta_SourceChunksInfo : Eta SourceChunksInfo := fun i =>
  mk_SourceChunksInfo (sc_cmap i) (sc_TS i) (is_full i).
#[export] Instance eta_ChunkMap : Eta ChunkMap := fun m =>
  mk_ChunkMap (_file_size m) (_chunk_size m) (_strategy m) (_active_chunks_feed m)
    (_slices_to_download m) (_map m) (_peers_chunks_availability m) (_total_downloaded m)
    (_file_is_complete m) (_assume_availability m) (_chunks_checking_queue m).

(** ** Compressed maps: retroshare/rstypes.h *)

Definition getCompressedSize (size : Z) : Z :=
  Z.shiftr size 5 + (if Z.land size 31 =? 0 then 0 else 1).

Definition cmap_get (c : CompressedChunkMap) (i : Z) : option bool :=
  w ← c !! Z.to_nat (Z.shiftr i 5);
  Some (0 <? Z.land w (Z.shiftl 1 (Z.land i 31))).

Definition cmap_set (c : CompressedChunkMap) (j : Z) : option CompressedChunkMap :=
  w ← c !! Z.to_nat (Z.shiftr j 5);
  Some (<[Z.to_nat (Z.shiftr j 5) := Z.lor w (Z.shiftl 1 (Z.land j 31))]> c).

Definition cmap_plain (nb_chunks value : Z) : CompressedChunkMap :=
  replicate (Z.to_nat (getCompressedSize nb_chunks)) value.

(** [CompressedChunkMap(const std::vector<ChunkState>&)] *)
Definition cmap_of (states : list ChunkState) : option CompressedChunkMap :=
  foldl (fun c x => c ← c; if decide (x.2 = CHUNK_DONE) then cmap_set c (Z.of_nat x.1) else Some c)
    (Some (replicate (Z.to_nat (getCompressedSize (Z.of_nat (length states)))) 0))
    (imap pair states).

(** ** Chunks *)

Definition new_Chunk (start size : Z) : Chunk := mk_Chunk start start (u64 (size + start)).

Definition getSlice (c : Chunk) (size_hint now : Z) : Chunk * ftChunk :=
  let size := Z.min size_hint (u32 (_end c - _offset c)) in
  (c <| _offset := u64 (_offset c + size) |>, mk_ftChunk (_offset c) size (_offset c) now 0).

Definition chunk_empty (c : Chunk) : bool := _offset c =? _end c.

(** ** The map *)

Definition new_ChunkMap (s : Z) (availability : bool) : ChunkMap :=
  let n := s / CHUNKMAP_FIXED_CHUNK_SIZE in
  let n := if s mod CHUNKMAP_FIXED_CHUNK_SIZE =? 0 then n else n + 1 in
  mk_ChunkMap s CHUNKMAP_FIXED_CHUNK_SIZE CHUNK_STRATEGY_PROGRESSIVE ∅ ∅
    (replicate (Z.to_nat n) CHUNK_OUTSTANDING) ∅ 0 false availability [].

Definition nb_chunks (m : ChunkMap) : Z := Z.of_nat (length (_map m)).

Definition state_at (m : ChunkMap) (i : Z) : option ChunkState :=
  if i <? 0 then None else _map m !! Z.to_nat i.

Definition set_state (m : ChunkMap) (i : Z) (st : ChunkState) : option ChunkMap :=
  _ ← state_at m i; Some (m <| _map := <[Z.to_nat i := st]> (_map m) |>).

(** The product is computed in [uint32_t], the result returned as one. *)
Definition sizeOfChunk (m : ChunkMap) (cid : Z) : Z :=
  if cid =? nb_chunks m - 1 then u32 (_file_size m - u32 (cid * _chunk_size m)) else _chunk_size m.

(** [setAvailabilityMap]; a map that is too short is refused. *)
Definition setAvailabilityMap (m : ChunkMap) (map : CompressedChunkMap) : option ChunkMap :=
  if Z.of_nat (length map) <=? Z.shiftr (nb_chunks m - 1) 5 then Some m
  else
    foldl (fun acc i => m ← acc;
      have ← cmap_get map (Z.of_nat i);
      if (have : bool) then
        m ← set_state m (Z.of_nat i) CHUNK_DONE;
        Some (m <| _total_downloaded := u64 (_total_downloaded m + sizeOfChunk m (Z.of_nat i)) |>)
      else
        m ← set_state m (Z.of_nat i) CHUNK_OUTSTANDING;
        Some (m <| _file_is_complete := false |>))
      (Some (m <| _file_is_complete := true |> <| _total_downloaded := 0 |>)) (seq 0 (length (_map m))).

(** First the chunks by state, then what is under way. *)
Definition updateTotalDownloaded (m : ChunkMap) : option ChunkMap :=
  let m := m <| _total_downloaded := 0 |> <| _file_is_complete := true |> in
  m ← foldl (fun acc i => m ← acc;
        st ← state_at m (Z.of_nat i);
        let add m := m <| _total_downloaded := u64 (_total_downloaded m + sizeOfChunk m (Z.of_nat i)) |> in
        Some (match st with
              | CHUNK_CHECKING => add (m <| _file_is_complete := false |>)
              | CHUNK_DONE => add m
              | _ => m <| _file_is_complete := false |>
              end)) (Some m) (seq 0 (length (_map m)));
  foldl (fun acc x => m ← acc;
    st ← state_at m x.1;
    let m := if decide (st = CHUNK_CHECKING)
             then m <| _total_downloaded := u64 (_total_downloaded m - sizeOfChunk m x.1) |> else m in
    Some (m <| _total_downloaded := u64 (_total_downloaded m + u32 (sizeOfChunk m x.1 - _remains x.2)) |>))
    (Some m) (in_order (_slices_to_download m)).

(** A chunk that is complete is queued for checking; a file of a single chunk is not checked. *)
Definition finish_chunk (m : ChunkMap) (n : Z) : option ChunkMap :=
  m ← set_state m n CHUNK_CHECKING;
  if (0 <? n) || (CHUNKMAP_FIXED_CHUNK_SIZE <? _file_size m)
  then Some (m <| _chunks_checking_queue := _chunks_checking_queue m ++ [n] |>)
  else set_state m n CHUNK_DONE.

(** The chunk number is an [int]. *)
Definition dataReceived (m : ChunkMap) (cid now : Z) : option ChunkMap :=
  let n := sint32 (cid / _chunk_size m) in
  match _slices_to_download m !! u32 n with
  | None => Some m
  | Some info =>
      match _slices info !! cid with
      | None => Some m
      | Some sl =>
          let m := m <| _total_downloaded := u64 (_total_downloaded m + sr_size sl) |> in
          let info := info <| _remains := u32 (_remains info - sr_size sl) |>
                           <| _slices := delete cid (_slices info) |> <| _last_data_received := now |> in
          let m := m <| _slices_to_download := <[u32 n := info]> (_slices_to_download m) |> in
          if _remains info =? 0 then
            m ← finish_chunk m n;
            updateTotalDownloaded (m <| _slices_to_download := delete (u32 n) (_slices_to_download m) |>)
          else Some m
      end
  end.

(** Takes the first of the queue, moves the last in its place, until the queue is empty. *)
Fixpoint drain_queue (fuel : nat) (queue : list Z) : list Z :=
  match fuel, queue with
  | S fuel, x :: rest => x :: drain_queue fuel (removelast (List.last (x :: rest) x :: rest))
  | _, _ => []
  end.

Definition getChunksToCheck (m : ChunkMap) : ChunkMap * list Z :=
  (m <| _chunks_checking_queue := [] |>, drain_queue (length (_chunks_checking_queue m)) (_chunks_checking_queue m)).

Definition setChunkCheckingResult (m : ChunkMap) (chunk_number : Z) (check_succeeded : bool) : option ChunkMap :=
  st ← state_at m chunk_number;
  if negb (bool_decide (st = CHUNK_CHECKING)) then Some m
  else if check_succeeded then
    m ← set_state m chunk_number CHUNK_DONE;
    Some (m <| _file_is_complete := forallb (fun st => bool_decide (st = CHUNK_DONE)) (_map m) |>)
  else
    let m := m <| _total_downloaded := u64 (_total_downloaded m - sizeOfChunk m chunk_number) |> in
    set_state m chunk_number CHUNK_OUTSTANDING.

(** Re-asking a slice at the end of the file: the chunk and slice found first. *)
Definition reAskPendingChunk (m : ChunkMap) (peer now : Z) : ChunkMap * option (Z * Z) :=
  if existsb (fun st => bool_decide (st = CHUNK_OUTSTANDING)) (_map m) then (m, None)
  else
    let old (x : Z * SliceRequestInfo) :=
      (request_time x.2 + FT_CHUNKMAP_MAX_SLICE_REASK_DELAY <? now) && bool_decide (peer ∉ sr_peers x.2) in
    match head (filter (fun y => old y.2)
             (x ← in_order (_slices_to_download m); (fun s => (x, s)) <$> in_order (_slices x.2))) with
    | None => (m, None)
    | Some ((c, info), (off, sl)) =>
        let sl' := sl <| request_time := now |> <| sr_peers := {[peer]} ∪ sr_peers sl |> in
        (m <| _slices_to_download :=
                <[c := info <| _slices := <[off := sl']> (_slices info) |>]> (_slices_to_download m) |>,
         Some (off, sr_size sl))
    end.

(** ** Sources *)

(** Gives the record of the peer, made on first use. *)
Definition getSourceChunksInfo (m : ChunkMap) (peer : Z) : ChunkMap * SourceChunksInfo :=
  match _peers_chunks_availability m !! peer with
  | Some i => (m, i)
  | None =>
      let fill := if _assume_availability m then 2 ^ 32 - 1 else 0 in
      let i := mk_SourceChunksInfo
                 (replicate (Z.to_nat (getCompressedSize (nb_chunks m))) fill) 0 (_assume_availability m) in
      (m <| _peers_chunks_availability := <[peer := i]> (_peers_chunks_availability m) |>, i)
  end.

Definition has_chunk (i : SourceChunksInfo) (c : Z) : option bool :=
  if is_full i then Some true else cmap_get (sc_cmap i) c.

Definition hasData (i : SourceChunksInfo) (offset fixed_chunk_size : Z) : option bool :=
  has_chunk i (u32 (offset / fixed_chunk_size)).

Definition setPeerAvailabilityMap (m : ChunkMap) (peer : Z) (cmap : CompressedChunkMap) (now : Z) : option ChunkMap :=
  let n := nb_chunks m in
  if negb (Z.of_nat (length cmap) =? n / 32 + (if n mod 32 =? 0 then 0 else 1)) then Some m
  else
    full ← foldr (fun i acc => have ← cmap_get cmap (Z.of_nat i);
                                if (have : bool) then acc else Some false)
             (Some true) (seq 0 (length (_map m)));
    Some (m <| _peers_chunks_availability :=
                 <[peer := mk_SourceChunksInfo cmap now full]> (_peers_chunks_availability m) |>).

Definition removeFileSource (m : ChunkMap) (peer : Z) : ChunkMap :=
  m <| _peers_chunks_availability := delete peer (_peers_chunks_availability m) |>.

Definition getSourcesList (m : ChunkMap) (chunk_number : Z) : option (list Z) :=
  foldr (fun x acc => l ← acc; have ← cmap_get (sc_cmap x.2) chunk_number;
                      Some (if (have : bool) then x.1 :: l else l))
    (Some []) (in_order (_peers_chunks_availability m)).

Definition setStrategy (m : ChunkMap) (s : ChunkStrategy) : ChunkMap := m <| _strategy := s |>.

(** ** Choosing a chunk *)

(** Outstanding chunks this source has: how many, and how many before the last chunk
    that is not outstanding. *)
Definition count_available (m : ChunkMap) (i : SourceChunksInfo) : option (Z * Z) :=
  foldl (fun acc x => '(avail, before) ← acc : option (Z * Z);
    if decide (x.2 = CHUNK_OUTSTANDING) then
      have ← has_chunk i (Z.of_nat x.1); Some (if (have : bool) then avail + 1 else avail, before)
    else Some (avail, avail)) (Some (0, 0)) (imap pair (_map m)).

(** The [j]-th of them; [_map.size()] when there is none. *)
Fixpoint nth_available (l : list (nat * ChunkState)) (i : SourceChunksInfo) (j total : Z) : option Z :=
  match l with
  | [] => Some total
  | x :: l =>
      if decide (x.2 = CHUNK_OUTSTANDING) then
        have ← has_chunk i (Z.of_nat x.1);
        if (have : bool) then if j =? 0 then Some (Z.of_nat x.1) else nth_available l i (j - 1) total
        else nth_available l i j total
      else nth_available l i j total
  end.

(** The map, the chunk, and whether a new availability map should be asked for. *)
Definition getAvailableChunk (m : ChunkMap) (peer now rand : Z) : option (ChunkMap * Z * bool) :=
  let '(m, i) := getSourceChunksInfo m peer in
  let map_is_too_old :=
    negb (is_full i) && (SOURCE_CHUNK_MAP_UPDATE_PERIOD <? sint32 now - sint32 (sc_TS i)) in
  let i := if map_is_too_old then i <| sc_TS := now |> else i in
  let m := m <| _peers_chunks_availability := <[peer := i]> (_peers_chunks_availability m) |> in
  '(available_chunks, before) ← count_available m i : option (Z * Z);
  if 0 <? available_chunks then
    let chosen :=
      match _strategy m with
      | CHUNK_STRATEGY_STREAMING => 0
      | CHUNK_STRATEGY_RANDOM => rand mod available_chunks
      | CHUNK_STRATEGY_PROGRESSIVE =>
          rand mod Z.min available_chunks (u32 (before + FT_CHUNKMAP_MAX_CHUNK_JUMP))
      end in
    c ← nth_available (imap pair (_map m)) i chosen (nb_chunks m);
    Some (m, c, map_is_too_old)
  else Some (m, nb_chunks m, map_is_too_old).

(** [size*0.7 <= (float)size_hint], in [double]. *)
Definition slow_enough (size size_hint : Z) : bool :=
  float_le (f64_mul (f64_of_Z size) (f64_div (f64_of_Z 7) (f64_of_Z 10))) (f64_of_f32 (f32_of_Z size_hint)).

(** [_slices_to_download[c]] makes the entry when there is none. *)
Definition info_at (m : ChunkMap) (c : Z) : ChunkDownloadInfo :=
  default (mk_ChunkDownloadInfo ∅ 0 0) (_slices_to_download m !! c).

Definition set_info (m : ChunkMap) (c : Z) (i : ChunkDownloadInfo) : ChunkMap :=
  m <| _slices_to_download := <[c := i]> (_slices_to_download m) |>.

(** Looking into the chunks of other peers; gives the peer to share with and the one to fall back to. *)
Fixpoint share_loop (feed : list (Z * Chunk)) (m : ChunkMap) (sci : SourceChunksInfo) (size_hint : Z)
    (failsafe : option Z) : option (ChunkMap * option Z * option Z) :=
  match feed with
  | [] => Some (m, None, failsafe)
  | (pit, ch) :: feed =>
      let c := u32 (_start ch / _chunk_size m) in
      have ← has_chunk sci c;
      if negb have then share_loop feed m sci size_hint failsafe
      else
        let m := set_info m c (info_at m c) in
        match last (in_order (_slices (info_at m c))) with
        | Some (_, sl) =>
            if slow_enough (sr_size sl) size_hint then Some (m, Some pit, Some pit)
            else share_loop feed m sci size_hint (Some pit)
        | None => share_loop feed m sci size_hint (Some pit)
        end
  end.

(** Which entry of [_active_chunks_feed] to cut from: [None] when there is nothing to ask. *)
Definition find_chunk (m : ChunkMap) (peer size_hint now rand : Z) (needed : bool)
    : option (ChunkMap * option Z * bool) :=
  match _active_chunks_feed m !! peer with
  | Some _ => Some (m, Some peer, needed)
  | None =>
      let '(m, sci) := getSourceChunksInfo m peer in
      '(m, it, failsafe) ← share_loop (in_order (_active_chunks_feed m)) m sci size_hint None
        : option (ChunkMap * option Z * option Z);
      match it with
      | Some it => Some (m, Some it, needed)
      | None =>
          '(m, c, needed) ← getAvailableChunk m peer now rand : option (ChunkMap * Z * bool);
          if nb_chunks m <=? c then Some (m, failsafe, needed)
          else
            let soc := sizeOfChunk m c in
            let m := m <| _active_chunks_feed :=
                            <[peer := new_Chunk (c * _chunk_size m) soc]> (_active_chunks_feed m) |> in
            m ← set_state m c CHUNK_ACTIVE;
            Some (set_info m c ((info_at m c) <| _remains := soc |>), Some peer, needed)
      end
  end.

(** The result, the slice and [source_chunk_map_needed], which is left alone when a chunk is
    found without [getAvailableChunk]. *)
Definition getDataChunk (m : ChunkMap) (peer size_hint now rand : Z) (needed : bool)
    : option (ChunkMap * option ftChunk * bool) :=
  '(m, it, needed) ← find_chunk m peer size_hint now rand needed : option (ChunkMap * option Z * bool);
  match it with
  | None => Some (m, None, needed)
  | Some it =>
      ch ← _active_chunks_feed m !! it;
      let '(ch, chunk) := getSlice ch size_hint now in
      let m := m <| _active_chunks_feed := <[it := ch]> (_active_chunks_feed m) |> in
      let c := u32 (fc_offset chunk / _chunk_size m) in
      let m := set_info m c ((info_at m c) <| _last_data_received := now |>) in
      let peers := match _slices (info_at m c) !! fc_id chunk with Some r => sr_peers r | None => ∅ end in
      let r := mk_SliceRequestInfo (fc_size chunk) now ({[peer]} ∪ peers) in
      let m := set_info m c ((info_at m c) <| _slices := <[fc_id chunk := r]> (_slices (info_at m c)) |>) in
      let chunk := mk_ftChunk (fc_offset chunk) (fc_size chunk) (fc_id chunk) (fc_ts chunk) peer in
      let m := if chunk_empty ch
               then m <| _active_chunks_feed := delete it (_active_chunks_feed m) |> else m in
      Some (m, Some chunk, needed)
  end.

(** ** Giving up and checking *)

(** Drops the chunks without data for an hour; gives the offsets of their slices. *)
Definition remove_one (acc : option (ChunkMap * list Z)) (now : Z) (x : Z * ChunkDownloadInfo)
    : option (ChunkMap * list Z) :=
  '(m, to_remove) ← acc : option (ChunkMap * list Z);
  if INACTIVE_CHUNK_TIME_LAPSE <? now - _last_data_received x.2 then
    m ← set_state m x.1 CHUNK_OUTSTANDING;
    let m := m <| _total_downloaded := u64 (_total_downloaded m - u32 (sizeOfChunk m x.1 - _remains x.2)) |>
               <| _active_chunks_feed :=
                    filter (fun y => _start y.2 <> u64 (_chunk_size m * x.1)) (_active_chunks_feed m) |>
               <| _slices_to_download := delete x.1 (_slices_to_download m) |> in
    Some (m, to_remove ++ (fst <$> in_order (_slices x.2)))
  else Some (m, to_remove).

Definition removeInactiveChunks (m : ChunkMap) (now : Z) : option (ChunkMap * list Z) :=
  foldl (fun acc x => remove_one acc now x) (Some (m, [])) (in_order (_slices_to_download m)).

Definition hasChunkState (m : ChunkMap) (offset chunk_size : Z) (state : ChunkState) : option bool :=
  let first := u32 (offset / _chunk_size m) in
  let e := u64 (offset + chunk_size) in
  let last := u32 (e / _chunk_size m) in
  let last := if e mod _chunk_size m =? 0 then last else u32 (last + 1) in
  foldr (fun i acc => st ← state_at m (first + Z.of_nat i);
                      if decide (st = state) then acc else Some false)
    (Some true) (seq 0 (Z.to_nat (last - first))).

Definition isChunkAvailable (m : ChunkMap) (offset chunk_size : Z) : option bool :=
  hasChunkState m offset chunk_size CHUNK_DONE.

Definition isChunkOutstanding (m : ChunkMap) (offset chunk_size : Z) : option bool :=
  hasChunkState m offset chunk_size CHUNK_OUTSTANDING.

Definition getAvailabilityMap (m : ChunkMap) : option CompressedChunkMap := cmap_of (_map m).

Definition forceCheck (m : ChunkMap) : option ChunkMap :=
  updateTotalDownloaded
    (m <| _map := replicate (length (_map m)) CHUNK_CHECKING |>
       <| _chunks_checking_queue := _chunks_checking_queue m ++ (Z.of_nat <$> seq 0 (length (_map m))) |>).

Definition getNumberOfChunks (size : Z) : Z :=
  let n := size / CHUNKMAP_FIXED_CHUNK_SIZE in
  let n := if size mod CHUNKMAP_FIXED_CHUNK_SIZE =? 0 then n else n + 1 in
  let value := Z.land n 0xffffffff in
  if value =? n then value else 0.

Definition buildPlainMap (size : Z) : CompressedChunkMap := cmap_plain (getNumberOfChunks size) (2 ^ 32 - 1).

Record FileChunksInfo := mk_FileChunksInfo {
  fi_file_size : Z; fi_chunk_size : Z; fi_strategy : ChunkStrategy; fi_chunks : list ChunkState;
  fi_active_chunks : list (Z * Z); fi_maps : gmap Z CompressedChunkMap
}.

Definition getChunksInfo (m : ChunkMap) : FileChunksInfo :=
  mk_FileChunksInfo (_file_size m) (_chunk_size m) (_strategy m) (_map m)
    ((fun x => (x.1, _remains x.2)) <$> in_order (_slices_to_download m))
    (sc_cmap <$> _peers_chunks_availability m).
