(* ===== verification/ChunkMapProps.v ===== *)
(** * Properties of the chunk map

    The invariant of a download: the pending slices of a chunk are disjoint, nothing is handed
    out twice, and the byte count is exact. *)

From S2P Require Import Prelude ChunkMap.
From Stdlib Require Import ZArith Lia SpecFloat.
From stdpp Require Import base list gmap sorting.
Open Scope Z_scope.

(** ** Sums *)

Lemma msum_empty {A} (f : Z -> A -> Z) : msum f ∅ = 0.
Proof. unfold msum. by rewrite map_to_list_empty. Qed.

Lemma msum_insert {A} (f : Z -> A -> Z) m k v : m !! k = None -> msum f (<[k := v]> m) = f k v + msum f m.
Proof. intros H. unfold msum. by rewrite (map_to_list_insert m k v H). Qed.

Lemma msum_delete {A} (f : Z -> A -> Z) m k v : m !! k = Some v -> msum f (delete k m) = msum f m - f k v.
Proof.
  intros H. rewrite <- (insert_delete_id m k v H) at 2.
  rewrite msum_insert by (by rewrite lookup_delete_eq). lia.
Qed.

Lemma msum_nonneg {A} (f : Z -> A -> Z) m : (forall k v, m !! k = Some v -> 0 <= f k v) -> 0 <= msum f m.
Proof.
  intros H. apply sum_with_nonneg. intros [k v] Hin. apply elem_of_map_to_list in Hin. cbn. auto.
Qed.

Lemma sum_with_split {A} (f g h : A -> Z) l :
  (forall i, i ∈ l -> f i + g i = h i) -> sum_with f l + sum_with g l = sum_with h l.
Proof.
  induction l as [|i l IH]; intros Hi; [done|]. rewrite !sum_with_cons.
  rewrite <- (Hi i) by (by left). rewrite <- IH by (intros; apply Hi; by right). lia.
Qed.

(** Sums over the chunk numbers. *)
Definition nsum (f : Z -> Z) (n : nat) : Z := sum_with (fun i => f (Z.of_nat i)) (seq 0 n).

Lemma nsum_S f n : nsum f (S n) = nsum f n + f (Z.of_nat n).
Proof. unfold nsum. rewrite seq_S, sum_with_app. cbn. lia. Qed.

Lemma nsum_ext f g n : (forall i, 0 <= i < Z.of_nat n -> f i = g i) -> nsum f n = nsum g n.
Proof. intros H. induction n as [|n IH]; [done|]. rewrite !nsum_S, IH, H by (intros; try apply H; lia). done. Qed.

Lemma nsum_le f g n : (forall i, 0 <= i < Z.of_nat n -> f i <= g i) -> nsum f n <= nsum g n.
Proof.
  intros H. induction n as [|n IH]; [done|]. rewrite !nsum_S. specialize (IH ltac:(intros; apply H; lia)).
  specialize (H (Z.of_nat n) ltac:(lia)). lia.
Qed.

(** Changing one term. *)
Lemma nsum_update f g n k :
  0 <= k < Z.of_nat n -> (forall i, 0 <= i < Z.of_nat n -> i <> k -> g i = f i) ->
  nsum g n = nsum f n - f k + g k.
Proof.
  intros Hk H. induction n as [|n IH]; [lia|]. rewrite !nsum_S.
  destruct (decide (k = Z.of_nat n)) as [->|Hne].
  - rewrite (nsum_ext g f n) by (intros; apply H; lia). lia.
  - rewrite IH, (H (Z.of_nat n)) by (intros; try apply H; lia). lia.
Qed.

Lemma nsum_zero n : nsum (fun _ => 0) n = 0.
Proof. induction n as [|n IH]; [done|]. by rewrite nsum_S, IH. Qed.

Lemma nsum_nonneg f n : (forall i, 0 <= i < Z.of_nat n -> 0 <= f i) -> 0 <= nsum f n.
Proof. intros H. transitivity (nsum (fun _ => 0) n); [by rewrite nsum_zero|]. by apply nsum_le. Qed.

Lemma nsum_mono f k n : (k <= n)%nat -> (forall i, 0 <= i < Z.of_nat n -> 0 <= f i) -> nsum f k <= nsum f n.
Proof.
  intros Hk. induction Hk as [|n Hk IH]; intros Hf; [done|]. rewrite nsum_S.
  specialize (IH ltac:(intros; apply Hf; lia)). specialize (Hf (Z.of_nat n) ltac:(lia)). lia.
Qed.

(** A sum over a map with keys below [n]. *)
Lemma msum_nsum {A} (f : Z -> A -> Z) n (m : gmap Z A) :
  (forall k v, m !! k = Some v -> 0 <= k < Z.of_nat n) ->
  msum f m = nsum (fun i => match m !! i with Some v => f i v | None => 0 end) n.
Proof.
  induction m as [|k v m Hm IH] using map_ind; intros Hk.
  - rewrite msum_empty. transitivity (nsum (fun _ => 0) n); [by rewrite nsum_zero|].
    apply nsum_ext. intros i _. by rewrite lookup_empty.
  - assert (Hk' : forall k' v', m !! k' = Some v' -> 0 <= k' < Z.of_nat n).
    { intros k' v' H. apply (Hk k' v'). rewrite lookup_insert_ne; [done|]. intros ->. congruence. }
    rewrite msum_insert, (IH Hk') by done.
    rewrite (nsum_update (fun i => match m !! i with Some v => f i v | None => 0 end)
               (fun i => match <[k := v]> m !! i with Some v => f i v | None => 0 end) n k).
    + rewrite Hm, lookup_insert_eq. lia.
    + apply (Hk k v). apply lookup_insert_eq.
    + intros i _ Hi. by rewrite lookup_insert_ne.
Qed.

Lemma sum_in_order {A} (f : Z -> A -> Z) (m : gmap Z A) : sum_with (fun x => f x.1 x.2) (in_order m) = msum f m.
Proof. unfold msum, in_order. by rewrite merge_sort_Permutation. Qed.

(** ** Geometry *)

Abbreviation cs := CHUNKMAP_FIXED_CHUNK_SIZE.

(** The length of a chunk, mathematically. *)
Definition chunk_len (m : ChunkMap) (i : Z) : Z :=
  if i =? nb_chunks m - 1 then _file_size m - i * cs else cs.

Record shape_ok (m : ChunkMap) : Prop := {
  sh_cs : _chunk_size m = cs;
  sh_size : 0 <= _file_size m < 2 ^ 51;
  sh_nb : nb_chunks m = (_file_size m + (cs - 1)) / cs
}.

Lemma shape_bounds m : shape_ok m ->
  0 <= nb_chunks m <= 2 ^ 31 /\ _file_size m <= nb_chunks m * cs /\
  (0 < nb_chunks m -> (nb_chunks m - 1) * cs < _file_size m).
Proof.
  intros [_ Hs Hn]. unfold cs in *. change (1024 * 1024) with 1048576 in *.
  pose proof (Z.div_mod (_file_size m + (1048576 - 1)) 1048576 ltac:(lia)).
  pose proof (Z.mod_pos_bound (_file_size m + (1048576 - 1)) 1048576 ltac:(lia)). lia.
Qed.

Lemma chunk_len_range m i : shape_ok m -> 0 <= i < nb_chunks m -> 0 < chunk_len m i <= cs.
Proof.
  intros Hs Hi. destruct (shape_bounds m Hs) as (_ & H1 & H2). unfold chunk_len, cs in *.
  change (1024 * 1024) with 1048576 in *. destruct (Z.eqb_spec i (nb_chunks m - 1)); lia.
Qed.

(** The 32-bit product wraps for files above 4 GB, and the result is right all the same. *)
Lemma sizeOfChunk_eq m i : shape_ok m -> 0 <= i < nb_chunks m -> sizeOfChunk m i = chunk_len m i.
Proof.
  intros Hs Hi. pose proof (chunk_len_range m i Hs Hi) as Hl. unfold sizeOfChunk, chunk_len in *.
  rewrite (sh_cs _ Hs). destruct (Z.eqb_spec i (nb_chunks m - 1)); [|done].
  rewrite wrap_sub_r, wrap_small; [done|]. unfold cs in *. change (1024 * 1024) with 1048576 in *. split; lia.
Qed.

Lemma sizeOfChunk_frame m m' i : shape_ok m -> nb_chunks m' = nb_chunks m -> _file_size m' = _file_size m ->
  _chunk_size m' = _chunk_size m -> 0 <= i < nb_chunks m -> sizeOfChunk m' i = chunk_len m i.
Proof.
  intros Hs E1 E2 E3 Hi. rewrite <- sizeOfChunk_eq by done. unfold sizeOfChunk. by rewrite E1, E2, E3.
Qed.

Lemma chunk_lens_sum m : shape_ok m -> nsum (chunk_len m) (length (_map m)) = _file_size m.
Proof.
  intros Hs. destruct (shape_bounds m Hs) as (_ & H1 & H2). unfold chunk_len. unfold nb_chunks in *.
  destruct (length (_map m)) as [|n] eqn:E.
  - destruct Hs as [_ Hs _]. cbn. lia.
  - rewrite nsum_S. replace (Z.of_nat n =? Z.of_nat (S n) - 1) with true by (symmetry; apply Z.eqb_eq; lia).
    rewrite (nsum_ext _ (fun _ => cs)).
    + assert (G : forall k, nsum (fun _ => cs) k = Z.of_nat k * cs).
      { intros k. induction k as [|k IH]; [done|]. rewrite nsum_S, IH. lia. }
      rewrite G. lia.
    + intros i Hi. destruct (Z.eqb_spec i (Z.of_nat (S n) - 1)); [lia|done].
Qed.

(** ** The invariant *)

(** Pending slices: inside [lo, lim), not empty, disjoint. *)
Record slices_ok (lo lim : Z) (sl : gmap Z SliceRequestInfo) : Prop := {
  sl_in : forall k r, sl !! k = Some r -> lo <= k /\ 0 < sr_size r /\ k + sr_size r <= lim;
  sl_disjoint : forall k1 k2 r1 r2, sl !! k1 = Some r1 -> sl !! k2 = Some r2 -> k1 < k2 -> k1 + sr_size r1 <= k2
}.

Definition pending (sl : gmap Z SliceRequestInfo) : Z := msum (fun _ r => sr_size r) sl.

(** [lim] is how far chunk [n] has been handed out: the offset of the peer it feeds, or its end. *)
Definition feed_limit (m : ChunkMap) (n lim : Z) : Prop :=
  lim <= n * cs + chunk_len m n /\
  (forall p ch, _active_chunks_feed m !! p = Some ch -> _start ch = n * cs -> _offset ch = lim) /\
  (lim < n * cs + chunk_len m n -> exists p ch, _active_chunks_feed m !! p = Some ch /\ _start ch = n * cs).

Record active_ok (m : ChunkMap) (n lim : Z) (info : ChunkDownloadInfo) : Prop := {
  ac_limit : feed_limit m n lim;
  ac_slices : slices_ok (n * cs) lim (_slices info);
  ac_remains : _remains info = pending (_slices info) + (n * cs + chunk_len m n - lim);
  ac_left : 0 < _remains info <= chunk_len m n
}.

Record feed_ok (m : ChunkMap) (ch : Chunk) (n : Z) : Prop := {
  fd_n : 0 <= n < nb_chunks m;
  fd_start : _start ch = n * cs;
  fd_end : _end ch = n * cs + chunk_len m n;
  fd_offset : _start ch <= _offset ch < _end ch;
  fd_active : _slices_to_download m !! n <> None
}.

(** What a chunk counts for in the total. *)
Definition contribution (m : ChunkMap) (i : Z) : Z :=
  match state_at m i with
  | Some (CHUNK_DONE | CHUNK_CHECKING) => chunk_len m i
  | Some CHUNK_ACTIVE =>
      match _slices_to_download m !! i with Some info => chunk_len m i - _remains info | None => 0 end
  | _ => 0
  end.

Definition received (m : ChunkMap) : Z := nsum (contribution m) (length (_map m)).

Record cm_core (m : ChunkMap) : Prop := {
  cm_shape : shape_ok m;
  cm_states : forall i, state_at m i = Some CHUNK_ACTIVE <-> _slices_to_download m !! i <> None;
  cm_active : forall n info, _slices_to_download m !! n = Some info -> exists lim, active_ok m n lim info;
  cm_feed : forall p ch, _active_chunks_feed m !! p = Some ch -> exists n, feed_ok m ch n;
  cm_feed_once : forall p1 p2 c1 c2, _active_chunks_feed m !! p1 = Some c1 -> _active_chunks_feed m !! p2 = Some c2 ->
    _start c1 = _start c2 -> p1 = p2;
  cm_sources : forall p i, _peers_chunks_availability m !! p = Some i ->
    Z.of_nat (length (sc_cmap i)) = getCompressedSize (nb_chunks m);
  cm_queue : Forall (fun i => 0 <= i < nb_chunks m) (_chunks_checking_queue m)
}.

Record cm_ok (m : ChunkMap) : Prop := {
  cm_is_core : cm_core m;
  cm_total : _total_downloaded m = received m;
  cm_complete : _file_is_complete m = true -> forall i, 0 <= i < nb_chunks m -> state_at m i = Some CHUNK_DONE
}.

Lemma state_at_range m i st : state_at m i = Some st -> 0 <= i < nb_chunks m.
Proof.
  unfold state_at, nb_chunks. destruct (Z.ltb_spec i 0); [done|]. intros Hst. apply lookup_lt_Some in Hst. lia.
Qed.

Lemma state_at_some m i : 0 <= i < nb_chunks m -> exists st, state_at m i = Some st.
Proof.
  intros Hi. unfold state_at, nb_chunks in *. destruct (Z.ltb_spec i 0); [lia|].
  apply lookup_lt_is_Some_2. lia.
Qed.

Lemma active_range m n : cm_core m -> _slices_to_download m !! n <> None -> 0 <= n < nb_chunks m.
Proof. intros Hm Hn. apply (cm_states _ Hm) in Hn. by eapply state_at_range. Qed.

Lemma set_state_spec m i st : 0 <= i < nb_chunks m ->
  exists m', set_state m i st = Some m' /\ m' = m <| _map := <[Z.to_nat i := st]> (_map m) |> /\
    nb_chunks m' = nb_chunks m /\ forall j, state_at m' j = if decide (j = i) then Some st else state_at m j.
Proof.
  intros Hi. destruct (state_at_some m i Hi) as [st0 E]. unfold set_state. rewrite E. cbn [mbind option_bind].
  eexists. split; [reflexivity|]. split; [done|]. unfold nb_chunks, state_at in *. cbn [_map upd].
  split; [by rewrite length_insert|]. intros j. destruct (Z.ltb_spec j 0).
  - rewrite decide_False by lia. done.
  - destruct (decide (j = i)) as [->|Hne]; [by rewrite list_lookup_insert_eq by lia|].
    by rewrite list_lookup_insert_ne by lia.
Qed.

(** Chunks being downloaded are marked so and miss at most their length. *)
Definition active_states_ok (m : ChunkMap) : Prop :=
  forall n info, _slices_to_download m !! n = Some info ->
    state_at m n = Some CHUNK_ACTIVE /\ 0 <= _remains info <= chunk_len m n.

Lemma contribution_range m i :
  shape_ok m -> active_states_ok m -> 0 <= i < nb_chunks m -> 0 <= contribution m i <= chunk_len m i.
Proof.
  intros Hs Ha Hi. pose proof (chunk_len_range m i Hs Hi) as Hl. unfold contribution.
  destruct (state_at m i) as [[]|]; try lia.
  destruct (_slices_to_download m !! i) as [info|] eqn:E; [|lia]. destruct (Ha _ _ E). lia.
Qed.

(** Never more than the file. *)
Lemma received_range m : shape_ok m -> active_states_ok m -> 0 <= received m <= _file_size m.
Proof.
  intros Hs Ha. rewrite <- (chunk_lens_sum m Hs). unfold received. split.
  - transitivity (nsum (fun _ => 0) (length (_map m))); [by rewrite nsum_zero|].
    apply nsum_le. intros i Hi. by apply contribution_range.
  - apply nsum_le. intros i Hi. by apply contribution_range.
Qed.

Lemma cm_active_states m : cm_core m -> active_states_ok m.
Proof.
  intros Hm n info E. split; [apply (cm_states _ Hm); congruence|].
  destruct (cm_active _ Hm n info E) as [lim [_ _ _ Hrem]]. lia.
Qed.

(** *** Recomputing the total *)

Lemma imap_states m : (forall i, (i < length (_map m))%nat -> exists st, state_at m (Z.of_nat i) = Some st).
Proof. intros i Hi. apply state_at_some. unfold nb_chunks. lia. Qed.

Definition first_pass (m : ChunkMap) (n : nat) : Z :=
  nsum (fun i => match state_at m i with Some (CHUNK_DONE | CHUNK_CHECKING) => chunk_len m i | _ => 0 end) n.

Definition all_done (m : ChunkMap) (n : nat) : bool :=
  forallb (fun i => bool_decide (state_at m (Z.of_nat i) = Some CHUNK_DONE)) (seq 0 n).

Lemma updateTotalDownloaded_spec m :
  shape_ok m -> active_states_ok m ->
  updateTotalDownloaded m =
    Some (m <| _total_downloaded := received m |> <| _file_is_complete := all_done m (length (_map m)) |>).
Proof.
  intros Hs Hact. unfold updateTotalDownloaded. cbv zeta.
  match goal with |- context [foldl ?f (Some ?m0) (seq 0 _)] => set (step := f); set (m0' := m0) end.
  assert (P1 : forall n, (n <= length (_map m))%nat -> foldl step (Some m0') (seq 0 n) =
     Some (m <| _total_downloaded := u64 (first_pass m n) |> <| _file_is_complete := all_done m n |>)).
  { induction n as [|n IH]; intros Hn; [done|]. rewrite seq_S, foldl_app, IH by lia. cbn [foldl Nat.add].
    destruct (imap_states m n ltac:(lia)) as [st Est]. unfold step at 1. cbn [mbind option_bind].
    change (state_at (m <| _total_downloaded := u64 (first_pass m n) |> <| _file_is_complete := all_done m n |>) (Z.of_nat n))
      with (state_at m (Z.of_nat n)). rewrite Est. cbn [option_bind].
    assert (Ea : all_done m (S n) = all_done m n && bool_decide (st = CHUNK_DONE)).
    { unfold all_done. rewrite seq_S, forallb_app. cbn [forallb Nat.add]. rewrite Est, andb_true_r. f_equal.
      apply bool_decide_ext. split; [by intros [= ->]|by intros ->]. }
    unfold first_pass. rewrite nsum_S, Est, Ea. fold (first_pass m n).
    assert (Esz : forall m', _map m' = _map m -> _file_size m' = _file_size m -> _chunk_size m' = _chunk_size m ->
              sizeOfChunk m' (Z.of_nat n) = chunk_len m (Z.of_nat n)).
    { intros m' E1 E2 E3. rewrite <- sizeOfChunk_eq by (done || (unfold nb_chunks; lia)).
      unfold sizeOfChunk, nb_chunks. by rewrite E1, E2, E3. }
    destruct st; cbn [mbind option_bind];
      rewrite ?bool_decide_true, ?bool_decide_false, ?andb_true_r, ?andb_false_r, ?Z.add_0_r by done;
      [reflexivity|reflexivity| |]; rewrite Esz by done;
      cbn [_total_downloaded upd]; rewrite wrap_add_l; reflexivity. }
  change (_map m0') with (_map m). rewrite (P1 (length (_map m)) ltac:(lia)). cbn [mbind option_bind].
  match goal with |- foldl ?f (Some ?m1) _ = _ => set (step2 := f); set (m1' := m1) end.
  assert (P2 : forall l t, (forall x, x ∈ l -> _slices_to_download m !! x.1 = Some x.2) ->
     foldl step2 (Some (m1' <| _total_downloaded := u64 t |>)) l =
     Some (m1' <| _total_downloaded := u64 (t + sum_with (fun x => chunk_len m x.1 - _remains x.2) l) |>)).
  { induction l as [|x l IH]; intros t Hl; [by rewrite sum_with_nil, Z.add_0_r|].
    cbn [foldl]. destruct (Hact x.1 x.2 (Hl x ltac:(by left))) as [Est Hrem].
    unfold step2 at 2. cbn [mbind option_bind].
    change (state_at (m1' <| _total_downloaded := u64 t |>) x.1) with (state_at m x.1). rewrite Est.
    cbn [mbind option_bind]. rewrite decide_False by done.
    change (sizeOfChunk (m1' <| _total_downloaded := u64 t |>) x.1) with (sizeOfChunk m x.1).
    pose proof (state_at_range _ _ _ Est) as Hr. pose proof (chunk_len_range m x.1 Hs Hr) as Hl2.
    rewrite sizeOfChunk_eq by done. cbn [_total_downloaded upd].
    rewrite (wrap_small 32) by (unfold cs in *; change (1024 * 1024) with 1048576 in *; split; lia). rewrite wrap_add_l.
    etransitivity; [apply (IH (t + (chunk_len m x.1 - _remains x.2))); intros y Hy; apply Hl; by right|].
    by rewrite sum_with_cons, Z.add_assoc. }
  etransitivity; [apply (P2 (in_order (_slices_to_download m)) (first_pass m (length (_map m))));
                  intros x Hx; by apply elem_of_in_order|].
  rewrite (sum_in_order (fun n info => chunk_len m n - _remains info)).
  rewrite (msum_nsum _ (length (_map m))).
  2: { intros k v Hk. destruct (Hact k v Hk) as [Est _]. exact (state_at_range _ _ _ Est). }
  assert (Er : first_pass m (length (_map m)) + nsum (fun i => match _slices_to_download m !! i with
             Some v => chunk_len m i - _remains v | None => 0 end) (length (_map m)) = received m).
  { unfold first_pass, received, nsum.
    apply sum_with_split. intros i _. unfold contribution. destruct (_slices_to_download m !! Z.of_nat i) as [info|] eqn:E.
    - destruct (Hact _ _ E) as [-> _]. lia.
    - destruct (state_at m (Z.of_nat i)) as [[]|]; lia. }
  rewrite Er, wrap_small; [reflexivity|].
  pose proof (received_range m Hs Hact).
  destruct Hs as [_ Hs _]. split; lia.
Qed.

Lemma active_ok_frame m m' n lim info :
  active_ok m n lim info -> _file_size m' = _file_size m -> length (_map m') = length (_map m) ->
  _active_chunks_feed m' = _active_chunks_feed m -> active_ok m' n lim info.
Proof.
  intros [Hl Hs Hr Hc] E1 E2 E3. assert (El : chunk_len m' n = chunk_len m n) by (unfold chunk_len, nb_chunks; by rewrite E1, E2).
  split; rewrite ?El; try done. unfold feed_limit in *. by rewrite El, E3.
Qed.

Lemma shape_frame m m' : shape_ok m -> _file_size m' = _file_size m -> length (_map m') = length (_map m) ->
  _chunk_size m' = _chunk_size m -> shape_ok m'.
Proof. intros [] E1 E2 E3. split; unfold nb_chunks in *; rewrite ?E1, ?E2, ?E3; done. Qed.

(** The core only looks at the chunks, what is under way, the sources and the queue. *)
Lemma core_frame m m' : cm_core m ->
  _file_size m' = _file_size m -> _chunk_size m' = _chunk_size m -> _map m' = _map m ->
  _active_chunks_feed m' = _active_chunks_feed m -> _slices_to_download m' = _slices_to_download m ->
  (forall p i, _peers_chunks_availability m' !! p = Some i ->
     Z.of_nat (length (sc_cmap i)) = getCompressedSize (nb_chunks m)) ->
  Forall (fun i => 0 <= i < nb_chunks m) (_chunks_checking_queue m') -> cm_core m'.
Proof.
  intros [Hsh Hst Hac Hfe Hon _ _] E1 E2 E3 E4 E5 Hso Hqu.
  assert (En : nb_chunks m' = nb_chunks m) by (unfold nb_chunks; by rewrite E3).
  split.
  - eapply shape_frame; try done. by rewrite E3.
  - intros i. rewrite E5. unfold state_at. rewrite E3. apply Hst.
  - intros n info. rewrite E5. intros H. destruct (Hac n info H) as [lim Ha]. exists lim.
    eapply active_ok_frame; try done. by rewrite E3.
  - intros p ch. rewrite E4. intros H. destruct (Hfe p ch H) as [n []]. exists n.
    split; rewrite ?En, ?E5; try done. unfold chunk_len. by rewrite En, E1.
  - intros p1 p2 c1 c2. rewrite E4. apply Hon.
  - intros p i H. rewrite En. by eapply Hso.
  - by rewrite En.
Qed.

Lemma received_frame m m' :
  _file_size m' = _file_size m -> _map m' = _map m -> _slices_to_download m' = _slices_to_download m ->
  received m' = received m.
Proof.
  intros E1 E2 E3. unfold received. rewrite E2. apply nsum_ext. intros i _.
  unfold contribution, state_at, chunk_len, nb_chunks. by rewrite E1, E2, E3.
Qed.

Lemma all_done_spec m : all_done m (length (_map m)) = true ->
  forall i, 0 <= i < nb_chunks m -> state_at m i = Some CHUNK_DONE.
Proof.
  unfold all_done, nb_chunks. rewrite forallb_forall. intros H i Hi.
  specialize (H (Z.to_nat i) ltac:(apply in_seq; lia)). apply bool_decide_eq_true_1 in H.
  by rewrite Z2Nat.id in H by lia.
Qed.

Lemma updateTotal_ok m : cm_core m ->
  exists m', updateTotalDownloaded m = Some m' /\ cm_ok m' /\ received m' = received m /\
    m' = m <| _total_downloaded := received m |> <| _file_is_complete := all_done m (length (_map m)) |>.
Proof.
  intros Hc. rewrite updateTotalDownloaded_spec by (apply Hc || by apply cm_active_states).
  eexists. split; [reflexivity|]. split; [|by split]. split.
  - eapply core_frame; try done; apply Hc.
  - done.
  - cbn [_file_is_complete upd]. intros Hd. by apply all_done_spec.
Qed.

(** Whatever the map, recomputing changes the total and the completion flag only. *)
Lemma foldl_frame {A} (P : ChunkMap -> ChunkMap -> Prop) (f : option ChunkMap -> A -> option ChunkMap) :
  (forall m, P m m) -> (forall x y z, P x y -> P y z -> P x z) -> (forall x, f None x = None) ->
  (forall m x m', f (Some m) x = Some m' -> P m m') ->
  forall l m m', foldl f (Some m) l = Some m' -> P m m'.
Proof.
  intros Hr Ht Hn Hs. assert (Hnone : forall l, foldl f None l = None).
  { induction l as [|x l IH]; [done|]. cbn [foldl]. by rewrite Hn. }
  induction l as [|x l IH]; intros m m' E; cbn [foldl] in E; [by injection E as <-|].
  destruct (f (Some m) x) as [m1|] eqn:E1; [|by rewrite Hnone in E]. eapply Ht; [by eapply Hs|by apply IH].
Qed.

Definition total_frame (m m' : ChunkMap) : Prop :=
  exists t b, m' = m <| _total_downloaded := t |> <| _file_is_complete := b |>.

Lemma updateTotal_frame m m' : updateTotalDownloaded m = Some m' -> total_frame m m'.
Proof.
  assert (Hrefl : forall m, total_frame m m) by (intros m0; exists (_total_downloaded m0), (_file_is_complete m0); by destruct m0).
  assert (Htrans : forall x y z, total_frame x y -> total_frame y z -> total_frame x z)
    by (intros x y z (t & b & ->) (t' & b' & ->); by exists t', b').
  unfold updateTotalDownloaded. cbv zeta. destruct (foldl _ (Some (m <| _total_downloaded := 0 |> <| _file_is_complete := true |>)) _) as [m1|] eqn:E1; [|done].
  cbn [mbind option_bind]. intros E2.
  assert (H1 : total_frame (m <| _total_downloaded := 0 |> <| _file_is_complete := true |>) m1).
  { revert E1. apply (foldl_frame total_frame); [done|done|done|]. intros x i x' E. cbn [mbind option_bind] in E.
    exists (_total_downloaded x'), (_file_is_complete x').
    destruct (state_at x (Z.of_nat i)) as [[]|]; cbn in E; [..|done]; injection E as <-; by destruct x. }
  assert (H2 : total_frame m1 m').
  { revert E2. apply (foldl_frame total_frame); [done|done|done|]. intros x i x' E. cbn [mbind option_bind] in E.
    exists (_total_downloaded x'), (_file_is_complete x').
    destruct (state_at x i.1) as [st|]; cbn in E; [|done]. injection E as <-.
    destruct (decide (st = CHUNK_CHECKING)); by destruct x. }
  apply (Htrans _ m1); [|exact H2]. eapply Htrans; [|exact H1]. exists 0, true. done.
Qed.

(** ** Receiving a slice *)

Lemma slices_ok_delete lo lim sl k : slices_ok lo lim sl -> slices_ok lo lim (delete k sl).
Proof.
  intros [Hi Hd]. split.
  - intros k' r H. apply lookup_delete_Some in H as [_ H]. eauto.
  - intros k1 k2 r1 r2 H1 H2. apply lookup_delete_Some in H1 as [_ H1]. apply lookup_delete_Some in H2 as [_ H2]. eauto.
Qed.

Lemma pending_nonneg lo lim sl : slices_ok lo lim sl -> 0 <= pending sl.
Proof. intros [Hi _]. apply msum_nonneg. intros k r H. specialize (Hi k r H). lia. Qed.

(** Changing what is known of one active chunk. *)
Lemma core_set_info m k lim info info' :
  cm_core m -> _slices_to_download m !! k = Some info -> active_ok m k lim info' -> cm_core (set_info m k info').
Proof.
  intros [Hsh Hst Hac Hfe Hon Hso Hqu] Hk Ha'. unfold set_info. split.
  - by eapply shape_frame.
  - intros i. cbn [_slices_to_download upd]. change (state_at _ i) with (state_at m i). rewrite (Hst i).
    destruct (decide (i = k)) as [->|]; [by rewrite lookup_insert_eq, Hk|by rewrite lookup_insert_ne].
  - intros n i'. cbn [_slices_to_download upd]. destruct (decide (n = k)) as [->|].
    + rewrite lookup_insert_eq. intros [= <-]. exists lim. by eapply active_ok_frame.
    + rewrite lookup_insert_ne by done. intros H. destruct (Hac n i' H) as [lim' Ha]. exists lim'. by eapply active_ok_frame.
  - intros p ch H. destruct (Hfe p ch H) as [n [? ? ? ? Hn]]. exists n. split; try done.
    cbn [_slices_to_download upd]. destruct (decide (n = k)) as [->|]; [by rewrite lookup_insert_eq|by rewrite lookup_insert_ne].
  - exact Hon.
  - exact Hso.
  - exact Hqu.
Qed.

Lemma received_set_info m k info info' :
  cm_core m -> _slices_to_download m !! k = Some info ->
  received (set_info m k info') = received m + _remains info - _remains info'.
Proof.
  intros Hc Hk. pose proof (active_range m k Hc ltac:(congruence)) as Hr.
  assert (Hst : state_at m k = Some CHUNK_ACTIVE) by (apply Hc; congruence).
  unfold received. cbn [set_info _map upd].
  rewrite (nsum_update (contribution m) (contribution (set_info m k info')) (length (_map m)) k).
  - unfold contribution. change (state_at (set_info m k info') k) with (state_at m k). rewrite Hst, Hk.
    cbn [set_info _slices_to_download upd]. rewrite lookup_insert_eq.
    change (chunk_len (set_info m k info') k) with (chunk_len m k). lia.
  - exact Hr.
  - intros i _ Hi. unfold contribution. change (state_at (set_info m k info') i) with (state_at m i).
    cbn [set_info _slices_to_download upd]. by rewrite lookup_insert_ne.
Qed.

(** Taking a chunk out of the active ones. *)
Lemma core_drop m k info st :
  cm_core m -> _slices_to_download m !! k = Some info -> st <> CHUNK_ACTIVE ->
  (forall p ch, _active_chunks_feed m !! p = Some ch -> _start ch <> k * cs) ->
  cm_core (m <| _map := <[Z.to_nat k := st]> (_map m) |> <| _slices_to_download := delete k (_slices_to_download m) |>).
Proof.
  intros Hc Hk Hne Hnof. pose proof (active_range m k Hc ltac:(congruence)) as Hr.
  destruct (set_state_spec m k st Hr) as (m' & _ & Em & Hnb & Hst').
  destruct Hc as [Hsh Hst Hac Hfe Hon Hso Hqu].
  assert (Hlen : length (<[Z.to_nat k := st]> (_map m)) = length (_map m)) by apply length_insert.
  split.
  - by eapply shape_frame.
  - intros i. cbn [_slices_to_download upd].
    change (state_at _ i) with (state_at (m <| _map := <[Z.to_nat k := st]> (_map m) |>) i). rewrite <- Em, Hst'.
    destruct (decide (i = k)) as [->|]; [rewrite lookup_delete_eq; naive_solver|]. rewrite lookup_delete_ne by done. apply Hst.
  - intros n i' H. cbn [_slices_to_download upd] in H. apply lookup_delete_Some in H as [_ H].
    destruct (Hac n i' H) as [lim Ha]. exists lim. by eapply active_ok_frame.
  - intros p ch H. destruct (Hfe p ch H) as [n [H1 H2 H3 H4 H5]]. exists n.
    assert (n <> k) by (intros ->; by apply (Hnof p ch H)).
    split; try done; cbn [_slices_to_download upd]; [by unfold nb_chunks; cbn [_map upd]; rewrite Hlen| |by rewrite lookup_delete_ne].
    rewrite H3. unfold chunk_len, nb_chunks. cbn [_map _file_size upd]. by rewrite Hlen.
  - done.
  - intros p i H. cbn. unfold nb_chunks. cbn [_map upd]. rewrite Hlen. by eapply Hso.
  - unfold nb_chunks. cbn [_map _chunks_checking_queue upd]. by rewrite Hlen.
Qed.

Lemma chunk_key m cid : cm_core m -> _slices_to_download m !! u32 (sint32 (cid / _chunk_size m)) <> None ->
  u32 (sint32 (cid / _chunk_size m)) = sint32 (cid / _chunk_size m).
Proof.
  intros Hc Hk. pose proof (active_range m _ Hc Hk) as Hr. destruct (shape_bounds m (cm_shape _ Hc)) as (Hb & _).
  pose proof (sint32_range (cid / _chunk_size m)) as Hs. set (z := sint32 _) in *.
  destruct (decide (0 <= z)); [apply wrap_small; split; lia|].
  unfold wrap in Hr. rewrite <- (Z_mod_plus_full z 1), Z.mod_small in Hr by lia. lia.
Qed.

(** What one received slice changes. *)
Definition slice_of (m : ChunkMap) (n cid : Z) : option SliceRequestInfo :=
  info ← _slices_to_download m !! n; _slices info !! cid.

Lemma limit_end_no_feed m k lim info :
  cm_core m -> active_ok m k lim info -> _slices_to_download m !! k <> None -> lim = k * cs + chunk_len m k ->
  forall p ch, _active_chunks_feed m !! p = Some ch -> _start ch <> k * cs.
Proof.
  intros Hc [(_ & Hl & _) _ _ _] Hk -> p ch Hp Hs. specialize (Hl p ch Hp Hs).
  destruct (cm_feed _ Hc p ch Hp) as [n [Hn H1 H2 H3 _]]. assert (n = k) by (unfold cs in *; lia). subst n. lia.
Qed.

Lemma received_drop m k info st m' :
  cm_core m -> _slices_to_download m !! k = Some info -> _map m' = <[Z.to_nat k := st]> (_map m) ->
  _file_size m' = _file_size m -> _slices_to_download m' = delete k (_slices_to_download m) ->
  st <> CHUNK_ACTIVE ->
  received m' = received m + _remains info - (if decide (st = CHUNK_OUTSTANDING) then chunk_len m k else 0).
Proof.
  intros Hc Hk Em Ef Es Hst. pose proof (active_range m k Hc ltac:(congruence)) as Hr.
  assert (Ha : state_at m k = Some CHUNK_ACTIVE) by (apply Hc; congruence).
  destruct (set_state_spec m k st Hr) as (m1 & _ & Em1 & _ & Hst1).
  assert (Est : forall j, state_at m' j = if decide (j = k) then Some st else state_at m j).
  { intros j. rewrite <- Hst1, Em1. unfold state_at. by rewrite Em. }
  assert (El : forall j, chunk_len m' j = chunk_len m j).
  { intros j. unfold chunk_len, nb_chunks. by rewrite Em, Ef, length_insert. }
  unfold received. rewrite Em, length_insert, (nsum_update (contribution m) (contribution m') (length (_map m)) k).
  - unfold contribution. rewrite Est, El, Ha, Hk, decide_True by done.
    destruct st; [rewrite decide_True by done|done|rewrite decide_False by done|rewrite decide_False by done]; lia.
  - exact Hr.
  - intros i _ Hi. unfold contribution. rewrite Est, El, Es, decide_False, lookup_delete_ne by done. done.
Qed.

Lemma finish_chunk_spec m k : 0 <= k < nb_chunks m ->
  exists st q, finish_chunk m k = Some (m <| _map := <[Z.to_nat k := st]> (_map m) |> <| _chunks_checking_queue := q |>) /\
    (st = CHUNK_CHECKING \/ st = CHUNK_DONE) /\
    forall P : Z -> Prop, Forall P (_chunks_checking_queue m) -> P k -> Forall P q.
Proof.
  intros Hr. unfold finish_chunk. destruct (set_state_spec m k CHUNK_CHECKING Hr) as (m2 & E2 & Em2 & Hnb2 & _).
  rewrite E2. cbn [mbind option_bind]. destruct ((0 <? k) || _).
  - exists CHUNK_CHECKING, (_chunks_checking_queue m ++ [k]). rewrite Em2. split; [done|]. split; [by left|].
    intros P HP Hk. apply Forall_app. by split; [|constructor].
  - destruct (set_state_spec m2 k CHUNK_DONE ltac:(by rewrite Hnb2)) as (m3 & E3 & Em3 & _ & _).
    exists CHUNK_DONE, (_chunks_checking_queue m). rewrite E3, Em3, Em2. cbn [_map upd].
    rewrite list_insert_insert_eq. split; [by destruct m|]. split; [by right|done].
Qed.

Lemma dataReceived_ok m cid now :
  cm_ok m -> exists m', dataReceived m cid now = Some m' /\ cm_ok m' /\
    received m' = received m + match slice_of m (u32 (sint32 (cid / _chunk_size m))) cid with Some r => sr_size r | None => 0 end.
Proof.
  intros [Hc Ht Hcomp]. unfold dataReceived, slice_of. cbv zeta. set (k := u32 (sint32 (cid / _chunk_size m))).
  destruct (_slices_to_download m !! k) as [info|] eqn:Hk;
    [|exists m; split; [done|]; split; [by split|]; cbn; lia].
  cbn [mbind option_bind]. destruct (_slices info !! cid) as [sl|] eqn:Hsl;
    [|exists m; split; [done|]; split; [by split|]; cbn; lia].
  assert (Ek : sint32 (cid / _chunk_size m) = k) by (symmetry; apply chunk_key; [done|]; fold k; congruence).
  destruct (cm_active _ Hc k info Hk) as [lim Ha]. pose proof Ha as [Hlim Hsli Hrem Hleft].
  pose proof (active_range m k Hc ltac:(congruence)) as Hr.
  pose proof (chunk_len_range m k (cm_shape _ Hc) Hr) as Hlen.
  pose proof (shape_bounds m (cm_shape _ Hc)) as (Hnb & _ & _).
  assert (Hpd : pending (delete cid (_slices info)) = pending (_slices info) - sr_size sl) by (by apply msum_delete).
  pose proof (pending_nonneg _ _ _ (slices_ok_delete _ _ _ cid Hsli)) as Hpn.
  destruct (sl_in _ _ _ Hsli cid sl Hsl) as (_ & Hsz & _).
  assert (Hlimle : lim <= k * cs + chunk_len m k) by apply Hlim.
  assert (Hcs : cs < 2 ^ 32) by done.
  assert (Er : u32 (_remains info - sr_size sl) = _remains info - sr_size sl) by (apply wrap_small; split; lia).
  set (info' := (info <| _remains := u32 (_remains info - sr_size sl) |>
                      <| _slices := delete cid (_slices info) |>) <| _last_data_received := now |>).
  assert (Hrem' : _remains info' = _remains info - sr_size sl) by exact Er.
  pose proof (received_range m (cm_shape _ Hc) (cm_active_states _ Hc)) as Hrr.
  pose proof (sh_size _ (cm_shape _ Hc)) as Hfs.
  assert (Hrec : received (set_info m k info') = received m + sr_size sl)
    by (rewrite (received_set_info m k info) by done; lia).
  change (_remains (info <| _remains := u32 (_remains info - sr_size sl) |>
                      <| _slices := delete cid (_slices info) |> <| _last_data_received := now |>)) with (_remains info').
  rewrite Hrem'. destruct (Z.eqb_spec (_remains info - sr_size sl) 0) as [E0|E0].
  - (* the chunk is complete *)
    assert (Elim : lim = k * cs + chunk_len m k) by lia.
    pose proof (limit_end_no_feed m k lim info Hc Ha ltac:(congruence) Elim) as Hnof. rewrite Ek.
    match goal with |- context [finish_chunk ?m1 k] => set (m1' := m1) end.
    destruct (finish_chunk_spec m1' k Hr) as (st & q & -> & Hst & Hq). cbn [mbind option_bind].
    match goal with |- context [updateTotalDownloaded ?m2] => set (m2' := m2) end.
    assert (Hc2 : cm_core m2').
    { eapply core_frame; [apply (core_drop m k info st Hc Hk ltac:(destruct Hst as [->| ->]; done) Hnof)|..]; try done.
      - cbn [_slices_to_download upd m2' m1']. unfold m2', m1'. cbn [_slices_to_download upd]. by rewrite delete_insert_eq.
      - unfold nb_chunks. cbn [_map upd]. rewrite length_insert. intros p i H. by eapply (cm_sources _ Hc).
      - unfold nb_chunks. cbn [_map upd]. rewrite length_insert. apply Hq; [apply Hc|exact Hr]. }
    destruct (updateTotal_ok m2' Hc2) as (m3 & -> & Hok & Erec & _). exists m3. split; [done|]. split; [done|].
    rewrite Erec, (received_drop m k info st m2' Hc Hk); try done.
    + rewrite decide_False by (by destruct Hst as [->| ->]). lia.
    + unfold m2', m1'. cbn [_slices_to_download upd]. by rewrite delete_insert_eq.
    + by destruct Hst as [->| ->].
  - eexists. split; [reflexivity|]. change (cm_ok (set_info (m <| _total_downloaded := u64 (_total_downloaded m + sr_size sl) |>) k info') /\
      received (set_info m k info') = received m + sr_size sl). split; [|exact Hrec]. split.
    + apply core_frame with (set_info m k info'); try done; [|apply Hc|apply Hc].
      apply (core_set_info m k lim info info' Hc Hk). split.
      * exact Hlim.
      * by apply slices_ok_delete.
      * rewrite Hrem'. unfold info'. cbn [_slices upd]. lia.
      * lia.
    + change (u64 (_total_downloaded m + sr_size sl) = received (set_info m k info')). rewrite Hrec, Ht. apply wrap_small. split; [lia|].
      assert (received m + sr_size sl <= _file_size m); [|lia]. rewrite <- Hrec.
      apply (received_range (set_info m k info')); [by eapply shape_frame; [apply Hc|..]|].
      intros n i. cbn [set_info _slices_to_download upd]. destruct (decide (n = k)) as [->|Hne].
      * rewrite lookup_insert_eq. intros [= <-]. split; [apply Hc; congruence|]. change (chunk_len (set_info m k info') k) with (chunk_len m k). lia.
      * rewrite lookup_insert_ne by done. intros Hn. apply (cm_active_states _ Hc n i Hn).
    + intros Hcm i Hi. specialize (Hcomp Hcm k Hr). assert (state_at m k = Some CHUNK_ACTIVE) by (apply Hc; congruence). congruence.
Qed.

(** ** Checking *)

(** Changing the state of a chunk that is not being downloaded. *)
Lemma core_set_inactive m k st :
  cm_core m -> 0 <= k < nb_chunks m -> state_at m k <> Some CHUNK_ACTIVE -> st <> CHUNK_ACTIVE ->
  let m' := m <| _map := <[Z.to_nat k := st]> (_map m) |> in
  cm_core m' /\ received m' = received m - contribution m k
                + (if decide (st = CHUNK_OUTSTANDING) then 0 else chunk_len m k).
Proof.
  intros Hc Hr Hna Hst. cbv zeta. destruct (set_state_spec m k st Hr) as (m' & _ & Em & Hnb & Hs'). rewrite <- Em.
  assert (Hlen : length (_map m') = length (_map m)) by (rewrite Em; apply length_insert).
  assert (El : forall j, chunk_len m' j = chunk_len m j) by (intros j; unfold chunk_len; rewrite Hnb; by rewrite Em).
  assert (Hnk : _slices_to_download m !! k = None).
  { destruct (_slices_to_download m !! k) eqn:E; [|done]. exfalso. apply Hna, (cm_states _ Hc). congruence. }
  split.
  - destruct Hc as [Hsh Hst0 Hac Hfe Hon Hso Hqu]. split.
    + eapply shape_frame; try done; by rewrite Em.
    + intros i. rewrite Hs'. rewrite Em at 1. cbn [_slices_to_download upd].
      destruct (decide (i = k)) as [->|]; [rewrite Hnk; naive_solver|apply Hst0].
    + intros n i Hn. rewrite Em in Hn. destruct (Hac n i Hn) as [lim Ha]. exists lim.
      eapply active_ok_frame; try done; by rewrite Em.
    + intros p ch Hp. rewrite Em in Hp. destruct (Hfe p ch Hp) as [n []]. exists n.
      split; rewrite ?Hnb, ?El; try done. by rewrite Em.
    + rewrite Em. exact Hon.
    + rewrite Hnb, Em. exact Hso.
    + rewrite Hnb, Em. exact Hqu.
  - unfold received. rewrite Hlen, (nsum_update (contribution m) (contribution m') (length (_map m)) k).
    + f_equal. unfold contribution. rewrite Hs', El, decide_True by done. destruct st; done.
    + exact Hr.
    + intros i _ Hi. unfold contribution. rewrite Hs', El, decide_False by done. by rewrite Em.
Qed.

Lemma forallb_states m : forallb (fun st => bool_decide (st = CHUNK_DONE)) (_map m) = true ->
  forall i, 0 <= i < nb_chunks m -> state_at m i = Some CHUNK_DONE.
Proof.
  rewrite forallb_forall. intros H i Hi. destruct (state_at_some m i Hi) as [st E]. rewrite E.
  unfold state_at in E. destruct (i <? 0); [done|]. apply list_elem_of_lookup_2, list_elem_of_In in E.
  specialize (H _ E). by apply bool_decide_eq_true_1 in H as ->.
Qed.

Lemma setChunkCheckingResult_ok m k ok :
  cm_ok m -> 0 <= k < nb_chunks m ->
  exists m', setChunkCheckingResult m k ok = Some m' /\ cm_ok m' /\
    (state_at m k = Some CHUNK_CHECKING -> state_at m' k = Some (if ok then CHUNK_DONE else CHUNK_OUTSTANDING)).
Proof.
  intros [Hc Ht Hcomp] Hr. destruct (state_at_some m k Hr) as [st E]. unfold setChunkCheckingResult. rewrite E.
  cbn [mbind option_bind]. destruct (bool_decide_reflect (st = CHUNK_CHECKING)) as [->|Hne]; cbn [negb].
  2: { exists m. split; [done|]. split; [by split|]. intros [= ->]. done. }
  assert (Hna : state_at m k <> Some CHUNK_ACTIVE) by congruence.
  pose proof (received_range m (cm_shape _ Hc) (cm_active_states _ Hc)) as Hrr.
  assert (Hck : contribution m k = chunk_len m k) by (unfold contribution; by rewrite E).
  destruct ok.
  - destruct (set_state_spec m k CHUNK_DONE Hr) as (m' & -> & Em & Hnb & Hs'). cbn [mbind option_bind].
    destruct (core_set_inactive m k CHUNK_DONE Hc Hr Hna ltac:(done)) as [Hc' Hrec]. rewrite <- Em in Hc', Hrec.
    eexists. split; [reflexivity|]. split.
    + split.
      * eapply core_frame; try done; apply Hc'.
      * cbn [_total_downloaded upd]. rewrite (received_frame m') by done. rewrite Hrec, Hck, decide_False, Em by done.
        cbn [_total_downloaded upd]. lia.
      * cbn [_file_is_complete upd]. intros H. exact (forallb_states m' H).
    + intros _. change (state_at m' k = Some CHUNK_DONE). rewrite Hs', decide_True by done. done.
  - set (m1 := m <| _total_downloaded := u64 (_total_downloaded m - sizeOfChunk m k) |>).
    destruct (set_state_spec m1 k CHUNK_OUTSTANDING Hr) as (m' & -> & Em & Hnb & Hs').
    destruct (core_set_inactive m k CHUNK_OUTSTANDING Hc Hr Hna ltac:(done)) as [Hc' Hrec].
    eexists. split; [reflexivity|]. split.
    + split.
      * rewrite Em. eapply core_frame; try done; apply Hc'.
      * rewrite (received_frame (m <| _map := <[Z.to_nat k := CHUNK_OUTSTANDING]> (_map m) |>)) by (by rewrite Em).
        rewrite Hrec, Hck, decide_True, Em by done. cbn [_total_downloaded upd m1]. unfold m1. cbn [_total_downloaded upd].
        rewrite sizeOfChunk_eq by (apply Hc || done).
        pose proof (sh_size _ (cm_shape _ Hc)).
        assert (chunk_len m k <= received m).
        { rewrite <- Hck. unfold received. rewrite (nsum_update (fun i => if decide (i = k) then 0 else contribution m i) (contribution m) _ k); [|done|].
          - rewrite decide_True by done. assert (0 <= nsum (fun i => if decide (i = k) then 0 else contribution m i) (length (_map m))); [|lia].
            transitivity (nsum (fun _ => 0) (length (_map m))); [by rewrite nsum_zero|]. apply nsum_le. intros i Hi.
            cbv beta. destruct (decide (i = k)); [lia|]. by apply contribution_range; [apply Hc|apply cm_active_states|].
          - intros i _ Hi. by rewrite decide_False. }
        pose proof (chunk_len_range m k (cm_shape _ Hc) Hr). rewrite Ht, wrap_small by (split; lia). lia.
      * rewrite Em. cbn [_file_is_complete upd m1]. intros H. specialize (Hcomp H k Hr). congruence.
    + intros _. rewrite Hs', decide_True by done. done.
Qed.

(** The queue of chunks to check is handed over whole, in some order. *)
Lemma drain_queue_perm fuel : forall q, (length q <= fuel)%nat -> drain_queue fuel q ≡ₚ q.
Proof.
  induction fuel as [|fuel IH]; intros q Hl; [by destruct q; cbn in Hl; [|lia]|].
  destruct q as [|x rest]; [done|]. cbn [drain_queue]. f_equiv.
  destruct rest as [|y rest] using rev_ind; [by rewrite IH by (cbn; lia)|]. clear IHrest.
  pose proof (List.last_last (x :: rest) y x) as L1. pose proof (removelast_last (y :: rest) y) as L2.
  rewrite <- app_comm_cons in L1, L2. rewrite L1, L2.
  rewrite IH; [by rewrite Permutation_cons_append|]. cbn in *. rewrite length_app in Hl. cbn in Hl. lia.
Qed.

Lemma getChunksToCheck_ok m : cm_ok m ->
  let '(m', l) := getChunksToCheck m in
  cm_ok m' /\ l ≡ₚ _chunks_checking_queue m /\ _chunks_checking_queue m' = [].
Proof.
  intros [Hc Ht Hcomp]. unfold getChunksToCheck. split; [|split; [by apply drain_queue_perm|done]]. split.
  - eapply core_frame; try done; apply Hc.
  - exact Ht.
  - exact Hcomp.
Qed.

(** ** Sources *)

Lemma cm_ok_frame m m' : cm_ok m ->
  _file_size m' = _file_size m -> _chunk_size m' = _chunk_size m -> _map m' = _map m ->
  _active_chunks_feed m' = _active_chunks_feed m -> _slices_to_download m' = _slices_to_download m ->
  _total_downloaded m' = _total_downloaded m -> _file_is_complete m' = _file_is_complete m ->
  _chunks_checking_queue m' = _chunks_checking_queue m ->
  (forall p i, _peers_chunks_availability m' !! p = Some i ->
     Z.of_nat (length (sc_cmap i)) = getCompressedSize (nb_chunks m)) -> cm_ok m'.
Proof.
  intros [Hc Ht Hcomp] E1 E2 E3 E4 E5 E6 E7 E8 Hso. split.
  - eapply core_frame; try done. rewrite E8. apply Hc.
  - rewrite E6, Ht. symmetry. by apply received_frame.
  - rewrite E7. intros H i. unfold nb_chunks, state_at. rewrite E3. by apply Hcomp.
Qed.

Definition source_ok (m : ChunkMap) (i : SourceChunksInfo) : Prop :=
  Z.of_nat (length (sc_cmap i)) = getCompressedSize (nb_chunks m).

Definition set_source (m : ChunkMap) (p : Z) (i : SourceChunksInfo) : ChunkMap :=
  m <| _peers_chunks_availability := <[p := i]> (_peers_chunks_availability m) |>.

Lemma set_source_ok m p i : cm_ok m -> source_ok m i -> cm_ok (set_source m p i).
Proof.
  intros Hm Hi. eapply cm_ok_frame; try done. intros q j. cbn [_peers_chunks_availability upd set_source].
  destruct (decide (p = q)) as [->|Hne].
  - rewrite lookup_insert_eq. by intros [= <-].
  - rewrite lookup_insert_ne by done. intros H. by eapply cm_sources; [apply Hm|].
Qed.

Lemma compressed_size_spec n : 0 <= n -> getCompressedSize n = (n + 31) / 32.
Proof.
  intros Hn. unfold getCompressedSize. rewrite Z.shiftr_div_pow2 by lia. change (2 ^ 5) with 32.
  change 31 with (Z.ones 5) at 1. rewrite Z.land_ones by lia. change (2 ^ 5) with 32.
  pose proof (Z.div_mod n 32 ltac:(lia)). pose proof (Z.mod_pos_bound n 32 ltac:(lia)).
  pose proof (Z.div_mod (n + 31) 32 ltac:(lia)). pose proof (Z.mod_pos_bound (n + 31) 32 ltac:(lia)).
  destruct (Z.eqb_spec (n mod 32) 0); lia.
Qed.

(** A map of the right size answers for every chunk. *)
Lemma cmap_get_total c n i :
  Z.of_nat (length c) = getCompressedSize n -> 0 <= i < n -> exists b, cmap_get c i = Some b.
Proof.
  intros Hc Hi. rewrite compressed_size_spec in Hc by lia. unfold cmap_get.
  destruct (lookup_lt_is_Some_2 (c : list Z) (Z.to_nat (Z.shiftr i 5))) as [w Ew].
  - rewrite Z.shiftr_div_pow2 by lia. change (2 ^ 5) with 32.
    pose proof (Z.div_mod i 32 ltac:(lia)). pose proof (Z.mod_pos_bound i 32 ltac:(lia)).
    pose proof (Z.div_mod (n + 31) 32 ltac:(lia)). pose proof (Z.mod_pos_bound (n + 31) 32 ltac:(lia)). lia.
  - rewrite Ew. cbn. eauto.
Qed.

Lemma has_chunk_total m i c : source_ok m i -> 0 <= c < nb_chunks m -> exists b, has_chunk i c = Some b.
Proof. intros Hi Hc. unfold has_chunk. destruct (is_full i); [eauto|]. by eapply cmap_get_total. Qed.

Lemma getSourceChunksInfo_ok m p : cm_ok m ->
  let '(m', i) := getSourceChunksInfo m p in
  cm_ok m' /\ source_ok m' i /\ _peers_chunks_availability m' !! p = Some i /\
  m' = m <| _peers_chunks_availability := _peers_chunks_availability m' |>.
Proof.
  intros Hm. unfold getSourceChunksInfo. destruct (_peers_chunks_availability m !! p) as [i|] eqn:E.
  - split; [done|]. split; [by eapply cm_sources; [apply Hm|]|]. split; [done|by destruct m].
  - set (i := mk_SourceChunksInfo _ _ _).
    assert (Hi : Z.of_nat (length (sc_cmap i)) = getCompressedSize (nb_chunks m)).
    { unfold i. cbn [sc_cmap]. rewrite length_replicate, compressed_size_spec by (unfold nb_chunks; lia).
      assert (0 <= (nb_chunks m + 31) / 32) by (apply Z.div_pos; unfold nb_chunks; lia). lia. }
    split; [by apply set_source_ok|]. split; [exact Hi|]. split; [apply lookup_insert_eq|done].
Qed.

Lemma removeFileSource_ok m p : cm_ok m -> cm_ok (removeFileSource m p).
Proof.
  intros Hm. eapply cm_ok_frame; try done. intros q i H. cbn in H. apply lookup_delete_Some in H as [_ H].
  by eapply cm_sources; [apply Hm|].
Qed.

Lemma setStrategy_ok m s : cm_ok m -> cm_ok (setStrategy m s).
Proof. intros Hm. eapply cm_ok_frame; try done. apply Hm. Qed.

(** The size test of the code, and the scan that finds whether the source is full. *)
Lemma size_test n : 0 <= n -> n / 32 + (if n mod 32 =? 0 then 0 else 1) = getCompressedSize n.
Proof.
  intros Hn. unfold getCompressedSize. rewrite Z.shiftr_div_pow2 by lia. change 31 with (Z.ones 5).
  by rewrite Z.land_ones by lia.
Qed.

Lemma full_scan m c : Z.of_nat (length c) = getCompressedSize (nb_chunks m) ->
  exists b, foldr (fun i acc => have ← cmap_get c (Z.of_nat i); if (have : bool) then acc else Some false) (Some true)
      (seq 0 (length (_map m))) = Some b /\
    (b = true -> forall i, 0 <= i < nb_chunks m -> cmap_get c i = Some true).
Proof.
  intros Hl.
  assert (G : forall l, (forall i, i ∈ l -> (i < length (_map m))%nat) -> exists b,
    foldr (fun i acc => have ← cmap_get c (Z.of_nat i); if (have : bool) then acc else Some false) (Some true) l = Some b /\
    (b = true -> forall i, i ∈ l -> cmap_get c (Z.of_nat i) = Some true)).
  { induction l as [|i l IH]; intros Hi.
    { exists true. split; [done|]. intros _ j Hj. by apply not_elem_of_nil in Hj. }
    cbn [foldr]. destruct (cmap_get_total c (nb_chunks m) (Z.of_nat i) Hl) as [b Hb].
    { specialize (Hi i ltac:(by left)). unfold nb_chunks. lia. }
    rewrite Hb. cbn [mbind option_bind]. destruct b; [|by exists false].
    destruct IH as (b & E & Hall); [intros j Hj; apply Hi; by right|]. exists b. split; [done|].
    intros Ht j Hj. apply elem_of_cons in Hj as [->|Hj]; [done|by apply Hall]. }
  destruct (G (seq 0 (length (_map m)))) as (b & E & Hall).
  { intros i Hi. apply list_elem_of_In, in_seq in Hi. lia. }
  exists b. split; [done|]. intros Ht i Hi. specialize (Hall Ht (Z.to_nat i)). rewrite Z2Nat.id in Hall by lia.
  apply Hall. apply list_elem_of_In, in_seq. unfold nb_chunks in Hi. lia.
Qed.

(** A bitmap of the right size is taken; the source is full only when it says so of every chunk. *)
Lemma setPeerAvailabilityMap_sets m p c now : cm_ok m -> Z.of_nat (length c) = getCompressedSize (nb_chunks m) ->
  exists m' full, setPeerAvailabilityMap m p c now = Some m' /\
    _peers_chunks_availability m' !! p = Some (mk_SourceChunksInfo c now full) /\
    (full = true -> forall i, 0 <= i < nb_chunks m -> cmap_get c i = Some true).
Proof.
  intros Hm Hl. unfold setPeerAvailabilityMap. rewrite size_test by (unfold nb_chunks; lia). rewrite Hl, Z.eqb_refl. cbn [negb].
  destruct (full_scan m c Hl) as (b & -> & Hall). cbn [mbind option_bind]. do 2 eexists. split; [reflexivity|].
  split; [apply lookup_insert_eq|done].
Qed.

Lemma setPeerAvailabilityMap_ok m p c now : cm_ok m ->
  exists m', setPeerAvailabilityMap m p c now = Some m' /\ cm_ok m'.
Proof.
  intros Hm. unfold setPeerAvailabilityMap. rewrite size_test by (unfold nb_chunks; lia).
  destruct (Z.eqb_spec (Z.of_nat (length c)) (getCompressedSize (nb_chunks m))) as [E|E]; cbn [negb]; [|eauto].
  destruct (full_scan m c E) as (b & -> & _). cbn [mbind option_bind]. eexists. split; [reflexivity|]. by apply (set_source_ok m p).
Qed.

(** ** Re-asking *)

Lemma slices_ok_same lo lim sl k r r' :
  slices_ok lo lim sl -> sl !! k = Some r -> sr_size r' = sr_size r -> slices_ok lo lim (<[k := r']> sl).
Proof.
  intros [Hi Hd] Hk Hr.
  assert (G : forall j x, <[k := r']> sl !! j = Some x -> exists y, sl !! j = Some y /\ sr_size y = sr_size x).
  { intros j x. destruct (decide (j = k)) as [->|Hne].
    - rewrite lookup_insert_eq. intros [= <-]. eauto.
    - rewrite lookup_insert_ne by done. eauto. }
  split.
  - intros j x Hj. destruct (G j x Hj) as (y & Hy & <-). eauto.
  - intros k1 k2 r1 r2 H1 H2 Hlt. destruct (G _ _ H1) as (y1 & Hy1 & <-). destruct (G _ _ H2) as (y2 & Hy2 & _). eauto.
Qed.

Lemma pending_same sl k r r' : sl !! k = Some r -> sr_size r' = sr_size r -> pending (<[k := r']> sl) = pending sl.
Proof.
  intros Hk Hr. unfold pending. rewrite <- (insert_delete_eq sl k r'), msum_insert by apply lookup_delete_eq.
  rewrite (msum_delete _ sl k r) by done. lia.
Qed.

Lemma reAskPendingChunk_ok m p now : cm_ok m ->
  let '(m', r) := reAskPendingChunk m p now in
  cm_ok m' /\ match r with
              | None => m' = m
              | Some (off, size) => exists n sl, slice_of m n off = Some sl /\ sr_size sl = size /\
                  request_time sl + FT_CHUNKMAP_MAX_SLICE_REASK_DELAY < now /\ p ∉ sr_peers sl /\
                  forall i, state_at m i <> Some CHUNK_OUTSTANDING
              end.
Proof.
  intros Hm. unfold reAskPendingChunk. destruct (existsb _ (_map m)) eqn:Ex; [done|].
  destruct (head _) as [[[c info] [off sl]]|] eqn:Eh; [|done].
  apply head_Some_elem_of in Eh. apply list_elem_of_filter in Eh as [Hold Hin]. cbn [snd fst] in Hold.
  apply list_elem_of_bind in Hin as (x & Hin & Hx). apply list_elem_of_fmap in Hin as (y & Heq & Hy).
  injection Heq as <- <-. apply elem_of_in_order in Hx, Hy. cbn [fst snd] in Hx, Hy.
  apply Is_true_true in Hold. apply andb_prop in Hold as [Hold Hp]. apply bool_decide_eq_true_1 in Hp. bprop.
  destruct Hm as [Hc Ht Hcomp]. destruct (cm_active _ Hc c info Hx) as [lim [Hlim Hsl Hrem Hleft]].
  set (sl' := sl <| request_time := now |> <| sr_peers := {[p]} ∪ sr_peers sl |>).
  set (info' := info <| _slices := <[off := sl']> (_slices info) |>).
  split.
  - change (cm_ok (set_info m c info')). split.
    + apply (core_set_info m c lim info info' Hc Hx). split; [done| | |done].
      * by apply (slices_ok_same _ _ _ _ sl).
      * unfold info'. cbn [_slices _remains upd]. by rewrite (pending_same _ _ sl).
    + rewrite (received_set_info m c info info' Hc Hx). cbn. rewrite Ht. lia.
    + exact Hcomp.
  - exists c, sl. split; [unfold slice_of; rewrite Hx; exact Hy|]. split; [done|]. split; [lia|]. split; [done|].
    intros i Hi. unfold state_at in Hi. destruct (i <? 0); [done|]. apply list_elem_of_lookup_2, list_elem_of_In in Hi.
    assert (existsb (fun st => bool_decide (st = CHUNK_OUTSTANDING)) (_map m) = true); [|congruence].
    apply existsb_exists. eexists. split; [exact Hi|]. by apply bool_decide_eq_true_2.
Qed.
