(* ===== verification/ChunkMapRun.v ===== *)
(** * Downloads: handing out slices and running a download

    [getDataChunk] and the operations that restart chunks keep the invariant of
    [ChunkMapProps]; a download is a sequence of the operations of [ChunkMap]. *)

From S2P Require Import Prelude ChunkMap ChunkMapProps.
From Stdlib Require Import ZArith Lia SpecFloat.
From stdpp Require Import base list gmap sorting.
Open Scope Z_scope.

(** ** The slot a peer is given *)

(** The outstanding chunks a source has. *)
Definition offered (i : SourceChunksInfo) (x : nat * ChunkState) : bool :=
  bool_decide (x.2 = CHUNK_OUTSTANDING) && bool_decide (has_chunk i (Z.of_nat x.1) = Some true).

Definition answers (i : SourceChunksInfo) (l : list (nat * ChunkState)) : Prop :=
  forall x, x ∈ l -> exists b, has_chunk i (Z.of_nat x.1) = Some b.

Lemma answers_cons i x l : answers i (x :: l) -> (exists b, has_chunk i (Z.of_nat x.1) = Some b) /\ answers i l.
Proof. intros H. split; [apply H; by left|intros y Hy; apply H; by right]. Qed.

Lemma offered_cases i x b : has_chunk i (Z.of_nat x.1) = Some b ->
  offered i x = bool_decide (x.2 = CHUNK_OUTSTANDING) && b.
Proof. intros H. unfold offered. rewrite H. f_equal. by destruct b. Qed.

Lemma count_available_loop i l : answers i l -> forall a b, 0 <= b <= a ->
  exists b', foldl (fun acc x => '(avail, before) ← acc : option (Z * Z);
    if decide (x.2 = CHUNK_OUTSTANDING) then
      have ← has_chunk i (Z.of_nat x.1); Some (if (have : bool) then avail + 1 else avail, before)
    else Some (avail, avail)) (Some (a, b)) l = Some (a + Z.of_nat (length (filter (offered i) l)), b') /\
    0 <= b' <= a + Z.of_nat (length (filter (offered i) l)).
Proof.
  induction l as [|x l IH]; intros Ha a b Hb; [exists b; cbn; split; [f_equal; f_equal; lia|lia]|].
  apply answers_cons in Ha as [[h Hh] Ha]. cbn [foldl mbind option_bind]. rewrite filter_cons.
  pose proof (offered_cases i x h Hh) as Ho. destruct (decide (x.2 = CHUNK_OUTSTANDING)) as [E|E].
  - rewrite Hh. cbn [mbind option_bind]. rewrite bool_decide_true in Ho by done. cbn in Ho.
    destruct h; rewrite Ho.
    + rewrite decide_True by done. destruct (IH Ha (a + 1) b ltac:(lia)) as (b' & -> & Hb'). exists b'.
      cbn [length]. split; [f_equal; f_equal; lia|lia].
    + rewrite decide_False by (by intros []). apply IH; [done|lia].
  - rewrite bool_decide_false in Ho by done. cbn in Ho. rewrite Ho, decide_False by (by intros []). apply IH; [done|lia].
Qed.

Lemma nth_available_spec i l : answers i l -> forall j total, 0 <= j ->
  nth_available l i j total =
    Some (match filter (offered i) l !! Z.to_nat j with Some x => Z.of_nat x.1 | None => total end).
Proof.
  induction l as [|x l IH]; intros Ha j total Hj; [done|].
  apply answers_cons in Ha as [[h Hh] Ha]. cbn [nth_available]. rewrite filter_cons.
  pose proof (offered_cases i x h Hh) as Ho. destruct (decide (x.2 = CHUNK_OUTSTANDING)) as [E|E].
  - rewrite Hh. cbn [mbind option_bind]. rewrite bool_decide_true in Ho by done. cbn in Ho.
    destruct h; rewrite Ho.
    + rewrite decide_True by done. destruct (Z.eqb_spec j 0) as [->|Hne]; [done|].
      rewrite IH by (done || lia). replace (Z.to_nat j) with (S (Z.to_nat (j - 1))) by lia. done.
    + rewrite decide_False by (by intros []). by apply IH.
  - rewrite bool_decide_false in Ho by done. cbn in Ho. rewrite Ho, decide_False by (by intros []). by apply IH.
Qed.

Lemma answers_states m i : source_ok m i -> answers i (imap pair (_map m)).
Proof.
  intros Hi x Hx. apply list_elem_of_lookup in Hx as [k Hk]. rewrite list_lookup_imap in Hk.
  apply fmap_Some in Hk as (st & Hst & ->). apply lookup_lt_Some in Hst. eapply has_chunk_total; [done|].
  cbn [fst]. unfold nb_chunks. lia.
Qed.

(** An index the filter keeps is an outstanding chunk of the source. *)
Lemma offered_in m i x : x ∈ filter (offered i) (imap pair (_map m)) ->
  0 <= Z.of_nat x.1 < nb_chunks m /\ state_at m (Z.of_nat x.1) = Some CHUNK_OUTSTANDING /\
  has_chunk i (Z.of_nat x.1) = Some true.
Proof.
  intros H. apply list_elem_of_filter in H as [Ho H]. apply Is_true_true, andb_prop in Ho as [E1 E2].
  apply bool_decide_eq_true_1 in E1, E2. apply list_elem_of_lookup in H as [k Hk]. rewrite list_lookup_imap in Hk.
  apply fmap_Some in Hk as (st & Hst & ->). cbn [fst snd] in *. subst st.
  pose proof (lookup_lt_Some _ _ _ Hst). unfold nb_chunks, state_at. split; [lia|].
  destruct (Z.ltb_spec (Z.of_nat k) 0); [lia|]. by rewrite Nat2Z.id.
Qed.

Lemma offered_none m i : filter (offered i) (imap pair (_map m)) = [] ->
  forall c, state_at m c = Some CHUNK_OUTSTANDING -> has_chunk i c = Some true -> False.
Proof.
  intros H c Hc Hh. pose proof (state_at_range _ _ _ Hc). unfold state_at in Hc.
  destruct (Z.ltb_spec c 0); [lia|].
  assert (Hin : (Z.to_nat c, CHUNK_OUTSTANDING) ∈ filter (offered i) (imap pair (_map m))).
  { apply list_elem_of_filter. split.
    - apply Is_true_true. unfold offered. cbn [fst snd]. rewrite Z2Nat.id by lia.
      by rewrite !bool_decide_true.
    - apply list_elem_of_lookup. exists (Z.to_nat c). by rewrite list_lookup_imap, Hc. }
  rewrite H in Hin. by apply not_elem_of_nil in Hin.
Qed.

(** The source record of the peer says it has the chunk. *)
Definition offers (m : ChunkMap) (p c : Z) : Prop :=
  exists i, _peers_chunks_availability m !! p = Some i /\ has_chunk i c = Some true.

(** Chunks that can be given to somebody new. *)
Definition outstanding_for (m : ChunkMap) (p c : Z) : Prop :=
  state_at m c = Some CHUNK_OUTSTANDING /\ offers m p c.

(** The index each strategy draws is one of the available ones. *)
Definition chosen_index (s : ChunkStrategy) (rnd avail before : Z) : Z :=
  match s with
  | CHUNK_STRATEGY_STREAMING => 0
  | CHUNK_STRATEGY_RANDOM => rnd mod avail
  | CHUNK_STRATEGY_PROGRESSIVE => rnd mod Z.min avail (u32 (before + FT_CHUNKMAP_MAX_CHUNK_JUMP))
  end.

Lemma chosen_index_range s rnd avail before :
  0 <= before <= avail -> 0 < avail <= 2 ^ 31 -> 0 <= chosen_index s rnd avail before < avail.
Proof.
  intros Hb Ha. destruct s; cbn [chosen_index]; [lia|apply Z.mod_pos_bound; lia|].
  rewrite (wrap_small 32 (before + _)) by (unfold is_word, FT_CHUNKMAP_MAX_CHUNK_JUMP; lia).
  set (d := Z.min _ _). assert (0 < d <= avail) by (unfold d, FT_CHUNKMAP_MAX_CHUNK_JUMP; lia).
  pose proof (Z.mod_pos_bound rnd d ltac:(lia)). lia.
Qed.

(** Counting and drawing, for a source record of the right size. *)
Lemma pick_chunk m i rnd : shape_ok m -> source_ok m i ->
  exists avail before, count_available m i = Some (avail, before) /\
    ((0 < avail /\ exists c, nth_available (imap pair (_map m)) i (chosen_index (_strategy m) rnd avail before) (nb_chunks m) = Some c /\
        state_at m c = Some CHUNK_OUTSTANDING /\ has_chunk i c = Some true)
     \/ (avail <= 0 /\ forall c, state_at m c = Some CHUNK_OUTSTANDING -> has_chunk i c <> Some true)).
Proof.
  intros Hsh Hi. pose proof (answers_states m i Hi) as Hans.
  destruct (count_available_loop i (imap pair (_map m)) Hans 0 0 ltac:(lia)) as (b & Hcount & Hb).
  set (off := filter (offered i) (imap pair (_map m))) in *. rewrite Z.add_0_l in *.
  exists (Z.of_nat (length off)), b. split; [exact Hcount|].
  destruct (Z.ltb_spec 0 (Z.of_nat (length off))) as [Hpos|Hpos].
  - left. split; [done|]. destruct (shape_bounds m Hsh) as (Hnb & _).
    assert (Z.of_nat (length off) <= nb_chunks m).
    { unfold off, nb_chunks. pose proof (length_filter (offered i) (imap pair (_map m))) as Hl.
      rewrite length_imap in Hl. lia. }
    pose proof (chosen_index_range (_strategy m) rnd _ b Hb ltac:(lia)) as Hch. set (j := chosen_index _ _ _ _) in *.
    destruct (lookup_lt_is_Some_2 off (Z.to_nat j)) as [x Hx]; [lia|].
    rewrite (nth_available_spec _ _ Hans) by lia. fold off. rewrite Hx. eexists. split; [reflexivity|].
    destruct (offered_in m i x) as (_ & Hst & Hh); [by eapply list_elem_of_lookup_2|]. done.
  - right. split; [lia|]. assert (Hnil : off = []) by (apply length_zero_iff_nil; lia).
    intros c Hc Hh. by eapply offered_none.
Qed.

(** A source known, or assumed, to have the whole file. *)
Definition full_source (m : ChunkMap) (p : Z) : Prop := is_full (getSourceChunksInfo m p).2 = true.

Lemma full_source_frame m m' p :
  _peers_chunks_availability m' = _peers_chunks_availability m -> _assume_availability m' = _assume_availability m ->
  full_source m p -> full_source m' p.
Proof. unfold full_source, getSourceChunksInfo. intros -> ->. by destruct (_ !! p). Qed.

Lemma full_source_offers m p i c : full_source m p -> _peers_chunks_availability m !! p = Some i -> has_chunk i c = Some true.
Proof. unfold full_source, getSourceChunksInfo. intros Hf Hi. rewrite Hi in Hf. cbn in Hf. unfold has_chunk. by rewrite Hf. Qed.

(** What asking for a source record leaves alone. *)
Record same_but_source (m m' : ChunkMap) (p : Z) : Prop := {
  sb_rest : m' = m <| _peers_chunks_availability := _peers_chunks_availability m' |>;
  sb_others : forall q, q <> p -> _peers_chunks_availability m' !! q = _peers_chunks_availability m !! q;
  sb_map : forall i, _peers_chunks_availability m !! p = Some i -> exists j,
    _peers_chunks_availability m' !! p = Some j /\ is_full j = is_full i /\ sc_cmap j = sc_cmap i;
  sb_full : full_source m p -> full_source m' p
}.

Lemma same_but_source_trans m1 m2 m3 p :
  same_but_source m1 m2 p -> same_but_source m2 m3 p -> same_but_source m1 m3 p.
Proof.
  intros [E1 O1 M1 F1] [E2 O2 M2 F2]. split; [..|auto].
  - rewrite E2 at 1. by rewrite E1.
  - intros q Hq. by rewrite O2, O1.
  - intros i Hi. destruct (M1 i Hi) as (j & Hj & Hf & Hc). destruct (M2 j Hj) as (k & ? & ? & ?).
    exists k. by repeat split; try done; congruence.
Qed.

Lemma getSourceChunksInfo_same m p : same_but_source m (getSourceChunksInfo m p).1 p.
Proof.
  unfold getSourceChunksInfo. destruct (_peers_chunks_availability m !! p) as [i|] eqn:E; cbn [fst].
  - split; [by destruct m|done|eauto|done].
  - split; [done| |congruence|].
    + intros q Hq. cbn. by rewrite lookup_insert_ne.
    + unfold full_source, getSourceChunksInfo. rewrite E. cbn [_peers_chunks_availability upd snd]. by rewrite lookup_insert_eq.
Qed.

Lemma getAvailableChunk_ok m p now rnd : cm_ok m ->
  exists m' c needed, getAvailableChunk m p now rnd = Some (m', c, needed) /\ cm_ok m' /\ same_but_source m m' p /\
    (outstanding_for m' p c \/ c = nb_chunks m /\ forall c', ~ outstanding_for m' p c').
Proof.
  intros Hm. unfold getAvailableChunk. pose proof (getSourceChunksInfo_ok m p Hm) as Hg.
  pose proof (getSourceChunksInfo_same m p) as Hsame.
  destruct (getSourceChunksInfo m p) as [m1 i]. destruct Hg as (Hm1 & Hi & Hp & _). cbn [fst] in Hsame. cbv zeta.
  match goal with |- context [<[p := ?j]> _] => set (i' := j) end.
  assert (Hfull : is_full i' = is_full i /\ sc_cmap i' = sc_cmap i) by (unfold i'; by destruct (_ && _)).
  change (m1 <| _peers_chunks_availability := <[p := i']> (_peers_chunks_availability m1) |>) with (set_source m1 p i').
  set (m2 := set_source m1 p i').
  assert (Hi' : source_ok m1 i') by (unfold source_ok; by rewrite (proj2 Hfull)).
  pose proof (set_source_ok m1 p i' Hm1 Hi') as Hm2. fold m2 in Hm2.
  assert (Hp2 : _peers_chunks_availability m2 !! p = Some i') by apply lookup_insert_eq.
  assert (Hs2 : same_but_source m m2 p).
  { eapply same_but_source_trans; [exact Hsame|]. split; [done| | |].
    - intros q Hq. by apply lookup_insert_ne.
    - intros j Hj. exists i'. split; [done|]. congruence.
    - unfold full_source, getSourceChunksInfo. rewrite Hp, Hp2. cbn [snd]. by rewrite (proj1 Hfull). }
  assert (Hnb : nb_chunks m2 = nb_chunks m) by (by rewrite (sb_rest _ _ _ Hs2)).
  destruct (pick_chunk m2 i' rnd (cm_shape _ (cm_is_core _ Hm2)) Hi') as (avail & before & -> & Hpick).
  cbn [mbind option_bind]. destruct Hpick as [(Hpos & c & Hc & Hst & Hh)|(Hpos & Hno)].
  - apply Z.ltb_lt in Hpos as ->. unfold chosen_index in Hc. rewrite Hc. cbn [mbind option_bind].
    do 3 eexists. split; [reflexivity|]. split; [done|]. split; [done|]. left. split; [done|]. by exists i'.
  - replace (0 <? avail) with false by (symmetry; apply Z.ltb_ge; lia).
    do 3 eexists. split; [reflexivity|]. split; [done|]. split; [done|]. right. split; [done|].
    intros c [Hc (j & Hj & Hh)]. rewrite Hp2 in Hj. injection Hj as <-. by eapply Hno.
Qed.

(** ** Which chunk to cut from *)

Lemma feed_chunk m p ch : cm_core m -> _active_chunks_feed m !! p = Some ch ->
  exists n info, feed_ok m ch n /\ u32 (_start ch / _chunk_size m) = n /\
    _slices_to_download m !! n = Some info /\ active_ok m n (_offset ch) info.
Proof.
  intros Hc Hp. destruct (cm_feed _ Hc p ch Hp) as [n Hf]. pose proof Hf as [Hn Hst _ _ Hact].
  destruct (_slices_to_download m !! n) as [info|] eqn:Hi; [|done]. exists n, info. split; [done|]. split.
  - rewrite Hst, (sh_cs _ (cm_shape _ Hc)), Z.div_mul by done.
    destruct (shape_bounds m (cm_shape _ Hc)) as (Hb & _). apply wrap_small. split; lia.
  - split; [done|]. destruct (cm_active _ Hc n info Hi) as [lim Ha]. pose proof (ac_limit _ _ _ _ Ha) as (_ & Hl & _).
    by rewrite (Hl p ch Hp Hst).
Qed.

Lemma set_info_id m n info : _slices_to_download m !! n = Some info -> set_info m n (info_at m n) = m.
Proof. intros H. unfold set_info, info_at. rewrite H. cbn. rewrite insert_id by done. by destruct m. Qed.

(** A peer being fed whose chunk this source has. *)
Definition shareable (m : ChunkMap) (sci : SourceChunksInfo) (q : Z) : Prop :=
  exists ch n, _active_chunks_feed m !! q = Some ch /\ feed_ok m ch n /\ has_chunk sci n = Some true.

Lemma share_loop_ok m sci hint : cm_core m -> source_ok m sci ->
  forall feed failsafe, (forall x, x ∈ feed -> _active_chunks_feed m !! x.1 = Some x.2) ->
    (forall q, failsafe = Some q -> shareable m sci q) ->
  exists it fs, share_loop feed m sci hint failsafe = Some (m, it, fs) /\
    (forall q, it = Some q -> shareable m sci q) /\ (forall q, fs = Some q -> shareable m sci q) /\
    (fs = None -> it = None /\ failsafe = None /\
       forall p ch n, (p, ch) ∈ feed -> feed_ok m ch n -> has_chunk sci n <> Some true).
Proof.
  intros Hc Hs. induction feed as [|[p ch] feed IH]; intros failsafe Hin Hfs.
  { exists None, failsafe. split; [done|]. split; [done|]. split; [done|]. intros ->. split; [done|]. split; [done|].
    intros p ch n Hq. by apply not_elem_of_nil in Hq. }
  cbn [share_loop]. cbv zeta. pose proof (Hin (p, ch) ltac:(by left)) as Hp. cbn [fst snd] in Hp.
  destruct (feed_chunk m p ch Hc Hp) as (n & info & Hf & -> & Hinfo & _).
  destruct (has_chunk_total m sci n Hs (fd_n _ _ _ Hf)) as [have Hh]. rewrite Hh. cbn [mbind option_bind].
  assert (Hin' : forall x, x ∈ feed -> _active_chunks_feed m !! x.1 = Some x.2) by (intros; apply Hin; by right).
  destruct have; cbn [negb].
  - rewrite (set_info_id m n info) by done.
    assert (Hsh : shareable m sci p) by (by exists ch, n).
    assert (Hcont : exists it fs, share_loop feed m sci hint (Some p) = Some (m, it, fs) /\
      (forall q, it = Some q -> shareable m sci q) /\ (forall q, fs = Some q -> shareable m sci q) /\
      (fs = None -> it = None /\ failsafe = None /\
         forall p' ch' n', (p', ch') ∈ (p, ch) :: feed -> feed_ok m ch' n' -> has_chunk sci n' <> Some true)).
    { destruct (IH (Some p) Hin' ltac:(intros q [= <-]; done)) as (it & fs & E & H1 & H2 & H3).
      exists it, fs. split; [done|]. split; [done|]. split; [done|]. intros E'. by destruct (H3 E') as (_ & ? & _). }
    destruct (last _) as [[k sl]|]; [|exact Hcont]. destruct (slow_enough _ _); [|exact Hcont].
    exists (Some p), (Some p). split; [done|]. by split; [intros q [= <-]|split; [intros q [= <-]|]].
  - destruct (IH failsafe Hin' Hfs) as (it & fs & E & H1 & H2 & H3). exists it, fs. split; [done|].
    split; [done|]. split; [done|]. intros E'. destruct (H3 E') as (? & ? & H4). split; [done|]. split; [done|].
    intros p' ch' n' Hq Hf'. apply elem_of_cons in Hq as [[= -> ->]|Hq]; [|by eapply H4].
    assert (n' = n) as -> by (pose proof (fd_start _ _ _ Hf); pose proof (fd_start _ _ _ Hf'); unfold cs in *; lia).
    congruence.
Qed.

(** Starting an outstanding chunk for a peer. *)
Definition start_chunk (m : ChunkMap) (p c : Z) : ChunkMap :=
  set_info (m <| _active_chunks_feed := <[p := new_Chunk (c * cs) (chunk_len m c)]> (_active_chunks_feed m) |>
              <| _map := <[Z.to_nat c := CHUNK_ACTIVE]> (_map m) |>) c (mk_ChunkDownloadInfo ∅ (chunk_len m c) 0).

Lemma start_chunk_frame m p c : 0 <= c < nb_chunks m ->
  nb_chunks (start_chunk m p c) = nb_chunks m /\
  (forall i, chunk_len (start_chunk m p c) i = chunk_len m i) /\
  (forall i, state_at (start_chunk m p c) i = if decide (i = c) then Some CHUNK_ACTIVE else state_at m i).
Proof.
  intros Hc. assert (Hn : nb_chunks (start_chunk m p c) = nb_chunks m)
    by (unfold nb_chunks; cbn [start_chunk set_info _map upd]; by rewrite length_insert).
  split; [done|]. split; [intros i; unfold chunk_len; by rewrite Hn|].
  destruct (set_state_spec m c CHUNK_ACTIVE Hc) as (m' & _ & -> & _ & Hs). exact Hs.
Qed.

Lemma start_chunk_feed m p c : _active_chunks_feed (start_chunk m p c) =
  <[p := new_Chunk (c * cs) (chunk_len m c)]> (_active_chunks_feed m).
Proof. done. Qed.

Lemma start_chunk_slices m p c : _slices_to_download (start_chunk m p c) =
  <[c := mk_ChunkDownloadInfo ∅ (chunk_len m c) 0]> (_slices_to_download m).
Proof. done. Qed.

Lemma new_Chunk_end m c : cm_core m -> 0 <= c < nb_chunks m ->
  new_Chunk (c * cs) (chunk_len m c) = mk_Chunk (c * cs) (c * cs) (c * cs + chunk_len m c).
Proof.
  intros Hc Hr. destruct (shape_bounds m (cm_shape _ Hc)) as (Hb & _). pose proof (chunk_len_range m c (cm_shape _ Hc) Hr).
  unfold new_Chunk. f_equal. rewrite wrap_small; [lia|]. unfold is_word, cs in *. change (1024 * 1024) with 1048576 in *. lia.
Qed.

Section Start.
Context (m : ChunkMap) (p c : Z) (Hc : cm_core m) (Ho : state_at m c = Some CHUNK_OUTSTANDING)
  (Hp : _active_chunks_feed m !! p = None).

Lemma start_range : 0 <= c < nb_chunks m.
Proof. by eapply state_at_range. Qed.

Lemma start_not_active : _slices_to_download m !! c = None.
Proof.
  destruct (_slices_to_download m !! c) eqn:E; [|done]. exfalso.
  assert (state_at m c = Some CHUNK_ACTIVE) by (apply Hc; congruence). congruence.
Qed.

Lemma start_not_fed q ch : _active_chunks_feed m !! q = Some ch -> _start ch <> c * cs.
Proof.
  intros Hq Hs. destruct (cm_feed _ Hc q ch Hq) as [n []].
  assert (n = c) by (unfold cs in *; lia). subst n. by rewrite start_not_active in *.
Qed.

Lemma start_active : active_ok (start_chunk m p c) c (c * cs) (mk_ChunkDownloadInfo ∅ (chunk_len m c) 0).
Proof.
  destruct (start_chunk_frame m p c start_range) as (Hn & Hl & Hs).
  pose proof (chunk_len_range m c (cm_shape _ Hc) start_range). split; cbn [_slices _remains]; rewrite ?Hl.
  - split; [rewrite Hl; lia|]. unfold start_chunk, set_info. cbn [_active_chunks_feed upd].
    rewrite new_Chunk_end by (apply Hc || apply start_range). split.
    + intros q ch. destruct (decide (q = p)) as [->|].
      * rewrite lookup_insert_eq. by intros [= <-].
      * rewrite lookup_insert_ne by done. intros Hq Hst. by destruct (start_not_fed q ch Hq).
    + intros _. do 2 eexists. split; [apply lookup_insert_eq|done].
  - split; intros *; by rewrite lookup_empty.
  - unfold pending. rewrite msum_empty. lia.
  - lia.
Qed.

Lemma start_other n lim info : n <> c -> active_ok m n lim info -> active_ok (start_chunk m p c) n lim info.
Proof.
  intros Hne [(L1 & L2 & L3) Hs Hr Hl]. destruct (start_chunk_frame m p c start_range) as (_ & El & _).
  split; rewrite ?El; try done. split; [by rewrite El|]. rewrite El. unfold start_chunk, set_info. cbn [_active_chunks_feed upd].
  split.
  - intros q ch. destruct (decide (q = p)) as [->|].
    + rewrite lookup_insert_eq. intros [= <-] Hst. cbn [new_Chunk _start] in Hst. unfold cs in Hst. exfalso. apply Hne. lia.
    + rewrite lookup_insert_ne by done. apply L2.
  - intros Hlt. destruct (L3 Hlt) as (q & ch & Hq & Hst). exists q, ch. split; [|done].
    rewrite lookup_insert_ne; [done|]. intros <-. congruence.
Qed.

Lemma start_chunk_core : cm_core (start_chunk m p c).
Proof.
  pose proof start_range as Hr. destruct (start_chunk_frame m p c Hr) as (Hn & El & Est).
  pose proof (new_Chunk_end m c Hc Hr) as En. pose proof (chunk_len_range m c (cm_shape _ Hc) Hr) as Hlen.
  pose proof start_active as Ha. split.
  - apply (shape_frame m); [apply Hc|done|apply length_insert|done].
  - intros i. rewrite Est. cbn [start_chunk set_info _slices_to_download upd]. destruct (decide (i = c)) as [->|].
    + by rewrite lookup_insert_eq.
    + rewrite lookup_insert_ne by done. apply Hc.
  - intros n info. cbn [start_chunk set_info _slices_to_download upd]. destruct (decide (n = c)) as [->|].
    + rewrite lookup_insert_eq. intros [= <-]. eauto.
    + rewrite lookup_insert_ne by done. intros Hi. destruct (cm_active _ Hc n info Hi) as [lim Hl].
      exists lim. by apply start_other.
  - intros q ch. rewrite start_chunk_feed, En.
    destruct (decide (q = p)) as [->|Hne].
    + rewrite lookup_insert_eq. intros [= <-]. exists c. split; rewrite ?Hn, ?El, ?start_chunk_slices; cbn [_start _end _offset]; try done; [lia|].
      by rewrite lookup_insert_eq.
    + rewrite lookup_insert_ne by done. intros Hq. destruct (cm_feed _ Hc q ch Hq) as [n [? ? ? ? Hnn]].
      exists n. split; rewrite ?Hn, ?El, ?start_chunk_slices; try done. by apply not_eq_None_Some, lookup_insert_is_Some'; right; apply not_eq_None_Some.
  - intros q1 q2 c1 c2. unfold start_chunk, set_info. cbn [_active_chunks_feed upd]. rewrite En.
    destruct (decide (q1 = p)) as [->|], (decide (q2 = p)) as [->|];
      rewrite ?lookup_insert_eq, ?lookup_insert_ne by done; try done.
    + intros [= <-] H2 Hs. symmetry in Hs. cbn [_start] in Hs. by destruct (start_not_fed q2 c2 H2).
    + intros H1 [= <-] Hs. cbn [_start] in Hs. by destruct (start_not_fed q1 c1 H1).
    + intros H1 H2. by eapply (cm_feed_once _ Hc).
  - intros q i Hq. rewrite Hn. by eapply (cm_sources _ Hc).
  - rewrite Hn. apply Hc.
Qed.

Lemma received_start : received (start_chunk m p c) = received m.
Proof.
  pose proof start_range as Hr. destruct (start_chunk_frame m p c Hr) as (Hn & El & Est).
  unfold received. cbn [start_chunk set_info _map upd]. rewrite length_insert. apply nsum_ext.
  intros i _. unfold contribution. rewrite Est, El. unfold start_chunk, set_info. cbn [_slices_to_download upd].
  destruct (decide (i = c)) as [->|].
  - rewrite lookup_insert_eq, Ho. cbn. lia.
  - by rewrite lookup_insert_ne.
Qed.
End Start.

Lemma start_chunk_ok m p c : cm_ok m -> state_at m c = Some CHUNK_OUTSTANDING -> _active_chunks_feed m !! p = None ->
  cm_ok (start_chunk m p c).
Proof.
  intros [Hc Ht Hcomp] Ho Hp. split.
  - by apply start_chunk_core.
  - by rewrite received_start.
  - intros Hf i Hi. change (_file_is_complete m = true) in Hf.
    specialize (Hcomp Hf c (state_at_range _ _ _ Ho)). congruence.
Qed.

(** What [find_chunk] finds, and when it finds nothing. *)
Lemma same_but_source_core m m' p : same_but_source m m' p -> cm_ok m' ->
  _active_chunks_feed m' = _active_chunks_feed m /\ _slices_to_download m' = _slices_to_download m /\ _map m' = _map m /\
  _file_size m' = _file_size m.
Proof. intros [-> _ _ _] _. done. Qed.

(** The chunks that could be cut for peer [p]. *)
Definition nothing_for (m : ChunkMap) (p : Z) : Prop :=
  _active_chunks_feed m !! p = None /\ is_Some (_peers_chunks_availability m !! p) /\ (forall c, ~ outstanding_for m p c) /\
  (forall q ch n, _active_chunks_feed m !! q = Some ch -> feed_ok m ch n -> ~ offers m p n).

Lemma offers_same m m' p c i : same_but_source m m' p -> _peers_chunks_availability m !! p = Some i ->
  offers m' p c <-> has_chunk i c = Some true.
Proof.
  intros Hs Hi. destruct (sb_map _ _ _ Hs i Hi) as (j & Hj & Hf & Hcm).
  assert (E : has_chunk j c = has_chunk i c) by (unfold has_chunk; by rewrite Hf, Hcm). rewrite <- E. split.
  - intros (k & Hk & Hh). congruence.
  - intros Hh. by exists j.
Qed.

Lemma find_chunk_ok m p hint now rnd needed : cm_ok m ->
  exists m' it needed', find_chunk m p hint now rnd needed = Some (m', it, needed') /\ cm_ok m' /\
    received m' = received m /\ _file_size m' = _file_size m /\
    (forall n, slice_of m' n = slice_of m n) /\ (full_source m p -> full_source m' p) /\
    match it with
    | Some q => exists ch n, _active_chunks_feed m' !! q = Some ch /\ feed_ok m' ch n /\
                  (_active_chunks_feed m !! p = Some ch \/ offers m' p n)
    | None => nothing_for m' p
    end.
Proof.
  intros Hm. unfold find_chunk. destruct (_active_chunks_feed m !! p) as [ch0|] eqn:Hp.
  { exists m, (Some p), needed. do 6 (split; [done|]). destruct (cm_feed _ (cm_is_core _ Hm) p ch0 Hp) as [n Hn].
    exists ch0, n. auto. }
  pose proof (getSourceChunksInfo_ok m p Hm) as Hg. pose proof (getSourceChunksInfo_same m p) as Hs1.
  destruct (getSourceChunksInfo m p) as [m1 sci]. destruct Hg as (Hm1 & Hsci & Hp1 & _). cbn [fst] in Hs1.
  destruct (share_loop_ok m1 sci hint (cm_is_core _ Hm1) Hsci (in_order (_active_chunks_feed m1)) None) as
    (it & fs & -> & Hit & Hfs & Hnone); [intros x; apply elem_of_in_order|done|]. cbn [mbind option_bind].
  destruct (same_but_source_core _ _ _ Hs1 Hm1) as (Ef1 & Es1 & Em1 & Ez1).
  destruct it as [q|].
  { exists m1, (Some q), needed. split; [done|]. split; [done|]. split; [by apply received_frame|]. split; [done|].
    split; [intros n; unfold slice_of; by rewrite Es1|]. split; [apply Hs1|]. destruct (Hit q eq_refl) as (ch & n & Hq & Hf & Hh).
    exists ch, n. split; [done|]. split; [done|]. right. by exists sci. }
  destruct (getAvailableChunk_ok m1 p now rnd Hm1) as (m2 & c & needed' & -> & Hm2 & Hs2 & Hcase).
  cbn [mbind option_bind]. destruct (same_but_source_core _ _ _ Hs2 Hm2) as (Ef2 & Es2 & Em2 & Ez2).
  assert (Hoff : forall n, offers m2 p n <-> has_chunk sci n = Some true) by (intros n; by eapply offers_same).
  assert (Hfeed : forall ch n, feed_ok m2 ch n <-> feed_ok m1 ch n).
  { intros ch n. assert (Hl : chunk_len m2 n = chunk_len m1 n) by (unfold chunk_len, nb_chunks; by rewrite Em2, Ez2).
    assert (Hb : nb_chunks m2 = nb_chunks m1) by (unfold nb_chunks; by rewrite Em2).
    split; intros []; split; rewrite ?Hl, ?Hb, ?Es2 in *; done. }
  destruct Hcase as [[Hst Ho]|[-> Hno]].
  - pose proof (state_at_range _ _ _ Hst) as Hr. destruct (Z.leb_spec (nb_chunks m2) c); [lia|]. cbv zeta.
    rewrite sizeOfChunk_eq by (apply (cm_shape _ (cm_is_core _ Hm2)) || done).
    rewrite (sh_cs _ (cm_shape _ (cm_is_core _ Hm2))).
    match goal with |- context [set_state ?m0 c _] => set (mf := m0) end.
    destruct (set_state_spec mf c CHUNK_ACTIVE Hr) as (m3 & -> & Em3 & _ & _). cbn [mbind option_bind].
    assert (Hp2 : _active_chunks_feed m2 !! p = None) by (by rewrite Ef2, Ef1).
    assert (E : set_info m3 c ((info_at m3 c) <| _remains := chunk_len m2 c |>) = start_chunk m2 p c).
    { unfold info_at. rewrite Em3. unfold mf. cbn [_slices_to_download upd].
      rewrite (start_not_active m2 c (cm_is_core _ Hm2) Hst). done. }
    rewrite E. pose proof (start_chunk_ok m2 p c Hm2 Hst Hp2) as Hok.
    do 3 eexists. split; [reflexivity|]. split; [done|]. split.
    { rewrite received_start by (apply Hm2 || done). rewrite !(received_frame m m2) by congruence. done. }
    split; [cbn; congruence|]. split.
    { intros n. unfold slice_of. rewrite start_chunk_slices. destruct (decide (n = c)) as [->|Hne].
      - rewrite lookup_insert_eq, <- Es1, <- Es2, (start_not_active m2 c (cm_is_core _ Hm2) Hst). done.
      - rewrite lookup_insert_ne by done. by rewrite Es2, Es1. }
    split; [intros Hfl; by apply (full_source_frame m2), (sb_full _ _ _ Hs2), (sb_full _ _ _ Hs1)|].
    exists (new_Chunk (c * cs) (chunk_len m2 c)), c. split; [rewrite start_chunk_feed; apply lookup_insert_eq|].
    split; [|by right].
    destruct (cm_feed _ (cm_is_core _ Hok) p (new_Chunk (c * cs) (chunk_len m2 c))) as [n Hn];
      [rewrite start_chunk_feed; apply lookup_insert_eq|].
    assert (n = c) as <-; [|done]. pose proof (fd_start _ _ _ Hn) as E3. cbn [new_Chunk _start] in E3. unfold cs in E3. lia.
  - destruct (Z.leb_spec (nb_chunks m1) (nb_chunks m2)) as [_|Hlt]; [|unfold nb_chunks in Hlt; rewrite Em2 in Hlt; lia].
    exists m2, fs, needed'. replace (nb_chunks m2 <=? nb_chunks m1) with true by
      (symmetry; apply Z.leb_le; unfold nb_chunks; rewrite Em2; lia).
    split; [done|]. split; [done|]. split; [apply received_frame; congruence|]. split; [congruence|].
    split; [intros n; unfold slice_of; by rewrite Es2, Es1|].
    split; [intros Hfl; by apply (sb_full _ _ _ Hs2), (sb_full _ _ _ Hs1)|]. destruct fs as [q|].
    + destruct (Hfs q eq_refl) as (ch & n & Hq & Hf & Hh). exists ch, n. rewrite Ef2, Hfeed, Hoff. auto.
    + destruct (Hnone eq_refl) as (_ & _ & Hall). split; [by rewrite Ef2, Ef1|].
      split; [destruct (sb_map _ _ _ Hs2 sci Hp1) as (j & Hj & _); by exists j|]. split; [done|].
      intros q ch n Hq Hf. rewrite Ef2 in Hq. rewrite Hfeed in Hf. rewrite Hoff.
      apply (Hall q ch); [|done]. by apply elem_of_in_order.
Qed.

(** ** Cutting a slice *)

(** The chunk [ch] of [q] is cut at [off]; when that is its end, it is fed no more. *)
Definition cut_chunk (m : ChunkMap) (q : Z) (ch : Chunk) (n : Z) (info : ChunkDownloadInfo) (off : Z) : ChunkMap :=
  (set_info m n info) <| _active_chunks_feed :=
    if off =? _end ch then delete q (_active_chunks_feed m)
    else <[q := mk_Chunk (_start ch) off (_end ch)]> (_active_chunks_feed m) |>.

Lemma cut_feed m q ch n info off p c :
  _active_chunks_feed (cut_chunk m q ch n info off) !! p = Some c ->
  (p = q /\ off <> _end ch /\ c = mk_Chunk (_start ch) off (_end ch)) \/ (p <> q /\ _active_chunks_feed m !! p = Some c).
Proof.
  cbn [cut_chunk _active_chunks_feed upd]. destruct (Z.eqb_spec off (_end ch)).
  - rewrite lookup_delete_Some. intros [Hne Hp]. right. split; [congruence|done].
  - destruct (decide (p = q)) as [->|Hne]; [rewrite lookup_insert_eq; intros [= <-]; auto|].
    rewrite lookup_insert_ne by done. auto.
Qed.

Lemma cut_feed_other m q ch n info off p :
  p <> q -> _active_chunks_feed (cut_chunk m q ch n info off) !! p = _active_chunks_feed m !! p.
Proof.
  intros Hne. cbn [cut_chunk _active_chunks_feed upd].
  destruct (off =? _end ch); [by rewrite lookup_delete_ne|by rewrite lookup_insert_ne].
Qed.

Section Cut.
Context (m : ChunkMap) (q : Z) (ch : Chunk) (n : Z) (info info' : ChunkDownloadInfo) (off : Z)
  (Hc : cm_core m) (Hq : _active_chunks_feed m !! q = Some ch) (Hf : feed_ok m ch n)
  (Hi : _slices_to_download m !! n = Some info)
  (Ho : _offset ch < off <= _end ch) (Hsl : slices_ok (n * cs) off (_slices info'))
  (Hrem : _remains info' = _remains info) (Hpend : pending (_slices info') = pending (_slices info) + (off - _offset ch)).

Abbreviation m' := (cut_chunk m q ch n info' off).

Lemma cut_old : active_ok m n (_offset ch) info.
Proof.
  destruct (cm_active _ Hc n info Hi) as [lim Ha]. pose proof (ac_limit _ _ _ _ Ha) as (_ & Hl & _).
  by rewrite (Hl q ch Hq (fd_start _ _ _ Hf)).
Qed.

Lemma cut_active : active_ok m' n off info'.
Proof.
  destruct cut_old as [(L1 & L2 & L3) _ Hr Hl]. pose proof (fd_end _ _ _ Hf) as He.
  change (chunk_len m n) with (chunk_len m' n) in *. split; [|done|rewrite Hrem; lia|by rewrite Hrem].
  split; [lia|]. split.
  - intros p c Hp Hst. apply cut_feed in Hp as [(-> & _ & ->)|(Hne & Hp)]; [done|].
    exfalso. apply Hne. eapply (cm_feed_once _ Hc); [exact Hp|exact Hq|]. by rewrite Hst, (fd_start _ _ _ Hf).
  - intros Hlt. exists q, (mk_Chunk (_start ch) off (_end ch)). cbn [cut_chunk _active_chunks_feed upd].
    destruct (Z.eqb_spec off (_end ch)); [lia|]. rewrite lookup_insert_eq. split; [done|]. apply Hf.
Qed.

Lemma cut_other k lim i : k <> n -> active_ok m k lim i -> active_ok m' k lim i.
Proof.
  intros Hne [(L1 & L2 & L3) Hs Hr Hl]. split; try done. split; [done|]. split.
  - intros p c Hp Hst. apply cut_feed in Hp as [(-> & _ & ->)|(_ & Hp)]; [|by eapply L2].
    cbn [_start] in Hst. pose proof (fd_start _ _ _ Hf). unfold cs in *. exfalso. apply Hne. lia.
  - intros Hlt. destruct (L3 Hlt) as (p & c & Hp & Hst). exists p, c. split; [|done].
    rewrite cut_feed_other; [done|]. intros ->. assert (c = ch) as -> by congruence.
    pose proof (fd_start _ _ _ Hf). unfold cs in *. apply Hne. lia.
Qed.

Lemma cut_core : cm_core m'.
Proof.
  assert (Hsome : forall k, _slices_to_download m' !! k <> None <-> _slices_to_download m !! k <> None).
  { intros k. cbn [cut_chunk set_info _slices_to_download upd]. destruct (decide (k = n)) as [->|Hne].
    - by rewrite lookup_insert_eq, Hi.
    - by rewrite lookup_insert_ne. }
  pose proof Hc as [Hsh Hst Hac Hfe Hon Hso Hqu]. split; [exact (shape_frame m m' Hsh eq_refl eq_refl eq_refl)| | | | |exact Hso|exact Hqu].
  - intros k. rewrite Hsome. apply Hst.
  - intros k i. cbn [cut_chunk set_info _slices_to_download upd]. destruct (decide (k = n)) as [->|Hne].
    + rewrite lookup_insert_eq. intros [= <-]. exists off. apply cut_active.
    + rewrite lookup_insert_ne by done. intros Hk. destruct (Hac k i Hk) as [lim Ha]. exists lim. by apply cut_other.
  - intros p c Hp. apply cut_feed in Hp as [(-> & Hne & ->)|(_ & Hp)].
    + exists n. destruct Hf as [F1 F2 F3 F4 F5]. split; cbn [_start _offset _end]; [done|done|done|lia|by apply Hsome].
    + destruct (Hfe p c Hp) as [k [F1 F2 F3 F4 F5]]. exists k. split; [done|done|done|done|by apply Hsome].
  - intros p1 p2 c1 c2 H1 H2 Hs. apply cut_feed in H1 as [(-> & _ & ->)|(N1 & H1)];
      apply cut_feed in H2 as [(-> & _ & ->)|(N2 & H2)]; try done; cbn [_start] in Hs.
    + by apply (Hon q p2 ch c2).
    + by apply (Hon p1 q c1 ch).
    + by apply (Hon p1 p2 c1 c2).
Qed.

Lemma received_cut : received m' = received m.
Proof.
  transitivity (received (set_info m n info')); [by apply received_frame|].
  rewrite (received_set_info m n info info' Hc Hi), Hrem. lia.
Qed.
End Cut.

(** Adding the slice that starts where the chunk was cut so far. *)
Lemma slices_ok_extend lo off off' sl r :
  slices_ok lo off sl -> lo <= off -> off < off' -> sr_size r = off' - off -> slices_ok lo off' (<[off := r]> sl).
Proof.
  intros [Hin Hd] Hlo Hlt Hr. split.
  - intros k x. destruct (decide (k = off)) as [->|Hne].
    + rewrite lookup_insert_eq. intros [= <-]. lia.
    + rewrite lookup_insert_ne by done. intros Hk. destruct (Hin k x Hk) as (? & ? & ?). lia.
  - intros k1 k2 r1 r2. destruct (decide (k1 = off)) as [->|N1], (decide (k2 = off)) as [->|N2];
      rewrite ?lookup_insert_eq, ?lookup_insert_ne by done; try lia.
    + intros _ H2 Hk. destruct (Hin k2 r2 H2) as (? & ? & ?). lia.
    + intros H1 _ Hk. destruct (Hin k1 r1 H1) as (? & ? & ?). lia.
    + intros H1 H2. by apply (Hd k1 k2 r1 r2).
Qed.

Lemma slices_fresh lo off sl : slices_ok lo off sl -> sl !! off = None.
Proof. intros [Hin _]. destruct (sl !! off) as [r|] eqn:E; [|done]. destruct (Hin off r E) as (? & ? & ?). lia. Qed.

(** Every pending slice is inside its chunk. *)
Lemma slice_of_range m k cid sl : cm_core m -> slice_of m k cid = Some sl ->
  0 <= k < nb_chunks m /\ k * cs <= cid /\ 0 < sr_size sl /\ cid + sr_size sl <= k * cs + chunk_len m k.
Proof.
  intros Hc. unfold slice_of. destruct (_slices_to_download m !! k) as [info|] eqn:Hk; [|done]. cbn [mbind option_bind].
  intros Hs. destruct (cm_active _ Hc k info Hk) as [lim [Hl Hsl _ _]]. destruct (sl_in _ _ _ Hsl cid sl Hs) as (? & ? & ?).
  split; [apply (active_range m k Hc); congruence|]. destruct Hl as (Hl & _). lia.
Qed.

(** The piece handed out: where it lies and what it is disjoint from. *)
Record fresh_slice (m m' : ChunkMap) (p hint now n : Z) (c : ftChunk) : Prop := {
  fs_chunk : 0 <= n < nb_chunks m';
  fs_inside : n * cs <= fc_offset c /\ fc_offset c + fc_size c <= n * cs + chunk_len m' n;
  fs_size : 0 < fc_size c <= hint;
  fs_peer : fc_peer c = p /\ fc_id c = fc_offset c /\ fc_ts c = now;
  fs_active : state_at m' n = Some CHUNK_ACTIVE;
  fs_recorded : slice_of m' n (fc_offset c) = Some (mk_SliceRequestInfo (fc_size c) now {[p]});
  fs_others : forall k cid, (k, cid) <> (n, fc_offset c) -> slice_of m' k cid = slice_of m k cid;
  fs_disjoint : forall k cid sl, slice_of m k cid = Some sl ->
    cid + sr_size sl <= fc_offset c \/ fc_offset c + fc_size c <= cid
}.

Lemma getDataChunk_ok m p hint now rnd needed : cm_ok m -> 0 < hint ->
  exists m' r needed', getDataChunk m p hint now rnd needed = Some (m', r, needed') /\ cm_ok m' /\
    received m' = received m /\ _file_size m' = _file_size m /\ (full_source m p -> full_source m' p) /\
    match r with
    | Some c => exists n, fresh_slice m m' p hint now n c /\
                  (offers m' p n \/ exists ch, _active_chunks_feed m !! p = Some ch /\ _start ch = n * cs)
    | None => nothing_for m' p /\ forall n, slice_of m' n = slice_of m n
    end.
Proof.
  intros Hm Hh. unfold getDataChunk.
  destruct (find_chunk_ok m p hint now rnd needed Hm) as (m1 & it & needed' & -> & Hm1 & Hrec & Hfs & Hsl & Hfull & Hit).
  cbn [mbind option_bind]. destruct it as [q|]; [|by exists m1, None, needed'].
  destruct Hit as (ch & n & Hq & Hf & Hwho). rewrite Hq. cbn [mbind option_bind]. pose proof (cm_is_core _ Hm1) as Hc.
  destruct (feed_chunk m1 q ch Hc Hq) as (n' & info & Hf' & _ & Hinfo & Ha).
  assert (n' = n) as -> by (pose proof (fd_start _ _ _ Hf); pose proof (fd_start _ _ _ Hf'); unfold cs in *; lia). clear Hf'.
  pose proof Hf as [Hn Hst He Ho _]. pose proof (chunk_len_range m1 n (cm_shape _ Hc) Hn) as Hlen.
  destruct (shape_bounds m1 (cm_shape _ Hc)) as (Hnb & _).
  set (size := Z.min hint (_end ch - _offset ch)).
  assert (Hsz : 0 < size <= hint /\ _offset ch + size <= _end ch) by (unfold size; lia).
  assert (Hw : is_word 32 (_end ch - _offset ch)) by (unfold is_word, cs in *; change (1024 * 1024) with 1048576 in *; lia).
  assert (Hw2 : is_word 64 (_offset ch + size)) by (unfold is_word, cs in *; change (1024 * 1024) with 1048576 in *; lia).
  assert (Hoff : u32 (_offset ch / _chunk_size m1) = n).
  { rewrite (sh_cs _ (cm_shape _ Hc)). replace (_offset ch / cs) with n.
    - apply wrap_small. unfold is_word. lia.
    - apply Z.div_unique with (_offset ch - n * cs); unfold cs in *; lia. }
  unfold getSlice. cbv zeta. rewrite (wrap_small 32 (_end ch - _offset ch)) by done. fold size.
  rewrite (wrap_small 64 (_offset ch + size)) by done. cbn [fc_offset fc_id fc_size fc_ts].
  change (_chunk_size (m1 <| _active_chunks_feed := _ |>)) with (_chunk_size m1). rewrite Hoff.
  set (r := mk_SliceRequestInfo size now {[p]}).
  set (info' := mk_ChunkDownloadInfo (<[_offset ch := r]> (_slices info)) (_remains info) now).
  pose proof (slices_fresh _ _ _ (ac_slices _ _ _ _ Ha)) as Hfresh.
  set (m2 := cut_chunk m1 q ch n info' (_offset ch + size)).
  match goal with |- exists m' r0 nd, Some (?e, _, _) = _ /\ _ => assert (E : e = m2) end.
  { unfold info_at, set_info, m2, cut_chunk, chunk_empty. cbn [_slices_to_download _active_chunks_feed _offset _end _start upd].
    rewrite Hinfo. cbn [default from_option id]. rewrite lookup_insert_eq. cbn [default from_option id _slices upd]. rewrite Hfresh.
    rewrite insert_insert_eq, union_empty_r_L. destruct (_ =? _); cbn; [by rewrite delete_insert_eq|done]. }
  rewrite E. clear E.
  assert (Hext : slices_ok (n * cs) (_offset ch + size) (_slices info')).
  { apply (slices_ok_extend _ (_offset ch)); [apply Ha|lia|lia|cbn; lia]. }
  assert (Hpend : pending (_slices info') = pending (_slices info) + (_offset ch + size - _offset ch)).
  { unfold info', pending. cbn [_slices]. rewrite msum_insert by done. cbn. lia. }
  assert (Hc2 : cm_core m2) by (eapply cut_core; try done; lia).
  assert (Hr2 : received m2 = received m1) by (by eapply received_cut).
  do 3 eexists. split; [reflexivity|]. split; [|split; [congruence|split; [exact Hfs|split; [intros Hfl; by apply (full_source_frame m1), Hfull|]]]].
  { destruct Hm1 as [_ Ht Hcomp]. split; [done|by rewrite Hr2|exact Hcomp]. }
  assert (Hold : forall k cid, (k, cid) <> (n, _offset ch) -> slice_of m2 k cid = slice_of m1 k cid).
  { intros k cid Hne. unfold slice_of, m2, cut_chunk, set_info. cbn [_slices_to_download upd].
    destruct (decide (k = n)) as [->|Hk]; [|by rewrite lookup_insert_ne].
    rewrite lookup_insert_eq, Hinfo. cbn [mbind option_bind info' _slices]. rewrite lookup_insert_ne by congruence. done. }
  exists n. split.
  - split; cbn [fc_offset fc_size fc_peer fc_id fc_ts].
    + exact Hn.
    + change (chunk_len m2 n) with (chunk_len m1 n). lia.
    + lia.
    + done.
    + change (state_at m1 n = Some CHUNK_ACTIVE). apply Hc. congruence.
    + unfold slice_of, m2, cut_chunk, set_info. cbn [_slices_to_download upd]. rewrite lookup_insert_eq.
      cbn [mbind option_bind info' _slices]. by rewrite lookup_insert_eq.
    + intros k cid Hne. by rewrite Hold, Hsl.
    + intros k cid sl Hs. rewrite <- Hsl in Hs. pose proof (slice_of_range m1 k cid sl Hc Hs) as (Hk & Hlo & _ & Hhi).
      pose proof (chunk_len_range m1 k (cm_shape _ Hc) Hk). destruct (decide (k = n)) as [->|Hkn].
      * left. unfold slice_of in Hs. rewrite Hinfo in Hs. cbn [mbind option_bind] in Hs.
        by destruct (sl_in _ _ _ (ac_slices _ _ _ _ Ha) cid sl Hs) as (_ & _ & ?).
      * unfold cs in *. change (1024 * 1024) with 1048576 in *. lia.
  - destruct Hwho as [Hwho|Hwho]; [right; by exists ch|left; exact Hwho].
Qed.

(** ** Giving up on a chunk *)

Definition drop_chunk (m : ChunkMap) (k : Z) : ChunkMap :=
  m <| _map := <[Z.to_nat k := CHUNK_OUTSTANDING]> (_map m) |>
    <| _active_chunks_feed := filter (fun y => _start y.2 <> k * cs) (_active_chunks_feed m) |>
    <| _slices_to_download := delete k (_slices_to_download m) |>.

Lemma drop_feed m k p c : _active_chunks_feed (drop_chunk m k) !! p = Some c <->
  _active_chunks_feed m !! p = Some c /\ _start c <> k * cs.
Proof. unfold drop_chunk. cbn [_active_chunks_feed upd]. by rewrite map_lookup_filter_Some. Qed.

Lemma drop_frame m k : 0 <= k < nb_chunks m ->
  nb_chunks (drop_chunk m k) = nb_chunks m /\
  (forall i, chunk_len (drop_chunk m k) i = chunk_len m i) /\
  (forall i, state_at (drop_chunk m k) i = if decide (i = k) then Some CHUNK_OUTSTANDING else state_at m i).
Proof.
  intros Hk. assert (Hn : nb_chunks (drop_chunk m k) = nb_chunks m)
    by (unfold nb_chunks; cbn [drop_chunk _map upd]; by rewrite length_insert).
  split; [done|]. split; [intros i; unfold chunk_len; by rewrite Hn|].
  destruct (set_state_spec m k CHUNK_OUTSTANDING Hk) as (m' & _ & -> & _ & Hs). exact Hs.
Qed.

Lemma drop_active m k n lim info : 0 <= k < nb_chunks m -> n <> k -> active_ok m n lim info ->
  active_ok (drop_chunk m k) n lim info.
Proof.
  intros Hk Hne [(L1 & L2 & L3) Hs Hr Hl]. destruct (drop_frame m k Hk) as (_ & El & _).
  split; rewrite ?El; try done. split; [by rewrite El|]. rewrite El. split.
  - intros q ch Hq. apply drop_feed in Hq as [Hq _]. by apply (L2 q).
  - intros Hlt. destruct (L3 Hlt) as (q & ch & Hq & Hst). exists q, ch. split; [|done]. apply drop_feed.
    split; [done|]. rewrite Hst. unfold cs. lia.
Qed.

Lemma drop_chunk_core m k info : cm_core m -> _slices_to_download m !! k = Some info -> cm_core (drop_chunk m k).
Proof.
  intros Hc Hk. pose proof (active_range m k Hc ltac:(congruence)) as Hr. destruct (drop_frame m k Hr) as (Hn & El & Est).
  pose proof Hc as [Hsh Hst Hac Hfe Hon Hso Hqu]. split.
  - apply (shape_frame m); [done|done|apply length_insert|done].
  - intros i. rewrite Est. cbn [drop_chunk _slices_to_download upd]. destruct (decide (i = k)) as [->|Hne].
    + rewrite lookup_delete_eq. naive_solver.
    + rewrite lookup_delete_ne by done. apply Hst.
  - intros n i Hi. cbn [drop_chunk _slices_to_download upd] in Hi. apply lookup_delete_Some in Hi as [Hne Hi].
    destruct (Hac n i Hi) as [lim Ha]. exists lim. by apply drop_active.
  - intros p ch Hp. apply drop_feed in Hp as [Hp Hs]. destruct (Hfe p ch Hp) as [n [F1 F2 F3 F4 F5]]. exists n.
    split; rewrite ?Hn, ?El; try done. cbn [drop_chunk _slices_to_download upd]. rewrite lookup_delete_ne; [done|].
    intros ->. by rewrite F2 in Hs.
  - intros p1 p2 c1 c2 H1 H2. apply drop_feed in H1 as [H1 _], H2 as [H2 _]. by apply (Hon p1 p2 c1 c2).
  - intros p i Hp. rewrite Hn. by eapply Hso.
  - rewrite Hn. exact Hqu.
Qed.

Lemma drop_chunk_received m k info : cm_core m -> _slices_to_download m !! k = Some info ->
  received (drop_chunk m k) = received m - (chunk_len m k - _remains info).
Proof.
  intros Hc Hk. rewrite (received_drop m k info CHUNK_OUTSTANDING) by done. rewrite decide_True by done. lia.
Qed.

(** One turn of the loop: the entry is still the one the iterator shows. *)
Lemma remove_one_ok m now k info l : cm_ok m -> _slices_to_download m !! k = Some info ->
  exists m' l', remove_one (Some (m, l)) now (k, info) = Some (m', l') /\ cm_ok m' /\ _file_size m' = _file_size m /\
    if INACTIVE_CHUNK_TIME_LAPSE <? now - _last_data_received info
    then l' = l ++ (fst <$> in_order (_slices info)) /\ state_at m' k = Some CHUNK_OUTSTANDING /\
         _slices_to_download m' = delete k (_slices_to_download m) /\
         received m' = received m - (chunk_len m k - _remains info)
    else m' = m /\ l' = l.
Proof.
  intros [Hc Ht Hcomp] Hk. unfold remove_one. cbn [mbind option_bind fst snd].
  destruct (_ <? _); [|exists m, l; split; [done|]; split; [by split|done]].
  pose proof (active_range m k Hc ltac:(congruence)) as Hr. pose proof (chunk_len_range m k (cm_shape _ Hc) Hr) as Hlen.
  destruct (shape_bounds m (cm_shape _ Hc)) as (Hnb & _). destruct (drop_frame m k Hr) as (_ & _ & Est).
  pose proof (cm_active_states _ Hc k info Hk) as [_ Hrem].
  destruct (set_state_spec m k CHUNK_OUTSTANDING Hr) as (m1 & -> & E1 & Hn1 & _). cbn [mbind option_bind]. cbv zeta.
  assert (Hsz : sizeOfChunk m1 k = chunk_len m k).
  { rewrite E1. rewrite sizeOfChunk_eq; [unfold chunk_len; rewrite <- Hn1, E1; done| |by rewrite <- E1, Hn1].
    apply (shape_frame m); [apply Hc|done|apply length_insert|done]. }
  assert (Hcs : u64 (_chunk_size m1 * k) = k * cs).
  { rewrite E1. cbn [_chunk_size upd]. rewrite (sh_cs _ (cm_shape _ Hc)), wrap_small; [lia|].
    unfold is_word, cs. change (1024 * 1024) with 1048576. lia. }
  pose proof (drop_chunk_core m k info Hc Hk) as Hdc. pose proof (drop_chunk_received m k info Hc Hk) as Hdr.
  pose proof (received_range _ (cm_shape _ Hdc) (cm_active_states _ Hdc)) as Hrr.
  pose proof (received_range _ (cm_shape _ Hc) (cm_active_states _ Hc)) as Hrm. pose proof (sh_size _ (cm_shape _ Hc)).
  set (tot := u64 (_total_downloaded m1 - u32 (sizeOfChunk m1 k - _remains info))).
  assert (Et : tot = received (drop_chunk m k)).
  { unfold tot. rewrite Hsz. rewrite (wrap_small 32) by (unfold is_word, cs in *; change (1024 * 1024) with 1048576 in *; lia).
    rewrite E1. cbn [_total_downloaded upd]. rewrite Ht, Hdr. apply wrap_small. unfold is_word. lia. }
  match goal with |- exists m' l', Some (?e, _) = _ /\ _ => assert (E : e = (drop_chunk m k) <| _total_downloaded := tot |>) end.
  { rewrite E1. unfold drop_chunk. cbn. rewrite E1 in Hcs. cbn [_chunk_size upd] in Hcs. rewrite Hcs.
    unfold tot. rewrite E1. done. }
  rewrite E. do 2 eexists. split; [reflexivity|]. split; [split|].
  - eapply core_frame; try done; apply Hdc.
  - cbn [_total_downloaded upd]. rewrite Et. symmetry. by apply received_frame.
  - intros Hf i Hi. change (_file_is_complete m = true) in Hf. specialize (Hcomp Hf k Hr).
    assert (state_at m k = Some CHUNK_ACTIVE) by (apply Hc; congruence). congruence.
  - split; [done|]. split; [done|]. split; [|split; [done|]].
    + change (state_at (drop_chunk m k) k = Some CHUNK_OUTSTANDING). rewrite Est. by rewrite decide_True.
    + rewrite <- Hdr. by apply received_frame.
Qed.

(** The slices given up: those of the chunks without data for an hour. *)
Definition stale (now : Z) (x : Z * ChunkDownloadInfo) : bool :=
  INACTIVE_CHUNK_TIME_LAPSE <? now - _last_data_received x.2.

Lemma removeInactiveChunks_loop now : forall xs m l, cm_ok m -> NoDup xs.*1 ->
  (forall x, x ∈ xs -> _slices_to_download m !! x.1 = Some x.2) ->
  exists m', foldl (fun acc x => remove_one acc now x) (Some (m, l)) xs =
    Some (m', l ++ (x ← filter (stale now) xs; fst <$> in_order (_slices x.2))) /\ cm_ok m' /\ _file_size m' = _file_size m /\
    (forall k, _slices_to_download m' !! k =
       if decide (k ∈ (filter (stale now) xs).*1) then None else _slices_to_download m !! k).
Proof.
  induction xs as [|[k info] xs IH]; intros m l Hm Hnd Hin.
  { exists m. rewrite app_nil_r. split; [done|]. split; [done|]. split; [done|]. intros k. by rewrite decide_False by apply not_elem_of_nil. }
  cbn [foldl]. apply NoDup_cons in Hnd as [Hk Hnd]. pose proof (Hin (k, info) ltac:(by left)) as Hki. cbn [fst snd] in Hki, Hk.
  destruct (remove_one_ok m now k info l Hm Hki) as (m1 & l1 & -> & Hm1 & Hfs & Hcase).
  assert (Hin1 : forall x, x ∈ xs -> _slices_to_download m !! x.1 = Some x.2) by (intros; apply Hin; by right).
  rewrite filter_cons. change (stale now (k, info)) with (INACTIVE_CHUNK_TIME_LAPSE <? now - _last_data_received info).
  destruct (INACTIVE_CHUNK_TIME_LAPSE <? _).
  - destruct Hcase as (-> & _ & Hsl & _). rewrite decide_True by done.
    destruct (IH m1 (l ++ (fst <$> in_order (_slices info))) Hm1 Hnd) as (m' & -> & Hok & Hfs' & Hslm).
    { intros x Hx. rewrite Hsl, lookup_delete_ne; [by apply Hin1|]. intros ->. apply Hk. by apply list_elem_of_fmap_2. }
    exists m'. split; [by rewrite <- app_assoc|]. split; [done|]. split; [congruence|]. intros j. rewrite Hslm.
    cbn [fmap list_fmap fst]. rewrite Hsl. destruct (decide (j = k)) as [->|Hjk].
    + rewrite lookup_delete_eq. rewrite (decide_True _ _ (list_elem_of_here _ _)). by destruct (decide _).
    + rewrite lookup_delete_ne by done.
      destruct (decide (j ∈ (filter (stale now) xs).*1)); [by rewrite decide_True by by right|].
      rewrite decide_False; [done|]. by intros [->|]%elem_of_cons.
  - destruct Hcase as [-> ->]. rewrite decide_False by (by intros []). by apply IH.
Qed.

Lemma removeInactiveChunks_ok m now : cm_ok m ->
  exists m' l, removeInactiveChunks m now = Some (m', l) /\ cm_ok m' /\ _file_size m' = _file_size m /\
    l = (x ← filter (stale now) (in_order (_slices_to_download m)); fst <$> in_order (_slices x.2)) /\
    (forall k info, _slices_to_download m !! k = Some info ->
       _slices_to_download m' !! k = if stale now (k, info) then None else Some info).
Proof.
  intros Hm. unfold removeInactiveChunks.
  destruct (removeInactiveChunks_loop now (in_order (_slices_to_download m)) m [] Hm (in_order_keys _)
    (fun x Hx => proj1 (elem_of_in_order _ x) Hx)) as (m' & E & Hok & Hfs & Hsl).
  exists m'. eexists. split; [exact E|]. split; [done|]. split; [done|]. split; [done|].
  intros k info Hk. rewrite Hsl, Hk. destruct (stale now (k, info)) eqn:Est.
  - rewrite decide_True; [done|]. apply list_elem_of_fmap. exists (k, info). split; [done|]. apply list_elem_of_filter.
    split; [by apply Is_true_true|]. by apply elem_of_in_order.
  - rewrite decide_False; [done|]. intros ([k' i'] & -> & Hx)%list_elem_of_fmap. apply list_elem_of_filter in Hx as [Hx Hi].
    apply elem_of_in_order in Hi. cbn [fst snd] in *. assert (i' = info) as -> by congruence. apply Is_true_true in Hx. congruence.
Qed.
