(* ===== verification/ChunkMapSafe.v ===== *)
(** * Downloads: what holds whatever is called and when

    The callers may start a check of the whole file, or load a bitmap, while slices are pending, and the books are then no
    longer right.  What remains in every state: the chunks looked up exist, for the slices, the chunks that feed the peers, and
    the bitmaps of the sources; so no operation reads or writes outside a vector. *)

From S2P Require Import Prelude ChunkMap ChunkMapProps ChunkMapRun.
From Stdlib Require Import ZArith Lia.
From stdpp Require Import base list gmap.
Open Scope Z_scope.

(** A chunk that feeds a peer is a chunk of the file, handed out up to a place inside it. *)
Definition feed_inside (m : ChunkMap) (ch : Chunk) : Prop :=
  exists n, 0 <= n < nb_chunks m /\ _start ch = n * cs /\ _end ch = n * cs + chunk_len m n /\ n * cs <= _offset ch < n * cs + chunk_len m n.

Record mem_ok (m : ChunkMap) : Prop := {
  mem_shape : shape_ok m;
  mem_slices : forall n, _slices_to_download m !! n <> None -> 0 <= n < nb_chunks m;
  mem_feed : forall p ch, _active_chunks_feed m !! p = Some ch -> feed_inside m ch;
  mem_sources : forall p i, _peers_chunks_availability m !! p = Some i -> source_ok m i
}.

Record same_dims (m m' : ChunkMap) : Prop := {
  dims_size : _file_size m' = _file_size m;
  dims_chunk : _chunk_size m' = _chunk_size m;
  dims_map : length (_map m') = length (_map m)
}.

#[export] Instance same_dims_preorder : PreOrder same_dims.
Proof. split; [done|]. intros x y z [] []. split; congruence. Qed.

(** The operation returns, in a state that is fit for the next. *)
Definition safe (m : ChunkMap) (r : option ChunkMap) : Prop := exists m', r = Some m' /\ mem_ok m' /\ same_dims m m'.

Lemma dims_nb m m' : same_dims m m' -> nb_chunks m' = nb_chunks m.
Proof. intros [_ _ E]. unfold nb_chunks. by rewrite E. Qed.

Lemma dims_len m m' i : same_dims m m' -> chunk_len m' i = chunk_len m i.
Proof. intros H. unfold chunk_len. by rewrite (dims_nb _ _ H), (dims_size _ _ H). Qed.

Lemma feed_inside_dims m m' ch : same_dims m m' -> feed_inside m ch -> feed_inside m' ch.
Proof. intros H (n & Hn). exists n. by rewrite (dims_nb _ _ H), (dims_len _ _ _ H). Qed.

Lemma source_ok_dims m m' i : same_dims m m' -> source_ok m i -> source_ok m' i.
Proof. intros H. unfold source_ok. by rewrite (dims_nb _ _ H). Qed.

(** New slices, feeds and sources have to be inside; those there were are. *)
Lemma mem_frame m m' : mem_ok m -> same_dims m m' ->
  (forall n, _slices_to_download m' !! n <> None -> _slices_to_download m !! n <> None \/ 0 <= n < nb_chunks m) ->
  (forall p ch, _active_chunks_feed m' !! p = Some ch -> _active_chunks_feed m !! p = Some ch \/ feed_inside m ch) ->
  (forall p i, _peers_chunks_availability m' !! p = Some i -> _peers_chunks_availability m !! p = Some i \/ source_ok m i) ->
  mem_ok m'.
Proof.
  intros Hm Hd Hs Hf Hp. split.
  - eapply shape_frame; [apply Hm|apply Hd..].
  - intros n Hn. rewrite (dims_nb _ _ Hd). destruct (Hs n Hn); [by apply Hm|done].
  - intros p ch H. apply (feed_inside_dims _ _ _ Hd). destruct (Hf p ch H); [by eapply Hm|done].
  - intros p i H. apply (source_ok_dims _ _ _ Hd). destruct (Hp p i H); [by eapply Hm|done].
Qed.

Lemma mem_same m m' : mem_ok m -> same_dims m m' -> _slices_to_download m' = _slices_to_download m ->
  _active_chunks_feed m' = _active_chunks_feed m -> _peers_chunks_availability m' = _peers_chunks_availability m -> mem_ok m'.
Proof. intros Hm Hd E1 E2 E3. apply (mem_frame m); [done|done|rewrite E1|rewrite E2|rewrite E3]; by left. Qed.

Create HintDb chunks.
#[export] Hint Extern 1 (same_dims ?m ?m) => reflexivity : chunks.
#[export] Hint Extern 2 (same_dims _ _) => (split; reflexivity) : chunks.
#[export] Hint Extern 3 (mem_ok _) => (eapply mem_same; [eassumption|split; reflexivity|reflexivity..]) : chunks.

Lemma safe_trans m m1 r : same_dims m m1 -> safe m1 r -> safe m r.
Proof. intros H (m2 & -> & Hm & Hd). exists m2. split; [done|]. split; [done|]. by etransitivity. Qed.

Lemma safe_foldl {A} (f : option ChunkMap -> A -> option ChunkMap) l : forall m,
  mem_ok m -> (forall m1 x, mem_ok m1 -> same_dims m m1 -> x ∈ l -> safe m1 (f (Some m1) x)) -> safe m (foldl f (Some m) l).
Proof.
  induction l as [|x l IH]; intros m Hm Hf; cbn [foldl]; [by exists m; auto with chunks|].
  destruct (Hf m x Hm ltac:(reflexivity) ltac:(by left)) as (m1 & -> & Hm1 & Hd). apply (safe_trans _ _ _ Hd). apply IH; [done|].
  intros m2 y Hm2 Hd2 Hy. apply Hf; [done|by etransitivity|by right].
Qed.

Lemma set_state_safe m i st : mem_ok m -> 0 <= i < nb_chunks m ->
  set_state m i st = Some (m <| _map := <[Z.to_nat i := st]> (_map m) |>) /\ mem_ok (m <| _map := <[Z.to_nat i := st]> (_map m) |>) /\
  same_dims m (m <| _map := <[Z.to_nat i := st]> (_map m) |>).
Proof.
  intros Hm Hi. destruct (set_state_spec m i st Hi) as (m' & E & -> & _). split; [done|].
  assert (Hd : same_dims m (m <| _map := <[Z.to_nat i := st]> (_map m) |>)) by (split; [done|done|apply length_insert]).
  split; [|done]. by eapply mem_same.
Qed.

(** ** The total *)

Lemma updateTotalDownloaded_safe m : mem_ok m -> safe m (updateTotalDownloaded m).
Proof.
  intros Hm. assert (Hret : is_Some (updateTotalDownloaded m)).
  { unfold updateTotalDownloaded. cbv zeta.
    match goal with |- context [foldl ?f (Some ?m0) (seq 0 ?n)] =>
      assert (H : safe m0 (foldl f (Some m0) (seq 0 n))) end.
    { apply safe_foldl; [auto with chunks|]. intros m1 i Hm1 Hd Hi. cbn [mbind option_bind].
      destruct (state_at_some m1 (Z.of_nat i)) as [st ->].
      { rewrite (dims_nb _ _ Hd). apply list_elem_of_In, in_seq in Hi. unfold nb_chunks in *. cbn in *. lia. }
      cbn [mbind option_bind]. eexists. split; [reflexivity|]. destruct st; auto with chunks. }
    destruct H as (m1 & E & Hm1 & Hd). rewrite E. cbn [mbind option_bind].
    match goal with |- is_Some (foldl ?f (Some m1) ?l) => enough (H2 : safe m1 (foldl f (Some m1) l)) by (by destruct H2 as (m2 & -> & _)) end.
    apply safe_foldl; [done|]. intros m2 [n info] Hm2 Hd2 Hx. apply elem_of_in_order in Hx. cbn [fst snd] in *. cbn [mbind option_bind].
    destruct (state_at_some m2 n) as [st ->].
    { rewrite (dims_nb _ _ Hd2). apply Hm1. congruence. }
    cbn [mbind option_bind]. eexists. split; [reflexivity|]. destruct (decide _); auto with chunks. }
  destruct Hret as [m' E]. exists m'. split; [done|]. apply updateTotal_frame in E as (t & b & ->). split; auto with chunks.
Qed.

Lemma forceCheck_safe m : mem_ok m -> safe m (forceCheck m).
Proof.
  intros Hm. unfold forceCheck. set (m1 := _ <| _chunks_checking_queue := _ |>).
  assert (Hd : same_dims m m1) by (split; [done|done|apply length_replicate]).
  apply (safe_trans _ m1 _ Hd), updateTotalDownloaded_safe. by eapply mem_same.
Qed.

(** ** Receiving, checking, giving up *)

Lemma shiftr5_le i j : 0 <= i <= j -> 0 <= Z.shiftr i 5 <= Z.shiftr j 5.
Proof. intros H. rewrite !Z.shiftr_div_pow2 by lia. split; [apply Z.div_pos; lia|apply Z.div_le_mono; lia]. Qed.

Lemma setAvailabilityMap_safe m map : mem_ok m -> safe m (setAvailabilityMap m map).
Proof.
  intros Hm. unfold setAvailabilityMap. destruct (Z.leb_spec (Z.of_nat (length map)) (Z.shiftr (nb_chunks m - 1) 5)) as [Hle|Hgt].
  { exists m. auto with chunks. }
  match goal with |- safe _ (foldl _ (Some ?m0) _) => set (m0' := m0) end.
  assert (Hd0 : same_dims m m0') by auto with chunks. apply (safe_trans _ _ _ Hd0), safe_foldl; [subst m0'; auto with chunks|].
  intros m1 i Hm1 Hd Hi. apply list_elem_of_In, in_seq in Hi.
  assert (Hr : 0 <= Z.of_nat i < nb_chunks m) by (unfold nb_chunks; lia).
  destruct (lookup_lt_is_Some_2 map (Z.to_nat (Z.shiftr (Z.of_nat i) 5))) as [w Hw].
  { pose proof (shiftr5_le (Z.of_nat i) (nb_chunks m - 1) ltac:(lia)). lia. }
  cbn [mbind option_bind]. unfold cmap_get. rewrite Hw. cbn [mbind option_bind].
  assert (Hr1 : 0 <= Z.of_nat i < nb_chunks m1) by (rewrite (dims_nb _ _ Hd), (dims_nb _ _ Hd0); done).
  destruct (0 <? _); [destruct (set_state_safe m1 _ CHUNK_DONE Hm1 Hr1) as (-> & Hm2 & Hd2)|
                      destruct (set_state_safe m1 _ CHUNK_OUTSTANDING Hm1 Hr1) as (-> & Hm2 & Hd2)];
    cbn [mbind option_bind]; (eexists; split; [reflexivity|]; split; [eapply mem_same; [exact Hm2|split; reflexivity|reflexivity..]|]);
    (etransitivity; [exact Hd2|split; reflexivity]).
Qed.

Lemma finish_chunk_safe m n : mem_ok m -> 0 <= n < nb_chunks m -> safe m (finish_chunk m n).
Proof.
  intros Hm Hn. destruct (finish_chunk_spec m n Hn) as (st & q & -> & _). destruct (set_state_safe m n st Hm Hn) as (_ & Hm1 & Hd).
  eexists. split; [reflexivity|]. split; [eapply mem_same; [exact Hm1|split; reflexivity|reflexivity..]|].
  etransitivity; [exact Hd|split; reflexivity].
Qed.

Lemma mem_key m z : mem_ok m -> _slices_to_download m !! u32 (sint32 z) <> None ->
  u32 (sint32 z) = sint32 z /\ 0 <= sint32 z < nb_chunks m.
Proof.
  intros Hm Hk. pose proof (mem_slices _ Hm _ Hk) as Hr. destruct (shape_bounds m (mem_shape _ Hm)) as (Hb & _).
  pose proof (sint32_range z) as Hs. set (y := sint32 _) in *.
  assert (E : u32 y = y).
  { destruct (decide (0 <= y)); [apply wrap_small; split; lia|].
    unfold wrap in Hr. rewrite <- (Z_mod_plus_full y 1), Z.mod_small in Hr by lia. lia. }
  split; [done|]. by rewrite E in Hr.
Qed.

Lemma set_info_mem m n i : mem_ok m -> 0 <= n < nb_chunks m -> mem_ok (set_info m n i) /\ same_dims m (set_info m n i).
Proof.
  intros Hm Hn. assert (Hd : same_dims m (set_info m n i)) by (split; reflexivity). split; [|done].
  apply (mem_frame m); [done|done| |by left|by left]. intros k. unfold set_info. cbn [_slices_to_download upd].
  destruct (decide (k = n)) as [->|Hne]; [by right|]. rewrite lookup_insert_ne by done. by left.
Qed.

Lemma delete_slices_mem m m' n : mem_ok m -> same_dims m m' -> _slices_to_download m' = delete n (_slices_to_download m) ->
  (forall p ch, _active_chunks_feed m' !! p = Some ch -> _active_chunks_feed m !! p = Some ch) ->
  _peers_chunks_availability m' = _peers_chunks_availability m -> mem_ok m'.
Proof.
  intros Hm Hd E1 E2 E3. apply (mem_frame m); [done|done| |by left; apply E2|rewrite E3; by left].
  intros k. rewrite E1. destruct (decide (k = n)) as [->|Hne]; [by rewrite lookup_delete_eq|]. rewrite lookup_delete_ne by done. by left.
Qed.

Lemma dataReceived_safe m cid now : mem_ok m -> safe m (dataReceived m cid now).
Proof.
  intros Hm. unfold dataReceived. cbv zeta. destruct (_slices_to_download m !! _) as [info|] eqn:Hk; [|exists m; auto with chunks].
  destruct (_slices info !! cid) as [sl|]; [|exists m; auto with chunks].
  destruct (mem_key m (cid / _chunk_size m) Hm ltac:(congruence)) as [Ek Hr]. rewrite Ek. set (n := sint32 _) in *.
  match goal with |- context [<[n := ?i]> _] => set (info' := i) end.
  match goal with |- context [finish_chunk ?x n] => set (m1 := x) end.
  assert (Hm0 : mem_ok (m <| _total_downloaded := u64 (_total_downloaded m + sr_size sl) |>)) by auto with chunks.
  destruct (set_info_mem _ n info' Hm0 Hr) as [Hm1 Hd1]. change (set_info _ n info') with m1 in *.
  assert (Hd : same_dims m m1) by (etransitivity; [|exact Hd1]; split; reflexivity).
  destruct (_remains info' =? 0); [|by exists m1].
  destruct (finish_chunk_safe m1 n Hm1) as (m2 & -> & Hm2 & Hd2); [by rewrite (dims_nb _ _ Hd)|]. cbn [mbind option_bind].
  match goal with |- safe _ (updateTotalDownloaded ?x) => set (m3 := x) end.
  assert (Hd3 : same_dims m m3) by (etransitivity; [exact Hd|]; etransitivity; [exact Hd2|]; split; reflexivity).
  apply (safe_trans _ _ _ Hd3), updateTotalDownloaded_safe.
  eapply (delete_slices_mem m2); [done|split; reflexivity|reflexivity|done|done].
Qed.

Lemma setChunkCheckingResult_safe m k ok : mem_ok m -> 0 <= k < nb_chunks m -> safe m (setChunkCheckingResult m k ok).
Proof.
  intros Hm Hk. unfold setChunkCheckingResult. destruct (state_at_some m k Hk) as [st ->]. cbn [mbind option_bind].
  destruct (negb _); [exists m; auto with chunks|]. destruct ok; cbv zeta.
  - destruct (set_state_safe m k CHUNK_DONE Hm Hk) as (-> & Hm1 & Hd). cbn [mbind option_bind]. eexists. split; [reflexivity|].
    split; [eapply mem_same; [exact Hm1|split; reflexivity|reflexivity..]|etransitivity; [exact Hd|split; reflexivity]].
  - set (m1 := m <| _total_downloaded := _ |>). assert (Hm1 : mem_ok m1) by (subst m1; auto with chunks).
    destruct (set_state_safe m1 k CHUNK_OUTSTANDING Hm1 Hk) as (-> & Hm2 & Hd). eexists. split; [reflexivity|]. split; [done|].
    etransitivity; [|exact Hd]. split; reflexivity.
Qed.

Lemma reAskPendingChunk_safe m p now : mem_ok m -> safe m (Some (reAskPendingChunk m p now).1).
Proof.
  intros Hm. unfold reAskPendingChunk. destruct (existsb _ _); [exists m; auto with chunks|].
  destruct (head _) as [[[c info] [off sl]]|] eqn:Eh; [|exists m; auto with chunks].
  apply head_Some_elem_of in Eh. apply list_elem_of_filter in Eh as [_ Hin].
  apply list_elem_of_bind in Hin as (x & Hin & Hx). apply list_elem_of_fmap in Hin as (y & Heq & Hy).
  injection Heq as <- <-. apply elem_of_in_order in Hx. cbn [fst snd] in Hx. cbv zeta. eexists. split; [reflexivity|].
  apply set_info_mem; [done|]. apply (mem_slices _ Hm). congruence.
Qed.

(** Drops the chunks it is told to, whichever they are. *)
Lemma removeInactive_loop now xs : forall m l, mem_ok m -> (forall x, x ∈ xs -> 0 <= x.1 < nb_chunks m) ->
  exists m' l', foldl (fun acc x => remove_one acc now x) (Some (m, l)) xs = Some (m', l') /\ mem_ok m' /\ same_dims m m'.
Proof.
  induction xs as [|[k info] xs IH]; intros m l Hm Hx; cbn [foldl]; [exists m, l; auto with chunks|].
  cbn [remove_one mbind option_bind]. cbv zeta. cbn [fst snd].
  destruct (_ <? _); [|apply IH; [done|intros x H; apply Hx; by right]].
  destruct (set_state_safe m k CHUNK_OUTSTANDING Hm (Hx (k, info) ltac:(by left))) as (-> & Hm1 & Hd1). cbn [mbind option_bind].
  match goal with |- context [Some (?x, ?y)] => set (m2 := x); set (l2 := y) end.
  assert (Hd : same_dims m m2) by (etransitivity; [exact Hd1|split; reflexivity]).
  assert (Hm2 : mem_ok m2).
  { eapply (delete_slices_mem _ m2 k Hm1); [split; reflexivity|reflexivity| |done]. intros p ch H.
    by apply map_lookup_filter_Some in H as [H _]. }
  destruct (IH m2 l2 Hm2) as (m' & l' & -> & Hm' & Hd').
  - intros x H. rewrite (dims_nb _ _ Hd). apply Hx. by right.
  - exists m', l'. split; [done|]. split; [done|]. by etransitivity.
Qed.

Lemma removeInactiveChunks_safe m now : mem_ok m -> safe m (fst <$> removeInactiveChunks m now).
Proof.
  intros Hm. unfold removeInactiveChunks. destruct (removeInactive_loop now (in_order (_slices_to_download m)) m [] Hm) as (m' & l & -> & H).
  - intros [k info] Hin. apply elem_of_in_order in Hin. cbn in *. apply (mem_slices _ Hm). congruence.
  - exists m'. split; [done|]. exact H.
Qed.

Lemma setPeerAvailabilityMap_safe m p c now : mem_ok m -> safe m (setPeerAvailabilityMap m p c now).
Proof.
  intros Hm. unfold setPeerAvailabilityMap. rewrite size_test by (unfold nb_chunks; lia).
  destruct (Z.eqb_spec (Z.of_nat (length c)) (getCompressedSize (nb_chunks m))) as [E|E]; cbn [negb]; [|exists m; auto with chunks].
  destruct (full_scan m c E) as (b & -> & _). cbn [mbind option_bind]. eexists. split; [reflexivity|].
  assert (Hd : forall l, same_dims m (m <| _peers_chunks_availability := l |>)) by (split; reflexivity). split; [|apply Hd].
  apply (mem_frame m); [done|apply Hd|by left|by left|]. intros q i. cbn [_peers_chunks_availability upd].
  destruct (decide (p = q)) as [->|Hne]; [rewrite lookup_insert_eq; intros [= <-]; by right|rewrite lookup_insert_ne by done; by left].
Qed.

Lemma removeFileSource_safe m p : mem_ok m -> safe m (Some (removeFileSource m p)).
Proof.
  intros Hm. eexists. split; [reflexivity|].
  assert (Hd : same_dims m (removeFileSource m p)) by (split; reflexivity). split; [|exact Hd].
  apply (mem_frame m); [done|exact Hd|by left|by left|]. intros q i H. left. cbn in H. by apply lookup_delete_Some in H as [_ H].
Qed.

(** ** Handing out *)

Lemma set_source_mem m p i : mem_ok m -> source_ok m i -> mem_ok (set_source m p i) /\ same_dims m (set_source m p i).
Proof.
  intros Hm Hi. assert (Hd : same_dims m (set_source m p i)) by (split; reflexivity). split; [|exact Hd].
  apply (mem_frame m); [done|exact Hd|by left|by left|]. intros q j. unfold set_source. cbn [_peers_chunks_availability upd].
  destruct (decide (p = q)) as [->|Hne]; [rewrite lookup_insert_eq; intros [= <-]; by right|rewrite lookup_insert_ne by done; by left].
Qed.

(** The same chunks feed the same peers. *)
Definition kept_feed (m m' : ChunkMap) : Prop := mem_ok m' /\ same_dims m m' /\ _active_chunks_feed m' = _active_chunks_feed m.

Lemma kept_feed_refl m : mem_ok m -> kept_feed m m.
Proof. intros Hm. split; [done|]. by split. Qed.

Lemma kept_feed_trans m1 m2 m3 : kept_feed m1 m2 -> kept_feed m2 m3 -> kept_feed m1 m3.
Proof. intros (_ & D1 & E1) (H & D2 & E2). split; [done|]. split; [by etransitivity|congruence]. Qed.

Lemma getSourceChunksInfo_mem m p : mem_ok m ->
  kept_feed m (getSourceChunksInfo m p).1 /\ source_ok m (getSourceChunksInfo m p).2.
Proof.
  intros Hm. unfold getSourceChunksInfo. destruct (_peers_chunks_availability m !! p) as [i|] eqn:E.
  - split; [by apply kept_feed_refl|]. by eapply mem_sources.
  - cbv zeta. cbn [fst snd]. set (i := mk_SourceChunksInfo _ _ _).
    assert (Hi : source_ok m i).
    { unfold source_ok, i. cbn [sc_cmap]. rewrite length_replicate, compressed_size_spec by (unfold nb_chunks; lia).
      assert (0 <= (nb_chunks m + 31) / 32) by (apply Z.div_pos; unfold nb_chunks; lia). lia. }
    split; [|done]. destruct (set_source_mem m p i Hm Hi) as [H1 H2]. by split.
Qed.

Lemma getAvailableChunk_mem m p now rnd : mem_ok m ->
  exists m' c needed, getAvailableChunk m p now rnd = Some (m', c, needed) /\ kept_feed m m' /\ (c = nb_chunks m \/ 0 <= c < nb_chunks m).
Proof.
  intros Hm. unfold getAvailableChunk. destruct (getSourceChunksInfo_mem m p Hm) as [Hk Hi].
  destruct (getSourceChunksInfo m p) as [m1 i]. cbn [fst snd] in *. cbv zeta. destruct Hk as (Hm1 & Hd1 & Hf1).
  match goal with |- context [<[p := ?j]> _] => set (i' := j) end.
  assert (Hi' : source_ok m1 i') by (apply (source_ok_dims _ _ _ Hd1); subst i'; by destruct (_ && _)).
  change (m1 <| _peers_chunks_availability := <[p := i']> (_peers_chunks_availability m1) |>) with (set_source m1 p i').
  destruct (set_source_mem m1 p i' Hm1 Hi') as [Hm2 Hd2]. set (m2 := set_source m1 p i') in *.
  assert (Hk2 : kept_feed m m2) by (split; [done|]; split; [by etransitivity|exact Hf1]).
  assert (Hn : nb_chunks m2 = nb_chunks m) by apply dims_nb, Hk2.
  destruct (pick_chunk m2 i' rnd (mem_shape _ Hm2) (source_ok_dims _ _ _ Hd2 Hi')) as (avail & before & -> & Hpick).
  cbn [mbind option_bind]. destruct Hpick as [(Hpos & c & Hc & Hst & _)|(Hpos & _)].
  - apply Z.ltb_lt in Hpos as ->. unfold chosen_index in Hc. rewrite Hc. cbn [mbind option_bind].
    do 3 eexists. split; [reflexivity|]. split; [done|]. right. rewrite <- Hn. by eapply state_at_range.
  - replace (0 <? avail) with false by (symmetry; apply Z.ltb_ge; lia).
    do 3 eexists. split; [reflexivity|]. split; [done|]. by left.
Qed.

Lemma chunk_number m n off : mem_ok m -> 0 <= n < nb_chunks m -> n * cs <= off < n * cs + chunk_len m n -> u32 (off / _chunk_size m) = n.
Proof.
  intros Hm Hn Ho. rewrite (sh_cs _ (mem_shape _ Hm)). destruct (shape_bounds m (mem_shape _ Hm)) as (Hb & _).
  pose proof (chunk_len_range m n (mem_shape _ Hm) Hn).
  replace (off / cs) with n by (apply Z.div_unique with (off - n * cs); unfold cs in *; lia). apply wrap_small. unfold is_word. lia.
Qed.

Lemma share_loop_mem sci hint feed : forall m failsafe, mem_ok m -> source_ok m sci ->
  (forall x, x ∈ feed -> _active_chunks_feed m !! x.1 = Some x.2) -> (forall q, failsafe = Some q -> is_Some (_active_chunks_feed m !! q)) ->
  exists m' it fs, share_loop feed m sci hint failsafe = Some (m', it, fs) /\ kept_feed m m' /\
    (forall q, it = Some q -> is_Some (_active_chunks_feed m !! q)) /\ (forall q, fs = Some q -> is_Some (_active_chunks_feed m !! q)).
Proof.
  induction feed as [|[p ch] feed IH]; intros m failsafe Hm Hs Hin Hfs; cbn [share_loop].
  { exists m, None, failsafe. split; [done|]. split; [by apply kept_feed_refl|]. by split. }
  cbv zeta. pose proof (Hin (p, ch) ltac:(by left)) as Hp. cbn [fst snd] in Hp.
  destruct (mem_feed _ Hm _ _ Hp) as (n & Hn & Est & _ & Ho).
  rewrite (chunk_number m n (_start ch) Hm Hn) by (pose proof (chunk_len_range m n (mem_shape _ Hm) Hn); lia).
  destruct (has_chunk_total m sci n Hs Hn) as [have ->]. cbn [mbind option_bind].
  assert (Hin' : forall x, x ∈ feed -> _active_chunks_feed m !! x.1 = Some x.2) by (intros; apply Hin; by right).
  destruct have; cbn [negb]; [|by apply IH].
  destruct (set_info_mem m n (info_at m n) Hm Hn) as [Hm1 Hd1]. set (m1 := set_info m n (info_at m n)) in *.
  assert (Hk1 : kept_feed m m1) by by split.
  assert (Hp1 : forall q, Some p = Some q -> is_Some (_active_chunks_feed m1 !! q)) by (intros q [= <-]; by exists ch).
  assert (Hrec : exists m' it fs, share_loop feed m1 sci hint (Some p) = Some (m', it, fs) /\ kept_feed m m' /\
    (forall q, it = Some q -> is_Some (_active_chunks_feed m !! q)) /\ (forall q, fs = Some q -> is_Some (_active_chunks_feed m !! q))).
  { destruct (IH m1 (Some p) Hm1 (source_ok_dims _ _ _ Hd1 Hs) Hin' Hp1) as (m' & it & fs & E & Hk & H).
    exists m', it, fs. split; [done|]. split; [by eapply kept_feed_trans|exact H]. }
  destruct (last _) as [[off sl]|]; [|exact Hrec]. destruct (slow_enough _ _); [|exact Hrec].
  exists m1, (Some p), (Some p). by split.
Qed.

Lemma find_chunk_mem m p hint now rnd needed : mem_ok m ->
  exists m' it nd, find_chunk m p hint now rnd needed = Some (m', it, nd) /\ mem_ok m' /\ same_dims m m' /\
    forall q, it = Some q -> is_Some (_active_chunks_feed m' !! q).
Proof.
  intros Hm. unfold find_chunk. destruct (_active_chunks_feed m !! p) as [ch|] eqn:Hp.
  { exists m, (Some p), needed. split; [done|]. split; [done|]. split; [done|]. intros q [= <-]. by exists ch. }
  destruct (getSourceChunksInfo_mem m p Hm) as [Hk1 Hi]. destruct (getSourceChunksInfo m p) as [m1 sci]. cbn [fst snd] in *.
  pose proof Hk1 as (Hm1 & Hd1 & Hf1).
  destruct (share_loop_mem sci hint (in_order (_active_chunks_feed m1)) m1 None Hm1 (source_ok_dims _ _ _ Hd1 Hi)) as
    (m2 & it & fs & -> & Hk2 & Hit & Hfs); [intros [q c] H; by apply elem_of_in_order in H|done|]. cbn [mbind option_bind].
  pose proof (kept_feed_trans _ _ _ Hk1 Hk2) as (Hm2 & Hd2 & Hf2). destruct Hk2 as (_ & _ & Hf12).
  destruct it as [it|].
  { exists m2, (Some it), needed. split; [done|]. split; [done|]. split; [done|]. intros q E. rewrite Hf12. by apply Hit. }
  destruct (getAvailableChunk_mem m2 p now rnd Hm2) as (m3 & c & nd & -> & (Hm3 & Hd3 & Hf3) & Hc). cbn [mbind option_bind].
  assert (Hd : same_dims m m3) by by etransitivity. rewrite <- (dims_nb _ _ Hd3) in Hc.
  destruct (Z.leb_spec (nb_chunks m3) c) as [Hle|Hgt].
  { exists m3, fs, nd. split; [done|]. split; [done|]. split; [done|]. intros q E. rewrite Hf3, Hf12. by apply Hfs. }
  cbv zeta. assert (Hr : 0 <= c < nb_chunks m3) by lia. rewrite (sizeOfChunk_eq m3 c (mem_shape _ Hm3) Hr), (sh_cs _ (mem_shape _ Hm3)).
  pose proof (chunk_len_range m3 c (mem_shape _ Hm3) Hr) as Hlen. destruct (shape_bounds m3 (mem_shape _ Hm3)) as (Hb & _).
  match goal with |- context [set_state ?x c _] => set (m4 := x) end.
  assert (Hd4 : same_dims m3 m4) by (split; reflexivity).
  assert (Hm4 : mem_ok m4).
  { apply (mem_frame m3); [done|done|by left| |by left]. intros q ch. unfold m4. cbn [_active_chunks_feed upd].
    destruct (decide (p = q)) as [->|Hne]; [rewrite lookup_insert_eq; intros [= <-]|rewrite lookup_insert_ne by done; by left].
    right. exists c. split; [done|]. unfold new_Chunk. cbn [_start _end _offset]. split; [done|].
    split; [|lia]. rewrite wrap_small; [lia|]. unfold is_word, cs in *. change (1024 * 1024) with 1048576 in *. lia. }
  assert (Hr4 : 0 <= c < nb_chunks m4) by (by rewrite (dims_nb _ _ Hd4)).
  destruct (set_state_safe m4 c CHUNK_ACTIVE Hm4 Hr4) as (-> & Hm5 & Hd5). cbn [mbind option_bind].
  match goal with |- context [set_info ?x c ?i] => destruct (set_info_mem x c i Hm5) as [Hm6 Hd6]; [by rewrite (dims_nb _ _ Hd5)|] end.
  do 3 eexists. split; [reflexivity|]. split; [exact Hm6|]. split.
  - etransitivity; [exact Hd|]. etransitivity; [exact Hd4|]. etransitivity; [exact Hd5|exact Hd6].
  - intros q [= <-]. exists (new_Chunk (c * cs) (chunk_len m3 c)). apply lookup_insert_eq.
Qed.

Lemma getDataChunk_safe m p hint now rnd needed : mem_ok m -> 0 <= hint ->
  safe m (fst ∘ fst <$> getDataChunk m p hint now rnd needed).
Proof.
  intros Hm Hh. unfold getDataChunk. destruct (find_chunk_mem m p hint now rnd needed Hm) as (m1 & it & nd & -> & Hm1 & Hd1 & Hit).
  cbn [mbind option_bind]. destruct it as [it|]; [|by exists m1]. destruct (Hit it eq_refl) as [ch Hch]. rewrite Hch. cbn [mbind option_bind].
  destruct (mem_feed _ Hm1 _ _ Hch) as (n & Hn & Est & Een & Ho). unfold getSlice. cbv zeta. cbn [fc_offset fc_size fc_id fc_ts].
  pose proof (chunk_len_range m1 n (mem_shape _ Hm1) Hn) as Hlen. destruct (shape_bounds m1 (mem_shape _ Hm1)) as (Hb & _).
  rewrite (wrap_small 32 (_end ch - _offset ch)) by (unfold is_word, cs in *; change (1024 * 1024) with 1048576 in *; lia).
  set (size := Z.min hint (_end ch - _offset ch)). assert (Hsz : 0 <= size <= _end ch - _offset ch) by (unfold size; lia).
  rewrite (wrap_small 64 (_offset ch + size)) by (unfold is_word, cs in *; change (1024 * 1024) with 1048576 in *; lia).
  set (ch' := ch <| _offset := _offset ch + size |>).
  change (_chunk_size (m1 <| _active_chunks_feed := <[it := ch']> (_active_chunks_feed m1) |>)) with (_chunk_size m1).
  rewrite (chunk_number m1 n (_offset ch) Hm1 Hn Ho).
  cbn [mbind option_bind fmap option_fmap option_map].
  set (f' := if chunk_empty ch' then delete it (<[it := ch']> (_active_chunks_feed m1)) else <[it := ch']> (_active_chunks_feed m1)).
  match goal with |- safe _ (Some ?x) => set (m2 := x) end.
  assert (Em : exists i1 i2, m2 = set_info (set_info (m1 <| _active_chunks_feed := f' |>) n i1) n i2).
  { subst m2 f'. destruct (chunk_empty ch'); do 2 eexists; reflexivity. }
  destruct Em as (i1 & i2 & ->). set (m3 := m1 <| _active_chunks_feed := f' |>).
  assert (Hd3 : same_dims m1 m3) by (split; reflexivity).
  assert (Hm3 : mem_ok m3).
  { apply (mem_frame m1); [done|done|by left| |by left]. intros q c. unfold m3, f'. cbn [_active_chunks_feed upd].
    destruct (decide (it = q)) as [->|Hne].
    - destruct (chunk_empty ch') eqn:Ee; [by rewrite lookup_delete_eq|]. rewrite lookup_insert_eq. intros [= <-]. right.
      exists n. split; [done|]. split; [done|]. split; [done|]. unfold chunk_empty, ch' in *. cbn [_offset _end upd] in *.
      apply Z.eqb_neq in Ee. lia.
    - intros H. left. destruct (chunk_empty ch'); by rewrite ?lookup_delete_ne, lookup_insert_ne in H. }
  assert (Hn3 : 0 <= n < nb_chunks m3) by (by rewrite (dims_nb _ _ Hd3)).
  destruct (set_info_mem m3 n i1 Hm3 Hn3) as [Hm4 Hd4].
  destruct (set_info_mem (set_info m3 n i1) n i2 Hm4) as [Hm5 Hd5]; [by rewrite (dims_nb _ _ Hd4)|].
  eexists. split; [reflexivity|]. split; [exact Hm5|].
  etransitivity; [exact Hd1|]. etransitivity; [exact Hd3|]. etransitivity; [exact Hd4|exact Hd5].
Qed.
