(* ===== verification/Download.v ===== *)
(** * Running a download

    Bitmaps, restarting a map, the operations of [ChunkMap] as one step function, and the
    properties of a whole download. *)

From S2P Require Import Prelude ChunkMap ChunkMapProps ChunkMapRun ChunkMapSafe.
From Stdlib Require Import ZArith Lia SpecFloat.
From stdpp Require Import base list gmap sorting.
Open Scope Z_scope.

(** ** Bitmaps *)

Lemma land_bit w k : 0 <= k -> (0 <? Z.land w (Z.shiftl 1 k)) = Z.testbit w k.
Proof.
  intros Hk. rewrite Z.shiftl_1_l. assert (E : Z.land w (2 ^ k) = if Z.testbit w k then 2 ^ k else 0).
  { apply Z.bits_inj'. intros i Hi. rewrite Z.land_spec, Z.pow2_bits_eqb by done.
    destruct (Z.eqb_spec k i) as [->|Hne].
    - destruct (Z.testbit w i) eqn:Ew; [by rewrite Z.pow2_bits_true|by rewrite Z.bits_0].
    - rewrite andb_false_r. destruct (Z.testbit w k); [by rewrite Z.pow2_bits_false|by rewrite Z.bits_0]. }
  rewrite E. destruct (Z.testbit w k); [|done]. apply Z.ltb_lt. by apply Z.pow_pos_nonneg.
Qed.

Lemma chunk_index i : 0 <= i -> i = 32 * Z.shiftr i 5 + Z.land i 31 /\ 0 <= Z.shiftr i 5 /\ 0 <= Z.land i 31 < 32.
Proof.
  intros Hi. rewrite Z.shiftr_div_pow2 by lia. change 31 with (Z.ones 5). rewrite Z.land_ones by lia.
  change (2 ^ 5) with 32. pose proof (Z.div_mod i 32 ltac:(lia)). pose proof (Z.mod_pos_bound i 32 ltac:(lia)).
  pose proof (Z.div_pos i 32 Hi ltac:(lia)). lia.
Qed.

Lemma cmap_set_spec (c : CompressedChunkMap) j : 0 <= j < 32 * Z.of_nat (length c) ->
  exists c', cmap_set c j = Some c' /\ length c' = length c /\
    forall i, 0 <= i -> cmap_get c' i = if decide (i = j) then Some true else cmap_get c i.
Proof.
  intros Hj. destruct (chunk_index j ltac:(lia)) as (Ej & Hq & Hr). unfold cmap_set.
  destruct (lookup_lt_is_Some_2 c (Z.to_nat (Z.shiftr j 5))) as [w Ew]; [lia|]. rewrite Ew. cbn [mbind option_bind].
  eexists. split; [reflexivity|]. split; [apply length_insert|]. intros i Hi.
  destruct (chunk_index i Hi) as (Ei & Hqi & Hri). unfold cmap_get.
  destruct (decide (Z.shiftr i 5 = Z.shiftr j 5)) as [E|E].
  - rewrite E, list_lookup_insert_eq by (apply lookup_lt_Some in Ew; lia). rewrite Ew. cbn [mbind option_bind].
    rewrite !land_bit, Z.lor_spec, Z.shiftl_1_l, Z.pow2_bits_eqb by lia.
    destruct (decide (i = j)) as [->|Hne]; [by rewrite Z.eqb_refl, orb_true_r|].
    destruct (Z.eqb_spec (Z.land j 31) (Z.land i 31)); [lia|by rewrite orb_false_r].
  - rewrite decide_False by congruence. by rewrite list_lookup_insert_ne by lia.
Qed.

(** The words of a bitmap are enough for its chunks. *)
Lemma compressed_size_words n : 0 <= n -> n <= 32 * getCompressedSize n.
Proof.
  intros Hn. rewrite compressed_size_spec by lia. pose proof (Z.div_mod (n + 31) 32 ltac:(lia)).
  pose proof (Z.mod_pos_bound (n + 31) 32 ltac:(lia)). lia.
Qed.

Lemma compressed_size_nonneg n : 0 <= n -> 0 <= getCompressedSize n.
Proof. intros Hn. rewrite compressed_size_spec by lia. apply Z.div_pos; lia. Qed.

Lemma cmap_of_spec states :
  exists c, cmap_of states = Some c /\ Z.of_nat (length c) = getCompressedSize (Z.of_nat (length states)) /\
    forall i, 0 <= i < Z.of_nat (length states) -> cmap_get c i = Some (bool_decide (states !! Z.to_nat i = Some CHUNK_DONE)).
Proof.
  unfold cmap_of. set (len := length states). set (sz := Z.to_nat _).
  assert (Esz : Z.of_nat sz = getCompressedSize (Z.of_nat len)) by (unfold sz; pose proof (compressed_size_nonneg (Z.of_nat len)); lia).
  match goal with |- context [foldl ?f _ _] => set (step := f) end.
  assert (G : forall l, exists c, (length l <= len)%nat -> foldl step (Some (replicate sz 0)) (imap pair l) = Some c /\
     length c = sz /\ forall i, 0 <= i < 32 * Z.of_nat sz -> cmap_get c i = Some (bool_decide (l !! Z.to_nat i = Some CHUNK_DONE))).
  { induction l as [|st l IH] using rev_ind.
    - exists (replicate sz 0). intros _. split; [done|]. split; [apply length_replicate|]. intros i Hi.
      destruct (chunk_index i ltac:(lia)) as (Ei & Hq & Hr). unfold cmap_get. rewrite lookup_replicate_2 by lia.
      cbn [mbind option_bind]. by rewrite land_bit, Z.bits_0 by lia.
    - destruct IH as [c Hc]. destruct (decide (length l < len)%nat) as [Hlt|Hge];
        [|exists c; rewrite length_app; cbn [length]; lia].
      destruct (Hc ltac:(lia)) as (E & Hl & Hg). rewrite imap_app, foldl_app, E. cbn [imap foldl].
      unfold step at 1. cbn [mbind option_bind fst snd Nat.add]. rewrite Nat.add_0_r.
      assert (Hn : 0 <= Z.of_nat (length l) < 32 * Z.of_nat (length c))
        by (rewrite Hl; pose proof (compressed_size_words (Z.of_nat len)); lia).
      assert (Hst : forall i, 0 <= i -> (l ++ [st]) !! Z.to_nat i = if decide (i = Z.of_nat (length l)) then Some st else l !! Z.to_nat i).
      { intros i Hi. destruct (decide (i = Z.of_nat (length l))) as [->|Hne].
        - rewrite Nat2Z.id. by apply list_lookup_middle.
        - destruct (decide (i < Z.of_nat (length l))); [by rewrite lookup_app_l by lia|].
          rewrite !lookup_ge_None_2; [done|lia|rewrite length_app; cbn [length]; lia]. }
      destruct (decide (st = CHUNK_DONE)) as [->|Hne].
      + destruct (cmap_set_spec c _ Hn) as (c' & -> & Hl' & Hg'). exists c'. intros _. split; [done|]. split; [lia|].
        intros i Hi. rewrite Hg', Hst by lia. destruct (decide _); [by rewrite bool_decide_true|by apply Hg].
      + exists c. intros _. split; [done|]. split; [done|]. intros i Hi. rewrite Hst by lia.
        destruct (decide (i = _)) as [->|]; [|by apply Hg]. rewrite Hg, !bool_decide_false; [done|congruence| |lia].
        rewrite lookup_ge_None_2 by lia. done. }
  destruct (G states) as [c Hc]. destruct (Hc ltac:(unfold len; lia)) as (-> & Hl & Hg). exists c.
  split; [done|]. split; [by rewrite Hl|]. intros i Hi. apply Hg. pose proof (compressed_size_words (Z.of_nat len)). lia.
Qed.

(** ** Starting and restarting *)

(** Nothing is under way. *)
Definition idle (m : ChunkMap) : Prop := _slices_to_download m = ∅.

#[export] Instance idle_dec m : Decision (idle m).
Proof. unfold idle. destruct (decide (map_to_list (_slices_to_download m) = [])) as [E|E].
  - left. by apply map_to_list_empty_iff.
  - right. intros H. by apply E, map_to_list_empty_iff. Defined.

Lemma idle_no_feed m p : cm_core m -> idle m -> _active_chunks_feed m !! p = None.
Proof.
  intros Hc Hi. destruct (_active_chunks_feed m !! p) as [ch|] eqn:E; [|done].
  destruct (cm_feed _ Hc p ch E) as [n [_ _ _ _ Hn]]. rewrite Hi in Hn. by rewrite lookup_empty in Hn.
Qed.

(** A map whose chunks were all overwritten while nothing was under way. *)
Lemma idle_core m m' : cm_core m -> idle m ->
  _file_size m' = _file_size m -> _chunk_size m' = _chunk_size m -> length (_map m') = length (_map m) ->
  _active_chunks_feed m' = _active_chunks_feed m -> _slices_to_download m' = _slices_to_download m ->
  _peers_chunks_availability m' = _peers_chunks_availability m ->
  (forall i, state_at m' i <> Some CHUNK_ACTIVE) ->
  Forall (fun i => 0 <= i < nb_chunks m) (_chunks_checking_queue m') -> cm_core m'.
Proof.
  intros Hc Hi E1 E2 E3 E4 E5 E6 Hst Hqu.
  assert (En : nb_chunks m' = nb_chunks m) by (unfold nb_chunks; by rewrite E3). split.
  - by apply (shape_frame m); [apply Hc|..].
  - intros i. rewrite E5, Hi, lookup_empty. split; [by intros ?%Hst|done].
  - intros n info. by rewrite E5, Hi, lookup_empty.
  - intros p ch. by rewrite E4, idle_no_feed.
  - intros p1 p2 c1 c2. by rewrite E4, idle_no_feed.
  - intros p i. rewrite E6, En. apply Hc.
  - by rewrite En.
Qed.

Lemma new_ChunkMap_ok s a : 0 <= s < 2 ^ 51 -> cm_ok (new_ChunkMap s a) /\ idle (new_ChunkMap s a) /\
  received (new_ChunkMap s a) = 0 /\ forall i, 0 <= i < nb_chunks (new_ChunkMap s a) -> state_at (new_ChunkMap s a) i = Some CHUNK_OUTSTANDING.
Proof.
  intros Hs. set (m := new_ChunkMap s a).
  assert (Hn : nb_chunks m = (s + (cs - 1)) / cs).
  { unfold nb_chunks. cbn [m new_ChunkMap _map]. unfold m, new_ChunkMap. cbn [_map]. rewrite length_replicate.
    unfold cs. change (1024 * 1024) with 1048576. pose proof (Z.div_mod s 1048576 ltac:(lia)).
    pose proof (Z.mod_pos_bound s 1048576 ltac:(lia)). pose proof (Z.div_pos s 1048576 ltac:(lia) ltac:(lia)).
    pose proof (Z.div_mod (s + (1048576 - 1)) 1048576 ltac:(lia)). pose proof (Z.mod_pos_bound (s + (1048576 - 1)) 1048576 ltac:(lia)).
    destruct (Z.eqb_spec (s mod 1048576) 0); lia. }
  assert (Hst : forall i st, state_at m i = Some st -> st = CHUNK_OUTSTANDING).
  { intros i st. unfold state_at. destruct (i <? 0); [done|]. unfold m, new_ChunkMap. cbn [_map].
    intros H. by apply lookup_replicate in H as [-> _]. }
  assert (Hc : cm_core m).
  { split; try (intros *; unfold m, new_ChunkMap; cbn [_slices_to_download _active_chunks_feed _peers_chunks_availability]; by rewrite lookup_empty).
    - split; [done|done|exact Hn].
    - intros i. unfold m at 2. unfold new_ChunkMap. cbn [_slices_to_download]. rewrite lookup_empty.
      split; [by intros ?%Hst|done].
    - by constructor. }
  assert (Hrec : received m = 0).
  { unfold received. transitivity (nsum (fun _ => 0) (length (_map m))); [|apply nsum_zero]. apply nsum_ext.
    intros i _. unfold contribution. destruct (state_at m i) eqn:E; [|done]. by rewrite (Hst i c E). }
  split; [|split; [done|split; [done|]]].
  - split; [done|by rewrite Hrec|done].
  - intros i Hi. destruct (state_at_some m i Hi) as [st E]. by rewrite E, (Hst i st E).
Qed.

Lemma forceCheck_ok m : cm_ok m -> idle m ->
  exists m', forceCheck m = Some m' /\ cm_ok m' /\ idle m' /\ _file_size m' = _file_size m /\
    _total_downloaded m' = _file_size m /\
    (forall i, 0 <= i < nb_chunks m -> state_at m' i = Some CHUNK_CHECKING /\ i ∈ _chunks_checking_queue m').
Proof.
  intros [Hc _ _] Hi. unfold forceCheck. set (m1 := _ <| _chunks_checking_queue := _ |>).
  assert (Hst : forall i, state_at m1 i = if decide (0 <= i < nb_chunks m) then Some CHUNK_CHECKING else None).
  { intros i. unfold state_at, m1, nb_chunks. cbn [_map upd]. destruct (Z.ltb_spec i 0); [by rewrite decide_False by lia|].
    destruct (decide _); [by apply lookup_replicate_2; lia|]. apply lookup_ge_None_2. rewrite length_replicate. lia. }
  assert (Hc1 : cm_core m1).
  { apply (idle_core m); try done; [apply length_replicate| |].
    - intros i. rewrite Hst. by destruct (decide _).
    - unfold m1. cbn [_chunks_checking_queue upd]. apply Forall_app. split; [apply Hc|]. apply Forall_fmap, Forall_forall.
      intros k Hk. apply list_elem_of_In, in_seq in Hk. unfold nb_chunks. cbn. lia. }
  destruct (updateTotal_ok m1 Hc1) as (m' & -> & Hok & Hrec & Em'). exists m'. split; [done|]. split; [done|].
  split; [by rewrite Em'|]. split; [by rewrite Em'|]. split.
  - rewrite (cm_total _ Hok), Hrec, <- (chunk_lens_sum m (cm_shape _ Hc)). unfold received.
    replace (length (_map m1)) with (length (_map m)) by (unfold m1; cbn [_map upd]; by rewrite length_replicate).
    apply nsum_ext. intros i Hr. unfold contribution. rewrite Hst, decide_True by done.
    unfold chunk_len, nb_chunks, m1. cbn [_map _file_size upd]. by rewrite length_replicate.
  - intros i Hr. rewrite Em'. split.
    + change (state_at m1 i = Some CHUNK_CHECKING). by rewrite Hst, decide_True.
    + cbn [_chunks_checking_queue upd]. unfold m1. cbn [_chunks_checking_queue upd]. apply elem_of_app. right. apply list_elem_of_fmap.
      exists (Z.to_nat i). split; [lia|]. apply list_elem_of_In, in_seq. unfold nb_chunks in Hr. lia.
Qed.

(** What a bitmap says of chunk [i]. *)
Definition said (map : CompressedChunkMap) (i : Z) : ChunkState :=
  match cmap_get map i with Some true => CHUNK_DONE | _ => CHUNK_OUTSTANDING end.

Definition said_len (m : ChunkMap) (map : CompressedChunkMap) (i : Z) : Z :=
  if decide (said map i = CHUNK_DONE) then chunk_len m i else 0.

Lemma setAvailabilityMap_ok m map : cm_ok m -> idle m ->
  exists m', setAvailabilityMap m map = Some m' /\ cm_ok m' /\ idle m' /\ _file_size m' = _file_size m /\
    nb_chunks m' = nb_chunks m /\
    if Z.of_nat (length map) <=? Z.shiftr (nb_chunks m - 1) 5 then m' = m
    else (forall i, 0 <= i < nb_chunks m -> state_at m' i = Some (said map i)) /\
         _total_downloaded m' = nsum (said_len m map) (length (_map m)).
Proof.
  intros [Hc Ht Hcomp] Hi. unfold setAvailabilityMap.
  destruct (Z.leb_spec (Z.of_nat (length map)) (Z.shiftr (nb_chunks m - 1) 5)) as [Hle|Hgt].
  { exists m. by repeat (split; [done|]). }
  match goal with |- context [foldl ?f (Some ?m0) _] => set (step := f); set (m0' := m0) end.
  assert (Hget : forall i, 0 <= i < nb_chunks m -> exists b, cmap_get map i = Some b).
  { intros i Hr. unfold cmap_get. destruct (lookup_lt_is_Some_2 map (Z.to_nat (Z.shiftr i 5))) as [w ->]; [|cbn; eauto].
    assert (Z.shiftr i 5 <= Z.shiftr (nb_chunks m - 1) 5) by (rewrite !Z.shiftr_div_pow2 by lia; apply Z.div_le_mono; lia).
    pose proof (proj1 (proj2 (chunk_index i ltac:(lia)))). lia. }
  assert (Hlen : forall i, 0 <= i < Z.of_nat (length (_map m)) -> 0 <= said_len m map i <= chunk_len m i).
  { intros i Hr. pose proof (chunk_len_range m i (cm_shape _ Hc) Hr). unfold said_len. destruct (decide _); lia. }
  assert (Hpart : forall k, (k <= length (_map m))%nat -> 0 <= nsum (said_len m map) k <= _file_size m).
  { intros k Hk. rewrite <- (chunk_lens_sum m (cm_shape _ Hc)). split.
    - apply nsum_nonneg. intros i Hr. apply Hlen. lia.
    - etransitivity; [apply (nsum_mono _ k); [done|]; intros; by apply Hlen|]. apply nsum_le. intros i Hr. by apply Hlen. }
  assert (G : forall k, (k <= length (_map m))%nat -> exists m', foldl step (Some m0') (seq 0 k) = Some m' /\
    m' = m <| _map := _map m' |> <| _total_downloaded := nsum (said_len m map) k |> <| _file_is_complete := _file_is_complete m' |> /\
    length (_map m') = length (_map m) /\ (forall i, 0 <= i < Z.of_nat k -> state_at m' i = Some (said map i)) /\
    (_file_is_complete m' = true -> forall i, 0 <= i < Z.of_nat k -> said map i = CHUNK_DONE)).
  { induction k as [|k IH]; intros Hk.
    - exists m0'. split; [done|]. split; [by destruct m|]. split; [done|]. split; intros; lia.
    - destruct (IH ltac:(lia)) as (m1 & E & Em1 & Hl & Hs & Hd). rewrite seq_S, foldl_app, E. cbn [foldl Nat.add].
      unfold step at 1. cbn [mbind option_bind].
      assert (Hn1 : nb_chunks m1 = nb_chunks m) by (unfold nb_chunks; by rewrite Hl).
      destruct (Hget (Z.of_nat k) ltac:(unfold nb_chunks; lia)) as [b Hb]. rewrite Hb. cbn [mbind option_bind].
      assert (Hsaid : said map (Z.of_nat k) = if b then CHUNK_DONE else CHUNK_OUTSTANDING) by (unfold said; rewrite Hb; by destruct b).
      destruct (set_state_spec m1 (Z.of_nat k) (said map (Z.of_nat k)) ltac:(unfold nb_chunks in *; lia)) as (m2 & E2 & Em2 & Hn2 & Hs2).
      assert (Hstates : forall i, 0 <= i < Z.of_nat (S k) -> state_at m2 i = Some (said map i)).
      { intros i Hr. rewrite Hs2. destruct (decide (i = Z.of_nat k)) as [->|]; [done|]. apply Hs. lia. }
      assert (Hl2 : length (_map m2) = length (_map m)) by (rewrite <- Hl; unfold nb_chunks in Hn2; lia).
      assert (Hl' : said_len m map (Z.of_nat k) = if b then chunk_len m (Z.of_nat k) else 0) by (unfold said_len; rewrite Hsaid; by destruct b).
      pose proof (Hpart (S k) Hk) as Hp. pose proof (sh_size _ (cm_shape _ Hc)). rewrite nsum_S in Hp.
      assert (Hsz : sizeOfChunk m2 (Z.of_nat k) = chunk_len m (Z.of_nat k)).
      { apply sizeOfChunk_frame; [apply Hc|congruence|by rewrite Em2, Em1|by rewrite Em2, Em1|unfold nb_chunks; lia]. }
      assert (Htot : _total_downloaded m2 = nsum (said_len m map) k) by (by rewrite Em2, Em1).
      rewrite Hsaid in E2. destruct b; rewrite E2; cbn [mbind option_bind].
      + rewrite Hsz, Htot, wrap_small by (unfold is_word; lia).
        eexists. split; [reflexivity|]. split; [|split; [exact Hl2|split; [exact Hstates|]]].
        * rewrite nsum_S, Hl', Em2, Em1. done.
        * intros Hf i Hr. destruct (decide (i = Z.of_nat k)) as [->|]; [done|]. apply Hd; [|lia].
          cbn [_file_is_complete upd] in Hf. by rewrite Em2 in Hf.
      + eexists. split; [reflexivity|]. split; [|split; [exact Hl2|split; [exact Hstates|done]]].
        rewrite nsum_S, Hl', Z.add_0_r, Em2, Em1. done. }
  destruct (G (length (_map m)) ltac:(lia)) as (m' & -> & Em' & Hl & Hst & Hd). exists m'.
  assert (Hn : nb_chunks m' = nb_chunks m) by (unfold nb_chunks; by rewrite Hl).
  assert (Hc' : cm_core m').
  { apply (idle_core m); [done|done|by rewrite Em'|by rewrite Em'|done|by rewrite Em'|by rewrite Em'|by rewrite Em'| |rewrite Em'; apply Hc].
    intros i Ha.
    pose proof (state_at_range _ _ _ Ha) as Hr. rewrite Hn in Hr. rewrite Hst in Ha by done. unfold said in Ha.
    by destruct (cmap_get map i) as [[]|]. }
  assert (Hrec : received m' = nsum (said_len m map) (length (_map m))).
  { unfold received. rewrite Hl. apply nsum_ext. intros i Hr. unfold contribution, said_len. rewrite Hst by done.
    assert (El : chunk_len m' i = chunk_len m i) by (unfold chunk_len; rewrite Hn; by rewrite Em'). rewrite El.
    unfold said. by destruct (cmap_get map i) as [[]|]. }
  split; [done|]. split.
  { split; [done|by rewrite Hrec, Em'|]. intros Hf i Hr. rewrite Hn in Hr. by rewrite Hst, (Hd Hf i Hr). }
  split; [by unfold idle; rewrite Em'|]. split; [by rewrite Em'|]. split; [done|]. split; [exact Hst|by rewrite Em'].
Qed.

(** ** What receiving and checking leave alone *)

Lemma pending_zero lo lim sl : slices_ok lo lim sl -> pending sl = 0 -> sl = ∅.
Proof.
  intros Hs Hp. apply map_empty. intros k. destruct (sl !! k) as [r|] eqn:E; [|done]. exfalso.
  pose proof (pending_nonneg _ _ _ (slices_ok_delete _ _ _ k Hs)) as Hn. unfold pending in *.
  rewrite (msum_delete _ sl k r E) in Hn. destruct (sl_in _ _ _ Hs k r E) as (_ & ? & _). lia.
Qed.

(** [dataReceived] takes its slice away and touches no other one, nor the sources. *)
Lemma dataReceived_effect m cid now m' : cm_ok m -> dataReceived m cid now = Some m' ->
  _file_size m' = _file_size m /\ _peers_chunks_availability m' = _peers_chunks_availability m /\
  _assume_availability m' = _assume_availability m /\
  forall k c, slice_of m' k c = if decide (k = u32 (sint32 (cid / _chunk_size m)) /\ c = cid) then None else slice_of m k c.
Proof.
  intros [Hc _ _]. unfold dataReceived. cbv zeta. set (n := u32 (sint32 (cid / _chunk_size m))).
  assert (Hnone : slice_of m n cid = None -> forall k c, slice_of m k c = if decide (k = n /\ c = cid) then None else slice_of m k c).
  { intros Hs k c. destruct (decide _) as [[-> ->]|]; done. }
  unfold slice_of in Hnone at 1. destruct (_slices_to_download m !! n) as [info|] eqn:Hk; [|intros [= <-]; auto].
  cbn [mbind option_bind] in Hnone. destruct (_slices info !! cid) as [sl|] eqn:Hsl; [|intros [= <-]; auto].
  clear Hnone. set (info' := _ <| _last_data_received := now |>).
  destruct (Z.eqb_spec (_remains info') 0) as [E0|E0].
  - assert (Hrest : delete cid (_slices info) = ∅).
    { destruct (cm_active _ Hc n info Hk) as [lim [Hl Hs Hr Hb]]. apply (pending_zero (n * cs) lim); [by apply slices_ok_delete|].
      unfold info' in E0. cbn [_remains upd] in E0.
      assert (Hd : pending (delete cid (_slices info)) = pending (_slices info) - sr_size sl) by (by apply msum_delete).
      pose proof (pending_nonneg _ _ _ (slices_ok_delete _ _ _ cid Hs)). destruct Hl as (Hl & _).
      destruct (sl_in _ _ _ Hs cid sl Hsl) as (_ & Hsz & _).
      pose proof (chunk_len_range m n (cm_shape _ Hc) (active_range m n Hc ltac:(congruence))).
      rewrite wrap_small in E0; [lia|]. unfold is_word, cs in *. change (1024 * 1024) with 1048576 in *. lia. }
    assert (En : sint32 (cid / _chunk_size m) = n) by (symmetry; apply chunk_key; [done|]; fold n; congruence). rewrite En.
    match goal with |- context [finish_chunk ?m1 n] => set (m1' := m1) end.
    destruct (finish_chunk_spec m1' n (active_range m n Hc ltac:(congruence))) as (st & q & -> & _ & _). cbn [mbind option_bind].
    intros Hu. apply updateTotal_frame in Hu as (t & b & ->). split; [done|]. split; [done|]. split; [done|].
    intros k c. unfold slice_of, m1'. cbn [_slices_to_download upd]. rewrite delete_insert_eq.
    destruct (decide (k = n)) as [->|Hne].
    + rewrite lookup_delete_eq, Hk. cbn [mbind option_bind]. destruct (decide (c = cid)) as [->|Hcc]; [by rewrite decide_True|].
      rewrite decide_False by tauto. assert (E : delete cid (_slices info) !! c = None) by (by rewrite Hrest, lookup_empty).
      by rewrite lookup_delete_ne in E.
    + rewrite lookup_delete_ne by done. by rewrite decide_False by tauto.
  - intros [= <-]. split; [done|]. split; [done|]. split; [done|]. intros k c. unfold slice_of. cbn [_slices_to_download upd].
    destruct (decide (k = n)) as [->|Hne].
    + rewrite lookup_insert_eq, Hk. cbn [mbind option_bind info' _slices upd]. unfold info'. cbn [_slices upd].
      destruct (decide (c = cid)) as [->|Hcc]; [by rewrite decide_True, lookup_delete_eq|].
      rewrite decide_False by tauto. by rewrite lookup_delete_ne.
    + rewrite lookup_insert_ne by done. by rewrite decide_False by tauto.
Qed.

(** ** Downloading from one source that has the whole file *)

(** What is left is asked for piece by piece and received at once. *)
Fixpoint fetch (fuel : nat) (m : ChunkMap) (p hint now : Z) (rnd : nat -> Z) : option (ChunkMap * bool) :=
  match fuel with
  | O => Some (m, false)
  | S fuel =>
      '(m, c, _) ← getDataChunk m p hint now (rnd fuel) false : option (ChunkMap * option ftChunk * bool);
      match c with
      | None => Some (m, true)
      | Some c => m ← dataReceived m (fc_offset c) now; fetch fuel m p hint now rnd
      end
  end.

Definition none_pending (m : ChunkMap) : Prop := forall k c, slice_of m k c = None.

Lemma idle_none_pending m : idle m -> none_pending m.
Proof. intros Hi k c. unfold slice_of. by rewrite Hi, lookup_empty. Qed.

Lemma no_slices m k info : none_pending m -> _slices_to_download m !! k = Some info -> pending (_slices info) = 0.
Proof.
  intros Hp Hk. assert (E : _slices info = ∅).
  { apply map_empty. intros c. specialize (Hp k c). unfold slice_of in Hp. by rewrite Hk in Hp. }
  unfold pending. by rewrite E, msum_empty.
Qed.

(** A full source with nothing to offer: every chunk has arrived. *)
Lemma nothing_left m p : cm_ok m -> none_pending m -> full_source m p -> nothing_for m p ->
  forall i, 0 <= i < nb_chunks m -> state_at m i = Some CHUNK_DONE \/ state_at m i = Some CHUNK_CHECKING.
Proof.
  intros [Hc _ _] Hpend Hfull (Hp & [s Hs] & Hno & Hfeed) i Hi.
  assert (Hoff : forall c, offers m p c) by (intros c; exists s; split; [done|]; by eapply full_source_offers).
  destruct (state_at_some m i Hi) as [[] E]; auto; exfalso.
  - by apply (Hno i).
  - apply (cm_states _ Hc) in E. destruct (_slices_to_download m !! i) as [info|] eqn:Hk; [|done].
    destruct (cm_active _ Hc i info Hk) as [lim [(_ & _ & Hl) _ Hrem Hleft]]. rewrite (no_slices m i info) in Hrem by done.
    destruct (Hl ltac:(lia)) as (q & ch & Hq & Hst). destruct (cm_feed _ Hc q ch Hq) as [n Hn].
    assert (n = i) as -> by (pose proof (fd_start _ _ _ Hn); unfold cs in *; lia). by apply (Hfeed q ch i).
Qed.

Lemma all_received m : cm_core m ->
  (forall i, 0 <= i < nb_chunks m -> state_at m i = Some CHUNK_DONE \/ state_at m i = Some CHUNK_CHECKING) ->
  received m = _file_size m.
Proof.
  intros Hc H. rewrite <- (chunk_lens_sum m (cm_shape _ Hc)). apply nsum_ext. intros i Hi. unfold contribution.
  by destruct (H i Hi) as [-> | ->].
Qed.

(** One request and its answer: some bytes more, and again nothing pending. *)
Lemma fetch_step m p hint now r : cm_ok m -> none_pending m -> full_source m p -> 0 < hint ->
  exists m' c nd, getDataChunk m p hint now r false = Some (m', c, nd) /\
    match c with
    | None => cm_ok m' /\ none_pending m' /\ full_source m' p /\ nothing_for m' p /\ _file_size m' = _file_size m
    | Some c => exists m'', dataReceived m' (fc_offset c) now = Some m'' /\ cm_ok m'' /\ none_pending m'' /\
        full_source m'' p /\ _file_size m'' = _file_size m /\ received m < received m''
    end.
Proof.
  intros Hm Hpend Hfull Hh. destruct (getDataChunk_ok m p hint now r false Hm Hh) as (m' & c & nd & E & Hm' & Hrec & Hfs & Hfl & Hc).
  exists m', c, nd. split; [done|]. destruct c as [c|].
  2: { destruct Hc as [Hno Hsl]. split; [done|]. split; [intros k cid; by rewrite Hsl|]. auto. }
  destruct Hc as (n & Hf & _). destruct (fs_inside _ _ _ _ _ _ _ Hf) as [Hlo Hhi]. pose proof (fs_chunk _ _ _ _ _ _ _ Hf) as Hn.
  destruct (dataReceived_ok m' (fc_offset c) now Hm') as (m'' & Ed & Hm'' & Hr).
  destruct (dataReceived_effect m' _ now m'' Hm' Ed) as (F1 & F2 & F3 & F4).
  pose proof (fs_size _ _ _ _ _ _ _ Hf) as Hsz. pose proof (cm_is_core _ Hm') as Hcore.
  assert (Ek : u32 (sint32 (fc_offset c / _chunk_size m')) = n).
  { rewrite (sh_cs _ (cm_shape _ Hcore)). pose proof (chunk_len_range m' n (cm_shape _ Hcore) Hn) as Hlen.
    destruct (shape_bounds m' (cm_shape _ Hcore)) as (Hb & _).
    replace (fc_offset c / cs) with n by (apply Z.div_unique with (fc_offset c - n * cs); unfold cs in *; lia).
    rewrite sint32_small by lia. apply wrap_small. unfold is_word. lia. }
  rewrite Ek in Hr, F4. exists m''. split; [done|]. split; [done|]. split; [|split; [|split; [congruence|]]].
  - intros k cid. rewrite F4. destruct (decide _) as [|Hne]; [done|]. rewrite (fs_others _ _ _ _ _ _ _ Hf); [apply Hpend|].
    intros [= -> ->]. by apply Hne.
  - by apply (full_source_frame m'), Hfl.
  - rewrite Hr, Hrec, (fs_recorded _ _ _ _ _ _ _ Hf). cbn [sr_size]. lia.
Qed.

(** C19 A download from a source that has the whole file ends, whatever the random choices and the
    request sizes are: with fuel for one request per missing byte the source is asked until nothing is left, and
    then every chunk is done or waiting for its check and the byte count is the file size. *)
Theorem download_completes fuel m p hint now rnd :
  cm_ok m -> none_pending m -> full_source m p -> 0 < hint -> _file_size m - _total_downloaded m < Z.of_nat fuel ->
  exists m', fetch fuel m p hint now rnd = Some (m', true) /\ cm_ok m' /\
    _total_downloaded m' = _file_size m /\
    forall i, 0 <= i < nb_chunks m' -> state_at m' i = Some CHUNK_DONE \/ state_at m' i = Some CHUNK_CHECKING.
Proof.
  revert m. induction fuel as [|fuel IH]; intros m Hm Hpend Hfull Hh Hfuel.
  - rewrite (cm_total _ Hm) in Hfuel. pose proof (received_range m (cm_shape _ (cm_is_core _ Hm)) (cm_active_states _ (cm_is_core _ Hm))). lia.
  - cbn [fetch]. destruct (fetch_step m p hint now (rnd fuel) Hm Hpend Hfull Hh) as (m' & c & nd & -> & Hc).
    cbn [mbind option_bind]. destruct c as [c|].
    + destruct Hc as (m'' & -> & Hm'' & Hp'' & Hf'' & Hfs & Hlt). cbn [mbind option_bind]. rewrite <- Hfs.
      apply IH; try done. rewrite (cm_total _ Hm), (cm_total _ Hm'') in *. lia.
    + destruct Hc as (Hm' & Hp' & Hf' & Hno & Hfs). pose proof (nothing_left m' p Hm' Hp' Hf' Hno) as Hall.
      exists m'. split; [done|]. split; [done|]. split; [|done].
      by rewrite (cm_total _ Hm'), (all_received m' (cm_is_core _ Hm') Hall).
Qed.

(** ** All operations as steps *)

Inductive cm_op :=
  | OpAvailability (map : CompressedChunkMap)
  | OpForceCheck
  | OpGet (peer size_hint now rand : Z)
  | OpData (cid now : Z)
  | OpReask (peer now : Z)
  | OpInactive (now : Z)
  | OpToCheck
  | OpResult (chunk_number : Z) (check_succeeded : bool)
  | OpPeerMap (peer : Z) (cmap : CompressedChunkMap) (now : Z)
  | OpRemove (peer : Z)
  | OpStrategy (s : ChunkStrategy).

Definition cm_step (m : ChunkMap) (op : cm_op) : option ChunkMap :=
  match op with
  | OpAvailability map => setAvailabilityMap m map
  | OpForceCheck => forceCheck m
  | OpGet p hint now r => fst ∘ fst <$> getDataChunk m p hint now r false
  | OpData cid now => dataReceived m cid now
  | OpReask p now => Some (reAskPendingChunk m p now).1
  | OpInactive now => fst <$> removeInactiveChunks m now
  | OpToCheck => Some (getChunksToCheck m).1
  | OpResult k ok => setChunkCheckingResult m k ok
  | OpPeerMap p c now => setPeerAvailabilityMap m p c now
  | OpRemove p => Some (removeFileSource m p)
  | OpStrategy s => Some (setStrategy m s)
  end.

(** What a caller has to respect for the books to be right: a real chunk number, a positive size, and no restart while
    chunks are being downloaded.  The user's forced check does not respect it. *)
Definition cm_allowed (m : ChunkMap) (op : cm_op) : bool :=
  match op with
  | OpAvailability _ | OpForceCheck => bool_decide (idle m)
  | OpGet _ hint _ _ => 0 <? hint
  | OpResult k _ => (0 <=? k) && (k <? nb_chunks m)
  | _ => true
  end.

Lemma set_state_frame m i st m' : set_state m i st = Some m' -> m' = m <| _map := <[Z.to_nat i := st]> (_map m) |>.
Proof. unfold set_state. destruct (state_at m i); cbn; [by intros [= <-]|done]. Qed.

Lemma setChunkCheckingResult_size m k ok m' : setChunkCheckingResult m k ok = Some m' -> _file_size m' = _file_size m.
Proof.
  unfold setChunkCheckingResult. destruct (state_at m k) as [st|] eqn:E; [|done]. cbn [mbind option_bind].
  destruct (negb _); [by intros [= <-]|]. destruct ok.
  - destruct (set_state m k CHUNK_DONE) as [m1|] eqn:E1; [|done]. apply set_state_frame in E1 as ->. by intros [= <-].
  - intros E1. by apply set_state_frame in E1 as ->.
Qed.

(** The invariant of a download of [s] bytes. *)
Definition download_inv (s : Z) (m : ChunkMap) : Prop := cm_ok m /\ _file_size m = s.

Lemma cm_step_ok s m op : download_inv s m -> cm_allowed m op = true ->
  exists m', cm_step m op = Some m' /\ download_inv s m'.
Proof.
  intros [Hm <-] Ha. unfold download_inv. destruct op; cbn [cm_step cm_allowed] in *.
  - apply bool_decide_eq_true_1 in Ha. destruct (setAvailabilityMap_ok m map Hm Ha) as (m' & -> & H1 & _ & H2 & _). eauto.
  - apply bool_decide_eq_true_1 in Ha. destruct (forceCheck_ok m Hm Ha) as (m' & -> & H1 & _ & H2 & _). eauto.
  - apply Z.ltb_lt in Ha. destruct (getDataChunk_ok m peer size_hint now rand false Hm Ha) as (m' & r & nd & -> & H1 & _ & H2 & _).
    cbn. eauto.
  - destruct (dataReceived_ok m cid now Hm) as (m' & E & H1 & _). exists m'. split; [done|]. split; [done|].
    by apply (dataReceived_effect m cid now m' Hm).
  - pose proof (reAskPendingChunk_ok m peer now Hm) as H. unfold reAskPendingChunk in *.
    destruct (existsb _ _); [eauto|]. destruct (head _) as [[[c i] [off sl]]|]; [|eauto]. eexists. split; [reflexivity|].
    split; [apply H|done].
  - destruct (removeInactiveChunks_ok m now Hm) as (m' & l & -> & H1 & H2 & _). cbn. eauto.
  - pose proof (getChunksToCheck_ok m Hm) as H. unfold getChunksToCheck in *. cbn [fst]. eexists. split; [reflexivity|].
    split; [apply H|done].
  - apply andb_prop in Ha as [H1 H2]. apply Z.leb_le in H1. apply Z.ltb_lt in H2.
    destruct (setChunkCheckingResult_ok m chunk_number check_succeeded Hm ltac:(lia)) as (m' & E & H3 & _).
    exists m'. split; [done|]. split; [done|]. by eapply setChunkCheckingResult_size.
  - destruct (setPeerAvailabilityMap_ok m peer cmap now Hm) as (m' & E & H1). exists m'. split; [done|]. split; [done|].
    revert E. unfold setPeerAvailabilityMap. destruct (negb _); [by intros [= <-]|].
    destruct (foldr _ _ _); [|done]. by intros [= <-].
  - eexists. split; [reflexivity|]. split; [by apply removeFileSource_ok|done].
  - eexists. split; [reflexivity|]. split; [by apply setStrategy_ok|done].
Qed.

Fixpoint cm_run (m : ChunkMap) (ops : list cm_op) : option ChunkMap :=
  match ops with
  | [] => Some m
  | op :: ops => m ← cm_step m op; cm_run m ops
  end.

Fixpoint allowed_run (m : ChunkMap) (ops : list cm_op) : bool :=
  match ops with
  | [] => true
  | op :: ops => cm_allowed m op && match cm_step m op with Some m => allowed_run m ops | None => true end
  end.

Lemma cm_run_ok s ops : forall m, download_inv s m -> allowed_run m ops = true ->
  exists m', cm_run m ops = Some m' /\ download_inv s m'.
Proof.
  induction ops as [|op ops IH]; intros m Hm Ha; [by exists m|]. cbn [allowed_run cm_run] in *.
  apply andb_prop in Ha as [Ha Hr]. destruct (cm_step_ok s m op Hm Ha) as (m1 & E & Hm1). rewrite E in *. cbn [mbind option_bind].
  by apply IH.
Qed.

(** What the arguments are in every call: a chunk of the file, a size that is not negative. *)
Definition cm_valid (chunks : Z) (op : cm_op) : bool :=
  match op with
  | OpGet _ hint _ _ => 0 <=? hint
  | OpResult k _ => (0 <=? k) && (k <? chunks)
  | _ => true
  end.

Lemma cm_step_safe m op : mem_ok m -> cm_valid (nb_chunks m) op = true -> safe m (cm_step m op).
Proof.
  intros Hm Hv. destruct op; cbn [cm_step cm_valid] in *.
  - by apply setAvailabilityMap_safe.
  - by apply forceCheck_safe.
  - apply Z.leb_le in Hv. by apply getDataChunk_safe.
  - by apply dataReceived_safe.
  - by apply reAskPendingChunk_safe.
  - by apply removeInactiveChunks_safe.
  - eexists. split; [reflexivity|]. unfold getChunksToCheck. cbn [fst]. auto with chunks.
  - apply andb_prop in Hv as [H1%Z.leb_le H2%Z.ltb_lt]. by apply setChunkCheckingResult_safe.
  - by apply setPeerAvailabilityMap_safe.
  - by apply removeFileSource_safe.
  - eexists. split; [reflexivity|]. unfold setStrategy. auto with chunks.
Qed.

Lemma cm_run_safe ops : forall m, mem_ok m -> forallb (cm_valid (nb_chunks m)) ops = true -> safe m (cm_run m ops).
Proof.
  induction ops as [|op ops IH]; intros m Hm Hv; cbn [cm_run]; [exists m; auto with chunks|].
  cbn [forallb] in Hv. apply andb_prop in Hv as [H1 H2]. destruct (cm_step_safe m op Hm H1) as (m1 & -> & Hm1 & Hd). cbn [mbind option_bind].
  apply (safe_trans _ _ _ Hd), IH; [done|]. by rewrite (dims_nb _ _ Hd).
Qed.

Lemma new_ChunkMap_mem s a : 0 <= s < 2 ^ 51 -> mem_ok (new_ChunkMap s a).
Proof.
  intros Hs. destruct (new_ChunkMap_ok s a Hs) as ([Hc _ _] & _). split; [apply Hc| | |].
  - intros n. cbn. by rewrite lookup_empty.
  - intros p ch. cbn. by rewrite lookup_empty.
  - intros p i. cbn. by rewrite lookup_empty.
Qed.


(** A check that is forced while a slice is pending. *)
Definition careless_ops : list cm_op :=
  [OpGet 1 700000 100 5; OpForceCheck; OpToCheck; OpResult 0 false; OpResult 1 false; OpResult 2 false; OpGet 2 700000 101 5;
   OpData 2097152 102; OpAvailability [1]].

Definition run_ops : list cm_op :=
  [OpPeerMap 4 [7] 50; OpGet 1 700000 100 5; OpGet 2 2000000 101 0; OpData 2097152 102; OpReask 2 200; OpToCheck;
   OpResult 2 true; OpInactive 9000; OpForceCheck; OpResult 0 true; OpResult 1 false; OpStrategy CHUNK_STRATEGY_STREAMING;
   OpRemove 1; OpAvailability [7]].


Lemma download_completes_witness :
  exists m', fetch 3001 (new_ChunkMap 3000 true) 1 700 100 (fun _ => 5) = Some (m', true) /\ cm_ok m' /\
    _total_downloaded m' = 3000 /\
    forall i, 0 <= i < nb_chunks m' -> state_at m' i = Some CHUNK_DONE \/ state_at m' i = Some CHUNK_CHECKING.
Proof.
  apply (download_completes 3001 (new_ChunkMap 3000 true) 1 700 100 (fun _ => 5)).
  - apply new_ChunkMap_ok. split; [by apply Z.leb_le|done].
  - apply idle_none_pending. reflexivity.
  - reflexivity.
  - reflexivity.
  - apply Z.ltb_lt. reflexivity.
Defined.

(** C18 What a peer is given: a slice inside one chunk of the file, not longer than asked, disjoint from every slice that
    is pending with anybody, in a chunk that is being downloaded and that the peer offers or was already being fed; the
    record of it is new and the only change to the pending slices.  Nothing is given only when every
    outstanding chunk and every chunk being fed is one the peer does not offer. *)
Theorem getDataChunk_fresh m p hint now rnd needed :
  cm_ok m -> 0 < hint ->
  exists m' r needed', getDataChunk m p hint now rnd needed = Some (m', r, needed') /\
    _total_downloaded m' = _total_downloaded m /\
    match r with
    | Some c => exists n, fresh_slice m m' p hint now n c /\
                  (offers m' p n \/ exists ch, _active_chunks_feed m !! p = Some ch /\ _start ch = n * cs)
    | None => nothing_for m' p /\ forall n, slice_of m' n = slice_of m n
    end.
Proof.
  intros Hm Hh. destruct (getDataChunk_ok m p hint now rnd needed Hm Hh) as (m' & r & nd & E & Hm' & Hrec & _ & _ & Hr).
  exists m', r, nd. split; [done|]. split; [|done]. by rewrite (cm_total _ Hm), (cm_total _ Hm').
Qed.

Lemma getDataChunk_fresh_witness :
  exists m' r needed', getDataChunk (new_ChunkMap 2500000 true) 1 700000 100 5 true = Some (m', r, needed') /\
    _total_downloaded m' = 0 /\
    match r with
    | Some c => exists n, fresh_slice (new_ChunkMap 2500000 true) m' 1 700000 100 n c /\
                  (offers m' 1 n \/ exists ch, _active_chunks_feed (new_ChunkMap 2500000 true) !! 1 = Some ch /\ _start ch = n * cs)
    | None => nothing_for m' 1 /\ forall n, slice_of m' n = slice_of (new_ChunkMap 2500000 true) n
    end.
Proof.
  apply (getDataChunk_fresh (new_ChunkMap 2500000 true) 1 700000 100 5 true).
  - apply new_ChunkMap_ok. split; [by apply Z.leb_le|done].
  - reflexivity.
Defined.

Lemma said_cmap_of m c i : cmap_of (_map m) = Some c -> 0 <= i < nb_chunks m ->
  said c i = if decide (state_at m i = Some CHUNK_DONE) then CHUNK_DONE else CHUNK_OUTSTANDING.
Proof.
  intros E Hi. destruct (cmap_of_spec (_map m)) as (c' & E' & _ & Hg). assert (c' = c) as -> by congruence.
  unfold said. rewrite Hg by done. unfold state_at. destruct (Z.ltb_spec i 0); [lia|].
  destruct (decide _) as [Hd|Hd]; [by rewrite bool_decide_true|by rewrite bool_decide_false].
Qed.

(** The bitmap made of a map, loaded into an idle map of the same file, restores exactly the verified
    chunks, with their byte count; sent to a peer, it makes that peer count this one as a source for exactly these chunks. *)
Theorem availability_roundtrip m m0 p now :
  shape_ok m -> cm_ok m0 -> idle m0 -> _file_size m0 = _file_size m ->
  exists c, getAvailabilityMap m = Some c /\
    (exists m1, setAvailabilityMap m0 c = Some m1 /\
       (forall i, 0 <= i < nb_chunks m ->
          state_at m1 i = Some (if decide (state_at m i = Some CHUNK_DONE) then CHUNK_DONE else CHUNK_OUTSTANDING)) /\
       _total_downloaded m1 =
         nsum (fun i => if decide (state_at m i = Some CHUNK_DONE) then chunk_len m i else 0) (length (_map m))) /\
    (exists m2, setPeerAvailabilityMap m0 p c now = Some m2 /\
       forall i, 0 <= i < nb_chunks m -> offers m2 p i <-> state_at m i = Some CHUNK_DONE).
Proof.
  intros Hs H0 Hi Hfs. unfold getAvailabilityMap. destruct (cmap_of_spec (_map m)) as (c & E & Hl & Hg). exists c. split; [done|].
  assert (Hn : nb_chunks m0 = nb_chunks m) by (rewrite (sh_nb _ (cm_shape _ (cm_is_core _ H0))), (sh_nb _ Hs), Hfs; done).
  pose proof (compressed_size_words (nb_chunks m) ltac:(unfold nb_chunks; lia)) as Hw. fold (nb_chunks m) in Hl.
  split.
  - destruct (setAvailabilityMap_ok m0 c H0 Hi) as (m1 & -> & _ & _ & _ & _ & Hcase). exists m1. split; [done|].
    destruct (Z.leb_spec (Z.of_nat (length c)) (Z.shiftr (nb_chunks m0 - 1) 5)) as [Hle|_].
    { exfalso. rewrite Z.shiftr_div_pow2 in Hle by lia. change (2 ^ 5) with 32 in Hle.
      pose proof (Z.div_mod (nb_chunks m0 - 1) 32 ltac:(lia)). pose proof (Z.mod_pos_bound (nb_chunks m0 - 1) 32 ltac:(lia)). lia. }
    destruct Hcase as [Hst Htot]. rewrite Hn in Hst. split.
    + intros i Hr. by rewrite Hst, (said_cmap_of m) by done.
    + rewrite Htot. unfold nb_chunks in Hn. replace (length (_map m0)) with (length (_map m)) by lia.
      apply nsum_ext. intros i Hr. unfold said_len. rewrite (said_cmap_of m) by done.
      assert (Ecl : chunk_len m0 i = chunk_len m i) by (unfold chunk_len, nb_chunks; by rewrite Hn, Hfs). rewrite Ecl.
      by destruct (decide (state_at m i = Some CHUNK_DONE)).
  - destruct (setPeerAvailabilityMap_sets m0 p c now H0) as (m2 & full & -> & Hp & Hfull).
    { by rewrite Hn. }
    exists m2. split; [done|]. intros i Hr.
    assert (Hd : cmap_get c i = Some true <-> state_at m i = Some CHUNK_DONE).
    { rewrite Hg by done. unfold state_at. destruct (Z.ltb_spec i 0); [lia|]. destruct (decide (_map m !! Z.to_nat i = Some CHUNK_DONE)) as [Hd|Hd];
        [by rewrite bool_decide_true|rewrite bool_decide_false by done; by split; [intros [=]|]]. }
    rewrite <- Hd. unfold offers. split.
    + intros (s & Hs' & Hh). assert (s = mk_SourceChunksInfo c now full) as -> by congruence. unfold has_chunk in Hh.
      cbn [is_full sc_cmap] in Hh. destruct full; [|done]. apply Hfull; [done|by rewrite Hn].
    + intros Hh. exists (mk_SourceChunksInfo c now full). split; [done|]. unfold has_chunk. cbn [is_full sc_cmap]. by destruct full.
Qed.

(** The restriction on [forceCheck] is needed: asked for while a chunk is being downloaded, and followed by checks that
    all fail, it leaves a byte count that has wrapped below zero on a map without a single byte received, and the
    abandoned chunk stays both outstanding and listed as being downloaded. *)
Theorem force_check_underflow :
  let ops := [OpGet 1 700000 100 5; OpForceCheck; OpToCheck; OpResult 0 false; OpResult 1 false; OpResult 2 false] in
  exists m, cm_run (new_ChunkMap 2500000 true) ops = Some m /\
    _map m = [CHUNK_OUTSTANDING; CHUNK_OUTSTANDING; CHUNK_OUTSTANDING] /\
    _total_downloaded m = 2 ^ 64 - 402848 /\
    (fst <$> in_order (_slices_to_download m)) = [2].
Proof.
  assert (H : (fun m => (_map m, _total_downloaded m, fst <$> in_order (_slices_to_download m))) <$>
    cm_run (new_ChunkMap 2500000 true)
      [OpGet 1 700000 100 5; OpForceCheck; OpToCheck; OpResult 0 false; OpResult 1 false; OpResult 2 false] =
    Some ([CHUNK_OUTSTANDING; CHUNK_OUTSTANDING; CHUNK_OUTSTANDING], 2 ^ 64 - 402848, [2])) by (vm_compute; reflexivity).
  cbv zeta. apply fmap_Some in H as (m & E & Hm). exists m. split; [exact E|]. clear E. injection Hm as <- <- <-.
  split; [reflexivity|split; reflexivity].
Qed.

Definition saved_map : ChunkMap :=
  (new_ChunkMap 2500000 true) <| _map := [CHUNK_DONE; CHUNK_CHECKING; CHUNK_DONE] |>.

Lemma availability_roundtrip_witness :
  shape_ok saved_map /\
  exists c, getAvailabilityMap saved_map = Some c.
Proof.
  assert (Hs : shape_ok saved_map).
  { split; [reflexivity|split; [by apply Z.leb_le|reflexivity]|reflexivity]. }
  split; [exact Hs|].
  destruct (availability_roundtrip saved_map
    (new_ChunkMap 2500000 false) 7 100 Hs) as (c & E & _).
  - apply new_ChunkMap_ok. split; [by apply Z.leb_le|done].
  - reflexivity.
  - reflexivity.
  - exists c. exact E.
Defined.
