(* ===== verification/TcpPacket.v ===== *)
(** * Packets of the streams over UDP: src/tcponudp/tcppacket.cc

    A packet is a 20-byte header, most of which is unused, and the data.  The buffers are byte lists; [htons] and [htonl]
    are big-endian byte lists of the prelude. *)

From S2P Require Import Prelude.
From Stdlib Require Import ZArith Lia SpecFloat.
From stdpp Require Import base list.
Open Scope Z_scope.

Definition TCP_PSEUDO_HDR_SIZE : Z := 20.

Definition TCP_ACK_BIT : Z := 0x0008.
Definition TCP_RST_BIT : Z := 0x0020.
Definition TCP_SYN_BIT : Z := 0x0040.
Definition TCP_FIN_BIT : Z := 0x0080.

(** [ts] is the transmit time, [retrans] the retransmit counter. *)
Record TcpPacket := mk_TcpPacket {
  data : list Z;
  seqno : Z;
  ackno : Z;
  hlen_flags : Z;
  winsize : Z;
  ts : float64;
  retrans : Z
}.

#[export] Instance eta_TcpPacket : Eta TcpPacket := fun p =>
  mk_TcpPacket (data p) (seqno p) (ackno p) (hlen_flags p) (winsize p) (ts p) (retrans p).

Definition datasize (p : TcpPacket) : Z := Z.of_nat (length (data p)).

(** Both constructors: with data, and without for control packets. *)
Definition new_TcpPacket (ptr : list Z) : TcpPacket := mk_TcpPacket ptr 0 0 0 0 (f64_of_Z 0) 0.

Definition has_flag (bit : Z) (p : TcpPacket) : bool := negb (Z.land (hlen_flags p) bit =? 0).
Definition hasSyn : TcpPacket -> bool := has_flag TCP_SYN_BIT.
Definition hasFin : TcpPacket -> bool := has_flag TCP_FIN_BIT.
Definition hasAck : TcpPacket -> bool := has_flag TCP_ACK_BIT.
Definition hasRst : TcpPacket -> bool := has_flag TCP_RST_BIT.

Definition set_flag (bit : Z) (p : TcpPacket) : TcpPacket := p <| hlen_flags := Z.lor (hlen_flags p) bit |>.
Definition setSyn : TcpPacket -> TcpPacket := set_flag TCP_SYN_BIT.
Definition setFin : TcpPacket -> TcpPacket := set_flag TCP_FIN_BIT.
Definition setRst : TcpPacket -> TcpPacket := set_flag TCP_RST_BIT.
Definition setAckFlag : TcpPacket -> TcpPacket := set_flag TCP_ACK_BIT.

Definition setAck (p : TcpPacket) (val : Z) : TcpPacket := (setAckFlag p) <| ackno := val |>.
Definition getAck (p : TcpPacket) : Z := ackno p.

(** The result and the bytes written, whose number is the new [size]. *)
Definition writePacket (p : TcpPacket) (size : Z) : Z * list Z :=
  if size <? TCP_PSEUDO_HDR_SIZE + datasize p then (-1, [])
  else (TCP_PSEUDO_HDR_SIZE + datasize p,
        be_bytes 2 0 ++ be_bytes 2 0 ++ be_bytes 4 (seqno p) ++ be_bytes 4 (ackno p) ++
        be_bytes 2 (hlen_flags p) ++ be_bytes 2 (winsize p) ++ be_bytes 2 0 ++ be_bytes 2 0 ++ data p).

(** The result and the packet read into [p]; the allocation is assumed to succeed. *)
Definition readPacket (p : TcpPacket) (buf : list Z) : Z * TcpPacket :=
  let size := Z.of_nat (length buf) in
  if size <? TCP_PSEUDO_HDR_SIZE then (-1, p)
  else (size,
        p <| seqno := be_val (slice 4 4 buf) |> <| ackno := be_val (slice 8 4 buf) |>
          <| hlen_flags := be_val (slice 12 2 buf) |> <| winsize := be_val (slice 14 2 buf) |>
          <| data := drop 20 buf |>).

(** ** Reading back *)

Record packet_ok (p : TcpPacket) : Prop := {
  pk_seqno : is_word 32 (seqno p);
  pk_ackno : is_word 32 (ackno p);
  pk_flags : is_word 16 (hlen_flags p);
  pk_winsize : is_word 16 (winsize p)
}.

Lemma slice_middle {A} (l1 l2 l3 : list A) off n :
  length l1 = off -> length l2 = n -> slice off n (l1 ++ l2 ++ l3) = l2.
Proof. intros <- <-. unfold slice. by rewrite drop_app_length, take_app_length. Qed.

(** What was written is read back, each field at its width. *)
Lemma read_write_fields p q size ret buf :
  writePacket p size = (ret, buf) -> 0 <= ret ->
  readPacket q buf = (ret, mk_TcpPacket (data p) (u32 (seqno p)) (u32 (ackno p)) (u16 (hlen_flags p)) (u16 (winsize p))
                             (ts q) (retrans q)) /\ Z.of_nat (length buf) = ret.
Proof.
  unfold writePacket, readPacket. destruct (size <? _); [by intros [= <- <-]|]. intros [<- <-]%pair_equal_spec _.
  set (d := data p).
  assert (Hlen : length (be_bytes 2 0 ++ be_bytes 2 0 ++ be_bytes 4 (seqno p) ++ be_bytes 4 (ackno p) ++
        be_bytes 2 (hlen_flags p) ++ be_bytes 2 (winsize p) ++ be_bytes 2 0 ++ be_bytes 2 0 ++ d) = (20 + length d)%nat)
    by (rewrite !length_app, !length_be_bytes; lia).
  rewrite Hlen. unfold TCP_PSEUDO_HDR_SIZE, datasize. fold d.
  destruct (Z.ltb_spec (Z.of_nat (20 + length d)) 20); [lia|]. split; [|lia]. f_equal; [lia|].
  rewrite (app_assoc (be_bytes 2 0)), (slice_middle _ (be_bytes 4 (seqno p)) _ 4 4) by (by rewrite ?length_app, ?length_be_bytes).
  rewrite (app_assoc _ (be_bytes 4 (seqno p))), (slice_middle _ (be_bytes 4 (ackno p)) _ 8 4) by (by rewrite ?length_app, ?length_be_bytes).
  rewrite (app_assoc _ (be_bytes 4 (ackno p))), (slice_middle _ (be_bytes 2 (hlen_flags p)) _ 12 2) by (by rewrite ?length_app, ?length_be_bytes).
  rewrite (app_assoc _ (be_bytes 2 (hlen_flags p))), (slice_middle _ (be_bytes 2 (winsize p)) _ 14 2) by (by rewrite ?length_app, ?length_be_bytes).
  rewrite !be_val_bytes, !app_assoc, drop_app_length' by (by rewrite !length_app, !length_be_bytes). done.
Qed.

Lemma read_write p q size ret buf :
  packet_ok p -> writePacket p size = (ret, buf) -> 0 <= ret ->
  readPacket q buf = (ret, p <| ts := ts q |> <| retrans := retrans q |>) /\ Z.of_nat (length buf) = ret.
Proof.
  intros [Hs Ha Hf Hw] E Hr. destruct (read_write_fields p q size ret buf E Hr) as [-> Hl]. split; [|done].
  rewrite !wrap_small by done. by destruct p.
Qed.
