(* ===== verification/TcpStream.v ===== *)
(** * Reliable streams over UDP: src/tcponudp/tcpstream.cc

    [TcpStream] is one end of a connection: a small TCP on top of a datagram service.  Byte arrays with a size are byte
    lists of that size ([inData] and [inSize], ...).  The clock ([cts], one reading per call of a public function) and the
    random sequence number are arguments; the datagrams given to [udp->sendPkt], with their TTL, are collected in [sent]. *)

From S2P Require Import Prelude TcpPacket.
From Stdlib Require Import ZArith Lia SpecFloat.
From stdpp Require Import base list.
Open Scope Z_scope.

(** ** Constants *)

Definition MAX_SEG : Z := 1000.
Definition TCP_MAX_SEQ : Z := 2 ^ 32 - 1.
Definition TCP_MAX_WIN : Z := 65500.
Definition TCP_ALIVE_TIMEOUT : Z := 15.
Definition TCP_RETRANS_TIMEOUT : Z := 1.
Definition TCP_RETRANS_MAX_TIMEOUT : Z := 15.
Definition kNoPktTimeout : Z := 60.
Definition kMaxQueueSize : Z := 300.
Definition kMaxPktRetransmit : Z := 10.
Definition kMaxSynPktRetransmit : Z := 100.
Definition TCP_STD_TTL : Z := 64.
Definition TCP_DEFAULT_FIREWALL_TTL : Z := 4.
Definition ilevel : Z := 100.

Definition TCP_CLOSED : Z := 0.
Definition TCP_LISTEN : Z := 1.
Definition TCP_SYN_SENT : Z := 2.
Definition TCP_SYN_RCVD : Z := 3.
Definition TCP_ESTABLISHED : Z := 4.
Definition TCP_FIN_WAIT_1 : Z := 5.
Definition TCP_FIN_WAIT_2 : Z := 6.
Definition TCP_TIMED_WAIT : Z := 7.
Definition TCP_CLOSING : Z := 8.
Definition TCP_CLOSE_WAIT : Z := 9.
Definition TCP_LAST_ACK : Z := 10.

(** errno.h *)
Definition EBADF : Z := 9.
Definition EAGAIN : Z := 11.
Definition EFAULT : Z := 14.

(** ** State *)

Record TcpStream := mk_TcpStream {
  inData : list Z;
  outDataRead : list Z;
  outDataNet : list Z;
  inQueue : list (list Z);
  outQueue : list (list Z);
  inPkt : list TcpPacket;
  outPkt : list TcpPacket;
  state : Z;
  inStreamActive : bool;
  outStreamActive : bool;
  outSeqno : Z;
  outAcked : Z;
  outWinSize : Z;
  inAckno : Z;
  inWinSize : Z;
  maxWinSize : Z;
  keepAliveTimeout : Z;
  retransTimerOn : bool;
  retransTimeout : float64;
  retransTimerTs : float64;
  keepAliveTimer : float64;
  lastIncomingPkt : float64;
  lastSentAck : Z;
  lastSentWinSize : Z;
  initOurSeqno : Z;
  initPeerSeqno : Z;
  lastWriteTF : Z;
  lastReadTF : Z;
  wcount : Z;
  rcount : Z;
  errorState : Z;
  rtt_est : float64;
  rtt_dev : float64;
  congestThreshold : Z;
  congestWinSize : Z;
  congestUpdate : Z;
  ttl : Z;
  mTTL_period : float64;
  mTTL_start : float64;
  mTTL_end : float64;
  peeraddr : Z;
  peerKnown : bool;
  sent : list (list Z * Z)
}.

#[export] Instance eta_TcpStream : Eta TcpStream := fun s =>
  mk_TcpStream (inData s) (outDataRead s) (outDataNet s) (inQueue s) (outQueue s) (inPkt s) (outPkt s) (state s)
    (inStreamActive s) (outStreamActive s) (outSeqno s) (outAcked s) (outWinSize s) (inAckno s) (inWinSize s) (maxWinSize s)
    (keepAliveTimeout s) (retransTimerOn s) (retransTimeout s) (retransTimerTs s) (keepAliveTimer s) (lastIncomingPkt s)
    (lastSentAck s) (lastSentWinSize s) (initOurSeqno s) (initPeerSeqno s) (lastWriteTF s) (lastReadTF s) (wcount s)
    (rcount s) (errorState s) (rtt_est s) (rtt_dev s) (congestThreshold s) (congestWinSize s) (congestUpdate s) (ttl s)
    (mTTL_period s) (mTTL_start s) (mTTL_end s) (peeraddr s) (peerKnown s) (sent s).

Definition new_TcpStream : TcpStream :=
  let zero := f64_of_Z 0 in
  mk_TcpStream [] [] [] [] [] [] [] TCP_CLOSED false false 0 0 0 0 0 TCP_MAX_WIN TCP_ALIVE_TIMEOUT false
    (f64_of_Z TCP_RETRANS_TIMEOUT) zero zero zero 0 0 0 0 0 0 0 0 0 (f64_of_Z TCP_RETRANS_TIMEOUT) zero
    TCP_MAX_WIN MAX_SEG 0 0 zero zero zero 0 false [].

Definition inSize (s : TcpStream) : Z := Z.of_nat (length (inData s)).
Definition outSizeRead (s : TcpStream) : Z := Z.of_nat (length (outDataRead s)).
Definition outSizeNet (s : TcpStream) : Z := Z.of_nat (length (outDataNet s)).
Definition queue_size {A} (q : list A) : Z := Z.of_nat (length q).

(** ** Sequence numbers and timers *)

(** [(int)(tst - curr) < 0] *)
Definition isOldSequence (tst curr : Z) : bool := sint32 (u32 (tst - curr)) <? 0.

Definition setTTL (s : TcpStream) (t : Z) : TcpStream := s <| ttl := t |>.

Definition setRemoteAddress (s : TcpStream) (raddr : Z) : TcpStream := s <| peeraddr := raddr |> <| peerKnown := true |>.

Definition startRetransmitTimer (s : TcpStream) (cts : float64) : TcpStream :=
  if retransTimerOn s then s else s <| retransTimerTs := cts |> <| retransTimerOn := true |>.

Definition stopRetransmitTimer (s : TcpStream) : TcpStream :=
  if negb (retransTimerOn s) then s else s <| retransTimerOn := false |>.

Definition restartRetransmitTimer (s : TcpStream) (cts : float64) : TcpStream :=
  startRetransmitTimer (stopRetransmitTimer s) cts.

Definition resetRetransmitTimer (s : TcpStream) : TcpStream :=
  s <| retransTimerOn := false |>
    <| retransTimeout := f64_mul (f64_of_Z 2) (f64_add (rtt_est s) (f64_mul (f64_of_Z 4) (rtt_dev s))) |>.

Definition incRetransmitTimeout (s : TcpStream) : TcpStream :=
  let s := s <| retransTimeout := f64_mul (f64_of_Z 2) (retransTimeout s) |> in
  if float_lt (f64_of_Z TCP_RETRANS_MAX_TIMEOUT) (retransTimeout s)
  then s <| retransTimeout := f64_of_Z TCP_RETRANS_MAX_TIMEOUT |> else s.

(** ** Sending *)

Definition sendPkt (s : TcpStream) (p : TcpPacket) : TcpStream :=
  s <| sent := sent s ++ [(snd (writePacket p (MAX_SEG + TCP_PSEUDO_HDR_SIZE)), ttl s)] |>.

(** [toSend] fills in the sequence number, the ack and the window of the packet. *)
Definition toSend (s : TcpStream) (pkt : TcpPacket) (retransmit : bool) (cts : float64) : TcpStream :=
  if negb (peerKnown s) then s
  else
    let pkt := pkt <| winsize := u16 (inWinSize s) |> <| seqno := outSeqno s |> in
    let s := if datasize pkt =? 0 then s else s <| outSeqno := u32 (outSeqno s + datasize pkt) |> in
    let '(s, pkt) := if hasSyn pkt then (s <| outSeqno := u32 (outSeqno s + 1) |>, pkt)
                     else (s, setAck pkt (inAckno s)) in
    let pkt := pkt <| winsize := u16 (inWinSize s) |> in
    let s := s <| lastSentAck := ackno pkt |> <| lastSentWinSize := winsize pkt |> <| keepAliveTimer := cts |> in
    let s := sendPkt s pkt in
    if retransmit then
      let pkt := pkt <| ts := cts |> <| retrans := 0 |> in
      let s := startRetransmitTimer s cts in
      s <| outPkt := outPkt s ++ [pkt] |>
    else s.

Definition sendAck (s : TcpStream) (cts : float64) : TcpStream := toSend s (new_TcpPacket []) false cts.

Definition cleanup (s : TcpStream) : TcpStream :=
  (setTTL (s <| outStreamActive := false |> <| inStreamActive := false |> <| state := TCP_CLOSED |>) TCP_STD_TTL)
    <| inData := [] |> <| inQueue := [] |> <| outPkt := [] |> <| outDataRead := [] |> <| outDataNet := [] |>
    <| outQueue := [] |> <| inPkt := [] |>.

(** ** Public control *)

Definition connect (s : TcpStream) (raddr conn_period seq : Z) (cts : float64) : TcpStream * Z :=
  let s := setRemoteAddress s raddr in
  if negb (state s =? TCP_CLOSED) then
    if state s =? TCP_ESTABLISHED then (s, 0)
    else if state s <? TCP_ESTABLISHED then (s <| errorState := EAGAIN |>, -1)
    else (s <| errorState := EFAULT |>, -1)
  else
    let s := s <| outSeqno := seq |> <| initOurSeqno := seq |> <| outAcked := seq |> <| inWinSize := maxWinSize s |>
               <| congestThreshold := TCP_MAX_WIN |> <| congestWinSize := MAX_SEG |>
               <| congestUpdate := u32 (seq + MAX_SEG) |> in
    let s := setTTL s 1 in
    let s := s <| mTTL_start := cts |> <| mTTL_period := f64_of_Z conn_period |>
               <| mTTL_end := f64_add cts (f64_of_Z conn_period) |> in
    let s := toSend s (setSyn (new_TcpPacket [])) true cts in
    (s <| state := TCP_SYN_SENT |> <| errorState := EAGAIN |>, -1).

Definition listenfor (s : TcpStream) (raddr : Z) : TcpStream * Z :=
  let s := setRemoteAddress s raddr in
  if negb (state s =? TCP_CLOSED) then
    if state s =? TCP_ESTABLISHED then (s, 0)
    else if state s <? TCP_ESTABLISHED then (s <| errorState := EAGAIN |>, -1)
    else (s <| errorState := EFAULT |>, -1)
  else (s <| errorState := EAGAIN |>, -1).

Definition close (s : TcpStream) : TcpStream * Z := (cleanup s, 0).

Definition closeWrite (s : TcpStream) : TcpStream * Z :=
  let s := s <| outStreamActive := false |> in
  if state s =? TCP_CLOSED then (s, 0) else (s <| errorState := EAGAIN |>, -1).

Definition isConnected (s : TcpStream) : bool := state s =? TCP_ESTABLISHED.

Definition int_read_pending (s : TcpStream) : Z :=
  sint32 (outSizeRead s + queue_size (outQueue s) * MAX_SEG + outSizeNet s).

Definition write_allowed (s : TcpStream) : TcpStream * Z :=
  if state s =? TCP_CLOSED then (s <| errorState := EBADF |>, -1)
  else if state s <? TCP_ESTABLISHED then (s <| errorState := EAGAIN |>, -1)
  else if negb (outStreamActive s) then (s <| errorState := EBADF |>, -1)
  else (s, sint32 ((kMaxQueueSize - queue_size (inQueue s)) * MAX_SEG)).

Definition read_pending (s : TcpStream) : TcpStream * Z :=
  if state s =? TCP_CLOSED then (s <| errorState := EBADF |>, -1)
  else if state s <? TCP_ESTABLISHED then (s <| errorState := EAGAIN |>, -1)
  else (s, int_read_pending s).

(** ** Writing and reading *)

(** Whole buffers, and what is left. *)
Fixpoint cut_buffers (fuel : nat) (l : list Z) : list (list Z) * list Z :=
  match fuel with
  | O => ([], l)
  | S fuel =>
      if MAX_SEG <=? Z.of_nat (length l)
      then let '(bs, r) := cut_buffers fuel (drop (Z.to_nat MAX_SEG) l) in (take (Z.to_nat MAX_SEG) l :: bs, r)
      else ([], l)
  end.

Definition write (s : TcpStream) (dta : list Z) : TcpStream * Z :=
  let size := Z.of_nat (length dta) in
  if state s =? TCP_CLOSED then (s <| errorState := EBADF |>, -1)
  else if state s <? TCP_ESTABLISHED then (s <| errorState := EAGAIN |>, -1)
  else if kMaxQueueSize <? queue_size (inQueue s) then (s <| errorState := EAGAIN |>, -1)
  else if negb (outStreamActive s) then (s <| errorState := EBADF |>, -1)
  else if size + inSize s <? MAX_SEG then (s <| inData := inData s ++ dta |>, size)
  else
    let db := inData s ++ take (Z.to_nat (MAX_SEG - inSize s)) dta in
    let '(bs, rest) := cut_buffers (length dta) (drop (Z.to_nat (MAX_SEG - inSize s)) dta) in
    (s <| inQueue := inQueue s ++ db :: bs |> <| inData := rest |>, size).

Definition UpdateInWinSize (s : TcpStream) : TcpStream :=
  let queuedData := u32 (int_read_pending s) in
  s <| inWinSize := if queuedData <? maxWinSize s then maxWinSize s
                    else if queuedData <? u32 (2 * maxWinSize s) then u32 (2 * maxWinSize s - queuedData)
                    else 0 |>.

(** Taking whole buffers; the last one that is cut leaves its end. *)
Fixpoint read_queue (q : list (list Z)) (rem : Z) : list Z * list (list Z) * Z * option (list Z) :=
  match q with
  | [] => ([], [], rem, None)
  | db :: q =>
      if 0 <? rem then
        if rem <? MAX_SEG then (take (Z.to_nat rem) db, q, 0, Some (drop (Z.to_nat rem) db))
        else let '(d, q, rem, r) := read_queue q (rem - MAX_SEG) in (db ++ d, q, rem, r)
      else ([], db :: q, rem, None)
  end.

(** The result, and the bytes read. *)
Definition read (s : TcpStream) (size : Z) : TcpStream * Z * list Z :=
  let maxread := int_read_pending s in
  if state s =? TCP_CLOSED then (s <| errorState := EBADF |>, -1, [])
  else if state s <? TCP_ESTABLISHED then (s <| errorState := EAGAIN |>, -1, [])
  else if negb (inStreamActive s) && (maxread =? 0) then (s, 0, [])
  else if maxread =? 0 then (s <| errorState := EAGAIN |>, -1, [])
  else
    let size := if maxread <? size then maxread else size in
    if (u32 size <? outSizeRead s) && negb (outSizeRead s =? 0) then
      (UpdateInWinSize (s <| outDataRead := drop (Z.to_nat size) (outDataRead s) |>), size,
       take (Z.to_nat size) (outDataRead s))
    else
      let '(d, q, rem, cut) := read_queue (outQueue s) (size - outSizeRead s) in
      let dta := outDataRead s ++ d in
      let s := s <| outDataRead := default [] cut |> <| outQueue := q |> in
      if 0 <? rem then
        (UpdateInWinSize (s <| outDataNet := [] |> <| outDataRead := drop (Z.to_nat rem) (outDataNet s) |>), size,
         dta ++ take (Z.to_nat rem) (outDataNet s))
      else (UpdateInWinSize s, size, dta).

(** ** Receiving *)

(** The data of a packet in sequence goes to [outDataNet]; full buffers go to the queue.  The code copies every
    whole buffer of a large packet from the same place. *)
Definition store_data (s : TcpStream) (d : list Z) : TcpStream :=
  let n := Z.of_nat (length d) in
  if outSizeNet s + n <? MAX_SEG then s <| outDataNet := outDataNet s ++ d |>
  else
    let remSpace := MAX_SEG - outSizeNet s in
    let remData := n - remSpace in
    let big := slice (Z.to_nat remSpace) (Z.to_nat MAX_SEG) d in
    let db := outDataNet s ++ take (Z.to_nat remSpace) d in
    s <| outQueue := outQueue s ++ db :: replicate (Z.to_nat (remData / MAX_SEG)) big |>
      <| outDataNet := drop (length d - Z.to_nat (remData mod MAX_SEG)) d |>.

Definition handle_fin (s : TcpStream) (cts : float64) : TcpStream :=
  let s := sendAck s cts in
  let s := s <| inStreamActive := false |> in
  if state s =? TCP_ESTABLISHED then s <| state := TCP_CLOSE_WAIT |>
  else if state s =? TCP_FIN_WAIT_1 then s <| state := TCP_CLOSING |>
  else if state s =? TCP_FIN_WAIT_2 then cleanup (s <| state := TCP_TIMED_WAIT |>)
  else s.

Definition handle_fin_ack (s : TcpStream) : TcpStream :=
  if state s =? TCP_FIN_WAIT_1 then s <| state := TCP_FIN_WAIT_2 |>
  else if state s =? TCP_LAST_ACK then cleanup (s <| state := TCP_CLOSED |>)
  else if state s =? TCP_CLOSING then cleanup (s <| state := TCP_TIMED_WAIT |>)
  else s.

(** A packet that is next in sequence. *)
Definition use_packet (s : TcpStream) (pkt : TcpPacket) (cts : float64) : TcpStream :=
  let s := s <| inAckno := u32 (seqno pkt + datasize pkt) |> in
  let s := if hasAck pkt && isOldSequence (outAcked s) (ackno pkt)
           then s <| outAcked := ackno pkt |> <| outWinSize := winsize pkt |> else s in
  let s := store_data s (data pkt) in
  let s := UpdateInWinSize s in
  let s := if hasFin pkt then handle_fin s cts else s in
  if hasAck pkt && negb (outStreamActive s) && (ackno pkt =? outSeqno s) then handle_fin_ack s else s.

(** One pass over [inPkt]: the first packet in sequence, old ones on the way discarded. *)
Fixpoint scan_packets (l : list TcpPacket) (ack : Z) : option TcpPacket * list TcpPacket :=
  match l with
  | [] => (None, [])
  | p :: l =>
      if seqno p =? ack then (Some p, l)
      else if isOldSequence (seqno p) ack then scan_packets l ack
      else let '(r, l) := scan_packets l ack in (r, p :: l)
  end.

(** Every pass that finds a packet takes it out of the list. *)
Fixpoint check_loop (fuel : nat) (s : TcpStream) (cts : float64) : TcpStream :=
  match fuel with
  | O => s
  | S fuel =>
      let '(found, rest) := scan_packets (inPkt s) (inAckno s) in
      let s := s <| inPkt := rest |> in
      match found with
      | None => s
      | Some pkt => check_loop fuel (use_packet s pkt cts) cts
      end
  end.

Definition check_InPkts (s : TcpStream) (cts : float64) : TcpStream := check_loop (S (length (inPkt s))) s cts.

Definition incoming_Closed (s : TcpStream) (pkt : TcpPacket) (seq : Z) (cts : float64) : TcpStream :=
  if hasSyn pkt && negb (hasAck pkt) then
    let s := s <| initPeerSeqno := seqno pkt |> <| inAckno := u32 (seqno pkt + 1) |> <| outWinSize := winsize pkt |>
               <| inWinSize := maxWinSize s |> in
    let rsp := new_TcpPacket [] in
    let '(s, rsp) :=
      if state s =? TCP_CLOSED then
        (s <| outSeqno := seq |> <| initOurSeqno := seq |> <| outAcked := seq |> <| congestThreshold := TCP_MAX_WIN |>
           <| congestWinSize := MAX_SEG |> <| congestUpdate := u32 (seq + MAX_SEG) |>, setSyn rsp)
      else (s, rsp) in
    let rsp := setAck rsp (inAckno s) in
    let s := setTTL s TCP_STD_TTL in
    let s := toSend s rsp true cts in
    s <| state := TCP_SYN_RCVD |>
  else s.

Definition incoming_SynSent (s : TcpStream) (pkt : TcpPacket) (seq : Z) (cts : float64) : TcpStream :=
  if hasSyn pkt && hasAck pkt then
    if negb (getAck pkt =? outSeqno s) then s
    else
      let s := s <| initPeerSeqno := seqno pkt |> <| inAckno := u32 (seqno pkt + 1) |> <| outWinSize := winsize pkt |>
                 <| outAcked := getAck pkt |> in
      let s := setTTL s TCP_STD_TTL in
      let s := sendAck s cts in
      s <| state := TCP_ESTABLISHED |> <| outStreamActive := true |> <| inStreamActive := true |>
  else incoming_Closed s pkt seq cts.

Definition incoming_Established (s : TcpStream) (pkt : TcpPacket) (cts : float64) : TcpStream :=
  let s :=
    if negb (isOldSequence (seqno pkt) (inAckno s)) && isOldSequence (seqno pkt) (u32 (inAckno s + maxWinSize s)) then
      let s := if hasAck pkt then s <| outAcked := ackno pkt |> else s in
      s <| outWinSize := winsize pkt |>
    else sendAck s cts in
  let s := s <| inPkt := inPkt s ++ [pkt] |> in
  let s := if kMaxQueueSize <? queue_size (inPkt s) then s <| inPkt := tail (inPkt s) |> else s in
  check_InPkts s cts.

Definition incoming_SynRcvd (s : TcpStream) (pkt : TcpPacket) (cts : float64) : TcpStream :=
  if hasRst pkt then s <| state := TCP_CLOSED |>
  else if hasAck pkt then
    if negb (getAck pkt =? outSeqno s) then s
    else
      let s := s <| inAckno := seqno pkt |> <| outWinSize := winsize pkt |> <| outAcked := getAck pkt |> in
      let s := setTTL s TCP_STD_TTL in
      let s := s <| state := TCP_ESTABLISHED |> <| outStreamActive := true |> <| inStreamActive := true |> in
      if 0 <? datasize pkt then incoming_Established s pkt cts else s
  else s.

(** [seq] is the random number drawn when a connection is opened by the peer. *)
Definition handleIncoming (s : TcpStream) (pkt : TcpPacket) (seq : Z) (cts : float64) : TcpStream :=
  if (state s =? TCP_CLOSED) || (state s =? TCP_LISTEN) then incoming_Closed s pkt seq cts
  else if state s =? TCP_SYN_SENT then incoming_SynSent s pkt seq cts
  else if state s =? TCP_SYN_RCVD then incoming_SynRcvd s pkt cts
  else if state s =? TCP_TIMED_WAIT then s <| state := TCP_CLOSED |>
  else incoming_Established s pkt cts.

Definition recvPkt (s : TcpStream) (buf : list Z) (seq : Z) (cts : float64) : TcpStream :=
  let '(r, pkt) := readPacket (new_TcpPacket []) buf in
  if 0 <? r then handleIncoming (s <| lastIncomingPkt := cts |>) pkt seq cts else s.

(** ** The tick *)

Definition recv_check (s : TcpStream) (cts : float64) : TcpStream :=
  if (TCP_SYN_RCVD <? state s) && float_lt (f64_of_Z kNoPktTimeout) (f64_sub cts (lastIncomingPkt s))
  then cleanup (s <| outStreamActive := false |> <| inStreamActive := false |> <| state := TCP_CLOSED |>) else s.

Definition RTT_ALPHA : float64 := f64_div (f64_of_Z 7) (f64_of_Z 8).

(** One acknowledged packet: the congestion window once per [congestUpdate], and Jacobson's round trip estimate as
    long as no packet was retransmitted. *)
Definition ack_window (s : TcpStream) : TcpStream :=
  if negb (isOldSequence (outAcked s) (congestUpdate s)) then
    let w := if congestWinSize s <? congestThreshold s then u32 (congestWinSize s * 2) else u32 (congestWinSize s + MAX_SEG) in
    let w := if maxWinSize s <? w then maxWinSize s else w in
    s <| congestWinSize := w |> <| congestUpdate := u32 (outAcked s + w) |>
  else s.

Definition ack_rtt (s : TcpStream) (pkt : TcpPacket) (cts : float64) : TcpStream :=
  let ack_time := f64_sub cts (ts pkt) in
  let rest := f64_sub (f64_of_Z 1) RTT_ALPHA in
  let s := s <| rtt_est := f64_add (f64_mul RTT_ALPHA (rtt_est s)) (f64_mul rest ack_time) |> in
  let s := s <| rtt_dev := f64_add (f64_mul RTT_ALPHA (rtt_dev s)) (f64_mul rest (f64_abs (f64_sub (rtt_est s) ack_time))) |> in
  s <| retransTimeout := f64_add (rtt_est s) (f64_mul (f64_of_Z 4) (rtt_dev s)) |>.

Fixpoint ack_loop (pkts : list TcpPacket) (s : TcpStream) (updateRTT clearedPkts : bool) (cts : float64)
    : TcpStream * list TcpPacket * bool :=
  match pkts with
  | [] => (s, [], clearedPkts)
  | pkt :: pkts =>
      if isOldSequence (seqno pkt) (outAcked s) then
        let s := ack_window s in
        let updateRTT := updateRTT && (retrans pkt =? 0) in
        let s := if updateRTT then ack_rtt s pkt cts else s in
        ack_loop pkts s updateRTT true cts
      else (s, pkt :: pkts, clearedPkts)
  end.

Definition acknowledge (s : TcpStream) (cts : float64) : TcpStream :=
  let '(s, rest, clearedPkts) := ack_loop (outPkt s) s true false cts in
  let s := s <| outPkt := rest |> in
  match rest with
  | [] => resetRetransmitTimer s
  | _ => if clearedPkts then startRetransmitTimer (resetRetransmitTimer s) cts else s
  end.

(** [retrans]: the oldest packet again when the timer has run out; too many times, and the stream is closed. *)
Definition retransmit (s : TcpStream) (cts : float64) : TcpStream :=
  if negb (peerKnown s) then s
  else if negb (retransTimerOn s) then s
  else if float_lt (f64_sub cts (retransTimerTs s)) (retransTimeout s) then s
  else
    match outPkt s with
    | [] => resetRetransmitTimer s
    | pkt :: pkts =>
        let s := s <| congestThreshold := congestWinSize s / 2 |> <| congestWinSize := MAX_SEG |>
                   <| congestUpdate := u32 (outAcked s + MAX_SEG) |> in
        let '(s, pkt) := if negb (hasSyn pkt)
                         then let pkt := setAck pkt (inAckno s) in (s <| lastSentAck := ackno pkt |>, pkt) else (s, pkt) in
        let pkt := pkt <| winsize := u16 (inWinSize s) |> in
        let s := s <| lastSentWinSize := winsize pkt |> <| keepAliveTimer := cts |> in
        let s := if hasSyn pkt && (ttl s <? TCP_STD_TTL)
                 then setTTL s (if float_lt cts (mTTL_end s) then TCP_DEFAULT_FIREWALL_TTL else ttl s + 1) else s in
        if (hasSyn pkt && (kMaxSynPktRetransmit <? TcpPacket.retrans pkt))
           || (negb (hasSyn pkt) && (kMaxPktRetransmit <? TcpPacket.retrans pkt))
        then cleanup (s <| outStreamActive := false |> <| inStreamActive := false |> <| state := TCP_CLOSED |>)
        else
          let s := sendPkt s pkt in
          let pkt := pkt <| ts := cts |> <| TcpPacket.retrans := u16 (TcpPacket.retrans pkt + 1) |> in
          let s := s <| outPkt := pkt :: pkts |> in
          if negb (hasSyn pkt) then restartRetransmitTimer (incRetransmitTimeout s) cts
          else startRetransmitTimer (resetRetransmitTimer s) cts
    end.

(** Whole buffers, as many as the window allows. *)
Fixpoint send_queue (q : list (list Z)) (s : TcpStream) (maxsend sent : Z) (cts : float64) : TcpStream * Z * Z :=
  match q with
  | [] => (s <| inQueue := [] |>, maxsend, sent)
  | db :: q =>
      if MAX_SEG <=? maxsend
      then send_queue q (toSend (s <| inQueue := q |>) (new_TcpPacket db) true cts) (maxsend - MAX_SEG) (sent + 1) cts
      else (s <| inQueue := db :: q |>, maxsend, sent)
  end.

Definition needsAck (s : TcpStream) (cts : float64) : bool :=
  isOldSequence (lastSentAck s) (inAckno s)
  || ((lastSentWinSize s <? MAX_SEG) && (MAX_SEG <? inWinSize s))
  || (float_lt (f64_mul (retransTimeout s) (f64_of_Z 4)) (f64_sub cts (keepAliveTimer s))
      && (u32 (lastSentWinSize s + 4 * MAX_SEG) <? inWinSize s))
  || float_lt (f64_of_Z (keepAliveTimeout s)) (f64_sub cts (keepAliveTimer s)).

(** Nothing was sent: the FIN at the end of the stream, or an ack when one is due. *)
Definition send_control (s : TcpStream) (cts : float64) : TcpStream :=
  let ack := needsAck s cts in
  if negb (outStreamActive s) && (queue_size (inQueue s) + inSize s =? 0)
     && ((state s =? TCP_ESTABLISHED) || (state s =? TCP_CLOSE_WAIT)) then
    let s := toSend s (setFin (new_TcpPacket [])) false cts in
    if state s =? TCP_ESTABLISHED then s <| state := TCP_FIN_WAIT_1 |>
    else if state s =? TCP_CLOSE_WAIT then s <| state := TCP_LAST_ACK |>
    else s
  else if ack then sendAck s cts else s.

(** The bytes the peer has not acknowledged; one less than that when the numbers have wrapped. *)
Definition inTransit (s : TcpStream) : Z :=
  if outSeqno s <? outAcked s then u32 ((TCP_MAX_SEQ - outAcked s) + outSeqno s) else u32 (outSeqno s - outAcked s).

Definition send (s : TcpStream) (cts : float64) : TcpStream :=
  let s := acknowledge s cts in
  let s := retransmit s cts in
  if state s <? TCP_ESTABLISHED then s
  else
    let maxsend := if outWinSize s <? congestWinSize s then outWinSize s else congestWinSize s in
    let maxsend := if inTransit s <? maxsend then maxsend - inTransit s else 0 in
    let '(s, maxsend, sent) := send_queue (inQueue s) s maxsend 0 cts in
    let '(s, sent) :=
      if (sent =? 0) && (queue_size (inQueue s) =? 0) && (inSize s <=? maxsend) && negb (inSize s =? 0)
      then (toSend (s <| inData := [] |>) (new_TcpPacket (inData s)) true cts, sent + 1) else (s, sent) in
    if sent =? 0 then send_control s cts else s.

Definition tick (s : TcpStream) (cts : float64) : TcpStream := send (recv_check s cts) cts.

(** ** Counters *)

Definition int_wbytes (s : TcpStream) : Z := u32 (outSeqno s - initOurSeqno s - 1).
Definition int_rbytes (s : TcpStream) : Z := u32 (inAckno s - initPeerSeqno s - 1).

Definition widle (s : TcpStream) : TcpStream * bool :=
  if lastWriteTF s =? 0 then (s <| lastWriteTF := int_wbytes s |>, false)
  else if (lastWriteTF s =? int_wbytes s) && (inSize s =? 0) && (queue_size (inQueue s) =? 0) then
    let s := s <| wcount := u16 (wcount s + 1) |> in (s, ilevel <? wcount s)
  else (s <| wcount := 0 |> <| lastWriteTF := int_wbytes s |>, false).

Definition ridle (s : TcpStream) : TcpStream * bool :=
  if lastReadTF s =? 0 then (s <| lastReadTF := int_rbytes s |>, false)
  else if (lastReadTF s =? int_rbytes s) && (outSizeRead s + queue_size (outQueue s) + outSizeNet s =? 0) then
    let s := s <| rcount := u16 (rcount s + 1) |> in (s, ilevel <? rcount s)
  else (s <| rcount := 0 |> <| lastReadTF := int_rbytes s |>, false).
