(* ===== verification/TcpStreamProps.v ===== *)
(** * The invariant of a stream over UDP

    What one end has handed to the network and what the other end has accepted are prefixes of one byte stream,
    whatever the network loses, repeats or reorders. *)

From S2P Require Import Prelude TcpPacket TcpStream.
From Stdlib Require Import ZArith Lia SpecFloat.
From stdpp Require Import base list.
Open Scope Z_scope.

(** ** Packets that carry a piece of a stream *)

Section Carries.
Context (b : Z).

(** The data of [p] is the piece of [S] at the position its sequence number names, [b] being the number of
    the first byte. *)
Definition carries (S : list Z) (p : TcpPacket) : Prop :=
  data p <> [] -> exists pos, seqno p = u32 (b + Z.of_nat pos) /\ (pos + length (data p) <= length S)%nat /\
    data p = slice pos (length (data p)) S /\ (length (data p) <= 1000)%nat.

Definition carries_datagram (S : list Z) (d : list Z) : Prop :=
  forall q, 0 < (readPacket q d).1 -> carries S (readPacket q d).2.

Lemma carries_empty S p : data p = [] -> carries S p.
Proof. intros H Hne. done. Qed.

Lemma slice_app_l {A} pos n (S T : list A) : (pos + n <= length S)%nat -> slice pos n (S ++ T) = slice pos n S.
Proof. intros H. unfold slice. rewrite drop_app_le by lia. rewrite take_app_le; [done|]. rewrite length_drop. lia. Qed.

Lemma carries_app S T p : carries S p -> carries (S ++ T) p.
Proof.
  intros H Hne. destruct (H Hne) as (pos & Hs & Hl & Hd & Hm). exists pos. rewrite length_app. split; [done|].
  split; [lia|]. by rewrite slice_app_l.
Qed.

Lemma carries_datagram_app S T d : carries_datagram S d -> carries_datagram (S ++ T) d.
Proof. intros H q Hq. apply carries_app. by apply H. Qed.

Lemma carries_same S p p' : data p' = data p -> seqno p' = seqno p -> carries S p -> carries S p'.
Proof. unfold carries. by intros -> ->. Qed.

(** What is written to the network carries the same piece. *)
Lemma carries_write S p size : is_word 32 (seqno p) -> carries S p -> carries_datagram S (writePacket p size).2.
Proof.
  intros Hw Hp q Hq. destruct (writePacket p size) as [ret buf] eqn:E. cbn [snd] in *.
  destruct (decide (0 <= ret)) as [Hr|Hr].
  - destruct (read_write_fields p q size ret buf E Hr) as [-> _]. cbn [snd]. eapply carries_same; [..|exact Hp]; [done|].
    cbn [seqno]. by apply wrap_small.
  - unfold writePacket in E. destruct (size <? _); [|injection E as <- <-; unfold TCP_PSEUDO_HDR_SIZE, datasize in Hr; lia].
    injection E as <- <-. by cbn in Hq.
Qed.

(** The piece that starts where a sender stands. *)
Lemma carries_next S d p : data p = d -> seqno p = u32 (b + Z.of_nat (length S)) -> (length d <= 1000)%nat -> carries (S ++ d) p.
Proof.
  intros <- Hs Hl _. exists (length S). rewrite length_app. split; [done|]. split; [lia|]. split; [|done].
  unfold slice. by rewrite drop_app_length, take_ge.
Qed.

(** ** The two halves of an end *)

(** [W]: written by the application; [S]: given to the network for the first time. *)
Record snd_ok (W S : list Z) (s : TcpStream) : Prop := {
  so_prefix : S ++ concat (inQueue s) ++ inData s `prefix_of` W;
  so_all : state s <> TCP_CLOSED -> S ++ concat (inQueue s) ++ inData s = W;
  so_seq : outSeqno s = u32 (b + Z.of_nat (length S));
  so_queue : Forall (fun q => length q = 1000%nat) (inQueue s);
  so_data : (length (inData s) < 1000)%nat;
  so_pkts : Forall (fun p => is_word 32 (seqno p) /\ carries S p) (outPkt s);
  so_sent : Forall (fun x => carries_datagram S x.1) (sent s);
  so_peer : peerKnown s = true
}.

(** [S]: what the other end has given to the network; [D]: read by the application. *)
Record rcv_open (S D : list Z) (s : TcpStream) : Prop := {
  ro_content : exists r, (r <= length S)%nat /\ inAckno s = u32 (b + Z.of_nat r) /\
    D ++ outDataRead s ++ concat (outQueue s) ++ outDataNet s = take r S;
  ro_queue : Forall (fun q => length q = 1000%nat) (outQueue s);
  ro_net : (length (outDataNet s) < 1000)%nat;
  ro_pkts : Forall (carries S) (inPkt s)
}.

Definition rcv_ok (S D : list Z) (s : TcpStream) : Prop :=
  D `prefix_of` S /\ (state s <> TCP_CLOSED -> rcv_open S D s).

Definition state_ok (s : TcpStream) : Prop := state s = TCP_CLOSED \/ TCP_ESTABLISHED <= state s <= TCP_LAST_ACK.

Lemma rcv_open_app S T D s : rcv_open S D s -> rcv_open (S ++ T) D s.
Proof.
  intros [(r & Hr & Ha & Hc) Hq Hn Hp]. split; try done.
  - exists r. rewrite length_app, take_app_le by lia. split; [lia|done].
  - eapply Forall_impl; [exact Hp|]. intros. by apply carries_app.
Qed.

Lemma rcv_ok_app S T D s : rcv_ok S D s -> rcv_ok (S ++ T) D s.
Proof. intros [Hp Ho]. split; [by apply prefix_app_r|]. intros H. by apply rcv_open_app, Ho. Qed.
End Carries.

(** Both directions: [b] numbers the first byte sent, [b'] the first byte received. *)
Record end_ok (b b' : Z) (W S S' D : list Z) (s : TcpStream) : Prop := {
  eo_snd : snd_ok b W S s;
  eo_rcv : rcv_ok b' S' D s;
  eo_state : state_ok s
}.

(** ** Steps that change none of this *)

Definition send_view (s : TcpStream) := (inData s, inQueue s, outPkt s, outSeqno s, sent s, peerKnown s).
Definition recv_view (s : TcpStream) := (outDataRead s, outDataNet s, outQueue s, inPkt s, inAckno s).

Record same_views (s s' : TcpStream) : Prop := {
  sv_send : send_view s' = send_view s;
  sv_recv : recv_view s' = recv_view s;
  sv_state : state s' = state s
}.

#[export] Instance same_views_refl : Reflexive same_views.
Proof. by split. Qed.

#[export] Instance same_views_trans : Transitive same_views.
Proof. intros x y z [] []. split; congruence. Qed.

Lemma snd_frame b W S s s' : send_view s' = send_view s -> (state s' <> TCP_CLOSED -> state s <> TCP_CLOSED) ->
  snd_ok b W S s -> snd_ok b W S s'.
Proof. intros [= E1 E2 E3 E4 E5 E6] Hst []. split; rewrite ?E1, ?E2, ?E3, ?E4, ?E5, ?E6; auto. Qed.

Lemma rcv_frame b S D s s' : recv_view s' = recv_view s -> (state s' <> TCP_CLOSED -> state s <> TCP_CLOSED) ->
  rcv_ok b S D s -> rcv_ok b S D s'.
Proof.
  intros [= E1 E2 E3 E4 E5] Hst [Hp Ho]. split; [done|]. intros H. destruct (Ho (Hst H)) as [Hc Hq Hn Hi].
  split; rewrite ?E1, ?E2, ?E3, ?E4, ?E5; done.
Qed.

Section End.
Context (b b' : Z) (W S S' D : list Z).
Abbreviation ok := (end_ok b b' W S S' D).

Lemma end_same s s' : same_views s s' -> ok s -> ok s'.
Proof.
  intros [Es Er Et] [Hs Hr Hst]. split.
  - eapply snd_frame; [exact Es|by rewrite Et|done].
  - eapply rcv_frame; [exact Er|by rewrite Et|done].
  - unfold state_ok. by rewrite Et.
Qed.

(** Moving between states of an open connection, or closing it. *)
Lemma end_state s s' st : send_view s' = send_view s -> recv_view s' = recv_view s -> state s' = st ->
  (st = TCP_CLOSED \/ TCP_ESTABLISHED <= st <= TCP_LAST_ACK) -> state s <> TCP_CLOSED -> ok s -> ok s'.
Proof.
  intros Es Er Et Hst Hne [Hs Hr _]. split; [by eapply snd_frame|by eapply rcv_frame|]. unfold state_ok. by rewrite Et.
Qed.

Lemma end_close s s' : send_view s' = send_view s -> recv_view s' = recv_view s -> state s' = TCP_CLOSED -> ok s -> ok s'.
Proof.
  intros Es Er Et [Hs Hr _]. split; [by eapply snd_frame; [exact Es|rewrite Et|]|by eapply rcv_frame; [exact Er|rewrite Et|]|by left].
Qed.

Lemma end_cleanup s : ok s -> ok (cleanup s).
Proof.
  intros [[H1 H2 H3 H4 H5 H6 H7 H8] [Hp _] _]. split.
  - split; cbn; try done; [|lia].
    rewrite !app_nil_r. etransitivity; [|exact H1]. by apply prefix_app_r.
  - split; [done|]. intros H. by destruct H.
  - by left.
Qed.
End End.

(** ** Sending *)

Lemma startTimer_views s cts : same_views s (startRetransmitTimer s cts).
Proof. unfold startRetransmitTimer. by destruct (retransTimerOn s). Qed.

Lemma resetTimer_views s : same_views s (resetRetransmitTimer s).
Proof. done. Qed.

Lemma restartTimer_views s cts : same_views s (restartRetransmitTimer s cts).
Proof. unfold restartRetransmitTimer, stopRetransmitTimer. etransitivity; [|apply startTimer_views]. by destruct (retransTimerOn s). Qed.

Lemma incTimeout_views s : same_views s (incRetransmitTimeout s).
Proof. unfold incRetransmitTimeout. cbv zeta. by destruct (float_lt _ _). Qed.

Lemma UpdateInWinSize_views s : same_views s (UpdateInWinSize s).
Proof. done. Qed.

(** [toSend] of a packet without SYN: one datagram, the sequence number advanced by the data. *)
Lemma toSend_spec s p rt cts :
  peerKnown s = true -> hasSyn p = false -> is_word 32 (outSeqno s) ->
  exists p' p'', data p' = data p /\ seqno p' = outSeqno s /\ data p'' = data p /\ seqno p'' = outSeqno s /\
    send_view (toSend s p rt cts) =
      (inData s, inQueue s, (if rt then outPkt s ++ [p''] else outPkt s), u32 (outSeqno s + datasize p),
       sent s ++ [((writePacket p' (MAX_SEG + TCP_PSEUDO_HDR_SIZE)).2, ttl s)], true) /\
    recv_view (toSend s p rt cts) = recv_view s /\ state (toSend s p rt cts) = state s.
Proof.
  intros Hp Hsyn Hw. unfold toSend. rewrite Hp. cbn [negb]. cbv zeta.
  change (hasSyn (p <| winsize := u16 (inWinSize s) |> <| seqno := outSeqno s |>)) with (hasSyn p). rewrite Hsyn.
  change (datasize (p <| winsize := u16 (inWinSize s) |> <| seqno := outSeqno s |>)) with (datasize p).
  set (s1 := if datasize p =? 0 then s else s <| outSeqno := u32 (outSeqno s + datasize p) |>).
  assert (E1 : outSeqno s1 = u32 (outSeqno s + datasize p)).
  { unfold s1. destruct (Z.eqb_spec (datasize p) 0) as [->|]; [|done]. by rewrite Z.add_0_r, wrap_small. }
  assert (Es : inData s1 = inData s /\ inQueue s1 = inQueue s /\ outPkt s1 = outPkt s /\ sent s1 = sent s /\
               peerKnown s1 = true /\ recv_view s1 = recv_view s /\ state s1 = state s /\ ttl s1 = ttl s).
  { unfold s1. by destruct (datasize p =? 0). }
  destruct Es as (H1 & H2 & H3 & H4 & H5 & H6 & H7 & H8).
  match goal with |- context [sendPkt ?s2 ?p2] => set (p' := p2) end.
  match goal with |- context [sendPkt ?s2 p'] => set (s2' := s2) end.
  exists p', (p' <| ts := cts |> <| TcpPacket.retrans := 0 |>). split; [done|]. split; [done|]. split; [done|]. split; [done|].
  destruct rt.
  - destruct (startTimer_views (sendPkt s2' p') cts) as [V1 V2 V3]. unfold send_view in V1. injection V1 as A1 A2 A3 A4 A5 A6.
    split; [|split; [exact (eq_trans V2 H6)|exact (eq_trans V3 H7)]].
    unfold send_view. cbn [inData inQueue outPkt outSeqno sent peerKnown upd].
    rewrite A1, A2, A3, A4, A5, A6. cbn. by rewrite H1, H2, H3, H4, H5, H8, <- E1.
  - split; [|split; [exact H6|exact H7]]. unfold send_view. cbn. by rewrite H1, H2, H3, H4, H5, H8, <- E1.
Qed.

Section Send.
Context (b b' : Z) (W S S' D : list Z).
Abbreviation ok := (end_ok b b' W S S' D).

Lemma snd_word s : snd_ok b W S s -> is_word 32 (outSeqno s).
Proof. intros H. rewrite (so_seq _ _ _ _ H). by apply wrap_is_word. Qed.

(** A control packet. *)
Lemma toSend_control s p cts : data p = [] -> hasSyn p = false -> ok s -> ok (toSend s p false cts).
Proof.
  intros Hd Hsyn [Hs Hr Hst].
  destruct (toSend_spec s p false cts (so_peer _ _ _ _ Hs) Hsyn (snd_word s Hs)) as (p' & p'' & Hd' & Hs' & _ & _ & Ev & Er & Et).
  unfold datasize in Ev. rewrite Hd, Z.add_0_r, wrap_small in Ev by by apply snd_word. injection Ev as E1 E2 E3 E4 E5 E6.
  split; [|by eapply rcv_frame; [exact Er|rewrite Et|]|unfold state_ok; by rewrite Et].
  pose proof (snd_word s Hs) as Hw. destruct Hs. split; rewrite ?E1, ?E2, ?E3, ?E4, ?E5, ?Et; try done. apply Forall_app. split; [done|]. constructor; [|done].
  cbn [fst]. apply carries_write; [by rewrite Hs'|]. apply carries_empty. congruence.
Qed.

Lemma sendAck_ok s cts : ok s -> ok (sendAck s cts).
Proof. by apply toSend_control. Qed.

(** Data: from an end that has put [d] aside. *)
Lemma toSend_data s s0 d cts : (length d <= 1000)%nat ->
  snd_ok b W S s0 -> peerKnown s = true -> outSeqno s = outSeqno s0 -> outPkt s = outPkt s0 -> sent s = sent s0 ->
  Forall (fun q => length q = 1000%nat) (inQueue s) -> (length (inData s) < 1000)%nat -> state s = state s0 ->
  d ++ concat (inQueue s) ++ inData s = concat (inQueue s0) ++ inData s0 ->
  snd_ok b W (S ++ d) (toSend s (new_TcpPacket d) true cts) /\
  recv_view (toSend s (new_TcpPacket d) true cts) = recv_view s /\ state (toSend s (new_TcpPacket d) true cts) = state s.
Proof.
  intros Hd Hs Hp E1 E2 E3 Hq Hin Est Hc. pose proof (snd_word s0 Hs) as Hw. rewrite <- E1 in Hw.
  destruct (toSend_spec s (new_TcpPacket d) true cts Hp eq_refl Hw) as (p' & p'' & Hd1 & Hs1 & Hd2 & Hs2 & Ev & Er & Et).
  split; [|done]. injection Ev as F1 F2 F3 F4 F5 F6. destruct Hs as [G1 G2 G3 G4 G5 G6 G7 G8].
  assert (Hseq : outSeqno s = u32 (b + Z.of_nat (length S))) by congruence.
  split; rewrite ?F1, ?F2, ?F3, ?F4, ?F5, ?Et, ?Est.
  - by rewrite <- app_assoc, Hc.
  - by rewrite <- app_assoc, Hc.
  - unfold datasize. cbn [data new_TcpPacket]. rewrite Hseq, wrap_add_l, length_app. f_equal. lia.
  - done.
  - done.
  - rewrite E2. apply Forall_app. split.
    + eapply Forall_impl; [exact G6|]. intros x [Hx1 Hx2]. split; [done|by apply carries_app].
    + constructor; [|done]. split; [by rewrite Hs2|]. apply carries_next; [done|by rewrite Hs2|done].
  - rewrite E3. apply Forall_app. split.
    + eapply Forall_impl; [exact G7|]. intros x Hx. by apply carries_datagram_app.
    + constructor; [|done]. cbn [fst]. apply carries_write; [by rewrite Hs1|]. apply carries_next; [done|by rewrite Hs1|done].
  - done.
Qed.
End Send.

(** ** The tick *)

Lemma ack_loop_views cts : forall pkts s u c, exists k,
  let '(s', rest, _) := ack_loop pkts s u c cts in same_views s s' /\ rest = drop k pkts.
Proof.
  induction pkts as [|p pkts IH]; intros s u c; [by exists 0%nat|]. cbn [ack_loop].
  destruct (isOldSequence _ _); [|by exists 0%nat]. cbv zeta.
  match goal with |- context [ack_loop pkts ?s1 ?u1 true cts] => destruct (IH s1 u1 true) as [k Hk]; assert (V : same_views s s1) end.
  { unfold ack_window, ack_rtt. by destruct (negb _); destruct (u && _). }
  exists (Datatypes.S k). destruct (ack_loop _ _ _ _ _) as [[s' rest] c']. destruct Hk as [Hv Hr]. split; [by etransitivity|done].
Qed.

Section Tick.
Context (b b' : Z) (W S' D : list Z).
Abbreviation ok S := (end_ok b b' W S S' D).

Lemma end_outPkt S s pkts : Forall (fun p => is_word 32 (seqno p) /\ carries b S p) pkts -> ok S s -> ok S (s <| outPkt := pkts |>).
Proof. intros Hp [[] Hr Hst]. split; [by split|by apply (rcv_frame _ _ _ s)|done]. Qed.

Lemma acknowledge_ok S s cts : ok S s -> ok S (acknowledge s cts).
Proof.
  intros Hs. unfold acknowledge. destruct (ack_loop_views cts (outPkt s) s true false) as [k Hk].
  destruct (ack_loop _ _ _ _ _) as [[s' rest] c]. destruct Hk as [Hv ->].
  assert (H1 : ok S (s' <| outPkt := drop k (outPkt s) |>)).
  { apply end_outPkt; [|by apply (end_same _ _ _ _ _ _ s)]. apply Forall_drop. apply (eo_snd _ _ _ _ _ _ _ Hs). }
  destruct (drop k (outPkt s)); [by eapply end_same; [apply resetTimer_views|]|].
  destruct c; [|done]. eapply end_same; [apply startTimer_views|]. by eapply end_same; [apply resetTimer_views|].
Qed.

Lemma end_send S s p : is_word 32 (seqno p) -> carries b S p -> ok S s -> ok S (sendPkt s p).
Proof.
  intros Hw Hp [[] Hr Hst]. split; [|by apply (rcv_frame _ _ _ s)|exact Hst]. split; try done. apply Forall_app. split; [done|].
  constructor; [|done]. by apply carries_write.
Qed.

Lemma retransmit_ok S s cts : ok S s -> ok S (retransmit s cts).
Proof.
  intros Hs. unfold retransmit. destruct (negb (peerKnown s)); [done|]. destruct (negb (retransTimerOn s)); [done|].
  destruct (float_lt _ _); [done|]. destruct (outPkt s) as [|p pkts] eqn:E; [by eapply end_same; [apply resetTimer_views|]|].
  pose proof (so_pkts _ _ _ _ (eo_snd _ _ _ _ _ _ _ Hs)) as Hp. rewrite E in Hp. apply Forall_cons in Hp as [[Hw Hp] Hps]. cbv zeta.
  match goal with |- context [if negb (hasSyn p) then (?a, ?x) else ?c] =>
    set (sp := if negb (hasSyn p) then (a, x) else c) end.
  assert (Hsp : same_views s sp.1 /\ data sp.2 = data p /\ seqno sp.2 = seqno p) by (unfold sp; by destruct (negb (hasSyn p))).
  destruct sp as [s1 p1]. cbn [fst snd] in Hsp. destruct Hsp as (Hv1 & Hd1 & Hs1).
  set (p2 := p1 <| winsize := u16 (inWinSize s1) |>).
  match goal with |- context [if hasSyn p2 && (?t <? TCP_STD_TTL) then ?a else ?c] =>
    set (s2 := if hasSyn p2 && (t <? TCP_STD_TTL) then a else c) end.
  assert (Hv2 : same_views s s2) by (etransitivity; [exact Hv1|]; unfold s2; by destruct (hasSyn p2 && _)).
  assert (H2 : ok S s2) by (by apply (end_same _ _ _ _ _ _ s)).
  destruct (_ || _).
  - apply end_cleanup. by apply (end_close _ _ _ _ _ _ s2).
  - assert (H3 : ok S (sendPkt s2 p2)).
    { apply end_send; [by change (is_word 32 (seqno p1)); rewrite Hs1|by apply (carries_same b S p)|done]. }
    set (p3 := p2 <| ts := cts |> <| TcpPacket.retrans := u16 (TcpPacket.retrans p2 + 1) |>).
    assert (H4 : ok S ((sendPkt s2 p2) <| outPkt := p3 :: pkts |>)).
    { apply end_outPkt; [|done]. constructor; [|done]. split; [by change (is_word 32 (seqno p1)); rewrite Hs1|by apply (carries_same b S p)]. }
    destruct (negb (hasSyn p3)).
    + eapply end_same; [apply restartTimer_views|]. by eapply end_same; [apply incTimeout_views|].
    + eapply end_same; [apply startTimer_views|]. by eapply end_same; [apply resetTimer_views|].
Qed.

(** Whole buffers out of the queue. *)
Lemma send_queue_ok cts : forall q S s m n,
  snd_ok b W S (s <| inQueue := q |>) ->
  exists T, let '(s', _, _) := send_queue q s m n cts in
    snd_ok b W (S ++ T) s' /\ recv_view s' = recv_view s /\ state s' = state s.
Proof.
  induction q as [|d q IH]; intros S s m n Hs; cbn [send_queue].
  { exists []. by rewrite app_nil_r. }
  destruct (MAX_SEG <=? m); [|exists []; by rewrite app_nil_r].
  pose proof (so_queue _ _ _ _ Hs) as Hq. cbn in Hq. apply Forall_cons in Hq as [Hd Hq].
  destruct (toSend_data b W S (s <| inQueue := q |>) (s <| inQueue := d :: q |>) d cts) as (H1 & H2 & H3); try done.
  { lia. } { apply Hs. } { apply Hs. } { cbn. by rewrite <- app_assoc. }
  set (s1 := toSend _ _ _ _) in *. assert (Eq1 : inQueue s1 = q).
  { set (sq := s <| inQueue := q |>) in s1.
    assert (Hpk : peerKnown sq = true) by apply Hs. assert (Hw : is_word 32 (outSeqno sq)) by exact (snd_word _ _ _ _ Hs).
    destruct (toSend_spec sq (new_TcpPacket d) true cts Hpk eq_refl Hw)
      as (p' & p'' & _ & _ & _ & _ & Ev & _). injection Ev as F1 F2 F3 F4 F5 F6. exact F2. }
  destruct (IH (S ++ d) s1 (m - MAX_SEG) (n + 1)) as [T HT].
  { apply (snd_frame b W (S ++ d) s1); [unfold send_view; by rewrite Eq1|done|exact H1]. }
  exists (d ++ T). destruct (send_queue _ _ _ _ _) as [[s' m'] n']. destruct HT as (G1 & G2 & G3).
  rewrite app_assoc. split; [done|]. split; [by rewrite G2, H2|by rewrite G3, H3].
Qed.
End Tick.

Section Send2.
Context (b b' : Z) (W S' D : list Z).
Abbreviation ok S := (end_ok b b' W S S' D).

Lemma send_control_ok S s cts : ok S s -> ok S (send_control s cts).
Proof.
  intros Hs. unfold send_control. cbv zeta. destruct (_ && _) eqn:E.
  - assert (H1 : ok S (toSend s (setFin (new_TcpPacket [])) false cts)) by (by apply toSend_control).
    set (s1 := toSend _ _ _ _) in *.
    destruct (Z.eqb_spec (state s1) TCP_ESTABLISHED) as [E1|E1]; [|destruct (Z.eqb_spec (state s1) TCP_CLOSE_WAIT) as [E2|E2]; [|done]].
    + apply (end_state _ _ _ _ _ _ s1 _ TCP_FIN_WAIT_1); try done; [right; vm_compute; by split|by rewrite E1].
    + apply (end_state _ _ _ _ _ _ s1 _ TCP_LAST_ACK); try done; [right; vm_compute; by split|by rewrite E2].
  - destruct (needsAck s cts); [by apply sendAck_ok|done].
Qed.

Lemma end_of_snd S T s s' : rcv_ok b' S' D s -> state_ok s -> snd_ok b W (S ++ T) s' ->
  recv_view s' = recv_view s -> state s' = state s -> ok (S ++ T) s'.
Proof.
  intros Hr Hst Hs Er Et. split; [done| |unfold state_ok; by rewrite Et]. by eapply rcv_frame; [exact Er|rewrite Et|].
Qed.

Lemma send_ok S s cts : ok S s -> exists T, ok (S ++ T) (send s cts).
Proof.
  intros Hs. unfold send. cbv zeta. set (s1 := retransmit (acknowledge s cts) cts).
  assert (H1 : ok S s1) by (apply retransmit_ok; by apply acknowledge_ok).
  destruct (state s1 <? TCP_ESTABLISHED); [exists []; by rewrite app_nil_r|].
  match goal with |- context [send_queue _ s1 ?m 0 cts] => set (maxsend := m) end.
  destruct (send_queue_ok b W cts (inQueue s1) S s1 maxsend 0) as [T HT].
  { apply (snd_frame b W S s1); [done|done|apply H1]. }
  destruct (send_queue (inQueue s1) s1 maxsend 0 cts) as [[s2 m2] n2]. destruct HT as (G1 & G2 & G3).
  pose proof (end_of_snd S T s1 s2 (eo_rcv _ _ _ _ _ _ _ H1) (eo_state _ _ _ _ _ _ _ H1) G1 G2 G3) as H2.
  destruct (_ && negb (inSize s2 =? 0)) eqn:E.
  - apply andb_prop in E as [E _]. apply andb_prop in E as [E _]. apply andb_prop in E as [_ Eq].
    apply Z.eqb_eq in Eq. unfold queue_size in Eq. assert (Hnil : inQueue s2 = []) by (apply length_zero_iff_nil; lia).
    pose proof (so_data _ _ _ _ G1) as Hin. set (d := inData s2) in *. set (s3 := s2 <| inData := [] |>).
    destruct (toSend_data b W (S ++ T) s3 s2 d cts) as (K1 & K2 & K3); try done.
    { lia. } { apply G1. } { apply G1. } { cbn; lia. } { cbn. rewrite Hnil. cbn. by rewrite app_nil_r. }
    set (s4 := toSend _ _ _ _) in *.
    assert (H4 : ok ((S ++ T) ++ d) s4).
    { by apply (end_of_snd (S ++ T) d s2); [apply H2|apply H2|..]. }
    exists (T ++ d). rewrite app_assoc. destruct (n2 + 1 =? 0); [by apply send_control_ok|done].
  - exists T. destruct (n2 =? 0); [by apply send_control_ok|done].
Qed.

Lemma recv_check_ok S s cts : ok S s -> ok S (recv_check s cts).
Proof.
  intros Hs. unfold recv_check. destruct (_ && _); [|done]. apply end_cleanup. by apply (end_close _ _ _ _ _ _ s).
Qed.

Lemma tick_ok S s cts : ok S s -> exists T, ok (S ++ T) (tick s cts).
Proof. intros Hs. apply send_ok. by apply recv_check_ok. Qed.
End Send2.
