(* ===== verification/TcpInvariant.v ===== *)
(** * Writing, reading and receiving keep the invariant of a stream

    The rest of the public operations of [TcpStream] against [end_ok]: the application's side ([write], [read],
    [closeWrite], [close]) and a datagram from the peer ([recvPkt]). *)

From S2P Require Import Prelude TcpPacket TcpStream TcpStreamProps.
From Stdlib Require Import ZArith Lia SpecFloat.
From stdpp Require Import base list.
Open Scope Z_scope.

(** ** Writing *)

Lemma cut_buffers_spec : forall fuel l, (length l <= fuel)%nat ->
  let '(bs, r) := cut_buffers fuel l in
  concat bs ++ r = l /\ Forall (fun q => length q = 1000%nat) bs /\ (length r < 1000)%nat.
Proof.
  induction fuel as [|fuel IH]; intros l Hl; cbn [cut_buffers].
  { split; [done|]. split; [done|lia]. }
  change (Z.to_nat MAX_SEG) with 1000%nat. unfold MAX_SEG. destruct (Z.leb_spec 1000 (Z.of_nat (length l))) as [Hc|Hc].
  - specialize (IH (drop 1000 l)). rewrite length_drop in IH. destruct (cut_buffers fuel (drop 1000 l)) as [bs r].
    destruct IH as (H1 & H2 & H3); [lia|]. split; [|split; [|done]].
    + cbn [concat]. by rewrite <- app_assoc, H1, take_drop.
    + constructor; [|done]. rewrite length_take. lia.
  - split; [done|]. split; [done|lia].
Qed.

Lemma write_result s dta : (write s dta).2 = -1 \/
  ((write s dta).2 = Z.of_nat (length dta) /\ TCP_ESTABLISHED <= state s).
Proof.
  unfold write. destruct (state s =? _); [by left|]. destruct (Z.ltb_spec (state s) TCP_ESTABLISHED); [by left|].
  destruct (kMaxQueueSize <? _); [by left|]. destruct (negb _); [by left|].
  destruct (_ <? MAX_SEG); [by right|]. destruct (cut_buffers _ _). by right.
Qed.

(** Accepted bytes join the stream, all of them; a refused write leaves it alone. *)
Lemma write_ok b b' W S S' D s dta : end_ok b b' W S S' D s ->
  let '(s', r) := write s dta in end_ok b b' (if 0 <=? r then W ++ dta else W) S S' D s'.
Proof.
  intros Hs. unfold write. destruct (Z.eqb_spec (state s) TCP_CLOSED) as [Hc|Hc]; [by apply (end_same _ _ _ _ _ _ s)|].
  destruct (_ <? _); [by apply (end_same _ _ _ _ _ _ s)|]. destruct (_ <? _); [by apply (end_same _ _ _ _ _ _ s)|].
  destruct (negb _); [by apply (end_same _ _ _ _ _ _ s)|].
  destruct Hs as [[H1 H2 H3 H4 H5 H6 H7 H8] Hr Hst]. specialize (H2 Hc).
  assert (Hl : (0 <=? Z.of_nat (length dta)) = true) by (apply Z.leb_le; lia).
  destruct (Z.ltb_spec (Z.of_nat (length dta) + inSize s) MAX_SEG) as [Hm|Hm].
  - rewrite Hl. split; [|by apply (rcv_frame _ _ _ s)|done].
    assert (E : S ++ concat (inQueue s) ++ inData s ++ dta = W ++ dta) by (by rewrite <- H2, <- !app_assoc).
    split; cbn; try done; [by rewrite E|]. unfold inSize, MAX_SEG in Hm. rewrite length_app. lia.
  - set (k := Z.to_nat (MAX_SEG - inSize s)) in *. pose proof (cut_buffers_spec (length dta) (drop k dta)) as Hcut.
    destruct (cut_buffers _ _) as [bs rest]. destruct Hcut as (C1 & C2 & C3); [rewrite length_drop; lia|].
    rewrite Hl. split; [|by apply (rcv_frame _ _ _ s)|done].
    assert (E : S ++ concat (inQueue s ++ (inData s ++ take k dta) :: bs) ++ rest = W ++ dta).
    { rewrite <- H2, concat_app. cbn [concat]. rewrite <- !app_assoc, C1, take_drop. done. }
    split; cbn; try done; [by rewrite E|]. apply Forall_app. split; [done|]. constructor; [|done].
    rewrite length_app, length_take. unfold inSize, MAX_SEG in *. lia.
Qed.

(** ** Reading *)

Lemma concat_full (q : list (list Z)) : Forall (fun x => length x = 1000%nat) q -> length (concat q) = (1000 * length q)%nat.
Proof. induction 1 as [|x q Hx _ IH]; [done|]. cbn. rewrite length_app, Hx, IH. lia. Qed.

Lemma read_queue_spec : forall q rem, 0 <= rem -> Forall (fun x => length x = 1000%nat) q ->
  let '(d, q', rem', cut) := read_queue q rem in
  d ++ default [] cut ++ concat q' = concat q /\ Z.of_nat (length d) = rem - rem' /\ 0 <= rem' /\
  Forall (fun x => length x = 1000%nat) q' /\ (0 < rem' -> q' = [] /\ cut = None).
Proof.
  induction q as [|x q IH]; intros rem Hr Hq; cbn [read_queue].
  { repeat split; try done; cbn; lia. }
  apply Forall_cons in Hq as [Hx Hq]. destruct (Z.ltb_spec 0 rem) as [H0|H0].
  - unfold MAX_SEG. destruct (Z.ltb_spec rem 1000) as [H1|H1].
    + cbn. rewrite app_assoc, take_drop, length_take. repeat split; try done; lia.
    + specialize (IH (rem - 1000)). destruct (read_queue q (rem - 1000)) as [[[d q'] rem'] cut].
      destruct IH as (E1 & E2 & E3 & E4 & E5); [lia|done|]. cbn [concat]. rewrite <- app_assoc, E1, length_app. repeat split; try done; try lia; by apply E5.
  - cbn. repeat split; try done; try lia. by constructor.
Qed.

(** What the stream holds for the application. *)
Definition unread (s : TcpStream) : list Z := outDataRead s ++ concat (outQueue s) ++ outDataNet s.

Lemma int_read_pending_exact b S D s : Z.of_nat (length S) < 2 ^ 31 -> rcv_open b S D s ->
  int_read_pending s = Z.of_nat (length (unread s)).
Proof.
  intros Hb [(r & Hr & _ & Hc) Hq _ _]. apply (f_equal length) in Hc. rewrite length_app in Hc. fold (unread s) in Hc.
  rewrite length_take in Hc. unfold int_read_pending, outSizeRead, outSizeNet, queue_size, MAX_SEG.
  assert (E : Z.of_nat (length (outDataRead s)) + Z.of_nat (length (outQueue s)) * 1000 + Z.of_nat (length (outDataNet s)) =
    Z.of_nat (length (unread s))).
  { unfold unread. rewrite !length_app, (concat_full (outQueue s)) by done. lia. }
  rewrite E. apply sint32_small. lia.
Qed.

Lemma rcv_open_read b S D s s' d : rcv_open b S D s -> inAckno s' = inAckno s -> inPkt s' = inPkt s ->
  unread s = d ++ unread s' -> Forall (fun x => length x = 1000%nat) (outQueue s') -> (length (outDataNet s') < 1000)%nat ->
  rcv_open b S (D ++ d) s'.
Proof.
  intros [(r & Hr & Ha & Hc) Hq Hn Hp] Ea Ep Eu Hq' Hn'. split; [|done|done|by rewrite Ep].
  exists r. split; [done|]. split; [congruence|]. rewrite <- app_assoc. fold (unread s'). rewrite <- Eu. exact Hc.
Qed.

Lemma rcv_open_prefix b S D s : rcv_open b S D s -> D `prefix_of` S.
Proof. intros [(r & _ & _ & Hc) _ _ _]. etransitivity; [|exact (prefix_take _ r)]. rewrite <- Hc. by apply prefix_app_r. Qed.

(** The bytes handed over, in order and at most as many as asked for; the rest stays. *)
Lemma read_ok b b' W S S' D s size : Z.of_nat (length S') < 2 ^ 31 -> 0 <= size -> end_ok b b' W S S' D s ->
  let '(s', r, bytes) := read s size in
  end_ok b b' W S S' (D ++ bytes) s' /\
  (r = -1 /\ bytes = [] \/ r = Z.of_nat (length bytes) /\ r <= size /\ unread s = bytes ++ unread s').
Proof.
  intros Hb Hz Hs. unfold read. destruct (Z.eqb_spec (state s) TCP_CLOSED) as [Hc|Hc].
  { rewrite app_nil_r. split; [by apply (end_same _ _ _ _ _ _ s)|by left]. }
  destruct (_ <? _). { rewrite app_nil_r. split; [by apply (end_same _ _ _ _ _ _ s)|by left]. }
  destruct Hs as [Hsnd [Hpre Ho] Hst]. specialize (Ho Hc). rewrite (int_read_pending_exact b' S' D s) by done.
  destruct (negb (inStreamActive s) && _). { rewrite app_nil_r. split; [by split|right]. cbn. done. }
  destruct (_ =? 0). { rewrite app_nil_r. split; [by apply (end_same _ _ _ _ _ _ s); [|split]|by left]. }
  set (n := if Z.of_nat (length (unread s)) <? size then Z.of_nat (length (unread s)) else size).
  assert (Hn : 0 <= n <= size /\ n <= Z.of_nat (length (unread s))).
  { unfold n. destruct (Z.ltb_spec (Z.of_nat (length (unread s))) size); lia. }
  assert (Hlen : Z.of_nat (length (unread s)) < 2 ^ 31).
  { destruct Ho as [(r & Hr & _ & E) _ _ _]. fold (unread s) in E. apply (f_equal length) in E. rewrite length_app, length_take in E. lia. }
  assert (Hu : u32 n = n) by (apply wrap_small; unfold is_word; lia). rewrite Hu. clearbody n.
  pose proof (ro_queue _ _ _ _ Ho) as Hq. pose proof (ro_net _ _ _ _ Ho) as Hnet.
  (* one argument for the three ways of reading *)
  assert (Hend : forall s' d, send_view s' = send_view s -> state s' = state s -> inAckno s' = inAckno s -> inPkt s' = inPkt s ->
    unread s = d ++ unread s' -> Forall (fun x => length x = 1000%nat) (outQueue s') -> (length (outDataNet s') < 1000)%nat ->
    n = Z.of_nat (length d) ->
    end_ok b b' W S S' (D ++ d) s' /\ (n = -1 /\ d = [] \/ n = Z.of_nat (length d) /\ n <= size /\ unread s = d ++ unread s')).
  { intros s' d E1 E2 E3 E4 E5 E6 E7 E8. split; [|right; split; [done|split; [lia|done]]].
    pose proof (rcv_open_read _ _ _ _ s' d Ho E3 E4 E5 E6 E7) as Ho'.
    split; [by eapply snd_frame; [exact E1|rewrite E2|]|split; [by eapply rcv_open_prefix|done]|unfold state_ok; by rewrite E2]. }
  destruct (Z.ltb_spec n (outSizeRead s)) as [Hlt|Hge]; [destruct (Z.eqb_spec (outSizeRead s) 0) as [H0|H0]|].
  - unfold outSizeRead in *. lia.
  - cbn [andb negb]. unfold outSizeRead in *. apply Hend; try done.
    + unfold unread. cbn. by rewrite (app_assoc (take _ _)), take_drop.
    + rewrite length_take. lia.
  - cbn [andb]. unfold outSizeRead in *.
    pose proof (read_queue_spec (outQueue s) (n - Z.of_nat (length (outDataRead s)))) as Hrq.
    destruct (read_queue _ _) as [[[d q'] rem] cut]. destruct Hrq as (E1 & E2 & E3 & E4 & E5); [lia|done|].
    destruct (Z.ltb_spec 0 rem) as [Hrem|Hrem].
    + destruct (E5 Hrem) as [-> ->]. cbn in E1. rewrite app_nil_r in E1. subst d.
      unfold unread in Hn. rewrite !length_app in Hn. apply Hend; try done.
      * unfold unread. cbn. by rewrite app_nil_r, <- !app_assoc, take_drop.
      * cbn. lia.
      * rewrite !length_app, length_take. cbn [outDataNet upd]. cbn. lia.
    + apply Hend; try done.
      * unfold unread. cbn. rewrite <- E1, <- !app_assoc. done.
      * rewrite length_app. lia.
Qed.

(** ** Receiving *)

(** At most one buffer of data extends what the application has not read. *)
Lemma store_data_spec s d : (length d <= 1000)%nat -> (length (outDataNet s) < 1000)%nat ->
  Forall (fun x => length x = 1000%nat) (outQueue s) ->
  unread (store_data s d) = unread s ++ d /\ Forall (fun x => length x = 1000%nat) (outQueue (store_data s d)) /\
  (length (outDataNet (store_data s d)) < 1000)%nat.
Proof.
  intros Hd Hn Hq. unfold store_data, outSizeNet, MAX_SEG. cbv zeta.
  destruct (Z.ltb_spec (Z.of_nat (length (outDataNet s)) + Z.of_nat (length d)) 1000) as [H|H].
  - unfold unread. cbn. rewrite length_app, <- !app_assoc. split; [done|]. split; [done|lia].
  - assert (E0 : (Z.of_nat (length d) - (1000 - Z.of_nat (length (outDataNet s)))) / 1000 = 0) by (apply Z.div_small; lia).
    assert (E1 : (Z.of_nat (length d) - (1000 - Z.of_nat (length (outDataNet s)))) mod 1000 =
                 Z.of_nat (length d) - (1000 - Z.of_nat (length (outDataNet s)))) by (apply Z.mod_small; lia).
    rewrite E0, E1. set (k := (1000 - length (outDataNet s))%nat).
    replace (Z.to_nat (1000 - Z.of_nat (length (outDataNet s)))) with k by lia.
    replace (length d - Z.to_nat (Z.of_nat (length d) - (1000 - Z.of_nat (length (outDataNet s)))))%nat with k by lia.
    unfold unread. cbn. split; [|split].
    + rewrite concat_app. cbn. by rewrite app_nil_r, <- !app_assoc, take_drop.
    + apply Forall_app. split; [done|]. constructor; [|done]. rewrite length_app, length_take. lia.
    + rewrite length_drop. lia.
Qed.

Lemma store_data_frame s d : send_view (store_data s d) = send_view s /\ state (store_data s d) = state s /\
  inAckno (store_data s d) = inAckno s /\ inPkt (store_data s d) = inPkt s.
Proof. unfold store_data. cbv zeta. by destruct (_ <? _). Qed.

(** Numbers of bytes less than half the circle apart name different bytes. *)
Lemma seq_position b i j : 0 <= i < 2 ^ 31 -> 0 <= j < 2 ^ 31 -> u32 (b + i) = u32 (b + j) -> i = j.
Proof.
  intros Hi Hj E. change (u32 (b + i)) with (wrap 32 (b + i)) in E. change (u32 (b + j)) with (wrap 32 (b + j)) in E.
  unfold wrap in E. pose proof (Z.div_mod (b + i) (2 ^ 32) ltac:(lia)). pose proof (Z.div_mod (b + j) (2 ^ 32) ltac:(lia)).
  rewrite E in *. lia.
Qed.

Lemma slice_extends {A} r n (S : list A) : (r + n <= length S)%nat -> take (r + n) S = take r S ++ slice r n S.
Proof. intros H. unfold slice. rewrite take_drop_commute. rewrite <- (take_drop r (take (r + n) S)) at 1. by rewrite take_take, Nat.min_l by lia. Qed.

(** The packet next in sequence: its data is the next piece of the peer's stream. *)
Lemma rcv_open_packet b S D s p : Z.of_nat (length S) < 2 ^ 31 -> rcv_open b S D s -> seqno p = inAckno s -> carries b S p ->
  rcv_open b S D (store_data (s <| inAckno := u32 (seqno p + datasize p) |>) (data p)).
Proof.
  intros Hb [(r & Hr & Ha & Hc) Hq Hn Hp] Hseq Hcar. set (s1 := s <| inAckno := _ |>).
  destruct (store_data_frame s1 (data p)) as (_ & _ & Ea & Ep).
  assert (Hlen : (length (data p) <= 1000)%nat /\ (r + length (data p) <= length S)%nat /\ slice r (length (data p)) S = data p).
  { destruct (data p) as [|x d] eqn:Ed; [cbn; split; [lia|]; split; [lia|done]|].
    destruct Hcar as (pos & Hs & Hl & Hd & Hm); [by rewrite Ed|]. rewrite Ed in *.
    assert (pos = r) as ->; [|done]. apply Nat2Z.inj, (seq_position b); [lia|lia|congruence]. }
  destruct Hlen as (H1 & H2 & H3). destruct (store_data_spec s1 (data p) H1 Hn Hq) as (E1 & E2 & E3).
  split; [|done|done|by rewrite Ep].
  exists (r + length (data p))%nat. split; [done|]. split.
  - rewrite Ea. unfold s1. cbn. unfold datasize. rewrite Hseq, Ha, wrap_add_l, Nat2Z.inj_add. f_equal. lia.
  - fold (unread (store_data s1 (data p))). rewrite E1, slice_extends, H3, app_assoc by done. f_equal. exact Hc.
Qed.

(** A pass takes the packet next in sequence out of the waiting ones. *)
Lemma scan_packets_spec ack : forall l, let '(found, rest) := scan_packets l ack in
  (forall P : TcpPacket -> Prop, Forall P l -> Forall P rest /\ (forall p, found = Some p -> P p)) /\
  (forall p, found = Some p -> seqno p = ack /\ (length rest < length l)%nat).
Proof.
  induction l as [|p l IH]; cbn [scan_packets]; [done|].
  destruct (Z.eqb_spec (seqno p) ack) as [E|E].
  { split; [|intros q [= <-]; split; [done|cbn; lia]]. intros P [Hp Hl]%Forall_cons. split; [done|]. by intros q [= <-]. }
  destruct (scan_packets l ack) as [found rest]. destruct IH as [IH1 IH2].
  destruct (isOldSequence (seqno p) ack).
  - split; [intros P [_ Hl]%Forall_cons; by apply IH1|]. intros q Hq. destruct (IH2 q Hq). split; [done|cbn; lia].
  - split.
    + intros P [Hp Hl]%Forall_cons. destruct (IH1 P Hl) as [H1 H2]. split; [by constructor|done].
    + intros q Hq. destruct (IH2 q Hq). split; [done|cbn; lia].
Qed.

Lemma use_packet_inPkt s p cts : inPkt (use_packet s p cts) = inPkt s \/ inPkt (use_packet s p cts) = [].
Proof.
  unfold use_packet. cbv zeta. match goal with |- context [store_data ?x (data p)] => set (s2 := x) end.
  assert (E2 : inPkt s2 = inPkt s) by (unfold s2; by destruct (_ && _)).
  destruct (store_data_frame s2 (data p)) as (_ & _ & _ & F4). set (s3 := UpdateInWinSize _).
  assert (E3 : inPkt s3 = inPkt s) by (etransitivity; [exact F4|done]). clearbody s3. clear F4 E2. clearbody s2.
  assert (Hack : forall s, inPkt (handle_fin_ack s) = inPkt s \/ inPkt (handle_fin_ack s) = []).
  { intros x. unfold handle_fin_ack. destruct (_ =? _); [by left|]. destruct (_ =? _); [by right|]. destruct (_ =? _); [by right|by left]. }
  assert (Hts : inPkt (toSend s3 (new_TcpPacket []) false cts) = inPkt s3).
  { unfold toSend. destruct (negb _); [done|]. cbv zeta. destruct (datasize _ =? 0); by destruct (hasSyn _). }
  assert (Hfin : inPkt (handle_fin s3 cts) = inPkt s3 \/ inPkt (handle_fin s3 cts) = []).
  { unfold handle_fin, sendAck. cbv zeta. destruct (_ =? _); [by left|]. destruct (_ =? _); [by left|]. destruct (_ =? _); [by right|by left]. }
  rewrite <- E3. destruct (hasFin p); (destruct (_ && _); [|by auto]); [|by auto].
  destruct (Hack (handle_fin s3 cts)) as [->|]; by auto.
Qed.

Section Receive.
Context (b b' : Z) (W S S' D : list Z) (Hbound : Z.of_nat (length S') < 2 ^ 31).
Abbreviation ok := (end_ok b b' W S S' D).

Lemma handle_fin_ok s cts : ok s -> ok (handle_fin s cts).
Proof.
  intros Hs. unfold handle_fin. cbv zeta. set (s1 := (sendAck s cts) <| inStreamActive := false |>).
  assert (H1 : ok s1) by (apply (end_same _ _ _ _ _ _ (sendAck s cts)); [done|by apply sendAck_ok]). clearbody s1.
  destruct (Z.eqb_spec (state s1) TCP_ESTABLISHED) as [E|_].
  { apply (end_state _ _ _ _ _ _ s1 _ TCP_CLOSE_WAIT); try done; [right; vm_compute; by split|by rewrite E]. }
  destruct (Z.eqb_spec (state s1) TCP_FIN_WAIT_1) as [E|_].
  { apply (end_state _ _ _ _ _ _ s1 _ TCP_CLOSING); try done; [right; vm_compute; by split|by rewrite E]. }
  destruct (Z.eqb_spec (state s1) TCP_FIN_WAIT_2) as [E|_]; [|done].
  apply end_cleanup. apply (end_state _ _ _ _ _ _ s1 _ TCP_TIMED_WAIT); try done; [right; vm_compute; by split|by rewrite E].
Qed.

Lemma handle_fin_ack_ok s : ok s -> ok (handle_fin_ack s).
Proof.
  intros Hs. unfold handle_fin_ack. destruct (Z.eqb_spec (state s) TCP_FIN_WAIT_1) as [E|_].
  { apply (end_state _ _ _ _ _ _ s _ TCP_FIN_WAIT_2); try done; [right; vm_compute; by split|by rewrite E]. }
  destruct (state s =? TCP_LAST_ACK); [by apply end_cleanup, (end_close _ _ _ _ _ _ s)|].
  destruct (Z.eqb_spec (state s) TCP_CLOSING) as [E|_]; [|done].
  apply end_cleanup. apply (end_state _ _ _ _ _ _ s _ TCP_TIMED_WAIT); try done; [right; vm_compute; by split|by rewrite E].
Qed.

Lemma use_packet_ok s p cts : seqno p = inAckno s -> carries b' S' p -> ok s -> ok (use_packet s p cts).
Proof.
  intros Hseq Hcar Hs. unfold use_packet. cbv zeta.
  set (s1 := s <| inAckno := u32 (seqno p + datasize p) |>).
  match goal with |- context [store_data ?x (data p)] => set (s2 := x) end.
  assert (V : same_views s1 s2) by (unfold s2; by destruct (_ && _)).
  assert (H3 : ok (UpdateInWinSize (store_data s2 (data p)))).
  { apply (end_same _ _ _ _ _ _ (store_data s2 (data p))); [apply UpdateInWinSize_views|].
    destruct V as [V1 V2 V3]. destruct (store_data_frame s2 (data p)) as (F1 & F2 & F3 & F4). destruct Hs as [Hsnd [Hpre Ho] Hst].
    split; [apply (snd_frame b W S s); [by rewrite F1, V1|by rewrite F2, V3|exact Hsnd]| |unfold state_ok; by rewrite F2, V3].
    split; [done|]. intros Hne. rewrite F2, V3 in Hne. specialize (Ho Hne).
    assert (Ho1 : rcv_open b' S' D (store_data s1 (data p))) by (by apply rcv_open_packet).
    assert (E : recv_view (store_data s2 (data p)) = recv_view (store_data s1 (data p))).
    { unfold s2. by destruct (_ && _); unfold store_data; cbv zeta; cbn; destruct (_ <? _). }
    injection E as E1 E2 E3 E4 E5. destruct Ho1 as [G1 G2 G3 G4]. by split; rewrite ?E1, ?E2, ?E3, ?E4, ?E5. }
  set (s3 := UpdateInWinSize _) in *. clearbody s3. clear V. clear s2.
  assert (H4 : ok (if hasFin p then handle_fin s3 cts else s3)) by (destruct (hasFin p); [by apply handle_fin_ok|done]).
  set (s4 := if hasFin p then _ else _) in *. clearbody s4.
  destruct (_ && _); [by apply handle_fin_ack_ok|done].
Qed.

Lemma end_inPkt s l : Forall (carries b' S') l -> ok s -> ok (s <| inPkt := l |>).
Proof.
  intros Hl [Hsnd [Hp Ho] Hst]. split; [by apply (snd_frame _ _ _ s)| |done]. split; [done|]. intros H. destruct (Ho H). by split.
Qed.

(** The packets waiting at an end whose connection is closed are of no account. *)
Definition waiting (s : TcpStream) : Prop := Forall (carries b' S') (inPkt s).

Lemma check_loop_ok cts : forall fuel s, ok s -> waiting s -> ok (check_loop fuel s cts).
Proof.
  induction fuel as [|fuel IH]; intros s Hs Hw; cbn [check_loop]; [done|].
  pose proof (scan_packets_spec (inAckno s) (inPkt s)) as Hscan. destruct (scan_packets _ _) as [found rest].
  destruct Hscan as [H1 H2]. destruct (H1 _ Hw) as [Hrest Hfound]. cbv zeta.
  assert (Hs1 : ok (s <| inPkt := rest |>)) by (by apply end_inPkt).
  destruct found as [p|]; [|done]. destruct (H2 p eq_refl) as [Hseq _]. apply IH.
  - apply use_packet_ok; [done|by apply Hfound|done].
  - unfold waiting. destruct (use_packet_inPkt (s <| inPkt := rest |>) p cts) as [->| ->]; [done|constructor].
Qed.

Lemma incoming_Established_ok s p cts : state s <> TCP_CLOSED -> carries b' S' p -> ok s -> ok (incoming_Established s p cts).
Proof.
  intros Hne Hp Hs. unfold incoming_Established. cbv zeta.
  match goal with |- context [_ <| inPkt := inPkt ?x ++ [p] |>] => set (s1 := x) end.
  assert (H1 : ok s1 /\ recv_view s1 = recv_view s).
  { unfold s1. destruct (_ && _); [by destruct (hasAck p); (split; [apply (end_same _ _ _ _ _ _ s)|])|]. split; [by apply sendAck_ok|].
    destruct Hs as [Hsnd _ _].
    by destruct (toSend_spec s (new_TcpPacket []) false cts (so_peer _ _ _ _ Hsnd) eq_refl (snd_word _ _ _ _ Hsnd)) as (? & ? & _ & _ & _ & _ & _ & ? & _). }
  clearbody s1. destruct H1 as [H1 E1]. injection E1 as _ _ _ E1 _.
  assert (Hw : Forall (carries b' S') (inPkt s1 ++ [p])).
  { rewrite E1. apply Forall_app. split; [|by constructor]. by apply (eo_rcv _ _ _ _ _ _ _ Hs). }
  set (s2 := s1 <| inPkt := inPkt s1 ++ [p] |>). assert (H2 : ok s2) by (by apply end_inPkt).
  destruct (_ <? _).
  - assert (Ht : Forall (carries b' S') (tail (inPkt s2))) by (change (inPkt s2) with (inPkt s1 ++ [p]); destruct (inPkt s1 ++ [p]); [done|by apply Forall_cons in Hw as []]).
    apply check_loop_ok; [by apply end_inPkt|done].
  - by apply check_loop_ok.
Qed.

(** A datagram that the peer's application data allows, at an end that is not closed. *)
Lemma recvPkt_ok s d seq cts : state s <> TCP_CLOSED -> carries_datagram b' S' d -> ok s -> ok (recvPkt s d seq cts).
Proof.
  intros Hne Hd Hs. unfold recvPkt. specialize (Hd (new_TcpPacket [])).
  destruct (readPacket (new_TcpPacket []) d) as [r p]. cbn [fst snd] in Hd. destruct (Z.ltb_spec 0 r) as [Hr|]; [|done].
  specialize (Hd Hr). set (s1 := s <| lastIncomingPkt := cts |>).
  assert (H1 : ok s1) by (by apply (end_same _ _ _ _ _ _ s)). assert (Hst : state s1 = state s) by done. clearbody s1.
  unfold handleIncoming. rewrite Hst. destruct (eo_state _ _ _ _ _ _ _ Hs) as [E|E]; [done|].
  assert (Hv : TCP_ESTABLISHED = 4 /\ TCP_CLOSED = 0 /\ TCP_LISTEN = 1 /\ TCP_SYN_SENT = 2 /\ TCP_SYN_RCVD = 3) by done.
  destruct Hv as (V4 & V0 & V1 & V2 & V3). rewrite V4 in E. rewrite V0, V1, V2, V3.
  destruct (Z.eqb_spec (state s) 0); [lia|]. destruct (Z.eqb_spec (state s) 1); [lia|]. destruct (Z.eqb_spec (state s) 2); [lia|].
  destruct (Z.eqb_spec (state s) 3); [lia|]. cbn [orb]. destruct (_ =? TCP_TIMED_WAIT); [by apply (end_close _ _ _ _ _ _ s1)|].
  apply incoming_Established_ok; [by rewrite Hst|done|done].
Qed.

Lemma close_ok s : ok s -> ok (close s).1.
Proof. by apply end_cleanup. Qed.

Lemma closeWrite_ok s : ok s -> ok (closeWrite s).1.
Proof. intros Hs. apply (end_same _ _ _ _ _ _ s); [|done]. unfold closeWrite. cbv zeta. by destruct (_ =? _). Qed.
End Receive.
