(* ===== verification/TcpConn.v ===== *)
(** * A connection: two streams and the network between them

    Two ends, each with what its application wrote and read.  The network may deliver any datagram the peer ever sent, any
    number of times and in any order, or never.  A closed end gets none: [tou_close] removes the peer from the UDP layer. *)

From S2P Require Import Prelude TcpPacket TcpStream TcpStreamProps TcpInvariant.
From Stdlib Require Import ZArith Lia SpecFloat.
From stdpp Require Import base list.
Open Scope Z_scope.

Record endpoint := mk_endpoint { stream : TcpStream; written : list Z; got : list Z }.

Inductive event :=
  | Ev_write (dta : list Z)
  | Ev_read (size : nat)
  | Ev_tick (cts : float64)
  | Ev_closeWrite
  | Ev_close
  | Ev_deliver (i : nat) (seq : Z) (cts : float64).

Definition step (e peer : endpoint) (ev : event) : endpoint :=
  let s := stream e in
  match ev with
  | Ev_write dta => let '(s', r) := write s dta in mk_endpoint s' (if 0 <=? r then written e ++ dta else written e) (got e)
  | Ev_read size => let '(s', _, bytes) := read s (Z.of_nat size) in mk_endpoint s' (written e) (got e ++ bytes)
  | Ev_tick cts => mk_endpoint (tick s cts) (written e) (got e)
  | Ev_closeWrite => mk_endpoint (closeWrite s).1 (written e) (got e)
  | Ev_close => mk_endpoint (close s).1 (written e) (got e)
  | Ev_deliver i seq cts =>
      match sent (stream peer) !! i with
      | Some (d, _) => if state s =? TCP_CLOSED then e else mk_endpoint (recvPkt s d seq cts) (written e) (got e)
      | None => e
      end
  end.

(** [true] is the end that called [connect], [false] the one that listens. *)
Definition conn_step (c : endpoint * endpoint) (ev : bool * event) : endpoint * endpoint :=
  match ev with
  | (true, ev) => (step c.1 c.2 ev, c.2)
  | (false, ev) => (c.1, step c.2 c.1 ev)
  end.

Definition conn_run (c : endpoint * endpoint) (evs : list (bool * event)) : endpoint * endpoint := foldl conn_step c evs.

Definition datagram (s : TcpStream) (i : nat) : list Z := default [] (fst <$> sent s !! i).

(** SYN, SYN and ACK, ACK. *)
Definition handshake (raddr1 raddr2 period seq1 seq2 : Z) (cts : float64) : endpoint * endpoint :=
  let s2 := (listenfor new_TcpStream raddr1).1 in
  let s1 := (connect new_TcpStream raddr2 period seq1 cts).1 in
  let s2 := recvPkt s2 (datagram s1 0) seq2 cts in
  let s1 := recvPkt s1 (datagram s2 0) 0 cts in
  let s2 := recvPkt s2 (datagram s1 1) 0 cts in
  (mk_endpoint s1 [] [], mk_endpoint s2 [] []).

(** ** The invariant of a connection *)

Definition half_ok (b b' : Z) (S S' : list Z) (e : endpoint) : Prop := end_ok b b' (written e) S S' (got e) (stream e).

Definition conn_ok (b1 b2 : Z) (c : endpoint * endpoint) : Prop :=
  exists S1 S2, half_ok b1 b2 S1 S2 c.1 /\ half_ok b2 b1 S2 S1 c.2.

Definition within (c : endpoint * endpoint) : Prop :=
  Z.of_nat (length (written c.1)) < 2 ^ 31 /\ Z.of_nat (length (written c.2)) < 2 ^ 31.

Lemma end_ok_peer b b' W S S' T D s : end_ok b b' W S S' D s -> end_ok b b' W S (S' ++ T) D s.
Proof. intros [Hs Hr Hst]. split; [done|by apply rcv_ok_app|done]. Qed.

Lemma half_sent b b' S S' e : half_ok b b' S S' e -> S `prefix_of` written e.
Proof. intros [[H _ _ _ _ _ _ _] _ _]. etransitivity; [|exact H]. by apply prefix_app_r. Qed.

Lemma step_written e peer ev : written e `prefix_of` written (step e peer ev).
Proof.
  destruct ev as [dta|size|cts| | |i seq cts]; cbn [step]; try done.
  - destruct (write _ _) as [s' r]. cbn. destruct (0 <=? r); [by apply prefix_app_r|done].
  - by destruct (read _ _) as [[s' r] bytes].
  - destruct (_ !! _) as [[d t]|]; [|done]. by destruct (_ =? _).
Qed.

Lemma half_step b b' S S' e peer ev : half_ok b b' S S' e -> half_ok b' b S' S peer ->
  Z.of_nat (length S') < 2 ^ 31 -> exists T, half_ok b b' (S ++ T) S' (step e peer ev).
Proof.
  intros He Hpeer Hb. destruct ev as [dta|size|cts| | |i seq cts]; cbn [step].
  - exists []. rewrite app_nil_r. pose proof (write_ok b b' _ S S' _ (stream e) dta He) as H. by destruct (write _ _) as [s' r].
  - exists []. rewrite app_nil_r. pose proof (read_ok b b' _ S S' _ (stream e) (Z.of_nat size) Hb ltac:(lia) He) as H.
    destruct (read _ _) as [[s' r] bytes]. by destruct H.
  - destruct (tick_ok b b' (written e) S' (got e) S (stream e) cts He) as [T HT]. by exists T.
  - exists []. rewrite app_nil_r. by apply closeWrite_ok.
  - exists []. rewrite app_nil_r. by apply close_ok.
  - exists []. rewrite app_nil_r. destruct (sent (stream peer) !! i) as [[d t]|] eqn:E; [|done].
    destruct (Z.eqb_spec (state (stream e)) TCP_CLOSED); [done|]. apply recvPkt_ok; [done|done| |done].
    exact (proj1 (Forall_lookup _ _) (so_sent _ _ _ _ (eo_snd _ _ _ _ _ _ _ Hpeer)) _ _ E).
Qed.

Lemma conn_step_ok b1 b2 c ev : within c -> conn_ok b1 b2 c -> conn_ok b1 b2 (conn_step c ev).
Proof.
  intros [Hw1 Hw2] (S1 & S2 & H1 & H2).
  pose proof (prefix_length _ _ (half_sent _ _ _ _ _ H1)). pose proof (prefix_length _ _ (half_sent _ _ _ _ _ H2)).
  destruct ev as [[] ev]; cbn [conn_step].
  - destruct (half_step b1 b2 S1 S2 c.1 c.2 ev H1 H2) as [T HT]; [lia|]. exists (S1 ++ T), S2. split; [done|by apply end_ok_peer].
  - destruct (half_step b2 b1 S2 S1 c.2 c.1 ev H2 H1) as [T HT]; [lia|]. exists S1, (S2 ++ T). split; [by apply end_ok_peer|done].
Qed.

Lemma within_step c ev : within (conn_step c ev) -> within c.
Proof.
  destruct ev as [[] ev]; intros [H1 H2]; cbn in H1, H2; (split; [|]; try done).
  - pose proof (prefix_length _ _ (step_written c.1 c.2 ev)). lia.
  - pose proof (prefix_length _ _ (step_written c.2 c.1 ev)). lia.
Qed.

Lemma within_run evs : forall c, within (conn_run c evs) -> within c.
Proof. induction evs as [|ev evs IH]; intros c Hw; [done|]. apply (within_step c ev). by apply IH. Qed.

Lemma conn_run_ok b1 b2 : forall evs c, within (conn_run c evs) -> conn_ok b1 b2 c -> conn_ok b1 b2 (conn_run c evs).
Proof.
  induction evs as [|ev evs IH]; intros c Hw Hc; [done|]. cbn [conn_run foldl]. apply IH; [exact Hw|].
  apply conn_step_ok; [|done]. by apply (within_run (ev :: evs)).
Qed.

Lemma conn_prefix b1 b2 c : conn_ok b1 b2 c -> got c.1 `prefix_of` written c.2 /\ got c.2 `prefix_of` written c.1.
Proof.
  intros (S1 & S2 & H1 & H2). split.
  - etransitivity; [exact (proj1 (eo_rcv _ _ _ _ _ _ _ H1))|by eapply half_sent].
  - etransitivity; [exact (proj1 (eo_rcv _ _ _ _ _ _ _ H2))|by eapply half_sent].
Qed.

(** ** The handshake *)

Lemma recvPkt_written s p seq cts : (length (data p) <= 1000)%nat ->
  recvPkt s (writePacket p (MAX_SEG + TCP_PSEUDO_HDR_SIZE)).2 seq cts =
  handleIncoming (s <| lastIncomingPkt := cts |>)
    (mk_TcpPacket (data p) (u32 (seqno p)) (u32 (ackno p)) (u16 (hlen_flags p)) (u16 (winsize p)) (f64_of_Z 0) 0) seq cts.
Proof.
  intros Hd. unfold recvPkt. destruct (writePacket p _) as [ret buf] eqn:E. cbn [snd].
  assert (Hr : ret = 20 + datasize p).
  { unfold writePacket in E. unfold MAX_SEG, TCP_PSEUDO_HDR_SIZE, datasize in *.
    destruct (Z.ltb_spec (1000 + 20) (20 + Z.of_nat (length (data p)))); [lia|]. injection E as E _. lia. }
  assert (H0 : 0 <= ret) by (unfold datasize in Hr; lia).
  destruct (read_write_fields p (new_TcpPacket []) _ _ _ E H0) as [-> _]. destruct (Z.ltb_spec 0 ret); [done|].
  unfold datasize in Hr. lia.
Qed.

(** A control packet, and the datagram it is sent in. *)
Definition control (seq ack flags win : Z) : TcpPacket := mk_TcpPacket [] seq ack flags win (f64_of_Z 0) 0.
Definition control_sent (seq ack flags win : Z) : list Z := (writePacket (control seq ack flags win) (MAX_SEG + TCP_PSEUDO_HDR_SIZE)).2.

Lemma recv_control s seq ack flags win seq' cts : is_word 32 seq -> is_word 32 ack -> is_word 16 flags -> is_word 16 win ->
  recvPkt s (control_sent seq ack flags win) seq' cts =
  handleIncoming (s <| lastIncomingPkt := cts |>) (control seq ack flags win) seq' cts.
Proof.
  intros H1 H2 H3 H4. unfold control_sent. rewrite recvPkt_written by (cbn; lia). cbn [data seqno ackno hlen_flags winsize control].
  by rewrite !wrap_small.
Qed.

Lemma startTimer_inWinSize s cts : inWinSize (startRetransmitTimer s cts) = inWinSize s.
Proof. unfold startRetransmitTimer. by destruct (retransTimerOn s). Qed.

(** [toSend] of the control packets of a handshake. *)
Lemma toSend_syn s p cts : peerKnown s = true -> hasSyn p = true -> data p = [] ->
  let s' := toSend s p true cts in
  let p' := p <| winsize := u16 (inWinSize s) |> <| seqno := outSeqno s |> <| winsize := u16 (inWinSize s) |> in
  send_view s' = (inData s, inQueue s, outPkt s ++ [p' <| ts := cts |> <| TcpPacket.retrans := 0 |>], u32 (outSeqno s + 1),
    sent s ++ [((writePacket p' (MAX_SEG + TCP_PSEUDO_HDR_SIZE)).2, ttl s)], true) /\
  recv_view s' = recv_view s /\ inWinSize s' = inWinSize s.
Proof.
  intros Hp Hsyn Hd. unfold toSend. rewrite Hp. cbn [negb]. cbv zeta.
  set (p1 := p <| winsize := u16 (inWinSize s) |> <| seqno := outSeqno s |>).
  assert (Hs1 : hasSyn p1 = true) by exact Hsyn. assert (Hd1 : (datasize p1 =? 0) = true) by (unfold datasize; change (data p1) with (data p); by rewrite Hd).
  rewrite Hs1, Hd1. clearbody p1. clear Hs1 Hd1 Hsyn Hd p.
  match goal with |- context [startRetransmitTimer ?x cts] => set (s1 := x) end.
  assert (Hs1 : peerKnown s1 = true) by exact Hp.
  destruct (startTimer_views s1 cts) as [V1 V2 V3]. injection V1 as A1 A2 A3 A4 A5 A6.
  pose proof (startTimer_inWinSize s1 cts) as Hwin.
  split; [|split; [exact V2|exact Hwin]]. unfold send_view.
  cbn [inData inQueue outPkt outSeqno sent peerKnown upd]. rewrite A1, A2, A3, A4, A5, A6. cbn [inData inQueue outPkt outSeqno sent peerKnown upd]. unfold s1. cbn -[writePacket]. rewrite Hp. reflexivity.
Qed.

Lemma sendAck_sent s cts : peerKnown s = true ->
  send_view (sendAck s cts) = (inData s, inQueue s, outPkt s, outSeqno s,
    sent s ++ [(control_sent (outSeqno s) (inAckno s) TCP_ACK_BIT (u16 (inWinSize s)), ttl s)], true) /\
  recv_view (sendAck s cts) = recv_view s /\ state (sendAck s cts) = state s.
Proof.
  intros Hp. unfold sendAck, toSend. rewrite Hp. cbn [negb]. cbv zeta.
  change (datasize _ =? 0) with true. change (hasSyn _) with false. cbv iota. split; [|done].
  unfold send_view. cbn [inData inQueue outPkt outSeqno sent peerKnown upd sendPkt]. cbn -[writePacket]. by rewrite Hp.
Qed.

(** A stream that has opened with sequence number [seq] and has sent the control packets [ds]; nothing was written or
    received. *)
Record opening (seq : Z) (ds : list (list Z)) (s : TcpStream) : Prop := {
  op_seq : is_word 32 seq;
  op_send : exists pkts, send_view s = ([], [], pkts, u32 (seq + 1), sent s, true) /\
    Forall (fun p => is_word 32 (seqno p) /\ data p = []) pkts;
  op_recv : recv_view s = ([], [], [], [], inAckno s);
  op_sent : map fst (sent s) = ds
}.

Definition is_control (d : list Z) : Prop := exists seq ack flags win, is_word 32 seq /\ d = control_sent seq ack flags win.

Lemma opening_end_ok b' seq ds s : opening seq ds s -> Forall is_control ds -> state s = TCP_ESTABLISHED -> inAckno s = u32 b' ->
  end_ok (u32 (seq + 1)) (u32 b') [] [] [] [] s.
Proof.
  intros [Hw (pkts & Ev & Hpkts) Er Eds] Hds Hst Ha. injection Ev as E1 E2 E3 E4 E5. injection Er as F1 F2 F3 F4.
  split; [split| |right; rewrite Hst; vm_compute; by split].
  - by rewrite E2, E1.
  - by rewrite E2, E1.
  - rewrite E4. cbn. by rewrite Z.add_0_r, wrap_wrap.
  - by rewrite E2.
  - rewrite E1. cbn. lia.
  - rewrite E3. eapply Forall_impl; [exact Hpkts|]. intros p [Hp1 Hp2]. split; [done|by apply carries_empty].
  - rewrite <- (Forall_map fst), Eds. eapply Forall_impl; [exact Hds|]. intros d (sq & ack & flags & win & Hsq & ->).
    by apply carries_write, carries_empty.
  - done.
  - split; [done|]. intros _. split; [|by rewrite F3|rewrite F2; cbn; lia|by rewrite F4].
    exists 0%nat. split; [done|]. split; [by rewrite Ha, Z.add_0_r, wrap_wrap|]. by rewrite F1, F2, F3.
Qed.

Lemma u16_max_win : u16 TCP_MAX_WIN = TCP_MAX_WIN.
Proof. vm_compute. reflexivity. Qed.

(** A stream that was never used. *)
Record unused (s : TcpStream) : Prop := {
  un_state : state s = TCP_CLOSED;
  un_data : inData s = [] /\ inQueue s = [] /\ outPkt s = [] /\ sent s = [];
  un_recv : recv_view s = ([], [], [], [], inAckno s);
  un_win : maxWinSize s = TCP_MAX_WIN
}.

Lemma new_unused : unused new_TcpStream.
Proof. by split. Qed.

Lemma listenfor_unused s raddr : unused s -> unused (listenfor s raddr).1 /\ peerKnown (listenfor s raddr).1 = true.
Proof.
  intros [H1 H2 H3 H4]. unfold listenfor. cbv zeta. change (state (setRemoteAddress s raddr)) with (state s). rewrite H1. by split.
Qed.

(** Sending the first packet, from a stream in which the sequence number and the window have just been set. *)
Lemma toSend_opening s p a fl seq cts : is_word 32 seq ->
  inData s = [] /\ inQueue s = [] /\ outPkt s = [] /\ sent s = [] -> recv_view s = ([], [], [], [], inAckno s) ->
  peerKnown s = true -> inWinSize s = TCP_MAX_WIN -> outSeqno s = seq -> p = control 0 a fl 0 -> hasSyn p = true ->
  let s' := toSend s p true cts in
  opening seq [control_sent seq a fl TCP_MAX_WIN] s' /\ inAckno s' = inAckno s /\ inWinSize s' = TCP_MAX_WIN.
Proof.
  intros Hw (H2 & H3 & H4 & H5) Hr Hpk Hwin <- -> Hsyn.
  destruct (toSend_syn s (control 0 a fl 0) cts Hpk Hsyn eq_refl) as (Ev & Er & Ew).
  revert Ev Er Ew. generalize (toSend s (control 0 a fl 0) true cts). cbv zeta. intros s1 Ev Er Ew. rewrite Hwin, u16_max_win in Ev.
  change ((control 0 a fl 0) <| winsize := TCP_MAX_WIN |> <| seqno := outSeqno s |> <| winsize := TCP_MAX_WIN |>)
    with (control (outSeqno s) a fl TCP_MAX_WIN) in Ev.
  rewrite H2, H3, H4, H5 in Ev. injection Ev as E1 E2 E3 E4 E5 E6. rewrite Hr in Er.
  assert (Ea : inAckno s1 = inAckno s) by (injection Er; done).
  split; [|split; [exact Ea|congruence]]. split; [done| |congruence|by rewrite E5].
  exists (outPkt s1). split; [unfold send_view; congruence|]. rewrite E3. repeat constructor; apply Hw.
Qed.

Lemma opening_frame seq ds s s' : send_view s' = send_view s -> recv_view s' = recv_view s -> opening seq ds s -> opening seq ds s'.
Proof.
  intros Es Er [Hw (pkts & Ev & Hp) Hr Hd]. injection Es as E1 E2 E3 E4 E5 E6. injection Er as F1 F2 F3 F4 F5.
  split; [done| | |by rewrite E5].
  - exists pkts. split; [|done]. unfold send_view in *. congruence.
  - unfold recv_view in *. congruence.
Qed.

Lemma connect_opening s0 raddr period seq cts : is_word 32 seq -> unused s0 ->
  let s := (connect s0 raddr period seq cts).1 in
  opening seq [control_sent seq 0 TCP_SYN_BIT TCP_MAX_WIN] s /\ state s = TCP_SYN_SENT /\ inWinSize s = TCP_MAX_WIN.
Proof.
  intros Hw [H1 H2 H3 H4]. unfold connect. cbv zeta.
  change (state (setRemoteAddress s0 raddr)) with (state s0). rewrite H1. change (negb (TCP_CLOSED =? TCP_CLOSED)) with false. cbv iota.
  match goal with |- context [toSend ?x ?p true cts] => set (sx := x);
    destruct (toSend_opening sx p 0 TCP_SYN_BIT seq cts) as (K1 & K2 & K3);
      [exact Hw|exact H2|exact H3|reflexivity|exact H4|reflexivity|reflexivity|reflexivity|] end.
  revert K1 K2 K3. generalize (toSend sx (setSyn (new_TcpPacket [])) true cts). intros s1 K1 K2 K3. cbn [fst].
  split; [|split; [reflexivity|exact K3]]. by apply (opening_frame _ _ s1).
Qed.

(** The listener answers a SYN. *)
Lemma listen_opening s0 seq seq0 win cts : is_word 32 seq -> unused s0 -> peerKnown s0 = true ->
  let s := handleIncoming (s0 <| lastIncomingPkt := cts |>) (control seq0 0 TCP_SYN_BIT win) seq cts in
  opening seq [control_sent seq (u32 (seq0 + 1)) (Z.lor TCP_SYN_BIT TCP_ACK_BIT) TCP_MAX_WIN] s /\
  state s = TCP_SYN_RCVD /\ inAckno s = u32 (seq0 + 1).
Proof.
  intros Hw [H1 H2 H3 H4] Hpk. cbv zeta. unfold handleIncoming.
  change (state (s0 <| lastIncomingPkt := cts |>)) with (state s0). rewrite H1. change ((TCP_CLOSED =? TCP_CLOSED) || _) with true. cbv iota.
  unfold incoming_Closed. change (hasSyn _ && _) with true. cbv iota zeta.
  match goal with |- context [state ?x =? TCP_CLOSED] => change (state x) with (state s0) end. rewrite H1.
  change (TCP_CLOSED =? TCP_CLOSED) with true. cbv iota zeta.
  match goal with |- context [toSend ?x ?p true cts] => set (sx := x);
    destruct (toSend_opening sx p (u32 (seq0 + 1)) (Z.lor TCP_SYN_BIT TCP_ACK_BIT) seq cts) as (K1 & K2 & K3);
      [exact Hw|exact H2|injection H3 as E1 E2 E3 E4; unfold recv_view; change (outDataRead sx) with (outDataRead s0);
         change (outDataNet sx) with (outDataNet s0); change (outQueue sx) with (outQueue s0); change (inPkt sx) with (inPkt s0);
         by rewrite E1, E2, E3, E4|exact Hpk|exact H4|reflexivity|reflexivity|reflexivity|] end.
  assert (Ea : inAckno sx = u32 (seq0 + 1)) by reflexivity. rewrite Ea in K2.
  revert K1 K2 K3. match goal with |- context [toSend ?x ?p ?r ?t] => generalize (toSend x p r t) end. intros s1 K1 K2 K3.
  split; [|split; [reflexivity|exact K2]]. by apply (opening_frame _ _ s1).
Qed.

(** The connecting end gets the answer and acknowledges it. *)
Lemma synsent_opening s d seq seq2 win cts : opening seq [d] s -> state s = TCP_SYN_SENT -> inWinSize s = TCP_MAX_WIN ->
  let s' := handleIncoming (s <| lastIncomingPkt := cts |>) (control seq2 (u32 (seq + 1)) (Z.lor TCP_SYN_BIT TCP_ACK_BIT) win) 0 cts in
  opening seq [d; control_sent (u32 (seq + 1)) (u32 (seq2 + 1)) TCP_ACK_BIT TCP_MAX_WIN] s' /\
  state s' = TCP_ESTABLISHED /\ inAckno s' = u32 (seq2 + 1).
Proof.
  intros [Hw (pkts & Ev & Hpkts) Er Eds] Hst Hwin. injection Ev as E1 E2 E3 E4 E5. injection Er as F1 F2 F3 F4.
  set (s0 := s <| lastIncomingPkt := cts |>). cbv zeta. unfold handleIncoming. change (state s0) with (state s). rewrite Hst.
  change ((TCP_SYN_SENT =? TCP_CLOSED) || (TCP_SYN_SENT =? TCP_LISTEN)) with false. change (TCP_SYN_SENT =? TCP_SYN_SENT) with true. cbv iota.
  unfold incoming_SynSent. change (hasSyn _ && hasAck _) with true. cbv iota.
  change (getAck _) with (u32 (seq + 1)). change (outSeqno s0) with (outSeqno s). rewrite E4, Z.eqb_refl. cbn [negb]. cbv zeta.
  match goal with |- context [sendAck ?x cts] => destruct (sendAck_sent x cts) as (Kv & Kr & _); [exact E5|] end.
  revert Kv Kr. match goal with |- context [sendAck ?x ?t] => generalize (sendAck x t) end. intros s1 Kv Kr. injection Kv as A1 A2 A3 A4 A5 A6. injection Kr as B1 B2 B3 B4 B5.
  split; [|split; [done|exact B5]]. split; [done| | |].
  - exists (outPkt s1). split; [unfold send_view; cbn; by rewrite A1, A2, A4, A6, E1, E2, E4|]. rewrite A3. by rewrite E3.
  - unfold recv_view. cbn. by rewrite B1, B2, B3, B4, F1, F2, F3, F4.
  - cbn. rewrite A5, map_app, Eds, E4, Hwin, u16_max_win. done.
Qed.

(** The acknowledgement completes the listener's side. *)
Lemma synrcvd_opening s ds seq b win cts : opening seq ds s -> state s = TCP_SYN_RCVD ->
  let s' := handleIncoming (s <| lastIncomingPkt := cts |>) (control b (u32 (seq + 1)) TCP_ACK_BIT win) 0 cts in
  opening seq ds s' /\ state s' = TCP_ESTABLISHED /\ inAckno s' = b.
Proof.
  intros Hop Hst. pose proof Hop as [_ (pkts & Ev & _) _ _]. injection Ev as E1 E2 E3 E4 E5.
  cbv zeta. unfold handleIncoming. change (state (s <| lastIncomingPkt := cts |>)) with (state s). rewrite Hst.
  change ((TCP_SYN_RCVD =? TCP_CLOSED) || (TCP_SYN_RCVD =? TCP_LISTEN)) with false. change (TCP_SYN_RCVD =? TCP_SYN_SENT) with false.
  change (TCP_SYN_RCVD =? TCP_SYN_RCVD) with true. cbv iota. unfold incoming_SynRcvd. change (hasRst _) with false. change (hasAck _) with true. cbv iota.
  change (getAck _) with (u32 (seq + 1)). change (outSeqno (s <| lastIncomingPkt := cts |>)) with (outSeqno s). rewrite E4, Z.eqb_refl.
  cbn [negb]. change (0 <? datasize _) with false. cbv iota zeta. split; [|split; reflexivity].
  destruct Hop as [Hw (pkts' & Ev' & Hp') Hr Hd]. injection Hr as F1 F2 F3 F4. split; [done| | |done].
  - exists pkts'. split; [exact Ev'|done].
  - unfold recv_view. cbn. by rewrite F1, F2, F3, F4.
Qed.

Lemma datagram_sent s i ds d : map fst (sent s) = ds -> ds !! i = Some d -> datagram s i = d.
Proof. intros <- E. unfold datagram. rewrite <- list_lookup_fmap. change (fst <$> sent s) with (map fst (sent s)). by rewrite E. Qed.

Lemma handshake_ok raddr1 raddr2 period seq1 seq2 cts : is_word 32 seq1 -> is_word 32 seq2 ->
  conn_ok (u32 (seq1 + 1)) (u32 (seq2 + 1)) (handshake raddr1 raddr2 period seq1 seq2 cts).
Proof.
  intros Hw1 Hw2. unfold handshake. cbv zeta.
  destruct (listenfor_unused new_TcpStream raddr1 new_unused) as [Hu Hpk].
  destruct (connect_opening new_TcpStream raddr2 period seq1 cts Hw1 new_unused) as (Ha1 & Ha2 & Ha3).
  generalize dependent (listenfor new_TcpStream raddr1).1. intros s2 Hu Hpk.
  generalize dependent (connect new_TcpStream raddr2 period seq1 cts).1. intros s1 Ha1 Ha2 Ha3.
  rewrite (datagram_sent s1 0 _ _ (op_sent _ _ _ Ha1) eq_refl).
  rewrite recv_control by done.
  destruct (listen_opening s2 seq2 seq1 TCP_MAX_WIN cts Hw2 Hu Hpk) as (Hb1 & Hb2 & Hb3).
  generalize dependent (handleIncoming (s2 <| lastIncomingPkt := cts |>) (control seq1 0 TCP_SYN_BIT TCP_MAX_WIN) seq2 cts).
  intros s3 Hb1 Hb2 Hb3. rewrite (datagram_sent s3 0 _ _ (op_sent _ _ _ Hb1) eq_refl).
  rewrite recv_control by (done || by apply wrap_is_word).
  destruct (synsent_opening s1 _ seq1 seq2 TCP_MAX_WIN cts Ha1 Ha2 Ha3) as (Hc1 & Hc2 & Hc3).
  match goal with |- context [handleIncoming (s1 <| lastIncomingPkt := cts |>) ?p 0 cts] =>
    generalize dependent (handleIncoming (s1 <| lastIncomingPkt := cts |>) p 0 cts) end.
  intros s4 Hc1 Hc2 Hc3. rewrite (datagram_sent s4 1 _ _ (op_sent _ _ _ Hc1) eq_refl).
  rewrite recv_control by (done || by apply wrap_is_word).
  destruct (synrcvd_opening s3 _ seq2 (u32 (seq1 + 1)) TCP_MAX_WIN cts Hb1 Hb2) as (Hd1 & Hd2 & Hd3).
  exists [], []. split; cbn [fst snd stream].
  - apply (opening_end_ok (seq2 + 1) seq1 _ s4 Hc1); [|done|done].
    repeat constructor; do 4 eexists; (split; [|reflexivity]); [done|by apply wrap_is_word].
  - apply (opening_end_ok (seq1 + 1) seq2 _ _ Hd1); [|done|done].
    repeat constructor; do 4 eexists; by split.
Qed.

(** C12 What the application at one end reads is a prefix of what the application at the other end wrote, in both
    directions: after the handshake, whatever the network loses, repeats or reorders, however the applications
    write, read and close and whenever the streams tick, as long as each side has written less than 2 GiB. *)
Theorem tcp_stream_prefix raddr1 raddr2 period seq1 seq2 cts evs :
  is_word 32 seq1 -> is_word 32 seq2 ->
  let c := conn_run (handshake raddr1 raddr2 period seq1 seq2 cts) evs in
  within c -> got c.1 `prefix_of` written c.2 /\ got c.2 `prefix_of` written c.1.
Proof.
  intros Hw1 Hw2 c Hc. apply (conn_prefix (u32 (seq1 + 1)) (u32 (seq2 + 1))). apply conn_run_ok; [done|by apply handshake_ok].
Qed.

(** Sequence numbers that wrap around, a datagram that is lost and one that comes twice. *)
Definition hello : list Z := [104; 101; 108; 108; 111].

Definition example_run : endpoint * endpoint :=
  conn_run (handshake 1 2 20 (2 ^ 32 - 3) 7 (f64_of_Z 0))
    [(true, Ev_write hello); (true, Ev_tick (f64_of_Z 1)); (true, Ev_write hello); (true, Ev_tick (f64_of_Z 2));
     (false, Ev_deliver 3 0 (f64_of_Z 3)); (false, Ev_read 3); (false, Ev_deliver 2 0 (f64_of_Z 4));
     (false, Ev_deliver 2 0 (f64_of_Z 5)); (false, Ev_read 7); (false, Ev_read 9)].

Lemma tcp_stream_prefix_witness :
  got example_run.2 = hello ++ hello /\ got example_run.2 `prefix_of` written example_run.1.
Proof.
  split; [vm_compute; reflexivity|].
  refine (proj2 (tcp_stream_prefix 1 2 20 (2 ^ 32 - 3) 7 (f64_of_Z 0)
    [(true, Ev_write hello); (true, Ev_tick (f64_of_Z 1)); (true, Ev_write hello); (true, Ev_tick (f64_of_Z 2));
     (false, Ev_deliver 3 0 (f64_of_Z 3)); (false, Ev_read 3); (false, Ev_deliver 2 0 (f64_of_Z 4));
     (false, Ev_deliver 2 0 (f64_of_Z 5)); (false, Ev_read 7); (false, Ev_read 9)] _ _ _)); vm_compute; by split.
Defined.
