(* ===== verification/TcpFacts.v ===== *)
(** * What a stream does with a packet, a timer and a lost handshake

    Properties of the operations of one end, and two runs in which the stream goes wrong. *)

From S2P Require Import Prelude TcpPacket TcpStream TcpStreamProps TcpInvariant TcpConn.
From Stdlib Require Import ZArith Lia SpecFloat.
From stdpp Require Import base list.
Open Scope Z_scope.

(** A packet whose fields fit the header's is read back as it was written, data included. *)
Theorem tcp_packet_roundtrip p q size ret buf :
  packet_ok p -> writePacket p size = (ret, buf) -> 0 <= ret ->
  readPacket q buf = (ret, p <| ts := ts q |> <| retrans := retrans q |>) /\ Z.of_nat (length buf) = ret.
Proof. apply read_write. Qed.

Lemma tcp_packet_roundtrip_witness :
  let p := mk_TcpPacket [1; 2; 3] (2 ^ 32 - 1) 77 (Z.lor TCP_ACK_BIT TCP_FIN_BIT) 65500 (f64_of_Z 0) 0 in
  readPacket (new_TcpPacket []) (writePacket p 1020).2 = (23, p) /\ Z.of_nat (length (writePacket p 1020).2) = 23.
Proof.
  apply (tcp_packet_roundtrip (mk_TcpPacket [1; 2; 3] (2 ^ 32 - 1) 77 (Z.lor TCP_ACK_BIT TCP_FIN_BIT) 65500 (f64_of_Z 0) 0) (new_TcpPacket []) 1020 23
    (writePacket (mk_TcpPacket [1; 2; 3] (2 ^ 32 - 1) 77 (Z.lor TCP_ACK_BIT TCP_FIN_BIT) 65500 (f64_of_Z 0) 0) 1020).2);
    [split; by vm_compute|by vm_compute|lia].
Defined.

(** ** The passes over the waiting packets *)

Lemma scan_packets_none ack : forall l, (scan_packets l ack).1 = None ->
  Forall (fun p => seqno p <> ack /\ isOldSequence (seqno p) ack = false) (scan_packets l ack).2.
Proof.
  induction l as [|p l IH]; cbn [scan_packets]; [by constructor|]. destruct (Z.eqb_spec (seqno p) ack) as [|Hne]; [done|].
  destruct (isOldSequence (seqno p) ack) eqn:E; [exact IH|]. destruct (scan_packets l ack) as [r l']. cbn [fst snd] in *.
  intros Hr. constructor; [done|by apply IH].
Qed.

Lemma check_loop_done cts : forall fuel s, (length (inPkt s) < fuel)%nat ->
  let s' := check_loop fuel s cts in
  Forall (fun p => seqno p <> inAckno s' /\ isOldSequence (seqno p) (inAckno s') = false) (inPkt s').
Proof.
  induction fuel as [|fuel IH]; intros s Hf; [lia|]. cbn [check_loop].
  pose proof (scan_packets_spec (inAckno s) (inPkt s)) as Hscan; pose proof (scan_packets_none (inAckno s) (inPkt s)) as Hnone.
  destruct (scan_packets (inPkt s) (inAckno s)) as [found rest]. cbv zeta. destruct found as [p|]; [|by apply Hnone].
  destruct Hscan as [_ Hscan]. destruct (Hscan p eq_refl) as [_ Hl]. apply IH. destruct (use_packet_inPkt (s <| inPkt := rest |>) p cts) as [->| ->]; cbn; lia.
Qed.

(** [check_InPkts] ends with nothing left to do: none of the packets that still wait is next in sequence or old.
    Each pass that finds one takes it out of the list, so as many passes as packets are enough. *)
Theorem check_InPkts_exhausts s cts :
  let s' := check_InPkts s cts in
  Forall (fun p => seqno p <> inAckno s' /\ isOldSequence (seqno p) (inAckno s') = false) (inPkt s').
Proof. apply check_loop_done. lia. Qed.

(** ** Progress *)

(** The states in which a stream takes data. *)
Definition takes_data (s : TcpStream) : Prop :=
  TCP_ESTABLISHED <= state s /\ state s <> TCP_TIMED_WAIT.

Lemma incoming_ack_frame s p cts :
  let s1 := if negb (isOldSequence (seqno p) (inAckno s)) && isOldSequence (seqno p) (u32 (inAckno s + maxWinSize s)) then
              (if hasAck p then s <| outAcked := ackno p |> else s) <| outWinSize := winsize p |>
            else sendAck s cts in
  recv_view s1 = recv_view s /\ outStreamActive s1 = outStreamActive s.
Proof.
  cbv zeta. destruct (_ && _); [by destruct (hasAck p)|]. unfold sendAck, toSend. destruct (negb (peerKnown s)); [done|].
  cbv zeta. change (datasize _ =? 0) with true. by change (hasSyn _) with false.
Qed.

Lemma use_packet_data s p cts : hasFin p = false -> outStreamActive s = true -> (length (data p) <= 1000)%nat ->
  (length (outDataNet s) < 1000)%nat -> Forall (fun x => length x = 1000%nat) (outQueue s) ->
  let s' := use_packet s p cts in
  unread s' = unread s ++ data p /\ inAckno s' = u32 (seqno p + datasize p) /\ inPkt s' = inPkt s /\ state s' = state s.
Proof.
  intros Hfin Hout Hd Hn Hq. unfold use_packet. rewrite Hfin. cbv zeta.
  set (s1 := s <| inAckno := u32 (seqno p + datasize p) |>).
  match goal with |- context [store_data ?x (data p)] => assert (V : recv_view x = recv_view s1 /\ state x = state s /\ outStreamActive x = true);
    [by destruct (_ && _)|revert V; generalize x] end. intros s2 (V1 & V2 & V3). injection V1 as E1 E2 E3 E4 E5. cbn in E1, E2, E3, E4, E5.
  rewrite <- E2 in Hn. rewrite <- E3 in Hq. destruct (store_data_spec s2 (data p) Hd Hn Hq) as [Hu _].
  destruct (store_data_frame s2 (data p)) as (_ & F2 & F3 & F4).
  assert (F5 : outStreamActive (store_data s2 (data p)) = true) by (unfold store_data; cbv zeta; by destruct (_ <? _)).
  revert Hu F2 F3 F4 F5. generalize (store_data s2 (data p)). intros s3 Hu F2 F3 F4 F5.
  change (outStreamActive (UpdateInWinSize s3)) with (outStreamActive s3). rewrite F5, andb_false_r. cbn [andb].
  change (unread (UpdateInWinSize s3)) with (unread s3). change (inAckno (UpdateInWinSize s3)) with (inAckno s3).
  change (inPkt (UpdateInWinSize s3)) with (inPkt s3). change (state (UpdateInWinSize s3)) with (state s3).
  rewrite Hu, F3, F4, F2, E4, E5, V2. split; [|done]. unfold unread. by rewrite E1, E2, E3.
Qed.

Lemma incoming_in_order s p cts : inPkt s = [] -> (length (outDataNet s) < 1000)%nat ->
  Forall (fun x => length x = 1000%nat) (outQueue s) -> (length (data p) <= 1000)%nat -> seqno p = inAckno s ->
  hasFin p = false -> outStreamActive s = true ->
  let s' := incoming_Established s p cts in
  unread s' = unread s ++ data p /\ inAckno s' = u32 (inAckno s + datasize p) /\ inPkt s' = [].
Proof.
  intros Hp Hn Hq Hd Hseq Hfin Hout. unfold incoming_Established. cbv zeta.
  pose proof (incoming_ack_frame s p cts) as Hf. cbv zeta in Hf.
  match type of Hf with recv_view ?x = _ /\ _ => revert Hf; generalize x end. intros s1 [V Ho].
  injection V as E1 E2 E3 E4 E5. rewrite Hp in E4. rewrite Hout in Ho. rewrite <- E2 in Hn. rewrite <- E3 in Hq. rewrite <- E5 in *.
  change (inPkt (s1 <| inPkt := inPkt s1 ++ [p] |>)) with (inPkt s1 ++ [p]). rewrite E4. cbn [app queue_size length].
  change (kMaxQueueSize <? queue_size [p]) with false. cbv iota. unfold check_InPkts.
  change (inPkt (s1 <| inPkt := [p] |>)) with [p]. cbn [length]. cbn [check_loop].
  change (inPkt (s1 <| inPkt := [p] |>)) with [p]. change (inAckno (s1 <| inPkt := [p] |>)) with (inAckno s1).
  cbn [scan_packets]. rewrite Hseq, Z.eqb_refl.
  match goal with |- context [use_packet ?x p cts] =>
    pose proof (use_packet_data x p cts Hfin Ho Hd Hn Hq) as H; cbv zeta in H; revert H; generalize (use_packet x p cts) end.
  intros s2 (G1 & G2 & G3 & _). cbn in G3. rewrite G3. cbn [scan_packets].
  split; [|split; [|done]].
  - change (unread (s2 <| inPkt := [] |>)) with (unread s2). rewrite G1. unfold unread. cbn. by rewrite E1, E2, E3.
  - change (inAckno (s2 <| inPkt := [] |>)) with (inAckno s2). by rewrite G2, Hseq.
Qed.

(** C24 The packet that is next in sequence is taken at once: its bytes become the last of those the application can
    read, and the number the end acknowledges moves past them. *)
Theorem recvPkt_in_order s p seq cts :
  takes_data s -> inPkt s = [] -> (length (outDataNet s) < 1000)%nat -> Forall (fun x => length x = 1000%nat) (outQueue s) ->
  outStreamActive s = true -> packet_ok p -> (length (data p) <= 1000)%nat -> seqno p = inAckno s -> hasFin p = false ->
  let s' := recvPkt s (writePacket p (MAX_SEG + TCP_PSEUDO_HDR_SIZE)).2 seq cts in
  unread s' = unread s ++ data p /\ inAckno s' = u32 (inAckno s + datasize p) /\ inPkt s' = [].
Proof.
  intros [Hst Htw] Hp Hn Hq Hout [P1 P2 P3 P4] Hd Hseq Hfin. rewrite recvPkt_written by done. rewrite !wrap_small by done.
  set (s0 := s <| lastIncomingPkt := cts |>). unfold handleIncoming. change (state s0) with (state s).
  unfold TCP_ESTABLISHED, TCP_TIMED_WAIT, TCP_CLOSED, TCP_LISTEN, TCP_SYN_SENT, TCP_SYN_RCVD in *.
  destruct (Z.eqb_spec (state s) 0); [lia|]. destruct (Z.eqb_spec (state s) 1); [lia|]. destruct (Z.eqb_spec (state s) 2); [lia|].
  destruct (Z.eqb_spec (state s) 3); [lia|]. destruct (Z.eqb_spec (state s) 7); [lia|]. cbn [orb].
  by apply (incoming_in_order s0 (mk_TcpPacket (data p) (seqno p) (ackno p) (hlen_flags p) (winsize p) (f64_of_Z 0) 0)).
Qed.

Lemma recvPkt_in_order_witness :
  let s := stream (handshake 1 2 20 5 7 (f64_of_Z 0)).2 in
  let p := mk_TcpPacket hello 6 8 TCP_ACK_BIT 65500 (f64_of_Z 0) 0 in
  let s' := recvPkt s (writePacket p (MAX_SEG + TCP_PSEUDO_HDR_SIZE)).2 0 (f64_of_Z 1) in
  unread s' = unread s ++ hello /\ inAckno s' = u32 (inAckno s + 5) /\ inPkt s' = [].
Proof.
  apply (recvPkt_in_order (stream (handshake 1 2 20 5 7 (f64_of_Z 0)).2) (mk_TcpPacket hello 6 8 TCP_ACK_BIT 65500 (f64_of_Z 0) 0) 0 (f64_of_Z 1)).
  - split; [vm_compute; discriminate|vm_compute; discriminate].
  - vm_compute. reflexivity.
  - vm_compute. lia.
  - vm_compute. constructor.
  - vm_compute. reflexivity.
  - split; vm_compute; (split; [discriminate|reflexivity]).
  - vm_compute. lia.
  - vm_compute. reflexivity.
  - vm_compute. reflexivity.
Defined.

(** ** The retransmit timer *)

Lemma land_other_bit f : Z.land (Z.lor f TCP_ACK_BIT) TCP_SYN_BIT = Z.land f TCP_SYN_BIT.
Proof. rewrite Z.land_lor_distr_l. change (Z.land TCP_ACK_BIT TCP_SYN_BIT) with 0. apply Z.lor_0_r. Qed.

Lemma restart_timer_spec s cts :
  let s' := restartRetransmitTimer (incRetransmitTimeout s) cts in
  same_views s s' /\ retransTimerOn s' = true /\ retransTimerTs s' = cts /\ congestWinSize s' = congestWinSize s.
Proof.
  cbv zeta. split; [etransitivity; [apply incTimeout_views|apply restartTimer_views]|].
  assert (V : congestWinSize (incRetransmitTimeout s) = congestWinSize s) by (unfold incRetransmitTimeout; cbv zeta; by destruct (float_lt _ _)).
  revert V. generalize (incRetransmitTimeout s). intros s1 <-. unfold restartRetransmitTimer, stopRetransmitTimer, startRetransmitTimer.
  by destruct (retransTimerOn s1) eqn:E; cbn; rewrite ?E.
Qed.

(** What a retransmission sends: the packet again, with the acknowledgement and the window of now. *)
Definition again (s : TcpStream) (p : TcpPacket) : TcpPacket := (setAck p (inAckno s)) <| winsize := u16 (inWinSize s) |>.

(** When the timer has run out, the oldest packet that is not acknowledged is sent again, with the same number and
    data and today's acknowledgement, and counted; a packet that was sent again more than ten times closes the stream. *)
Theorem retransmit_oldest s p pkts cts :
  peerKnown s = true -> retransTimerOn s = true -> float_lt (f64_sub cts (retransTimerTs s)) (retransTimeout s) = false ->
  outPkt s = p :: pkts -> hasSyn p = false ->
  let s' := retransmit s cts in
  if kMaxPktRetransmit <? TcpPacket.retrans p then state s' = TCP_CLOSED /\ sent s' = sent s
  else sent s' = sent s ++ [((writePacket (again s p) (MAX_SEG + TCP_PSEUDO_HDR_SIZE)).2, ttl s)] /\
       outPkt s' = (again s p) <| ts := cts |> <| TcpPacket.retrans := u16 (TcpPacket.retrans p + 1) |> :: pkts /\
       retransTimerOn s' = true /\ retransTimerTs s' = cts /\ congestWinSize s' = MAX_SEG.
Proof.
  intros Hp Hon Hlt Ho Hsyn. unfold retransmit. rewrite Hp, Hon, Hlt, Ho, Hsyn. cbn [negb]. cbv zeta.
  set (s1 := s <| congestThreshold := congestWinSize s / 2 |> <| congestWinSize := MAX_SEG |> <| congestUpdate := u32 (outAcked s + MAX_SEG) |>).
  set (p' := (setAck p (inAckno s1)) <| winsize := u16 (inWinSize _) |>).
  assert (Ep : hasSyn p' = false /\ TcpPacket.retrans p' = TcpPacket.retrans p /\ p' = again s p).
  { split; [|done]. unfold hasSyn, has_flag. change (hlen_flags p') with (Z.lor (hlen_flags p) TCP_ACK_BIT). by rewrite land_other_bit. }
  destruct Ep as (E1 & E2 & E3). rewrite E1, E2. cbn [andb orb negb].
  match goal with |- context [sendPkt ?x p'] =>
    assert (V : sent x = sent s /\ ttl x = ttl s /\ congestWinSize x = MAX_SEG) by done; revert V; generalize x end.
  rewrite E3. clear E1 E2 E3 p' s1. intros s1 (V1 & V2 & V3).
  destruct (Z.ltb_spec kMaxPktRetransmit (TcpPacket.retrans p)); [by split|].
  set (p' := (again s p) <| ts := cts |> <| TcpPacket.retrans := u16 (TcpPacket.retrans p + 1) |>).
  assert (E1 : hasSyn p' = false).
  { unfold hasSyn, has_flag. change (hlen_flags p') with (Z.lor (hlen_flags p) TCP_ACK_BIT). by rewrite land_other_bit. }
  cbv zeta. rewrite E1. cbn [negb].
  match goal with |- context [incRetransmitTimeout ?x] => destruct (restart_timer_spec x cts) as ([W1 _ _] & W2 & W3 & W4);
    assert (V : sent x = sent s1 ++ [((writePacket (again s p) (MAX_SEG + TCP_PSEUDO_HDR_SIZE)).2, ttl s1)] /\ outPkt x = p' :: pkts /\
      congestWinSize x = congestWinSize s1) by (split; [reflexivity|split; reflexivity]);
    revert V W1 W2 W3 W4; generalize (restartRetransmitTimer (incRetransmitTimeout x) cts); generalize x end.
  intros s2 s3 (X1 & X2 & X3) W1 W2 W3 W4. injection W1 as _ _ W1 _ W5 _. rewrite W5, X1, V1, V2, W1, X2, W4, X3, V3. done.
Qed.

Lemma retransmit_oldest_witness :
  let s := (conn_run (handshake 1 2 20 5 7 (f64_of_Z 0)) [(true, Ev_tick (f64_of_Z 0)); (true, Ev_write hello); (true, Ev_tick (f64_of_Z 0))]).1.(stream) in
  let s' := retransmit s (f64_of_Z 9) in
  exists p, outPkt s = [p] /\ sent s' = sent s ++ [((writePacket (again s p) (MAX_SEG + TCP_PSEUDO_HDR_SIZE)).2, ttl s)].
Proof.
  set (s := (conn_run (handshake 1 2 20 5 7 (f64_of_Z 0)) [(true, Ev_tick (f64_of_Z 0)); (true, Ev_write hello); (true, Ev_tick (f64_of_Z 0))]).1.(stream)).
  assert (E : exists p, outPkt s = [p] /\ hasSyn p = false /\ TcpPacket.retrans p = 0) by (vm_compute; by eexists).
  destruct E as (p & E1 & E2 & E3). exists p. split; [exact E1|].
  assert (H : peerKnown s = true /\ retransTimerOn s = true /\ float_lt (f64_sub (f64_of_Z 9) (retransTimerTs s)) (retransTimeout s) = false) by (clear E1; split; [|split]; vm_compute; reflexivity).
  destruct H as (H1 & H2 & H3). pose proof (retransmit_oldest s p [] (f64_of_Z 9) H1 H2 H3 E1 E2) as H. cbv zeta in H. rewrite E3 in H. apply H.
Defined.

(** ** Two runs that go wrong *)

(** The handshake without its last acknowledgement. *)
Definition half_handshake (raddr1 raddr2 period seq1 seq2 : Z) (cts : float64) : endpoint * endpoint :=
  let s2 := (listenfor new_TcpStream raddr1).1 in
  let s1 := (connect new_TcpStream raddr2 period seq1 cts).1 in
  let s2 := recvPkt s2 (datagram s1 0) seq2 cts in
  let s1 := recvPkt s1 (datagram s2 0) 0 cts in
  (mk_endpoint s1 [] [], mk_endpoint s2 [] []).

(** The acknowledgement is lost, and the first data packet comes after the second. *)
Definition late_data_run : endpoint * endpoint :=
  conn_run (half_handshake 1 2 20 5 7 (f64_of_Z 0))
    [(true, Ev_write [1; 2; 3]); (true, Ev_tick (f64_of_Z 1)); (true, Ev_write [4; 5; 6]); (true, Ev_tick (f64_of_Z 2));
     (false, Ev_deliver 3 0 (f64_of_Z 3)); (false, Ev_deliver 2 0 (f64_of_Z 4)); (false, Ev_read 10)].

(** A listener that never got the acknowledgement of the handshake takes the number of the first packet with data as the
    start of the stream.  When that packet is not the first one, the bytes before it are lost for good and the
    application reads a stream that was never written. *)
Theorem synrcvd_skips_data :
  written late_data_run.1 = [1; 2; 3; 4; 5; 6] /\ got late_data_run.2 = [4; 5; 6] /\
  ~ got late_data_run.2 `prefix_of` written late_data_run.1.
Proof.
  assert (E : written late_data_run.1 = [1; 2; 3; 4; 5; 6] /\ got late_data_run.2 = [4; 5; 6]) by (vm_compute; done).
  destruct E as [-> ->]. split; [done|]. split; [done|]. by intros [k Hk].
Qed.

Definition three_chunks : TcpPacket :=
  mk_TcpPacket (replicate 1000 1 ++ replicate 1000 2 ++ replicate 1000 3) 6 8 TCP_ACK_BIT 65500 (f64_of_Z 0) 0.

(** Of a packet with more data than a buffer holds, every whole buffer after the first is filled from the same place:
    the application reads the second thousand bytes twice and the third not at all. *)
Theorem big_packet_repeats_chunk :
  let s := recvPkt (stream (handshake 1 2 20 5 7 (f64_of_Z 0)).2) (writePacket three_chunks 3020).2 0 (f64_of_Z 1) in
  (read s 3000).2 = replicate 1000 1 ++ replicate 1000 2 ++ replicate 1000 2.
Proof. vm_compute. reflexivity. Qed.
