(* ===== verification/Nxs.v ===== *)
(** * Synchronisation of groups and messages: data, state and configuration

    src/gxs/rsgxsnetservice.cc, rsgxsnetservice.h, rsgxsnetutils.h, src/rsitems/rsnxsitems.h, rsgxsupdateitems.h.  One
    [RsGxsNetService] keeps the groups of one kind (forums, channels, identities) in step with those of the friends.  Friends ask each
    other for what changed since a time stamp; the answers travel in numbered transactions.  This file has the items, the state,
    and the operations on time stamps, rejected messages and settings; [NxsTrans] the transactions and [NxsSync] the requests.

    Identifiers are numbers in their order, null is 0.  The data base, circles, identities, reputations, the tunnel service, SHA-1 and
    the encryption for a circle (OpenSSL behind GxsSecurity) are the record [nxs_env]; what the service does to others is the list of
    [nxs_out].  Searching groups through turtle tunnels, and splitting messages (compiled out: NXS_FRAG) are left out. *)

From S2P Require Import Prelude StdMap.
From Stdlib Require Import ZArith Lia.
From stdpp Require Import base list.
Open Scope Z_scope.

(** ** Constants *)

Definition SYNC_PERIOD : Z := 60.
Definition MAX_REQLIST_SIZE : Z := 20.
Definition TRANSAC_TIMEOUT : Z := 2000.
Definition REJECTED_MESSAGE_RETRY_DELAY : Z := 24 * 3600.
Definition GROUP_STATS_UPDATE_DELAY : Z := 240.
Definition GROUP_STATS_UPDATE_NB_PEERS : Z := 2.
Definition MAX_ALLOWED_GXS_MESSAGE_SIZE : Z := 199000.
Definition SAFETY_DELAY_FOR_UNSUCCESSFUL_UPDATE : Z := 0.

Definition ENCRYPTION_STATUS_CIRCLE_ERROR : Z := 0x02.
Definition ENCRYPTION_STATUS_GXS_KEY_MISSING : Z := 0x05.

Definition AUTO_SYNC_MESSAGES : Z := 0x0001.
Definition DISCOVER_NEW_GROUPS : Z := 0x0002.
Definition SYNC_OLD_MSG_VERSIONS : Z := 0x0004.
Definition DISTANT_SYNC : Z := 0x0008.

Definition FLAG_BEGIN_P1 : Z := 0x0001.
Definition FLAG_BEGIN_P2 : Z := 0x0002.
Definition FLAG_END_SUCCESS : Z := 0x0004.
Definition FLAG_TYPE_MASK : Z := 0xff00.
Definition FLAG_TYPE_GRP_LIST_RESP : Z := 0x0100.
Definition FLAG_TYPE_MSG_LIST_RESP : Z := 0x0200.
Definition FLAG_TYPE_GRP_LIST_REQ : Z := 0x0400.
Definition FLAG_TYPE_MSG_LIST_REQ : Z := 0x0800.
Definition FLAG_TYPE_GRPS : Z := 0x1000.
Definition FLAG_TYPE_MSGS : Z := 0x2000.

Definition FLAG_REQUEST : Z := 0x001.
Definition FLAG_RESPONSE : Z := 0x002.
Definition FLAG_USE_HASHED_GROUP_ID : Z := 0x02.
Definition GROUP_INFO_TYPE_REQUEST : Z := 0x01.
Definition GROUP_INFO_TYPE_RESPONSE : Z := 0x02.

Definition FLAG_STATE_STARTING : Z := 0x0001.
Definition FLAG_STATE_RECEIVING : Z := 0x0002.
Definition FLAG_STATE_SENDING : Z := 0x0004.
Definition FLAG_STATE_FAILED : Z := 0x0010.
Definition FLAG_STATE_WAITING_CONFIRM : Z := 0x0020.
Definition FLAG_STATE_COMPLETED : Z := 0x0080.

Definition GROUP_SUBSCRIBE_PUBLISH : Z := 0x02.
Definition GROUP_SUBSCRIBE_SUBSCRIBED : Z := 0x04.

Definition GXS_CIRCLE_TYPE_UNKNOWN : Z := 0.
Definition GXS_CIRCLE_TYPE_PUBLIC : Z := 1.
Definition GXS_CIRCLE_TYPE_EXTERNAL : Z := 2.
Definition GXS_CIRCLE_TYPE_YOUR_FRIENDS_ONLY : Z := 3.
Definition GXS_CIRCLE_TYPE_LOCAL : Z := 4.

Definition LOCALLY_NEGATIVE : Z := 0.
Definition NEUTRAL : Z := 2.
Definition REMOTELY_POSITIVE : Z := 3.

Definition RSTLV_KEY_TYPE_FULL : Z := 0x0002.
Definition RSTLV_KEY_DISTRIB_PUBLISH : Z := 0x0020.
Definition RSTLV_KEY_DISTRIB_ADMIN : Z := 0x0040.

(** [if(flags & f)] *)
Definition has (flags f : Z) : bool := negb (Z.land flags f =? 0).

(** ** Items *)

(** An item is its header and one of these. *)
Record RsNxsTransacItem := mk_Transac { transactFlag : Z; nItems : Z; updateTS : Z; timestamp : Z }.
Record RsNxsGrp := mk_NxsGrp { g_grpId : Z; g_pos : Z; g_count : Z; g_meta : list Z; g_grp : list Z }.
Record RsNxsMsg := mk_NxsMsg { m_grpId : Z; m_msgId : Z; m_pos : Z; m_count : Z; m_meta : list Z; m_msg : list Z }.
Record RsTlvPrivateRSAKey := mk_PrivateKey { keyId : Z; keyFlags : Z; keyData : list Z }.

#[export] Instance eta_NxsMsg : Eta RsNxsMsg := fun m => mk_NxsMsg (m_grpId m) (m_msgId m) (m_pos m) (m_count m) (m_meta m) (m_msg m).

Inductive nxs_body :=
| TransacItem (t : RsNxsTransacItem)
| SyncGrpItem (flag grpId publishTs authorId : Z)
| SyncMsgItem (flag grpId msgId authorId : Z)
| NxsGrp (g : RsNxsGrp)
| NxsMsg (m : RsNxsMsg)
| EncryptedDataItem (data : list Z)
| SyncGrpReqItem (updateTS : Z)
| SyncMsgReqItem (grpId flag createdSinceTS updateTS : Z)
| SyncGrpStatsItem (request_type grpId number_of_posts last_post_TS : Z)
| GroupPublishKeyItem (grpId : Z) (private_key : RsTlvPrivateRSAKey)
| PullRequestItem.

Record RsNxsItem := mk_NxsItem { PeerId : Z; transactionNumber : Z; body : nxs_body }.

#[export] Instance eta_NxsItem : Eta RsNxsItem := fun i => mk_NxsItem (PeerId i) (transactionNumber i) (body i).

(** ** What the others know *)

Record RsGxsGrpMetaData := mk_GrpMeta {
  mSubscribeFlags : Z; mPublishTs : Z; mRecvTS : Z; mAuthorId : Z; mCircleId : Z; mCircleType : Z; mInternalCircle : Z;
  mOriginator : Z; mSignFlags : Z; public_keys : list Z; private_keys : list (Z * RsTlvPrivateRSAKey) }.

Record RsGxsMsgMetaData := mk_MsgMeta { mm_MsgId : Z; mm_OrigMsgId : Z; mm_AuthorId : Z; mm_PublishTs : Z }.

Record nxs_env := mk_nxs_env {
  (* the build option of CMakeLists.txt: messages are sent however old they are *)
  RS_GXS_SEND_ALL : bool;
  now : Z;
  getOnlineList : list Z;
  (* the tunnel service: whether there is one, its virtual peers, and the group such a peer is for *)
  mGxsNetTunnel : bool;
  getVirtualPeers : list Z;
  isDistantPeer : Z -> option Z;
  (* the data store *)
  grpMetas : list (Z * RsGxsGrpMetaData);
  msgMetas : Z -> list RsGxsMsgMetaData;
  retrieveNxsGrp : Z -> option RsNxsGrp;
  retrieveNxsMsgs : Z -> Z -> list RsNxsMsg;
  updateGroupKeys : Z -> bool;
  (* reputations, identities (level and flags), circles and friends *)
  overallReputationLevel : Z -> Z;
  getIdDetails : Z -> option (Z * Z);
  isLoaded : Z -> bool;
  isRecipient : Z -> Z -> Z -> bool;
  canSend : Z -> Z -> bool * bool;
  getLocalCircleServerUpdateTS : Z -> option (Z * Z);
  getPgpId : Z -> Z;
  getGroupInfo : Z -> option (list Z);
  (* cryptography: the hash of a group for a peer, the cipher text or the status, the item and its number *)
  sha1 : Z -> Z -> Z;
  encrypt : RsNxsItem -> Z -> Z -> list Z + Z;
  decrypt : list Z -> option (Z * nxs_body);
  random_u32 : Z -> Z
}.

Definition hashGrpId (e : nxs_env) (gid pid : Z) : Z := sha1 e pid gid.

(** ** What it does to others *)

Inductive nxs_out :=
| SendItem (i : RsNxsItem)
| SendTunnelData (i : RsNxsItem)
| UpdateGroupKeys (grpId : Z) (key : RsTlvPrivateRSAKey) (flags : Z)
| LoadCircle (circle : Z)
| RequestDistantPeers (grpId : Z)
| ReleaseDistantPeers (grpId : Z)
| ReceiveNewGroups (l : list (Z * RsNxsGrp))
| ReceiveNewMessages (l : list (Z * RsNxsMsg))
| NotifyReceivePublishKey (grpId : Z)
| NotifyChangedGroupStats (grpId : Z)
| NotifyChangedGroupSyncParams (grpId : Z).

(** ** State *)

(** The transaction item is its header - the peer and the number - and [mTransaction]. *)
Record NxsTransaction := mk_NxsTransaction {
  mFlag : Z; mTimeOut : Z; t_PeerId : Z; t_transactionNumber : Z; mTransaction : RsNxsTransacItem; mItems : list RsNxsItem }.

#[export] Instance eta_NxsTransaction : Eta NxsTransaction := fun t =>
  mk_NxsTransaction (mFlag t) (mTimeOut t) (t_PeerId t) (t_transactionNumber t) (mTransaction t) (mItems t).

(** [std::set] of identifiers *)
Abbreviation ids := (list (Z * unit)).
Definition ids_insert (s : ids) (x : Z) : ids := map_set s x tt.
Definition ids_mem (s : ids) (x : Z) : bool := if map_find s x is Some _ then true else false.

(** [m[k]] makes the entry. *)
Definition map_at {V} (d : V) (m : list (Z * V)) (k : Z) : V := default d (map_find m k).
Definition map_touch {V} (d : V) (m : list (Z * V)) (k : Z) : list (Z * V) := if map_find m k is Some _ then m else map_set m k d.

Record RsGxsGrpConfig := mk_GrpConfig {
  msg_keep_delay : Z; msg_send_delay : Z; msg_req_delay : Z; suppliers : ids; max_visible_count : Z; statistics_update_TS : Z;
  last_group_modification_TS : Z }.

#[export] Instance eta_GrpConfig : Eta RsGxsGrpConfig := fun c =>
  mk_GrpConfig (msg_keep_delay c) (msg_send_delay c) (msg_req_delay c) (suppliers c) (max_visible_count c) (statistics_update_TS c)
    (last_group_modification_TS c).

Record RsPeerUpdateTsRecord := mk_TsRecord { mLastTsReceived : Z; mTs : Z }.

(** [RsGxsServerGrpUpdate] and [RsGxsServerMsgUpdate] have the same fields. *)
Record RsGxsServerUpdate := mk_ServerUpdate { s_updateTS : Z; updateTsRecords : list (Z * RsPeerUpdateTsRecord) }.

#[export] Instance eta_ServerUpdate : Eta RsGxsServerUpdate := fun u => mk_ServerUpdate (s_updateTS u) (updateTsRecords u).

Definition new_ServerUpdate : RsGxsServerUpdate := mk_ServerUpdate 0 [].

Record MsgUpdateInfo := mk_MsgUpdateInfo { time_stamp : Z; message_count : Z }.

#[export] Instance eta_MsgUpdateInfo : Eta MsgUpdateInfo := fun i => mk_MsgUpdateInfo (time_stamp i) (message_count i).

Definition new_MsgUpdateInfo : MsgUpdateInfo := mk_MsgUpdateInfo 0 0.

(** What waits for a circle: groups to list to a friend, or messages of a group. *)
Record GrpIdCircleVet := mk_GrpVet { v_GroupId : Z; v_CircleId : Z; v_AuthorId : Z; mCleared : bool; mShouldEncrypt : bool }.
Record MsgIdCircleVet := mk_MsgVet { v_MsgId : Z; v_MsgAuthorId : Z }.

Inductive GrpCircleVetting :=
| GrpCircleIdRequestVetting (mTimeStamp : Z) (mGrpCircleV : list GrpIdCircleVet) (mPeerId : Z)
| MsgCircleIdsRequestVetting (mTimeStamp : Z) (mMsgs : list MsgIdCircleVet) (mGrpId mPeerId mCircleId : Z).

Record RsGxsNetService := mk_NetService {
  mTransactions : list (Z * list (Z * NxsTransaction));
  mComplTransactions : list NxsTransaction;
  mTransactionN : Z;
  mOwnId : Z;
  mSyncTs : Z;
  mLastKeyPublishTs : Z;
  mLastCleanRejectedMessages : Z;
  mUpdateCounter : Z;
  mSyncFlags : Z;
  mPendingCircleVets : list GrpCircleVetting;
  mPendingPublishKeyRecipients : list (Z * ids);
  mExplicitRequest : list (Z * ids);
  mPartialMsgUpdates : list (Z * ids);
  mClientMsgUpdateMap : list (Z * list (Z * MsgUpdateInfo));
  mServerMsgUpdateMap : list (Z * RsGxsServerUpdate);
  mClientGrpUpdateMap : list (Z * Z);
  mServerGrpConfigMap : list (Z * RsGxsGrpConfig);
  mGrpServerUpdate : RsGxsServerUpdate;
  mRejectedMessages : list (Z * Z);
  mNewGroupsToNotify : list (Z * RsNxsGrp);
  mNewMessagesToNotify : list (Z * RsNxsMsg);
  mNewStatsToNotify : ids;
  mNewPublishKeysToNotify : ids;
  mNewGrpSyncParamsToNotify : ids;
  mDefaultMsgStorePeriod : Z;
  mDefaultMsgSyncPeriod : Z;
  mConfigChanged : bool
}.

#[export] Instance eta_NetService : Eta RsGxsNetService := fun s =>
  mk_NetService (mTransactions s) (mComplTransactions s) (mTransactionN s) (mOwnId s) (mSyncTs s) (mLastKeyPublishTs s)
    (mLastCleanRejectedMessages s) (mUpdateCounter s) (mSyncFlags s) (mPendingCircleVets s) (mPendingPublishKeyRecipients s)
    (mExplicitRequest s) (mPartialMsgUpdates s) (mClientMsgUpdateMap s) (mServerMsgUpdateMap s) (mClientGrpUpdateMap s)
    (mServerGrpConfigMap s) (mGrpServerUpdate s) (mRejectedMessages s) (mNewGroupsToNotify s) (mNewMessagesToNotify s)
    (mNewStatsToNotify s) (mNewPublishKeysToNotify s) (mNewGrpSyncParamsToNotify s) (mDefaultMsgStorePeriod s)
    (mDefaultMsgSyncPeriod s) (mConfigChanged s).

(** The constructor, with the own id the net manager gives. *)
Definition new_NetService (ownId sync_flags default_store_period default_sync_period : Z) : RsGxsNetService :=
  let sync := if (0 <? default_store_period) && (default_store_period <? default_sync_period) then default_store_period
              else default_sync_period in
  mk_NetService [] [] 0 ownId 0 0 0 0 sync_flags [] [] [] [] [] [] [] [] new_ServerUpdate [] [] [] [] [] [] default_store_period sync false.

Definition IndicateConfigChanged (s : RsGxsNetService) : RsGxsNetService := s <| mConfigChanged := true |>.

(** ** Settings of groups *)

(** A value of the map, made with the defaults when there is none. *)
Definition locked_getGrpConfig (s : RsGxsNetService) (g : Z) : RsGxsGrpConfig * RsGxsNetService :=
  match map_find (mServerGrpConfigMap s) g with
  | Some conf => (conf, s)
  | None =>
      let conf := mk_GrpConfig (mDefaultMsgStorePeriod s) (mDefaultMsgSyncPeriod s) (mDefaultMsgSyncPeriod s) [] 0 0 0 in
      (conf, s <| mServerGrpConfigMap := map_set (mServerGrpConfigMap s) g conf |>)
  end.

(** What the reference it returns is used for. *)
Definition set_config (s : RsGxsNetService) (g : Z) (conf : RsGxsGrpConfig) : RsGxsNetService :=
  s <| mServerGrpConfigMap := map_set (mServerGrpConfigMap s) g conf |>.

Definition locked_checkDelay (time_in_secs : Z) : Z :=
  if time_in_secs <? 1 * 86400 then 0
  else if time_in_secs <=? 10 * 86400 then 5 * 86400
  else if time_in_secs <=? 20 * 86400 then 15 * 86400
  else if time_in_secs <=? 60 * 86400 then 30 * 86400
  else if time_in_secs <=? 120 * 86400 then 90 * 86400
  else if time_in_secs <=? 250 * 86400 then 180 * 86400
  else if time_in_secs <=? 400 * 86400 then 365 * 86400
  else if time_in_secs <=? 1200 * 86400 then 1095 * 86400
  else 1825 * 86400.

Definition locked_resetClientTS (s : RsGxsNetService) (g : Z) : RsGxsNetService :=
  s <| mClientMsgUpdateMap := (fun kv => (kv.1, map_erase kv.2 g)) <$> mClientMsgUpdateMap s |>.

Definition setSyncAge (s : RsGxsNetService) (g age : Z) : RsGxsNetService :=
  let age := locked_checkDelay age in
  let '(conf, s) := locked_getGrpConfig s g in
  if msg_req_delay conf =? age then s
  else
    let s := set_config s g (conf <| msg_req_delay := age |>) in
    let s := IndicateConfigChanged (locked_resetClientTS s g) in
    s <| mNewGrpSyncParamsToNotify := ids_insert (mNewGrpSyncParamsToNotify s) g |>.

Definition setKeepAge (s : RsGxsNetService) (g age : Z) : RsGxsNetService :=
  let age := locked_checkDelay age in
  let '(conf, s) := locked_getGrpConfig s g in
  if msg_keep_delay conf =? age then s else IndicateConfigChanged (set_config s g (conf <| msg_keep_delay := age |>)).

Definition getSyncAge (s : RsGxsNetService) (g : Z) : Z * RsGxsNetService :=
  let '(conf, s) := locked_getGrpConfig s g in (msg_req_delay conf, s).
Definition getKeepAge (s : RsGxsNetService) (g : Z) : Z * RsGxsNetService :=
  let '(conf, s) := locked_getGrpConfig s g in (msg_keep_delay conf, s).

Record RsGroupNetworkStats := mk_NetworkStats {
  mSuppliers : Z; mMaxVisibleCount : Z; mAllowMsgSync : bool; mGrpAutoSync : bool; mLastGroupModificationTS : Z }.

Definition getGroupNetworkStats (s : RsGxsNetService) (g : Z) : option RsGroupNetworkStats :=
  conf ← map_find (mServerGrpConfigMap s) g;
  Some (mk_NetworkStats (Z.of_nat (length (suppliers conf))) (max_visible_count conf) (has (mSyncFlags s) AUTO_SYNC_MESSAGES)
          (has (mSyncFlags s) DISCOVER_NEW_GROUPS) (last_group_modification_TS conf)).

(** ** Time stamps *)

Definition locked_stampMsgServerUpdateTS (e : nxs_env) (s : RsGxsNetService) (g : Z) : RsGxsNetService :=
  let m := map_at new_ServerUpdate (mServerMsgUpdateMap s) g in
  s <| mServerMsgUpdateMap := map_set (mServerMsgUpdateMap s) g (m <| s_updateTS := u32 (now e) |>) |>.

Definition stampMsgServerUpdateTS (e : nxs_env) (s : RsGxsNetService) (g : Z) : RsGxsNetService := locked_stampMsgServerUpdateTS e s g.

Definition locked_stampPeerGroupUpdateTime (s : RsGxsNetService) (pid g tm n_messages : Z) : RsGxsNetService :=
  let up := map_at [] (mClientMsgUpdateMap s) pid in
  let info := map_at new_MsgUpdateInfo up g in
  let info := info <| time_stamp := u32 tm |> <| message_count := Z.max n_messages (message_count info) |> in
  IndicateConfigChanged (s <| mClientMsgUpdateMap := map_set (mClientMsgUpdateMap s) pid (map_set up g info) |>).

(** Answers whether the peer may be answered, and notes its time stamp. *)
Definition locked_checkResendingOfUpdates (e : nxs_env) (incoming_ts : Z) (rec : RsPeerUpdateTsRecord) : bool * RsPeerUpdateTsRecord :=
  if (mLastTsReceived rec =? incoming_ts) && (now e <? mTs rec + SAFETY_DELAY_FOR_UNSUCCESSFUL_UPDATE) then (false, rec)
  else (true, mk_TsRecord incoming_ts (now e)).

(** The common part of the two [locked_CanReceiveUpdate]: whether there is something newer for the peer. *)
Definition can_receive (e : nxs_env) (upd : RsGxsServerUpdate) (peer ts : Z) : bool * RsGxsServerUpdate :=
  if ts <? s_updateTS upd then
    let '(ok, rec) := locked_checkResendingOfUpdates e ts (map_at (mk_TsRecord 0 0) (updateTsRecords upd) peer) in
    (ok, upd <| updateTsRecords := map_set (updateTsRecords upd) peer rec |>)
  else (false, upd).

Definition subscribeStatusChanged (e : nxs_env) (s : RsGxsNetService) (g : Z) (subscribed : bool) : RsGxsNetService :=
  if negb subscribed then s
  else
    let item := map_at new_ServerUpdate (mServerMsgUpdateMap s) g in
    let s := s <| mServerMsgUpdateMap := map_set (mServerMsgUpdateMap s) g (item <| s_updateTS := u32 (now e) |>) |> in
    let s := s <| mGrpServerUpdate := (mGrpServerUpdate s) <| s_updateTS := u32 (now e) |> |> in
    locked_resetClientTS s g.

(** One group: the time stamp of its circle, then that of its meta data. *)
Definition update_group_TS (e : nxs_env) (r : RsGxsNetService * bool) (kv : Z * RsGxsGrpMetaData) : RsGxsNetService * bool :=
  let '(s, change) := r in
  let meta := kv.2 in
  let s :=
    if has (mSubscribeFlags meta) GROUP_SUBSCRIBE_SUBSCRIBED && negb (mCircleId meta =? 0) then
      match getLocalCircleServerUpdateTS e (mCircleId meta) with
      | Some (circle_group_server_ts, circle_msg_server_ts) =>
          let circle_membership_ts := Z.max circle_group_server_ts circle_msg_server_ts in
          if s_updateTS (mGrpServerUpdate s) <? circle_membership_ts then
            s <| mGrpServerUpdate := (mGrpServerUpdate s) <| s_updateTS := u32 circle_membership_ts |> |>
          else s
      | None => s
      end
    else s in
  if s_updateTS (mGrpServerUpdate s) <? mRecvTS meta then
    (s <| mGrpServerUpdate := (mGrpServerUpdate s) <| s_updateTS := u32 (mRecvTS meta) |> |>, true)
  else (s, change).

Definition updateServerSyncTS (e : nxs_env) (s : RsGxsNetService) : RsGxsNetService :=
  let gxsMap := grpMetas e in
  let s := s <| mServerMsgUpdateMap := filter (fun kv => is_Some (map_find gxsMap kv.1)) (mServerMsgUpdateMap s) |> in
  let '(s, change) := foldl (update_group_TS e) (s, false) gxsMap in
  if change then IndicateConfigChanged s else s.

Definition getGroupServerUpdateTS (s : RsGxsNetService) (g : Z) : Z * Z :=
  (s_updateTS (mGrpServerUpdate s), match map_find (mServerMsgUpdateMap s) g with Some u => s_updateTS u | None => 0 end).

Definition remove_group (s : RsGxsNetService) (g : Z) : RsGxsNetService :=
  let s := match map_find (mServerGrpConfigMap s) g with
           | Some conf => set_config s g (conf <| suppliers := [] |> <| max_visible_count := 0 |>)
           | None => s
           end in
  let s := s <| mServerMsgUpdateMap := map_erase (mServerMsgUpdateMap s) g |> in
  (locked_resetClientTS s g) <| mClientGrpUpdateMap := [] |>.

Definition removeGroups (s : RsGxsNetService) (groups : list Z) : RsGxsNetService := IndicateConfigChanged (foldl remove_group s groups).

(** ** Rejected messages *)

Definition rejectMessage (e : nxs_env) (s : RsGxsNetService) (m : Z) : RsGxsNetService :=
  s <| mRejectedMessages := map_set (mRejectedMessages s) m (now e) |>.

Definition cleanRejectedMessages (e : nxs_env) (s : RsGxsNetService) : RsGxsNetService :=
  s <| mRejectedMessages := filter (fun kv => ~ (kv.2 + REJECTED_MESSAGE_RETRY_DELAY < now e)) (mRejectedMessages s) |>.

(** ** Configuration *)

(** The items of the configuration file, with the fields that are written to it. *)
Inductive nxs_config_item :=
| GrpUpdateItem (peerID grpUpdateTS : Z)
| MsgUpdateItem (peerID : Z) (infos : list (Z * MsgUpdateInfo))
| ServerMsgUpdateItem (grpId msgUpdateTS : Z)
| GrpConfigItem (grpId keep_delay send_delay req_delay : Z)
| ServerGrpUpdateItem (grpUpdateTS : Z).

Definition saveList (s : RsGxsNetService) : list nxs_config_item :=
  ((fun kv => GrpUpdateItem kv.1 kv.2) <$> mClientGrpUpdateMap s) ++
  ((fun kv => MsgUpdateItem kv.1 kv.2) <$> mClientMsgUpdateMap s) ++
  ((fun kv => ServerMsgUpdateItem kv.1 (s_updateTS kv.2)) <$> mServerMsgUpdateMap s) ++
  ((fun kv => GrpConfigItem kv.1 (msg_keep_delay kv.2) (msg_send_delay kv.2) (msg_req_delay kv.2)) <$> mServerGrpConfigMap s) ++
  [ServerGrpUpdateItem (s_updateTS (mGrpServerUpdate s))].

(** [map.insert]: an entry that is there stays, and null identifiers are refused. *)
Definition check_store {V} (m : list (Z * V)) (id : Z) (v : V) : list (Z * V) :=
  if id =? 0 then m else if map_find m id is Some _ then m else map_set m id v.

Definition StoreHere (s : RsGxsNetService) (item : nxs_config_item) : RsGxsNetService :=
  match item with
  | MsgUpdateItem peer infos => s <| mClientMsgUpdateMap := check_store (mClientMsgUpdateMap s) peer infos |>
  | GrpConfigItem g keep send req =>
      s <| mServerGrpConfigMap := check_store (mServerGrpConfigMap s) g (mk_GrpConfig keep send req [] 0 0 0) |>
  | GrpUpdateItem peer ts => s <| mClientGrpUpdateMap := check_store (mClientGrpUpdateMap s) peer ts |>
  | ServerMsgUpdateItem g ts => s <| mServerMsgUpdateMap := check_store (mServerMsgUpdateMap s) g (mk_ServerUpdate ts []) |>
  | ServerGrpUpdateItem ts => s <| mGrpServerUpdate := mk_ServerUpdate ts [] |>
  end.

Definition reload_config (e : nxs_env) (kv : Z * RsGxsGrpConfig) : Z * RsGxsGrpConfig :=
  (kv.1, kv.2 <| max_visible_count := 0 |>
           <| statistics_update_TS := now e - GROUP_STATS_UPDATE_DELAY + random_u32 e kv.1 mod (GROUP_STATS_UPDATE_DELAY / 10) |>
           <| suppliers := [] |> <| msg_req_delay := locked_checkDelay (msg_req_delay kv.2) |>
           <| msg_keep_delay := locked_checkDelay (msg_keep_delay kv.2) |>).

Definition loadList (e : nxs_env) (s : RsGxsNetService) (load : list nxs_config_item) : RsGxsNetService :=
  let s := foldl StoreHere s load in
  s <| mServerGrpConfigMap := reload_config e <$> mServerGrpConfigMap s |>.
