(* ===== verification/NxsTrans.v ===== *)
(** * Transactions: src/gxs/rsgxsnetservice.cc

    The sender announces a transaction with its number of items (P1); the receiver answers that it is ready (P2), gets the items,
    and confirms (END_SUCCESS).  A list of messages is answered by a request for those that are missing, which is answered by the
    messages; groups alike.  Own transactions are kept under the own id, those of a friend under his.

    Two loops need fuel, [None] when it runs out: they take items out of a finished transaction and do not move on at an
    item they do not expect. *)

From S2P Require Import Prelude StdMap Nxs.
From Stdlib Require Import ZArith Lia.
From stdpp Require Import base list.
Open Scope Z_scope.

Definition locked_getTransactionId (s : RsGxsNetService) : Z * RsGxsNetService :=
  let n := u32 (mTransactionN s + 1) in (n, s <| mTransactionN := n |>).

Definition locked_addTransaction (s : RsGxsNetService) (tr : NxsTransaction) : bool * RsGxsNetService :=
  let transMap := map_at [] (mTransactions s) (t_PeerId tr) in
  let s := s <| mTransactions := map_touch [] (mTransactions s) (t_PeerId tr) |> in
  if map_find transMap (t_transactionNumber tr) is Some _ then (false, s)
  else (true, s <| mTransactions := map_set (mTransactions s) (t_PeerId tr) (map_set transMap (t_transactionNumber tr) tr) |>).

Definition generic_sendItem (e : nxs_env) (s : RsGxsNetService) (i : RsNxsItem) : nxs_out :=
  if has (mSyncFlags s) DISTANT_SYNC && mGxsNetTunnel e && bool_decide (is_Some (isDistantPeer e (PeerId i))) then SendTunnelData i
  else SendItem i.

(** ** Opening transactions *)

(** What the four functions below share: a transaction is stored under the own id, and announced to the peer. *)
Definition open_transaction (e : nxs_env) (s : RsGxsNetService) (flag : Z) (l : list RsNxsItem) (peerId transN kept_TS sent_TS : Z)
    : RsGxsNetService * list nxs_out :=
  let transac ts := mk_Transac (Z.lor flag FLAG_BEGIN_P1) (u32 (Z.of_nat (length l))) ts 0 in
  let newTrans := mk_NxsTransaction FLAG_STATE_WAITING_CONFIRM (u32 (now e + TRANSAC_TIMEOUT)) (mOwnId s) transN (transac kept_TS) l in
  let '(ok, s) := locked_addTransaction s newTrans in
  (s, if ok then [generic_sendItem e s (mk_NxsItem peerId transN (TransacItem (transac sent_TS)))] else []).

Definition locked_pushMsgTransactionFromList (e : nxs_env) (s : RsGxsNetService) (reqList : list RsNxsItem) (peerId transN : Z) :=
  open_transaction e s FLAG_TYPE_MSG_LIST_REQ reqList peerId transN 0 0.

Definition locked_pushGrpTransactionFromList (e : nxs_env) (s : RsGxsNetService) (reqList : list RsNxsItem) (peerId transN : Z) :=
  open_transaction e s FLAG_TYPE_GRP_LIST_REQ reqList peerId transN 0 0.

Definition locked_pushGrpRespFromList (e : nxs_env) (s : RsGxsNetService) (respList : list RsNxsItem) (peer transN : Z) :=
  let ts := s_updateTS (mGrpServerUpdate s) in
  open_transaction e s FLAG_TYPE_GRP_LIST_RESP respList peer transN ts ts.

(** Looking the time stamp up makes an entry for the group. *)
Definition locked_pushMsgRespFromList (e : nxs_env) (s : RsGxsNetService) (itemL : list RsNxsItem) (sslId grp_id transN : Z) :=
  let ts := s_updateTS (map_at new_ServerUpdate (mServerMsgUpdateMap s) grp_id) in
  let s := s <| mServerMsgUpdateMap := map_touch new_ServerUpdate (mServerMsgUpdateMap s) grp_id |> in
  open_transaction e s FLAG_TYPE_MSG_LIST_RESP itemL sslId transN 0 ts.

(** ** Answering finished transactions *)

(** What the loop over the messages offered looks at and keeps. *)
Definition request_message (e : nxs_env) (s : RsGxsNetService) (have : list Z) (g transN peerFrom : Z)
    (r : list RsNxsItem * bool) (item : Z * Z) : list RsNxsItem * bool :=
  let '(reqList, exceeded) := r in
  let '(msgId, authorId) := item in
  if MAX_REQLIST_SIZE <=? Z.of_nat (length reqList) then (reqList, true)
  else if bool_decide (msgId ∈ have) then (reqList, exceeded)
  else if overallReputationLevel e authorId =? LOCALLY_NEGATIVE then (reqList, exceeded)
  else if map_find (mRejectedMessages s) msgId is Some _ then (reqList, exceeded)
  else (reqList ++ [mk_NxsItem peerFrom transN (SyncMsgItem FLAG_REQUEST g msgId 0)], exceeded).

(** The message items of a transaction: peer, group, message and author. *)
Definition sync_msgs (l : list RsNxsItem) : list (Z * Z * Z * Z) :=
  omap (fun i => if body i is SyncMsgItem _ g m a then Some (PeerId i, g, m, a) else None) l.

Definition locked_genReqMsgTransaction (e : nxs_env) (s : RsGxsNetService) (tr : NxsTransaction) : RsGxsNetService * list nxs_out :=
  match sync_msgs (mItems tr) with
  | [] => (s, [])
  | ((pid, grpId, _, _) :: _) as msgItemL =>
      let mcount := u32 (Z.of_nat (length msgItemL)) in
      let '(gnsr, s) := locked_getGrpConfig s grpId in
      let gnsr' := gnsr <| suppliers := ids_insert (suppliers gnsr) pid |> <| max_visible_count := Z.max (max_visible_count gnsr) mcount |> in
      let s := set_config s grpId gnsr' in
      let s := if negb (max_visible_count gnsr =? max_visible_count gnsr') ||
                  negb (bool_decide (length (suppliers gnsr) = length (suppliers gnsr')))
               then s <| mNewStatsToNotify := ids_insert (mNewStatsToNotify s) grpId |> else s in
      match map_find (grpMetas e) grpId with
      | None => (s, [])
      | Some grpMeta =>
          if negb (has (mSubscribeFlags grpMeta) GROUP_SUBSCRIBE_SUBSCRIBED) then (s, [])
          else
            let have := mm_MsgId <$> msgMetas e grpId in
            let '(transN, s) := locked_getTransactionId s in
            let peerFrom := t_PeerId tr in
            let '(reqList, exceeded) :=
              foldl (request_message e s have grpId transN peerFrom) ([], false) ((fun '(_, _, m, a) => (m, a)) <$> msgItemL) in
            match reqList with
            | [] => (locked_stampPeerGroupUpdateTime s pid grpId (updateTS (mTransaction tr)) mcount, [])
            | _ =>
                let '(s, out) := locked_pushMsgTransactionFromList e s reqList peerFrom transN in
                let partial := map_at [] (mPartialMsgUpdates s) peerFrom in
                (s <| mPartialMsgUpdates :=
                        map_set (mPartialMsgUpdates s) peerFrom (if exceeded then ids_insert partial grpId else map_erase partial grpId) |>, out)
            end
      end
  end.

(** The groups of a transaction: group and time of publication. *)
Definition sync_grps (l : list RsNxsItem) : list (Z * Z) :=
  omap (fun i => if body i is SyncGrpItem _ g ts _ then Some (g, ts) else None) l.

Definition note_grp_update (s : RsGxsNetService) (peer ts : Z) : RsGxsNetService :=
  let old := map_at 0 (mClientGrpUpdateMap s) peer in
  let s := s <| mClientGrpUpdateMap := map_set (mClientGrpUpdateMap s) peer ts |> in
  if old =? ts then s else IndicateConfigChanged s.

Definition wants_group (e : nxs_env) (s : RsGxsNetService) (item : Z * Z) : Prop :=
  let '(g, ts) := item in
  overallReputationLevel e g <> LOCALLY_NEGATIVE /\
  match map_find (grpMetas e) g with
  | Some meta => mPublishTs meta < ts
  | None => has (mSyncFlags s) DISCOVER_NEW_GROUPS = true
  end.

#[export] Instance wants_group_dec e s item : Decision (wants_group e s item).
Proof. destruct item as [g ts]. unfold wants_group. destruct (map_find _ _); apply _. Defined.

Definition locked_genReqGrpTransaction (e : nxs_env) (s : RsGxsNetService) (tr : NxsTransaction) : RsGxsNetService * list nxs_out :=
  match sync_grps (mItems tr) with
  | [] => (note_grp_update s (t_PeerId tr) (updateTS (mTransaction tr)), [])
  | grpItemL =>
      let '(transN, s) := locked_getTransactionId s in
      let reqList := (fun item => mk_NxsItem (t_PeerId tr) transN (SyncGrpItem FLAG_REQUEST item.1 0 0)) <$> filter (wants_group e s) grpItemL in
      match reqList with
      | [] => (note_grp_update s (t_PeerId tr) (updateTS (mTransaction tr)), [])
      | _ => locked_pushGrpTransactionFromList e s reqList (t_PeerId tr) transN
      end
  end.

(** [std::map] and [std::set] as keys: in order, once each. *)
Definition ids_of (l : list Z) : list Z := (foldl ids_insert [] l).*1.

Definition locked_genSendGrpsTransaction (e : nxs_env) (s : RsGxsNetService) (tr : NxsTransaction) : RsGxsNetService * list nxs_out :=
  match (sync_grps (mItems tr)).*1 with
  | [] => (s, [])
  | wanted =>
      let grps := omap (retrieveNxsGrp e) (ids_of wanted) in
      let '(transN, s) := locked_getTransactionId s in
      match grps with
      | [] => (s, [])
      | _ =>
          let ts := s_updateTS (mGrpServerUpdate s) in
          open_transaction e s FLAG_TYPE_GRPS ((fun g => mk_NxsItem (t_PeerId tr) transN (NxsGrp g)) <$> grps) (t_PeerId tr) transN ts ts
      end
  end.

(** A message that is too large is cut to one byte. *)
Definition clamp_msg (m : RsNxsMsg) : RsNxsMsg :=
  let m := if MAX_ALLOWED_GXS_MESSAGE_SIZE <? Z.of_nat (length (m_msg m)) then m <| m_msg := take 1 (m_msg m) |> else m in
  m <| m_count := 1 |> <| m_pos := 0 |>.

(** The group that is not null first; a second one ends the loop. *)
Fixpoint one_group (grpId : Z) (l : list (Z * Z)) : option Z :=
  match l with
  | [] => Some grpId
  | (g, _) :: l => if grpId =? 0 then one_group g l else if negb (grpId =? g) then None else one_group grpId l
  end.

Definition locked_genSendMsgsTransaction (e : nxs_env) (s : RsGxsNetService) (tr : NxsTransaction) : RsGxsNetService * list nxs_out :=
  if bool_decide (mItems tr = []) then (s, [])
  else
    let wanted := (fun '(_, g, m, _) => (g, m)) <$> sync_msgs (mItems tr) in
    match one_group 0 wanted with
    | None => (s, [])
    | Some grpId =>
        let msgIds g := ids_of (snd <$> filter (fun gm => gm.1 = g) wanted) in
        let msgs := g ← ids_of wanted.*1; m ← msgIds g; retrieveNxsMsgs e g m in
        let '(transN, s) := locked_getTransactionId s in
        match msgs with
        | [] => (s, [])
        | _ =>
            let ts := s_updateTS (map_at new_ServerUpdate (mServerMsgUpdateMap s) grpId) in
            let s := s <| mServerMsgUpdateMap := map_touch new_ServerUpdate (mServerMsgUpdateMap s) grpId |> in
            open_transaction e s FLAG_TYPE_MSGS ((fun m => mk_NxsItem (t_PeerId tr) transN (NxsMsg (clamp_msg m))) <$> msgs) (t_PeerId tr) transN ts ts
        end
    end.

(** ** Receiving *)

Definition find_transaction (s : RsGxsNetService) (peer n : Z) : option NxsTransaction :=
  transMap ← map_find (mTransactions s) peer; map_find transMap n.

Definition set_transaction (s : RsGxsNetService) (peer n : Z) (tr : NxsTransaction) : RsGxsNetService :=
  s <| mTransactions := map_set (mTransactions s) peer (map_set (map_at [] (mTransactions s) peer) n tr) |>.

(** Whether the item was used; an item that was not is deleted. *)
Definition locked_processTransac (e : nxs_env) (s : RsGxsNetService) (from transN : Z) (item : RsNxsTransacItem) : bool * RsGxsNetService :=
  let peer := if has (transactFlag item) (Z.lor FLAG_BEGIN_P2 FLAG_END_SUCCESS) then mOwnId s else from in
  let ts := u32 (now e) in
  if has (transactFlag item) FLAG_BEGIN_P1 then
    match find_transaction s peer transN with
    | Some _ => (false, s)
    | None =>
        let item := mk_Transac (transactFlag item) (nItems item) (updateTS item) ts in
        (true, set_transaction s peer transN (mk_NxsTransaction FLAG_STATE_STARTING (u32 (ts + TRANSAC_TIMEOUT)) from transN item []))
    end
  else if has (transactFlag item) FLAG_BEGIN_P2 then
    match find_transaction s peer transN with
    | Some tr => (true, set_transaction s (mOwnId s) transN (tr <| mFlag := FLAG_STATE_SENDING |>))
    | None => (false, s)
    end
  else if has (transactFlag item) FLAG_END_SUCCESS then
    match find_transaction s peer transN with
    | Some tr => (true, set_transaction s (mOwnId s) transN (tr <| mFlag := FLAG_STATE_COMPLETED |>))
    | None => (false, s)
    end
  else (false, s).

Definition handleTransaction (e : nxs_env) (s : RsGxsNetService) (item : RsNxsItem) : bool * RsGxsNetService :=
  match body item with
  | TransacItem t => locked_processTransac e s (PeerId item) (transactionNumber item) t
  | _ =>
      match find_transaction s (PeerId item) (transactionNumber item) with
      | Some tr => (true, set_transaction s (PeerId item) (transactionNumber item) (tr <| mItems := mItems tr ++ [item] |>))
      | None => (false, s)
      end
  end.

(** ** Processing *)

Definition locked_checkTransacTimedOut (e : nxs_env) (tr : NxsTransaction) : bool := mTimeOut tr <? u32 (now e).

(** Encrypted items are replaced by what is in them, or dropped; the items of a peer come from that peer. *)
Definition decryptSingleNxsItem (e : nxs_env) (peer : Z) (data : list Z) : option RsNxsItem :=
  '(n, b) ← decrypt e data; Some (mk_NxsItem peer n b).

Definition decrypt_item (e : nxs_env) (i : RsNxsItem) : option RsNxsItem :=
  match body i with EncryptedDataItem data => decryptSingleNxsItem e (PeerId i) data | _ => Some i end.

Definition processTransactionForDecryption (e : nxs_env) (tr : NxsTransaction) : bool * NxsTransaction :=
  (true, tr <| mItems := omap (decrypt_item e) (mItems tr) |>).

(** One transaction: its new state, the number to remove when it is done with, and what is sent. *)
Definition step_outgoing (e : nxs_env) (s : RsGxsNetService) (tr : NxsTransaction) : NxsTransaction * option Z * list nxs_out :=
  let flag := u16 (mFlag tr) in
  let transN := t_transactionNumber tr in
  if locked_checkTransacTimedOut e tr then (tr <| mFlag := FLAG_STATE_FAILED |>, Some transN, [])
  else if has flag FLAG_STATE_SENDING then
    (tr <| mItems := [] |> <| mFlag := FLAG_STATE_WAITING_CONFIRM |>, None, generic_sendItem e s <$> mItems tr)
  else if has flag FLAG_STATE_WAITING_CONFIRM then (tr, None, [])
  else if has flag FLAG_STATE_COMPLETED then (tr, Some transN, [])
  else (tr <| mFlag := FLAG_STATE_FAILED |>, Some transN, []).

Definition step_incoming (e : nxs_env) (s : RsGxsNetService) (key : Z) (tr : NxsTransaction) : NxsTransaction * option Z * list nxs_out :=
  let flag := u16 (mFlag tr) in
  let transN := t_transactionNumber tr in
  let answer f := generic_sendItem e s (mk_NxsItem (t_PeerId tr) transN (TransacItem (mk_Transac f 0 0 0))) in
  if locked_checkTransacTimedOut e tr then (tr <| mFlag := FLAG_STATE_FAILED |>, Some transN, [])
  else if has flag FLAG_STATE_RECEIVING then
    (if Z.of_nat (length (mItems tr)) =? nItems (mTransaction tr) then tr <| mFlag := FLAG_STATE_COMPLETED |> else tr, None, [])
  else if has flag FLAG_STATE_COMPLETED then
    let '(ok, tr) := processTransactionForDecryption e tr in
    (tr, if ok then Some key else None, [answer FLAG_END_SUCCESS])
  else if has flag FLAG_STATE_STARTING then
    (tr <| mFlag := FLAG_STATE_RECEIVING |>, None,
     [answer (Z.lor FLAG_BEGIN_P2 (Z.land (transactFlag (mTransaction tr)) FLAG_TYPE_MASK))])
  else (tr <| mFlag := FLAG_STATE_FAILED |>, Some key, []).

Definition step_transaction (e : nxs_env) (s : RsGxsNetService) (peer key : Z) (tr : NxsTransaction) :=
  if peer =? mOwnId s then step_outgoing e s tr else step_incoming e s key tr.

(** The transactions of a peer: what is left, what is done with, and what is sent. *)
Definition step_peer (e : nxs_env) (s : RsGxsNetService) (peer : Z) (transMap : list (Z * NxsTransaction))
    : list (Z * NxsTransaction) * list NxsTransaction * list nxs_out :=
  let steps := (fun kt => (kt.1, step_transaction e s peer kt.1 kt.2)) <$> transMap in
  let toRemove := omap (fun x => x.2.1.2) steps in
  let compl := omap (fun x => if x.2.1.2 is Some _ then Some x.2.1.1 else None) steps in
  (foldl map_erase ((fun x => (x.1, x.2.1.1)) <$> steps) toRemove, compl, concat ((fun x => x.2.2) <$> steps)).

Definition processTransactions (e : nxs_env) (s : RsGxsNetService) : RsGxsNetService * list nxs_out :=
  let peers := (fun pm => (pm.1, step_peer e s pm.1 pm.2)) <$> mTransactions s in
  (s <| mTransactions := (fun x => (x.1, x.2.1.1)) <$> peers |>
     <| mComplTransactions := mComplTransactions s ++ concat ((fun x => x.2.1.2) <$> peers) |>,
   concat ((fun x => x.2.2) <$> peers)).

(** ** Finished transactions *)

(** [while(tr->mItems.size() > 0)]: the front item is cast; one of another kind stays in front. *)
Fixpoint take_grps (fuel : nat) (items : list RsNxsItem) (grps : list (Z * RsNxsGrp)) : option (list (Z * RsNxsGrp)) :=
  match fuel with
  | O => None
  | S fuel =>
      match items with
      | [] => Some grps
      | i :: rest => match body i with NxsGrp g => take_grps fuel rest (grps ++ [(PeerId i, g)]) | _ => take_grps fuel items grps end
      end
  end.

Fixpoint take_msgs (fuel : nat) (items : list RsNxsItem) (grpId : Z) (msgs : list (Z * RsNxsMsg)) : option (Z * list (Z * RsNxsMsg)) :=
  match fuel with
  | O => None
  | S fuel =>
      match items with
      | [] => Some (grpId, msgs)
      | i :: rest =>
          match body i with
          | NxsMsg m => take_msgs fuel rest (if grpId =? 0 then m_grpId m else grpId) (msgs ++ [(PeerId i, m)])
          | _ => take_msgs fuel items grpId msgs
          end
      end
  end.

Definition locked_doMsgUpdateWork (s : RsGxsNetService) (peerFrom ts grpId : Z) : RsGxsNetService :=
  let mui := map_at [] (mClientMsgUpdateMap s) peerFrom in
  let partial := map_at [] (mPartialMsgUpdates s) peerFrom in
  let s := s <| mClientMsgUpdateMap := map_touch [] (mClientMsgUpdateMap s) peerFrom |>
             <| mPartialMsgUpdates := map_touch [] (mPartialMsgUpdates s) peerFrom |> in
  if ids_mem partial grpId then s
  else
    let info := map_at new_MsgUpdateInfo mui grpId in
    IndicateConfigChanged (s <| mClientMsgUpdateMap := map_set (mClientMsgUpdateMap s) peerFrom (map_set mui grpId (info <| time_stamp := ts |>)) |>).

Definition locked_processCompletedIncomingTrans (e : nxs_env) (fuel : nat) (s : RsGxsNetService) (tr : NxsTransaction)
    : option (RsGxsNetService * list nxs_out) :=
  let flag := transactFlag (mTransaction tr) in
  let ts := updateTS (mTransaction tr) in
  if has (mFlag tr) FLAG_STATE_COMPLETED then
    if has flag FLAG_TYPE_MSG_LIST_RESP then Some (locked_genReqMsgTransaction e s tr)
    else if has flag FLAG_TYPE_GRP_LIST_RESP then Some (locked_genReqGrpTransaction e s tr)
    else if has flag FLAG_TYPE_MSG_LIST_REQ then Some (locked_genSendMsgsTransaction e s tr)
    else if has flag FLAG_TYPE_GRP_LIST_REQ then Some (locked_genSendGrpsTransaction e s tr)
    else if has flag FLAG_TYPE_GRPS then
      grps ← take_grps fuel (mItems tr) [];
      let s := s <| mNewGroupsToNotify := mNewGroupsToNotify s ++ grps |> in
      Some (IndicateConfigChanged (s <| mClientGrpUpdateMap := map_set (mClientGrpUpdateMap s) (t_PeerId tr) ts |>), [])
    else if has flag FLAG_TYPE_MSGS then
      '(grpId, msgs) ← take_msgs fuel (mItems tr) 0 [];
      let s := s <| mNewMessagesToNotify := mNewMessagesToNotify s ++ msgs |> in
      let s := locked_doMsgUpdateWork s (t_PeerId tr) ts grpId in
      Some (locked_stampMsgServerUpdateTS e s grpId, [])
    else Some (s, [])
  else Some (s, []).

(** Every branch of it only prints. *)
Definition locked_processCompletedOutgoingTrans (s : RsGxsNetService) (tr : NxsTransaction) : RsGxsNetService := s.

Fixpoint complete_all (e : nxs_env) (fuel : nat) (l : list NxsTransaction) (s : RsGxsNetService) : option (RsGxsNetService * list nxs_out) :=
  match l with
  | [] => Some (s, [])
  | tr :: l =>
      '(s, out1) ← (if t_PeerId tr =? mOwnId s then Some (locked_processCompletedOutgoingTrans s tr, [])
                    else locked_processCompletedIncomingTrans e fuel s tr);
      '(s, out2) ← complete_all e fuel l s;
      Some (s, out1 ++ out2)
  end.

Definition processCompletedTransactions (e : nxs_env) (fuel : nat) (s : RsGxsNetService) : option (RsGxsNetService * list nxs_out) :=
  '(s, out) ← complete_all e fuel (mComplTransactions s) s;
  Some (s <| mComplTransactions := [] |>, out).
