(* ===== verification/NxsSync.v ===== *)
(** * Requests: src/gxs/rsgxsnetservice.cc, rsgxsnetutils.cc, rsnxs.h

    What a service sends to its peers every minute, and how it answers what they send: the lists of groups and messages,
    statistics, publish keys and pull requests; who may get what (circles, friend groups, reputation); the lists that wait for a
    circle; and the two periodic functions of the two threads, [tick] and [threadTick]. *)

From S2P Require Import Prelude StdMap Nxs NxsTrans.
From Stdlib Require Import ZArith Lia.
From stdpp Require Import base list.
Open Scope Z_scope.

(** ** Who may get what *)

Definition RS_IDENTITY_FLAGS_PGP_LINKED : Z := 0x0002.
Definition RS_IDENTITY_FLAGS_PGP_KNOWN : Z := 0x0004.
Definition FLAG_AUTHOR_AUTHENTICATION_GPG : Z := 0x00000100.
Definition FLAG_AUTHOR_AUTHENTICATION_GPG_KNOWN : Z := 0x00001000.
Definition EXPIRY_PERIOD_OFFSET : Z := 5.

Definition minReputationForForwardingMessages (group_sign_flags identity_flags : Z) : Z :=
  if has identity_flags RS_IDENTITY_FLAGS_PGP_KNOWN then NEUTRAL
  else if has identity_flags RS_IDENTITY_FLAGS_PGP_LINKED then
    if has group_sign_flags FLAG_AUTHOR_AUTHENTICATION_GPG_KNOWN then REMOTELY_POSITIVE else NEUTRAL
  else if has group_sign_flags FLAG_AUTHOR_AUTHENTICATION_GPG_KNOWN || has group_sign_flags FLAG_AUTHOR_AUTHENTICATION_GPG
  then REMOTELY_POSITIVE else NEUTRAL.

Definition is_distant (e : nxs_env) (s : RsGxsNetService) (pid : Z) : option Z :=
  if has (mSyncFlags s) DISTANT_SYNC && mGxsNetTunnel e then isDistantPeer e pid else None.

(** A peer at the end of a tunnel is there for one group. *)
Definition wrong_tunnel (e : nxs_env) (s : RsGxsNetService) (pid g : Z) : bool :=
  if is_distant e s pid is Some peer_grp then negb (peer_grp =? g) else false.

Definition checkPermissionsForFriendGroup (e : nxs_env) (sslId : Z) (grpMeta : RsGxsGrpMetaData) : bool :=
  if negb (mInternalCircle grpMeta =? 0) then
    match getGroupInfo e (mInternalCircle grpMeta) with
    | Some peerIds => bool_decide (getPgpId e sslId ∈ peerIds)
    | None => false
    end
  else mOriginator grpMeta =? sslId.

(** Whether, and whether encrypted. *)
Definition canSendGrpId (e : nxs_env) (s : RsGxsNetService) (sslId g : Z) (grpMeta : RsGxsGrpMetaData) : bool * bool :=
  let circleType := u8 (mCircleType grpMeta) in
  if wrong_tunnel e s sslId g then (false, false)
  else if circleType =? GXS_CIRCLE_TYPE_LOCAL then (false, false)
  else if (circleType =? GXS_CIRCLE_TYPE_PUBLIC) || (circleType =? GXS_CIRCLE_TYPE_UNKNOWN) then (true, false)
  else if circleType =? GXS_CIRCLE_TYPE_EXTERNAL then (true, true)
  else if circleType =? GXS_CIRCLE_TYPE_YOUR_FRIENDS_ONLY then (checkPermissionsForFriendGroup e sslId grpMeta, false)
  else (false, false).

(** The circle the request is for, null in clear; [None] when the peer is not asked. *)
Definition checkCanRecvMsgFromPeer (e : nxs_env) (s : RsGxsNetService) (sslId g : Z) (grpMeta : RsGxsGrpMetaData) : option Z :=
  let circleType := u8 (mCircleType grpMeta) in
  if wrong_tunnel e s sslId g then None
  else if circleType =? GXS_CIRCLE_TYPE_LOCAL then None
  else if circleType =? GXS_CIRCLE_TYPE_PUBLIC then Some 0
  else if circleType =? GXS_CIRCLE_TYPE_EXTERNAL then Some (mCircleId grpMeta)
  else if circleType =? GXS_CIRCLE_TYPE_YOUR_FRIENDS_ONLY then
    if checkPermissionsForFriendGroup e sslId grpMeta then Some 0 else None
  else Some 0.

(** [v[i] = v[v.size()-1]; v.pop_back()] where [P] holds of [v[i]]: what stays, and what goes.  Each turn shortens what is left. *)
Fixpoint remove_swap {A} (P : A -> bool) (n : nat) (rest : list A) : list A * list A :=
  match n, rest with
  | S n, x :: xs =>
      if P x then let '(keep, gone) := remove_swap P n (match last xs with Some y => y :: removelast xs | None => [] end) in (keep, x :: gone)
      else let '(keep, gone) := remove_swap P n xs in (x :: keep, gone)
  | _, _ => ([], [])
  end.

Definition swap_out {A} (P : A -> bool) (v : list A) : list A * list A := remove_swap P (length v) v.

(** Messages another one says it replaces are not sent. *)
Definition old_versions (l : list RsGxsMsgMetaData) : list Z :=
  omap (fun m => if negb (mm_OrigMsgId m =? 0) && negb (mm_OrigMsgId m =? mm_MsgId m) then Some (mm_OrigMsgId m) else None) l.

Definition drop_old_versions (s : RsGxsNetService) (l : list RsGxsMsgMetaData) : list RsGxsMsgMetaData :=
  if has (mSyncFlags s) SYNC_OLD_MSG_VERSIONS then l
  else (swap_out (fun m => bool_decide (mm_MsgId m ∈ old_versions l)) l).1.

(** The messages that may be sent, if any may, and the circle to encrypt for; the others wait. *)
Definition canSendMsgIds (e : nxs_env) (s : RsGxsNetService) (msgs : list RsGxsMsgMetaData) (g : Z) (grpMeta : RsGxsGrpMetaData) (sslId : Z)
    : option (list RsGxsMsgMetaData * Z) * RsGxsNetService :=
  if wrong_tunnel e s sslId g then (None, s)
  else
    let msgs := drop_old_versions s msgs in
    let circleType := u8 (mCircleType grpMeta) in
    if circleType =? GXS_CIRCLE_TYPE_LOCAL then (None, s)
    else if (circleType =? GXS_CIRCLE_TYPE_PUBLIC) || (circleType =? GXS_CIRCLE_TYPE_UNKNOWN) then (Some (msgs, 0), s)
    else if circleType =? GXS_CIRCLE_TYPE_EXTERNAL then
      let circleId := mCircleId grpMeta in
      let outside m := negb (mm_AuthorId m =? 0) && negb (isLoaded e circleId && isRecipient e circleId g (mm_AuthorId m)) in
      let '(keep, gone) := swap_out outside msgs in
      let toVet := (fun m => mk_MsgVet (mm_MsgId m) (mm_AuthorId m)) <$> gone in
      (Some (keep, circleId),
       match toVet with
       | [] => s
       | _ => s <| mPendingCircleVets := mPendingCircleVets s ++ [MsgCircleIdsRequestVetting (now e) toVet g sslId circleId] |>
       end)
    else if circleType =? GXS_CIRCLE_TYPE_YOUR_FRIENDS_ONLY then
      (if checkPermissionsForFriendGroup e sslId grpMeta then Some (msgs, 0) else None, s)
    else (None, s).

(** ** Requests for groups *)

Definition can_receive_groups (e : nxs_env) (s : RsGxsNetService) (peer ts : Z) : bool * RsGxsNetService :=
  let '(ok, upd) := can_receive e (mGrpServerUpdate s) peer ts in (ok, s <| mGrpServerUpdate := upd |>).

(** One group of the list: the item to send, or the entry that waits. *)
Definition list_group (e : nxs_env) (s : RsGxsNetService) (peer transN : Z) (r : list RsNxsItem * list GrpIdCircleVet)
    (kv : Z * RsGxsGrpMetaData) : list RsNxsItem * list GrpIdCircleVet :=
  let '(itemL, toVet) := r in
  let '(g, meta) := kv in
  if negb (has (mSubscribeFlags meta) GROUP_SUBSCRIBE_SUBSCRIBED) then r
  else
    let '(can, should_encrypt) := canSendGrpId e s peer g meta in
    if negb can then r
    else
      let gItem := mk_NxsItem peer transN (SyncGrpItem FLAG_RESPONSE g (u32 (mPublishTs meta)) (mAuthorId meta)) in
      if should_encrypt then
        match encrypt e gItem (mCircleId meta) g with
        | inl data => (itemL ++ [mk_NxsItem peer transN (EncryptedDataItem data)], toVet)
        | inr status =>
            if (status =? ENCRYPTION_STATUS_CIRCLE_ERROR) || (status =? ENCRYPTION_STATUS_GXS_KEY_MISSING)
            then (itemL, toVet ++ [mk_GrpVet g (mCircleId meta) (mAuthorId meta) false false]) else r
        end
      else (itemL ++ [gItem], toVet).

Definition handleRecvSyncGroup (e : nxs_env) (s : RsGxsNetService) (peer ts : Z) : RsGxsNetService * list nxs_out :=
  let '(ok, s) := can_receive_groups e s peer ts in
  if negb ok then (s, [])
  else if bool_decide (grpMetas e = []) then (s, [])
  else
    let '(transN, s) := locked_getTransactionId s in
    let '(itemL, toVet) := foldl (list_group e s peer transN) ([], []) (grpMetas e) in
    let s := match toVet with
             | [] => s
             | _ => s <| mPendingCircleVets := mPendingCircleVets s ++ [GrpCircleIdRequestVetting (now e) toVet peer] |>
             end in
    locked_pushGrpRespFromList e s itemL peer transN.

(** ** Requests for messages *)

(** The group a hash stands for: the first one the service has a time stamp for. *)
Definition dehash (e : nxs_env) (s : RsGxsNetService) (hash peer : Z) : option Z :=
  fst <$> List.find (fun kv => hash =? hashGrpId e kv.1 peer) (mServerMsgUpdateMap s).

(** Whether there is something newer, whether the group is known, and which group it is. *)
Definition can_receive_msgs (e : nxs_env) (s : RsGxsNetService) (peer g flag ts : Z) : bool * bool * Z * RsGxsNetService :=
  match (if has flag FLAG_USE_HASHED_GROUP_ID then dehash e s g peer else Some g) with
  | None => (false, false, g, s)
  | Some g =>
      match map_find (mServerMsgUpdateMap s) g with
      | None => (false, false, g, s)
      | Some upd =>
          let '(ok, upd) := can_receive e upd peer ts in
          (ok, true, g, s <| mServerMsgUpdateMap := map_set (mServerMsgUpdateMap s) g upd |>)
      end
  end.

(** Whether a message that is not to be left out for its circle is listed. *)
Definition forwards (e : nxs_env) (grpMeta : RsGxsGrpMetaData) (createdSince max_send_delay : Z) (m : RsGxsMsgMetaData) : bool :=
  (if mm_AuthorId m =? 0 then true
   else match getIdDetails e (mm_AuthorId m) with
        | Some (level, flags) => negb (level <? minReputationForForwardingMessages (mSignFlags grpMeta) flags)
        | None => false
        end) &&
  negb ((mm_PublishTs m <? createdSince) || ((0 <? max_send_delay) && (mm_PublishTs m + max_send_delay <? now e))).

(** The list; one message that cannot be encrypted drops all of it. *)
Fixpoint list_messages (e : nxs_env) (peer transN g : Z) (grpMeta : RsGxsGrpMetaData) (createdSince max_send_delay should_encrypt_id : Z)
    (l : list RsGxsMsgMetaData) (itemL : list RsNxsItem) : list RsNxsItem :=
  match l with
  | [] => itemL
  | m :: l =>
      let go := list_messages e peer transN g grpMeta createdSince max_send_delay should_encrypt_id l in
      if forwards e grpMeta createdSince max_send_delay m then
        let mItem := mk_NxsItem peer transN (SyncMsgItem FLAG_RESPONSE g (mm_MsgId m) (mm_AuthorId m)) in
        if negb (should_encrypt_id =? 0) then
          match encrypt e mItem (mCircleId grpMeta) g with
          | inl data => go (itemL ++ [mk_NxsItem peer transN (EncryptedDataItem data)])
          | inr _ => []
          end
        else go (itemL ++ [mItem])
      else go itemL
  end.

(** Whether messages are too old to be listed is not looked at with RS_GXS_SEND_ALL. *)
Definition locked_max_send_delay (e : nxs_env) (s : RsGxsNetService) (g : Z) : Z * RsGxsNetService :=
  if RS_GXS_SEND_ALL e then (0, s) else let '(conf, s) := locked_getGrpConfig s g in (msg_req_delay conf, s).

Definition handleRecvSyncMessage (e : nxs_env) (s : RsGxsNetService) (peer grpId flag createdSince ts : Z) (item_was_encrypted : bool)
    : RsGxsNetService * list nxs_out :=
  let was_circle_protected := item_was_encrypted || has flag FLAG_USE_HASHED_GROUP_ID in
  let '(peer_can_receive_update, grp_is_known, g, s) := can_receive_msgs e s peer grpId flag ts in
  let s := if grp_is_known || bool_decide (is_Some (map_find (mServerGrpConfigMap s) g)) then
             let '(rec, s) := locked_getGrpConfig s g in set_config s g (rec <| suppliers := ids_insert (suppliers rec) peer |>)
           else s in
  if negb peer_can_receive_update then (s, [])
  else
    match map_find (grpMetas e) g with
    | None => (s, [])
    | Some grpMeta =>
        if negb (has (mSubscribeFlags grpMeta) GROUP_SUBSCRIBE_SUBSCRIBED) then (s, [])
        else if negb (Bool.eqb (mCircleType grpMeta =? GXS_CIRCLE_TYPE_EXTERNAL) was_circle_protected) then (s, [])
        else
          let '(transN, s) := locked_getTransactionId s in
          let '(max_send_delay, s) := locked_max_send_delay e s g in
          let '(can, s) := canSendMsgIds e s (msgMetas e g) g grpMeta peer in
          match can with
          | None => (s, [])
          | Some (msgs, should_encrypt_id) =>
              match list_messages e peer transN g grpMeta createdSince max_send_delay should_encrypt_id msgs [] with
              | [] => (s, [])
              | itemL => locked_pushMsgRespFromList e s itemL peer g transN
              end
          end
    end.

(** ** What waits for a circle *)

Definition expired (e : nxs_env) (mTimeStamp : Z) : bool := mTimeStamp + EXPIRY_PERIOD_OFFSET <? now e.

(** One entry that is not cleared: a circle that is not loaded is asked for. *)
Definition clear_entry (e : nxs_env) (peer : Z) (gic : GrpIdCircleVet) : GrpIdCircleVet * list nxs_out :=
  if mCleared gic then (gic, [])
  else if isLoaded e (v_CircleId gic) then
    let '(ok, should_encrypt) := canSend e (v_CircleId gic) (getPgpId e peer) in
    (mk_GrpVet (v_GroupId gic) (v_CircleId gic) (v_AuthorId gic) ok should_encrypt, [])
  else (gic, [LoadCircle (v_CircleId gic)]).

Definition cleared_groups (e : nxs_env) (peer : Z) (l : list GrpIdCircleVet) : bool * list GrpIdCircleVet * list nxs_out :=
  let r := clear_entry e peer <$> l in
  (forallb mCleared r.*1, r.*1, concat r.*2).

(** Whether, whether encrypted, and what is left of the messages. *)
Definition cleared_msgs (e : nxs_env) (peer g circle : Z) (l : list MsgIdCircleVet) : bool * bool * list MsgIdCircleVet * list nxs_out :=
  if negb (isLoaded e circle) then (false, false, l, [LoadCircle circle])
  else
    let l := (swap_out (fun m => negb (isRecipient e circle g (v_MsgAuthorId m))) l).1 in
    let '(can_send_res, should_encrypt) := canSend e circle (getPgpId e peer) in
    (should_encrypt || can_send_res, should_encrypt, l, []).

(** The entries that are cleared; what cannot be encrypted is left out. *)
Definition pending_group (e : nxs_env) (peer transN : Z) (entry : GrpIdCircleVet) : option RsNxsItem :=
  if negb (mCleared entry) then None
  else
    let gItem := mk_NxsItem peer transN (SyncGrpItem FLAG_RESPONSE (v_GroupId entry) 0 (v_AuthorId entry)) in
    if mShouldEncrypt entry then
      match encrypt e gItem (v_CircleId entry) (v_GroupId entry) with
      | inl data => Some (mk_NxsItem peer transN (EncryptedDataItem data))
      | inr _ => None
      end
    else Some gItem.

Definition locked_createTransactionFromPendingGrp (e : nxs_env) (s : RsGxsNetService) (peer : Z) (l : list GrpIdCircleVet)
    : RsGxsNetService * list nxs_out :=
  let '(transN, s) := locked_getTransactionId s in
  match omap (pending_group e peer transN) l with
  | [] => (s, [])
  | itemL => locked_pushGrpRespFromList e s itemL peer transN
  end.

(** [None]: one of them cannot be encrypted. *)
Definition pending_msg (e : nxs_env) (peer g circle transN : Z) (should_encrypt : bool) (mic : MsgIdCircleVet) : option RsNxsItem :=
  let mItem := mk_NxsItem peer transN (SyncMsgItem FLAG_RESPONSE g (v_MsgId mic) (v_MsgAuthorId mic)) in
  if should_encrypt then
    match encrypt e mItem circle g with
    | inl data => Some (mk_NxsItem peer transN (EncryptedDataItem data))
    | inr _ => None
    end
  else Some mItem.

Definition locked_createTransactionFromPendingMsg (e : nxs_env) (s : RsGxsNetService) (peer g circle : Z) (should_encrypt : bool)
    (l : list MsgIdCircleVet) : bool * RsGxsNetService * list nxs_out :=
  let '(transN, s) := locked_getTransactionId s in
  match mapM (pending_msg e peer g circle transN should_encrypt) l with
  | None => (false, s, [])
  | Some [] => (true, s, [])
  | Some itemL => let '(s, out) := locked_pushMsgRespFromList e s itemL peer g transN in (true, s, out)
  end.

(** The loop over what waits: [vets] is what it has not come to, [kept] what it has left in the list.  A list of messages that cannot
    be sent is tried again at once. *)
Fixpoint run_vets (e : nxs_env) (fuel : nat) (vets kept : list GrpCircleVetting) (s : RsGxsNetService)
    : option (list GrpCircleVetting * RsGxsNetService * list nxs_out) :=
  match fuel with
  | O => None
  | S fuel =>
      match vets with
      | [] => Some (kept, s, [])
      | GrpCircleIdRequestVetting t l peer :: vets =>
          let '(ok, l, out1) := cleared_groups e peer l in
          if ok || expired e t then
            let '(s, out2) := locked_createTransactionFromPendingGrp e s peer l in
            '(kept, s, out) ← run_vets e fuel vets kept s;
            Some (kept, s, out1 ++ out2 ++ out)
          else
            '(kept, s, out) ← run_vets e fuel vets (kept ++ [GrpCircleIdRequestVetting t l peer]) s;
            Some (kept, s, out1 ++ out)
      | MsgCircleIdsRequestVetting t l g peer circle :: vets' =>
          let '(ok, _, l, out1) := cleared_msgs e peer g circle l in
          if ok || expired e t then
            let '(ok, should_encrypt, l, out2) := cleared_msgs e peer g circle l in
            if ok then
              let '(sent, s, out3) := locked_createTransactionFromPendingMsg e s peer g circle should_encrypt l in
              if sent then
                '(kept, s, out) ← run_vets e fuel vets' kept s;
                Some (kept, s, out1 ++ out2 ++ out3 ++ out)
              else
                '(kept, s, out) ← run_vets e fuel (MsgCircleIdsRequestVetting t l g peer circle :: vets') kept s;
                Some (kept, s, out1 ++ out2 ++ out)
            else
              '(kept, s, out) ← run_vets e fuel vets' kept s;
              Some (kept, s, out1 ++ out2 ++ out)
          else
            '(kept, s, out) ← run_vets e fuel vets' (kept ++ [MsgCircleIdsRequestVetting t l g peer circle]) s;
            Some (kept, s, out1 ++ out)
      end
  end.

Definition runVetting (e : nxs_env) (fuel : nat) (s : RsGxsNetService) : option (RsGxsNetService * list nxs_out) :=
  '(vets, s, out) ← run_vets e fuel (mPendingCircleVets s) [] s;
  Some (s <| mPendingCircleVets := vets |>, out).

(** ** Asking *)

(** The peers to ask when none is named: the friends online and, with distant synchronisation, those at the ends of tunnels. *)
Definition online_peers (e : nxs_env) (s : RsGxsNetService) : list Z :=
  ids_of (getOnlineList e ++ if has (mSyncFlags s) DISTANT_SYNC && mGxsNetTunnel e then getVirtualPeers e else []).

(** Since when messages are asked for; the conversions are those of the code, and a signed overflow is taken to wrap. *)
Definition createdSinceTS (e : nxs_env) (conf : RsGxsGrpConfig) : Z :=
  let req_delay := sint32 (msg_req_delay conf) in
  let keep_delay := sint32 (msg_keep_delay conf) in
  let req_delay := if (0 <? keep_delay) && (0 <? req_delay) && (keep_delay <? req_delay) then keep_delay else req_delay in
  if 0 <? req_delay then Z.max 0 (sint32 (sint32 (now e) - req_delay)) else 0.

(** The request for the messages of one group. *)
Definition ask_group (e : nxs_env) (peer : Z) (r : RsGxsNetService * list nxs_out) (kv : Z * RsGxsGrpMetaData)
    : RsGxsNetService * list nxs_out :=
  let '(s, out) := r in
  let '(g, meta) := kv in
  match checkCanRecvMsgFromPeer e s peer g meta with
  | None => (s, out)
  | Some circle =>
      let ts := match map_find (mClientMsgUpdateMap s) peer with
                | Some mui => match map_find mui g with Some i => time_stamp i | None => 0 end
                | None => 0
                end in
      let '(conf, s) := locked_getGrpConfig s g in
      let since := createdSinceTS e conf in
      let msg := if circle =? 0 then SyncMsgReqItem g 0 since ts
                 else SyncMsgReqItem (hashGrpId e g (mOwnId s)) FLAG_USE_HASHED_GROUP_ID since ts in
      (s, out ++ [generic_sendItem e s (mk_NxsItem peer 0 msg)])
  end.

(** False is [network_down]. *)
Definition checkUpdatesFromPeers (e : nxs_env) (s : RsGxsNetService) (peers : list Z) : bool * RsGxsNetService * list nxs_out :=
  let peers := match peers with [] => online_peers e s | _ => peers end in
  match peers with
  | [] => (false, s, [])
  | _ =>
      let ask_groups peer :=
        generic_sendItem e s (mk_NxsItem peer 0 (SyncGrpReqItem (map_at 0 (mClientGrpUpdateMap s) peer))) in
      let out := ask_groups <$> peers in
      if negb (has (mSyncFlags s) AUTO_SYNC_MESSAGES) then (true, s, out)
      else
        let toRequest := filter (fun kv => has (mSubscribeFlags kv.2) GROUP_SUBSCRIBE_SUBSCRIBED = true) (grpMetas e) in
        let '(s, out2) := foldl (fun r peer => foldl (ask_group e peer) r toRequest) (s, []) peers in
        (true, s, out ++ out2)
  end.

Definition requestPull (e : nxs_env) (s : RsGxsNetService) (peers : list Z) : bool * list nxs_out :=
  match (match peers with [] => online_peers e s | _ => peers end) with
  | [] => (false, [])
  | peers => (true, (fun p => generic_sendItem e s (mk_NxsItem p 0 PullRequestItem)) <$> peers)
  end.

Definition handlePullRequest (e : nxs_env) (s : RsGxsNetService) (peer : Z) : RsGxsNetService * list nxs_out :=
  let '(_, s, out) := checkUpdatesFromPeers e s [peer] in (s, out).

Definition requestGrp (s : RsGxsNetService) (grpIds : list Z) (peerId : Z) : RsGxsNetService :=
  s <| mExplicitRequest := map_set (mExplicitRequest s) peerId (foldl ids_insert (map_at [] (mExplicitRequest s) peerId) grpIds) |>.

Definition explicit_request (e : nxs_env) (r : RsGxsNetService * list nxs_out) (kv : Z * ids) : RsGxsNetService * list nxs_out :=
  let '(s, out) := r in
  let '(peerId, groups) := kv in
  let '(transN, s) := locked_getTransactionId s in
  match (fun g => mk_NxsItem peerId transN (SyncGrpItem FLAG_REQUEST g 0 0)) <$> groups.*1 with
  | [] => (s, out)
  | grpSyncItems => let '(s, out') := locked_pushGrpTransactionFromList e s grpSyncItems peerId transN in (s, out ++ out')
  end.

Definition processExplicitGroupRequests (e : nxs_env) (s : RsGxsNetService) : RsGxsNetService * list nxs_out :=
  let '(s, out) := foldl (explicit_request e) (s, []) (mExplicitRequest s) in (s <| mExplicitRequest := [] |>, out).

(** A group someone among the friends has needs no tunnel. *)
Definition checkDistantSyncState (e : nxs_env) (s : RsGxsNetService) : RsGxsNetService * list nxs_out :=
  if negb (has (mSyncFlags s) DISTANT_SYNC) || negb (mGxsNetTunnel e) || negb (has (mSyncFlags s) DISCOVER_NEW_GROUPS) then (s, [])
  else
    foldl (fun '(s, out) kv =>
      let '(g, meta) := kv in
      if negb (has (mSubscribeFlags meta) GROUP_SUBSCRIBE_SUBSCRIBED) then (s, out)
      else
        let '(rec, s) := locked_getGrpConfig s g in
        (s, out ++ [if existsb (fun p => bool_decide (p ∈ getOnlineList e)) (suppliers rec).*1
                    then ReleaseDistantPeers g else RequestDistantPeers g])) (s, []) (grpMetas e).

(** ** Statistics *)

(** Two suppliers from a random place on, around the end. *)
Definition pick_suppliers (e : nxs_env) (g : Z) (l : list Z) : list Z :=
  let n := Z.to_nat (random_u32 e g mod Z.of_nat (length l)) in
  take (Z.to_nat GROUP_STATS_UPDATE_NB_PEERS) (drop n l ++ take n l).

Definition stats_request (e : nxs_env) (r : RsGxsNetService * list nxs_out) (kv : Z * RsGxsGrpMetaData) : RsGxsNetService * list nxs_out :=
  let '(s, out) := r in
  let g := kv.1 in
  let '(rec, s) := locked_getGrpConfig s g in
  if (statistics_update_TS rec + GROUP_STATS_UPDATE_DELAY <? now e) && negb (bool_decide (suppliers rec = [])) then
    let asked := filter (fun p => p ∈ online_peers e s) (pick_suppliers e g (suppliers rec).*1) in
    (s, out ++ ((fun p => generic_sendItem e s (mk_NxsItem p 0 (SyncGrpStatsItem GROUP_INFO_TYPE_REQUEST g 0 0))) <$> asked))
  else (s, out).

Definition syncGrpStatistics (e : nxs_env) (s : RsGxsNetService) : RsGxsNetService * list nxs_out :=
  foldl (stats_request e) (s, []) (grpMetas e).

Definition handleRecvSyncGrpStatistics (e : nxs_env) (s : RsGxsNetService) (peer request_type g number_of_posts last_post_TS : Z)
    : RsGxsNetService * list nxs_out :=
  if request_type =? GROUP_INFO_TYPE_REQUEST then
    match map_find (grpMetas e) g with
    | None => (s, [])
    | Some grpMeta =>
        if negb (has (mSubscribeFlags grpMeta) GROUP_SUBSCRIBE_SUBSCRIBED) then (s, [])
        else if bool_decide (msgMetas e g = []) then (s, [])
        else
          let vec := drop_old_versions s (msgMetas e g) in
          let last := foldl (fun ts m => if ts <? mm_PublishTs m then u32 (mm_PublishTs m) else ts) (u32 (mPublishTs grpMeta)) vec in
          (s, [generic_sendItem e s (mk_NxsItem peer 0
                 (SyncGrpStatsItem GROUP_INFO_TYPE_RESPONSE g (u32 (Z.of_nat (length vec))) last))])
    end
  else if request_type =? GROUP_INFO_TYPE_RESPONSE then
    let '(rec, s) := locked_getGrpConfig s g in
    let rec' := rec <| suppliers := ids_insert (suppliers rec) peer |>
                    <| max_visible_count := Z.max (max_visible_count rec) number_of_posts |>
                    <| statistics_update_TS := now e |> <| last_group_modification_TS := last_post_TS |> in
    let s := set_config s g rec' in
    (if negb (max_visible_count rec =? max_visible_count rec') ||
        negb (bool_decide (length (suppliers rec) = length (suppliers rec')))
     then s <| mNewStatsToNotify := ids_insert (mNewStatsToNotify s) g |> else s, [])
  else (s, []).

(** ** Publish keys *)

Definition sharePublishKey (s : RsGxsNetService) (g : Z) (peers : ids) : RsGxsNetService :=
  s <| mPendingPublishKeyRecipients := map_set (mPendingPublishKeyRecipients s) g peers |>.

Definition publish_key (meta : RsGxsGrpMetaData) : option RsTlvPrivateRSAKey :=
  List.find (fun k => keyFlags k =? Z.lor RSTLV_KEY_DISTRIB_PUBLISH RSTLV_KEY_TYPE_FULL) (private_keys meta).*2.

(** The recipients of one group that are left, and the items for those online. *)
Definition share_one (e : nxs_env) (s : RsGxsNetService) (kv : Z * ids) : option (Z * ids) * list nxs_out :=
  let '(g, peers) := kv in
  let recipients := filter (fun p => p ∈ getOnlineList e) peers.*1 in
  let offline_recipients := filter (fun kv => ~ kv.1 ∈ getOnlineList e) peers in
  match recipients, map_find (grpMetas e) g ≫= publish_key with
  | _ :: _, Some key =>
      (match offline_recipients with [] => None | _ => Some (g, offline_recipients) end,
       (fun p => generic_sendItem e s (mk_NxsItem p 0 (GroupPublishKeyItem g key))) <$> recipients)
  | _, _ => (Some kv, [])
  end.

Definition sharePublishKeysPending (e : nxs_env) (s : RsGxsNetService) : RsGxsNetService * list nxs_out :=
  let r := share_one e s <$> mPendingPublishKeyRecipients s in
  (s <| mPendingPublishKeyRecipients := omap fst r |>, concat r.*2).

Definition handleRecvPublishKeys (e : nxs_env) (s : RsGxsNetService) (g : Z) (key : RsTlvPrivateRSAKey) : RsGxsNetService * list nxs_out :=
  match map_find (grpMetas e) g with
  | None => (s, [])
  | Some grpMeta =>
      let full := has (keyFlags key) RSTLV_KEY_TYPE_FULL in
      let admin := has (keyFlags key) RSTLV_KEY_DISTRIB_ADMIN && full in
      let publi := has (keyFlags key) RSTLV_KEY_DISTRIB_PUBLISH && full in
      let notify s := s <| mNewPublishKeysToNotify := ids_insert (mNewPublishKeysToNotify s) g |> in
      if negb (negb admin && publi) then (s, [])
      else if negb (bool_decide (keyId key ∈ public_keys grpMeta)) then (s, [])
      else if map_find (private_keys grpMeta) (keyId key) is Some _ then (notify s, [])
      else (if updateGroupKeys e g then notify s else s,
            [UpdateGroupKeys g key (Z.lor (mSubscribeFlags grpMeta) GROUP_SUBSCRIBE_PUBLISH)])
  end.

(** ** Receiving *)

(** What [recvItem] and the tunnel service have: from the tunnel, the virtual peer and what its data says, nothing when it does not parse. *)
Record nxs_incoming := mk_Incoming { queue : list RsNxsItem; tunnel : list (Z * option (Z * nxs_body)) }.

(** An item outside of transactions. *)
Definition handle_item (e : nxs_env) (s : RsGxsNetService) (peer : Z) (b : nxs_body) (item_was_encrypted : bool)
    : RsGxsNetService * list nxs_out :=
  match b with
  | SyncGrpStatsItem rt g n ts => handleRecvSyncGrpStatistics e s peer rt g n ts
  | SyncGrpReqItem ts => handleRecvSyncGroup e s peer ts
  | SyncMsgReqItem g flag since ts => handleRecvSyncMessage e s peer g flag since ts item_was_encrypted
  | GroupPublishKeyItem g key => handleRecvPublishKeys e s g key
  | PullRequestItem => handlePullRequest e s peer
  | _ => (s, [])
  end.

Definition recv_item (e : nxs_env) (s : RsGxsNetService) (ni : RsNxsItem) : RsGxsNetService * list nxs_out :=
  if negb (transactionNumber ni =? 0) then ((handleTransaction e s ni).2, [])
  else
    match body ni with
    | EncryptedDataItem data =>
        match decryptSingleNxsItem e (PeerId ni) data with
        | Some d => handle_item e s (PeerId d) (body d) true
        | None => (s, [])
        end
    | b => handle_item e s (PeerId ni) b false
    end.

Definition recv_all (e : nxs_env) (s : RsGxsNetService) (l : list RsNxsItem) : RsGxsNetService * list nxs_out :=
  foldl (fun '(s, out) i => let '(s, out') := recv_item e s i in (s, out ++ out')) (s, []) l.

(** The data of tunnels is looked at with distant synchronisation only; data that does not parse makes [item->PeerId(virtual_peer)]
    a call on a null pointer: [None]. *)
Definition tunnel_items (e : nxs_env) (s : RsGxsNetService) (l : list (Z * option (Z * nxs_body))) : option (list RsNxsItem) :=
  if has (mSyncFlags s) DISTANT_SYNC && mGxsNetTunnel e
  then mapM (fun pd => '(n, b) ← pd.2; Some (mk_NxsItem pd.1 n b)) l else Some [].

Definition recvNxsItemQueue (e : nxs_env) (s : RsGxsNetService) (i : nxs_incoming) : option (RsGxsNetService * list nxs_out) :=
  l ← tunnel_items e s (tunnel i); Some (recv_all e s (queue i ++ l)).

(** ** The two threads *)

Definition processObserverNotifications (s : RsGxsNetService) : RsGxsNetService * list nxs_out :=
  (s <| mNewGroupsToNotify := [] |> <| mNewMessagesToNotify := [] |> <| mNewStatsToNotify := [] |> <| mNewPublishKeysToNotify := [] |>
     <| mNewGrpSyncParamsToNotify := [] |>,
   (if mNewGroupsToNotify s is [] then [] else [ReceiveNewGroups (mNewGroupsToNotify s)]) ++
   (if mNewMessagesToNotify s is [] then [] else [ReceiveNewMessages (mNewMessagesToNotify s)]) ++
   (NotifyReceivePublishKey <$> (mNewPublishKeysToNotify s).*1) ++
   (NotifyChangedGroupStats <$> (mNewStatsToNotify s).*1) ++
   (NotifyChangedGroupSyncParams <$> (mNewGrpSyncParamsToNotify s).*1)).

(** [Then] and [Else] of a test on the state, with what was sent before. *)
Definition step_if (b : RsGxsNetService -> bool) (f : RsGxsNetService -> RsGxsNetService * list nxs_out)
    (r : RsGxsNetService * list nxs_out) : RsGxsNetService * list nxs_out :=
  if b r.1 then let '(s, out) := f r.1 in (s, r.2 ++ out) else r.

Definition should_notify (s : RsGxsNetService) : bool :=
  match mNewGroupsToNotify s, mNewMessagesToNotify s, mNewPublishKeysToNotify s, mNewStatsToNotify s, mNewGrpSyncParamsToNotify s with
  | [], [], [], [], [] => false
  | _, _, _, _, _ => true
  end.

(** Every minute. *)
Definition sync_period (e : nxs_env) (s : RsGxsNetService) : RsGxsNetService * list nxs_out :=
  let '(_, s, out1) := checkUpdatesFromPeers e s [] in
  let '(s, out2) := syncGrpStatistics e s in
  let '(s, out3) := checkDistantSyncState e s in
  (s <| mSyncTs := u32 (now e) |>, out1 ++ out2 ++ out3).

Definition tick (e : nxs_env) (s : RsGxsNetService) (i : nxs_incoming) : option (RsGxsNetService * list nxs_out) :=
  r ← recvNxsItemQueue e s i;
  let r := step_if should_notify processObserverNotifications r in
  let r := step_if (fun s => u32 (SYNC_PERIOD + mSyncTs s) <? now e) (sync_period e) r in
  let r := step_if (fun s => u32 (10 + mLastKeyPublishTs s) <? now e)
             (fun s => let '(s, out) := sharePublishKeysPending e s in (s <| mLastKeyPublishTs := u32 (now e) |>, out)) r in
  Some (step_if (fun s => u32 (3600 + mLastCleanRejectedMessages s) <? now e)
          (fun s => (cleanRejectedMessages e (s <| mLastCleanRejectedMessages := u32 (now e) |>), [])) r).

Definition threadTick (e : nxs_env) (fuel : nat) (s : RsGxsNetService) : option (RsGxsNetService * list nxs_out) :=
  let s := if 120 <=? mUpdateCounter s then (updateServerSyncTS e s) <| mUpdateCounter := 1 |>
           else s <| mUpdateCounter := mUpdateCounter s + 1 |> in
  let '(s, out1) := processTransactions e s in
  '(s, out2) ← processCompletedTransactions e fuel s;
  '(s, out3) ← runVetting e fuel s;
  let '(s, out4) := processExplicitGroupRequests e s in
  Some (s, out1 ++ out2 ++ out3 ++ out4).
