(* ===== verification/NxsViews.v ===== *)
(** * Every transaction goes its own way

    The maps of transactions are one state, but what becomes of a transaction depends on its own items and the clock alone.  A
    transaction is looked at through [find_transaction]; [grows] is what an operation may do to the others, and holds of
    everything a service does but receiving an item of a transaction and [processTransactions], which are computed here. *)

From S2P Require Import Prelude StdMap Nxs NxsTrans NxsSync.
From Stdlib Require Import ZArith Lia.
From stdpp Require Import base list sorting.
Open Scope Z_scope.

(** ** Finding *)

Lemma map_find_touch {V} (d : V) (m : list (Z * V)) k k' :
  map_find (map_touch d m k) k' = if decide (k = k') then Some (map_at d m k) else map_find m k'.
Proof.
  unfold map_touch, map_at. destruct (map_find m k) as [v|] eqn:E; destruct (decide (k = k')) as [<-|Hk]; try done.
  - by apply map_find_set_eq, Z_key_eqv.
  - apply map_find_set_ne. by rewrite Z_key_eqv.
Qed.

Lemma map_find_set {V} (m : list (Z * V)) k k' v : map_find (map_set m k v) k' = if decide (k = k') then Some v else map_find m k'.
Proof.
  destruct (decide (k = k')) as [<-|Hk]; [by apply map_find_set_eq, Z_key_eqv|]. apply map_find_set_ne. by rewrite Z_key_eqv.
Qed.

Lemma map_find_erase {V} (m : list (Z * V)) k k' : map_sorted m ->
  map_find (map_erase m k) k' = if decide (k = k') then None else map_find m k'.
Proof.
  intros Hs. destruct (decide (k = k')) as [<-|Hk]; [by apply map_find_erase_eq; [|apply Z_key_eqv]|].
  apply map_find_erase_ne. by rewrite Z_key_eqv.
Qed.

Lemma map_find_cons {V} (m : list (Z * V)) k k' v : map_find ((k', v) :: m) k = if decide (k = k') then Some v else map_find m k.
Proof.
  cbn. destruct (decide (key_eqv k k')) as [E|E]; rewrite Z_key_eqv in E; [by rewrite decide_True|by rewrite decide_False].
Qed.

Lemma map_find_In {V} (m : list (Z * V)) k v : map_sorted m -> map_find m k = Some v <-> (k, v) ∈ m.
Proof.
  intros Hs. rewrite map_find_elem by done. split; [intros (k' & ->%Z_key_eqv & H); done|]. intros H. exists k. by rewrite Z_key_eqv.
Qed.

Lemma map_at_find {V} (d : V) (m : list (Z * V)) k k' v : map_at d (map_set m k v) k' = if decide (k = k') then v else map_at d m k'.
Proof. unfold map_at. rewrite map_find_set. by destruct (decide _). Qed.

Lemma find_transaction_at s p n : find_transaction s p n = map_find (map_at [] (mTransactions s) p) n.
Proof. unfold find_transaction, map_at. by destruct (map_find _ p). Qed.

Lemma find_set_transaction s p n p' n' tr :
  find_transaction (set_transaction s p n tr) p' n' = if decide ((p, n) = (p', n')) then Some tr else find_transaction s p' n'.
Proof.
  rewrite !find_transaction_at. change (mTransactions (set_transaction s p n tr))
    with (map_set (mTransactions s) p (map_set (map_at [] (mTransactions s) p) n tr)).
  rewrite map_at_find. destruct (decide (p = p')) as [->|Hp].
  - rewrite map_find_set. destruct (decide (n = n')) as [->|Hn]; [by rewrite decide_True|]. rewrite decide_False; [done|congruence].
  - rewrite decide_False; [done|congruence].
Qed.

(** ** Well-formed maps *)

Definition transMap_ok (m : list (Z * NxsTransaction)) : Prop := map_sorted m /\ forall n tr, (n, tr) ∈ m -> t_transactionNumber tr = n.

(** The maps are in order, and transactions are filed under their numbers. *)
Definition trans_ok (s : RsGxsNetService) : Prop :=
  map_sorted (mTransactions s) /\ forall p m, (p, m) ∈ mTransactions s -> transMap_ok m.

Lemma transMap_ok_nil : transMap_ok [].
Proof. split; [apply map_sorted_nil|]. intros n tr H. by apply not_elem_of_nil in H. Qed.

Lemma transMap_ok_set m n tr : transMap_ok m -> t_transactionNumber tr = n -> transMap_ok (map_set m n tr).
Proof.
  intros [Hs Hn] Htr. split; [by apply map_sorted_set|]. intros n' tr' [(k & ->%Z_key_eqv & [= -> ->])|H]%elem_of_map_set; [done|].
  by apply Hn.
Qed.

Lemma trans_ok_at s p : trans_ok s -> transMap_ok (map_at [] (mTransactions s) p).
Proof.
  intros [Hs Hp]. unfold map_at. destruct (map_find _ p) as [m|] eqn:E; [|apply transMap_ok_nil].
  apply map_find_In in E; [|done]. by apply (Hp p).
Qed.

Lemma trans_ok_number s p n tr : trans_ok s -> find_transaction s p n = Some tr -> t_transactionNumber tr = n.
Proof.
  intros Hok H. destruct (trans_ok_at s p Hok) as [Hs Hn]. rewrite find_transaction_at, map_find_In in H by done. by apply Hn.
Qed.

(** Replacing the map of one peer. *)
Lemma trans_ok_replace s s' p m : trans_ok s -> transMap_ok m -> mTransactions s' = map_set (mTransactions s) p m -> trans_ok s'.
Proof.
  intros [Hs Hp] Hm E. unfold trans_ok. rewrite E. split; [by apply map_sorted_set|].
  intros p' m' [(k & ->%Z_key_eqv & [= -> ->])|H]%elem_of_map_set; [done|]. by apply (Hp p').
Qed.

Lemma trans_ok_same s s' : mTransactions s' = mTransactions s -> trans_ok s -> trans_ok s'.
Proof. unfold trans_ok. by intros ->. Qed.

Lemma set_transaction_ok s p n tr : trans_ok s -> t_transactionNumber tr = n -> trans_ok (set_transaction s p n tr).
Proof. intros Hok Hn. eapply trans_ok_replace; [done| |reflexivity]. apply transMap_ok_set; [by apply trans_ok_at|done]. Qed.

Lemma touch_ok s s' p : trans_ok s -> mTransactions s' = map_touch [] (mTransactions s) p -> trans_ok s'.
Proof.
  intros Hok E. unfold map_touch in E. destruct (map_find _ p).
  - by eapply trans_ok_same.
  - by eapply trans_ok_replace; [|apply transMap_ok_nil|].
Qed.

(** ** What may happen to the other transactions *)

(** Only own transactions are made, under numbers that are free, and no message that waits for the observer is lost. *)
Record grows (s s' : RsGxsNetService) : Prop := {
  grows_own : mOwnId s' = mOwnId s;
  grows_flags : mSyncFlags s' = mSyncFlags s;
  grows_ok : trans_ok s -> trans_ok s';
  grows_keeps : forall p n tr, find_transaction s p n = Some tr -> find_transaction s' p n = Some tr;
  grows_friends : forall p n, p <> mOwnId s -> find_transaction s' p n = find_transaction s p n;
  grows_msgs : mNewMessagesToNotify s `prefix_of` mNewMessagesToNotify s'
}.

#[export] Instance grows_preorder : PreOrder grows.
Proof.
  split.
  - intros s. by split.
  - intros s1 s2 s3 [E1 G1 O1 K1 F1 M1] [E2 G2 O2 K2 F2 M2]. split; [congruence|congruence|by auto|by auto| |by etransitivity].
    intros p n Hp. rewrite F2 by congruence. by apply F1.
Qed.

Lemma grows_more s s' : mTransactions s' = mTransactions s -> mOwnId s' = mOwnId s -> mSyncFlags s' = mSyncFlags s ->
  mNewMessagesToNotify s `prefix_of` mNewMessagesToNotify s' -> grows s s'.
Proof.
  intros E1 E2 E3 E4. split; [done|done|by apply trans_ok_same| | |done]; intros p n; rewrite !find_transaction_at, E1; done.
Qed.

Lemma grows_same s s' : mTransactions s' = mTransactions s -> mOwnId s' = mOwnId s -> mSyncFlags s' = mSyncFlags s ->
  mNewMessagesToNotify s' = mNewMessagesToNotify s -> grows s s'.
Proof. intros E1 E2 E3 E4. apply grows_more; [done..|]. by rewrite E4. Qed.

Lemma locked_addTransaction_grows s tr ok s' : t_PeerId tr = mOwnId s -> locked_addTransaction s tr = (ok, s') -> grows s s'.
Proof.
  intros Ep. unfold locked_addTransaction. set (t := s <| mTransactions := _ |>).
  assert (Ht : forall p n, find_transaction t p n = find_transaction s p n).
  { intros p n. rewrite !find_transaction_at. unfold map_at. change (mTransactions t) with (map_touch [] (mTransactions s) (t_PeerId tr)).
    rewrite map_find_touch. destruct (decide _) as [<-|Hp]; [|done]. unfold map_at. cbn. by destruct (map_find _ _). }
  assert (Hg : grows s t).
  { split; [done|done| | | |done]; [intros Hok; by eapply touch_ok|intros p n tr'; by rewrite Ht|intros p n _; by rewrite Ht]. }
  destruct (map_find (map_at [] _ _) _) eqn:E; intros [= <- <-]; [done|].
  etransitivity; [exact Hg|].
  match goal with |- grows _ ?x => set (u := x) end.
  assert (Hu : forall p n, find_transaction u p n =
            if decide ((t_PeerId tr, t_transactionNumber tr) = (p, n)) then Some tr else find_transaction s p n).
  { intros p n. rewrite <- find_set_transaction, !find_transaction_at. f_equal. unfold map_at.
    change (mTransactions u) with (map_set (map_touch [] (mTransactions s) (t_PeerId tr)) (t_PeerId tr)
      (map_set (map_at [] (mTransactions s) (t_PeerId tr)) (t_transactionNumber tr) tr)).
    change (mTransactions (set_transaction s (t_PeerId tr) (t_transactionNumber tr) tr)) with (map_set (mTransactions s) (t_PeerId tr)
      (map_set (map_at [] (mTransactions s) (t_PeerId tr)) (t_transactionNumber tr) tr)).
    rewrite !map_find_set. destruct (decide _) as [->|Hp]; [done|]. rewrite map_find_touch. by rewrite decide_False. }
  split; [done|done| | | |done].
  - intros Hok. eapply trans_ok_replace; [exact Hok| |reflexivity]. apply transMap_ok_set; [|done].
    pose proof (trans_ok_at t (t_PeerId tr) Hok) as H. unfold map_at in H.
    change (mTransactions t) with (map_touch [] (mTransactions s) (t_PeerId tr)) in H. rewrite map_find_touch, decide_True in H by done. done.
  - intros p n tr'. rewrite Ht, Hu. intros Hf. rewrite decide_False; [done|]. intros [= <- <-].
    rewrite find_transaction_at in Hf. congruence.
  - intros p n Hp. change (mOwnId t) with (mOwnId s) in Hp. rewrite Ht, Hu, decide_False; [done|]. congruence.
Qed.

Create HintDb grows.
#[export] Hint Extern 1 (grows ?s ?s) => reflexivity : grows.
#[export] Hint Extern 2 (grows _ _) => (apply grows_same; reflexivity) : grows.

Lemma open_transaction_grows e s flag l peer n kept sent s' out : open_transaction e s flag l peer n kept sent = (s', out) -> grows s s'.
Proof.
  unfold open_transaction. destruct (locked_addTransaction _ _) as [ok t] eqn:E. intros [= <- _].
  by apply locked_addTransaction_grows in E.
Qed.

Lemma locked_getGrpConfig_grows s g conf s' : locked_getGrpConfig s g = (conf, s') -> grows s s'.
Proof. unfold locked_getGrpConfig. destruct (map_find _ _); intros [= _ <-]; eauto with grows. Qed.

Lemma locked_getTransactionId_grows s n s' : locked_getTransactionId s = (n, s') -> grows s s'.
Proof. intros [= _ <-]. eauto with grows. Qed.

Lemma note_grp_update_grows s t p ts : grows s t -> grows s (note_grp_update t p ts).
Proof. intros H. etransitivity; [exact H|]. unfold note_grp_update, IndicateConfigChanged. case_match; apply grows_same; reflexivity. Qed.

Lemma locked_stampPeerGroupUpdateTime_grows s t p g ts n : grows s t -> grows s (locked_stampPeerGroupUpdateTime t p g ts n).
Proof. intros H. etransitivity; [exact H|]. apply grows_same; reflexivity. Qed.

#[export] Hint Resolve note_grp_update_grows locked_stampPeerGroupUpdateTime_grows : grows.

(** Opens one computation of the goal's hypothesis after the other, and keeps what is known of each. *)
Ltac grows_know :=
  repeat match goal with
  | H : open_transaction _ _ _ _ _ _ _ _ = (_, _) |- _ => apply open_transaction_grows in H
  | H : locked_getGrpConfig _ _ = (_, _) |- _ => apply locked_getGrpConfig_grows in H
  | H : locked_getTransactionId _ = (_, _) |- _ => apply locked_getTransactionId_grows in H
  end.

Ltac grows_split := intros; repeat (case_match; simplify_eq/=); grows_know.

(** The steps known one by one, with updates of other fields in between. *)
Ltac grows_chain :=
  first
    [ solve [eauto 3 with grows]
    | match goal with
      | H : grows ?a ?b |- grows ?s _ => transitivity a; [apply grows_same; reflexivity|transitivity b; [exact H|clear H; grows_chain]]
      end ].

Lemma locked_genReqMsgTransaction_grows e s tr s' out : locked_genReqMsgTransaction e s tr = (s', out) -> grows s s'.
Proof.
  unfold locked_genReqMsgTransaction, locked_pushMsgTransactionFromList. grows_split; grows_chain.
Qed.

Lemma locked_genReqGrpTransaction_grows e s tr s' out : locked_genReqGrpTransaction e s tr = (s', out) -> grows s s'.
Proof. unfold locked_genReqGrpTransaction, locked_pushGrpTransactionFromList. grows_split; grows_chain. Qed.

Lemma locked_genSendGrpsTransaction_grows e s tr s' out : locked_genSendGrpsTransaction e s tr = (s', out) -> grows s s'.
Proof. unfold locked_genSendGrpsTransaction. grows_split; grows_chain. Qed.

Lemma locked_genSendMsgsTransaction_grows e s tr s' out : locked_genSendMsgsTransaction e s tr = (s', out) -> grows s s'.
Proof. unfold locked_genSendMsgsTransaction. grows_split; grows_chain. Qed.

Lemma locked_doMsgUpdateWork_grows s p ts g : grows s (locked_doMsgUpdateWork s p ts g).
Proof. unfold locked_doMsgUpdateWork. grows_split; grows_chain. Qed.

Lemma locked_processCompletedIncomingTrans_grows e fuel s tr s' out :
  locked_processCompletedIncomingTrans e fuel s tr = Some (s', out) -> grows s s'.
Proof.
  unfold locked_processCompletedIncomingTrans. intros H.
  repeat (case_match; simplify_option_eq); try reflexivity;
    eauto using locked_genReqMsgTransaction_grows, locked_genReqGrpTransaction_grows, locked_genSendMsgsTransaction_grows,
      locked_genSendGrpsTransaction_grows.
  - apply grows_same; reflexivity.
  - match goal with |- grows _ (locked_stampMsgServerUpdateTS _ (locked_doMsgUpdateWork ?t _ _ _) _) =>
      assert (grows s t) by (apply grows_more; [reflexivity..|]; cbn; by eexists) end.
    match goal with |- grows _ (locked_stampMsgServerUpdateTS _ (locked_doMsgUpdateWork ?t ?p ?ts ?g) _) =>
      pose proof (locked_doMsgUpdateWork_grows t p ts g) end. grows_chain.
Qed.

Lemma complete_all_grows e fuel l : forall s s' out, complete_all e fuel l s = Some (s', out) -> grows s s'.
Proof.
  induction l as [|tr l IH]; intros s s' out; cbn; [by intros [= <- _]|]. intros H.
  destruct (if _ =? _ then _ else _) as [[s1 out1]|] eqn:E1; [|done]. cbn in H.
  destruct (complete_all e fuel l s1) as [[s2 out2]|] eqn:E2; [|done]. cbn in H. simplify_eq. transitivity s1; [|by eapply IH].
  destruct (_ =? _); [by simplify_eq|]. by eapply locked_processCompletedIncomingTrans_grows.
Qed.

Lemma processCompletedTransactions_grows e fuel s s' out : processCompletedTransactions e fuel s = Some (s', out) -> grows s s'.
Proof.
  unfold processCompletedTransactions. destruct (complete_all _ _ _ _) as [[t o]|] eqn:E; [|done].
  apply complete_all_grows in E. intros [= <- _]. grows_chain.
Qed.

(** ** Requests *)

Lemma canSendMsgIds_grows e s msgs g meta p r s' : canSendMsgIds e s msgs g meta p = (r, s') -> grows s s'.
Proof. unfold canSendMsgIds. grows_split; grows_chain. Qed.

Lemma can_receive_groups_grows e s p ts r s' : can_receive_groups e s p ts = (r, s') -> grows s s'.
Proof. unfold can_receive_groups. grows_split; grows_chain. Qed.

Lemma can_receive_msgs_grows e s p g flag ts r s' : can_receive_msgs e s p g flag ts = (r, s') -> grows s s'.
Proof. unfold can_receive_msgs. grows_split; grows_chain. Qed.

Lemma handleRecvSyncGroup_grows e s p ts s' out : handleRecvSyncGroup e s p ts = (s', out) -> grows s s'.
Proof.
  unfold handleRecvSyncGroup, locked_pushGrpRespFromList. destruct (can_receive_groups _ _ _ _) as [ok t] eqn:E.
  apply can_receive_groups_grows in E. destruct (negb ok); [intros [= <- _]; grows_chain|].
  destruct (bool_decide _); [intros [= <- _]; grows_chain|].
  destruct (locked_getTransactionId t) as [n u] eqn:E2. apply locked_getTransactionId_grows in E2.
  destruct (foldl _ ([], []) _) as [itemL toVet]. intros H. grows_know. destruct toVet; grows_chain.
Qed.

Lemma locked_max_send_delay_grows e s g d s' : locked_max_send_delay e s g = (d, s') -> grows s s'.
Proof.
  unfold locked_max_send_delay. destruct (RS_GXS_SEND_ALL e); [by intros [= _ <-]|].
  destruct (locked_getGrpConfig s g) as [conf t] eqn:E. apply locked_getGrpConfig_grows in E. by intros [= _ <-].
Qed.

(** The suppliers of a group are noted. *)
Lemma add_supplier_grows s g p : grows s (let '(rec, s) := locked_getGrpConfig s g in set_config s g (rec <| suppliers := ids_insert (suppliers rec) p |>)).
Proof. destruct (locked_getGrpConfig s g) as [rec t] eqn:E. apply locked_getGrpConfig_grows in E. grows_chain. Qed.

Lemma handleRecvSyncMessage_grows e s p g flag since ts enc s' out :
  handleRecvSyncMessage e s p g flag since ts enc = (s', out) -> grows s s'.
Proof.
  unfold handleRecvSyncMessage, locked_pushMsgRespFromList.
  destruct (can_receive_msgs _ _ _ _ _ _) as [[[ok known] g'] t] eqn:E. apply can_receive_msgs_grows in E.
  set (u := if known || _ then _ else t). assert (Hu : grows t u).
  { subst u. destruct (known || _); [apply add_supplier_grows|done]. }
  clearbody u. destruct (negb ok); [intros [= <- _]; grows_chain|].
  destruct (map_find _ _) as [meta|]; [|intros [= <- _]; grows_chain].
  destruct (negb _); [intros [= <- _]; grows_chain|]. destruct (negb (Bool.eqb _ _)); [intros [= <- _]; grows_chain|].
  destruct (locked_getTransactionId u) as [n v] eqn:E2. apply locked_getTransactionId_grows in E2.
  destruct (locked_max_send_delay e v g') as [delay w] eqn:E3. apply locked_max_send_delay_grows in E3.
  destruct (canSendMsgIds _ _ _ _ _ _) as [can x] eqn:E4. apply canSendMsgIds_grows in E4.
  destruct can as [[msgs id]|]; [|intros [= <- _]; grows_chain].
  destruct (list_messages _ _ _ _ _ _ _ _ _ _); [intros [= <- _]; grows_chain|]. intros H. grows_know. grows_chain.
Qed.

Lemma foldl_grows {A B} (f : RsGxsNetService * B -> A -> RsGxsNetService * B) (l : list A) :
  (forall r x, grows r.1 (f r x).1) -> forall r, grows r.1 (foldl f r l).1.
Proof. intros Hf. induction l as [|x l IH]; intros r; cbn; [done|]. etransitivity; [apply Hf|apply IH]. Qed.

Lemma handleRecvSyncGrpStatistics_grows e s p rt g n ts s' out : handleRecvSyncGrpStatistics e s p rt g n ts = (s', out) -> grows s s'.
Proof. unfold handleRecvSyncGrpStatistics. grows_split; grows_chain. Qed.

Lemma handleRecvPublishKeys_grows e s g key s' out : handleRecvPublishKeys e s g key = (s', out) -> grows s s'.
Proof. unfold handleRecvPublishKeys. grows_split; grows_chain. Qed.

Lemma ask_group_grows e p r kv : grows r.1 (ask_group e p r kv).1.
Proof. destruct r as [s out], kv as [g meta]. unfold ask_group. grows_split; grows_chain. Qed.

Lemma checkUpdatesFromPeers_grows e s l ok s' out : checkUpdatesFromPeers e s l = (ok, s', out) -> grows s s'.
Proof.
  unfold checkUpdatesFromPeers. set (peers := match l with [] => _ | _ => _ end). clearbody peers. destruct peers as [|p peers].
  - by intros [= _ <- _].
  - destruct (negb _); [by intros [= _ <- _]|]. destruct (foldl _ _ _) as [t out2] eqn:E. intros [= _ <- _].
    change t with (t, out2).1. rewrite <- E. apply (foldl_grows _ _ (fun r x => foldl_grows _ _ (ask_group_grows e x) r) (s, [])).
Qed.

Lemma handle_item_grows e s p b enc s' out : handle_item e s p b enc = (s', out) -> grows s s'.
Proof.
  unfold handle_item, handlePullRequest. destruct b; try (by intros [= <- _]).
  - apply handleRecvSyncGroup_grows.
  - apply handleRecvSyncMessage_grows.
  - apply handleRecvSyncGrpStatistics_grows.
  - apply handleRecvPublishKeys_grows.
  - destruct (checkUpdatesFromPeers e s [p]) as [[ok t] o] eqn:E. intros [= <- _]. by apply checkUpdatesFromPeers_grows in E.
Qed.

(** ** The other parts of a turn *)

Lemma pending_grp_grows e s p l s' out : locked_createTransactionFromPendingGrp e s p l = (s', out) -> grows s s'.
Proof. unfold locked_createTransactionFromPendingGrp, locked_pushGrpRespFromList. grows_split; grows_chain. Qed.

Lemma pending_msg_grows e s p g c enc l ok s' out : locked_createTransactionFromPendingMsg e s p g c enc l = (ok, s', out) -> grows s s'.
Proof. unfold locked_createTransactionFromPendingMsg, locked_pushMsgRespFromList. grows_split; grows_chain. Qed.

Lemma run_vets_grows e fuel : forall vets kept s kept' s' out, run_vets e fuel vets kept s = Some (kept', s', out) -> grows s s'.
Proof.
  induction fuel as [|fuel IH]; intros vets kept s kept' s' out; [done|]. cbn [run_vets].
  assert (Hgo : forall s1 vets kept (f : list nxs_out -> list nxs_out), grows s s1 ->
    ('(k, t, o) ← run_vets e fuel vets kept s1; Some (k, t, f o)) = Some (kept', s', out) -> grows s s').
  { clear vets kept. intros s1 vets kept f H1 H. destruct (run_vets e fuel vets kept s1) as [[[k t] o]|] eqn:E; [|done].
    apply IH in E. injection H as _ <- _. by etransitivity. }
  destruct vets as [|[t l p|t l g p c] vets]; [by intros [= _ <- _]| |].
  - destruct (cleared_groups e p l) as [[ok l'] o1]. destruct (ok || expired e t).
    + destruct (locked_createTransactionFromPendingGrp _ _ _ _) as [s1 o2] eqn:E. apply pending_grp_grows in E.
      by apply (Hgo s1 _ _ (fun o => o1 ++ o2 ++ o)).
    + by apply (Hgo s _ _ (fun o => o1 ++ o)).
  - destruct (cleared_msgs e p g c l) as [[[ok enc] l'] o1]. destruct (ok || expired e t).
    + destruct (cleared_msgs e p g c l') as [[[ok2 enc2] l2] o2]. destruct ok2; [|by apply (Hgo s _ _ (fun o => o1 ++ o2 ++ o))].
      destruct (locked_createTransactionFromPendingMsg _ _ _ _ _ _ _) as [[sent s1] o3] eqn:E. apply pending_msg_grows in E.
      destruct sent; [by apply (Hgo s1 _ _ (fun o => o1 ++ o2 ++ o3 ++ o))|by apply (Hgo s1 _ _ (fun o => o1 ++ o2 ++ o))].
    + by apply (Hgo s _ _ (fun o => o1 ++ o)).
Qed.

Lemma runVetting_grows e fuel s s' out : runVetting e fuel s = Some (s', out) -> grows s s'.
Proof.
  unfold runVetting. destruct (run_vets _ _ _ _ _) as [[[k t] o]|] eqn:E; [|done]. apply run_vets_grows in E.
  intros [= <- _]. grows_chain.
Qed.

Lemma explicit_request_grows e r kv : grows r.1 (explicit_request e r kv).1.
Proof.
  destruct r as [s out], kv as [p groups]. unfold explicit_request, locked_pushGrpTransactionFromList. grows_split; grows_chain.
Qed.

Lemma processExplicitGroupRequests_grows e s s' out : processExplicitGroupRequests e s = (s', out) -> grows s s'.
Proof.
  unfold processExplicitGroupRequests. destruct (foldl _ _ _) as [t o] eqn:E. intros [= <- _].
  pose proof (foldl_grows _ (mExplicitRequest s) (explicit_request_grows e) (s, [])) as H. rewrite E in H. cbn in H. grows_chain.
Qed.

Lemma update_group_TS_grows e r kv : grows r.1 (update_group_TS e r kv).1.
Proof. destruct r as [s change]. unfold update_group_TS. grows_split; grows_chain. Qed.

Lemma updateServerSyncTS_grows e s : grows s (updateServerSyncTS e s).
Proof.
  unfold updateServerSyncTS. set (t := s <| mServerMsgUpdateMap := _ |>). destruct (foldl _ _ _) as [u c] eqn:E.
  pose proof (foldl_grows _ (grpMetas e) (update_group_TS_grows e) (t, false)) as H. rewrite E in H. cbn in H.
  assert (Ht : grows s t) by (apply grows_same; reflexivity). destruct c; grows_chain.
Qed.

Lemma stats_request_grows e r kv : grows r.1 (stats_request e r kv).1.
Proof. destruct r as [s out]. unfold stats_request. grows_split; grows_chain. Qed.

Lemma checkDistantSyncState_grows e s s' out : checkDistantSyncState e s = (s', out) -> grows s s'.
Proof.
  unfold checkDistantSyncState. destruct (_ || _); [by intros [= <- _]|]. intros H.
  change s' with (s', out).1. rewrite <- H. refine (foldl_grows _ _ _ (s, [])). intros [t o] [g meta]. cbn.
  destruct (negb _); [done|]. destruct (locked_getGrpConfig t g) as [rec u] eqn:E. by apply locked_getGrpConfig_grows in E.
Qed.

Lemma sync_period_grows e s s' out : sync_period e s = (s', out) -> grows s s'.
Proof.
  unfold sync_period, syncGrpStatistics. destruct (checkUpdatesFromPeers e s []) as [[ok s1] o1] eqn:E1.
  apply checkUpdatesFromPeers_grows in E1. destruct (foldl _ _ _) as [s2 o2] eqn:E2.
  pose proof (foldl_grows _ (grpMetas e) (stats_request_grows e) (s1, [])) as H2. rewrite E2 in H2. cbn in H2.
  destruct (checkDistantSyncState e s2) as [s3 o3] eqn:E3. apply checkDistantSyncState_grows in E3. intros [= <- _]. grows_chain.
Qed.

Lemma step_if_grows b f r : (forall s s' out, f s = (s', out) -> grows s s') -> grows r.1 (step_if b f r).1.
Proof.
  intros Hf. unfold step_if. destruct (b r.1); [|done]. destruct (f r.1) as [s' out] eqn:E. by apply Hf in E.
Qed.

(** The transactions are the same. *)
Definition same_trans (s s' : RsGxsNetService) : Prop :=
  mTransactions s' = mTransactions s /\ mOwnId s' = mOwnId s /\ mSyncFlags s' = mSyncFlags s.

(** The turn of the main thread, after what it receives: the observer takes what is new, and the rest [grows]. *)
Lemma tick_grows e s i s1 out1 s' out : recvNxsItemQueue e s i = Some (s1, out1) -> tick e s i = Some (s', out) ->
  exists s2, same_trans s1 s2 /\ grows s2 s'.
Proof.
  intros E. unfold tick. rewrite E. cbn [mbind option_bind]. set (r := step_if should_notify _ _). intros [= H].
  exists r.1. split.
  - subst r. unfold step_if. by destruct (should_notify _).
  - clearbody r. change s' with (s', out).1. rewrite <- H. clear. etransitivity; [|etransitivity].
    all: eapply step_if_grows; intros t t' o.
    + apply sync_period_grows.
    + destruct (sharePublishKeysPending e t) as [u o'] eqn:E2. intros [= <- _]. unfold sharePublishKeysPending in E2.
      injection E2 as <- _. apply grows_same; reflexivity.
    + intros [= <- _]. apply grows_same; reflexivity.
Qed.

(** ** Receiving *)

(** What an item of the transaction does to it. *)
Definition view_recv (e : nxs_env) (v : option NxsTransaction) (i : RsNxsItem) : option NxsTransaction :=
  match body i with
  | TransacItem t =>
      if has (transactFlag t) (Z.lor FLAG_BEGIN_P2 FLAG_END_SUCCESS) || negb (has (transactFlag t) FLAG_BEGIN_P1) then v
      else match v with
           | Some _ => v
           | None => Some (mk_NxsTransaction FLAG_STATE_STARTING (u32 (u32 (now e) + TRANSAC_TIMEOUT)) (PeerId i) (transactionNumber i)
                             (mk_Transac (transactFlag t) (nItems t) (updateTS t) (u32 (now e))) [])
           end
  | _ => (fun tr => tr <| mItems := mItems tr ++ [i] |>) <$> v
  end.

(** What a confirmation does to an own transaction, whoever sends it. *)
Definition view_confirm (v : option NxsTransaction) (flags : Z) : option NxsTransaction :=
  if has flags FLAG_BEGIN_P1 then v
  else if has flags FLAG_BEGIN_P2 then (fun tr => tr <| mFlag := FLAG_STATE_SENDING |>) <$> v
  else if has flags FLAG_END_SUCCESS then (fun tr => tr <| mFlag := FLAG_STATE_COMPLETED |>) <$> v
  else v.

Lemma has_lor f a b : has f (Z.lor a b) = has f a || has f b.
Proof.
  unfold has. rewrite <- negb_andb. f_equal. rewrite Z.land_lor_distr_r. apply eq_true_iff_eq. rewrite andb_true_iff, !Z.eqb_eq.
  split; [apply Z.lor_eq_0_iff|]. intros [-> ->]. done.
Qed.

(** One transaction is replaced, made, or none is. *)
Lemma handleTransaction_shape e s i : exists r,
  (handleTransaction e s i).2 = match r with None => s | Some (p, tr) => set_transaction s p (transactionNumber i) tr end /\
  forall p tr, r = Some (p, tr) ->
    (p = PeerId i \/ p = mOwnId s) /\ (trans_ok s -> t_transactionNumber tr = transactionNumber i).
Proof.
  unfold handleTransaction. destruct (body i) as [t| | | | | | | | | |] eqn:Eb.
  2-11: destruct (find_transaction s (PeerId i) (transactionNumber i)) as [tr|] eqn:E; [|by exists None];
    exists (Some (PeerId i, tr <| mItems := mItems tr ++ [i] |>)); split; [done|]; intros p tr' [= <- <-];
    split; [by left|]; intros Hok; exact (trans_ok_number _ _ _ _ Hok E).
  unfold locked_processTransac. set (peer := if has (transactFlag t) (Z.lor FLAG_BEGIN_P2 FLAG_END_SUCCESS) then mOwnId s else PeerId i).
  assert (Hp : peer = PeerId i \/ peer = mOwnId s) by (subst peer; case_match; auto).
  destruct (find_transaction s peer (transactionNumber i)) as [tr|] eqn:E; repeat case_match; try (by exists None); cbn.
  - exists (Some (mOwnId s, tr <| mFlag := FLAG_STATE_SENDING |>)). split; [done|]. intros p tr' [= <- <-]. split; [by right|].
    intros Hok. exact (trans_ok_number _ _ _ _ Hok E).
  - exists (Some (mOwnId s, tr <| mFlag := FLAG_STATE_COMPLETED |>)). split; [done|]. intros p tr' [= <- <-]. split; [by right|].
    intros Hok. exact (trans_ok_number _ _ _ _ Hok E).
  - eexists (Some (_, _)). split; [reflexivity|]. intros p tr' [= <- <-]. split; [done|]. done.
Qed.

Lemma handleTransaction_ok e s i : trans_ok s -> trans_ok (handleTransaction e s i).2.
Proof.
  intros Hok. destruct (handleTransaction_shape e s i) as ([[p tr]|] & -> & H); [|done]. apply set_transaction_ok; [done|]. by apply (H p tr).
Qed.

Lemma handleTransaction_same e s i :
  mOwnId (handleTransaction e s i).2 = mOwnId s /\ mSyncFlags (handleTransaction e s i).2 = mSyncFlags s.
Proof. by destruct (handleTransaction_shape e s i) as ([[p tr]|] & -> & _). Qed.

(** An item of another transaction changes nothing. *)
Lemma handleTransaction_other e s i p n : n <> transactionNumber i \/ p <> PeerId i /\ p <> mOwnId s ->
  find_transaction (handleTransaction e s i).2 p n = find_transaction s p n.
Proof.
  intros Hne. destruct (handleTransaction_shape e s i) as ([[p' tr]|] & -> & H); [|done].
  rewrite find_set_transaction. destruct (H p' tr eq_refl) as [Hp _]. rewrite decide_False; [done|]. intros [= -> <-]. destruct Hp, Hne as [?|[? ?]]; congruence.
Qed.

Lemma handleTransaction_incoming e s i : PeerId i <> mOwnId s ->
  find_transaction (handleTransaction e s i).2 (PeerId i) (transactionNumber i) =
  view_recv e (find_transaction s (PeerId i) (transactionNumber i)) i.
Proof.
  intros Hp. unfold handleTransaction, view_recv. destruct (body i) as [t| | | | | | | | | |] eqn:Eb.
  2-11: destruct (find_transaction s (PeerId i) (transactionNumber i)) as [tr|] eqn:E; cbn [snd fmap option_fmap option_map];
    [by rewrite find_set_transaction, decide_True|by rewrite E].
  unfold locked_processTransac. destruct (has (transactFlag t) (Z.lor _ _)) eqn:Ef; cbn [orb].
  - assert (Hq : (PeerId i, transactionNumber i) <> (mOwnId s, transactionNumber i)) by congruence.
    destruct (find_transaction s (mOwnId s) (transactionNumber i)) as [tr|] eqn:E; repeat case_match; simplify_eq/=;
      rewrite ?find_set_transaction, ?decide_False by congruence; done.
  - rewrite has_lor in Ef. apply orb_false_iff in Ef as [E1 E2]. rewrite E1, E2.
    destruct (has (transactFlag t) FLAG_BEGIN_P1) eqn:Ep; cbn [negb orb]; [|done].
    destruct (find_transaction s (PeerId i) (transactionNumber i)) as [tr|] eqn:E; cbn [snd]; [done|].
    by rewrite find_set_transaction, decide_True.
Qed.

(** The own transaction of that number: the items of friends do not get into it. *)
Lemma handleTransaction_outgoing e s i : PeerId i <> mOwnId s -> is_Some (find_transaction s (mOwnId s) (transactionNumber i)) ->
  find_transaction (handleTransaction e s i).2 (mOwnId s) (transactionNumber i) =
  match body i with
  | TransacItem t => view_confirm (find_transaction s (mOwnId s) (transactionNumber i)) (transactFlag t)
  | _ => find_transaction s (mOwnId s) (transactionNumber i)
  end.
Proof.
  intros Hp [tr Htr]. unfold handleTransaction. destruct (body i) as [t| | | | | | | | | |] eqn:Eb.
  2-11: destruct (find_transaction s (PeerId i) (transactionNumber i)) as [tr'|] eqn:E; cbn [snd]; [|done];
    rewrite find_set_transaction, decide_False by congruence; done.
  unfold locked_processTransac, view_confirm. rewrite has_lor, Htr.
  destruct (has (transactFlag t) FLAG_BEGIN_P2) eqn:E2, (has (transactFlag t) FLAG_END_SUCCESS) eqn:E3; cbn [orb];
    destruct (has (transactFlag t) FLAG_BEGIN_P1) eqn:E1; rewrite ?Htr; cbn [snd fmap option_fmap option_map];
    rewrite ?find_set_transaction, ?decide_True by done; try done.
  - destruct (find_transaction s (PeerId i) (transactionNumber i)); cbn [snd]; [done|].
    by rewrite find_set_transaction, decide_False by congruence.
Qed.

(** ** Processing *)

Lemma map_find_fmap {V W} (f : Z -> V -> W) (m : list (Z * V)) k :
  map_find ((fun kv => (kv.1, f kv.1 kv.2)) <$> m) k = f k <$> map_find m k.
Proof.
  induction m as [|[k' v] m IH]; [done|]. cbn. destruct (decide (key_eqv k k')) as [E|]; [|done].
  apply Z_key_eqv in E. by subst.
Qed.

Lemma map_sorted_fmap {V W} (f : Z * V -> Z * W) (m : list (Z * V)) : (forall kv, (f kv).1 = kv.1) -> map_sorted m -> map_sorted (f <$> m).
Proof.
  intros Hf. induction m as [|kv m IH]; intros Hs; [constructor|]. apply StronglySorted_inv in Hs as [Hs Hall]. cbn. constructor; [by apply IH|].
  apply Forall_fmap. eapply Forall_impl; [exact Hall|]. intros x. cbn. by rewrite !Hf.
Qed.

Lemma map_find_erase_all {V} (l : list Z) : forall (m : list (Z * V)) k, map_sorted m ->
  map_find (foldl map_erase m l) k = if decide (k ∈ l) then None else map_find m k.
Proof.
  induction l as [|x l IH]; intros m k Hs; cbn; [done|]. rewrite IH by eauto with stdmap. rewrite map_find_erase by done.
  destruct (decide (k ∈ x :: l)) as [Hin|Hin]; rewrite elem_of_cons in Hin.
  - destruct (decide (k ∈ l)); [done|]. rewrite decide_True; [done|]. destruct Hin; [done|contradiction].
  - rewrite !decide_False; [done| |]; intros H; apply Hin; [by left|by right].
Qed.

Lemma map_sorted_erase_all {V} (l : list Z) (m : list (Z * V)) : map_sorted m -> map_sorted (foldl map_erase m l).
Proof. apply map_sorted_foldl. eauto with stdmap. Qed.

Lemma elem_of_erase_all {V} (l : list Z) : forall (m : list (Z * V)) x, x ∈ foldl map_erase m l -> x ∈ m.
Proof. induction l as [|k l IH]; intros m x; cbn; [done|]. intros H%IH. by eapply elem_of_map_erase. Qed.

(** What a turn does to a transaction. *)
Definition view_tick (e : nxs_env) (s : RsGxsNetService) (p n : Z) (v : option NxsTransaction) : option NxsTransaction :=
  tr ← v; let '(tr', done, _) := step_transaction e s p n tr in if done is Some _ then None else Some tr'.

(** A transaction is done with under its number. *)
Lemma step_transaction_done e s p n tr : t_transactionNumber tr = n ->
  t_transactionNumber (step_transaction e s p n tr).1.1 = n /\ forall k, (step_transaction e s p n tr).1.2 = Some k -> k = n.
Proof.
  intros <-. unfold step_transaction, step_outgoing, step_incoming, processTransactionForDecryption.
  repeat case_match; simplify_eq/=; (split; [done|intros k Hk; simplify_eq/=; done]).
Qed.

Lemma step_peer_ok e s p m : transMap_ok m -> transMap_ok (step_peer e s p m).1.1 /\
  forall n, map_find (step_peer e s p m).1.1 n = view_tick e s p n (map_find m n).
Proof.
  intros [Hs Hn]. unfold step_peer. cbn [fst].
  set (steps := (fun kt => (kt.1, step_transaction e s p kt.1 kt.2)) <$> m).
  set (m' := (fun x => (x.1, x.2.1.1)) <$> steps). set (gone := omap (fun x => x.2.1.2) steps).
  assert (Em : m' = (fun kt => (kt.1, (step_transaction e s p kt.1 kt.2).1.1)) <$> m) by (subst m' steps; by rewrite <- list_fmap_compose).
  assert (Hs' : map_sorted m') by (rewrite Em; by apply map_sorted_fmap).
  assert (Hgone : forall n, n ∈ gone <-> exists tr, (n, tr) ∈ m /\ is_Some (step_transaction e s p n tr).1.2).
  { intros n. subst gone steps. rewrite list_elem_of_omap. split.
    - intros (x & Hx & E). apply list_elem_of_fmap in Hx as ([k tr] & -> & Hin). cbn in E.
      assert (n = k) as -> by (by eapply step_transaction_done; [apply Hn|]). exists tr. split; [done|]. by rewrite E.
    - intros (tr & Hin & [k E]). exists (n, step_transaction e s p n tr). split.
      + apply list_elem_of_fmap. by exists (n, tr).
      + cbn. rewrite E. f_equal. by eapply step_transaction_done; [apply Hn|]. }
  split; [split|].
  - by apply map_sorted_erase_all.
  - intros n tr Hin. apply elem_of_erase_all in Hin. rewrite Em in Hin. apply list_elem_of_fmap in Hin as ([k t] & [= -> ->] & Hin). cbn.
    by apply step_transaction_done, Hn.
  - intros n. rewrite map_find_erase_all by done. rewrite Em, (map_find_fmap (fun k t => (step_transaction e s p k t).1.1)).
    unfold view_tick. destruct (map_find m n) as [tr|] eqn:E; cbn.
    + apply map_find_In in E; [|done]. destruct (step_transaction e s p n tr) as [[tr' d] o] eqn:Es. cbn.
      destruct d as [k|].
      * rewrite decide_True; [done|]. apply Hgone. exists tr. rewrite Es. split; [done|]. by exists k.
      * rewrite decide_False; [done|]. intros (tr2 & Hin & [k Hk])%Hgone.
        apply map_find_In in Hin; [|done]. apply map_find_In in E; [|done]. assert (tr2 = tr) as -> by congruence. by rewrite Es in Hk.
    + by destruct (decide _).
Qed.

Lemma processTransactions_ok e s : trans_ok s -> trans_ok (processTransactions e s).1.
Proof.
  intros [Hs Hp]. unfold trans_ok. cbn. rewrite <- list_fmap_compose. split.
  - by apply map_sorted_fmap.
  - intros p m Hin. apply list_elem_of_fmap in Hin as ([p' m'] & [= -> ->] & Hin). cbn. apply step_peer_ok. by eapply Hp.
Qed.

Lemma processTransactions_view e s p n : trans_ok s ->
  find_transaction (processTransactions e s).1 p n = view_tick e s p n (find_transaction s p n).
Proof.
  intros Hok. rewrite !find_transaction_at. unfold map_at. cbn. rewrite <- list_fmap_compose.
  unfold compose. cbn. rewrite (map_find_fmap (fun p m => (step_peer e s p m).1.1)).
  destruct (map_find (mTransactions s) p) as [m|] eqn:E; [|done]. cbn.
  destruct Hok as [Hs Hp]. apply map_find_In in E; [|done]. by apply step_peer_ok, (Hp p).
Qed.

Lemma elem_of_concat {A} (x : A) (ls : list (list A)) : x ∈ concat ls <-> exists l, l ∈ ls /\ x ∈ l.
Proof.
  induction ls as [|l ls IH]; cbn.
  - split; [intros H; by apply not_elem_of_nil in H|]. intros (l & H & _). by apply not_elem_of_nil in H.
  - rewrite elem_of_app, IH. split.
    + intros [H|(l' & H & Hx)]; [exists l; by split; [left|]|exists l'; by split; [right|]].
    + intros (l' & [->|H]%elem_of_cons & Hx); [by left|]. right. by exists l'.
Qed.

(** What a finished transaction, and what is sent, look like among the others. *)
Lemma processTransactions_compl e s p n tr : trans_ok s -> find_transaction s p n = Some tr ->
  is_Some (step_transaction e s p n tr).1.2 -> (step_transaction e s p n tr).1.1 ∈ mComplTransactions (processTransactions e s).1.
Proof.
  intros [Hs Hp] Hf [k Hk]. rewrite find_transaction_at in Hf. unfold map_at in Hf.
  destruct (map_find (mTransactions s) p) as [m|] eqn:E; [|done]. cbn in Hf. apply map_find_In in E; [|done].
  apply map_find_In in Hf; [|by apply (Hp p)]. cbn. apply elem_of_app. right. apply elem_of_concat.
  eexists. split; [apply list_elem_of_fmap; exists (p, step_peer e s p m); split; [reflexivity|];
    apply list_elem_of_fmap; by exists (p, m)|].
  cbn. apply list_elem_of_omap. exists (n, step_transaction e s p n tr). split; [apply list_elem_of_fmap; by exists (n, tr)|].
  cbn. by rewrite Hk.
Qed.

Lemma processTransactions_sends e s p n tr o : trans_ok s -> find_transaction s p n = Some tr ->
  o ∈ (step_transaction e s p n tr).2 -> o ∈ (processTransactions e s).2.
Proof.
  intros [Hs Hp] Hf Ho. rewrite find_transaction_at in Hf. unfold map_at in Hf.
  destruct (map_find (mTransactions s) p) as [m|] eqn:E; [|done]. cbn in Hf. apply map_find_In in E; [|done].
  apply map_find_In in Hf; [|by apply (Hp p)]. cbn. apply elem_of_concat.
  eexists. split; [apply list_elem_of_fmap; exists (p, step_peer e s p m); split; [reflexivity|];
    apply list_elem_of_fmap; by exists (p, m)|].
  cbn. apply elem_of_concat. eexists. split; [|exact Ho]. apply list_elem_of_fmap. exists (n, step_transaction e s p n tr).
  split; [done|]. apply list_elem_of_fmap. by exists (n, tr).
Qed.
