(* ===== verification/NxsRun.v ===== *)
(** * Runs: what becomes of a transaction, and of a message

    A run is a sequence of turns of the two threads of a service, with what each receives.  Whatever else happens in a run, a
    transaction of a friend is what its own items and turns make of it, and so is an own transaction.  From this: the items
    of a transaction arrive, in order and complete, in runs that return; [NxsLive] shows when they do. *)

From S2P Require Import Prelude StdMap Nxs NxsTrans NxsSync NxsViews.
From Stdlib Require Import ZArith Lia.
From stdpp Require Import base list.
Open Scope Z_scope.

Inductive nxs_event := Tick (e : nxs_env) (i : nxs_incoming) | ThreadTick (e : nxs_env) (fuel : nat).

Definition run_event (s : RsGxsNetService) (ev : nxs_event) : option (RsGxsNetService * list nxs_out) :=
  match ev with Tick e i => tick e s i | ThreadTick e fuel => threadTick e fuel s end.

Fixpoint run_events (s : RsGxsNetService) (evs : list nxs_event) : option (RsGxsNetService * list nxs_out) :=
  match evs with
  | [] => Some (s, [])
  | ev :: evs => '(s, out1) ← run_event s ev; '(s, out2) ← run_events s evs; Some (s, out1 ++ out2)
  end.

(** ** One event *)

(** What a turn receives, from the friends and then from the tunnels. *)
Definition heard (s : RsGxsNetService) (e : nxs_env) (i : nxs_incoming) : list RsNxsItem := queue i ++ default [] (tunnel_items e s (tunnel i)).

Definition incoming_turn (e : nxs_env) (tr : NxsTransaction) : option NxsTransaction :=
  let flag := u16 (mFlag tr) in
  if locked_checkTransacTimedOut e tr then None
  else if has flag FLAG_STATE_RECEIVING then
    Some (if Z.of_nat (length (mItems tr)) =? nItems (mTransaction tr) then tr <| mFlag := FLAG_STATE_COMPLETED |> else tr)
  else if has flag FLAG_STATE_COMPLETED then None
  else if has flag FLAG_STATE_STARTING then Some (tr <| mFlag := FLAG_STATE_RECEIVING |>)
  else None.

Definition outgoing_turn (e : nxs_env) (tr : NxsTransaction) : option NxsTransaction :=
  let flag := u16 (mFlag tr) in
  if locked_checkTransacTimedOut e tr then None
  else if has flag FLAG_STATE_SENDING then Some (tr <| mItems := [] |> <| mFlag := FLAG_STATE_WAITING_CONFIRM |>)
  else if has flag FLAG_STATE_WAITING_CONFIRM then Some tr
  else None.

Definition of_transaction (p n : Z) (l : list RsNxsItem) : list RsNxsItem := filter (fun i => PeerId i = p /\ transactionNumber i = n) l.

Definition incoming_event (s : RsGxsNetService) (p n : Z) (v : option NxsTransaction) (ev : nxs_event) : option NxsTransaction :=
  match ev with
  | Tick e i => foldl (view_recv e) v (of_transaction p n (heard s e i))
  | ThreadTick e _ => v ≫= incoming_turn e
  end.

(** What the confirmations of a number say, in order. *)
Definition confirmations (n : Z) (l : list RsNxsItem) : list Z :=
  omap (fun i => if decide (transactionNumber i = n) then if body i is TransacItem t then Some (transactFlag t) else None else None) l.

Definition outgoing_event (s : RsGxsNetService) (n : Z) (v : option NxsTransaction) (ev : nxs_event) : option NxsTransaction :=
  match ev with
  | Tick e i => foldl view_confirm v (confirmations n (heard s e i))
  | ThreadTick e _ => v ≫= outgoing_turn e
  end.

(** ** Receiving *)

(** Outside of transactions, [grows]. *)
Lemma recv_item_grows e s i : transactionNumber i = 0 -> grows s (recv_item e s i).1.
Proof.
  intros Hn. unfold recv_item. rewrite Hn. cbn [Z.eqb negb].
  assert (Hh : forall p b enc, grows s (handle_item e s p b enc).1).
  { intros p b enc. destruct (handle_item e s p b enc) as [t o] eqn:E. by apply handle_item_grows in E. }
  destruct (body i); try apply Hh. destruct (decryptSingleNxsItem _ _ _); [apply Hh|done].
Qed.

Lemma recv_item_numbered e s i : transactionNumber i <> 0 -> recv_item e s i = ((handleTransaction e s i).2, []).
Proof. intros Hn. unfold recv_item. apply Z.eqb_neq in Hn. by rewrite Hn. Qed.

Lemma recv_item_same e s i : mOwnId (recv_item e s i).1 = mOwnId s /\ mSyncFlags (recv_item e s i).1 = mSyncFlags s /\
  (trans_ok s -> trans_ok (recv_item e s i).1).
Proof.
  destruct (decide (transactionNumber i = 0)) as [Hn|Hn].
  - pose proof (recv_item_grows e s i Hn) as H.
    split; [apply (grows_own _ _ H)|]. split; [apply (grows_flags _ _ H)|apply (grows_ok _ _ H)].
  - rewrite recv_item_numbered by done. cbn [fst]. destruct (handleTransaction_same e s i) as [E1 E2].
    split; [done|]. split; [done|apply handleTransaction_ok].
Qed.

Lemma recv_item_incoming e s i p n : p <> mOwnId s -> n <> 0 ->
  find_transaction (recv_item e s i).1 p n =
  if decide (PeerId i = p /\ transactionNumber i = n) then view_recv e (find_transaction s p n) i else find_transaction s p n.
Proof.
  intros Hp Hn. destruct (decide (PeerId i = p /\ transactionNumber i = n)) as [[<- <-]|Hne].
  - rewrite recv_item_numbered by done. by apply handleTransaction_incoming.
  - destruct (decide (transactionNumber i = 0)) as [H0|H0].
    + apply (grows_friends _ _ (recv_item_grows e s i H0)). done.
    + rewrite recv_item_numbered by done. apply handleTransaction_other.
      destruct (decide (n = transactionNumber i)); [|by left]. right. split; [|done]. intros ->. by apply Hne.
Qed.

Lemma recv_item_outgoing e s i n tr : PeerId i <> mOwnId s -> n <> 0 -> find_transaction s (mOwnId s) n = Some tr ->
  find_transaction (recv_item e s i).1 (mOwnId s) n =
  if decide (transactionNumber i = n)
  then match body i with TransacItem t => view_confirm (Some tr) (transactFlag t) | _ => Some tr end
  else Some tr.
Proof.
  intros Hp Hn Htr. destruct (decide (transactionNumber i = n)) as [<-|Hne].
  - rewrite recv_item_numbered by done. rewrite <- Htr. apply handleTransaction_outgoing; [done|]. by rewrite Htr.
  - destruct (decide (transactionNumber i = 0)) as [H0|H0].
    + by apply (grows_keeps _ _ (recv_item_grows e s i H0)).
    + rewrite recv_item_numbered by done. rewrite <- Htr. apply handleTransaction_other. left. congruence.
Qed.

Lemma recv_all_cons e s i l : (recv_all e s (i :: l)).1 = (recv_all e (recv_item e s i).1 l).1.
Proof.
  unfold recv_all. cbn. destruct (recv_item e s i) as [t o]. cbn.
  assert (H : forall l s o o', (foldl (fun '(s, out) i => let '(s, out') := recv_item e s i in (s, out ++ out')) (s, o) l).1 =
                          (foldl (fun '(s, out) i => let '(s, out') := recv_item e s i in (s, out ++ out')) (s, o') l).1).
  { clear. intros l. induction l as [|i l IH]; intros s o o'; [done|]. cbn. destruct (recv_item e s i). apply IH. }
  apply H.
Qed.

Lemma recv_all_same e l : forall s, mOwnId (recv_all e s l).1 = mOwnId s /\ mSyncFlags (recv_all e s l).1 = mSyncFlags s /\
  (trans_ok s -> trans_ok (recv_all e s l).1).
Proof.
  induction l as [|i l IH]; intros s; [done|]. rewrite recv_all_cons. destruct (recv_item_same e s i) as (E1 & E2 & H).
  destruct (IH (recv_item e s i).1) as (-> & -> & H'). split; [done|]. split; [done|]. by auto.
Qed.

Lemma recv_all_incoming e l p n : n <> 0 -> forall s, p <> mOwnId s ->
  find_transaction (recv_all e s l).1 p n = foldl (view_recv e) (find_transaction s p n) (of_transaction p n l).
Proof.
  intros Hn. induction l as [|i l IH]; intros s Hp; [done|]. rewrite recv_all_cons, IH.
  - rewrite recv_item_incoming by done. unfold of_transaction. rewrite filter_cons. by destruct (decide _).
  - destruct (recv_item_same e s i) as (-> & _). done.
Qed.

Lemma recv_all_outgoing e l n : n <> 0 -> forall s, Forall (fun i => PeerId i <> mOwnId s) l ->
  is_Some (find_transaction s (mOwnId s) n) ->
  find_transaction (recv_all e s l).1 (mOwnId s) n = foldl view_confirm (find_transaction s (mOwnId s) n) (confirmations n l).
Proof.
  intros Hn. induction l as [|i l IH]; intros s Hl [tr Htr]; [done|]. apply Forall_cons in Hl as [Hi Hl].
  destruct (recv_item_same e s i) as (E1 & _). rewrite recv_all_cons, <- E1.
  pose proof (recv_item_outgoing e s i n tr Hi Hn Htr) as Hr. rewrite IH; rewrite ?E1, ?Hr.
  - rewrite Htr. unfold confirmations. cbn [omap list_omap]. by destruct (decide _), (body i).
  - done.
  - destruct (decide _), (body i); try (by eexists). unfold view_confirm. repeat case_match; by eexists.
Qed.

(** ** Turns *)

Lemma incoming_turn_view e s p n tr : p <> mOwnId s -> view_tick e s p n (Some tr) = incoming_turn e tr.
Proof.
  intros Hp. unfold view_tick, step_transaction, step_incoming, incoming_turn, processTransactionForDecryption.
  apply Z.eqb_neq in Hp. rewrite Hp. cbn. destruct (locked_checkTransacTimedOut e tr); [done|].
  destruct (has _ FLAG_STATE_RECEIVING); [done|]. destruct (has _ FLAG_STATE_COMPLETED); [done|].
  by destruct (has _ FLAG_STATE_STARTING).
Qed.

Lemma outgoing_turn_view e s n tr : view_tick e s (mOwnId s) n (Some tr) = outgoing_turn e tr.
Proof.
  unfold view_tick, step_transaction, step_outgoing, outgoing_turn. rewrite Z.eqb_refl. cbn.
  destruct (locked_checkTransacTimedOut e tr); [done|]. destruct (has _ FLAG_STATE_SENDING); [done|].
  destruct (has _ FLAG_STATE_WAITING_CONFIRM); [done|]. by destruct (has _ FLAG_STATE_COMPLETED).
Qed.

(** A turn of the worker: [processTransactions], then the finished transactions one after the other; around them, [grows]. *)
Lemma threadTick_parts e fuel s s' out : threadTick e fuel s = Some (s', out) ->
  exists s1 s3 out2 rest, grows s s1 /\ grows s3 s' /\ out = (processTransactions e s1).2 ++ rest /\
    complete_all e fuel (mComplTransactions (processTransactions e s1).1) (processTransactions e s1).1 = Some (s3, out2).
Proof.
  unfold threadTick. set (s1 := if 120 <=? mUpdateCounter s then _ else _).
  assert (H1 : grows s s1).
  { subst s1. pose proof (updateServerSyncTS_grows e s) as H. destruct (120 <=? mUpdateCounter s); grows_chain. }
  clearbody s1. destruct (processTransactions e s1) as [s2 out1] eqn:E2. unfold processCompletedTransactions.
  destruct (complete_all e fuel (mComplTransactions s2) s2) as [[s3 out2]|] eqn:E3; [|done]. cbn -[runVetting processTransactions].
  match goal with |- context [runVetting e fuel ?t] => set (s3' := t) end.
  assert (H3 : grows s3 s3') by (apply grows_same; reflexivity).
  destruct (runVetting e fuel s3') as [[s4 out3]|] eqn:E4; [|done]. apply runVetting_grows in E4.
  cbn -[processExplicitGroupRequests processTransactions]. destruct (processExplicitGroupRequests e s4) as [s5 out4] eqn:E5.
  apply processExplicitGroupRequests_grows in E5. intros [= <- <-]. exists s1, s3, out2, (out2 ++ out3 ++ out4). rewrite E2.
  split; [done|]. split; [|done]. transitivity s3'; [done|]. by transitivity s4.
Qed.

(** [processTransactions] once, and [grows] before and after it. *)
Lemma threadTick_split e fuel s s' out : threadTick e fuel s = Some (s', out) ->
  exists s1, grows s s1 /\ grows (processTransactions e s1).1 s'.
Proof.
  intros (s1 & s3 & out2 & rest & G1 & G3 & _ & E)%threadTick_parts. exists s1. split; [done|].
  apply complete_all_grows in E. by etransitivity.
Qed.

Lemma find_transaction_same s s' p n : same_trans s s' -> find_transaction s' p n = find_transaction s p n.
Proof. intros (E & _). by rewrite !find_transaction_at, E. Qed.

(** What the main thread receives in a turn that does not crash. *)
Lemma tick_recv e s i s' out : tick e s i = Some (s', out) ->
  exists s2, same_trans (recv_all e s (heard s e i)).1 s2 /\ grows s2 s'.
Proof.
  intros H. destruct (recvNxsItemQueue e s i) as [[s1 out1]|] eqn:E; [|unfold tick in H; by rewrite E in H].
  destruct (tick_grows _ _ _ _ _ _ _ E H) as (s2 & Hs & G). exists s2. split; [|done]. unfold recvNxsItemQueue in E. unfold heard.
  destruct (tunnel_items _ _ _) as [l|]; [|done]. injection E as E. change (default [] (Some l)) with l. by rewrite E.
Qed.

Lemma run_event_same s ev s' out : run_event s ev = Some (s', out) ->
  mOwnId s' = mOwnId s /\ mSyncFlags s' = mSyncFlags s /\ (trans_ok s -> trans_ok s').
Proof.
  destruct ev as [e i|e fuel]; cbn.
  - intros (s2 & (E1 & E2 & E3) & G)%tick_recv. destruct (recv_all_same e (heard s e i) s) as (R1 & R2 & R3).
    split; [|split]; [rewrite (grows_own _ _ G)|rewrite (grows_flags _ _ G)|intros Hok; apply (grows_ok _ _ G)]; try congruence.
    eapply trans_ok_same; [exact E1|auto].
  - intros (s1 & G1 & G2)%threadTick_split. split; [|split].
    + rewrite (grows_own _ _ G2). apply (grows_own _ _ G1).
    + rewrite (grows_flags _ _ G2). apply (grows_flags _ _ G1).
    + intros Hok. apply (grows_ok _ _ G2), processTransactions_ok, (grows_ok _ _ G1), Hok.
Qed.

Lemma heard_same s s' e i : mSyncFlags s' = mSyncFlags s -> heard s' e i = heard s e i.
Proof. unfold heard, tunnel_items. by intros ->. Qed.

Lemma incoming_event_same s s' p n v ev : mSyncFlags s' = mSyncFlags s -> incoming_event s' p n v ev = incoming_event s p n v ev.
Proof. intros E. destruct ev; cbn; [|done]. by rewrite (heard_same _ _ _ _ E). Qed.

Lemma outgoing_event_same s s' n v ev : mSyncFlags s' = mSyncFlags s -> outgoing_event s' n v ev = outgoing_event s n v ev.
Proof. intros E. destruct ev; cbn; [|done]. by rewrite (heard_same _ _ _ _ E). Qed.

Lemma run_event_incoming s ev s' out p n : trans_ok s -> p <> mOwnId s -> n <> 0 -> run_event s ev = Some (s', out) ->
  find_transaction s' p n = incoming_event s p n (find_transaction s p n) ev.
Proof.
  intros Hok Hp Hn. destruct ev as [e i|e fuel]; cbn.
  - intros (s2 & Hs & G)%tick_recv. destruct (recv_all_same e (heard s e i) s) as (R1 & _).
    rewrite (grows_friends _ _ G) by (destruct Hs as (_ & -> & _); congruence).
    rewrite (find_transaction_same _ _ _ _ Hs). by apply recv_all_incoming.
  - intros (s1 & G1 & G2)%threadTick_split. rewrite (grows_friends _ _ G2) by (cbn; by rewrite (grows_own _ _ G1)).
    rewrite processTransactions_view by by apply (grows_ok _ _ G1). rewrite (grows_friends _ _ G1) by done.
    destruct (find_transaction s p n) as [tr|]; [|done]. cbn [mbind option_bind].
    by rewrite incoming_turn_view by (by rewrite (grows_own _ _ G1)).
Qed.

Lemma run_event_outgoing s ev s' out n tr tr' : trans_ok s -> n <> 0 ->
  (forall e i, ev = Tick e i -> Forall (fun i => PeerId i <> mOwnId s) (heard s e i)) ->
  run_event s ev = Some (s', out) -> find_transaction s (mOwnId s) n = Some tr -> outgoing_event s n (Some tr) ev = Some tr' ->
  find_transaction s' (mOwnId s) n = Some tr'.
Proof.
  intros Hok Hn Hown. destruct ev as [e i|e fuel]; cbn.
  - intros (s2 & Hs & G)%tick_recv Htr Htr'. apply (grows_keeps _ _ G). rewrite (find_transaction_same _ _ _ _ Hs).
    rewrite <- Htr' , <- Htr. apply recv_all_outgoing; [done|by apply Hown|]. by rewrite Htr.
  - intros (s1 & G1 & G2)%threadTick_split Htr Htr'. apply (grows_keeps _ _ G2).
    rewrite processTransactions_view by by apply (grows_ok _ _ G1). rewrite (grows_keeps _ _ G1 _ _ _ Htr).
    rewrite <- (grows_own _ _ G1) , outgoing_turn_view. done.
Qed.

(** ** Runs *)

Lemma nxs_events_app evs1 : forall s evs2, run_events s (evs1 ++ evs2) =
  '(s, out1) ← run_events s evs1; '(s, out2) ← run_events s evs2; Some (s, out1 ++ out2).
Proof.
  induction evs1 as [|ev evs1 IH]; intros s evs2; cbn.
  - by destruct (run_events s evs2) as [[t o]|].
  - destruct (run_event s ev) as [[s1 o1]|]; [|done]. cbn. rewrite IH. destruct (run_events s1 evs1) as [[s2 o2]|]; [|done]. cbn.
    destruct (run_events s2 evs2) as [[s3 o3]|]; [|done]. cbn. by rewrite app_assoc.
Qed.

Lemma run_events_cons ev evs s s' out : run_events s (ev :: evs) = Some (s', out) ->
  exists s1 out1 out2, run_event s ev = Some (s1, out1) /\ run_events s1 evs = Some (s', out2) /\ out = out1 ++ out2.
Proof.
  cbn. destruct (run_event s ev) as [[s1 out1]|]; [|done]. cbn. destruct (run_events s1 evs) as [[s2 out2]|] eqn:E; [|done].
  intros [= <- <-]. by exists s1, out1, out2.
Qed.

Lemma run_events_split evs1 evs2 s s' out : run_events s (evs1 ++ evs2) = Some (s', out) ->
  exists s1 out1 out2, run_events s evs1 = Some (s1, out1) /\ run_events s1 evs2 = Some (s', out2) /\ out = out1 ++ out2.
Proof.
  rewrite nxs_events_app. destruct (run_events s evs1) as [[s1 out1]|]; [|done]. cbn.
  destruct (run_events s1 evs2) as [[s2 out2]|] eqn:E; [|done]. intros [= <- <-]. by exists s1, out1, out2.
Qed.

Lemma run_events_same evs : forall s s' out, run_events s evs = Some (s', out) ->
  mOwnId s' = mOwnId s /\ mSyncFlags s' = mSyncFlags s /\ (trans_ok s -> trans_ok s').
Proof.
  induction evs as [|ev evs IH]; intros s s' out H; [injection H as <- _; done|].
  apply run_events_cons in H as (s1 & out1 & out2 & H1 & H2 & _). apply run_event_same in H1 as (E1 & E2 & O1).
  apply IH in H2 as (E3 & E4 & O2). split; [congruence|]. split; [congruence|auto].
Qed.

(** A run on the transaction of a friend. *)
Lemma run_events_incoming evs p n : n <> 0 -> forall s s' out, trans_ok s -> p <> mOwnId s -> run_events s evs = Some (s', out) ->
  find_transaction s' p n = foldl (incoming_event s p n) (find_transaction s p n) evs.
Proof.
  intros Hn. induction evs as [|ev evs IH]; intros s s' out Hok Hp H; [injection H as <- _; done|].
  apply run_events_cons in H as (s1 & out1 & out2 & H1 & H2 & _). pose proof (run_event_same _ _ _ _ H1) as (E1 & E2 & O1).
  rewrite (IH s1 s' out2) by (auto; congruence). cbn. rewrite (run_event_incoming _ _ _ _ _ _ Hok Hp Hn H1).
  clear -E2. generalize (incoming_event s p n (find_transaction s p n) ev). induction evs as [|ev' evs IH]; intros v; [done|].
  cbn. by rewrite (incoming_event_same _ _ _ _ _ _ E2), IH.
Qed.

(** A run on an own transaction, for as long as it lasts. *)
Fixpoint outgoing_run (s : RsGxsNetService) (n : Z) (tr : NxsTransaction) (evs : list nxs_event) : option NxsTransaction :=
  match evs with [] => Some tr | ev :: evs => tr ← outgoing_event s n (Some tr) ev; outgoing_run s n tr evs end.

Definition no_own_items (s : RsGxsNetService) (evs : list nxs_event) : Prop :=
  forall e i, Tick e i ∈ evs -> Forall (fun i => PeerId i <> mOwnId s) (heard s e i).

Lemma run_events_outgoing evs n : n <> 0 -> forall s s' out tr tr', trans_ok s -> no_own_items s evs ->
  run_events s evs = Some (s', out) -> find_transaction s (mOwnId s) n = Some tr -> outgoing_run s n tr evs = Some tr' ->
  find_transaction s' (mOwnId s) n = Some tr'.
Proof.
  intros Hn. induction evs as [|ev evs IH]; intros s s' out tr tr' Hok Hown H Htr Ho.
  - injection H as <- _. cbn in Ho. congruence.
  - apply run_events_cons in H as (s1 & out1 & out2 & H1 & H2 & _). pose proof (run_event_same _ _ _ _ H1) as (E1 & E2 & O1).
    cbn [outgoing_run] in Ho. destruct (outgoing_event s n (Some tr) ev) as [tr1|] eqn:Et; [|done]. cbn in Ho.
    rewrite <- E1. eapply (IH s1 s' out2 tr1 tr'); [auto| |done| |].
    + intros e i Hin. rewrite (heard_same _ _ _ _ E2), E1. apply Hown. by right.
    + rewrite E1. eapply run_event_outgoing; [done|done| |done|done|done]. intros e i ->. apply Hown. by left.
    + rewrite <- Ho. clear -E2. revert tr1. induction evs as [|ev' evs IH]; intros tr1; [done|]. cbn.
      rewrite (outgoing_event_same _ _ _ _ _ E2). destruct (outgoing_event s n (Some tr1) ev'); [|done]. apply IH.
Qed.

(** C10 Transactions do not interfere: in a run of both threads with whatever items from friends and tunnels, requests and configuration
    in between, the maps stay in order with every transaction filed under its number, and a transaction of a friend ends up as
    what the items of that friend with its number, and the turns of the worker, make of it, while an own transaction ends up
    as what the confirmations of its number make of it. *)
Theorem transactions_independent (evs : list nxs_event) (s s' : RsGxsNetService) (out : list nxs_out) :
  trans_ok s -> run_events s evs = Some (s', out) ->
  trans_ok s' /\
  (forall p n, p <> mOwnId s -> n <> 0 -> find_transaction s' p n = foldl (incoming_event s p n) (find_transaction s p n) evs) /\
  (forall n tr tr', n <> 0 -> no_own_items s evs -> find_transaction s (mOwnId s) n = Some tr -> outgoing_run s n tr evs = Some tr' ->
    find_transaction s' (mOwnId s) n = Some tr').
Proof.
  intros Hok H. split; [|split].
  - by apply (run_events_same _ _ _ _ H).
  - intros p n Hp Hn. by eapply run_events_incoming.
  - intros n tr tr' Hn Hown Htr Ho. by eapply run_events_outgoing.
Qed.

(** ** The items of a transaction arrive *)

Definition items_of (s : RsGxsNetService) (p n : Z) (evs : list nxs_event) : list RsNxsItem :=
  concat ((fun ev => match ev with Tick e i => of_transaction p n (heard s e i) | ThreadTick _ _ => [] end) <$> evs).

(** The worker's turns are before [limit]. *)
Definition in_time (limit : Z) (evs : list nxs_event) : Prop := forall e fuel, ThreadTick e fuel ∈ evs -> u32 (now e) <= limit.

Definition plain (i : RsNxsItem) : Prop := if body i is TransacItem _ then False else True.

Lemma view_recv_plain e l : Forall plain l -> forall tr, foldl (view_recv e) (Some tr) l = Some (tr <| mItems := mItems tr ++ l |>).
Proof.
  induction 1 as [|i l Hi Hl IH]; intros tr; cbn [foldl].
  - destruct tr. cbn. by rewrite app_nil_r.
  - assert (E : view_recv e (Some tr) i = Some (tr <| mItems := mItems tr ++ [i] |>)) by (unfold view_recv, plain in *; by destruct (body i)).
    rewrite E, IH. cbn. by rewrite <- app_assoc.
Qed.

Lemma items_of_cons s p n ev evs : items_of s p n (ev :: evs) =
  (match ev with Tick e i => of_transaction p n (heard s e i) | ThreadTick _ _ => [] end) ++ items_of s p n evs.
Proof. done. Qed.

(** While items are missing, turns leave the transaction alone. *)
Lemma receiving_prefix s p n evs2 evs : Forall plain (items_of s p n (evs ++ evs2)) ->
  (forall evs1 e fuel evs3, evs ++ evs2 = evs1 ++ ThreadTick e fuel :: evs3 -> items_of s p n evs3 <> []) ->
  forall tr, u16 (mFlag tr) = FLAG_STATE_RECEIVING -> in_time (mTimeOut tr) evs ->
  Z.of_nat (length (mItems tr)) + Z.of_nat (length (items_of s p n (evs ++ evs2))) = nItems (mTransaction tr) ->
  foldl (incoming_event s p n) (Some tr) evs = Some (tr <| mItems := mItems tr ++ items_of s p n evs |>).
Proof.
  induction evs as [|ev evs IH]; intros Hpl Hb tr Hf Ht Hc.
  - destruct tr. cbn. by rewrite app_nil_r.
  - assert (Hb' : forall evs1 e fuel evs3, evs ++ evs2 = evs1 ++ ThreadTick e fuel :: evs3 -> items_of s p n evs3 <> []).
    { intros evs1 e fuel evs3 E. apply (Hb (ev :: evs1) e fuel). cbn. by rewrite E. }
    assert (Ht' : in_time (mTimeOut tr) evs) by (intros e fuel Hin; apply (Ht e fuel); by right).
    cbn [app] in *. rewrite items_of_cons in *. cbn [foldl]. destruct ev as [e i|e fuel]; cbn [incoming_event].
    + apply Forall_app in Hpl as [Hp1 Hp2]. rewrite view_recv_plain by done. rewrite length_app in Hc.
      rewrite IH; [|done|done|done|done|].
      * cbn. by rewrite <- app_assoc.
      * cbn. rewrite length_app. lia.
    + cbn [app] in *. assert (Hne : items_of s p n (evs ++ evs2) <> []) by (by apply (Hb [] e fuel)).
      assert (E : incoming_turn e tr = Some tr).
      { unfold incoming_turn, locked_checkTransacTimedOut. rewrite Hf.
        assert (Hto : (mTimeOut tr <? u32 (now e)) = false) by (apply Z.ltb_ge, (Ht e fuel); by left). rewrite Hto.
        change (has FLAG_STATE_RECEIVING FLAG_STATE_RECEIVING) with true. cbn [mbind].
        destruct (Z.eqb_spec (Z.of_nat (length (mItems tr))) (nItems (mTransaction tr))) as [E|]; [|done].
        cbn in Hc. destruct (items_of s p n (evs ++ evs2)); [done|]. cbn in Hc. lia. }
      cbn [mbind option_bind]. rewrite E. by apply IH.
Qed.

(** ** Finished transactions of messages *)

Definition msg_item (p n : Z) (m : RsNxsMsg) : RsNxsItem := mk_NxsItem p n (NxsMsg m).

Lemma take_msgs_exact p n fuel ms : forall g acc g' r,
  take_msgs fuel (msg_item p n <$> ms) g acc = Some (g', r) -> r = acc ++ (pair p <$> ms).
Proof.
  revert ms. induction fuel as [|fuel IH]; intros [|m ms] g acc g' r; cbn; try done.
  - intros [= _ <-]. by rewrite app_nil_r.
  - intros ->%IH. by rewrite <- app_assoc.
Qed.

(** The transaction, as it is when it is finished. *)
Definition finished_with (p : Z) (l : list RsNxsItem) (flag : Z) (tr : NxsTransaction) : Prop :=
  t_PeerId tr = p /\ mItems tr = l /\ has (mFlag tr) FLAG_STATE_COMPLETED = true /\ transactFlag (mTransaction tr) = flag.

Definition FLAG_ANNOUNCE_MSGS : Z := Z.lor FLAG_TYPE_MSGS FLAG_BEGIN_P1.

Definition finished_msgs (p n : Z) (ms : list RsNxsMsg) : NxsTransaction -> Prop :=
  finished_with p (msg_item p n <$> ms) FLAG_ANNOUNCE_MSGS.

Lemma finished_msgs_notified e fuel s tr s' out p n ms : finished_msgs p n ms tr ->
  locked_processCompletedIncomingTrans e fuel s tr = Some (s', out) ->
  mNewMessagesToNotify s' = mNewMessagesToNotify s ++ (pair p <$> ms).
Proof.
  intros (Ep & Ei & Ef & Et). unfold locked_processCompletedIncomingTrans. rewrite Ef, Et, Ei. cbn -[take_msgs fmap].
  destruct (take_msgs _ _ _ _) as [[g msgs]|] eqn:E; [|done]. apply take_msgs_exact in E. cbn in E. subst msgs.
  intros [= <- _]. unfold locked_doMsgUpdateWork. by destruct (ids_mem _ _).
Qed.

Lemma complete_all_notified e fuel p n ms l : forall s s' out tr, tr ∈ l -> p <> mOwnId s -> finished_msgs p n ms tr ->
  complete_all e fuel l s = Some (s', out) ->
  exists l1 l2, mNewMessagesToNotify s' = l1 ++ (pair p <$> ms) ++ l2.
Proof.
  induction l as [|tr0 l IH]; intros s s' out tr Hin Hp Hf; [by apply not_elem_of_nil in Hin|]. cbn.
  destruct (if _ =? _ then _ else _) as [[s1 out1]|] eqn:E1; [|done]. cbn.
  destruct (complete_all e fuel l s1) as [[s2 out2]|] eqn:E2; [|done]. intros [= <- _].
  assert (G : mOwnId s1 = mOwnId s).
  { destruct (_ =? _); [by injection E1 as <-|]. by apply locked_processCompletedIncomingTrans_grows, grows_own in E1. }
  apply elem_of_cons in Hin as [->|Hin].
  - rewrite (proj1 Hf) in E1. apply Z.eqb_neq in Hp. rewrite Hp in E1. apply (finished_msgs_notified _ _ _ _ _ _ _ _ _ Hf) in E1.
    apply complete_all_grows in E2. destruct (grows_msgs _ _ E2) as [l2 ->]. rewrite E1. eexists _, l2. by rewrite <- app_assoc.
  - eapply (IH s1); [exact Hin|congruence|done|exact E2].
Qed.

Definition confirmation (p n flags : Z) : RsNxsItem := mk_NxsItem p n (TransacItem (mk_Transac flags 0 0 0)).

(** The step that finishes it. *)
Lemma step_finished e s s1 p n l f tr : grows s s1 -> p <> mOwnId s -> t_transactionNumber tr = n -> finished_with p l f tr ->
  u16 (mFlag tr) = FLAG_STATE_COMPLETED -> u32 (now e) <= mTimeOut tr ->
  exists tr', step_transaction e s1 p n tr = (tr', Some n, [generic_sendItem e s (confirmation p n FLAG_END_SUCCESS)]) /\
    finished_with p (omap (decrypt_item e) l) f tr'.
Proof.
  intros G Hp Hn Hfin Hfl Ht.
  unfold step_transaction, step_incoming, processTransactionForDecryption, locked_checkTransacTimedOut.
  rewrite (grows_own _ _ G). apply Z.eqb_neq in Hp. rewrite Hp, Hfl.
  assert (Hto : (mTimeOut tr <? u32 (now e)) = false) by (apply Z.ltb_ge; done). rewrite Hto. cbn -[omap].
  eexists. split; [f_equal; f_equal|].
  - unfold generic_sendItem. by rewrite (grows_flags _ _ G), (proj1 Hfin), Hn.
  - destruct Hfin as (F1 & F2 & F3 & F4). split; [done|]. split; [|done]. cbn -[omap]. by rewrite F2.
Qed.

Lemma decrypt_msgs e p n (ms : list RsNxsMsg) : omap (decrypt_item e) (msg_item p n <$> ms) = msg_item p n <$> ms.
Proof. induction ms as [|m ms IH]; [done|]. cbn. f_equal. exact IH. Qed.

(** The turn in which it is finished. *)
Lemma threadTick_notifies e fuel s s' out p n ms tr : trans_ok s -> p <> mOwnId s -> find_transaction s p n = Some tr ->
  finished_msgs p n ms tr -> u16 (mFlag tr) = FLAG_STATE_COMPLETED -> u32 (now e) <= mTimeOut tr ->
  threadTick e fuel s = Some (s', out) ->
  (exists l1 l2, mNewMessagesToNotify s' = l1 ++ (pair p <$> ms) ++ l2) /\
  generic_sendItem e s (confirmation p n FLAG_END_SUCCESS) ∈ out.
Proof.
  intros Hok Hp Hf Hfin Hfl Ht (s1 & s3 & out2 & rest & G1 & G3 & -> & E3)%threadTick_parts.
  pose proof (grows_keeps _ _ G1 _ _ _ Hf) as Hf1. pose proof (grows_ok _ _ G1 Hok) as Hok1.
  destruct (step_finished e s s1 p n _ _ tr G1 Hp (trans_ok_number _ _ _ _ Hok Hf) Hfin Hfl Ht) as (tr' & Es & Hfin').
  rewrite decrypt_msgs in Hfin'.
  split.
  - pose proof (processTransactions_compl e s1 p n tr Hok1 Hf1) as Hc. rewrite Es in Hc. specialize (Hc ltac:(by eexists)).
    assert (Hp2 : p <> mOwnId (processTransactions e s1).1) by (cbn; by rewrite (grows_own _ _ G1)).
    apply (complete_all_notified _ _ _ _ _ _ _ _ _ _ Hc Hp2 Hfin') in E3 as (l1 & l2 & E3).
    apply grows_msgs in G3 as [k G3]. exists l1, (l2 ++ k). rewrite G3, E3. by rewrite <- !app_assoc.
  - apply elem_of_app. left. apply (processTransactions_sends e s1 p n tr); [done|done|]. rewrite Es. by left.
Qed.

(** A turn that only sends. *)
Lemma threadTick_sends e fuel s s' out p n tr o : trans_ok s -> find_transaction s p n = Some tr ->
  (forall s1, grows s s1 -> o ∈ (step_transaction e s1 p n tr).2) -> threadTick e fuel s = Some (s', out) -> o ∈ out.
Proof.
  intros Hok Hf Ho (s1 & s3 & out2 & rest & G1 & _ & -> & _)%threadTick_parts. apply elem_of_app. left.
  apply (processTransactions_sends e s1 p n tr); [by apply (grows_ok _ _ G1)|by apply (grows_keeps _ _ G1)|by apply Ho].
Qed.

(** Flags that announce a transaction. *)
Definition announces (f : Z) : Prop := has f (Z.lor FLAG_BEGIN_P2 FLAG_END_SUCCESS) = false /\ has f FLAG_BEGIN_P1 = true.

(** The transaction as it is announced, in one state or another. *)
Definition announced_trans (flag : Z) (e0 : nxs_env) (p n : Z) (t : RsNxsTransacItem) : NxsTransaction :=
  mk_NxsTransaction flag (u32 (u32 (now e0) + TRANSAC_TIMEOUT)) p n (mk_Transac (transactFlag t) (nItems t) (updateTS t) (u32 (now e0))) [].

(** The transaction is announced, and the worker says it is ready. *)
Lemma announced s s1 s2 o1 o2 p n t e0 e1 i0 f1 : trans_ok s -> p <> mOwnId s -> n <> 0 -> find_transaction s p n = None ->
  of_transaction p n (heard s e0 i0) = [mk_NxsItem p n (TransacItem t)] ->
  announces (transactFlag t) -> u32 (now e1) <= u32 (u32 (now e0) + TRANSAC_TIMEOUT) ->
  run_event s (Tick e0 i0) = Some (s1, o1) -> run_event s1 (ThreadTick e1 f1) = Some (s2, o2) ->
  (trans_ok s2 /\ mOwnId s2 = mOwnId s /\ mSyncFlags s2 = mSyncFlags s) /\
  find_transaction s2 p n = Some (announced_trans FLAG_STATE_RECEIVING e0 p n t) /\
  generic_sendItem e1 s (confirmation p n (Z.lor FLAG_BEGIN_P2 (Z.land (transactFlag t) FLAG_TYPE_MASK))) ∈ o2.
Proof.
  intros Hok Hp Hn Hnone H0 [Hf1 Hf2] Ht Hr0 Hr1.
  destruct (run_event_same _ _ _ _ Hr0) as (E1 & E1' & Hok1). specialize (Hok1 Hok).
  destruct (run_event_same _ _ _ _ Hr1) as (E2 & E2' & Hok2). specialize (Hok2 Hok1).
  assert (F1 : find_transaction s1 p n = Some (announced_trans FLAG_STATE_STARTING e0 p n t)).
  { rewrite (run_event_incoming _ _ _ _ p n Hok Hp Hn Hr0), Hnone. cbn [incoming_event]. rewrite H0. cbn [foldl]. unfold view_recv.
    cbn [body]. by rewrite Hf1, Hf2. }
  assert (Hto : (u32 (u32 (now e0) + TRANSAC_TIMEOUT) <? u32 (now e1)) = false) by (apply Z.ltb_ge; done).
  split; [split; [done|split; congruence]|]. split.
  - rewrite (run_event_incoming _ _ _ _ p n Hok1) by (done || congruence). rewrite F1. cbn [incoming_event mbind option_bind].
    unfold incoming_turn, locked_checkTransacTimedOut. cbn [announced_trans mTimeOut mFlag]. by rewrite Hto.
  - cbn in Hr1. eapply (threadTick_sends _ _ _ _ _ _ _ _ _ Hok1 F1); [|exact Hr1]. intros s' G.
    unfold step_transaction, step_incoming, locked_checkTransacTimedOut. cbn [announced_trans mTimeOut mFlag].
    assert (Ep : (p =? mOwnId s') = false) by (apply Z.eqb_neq; rewrite (grows_own _ _ G); congruence).
    rewrite Ep, Hto. cbn [mTransaction transactFlag]. unfold generic_sendItem. rewrite (grows_flags _ _ G), E1'. by left.
Qed.

Lemma items_of_same s s' p n evs : mSyncFlags s' = mSyncFlags s -> items_of s' p n evs = items_of s p n evs.
Proof.
  intros E. unfold items_of. f_equal. apply list_fmap_ext. intros _ ev _. destruct ev as [e i|]; [|done].
  by rewrite (heard_same _ _ _ _ E).
Qed.

(** The items come, and the worker finds that they are complete. *)
Lemma received s s' out p n l f tr e2 f2 evs : trans_ok s -> p <> mOwnId s -> n <> 0 -> find_transaction s p n = Some tr ->
  t_PeerId tr = p -> mItems tr = [] -> mFlag tr = FLAG_STATE_RECEIVING ->
  transactFlag (mTransaction tr) = f -> nItems (mTransaction tr) = Z.of_nat (length l) -> Forall plain l ->
  items_of s p n evs = l ->
  (forall evs1 e f evs2, evs = evs1 ++ ThreadTick e f :: evs2 -> items_of s p n evs2 <> []) ->
  in_time (mTimeOut tr) (evs ++ [ThreadTick e2 f2]) ->
  run_events s (evs ++ [ThreadTick e2 f2]) = Some (s', out) ->
  exists tr', find_transaction s' p n = Some tr' /\ finished_with p l f tr' /\ u16 (mFlag tr') = FLAG_STATE_COMPLETED /\
    mTimeOut tr' = mTimeOut tr.
Proof.
  intros Hok Hp Hn Htr Ep Ei Ef Et En Hpl Hl Hlast Hin Hrun.
  rewrite (run_events_incoming _ p n Hn _ _ _ Hok Hp Hrun), Htr, foldl_app.
  rewrite (receiving_prefix s p n [] evs); [|by rewrite app_nil_r, Hl|by rewrite app_nil_r|by rewrite Ef| |].
  - cbn [foldl incoming_event mbind option_bind]. unfold incoming_turn, locked_checkTransacTimedOut. cbn.
    assert (Hto : (mTimeOut tr <? u32 (now e2)) = false).
    { apply Z.ltb_ge, (Hin e2 f2). apply elem_of_app. right. by left. }
    rewrite Hto, Ef, Ei, Hl, En. cbn. rewrite Z.eqb_refl. eexists. split; [reflexivity|]. by repeat split.
  - intros e f' Hf. apply (Hin e f'). apply elem_of_app. by left.
  - by rewrite app_nil_r, Ei, Hl, En.
Qed.

(** From the announcement to the turn that finds it complete. *)
Lemma transaction_arrives s s' out p n t l e0 e1 e2 i0 f1 f2 evs :
  trans_ok s -> p <> mOwnId s -> n <> 0 -> find_transaction s p n = None ->
  of_transaction p n (heard s e0 i0) = [mk_NxsItem p n (TransacItem t)] -> announces (transactFlag t) ->
  nItems t = Z.of_nat (length l) -> Forall plain l -> items_of s p n evs = l ->
  (forall evs1 e f evs2, evs = evs1 ++ ThreadTick e f :: evs2 -> items_of s p n evs2 <> []) ->
  in_time (u32 (u32 (now e0) + TRANSAC_TIMEOUT)) (ThreadTick e1 f1 :: evs ++ [ThreadTick e2 f2]) ->
  run_events s (Tick e0 i0 :: ThreadTick e1 f1 :: evs ++ [ThreadTick e2 f2]) = Some (s', out) ->
  trans_ok s' /\ mOwnId s' = mOwnId s /\ mSyncFlags s' = mSyncFlags s /\
  generic_sendItem e1 s (confirmation p n (Z.lor FLAG_BEGIN_P2 (Z.land (transactFlag t) FLAG_TYPE_MASK))) ∈ out /\
  exists tr, find_transaction s' p n = Some tr /\ finished_with p l (transactFlag t) tr /\ u16 (mFlag tr) = FLAG_STATE_COMPLETED /\
    mTimeOut tr = u32 (u32 (now e0) + TRANSAC_TIMEOUT).
Proof.
  intros Hok Hp Hn Hnone H0 Hann Hlen Hpl Hl Hlast Ht Hrun. pose proof (run_events_same _ _ _ _ Hrun) as (Eo & Ef & Hok').
  split; [by apply Hok'|]. split; [done|]. split; [done|].
  apply run_events_cons in Hrun as (s1 & o1 & r1 & Hr0 & Hrun & ->).
  apply run_events_cons in Hrun as (s2 & o2 & r2 & Hr1 & Hrun & ->).
  destruct (announced s s1 s2 o1 o2 p n t e0 e1 i0 f1 Hok Hp Hn Hnone H0 Hann) as ((Hok2 & Eo2 & Ef2) & Htr & Ho2); [|done|done|].
  { apply (Ht e1 f1). by left. }
  split; [rewrite !elem_of_app; by auto|].
  apply (received s2 s' r2 p n l (transactFlag t) _ e2 f2 evs Hok2) in Htr; [|congruence|done|done|done|done|reflexivity|done|done| | | |done].
  - done.
  - by rewrite (items_of_same _ _ _ _ _ Ef2).
  - intros evs1 e f evs2 E. rewrite (items_of_same _ _ _ _ _ Ef2). by eapply Hlast.
  - intros e f Hin. apply (Ht e f). by right.
Qed.
