(* ===== verification/NxsExchange.v ===== *)
(** * An exchange of messages between two nodes

    B asks A for the messages of a group.  A lists those it may send, B requests those of the list it wants, and A sends what it
    has of them.  The three answers are compared with what they ought to be: [offered], [requested] and [served].  The other theorems
    say what the swapping removal does, what the time stamps let through, and what survives a restart. *)

From S2P Require Import Prelude StdMap Nxs NxsTrans NxsSync NxsViews.
From Stdlib Require Import ZArith Lia.
From stdpp Require Import base list sorting.
Open Scope Z_scope.

(** ** The swapping removal *)

Lemma remove_swap_permutes {A} (P : A -> bool) n : forall l, (length l <= n)%nat ->
  (remove_swap P n l).1 ≡ₚ filter (fun x => P x = false) l /\ (remove_swap P n l).2 ≡ₚ filter (fun x => P x = true) l.
Proof.
  induction n as [|n IH]; intros [|x xs] Hn; [done|cbn in Hn; lia|done|]. cbn [length] in Hn.
  rewrite !filter_cons. cbn [remove_swap]. destruct (P x) eqn:E.
  - set (rest := match last xs with Some y => y :: removelast xs | None => [] end).
    assert (Hr : rest ≡ₚ xs).
    { subst rest. destruct xs as [|z zs _] using rev_ind; [done|]. rewrite last_snoc, removelast_last.
      rewrite <- Permutation_cons_append. done. }
    assert (Hlen : (length rest <= n)%nat) by (rewrite Hr; lia).
    destruct (IH rest Hlen) as [IH1 IH2]. destruct (remove_swap P n rest) as [keep gone]. cbn [fst snd] in *.
    rewrite decide_False by done. rewrite decide_True by done. by rewrite IH1, IH2, Hr.
  - destruct (IH xs) as [IH1 IH2]; [lia|]. destruct (remove_swap P n xs) as [keep gone]. cbn [fst snd] in *.
    rewrite decide_True by done. rewrite decide_False by done. by rewrite IH1, IH2.
Qed.

Lemma swap_out_permutes {A} (P : A -> bool) (l : list A) :
  (swap_out P l).1 ≡ₚ filter (fun x => P x = false) l /\ (swap_out P l).2 ≡ₚ filter (fun x => P x = true) l.
Proof. by apply remove_swap_permutes. Qed.

(** ** Opening a transaction *)

Lemma open_transaction_spec e s flag l peer n kept sent : find_transaction s (mOwnId s) n = None ->
  find_transaction (open_transaction e s flag l peer n kept sent).1 (mOwnId s) n =
    Some (mk_NxsTransaction FLAG_STATE_WAITING_CONFIRM (u32 (now e + TRANSAC_TIMEOUT)) (mOwnId s) n
            (mk_Transac (Z.lor flag FLAG_BEGIN_P1) (u32 (Z.of_nat (length l))) kept 0) l) /\
  (open_transaction e s flag l peer n kept sent).2 =
    [generic_sendItem e s (mk_NxsItem peer n (TransacItem (mk_Transac (Z.lor flag FLAG_BEGIN_P1) (u32 (Z.of_nat (length l))) sent 0)))].
Proof.
  rewrite !find_transaction_at. intros Hn. unfold open_transaction, locked_addTransaction. cbn [t_PeerId t_transactionNumber].
  rewrite Hn. cbn -[map_at map_set map_find]. split; [|done]. by rewrite map_at_find, decide_True, map_find_set, decide_True.
Qed.

(** ** What ought to be exchanged *)

Definition offered (e : nxs_env) (s : RsGxsNetService) (g : Z) (meta : RsGxsGrpMetaData) (since max_delay : Z) : list RsGxsMsgMetaData :=
  filter (fun m => forwards e meta since max_delay m = true) (drop_old_versions s (msgMetas e g)).

Definition wanted_msg (e : nxs_env) (s : RsGxsNetService) (g : Z) (item : Z * Z) : Prop :=
  (item.1 ∉ (mm_MsgId <$> msgMetas e g)) /\ overallReputationLevel e item.2 <> LOCALLY_NEGATIVE /\ map_find (mRejectedMessages s) item.1 = None.

#[export] Instance wanted_msg_dec e s g item : Decision (wanted_msg e s g item) := _.

(** At most twenty. *)
Definition requested (e : nxs_env) (s : RsGxsNetService) (g : Z) (offers : list (Z * Z)) : list (Z * Z) :=
  take (Z.to_nat MAX_REQLIST_SIZE) (filter (wanted_msg e s g) offers).

Definition served (e : nxs_env) (g : Z) (msgs : list Z) : list RsNxsMsg := m ← ids_of msgs; retrieveNxsMsgs e g m.

(** ** The three answers *)

Definition offer_item (peer n g : Z) (m : RsGxsMsgMetaData) : RsNxsItem := mk_NxsItem peer n (SyncMsgItem FLAG_RESPONSE g (mm_MsgId m) (mm_AuthorId m)).

Lemma list_messages_clear e peer n g meta since delay l : forall acc,
  list_messages e peer n g meta since delay 0 l acc =
  acc ++ (offer_item peer n g <$> filter (fun m => forwards e meta since delay m = true) l).
Proof.
  induction l as [|m l IH]; intros acc; cbn [list_messages].
  - by rewrite app_nil_r.
  - rewrite filter_cons. destruct (forwards e meta since delay m) eqn:E.
    + rewrite decide_True by done. cbn [Z.eqb negb]. rewrite IH. cbn. by rewrite <- app_assoc.
    + rewrite decide_False by done. apply IH.
Qed.

Definition request_item (peer n g : Z) (item : Z * Z) : RsNxsItem := mk_NxsItem peer n (SyncMsgItem FLAG_REQUEST g item.1 0).

Lemma request_messages e s g n peer offers : forall acc b,
  (Z.of_nat (length acc) <= MAX_REQLIST_SIZE) ->
  (foldl (request_message e s (mm_MsgId <$> msgMetas e g) g n peer) (acc, b) offers).1 =
  acc ++ (request_item peer n g <$> take (Z.to_nat MAX_REQLIST_SIZE - length acc) (filter (wanted_msg e s g) offers)).
Proof.
  induction offers as [|[m a] offers IH]; intros acc b Hlen; cbn [foldl].
  - by rewrite filter_nil, take_nil, app_nil_r.
  - unfold request_message at 2. rewrite filter_cons. unfold MAX_REQLIST_SIZE in *.
    destruct (Z.leb_spec 20 (Z.of_nat (length acc))) as [Hfull|Hroom].
    + rewrite IH by done. replace (Z.to_nat 20 - length acc)%nat with 0%nat by lia. by rewrite !take_0.
    + destruct (decide (wanted_msg e s g (m, a))) as [(W1 & W2 & W3)|W].
      * cbn [fst snd] in *. rewrite bool_decide_false by done. apply Z.eqb_neq in W2. rewrite W2, W3.
        rewrite IH by (rewrite length_app; cbn; lia). rewrite length_app.
        replace (Z.to_nat 20 - length acc)%nat with (S (Z.to_nat 20 - (length acc + length [request_item peer n g (m, a)])))%nat by (cbn; lia).
        cbn. by rewrite <- app_assoc.
      * destruct (bool_decide (m ∈ _)) eqn:W1; [by apply IH|]. apply bool_decide_eq_false in W1.
        destruct (Z.eqb_spec (overallReputationLevel e a) LOCALLY_NEGATIVE) as [W2|W2]; [by apply IH|].
        destruct (map_find (mRejectedMessages s) m) eqn:W3; [by apply IH|]. by destruct W.
Qed.

(** *** The offer *)

(** A group that goes to whoever asks. *)
Definition public_group (e : nxs_env) (s : RsGxsNetService) (g peer : Z) (meta : RsGxsGrpMetaData) : Prop :=
  map_find (grpMetas e) g = Some meta /\ has (mSubscribeFlags meta) GROUP_SUBSCRIBE_SUBSCRIBED = true /\
  mCircleType meta = GXS_CIRCLE_TYPE_PUBLIC /\ wrong_tunnel e s peer g = false.

(** The peer asks with a time stamp that is older than the last change. *)
Definition news_for (e : nxs_env) (s : RsGxsNetService) (g peer ts : Z) : Prop :=
  exists upd, map_find (mServerMsgUpdateMap s) g = Some upd /\ ts < s_updateTS upd /\
    mTs (map_at (mk_TsRecord 0 0) (updateTsRecords upd) peer) <= now e.

Definition req_delay (s : RsGxsNetService) (g : Z) : Z := msg_req_delay (locked_getGrpConfig s g).1.

(** How old a message may be to be listed; 0 is any age. *)
Definition send_delay (e : nxs_env) (s : RsGxsNetService) (g : Z) : Z := (locked_max_send_delay e s g).1.

(** What the other steps of a handler leave as it is. *)
Definition settled (s s' : RsGxsNetService) : Prop :=
  same_trans s s' /\ mTransactionN s' = mTransactionN s /\ mRejectedMessages s' = mRejectedMessages s.

#[export] Instance same_trans_preorder : PreOrder same_trans.
Proof. split; [done|]. intros s1 s2 s3 (E1 & F1 & G1) (E2 & F2 & G2). split; [congruence|]. split; congruence. Qed.

#[export] Instance settled_preorder : PreOrder settled.
Proof. split; [done|]. intros s1 s2 s3 (G1 & E1 & F1) (G2 & E2 & F2). split; [by etransitivity|]. split; congruence. Qed.

Lemma wrong_tunnel_same e s s' p g : mSyncFlags s' = mSyncFlags s -> wrong_tunnel e s' p g = wrong_tunnel e s p g.
Proof. unfold wrong_tunnel, is_distant. by intros ->. Qed.

Lemma drop_old_versions_same s s' l : mSyncFlags s' = mSyncFlags s -> drop_old_versions s' l = drop_old_versions s l.
Proof. unfold drop_old_versions. by intros ->. Qed.

Lemma can_receive_news e s g peer ts : news_for e s g peer ts ->
  exists m, can_receive_msgs e s peer g 0 ts = (true, true, g, s <| mServerMsgUpdateMap := m |>).
Proof.
  intros (upd & Hu & Hts & Hrec). unfold can_receive_msgs. change (has 0 FLAG_USE_HASHED_GROUP_ID) with false. cbn [mbind]. rewrite Hu.
  unfold can_receive, locked_checkResendingOfUpdates, SAFETY_DELAY_FOR_UNSUCCESSFUL_UPDATE. apply Z.ltb_lt in Hts. rewrite Hts.
  assert (Hn : (now e <? mTs (map_at (mk_TsRecord 0 0) (updateTsRecords upd) peer) + 0) = false) by (apply Z.ltb_ge; lia).
  rewrite Hn, andb_false_r. by eexists.
Qed.

Lemma add_supplier_settled s g p :
  let s' := let '(rec, s) := locked_getGrpConfig s g in set_config s g (rec <| suppliers := ids_insert (suppliers rec) p |>) in
  settled s s' /\ exists conf, map_find (mServerGrpConfigMap s') g = Some conf /\ msg_req_delay conf = req_delay s g.
Proof.
  cbn zeta. unfold req_delay. destruct (locked_getGrpConfig s g) as [rec t] eqn:E.
  assert (Ht : settled s t).
  { unfold locked_getGrpConfig in E. destruct (map_find _ _); by injection E as <- <-. }
  split.
  - etransitivity; [exact Ht|]. done.
  - exists (rec <| suppliers := ids_insert (suppliers rec) p |>). split; [|done]. cbn -[map_set map_find].
    by rewrite map_find_set, decide_True.
Qed.

Lemma getGrpConfig_found s g conf : map_find (mServerGrpConfigMap s) g = Some conf -> locked_getGrpConfig s g = (conf, s).
Proof. intros E. unfold locked_getGrpConfig. by rewrite E. Qed.

Lemma max_send_delay_found e s t g conf : map_find (mServerGrpConfigMap t) g = Some conf -> msg_req_delay conf = req_delay s g ->
  locked_max_send_delay e t g = (send_delay e s g, t).
Proof.
  intros E Hd. unfold send_delay, locked_max_send_delay. destruct (RS_GXS_SEND_ALL e); [done|].
  rewrite (getGrpConfig_found _ _ _ E), Hd. unfold req_delay. by destruct (locked_getGrpConfig s g).
Qed.

Lemma canSendMsgIds_public e s msgs g meta p : mCircleType meta = GXS_CIRCLE_TYPE_PUBLIC -> wrong_tunnel e s p g = false ->
  canSendMsgIds e s msgs g meta p = (Some (drop_old_versions s msgs, 0), s).
Proof. intros Ec Ew. unfold canSendMsgIds. by rewrite Ew, Ec. Qed.

(** The number the next transaction gets. *)
Definition next_number (s : RsGxsNetService) : Z := u32 (mTransactionN s + 1).

(** The own transaction of that number, after an answer. *)
Definition answer_of (r : RsGxsNetService * list nxs_out) (n : Z) : option NxsTransaction := find_transaction r.1 (mOwnId r.1) n.

Definition waits_with (type : Z) (l : list RsNxsItem) (ts : Z) (v : option NxsTransaction) : Prop :=
  exists tr, v = Some tr /\ mItems tr = l /\ mFlag tr = FLAG_STATE_WAITING_CONFIRM /\
    transactFlag (mTransaction tr) = Z.lor type FLAG_BEGIN_P1 /\ updateTS (mTransaction tr) = ts.

(** Opening the next transaction, a few steps later. *)
Lemma opened_waits e s t flag l peer kept sent : same_trans s t -> find_transaction s (mOwnId s) (next_number s) = None ->
  waits_with flag l kept (answer_of (open_transaction e t flag l peer (next_number s) kept sent) (next_number s)).
Proof.
  intros (E1 & E2 & E3) Hfree. rewrite find_transaction_at, <- E1, <- E2, <- find_transaction_at in Hfree.
  destruct (open_transaction_spec e t flag l peer _ kept sent Hfree) as [E _].
  unfold answer_of. destruct (open_transaction e t flag l peer (next_number s) kept sent) as [t' o] eqn:Eo.
  apply open_transaction_grows, grows_own in Eo. cbn [fst] in *. rewrite Eo, E. by eexists.
Qed.

(** A lists what it may send. *)
Lemma offer_answer e s g peer meta since ts : public_group e s g peer meta -> news_for e s g peer ts ->
  find_transaction s (mOwnId s) (next_number s) = None -> offered e s g meta since (send_delay e s g) <> [] ->
  waits_with FLAG_TYPE_MSG_LIST_RESP (offer_item peer (next_number s) g <$> offered e s g meta since (send_delay e s g)) 0
    (answer_of (handleRecvSyncMessage e s peer g 0 since ts false) (next_number s)).
Proof.
  intros (Hmeta & Hsub & Hpub & Hw) Hnews Hfree Hne. unfold handleRecvSyncMessage.
  destruct (can_receive_news e s g peer ts Hnews) as (m & ->). cbn [orb negb].
  set (s1 := s <| mServerMsgUpdateMap := m |>). destruct (add_supplier_settled s1 g peer) as (Hs2 & conf & Hconf & Hdelay). cbn zeta in Hs2, Hconf.
  set (s2 := let '(rec, s) := locked_getGrpConfig s1 g in _) in *. clearbody s2.
  assert (Hs : settled s s2) by (by transitivity s1). clear Hs2.
  assert (Hd : req_delay s1 g = req_delay s g).
  { unfold req_delay, locked_getGrpConfig. change (mServerGrpConfigMap s1) with (mServerGrpConfigMap s).
    destruct (map_find (mServerGrpConfigMap s) g); reflexivity. }
  rewrite Hd in Hdelay. clear Hd.
  rewrite Hmeta, Hsub, Hpub. cbn [negb Z.eqb GXS_CIRCLE_TYPE_PUBLIC GXS_CIRCLE_TYPE_EXTERNAL Bool.eqb].
  destruct Hs as (Hs & En & _). unfold locked_getTransactionId. rewrite En. fold (next_number s).
  set (s3 := s2 <| mTransactionN := next_number s |>). rewrite (max_send_delay_found e s s3 g conf) by (exact Hconf || exact Hdelay).
  assert (Hs3 : same_trans s s3) by (by transitivity s2). pose proof Hs3 as (_ & _ & Ef).
  rewrite canSendMsgIds_public by (done || by rewrite (wrong_tunnel_same _ _ _ _ _ Ef)).
  rewrite (drop_old_versions_same _ _ _ Ef), list_messages_clear. cbn [app]. fold (offered e s g meta since (send_delay e s g)).
  destruct (offered e s g meta since (send_delay e s g)) as [|m0 l]; [done|]. cbn [fmap list_fmap].
  unfold locked_pushMsgRespFromList. apply opened_waits; [|done]. done.
Qed.

Lemma requested_same e s s' g l : mRejectedMessages s' = mRejectedMessages s -> requested e s' g l = requested e s g l.
Proof. intros E. unfold requested. f_equal. apply list_filter_iff. intros x. unfold wanted_msg. by rewrite E. Qed.

Definition offer_entry (peer g : Z) (m : RsGxsMsgMetaData) : Z * Z * Z * Z := (peer, g, mm_MsgId m, mm_AuthorId m).

Definition entry_ids (x : Z * Z * Z * Z) : Z * Z := let '(_, _, m, a) := x in (m, a).

Lemma sync_msgs_offers peer n g l : sync_msgs (offer_item peer n g <$> l) = offer_entry peer g <$> l.
Proof. induction l as [|m l IH]; [done|]. unfold sync_msgs in *. cbn. f_equal. exact IH. Qed.

Lemma sync_msgs_requests peer n g l : sync_msgs (request_item peer n g <$> l) = (fun item => (peer, g, item.1, 0)) <$> l.
Proof. induction l as [|m l IH]; [done|]. unfold sync_msgs in *. cbn. f_equal. exact IH. Qed.

Definition ids_offered (l : list RsGxsMsgMetaData) : list (Z * Z) := (fun m => (mm_MsgId m, mm_AuthorId m)) <$> l.

(** B requests what it wants of the list. *)
Lemma request_answer e s tr peer n g meta offers : mItems tr = offer_item peer n g <$> offers -> t_PeerId tr = peer ->
  map_find (grpMetas e) g = Some meta -> has (mSubscribeFlags meta) GROUP_SUBSCRIBE_SUBSCRIBED = true ->
  find_transaction s (mOwnId s) (next_number s) = None -> requested e s g (ids_offered offers) <> [] ->
  waits_with FLAG_TYPE_MSG_LIST_REQ (request_item peer (next_number s) g <$> requested e s g (ids_offered offers)) 0
    (answer_of (locked_genReqMsgTransaction e s tr) (next_number s)).
Proof.
  intros Ei Ep Hmeta Hsub Hfree Hne. unfold locked_genReqMsgTransaction. rewrite Ei, sync_msgs_offers.
  destruct offers as [|m0 offers]; [by destruct Hne; unfold requested; cbn; rewrite take_nil|].
  set (l := m0 :: offers) in *.
  change (offer_entry peer g <$> l) with ((peer, g, mm_MsgId m0, mm_AuthorId m0) :: (offer_entry peer g <$> offers)).
  cbv iota beta. destruct (locked_getGrpConfig s g) as [conf s1] eqn:E1.
  assert (Hs1 : settled s s1).
  { unfold locked_getGrpConfig in E1. destruct (map_find (mServerGrpConfigMap s) g); by injection E1 as _ <-. }
  cbv zeta. set (s2 := if _ || _ then _ else _).
  assert (Hs2 : settled s s2) by (transitivity s1; [done|]; subst s2; by destruct (_ || _)).
  clearbody s2. rewrite Hmeta, Hsub. cbn [negb]. destruct Hs2 as (Hs2 & En & Er). unfold locked_getTransactionId. rewrite En.
  fold (next_number s). set (s3 := s2 <| mTransactionN := next_number s |>).
  pose proof (request_messages e s3 g (next_number s) (t_PeerId tr) (ids_offered l) [] false ltac:(unfold MAX_REQLIST_SIZE; cbn; lia)) as Hr.
  cbn [app length] in Hr. rewrite Nat.sub_0_r in Hr. fold (requested e s3 g (ids_offered l)) in Hr.
  rewrite (requested_same e s s3) in Hr by done.
  change ((peer, g, mm_MsgId m0, mm_AuthorId m0) :: (offer_entry peer g <$> offers)) with (offer_entry peer g <$> l).
  assert (El : entry_ids <$> (offer_entry peer g <$> l) = ids_offered l) by (unfold ids_offered; rewrite <- list_fmap_compose; by apply list_fmap_ext).
  unfold entry_ids in El. rewrite El.
  destruct (foldl _ ([], false) (ids_offered l)) as [reqList exceeded]. cbn [fst] in Hr. subst reqList.
  destruct (requested e s g (ids_offered l)) as [|r0 reqs]; [done|]. rewrite Ep. unfold locked_pushMsgTransactionFromList.
  pose proof (opened_waits e s s3 FLAG_TYPE_MSG_LIST_REQ (request_item peer (next_number s) g <$> (r0 :: reqs)) peer 0 0) as Ho.
  specialize (Ho ltac:(by transitivity s2) Hfree). cbn [fmap list_fmap] in *.
  destruct (open_transaction _ _ _ _ _ _ _ _) as [t o]. exact Ho.
Qed.

Lemma ids_of_one g l : (forall x, x ∈ l -> x = g) -> l <> [] -> ids_of l = [g].
Proof.
  intros Hl Hne. destruct l as [|x l]; [done|]. assert (x = g) as -> by (apply Hl; by left).
  unfold ids_of. cbn [foldl]. change (ids_insert [] g) with [(g, tt)]. assert (Hl' : forall x, x ∈ l -> x = g) by (intros y Hy; apply Hl; by right).
  clear Hl Hne. induction l as [|y l IH]; [done|]. cbn [foldl]. assert (y = g) as -> by (apply Hl'; by left).
  unfold ids_insert at 2. cbn. unfold key_lt, Z_key_lt. rewrite Z.ltb_irrefl. apply IH. intros z Hz. apply Hl'. by right.
Qed.

Lemma one_group_same g l : g <> 0 -> (forall x, x ∈ l -> x.1 = g) -> l <> [] -> one_group 0 l = Some g.
Proof.
  intros Hg Hl Hne. destruct l as [|[x y] l]; [done|]. cbn. assert (x = g) as -> by (apply (Hl (x, y)); by left).
  assert (Hl' : forall x, x ∈ l -> x.1 = g) by (intros z Hz; apply Hl; by right). clear Hl Hne.
  induction l as [|[z w] l IH]; [done|]. cbn. apply Z.eqb_neq in Hg as Hg'. rewrite Hg'.
  assert (z = g) as -> by (apply (Hl' (z, w)); by left). rewrite Z.eqb_refl. cbn. apply IH. intros v Hv. apply Hl'. by right.
Qed.

(** The time stamp of the last change of a group. *)
Definition server_ts (s : RsGxsNetService) (g : Z) : Z := s_updateTS (map_at new_ServerUpdate (mServerMsgUpdateMap s) g).

(** A sends what it has of them. *)
Lemma serve_answer e s tr peer n g reqs : mItems tr = request_item peer n g <$> reqs -> t_PeerId tr = peer -> g <> 0 ->
  find_transaction s (mOwnId s) (next_number s) = None -> served e g reqs.*1 <> [] ->
  waits_with FLAG_TYPE_MSGS ((fun m => mk_NxsItem peer (next_number s) (NxsMsg (clamp_msg m))) <$> served e g reqs.*1) (server_ts s g)
    (answer_of (locked_genSendMsgsTransaction e s tr) (next_number s)).
Proof.
  intros Ei Ep Hg Hfree Hne. assert (Hr : reqs <> []) by (by intros ->).
  unfold locked_genSendMsgsTransaction. rewrite Ei, sync_msgs_requests, <- list_fmap_compose.
  rewrite bool_decide_false by (intros H; apply Hr; by apply fmap_nil_inv in H).
  set (wanted := (_ ∘ _) <$> reqs). assert (Ew : wanted = pair g <$> reqs.*1).
  { subst wanted. rewrite <- list_fmap_compose. by apply list_fmap_ext. }
  rewrite Ew. clear wanted Ew. set (msgs := reqs.*1) in *.
  assert (Hmsgs : msgs <> []) by (intros H; apply Hr; by apply fmap_nil_inv in H).
  assert (H1 : forall x, x ∈ pair g <$> msgs -> x.1 = g) by (intros x (y & -> & _)%list_elem_of_fmap; done).
  rewrite (one_group_same g); [|done|done|intros H; by apply fmap_nil_inv in H].
  assert (Eg : ids_of (pair g <$> msgs).*1 = [g]).
  { apply ids_of_one; [|by destruct msgs]. intros x (y & -> & Hy)%list_elem_of_fmap. by apply H1. }
  rewrite Eg. cbn [mbind list_bind]. rewrite app_nil_r.
  assert (Ef : filter (fun gm => gm.1 = g) (pair g <$> msgs) = pair g <$> msgs).
  { clear. induction msgs as [|m msgs IH]; [done|]. cbn [fmap list_fmap]. rewrite filter_cons_True by done. by rewrite IH. }
  rewrite Ef, <- list_fmap_compose. change (snd ∘ pair g) with (fun x : Z => x). rewrite list_fmap_id.
  fold (served e g msgs). unfold locked_getTransactionId. fold (next_number s). rewrite Ep.
  destruct (served e g msgs) as [|m0 l]; [done|]. by apply opened_waits.
Qed.

(** What a transaction is on the other side, when all of it has come from [p]. *)
Definition arrive (p : Z) (tr : NxsTransaction) : NxsTransaction :=
  tr <| t_PeerId := p |> <| mFlag := FLAG_STATE_COMPLETED |> <| mItems := (fun i => i <| PeerId := p |>) <$> mItems tr |>.

Definition arrived (p : Z) (v : option NxsTransaction) : NxsTransaction :=
  arrive p (default (mk_NxsTransaction 0 0 0 0 (mk_Transac 0 0 0 0) []) v).

Lemma arrived_items {A} p q (f : Z -> A -> RsNxsItem) (l : list A) type ts v : (forall x, (f p x) <| PeerId := q |> = f q x) ->
  waits_with type (f p <$> l) ts v -> mItems (arrived q v) = f q <$> l /\ t_PeerId (arrived q v) = q.
Proof.
  intros Hf (tr & -> & Hi & _). split; [|done]. unfold arrived, arrive. cbn -[fmap]. rewrite Hi, <- list_fmap_compose. apply list_fmap_ext. intros _ x _. apply Hf.
Qed.

(** C2 The messages B gets are the ones it ought to get.  B asks A for the news of a group both have subscribed to and that is for all.
    A's list is answered by B's request, which is answered by A's messages; each answer is an own transaction under the next number,
    and what is in it is taken as it arrives on the other side.  The last one holds what A has stored of the messages it was asked for,
    in the order of their identifiers, with the time stamp of A's last change; these are the first twenty of the list that B does not have, has not rejected and whose author
    is not banned; and the list has the messages A may forward, in their latest version, not older than B asked for and, unless A is
    built with RS_GXS_SEND_ALL, than A keeps sending. *)
Theorem message_exchange (eA eA2 eB : nxs_env) (A A2 B : RsGxsNetService) (a b g since ts : Z) (meta metaB : RsGxsGrpMetaData) :
  let list_of_A := offered eA A g meta since (send_delay eA A g) in
  let request_of_B := requested eB B g (ids_offered list_of_A) in
  let answer1 := answer_of (handleRecvSyncMessage eA A b g 0 since ts false) (next_number A) in
  let answer2 := answer_of (locked_genReqMsgTransaction eB B (arrived a answer1)) (next_number B) in
  let answer3 := answer_of (locked_genSendMsgsTransaction eA2 A2 (arrived b answer2)) (next_number A2) in
  g <> 0 -> public_group eA A g b meta -> news_for eA A g b ts ->
  map_find (grpMetas eB) g = Some metaB -> has (mSubscribeFlags metaB) GROUP_SUBSCRIBE_SUBSCRIBED = true ->
  find_transaction A (mOwnId A) (next_number A) = None -> find_transaction B (mOwnId B) (next_number B) = None ->
  find_transaction A2 (mOwnId A2) (next_number A2) = None ->
  request_of_B <> [] -> served eA2 g request_of_B.*1 <> [] ->
  waits_with FLAG_TYPE_MSGS ((fun m => mk_NxsItem b (next_number A2) (NxsMsg (clamp_msg m))) <$> served eA2 g request_of_B.*1)
    (server_ts A2 g) answer3.
Proof.
  intros list_of_A request_of_B answer1 answer2 answer3 Hg Hpub Hnews HmetaB HsubB F1 F2 F3 Hreq Hserv.
  assert (Hoff : list_of_A <> []) by (intros E; apply Hreq; unfold request_of_B; by rewrite E).
  pose proof (offer_answer eA A g b meta since ts Hpub Hnews F1 Hoff) as H1. fold answer1 list_of_A in H1.
  apply (arrived_items b a (fun p => offer_item p (next_number A) g)) in H1 as [I1 P1]; [|done].
  pose proof (request_answer eB B (arrived a answer1) a _ g metaB list_of_A I1 P1 HmetaB HsubB F2 Hreq) as H2. fold answer2 request_of_B in H2.
  apply (arrived_items a b (fun p => request_item p (next_number B) g)) in H2 as [I2 P2]; [|done].
  exact (serve_answer eA2 A2 (arrived b answer2) b _ g request_of_B I2 P2 Hg F3 Hserv).
Qed.
