(* ===== verification/NxsProps.v ===== *)
(** * What a friend can do to the synchronisation of groups

    When the worker's turn returns, and how a friend keeps it from returning; whose confirmation ends a transaction; who is sent the
    list of the messages of a group, and who the messages; what is posted during an exchange; and what a restart keeps. *)

From S2P Require Import Prelude StdMap Nxs NxsTrans NxsSync NxsViews NxsRun NxsExchange.
From Stdlib Require Import ZArith Lia.
From stdpp Require Import base list sorting.
Open Scope Z_scope.

(** ** When the worker's turn returns *)

Definition is_grp (i : RsNxsItem) : Prop := if body i is NxsGrp _ then True else False.
Definition is_msg (i : RsNxsItem) : Prop := if body i is NxsMsg _ then True else False.

Lemma take_grps_returns fuel : forall items grps, is_Some (take_grps fuel items grps) <-> Forall is_grp items /\ (length items < fuel)%nat.
Proof.
  induction fuel as [|fuel IH]; intros [|i items] grps; cbn [take_grps length].
  - split; [by intros [? ?]|lia].
  - split; [by intros [? ?]|lia].
  - split; [split; [constructor|lia]|by eexists].
  - rewrite Forall_cons. unfold is_grp at 1. destruct (body i) eqn:E; rewrite IH; rewrite ?Forall_cons; unfold is_grp; rewrite ?E; cbn [length];
      intuition lia.
Qed.

Lemma take_msgs_returns fuel : forall items g msgs, is_Some (take_msgs fuel items g msgs) <-> Forall is_msg items /\ (length items < fuel)%nat.
Proof.
  induction fuel as [|fuel IH]; intros [|i items] g msgs; cbn [take_msgs length].
  - split; [by intros [? ?]|lia].
  - split; [by intros [? ?]|lia].
  - split; [split; [constructor|lia]|by eexists].
  - rewrite Forall_cons. unfold is_msg at 1. destruct (body i) eqn:E; rewrite IH; rewrite ?Forall_cons; unfold is_msg; rewrite ?E; cbn [length];
      intuition lia.
Qed.

(** The kind of items a finished transaction is emptied of, when it is emptied by a loop. *)
Definition loops_over (tr : NxsTransaction) : option (RsNxsItem -> Prop) :=
  let flag := transactFlag (mTransaction tr) in
  if negb (has (mFlag tr) FLAG_STATE_COMPLETED) || has flag FLAG_TYPE_MSG_LIST_RESP || has flag FLAG_TYPE_GRP_LIST_RESP ||
     has flag FLAG_TYPE_MSG_LIST_REQ || has flag FLAG_TYPE_GRP_LIST_REQ then None
  else if has flag FLAG_TYPE_GRPS then Some is_grp
  else if has flag FLAG_TYPE_MSGS then Some is_msg
  else None.

Definition can_be_emptied (fuel : nat) (tr : NxsTransaction) : Prop :=
  forall kind, loops_over tr = Some kind -> Forall kind (mItems tr) /\ (length (mItems tr) < fuel)%nat.

Lemma incoming_returns e fuel s tr : is_Some (locked_processCompletedIncomingTrans e fuel s tr) <-> can_be_emptied fuel tr.
Proof.
  unfold locked_processCompletedIncomingTrans, can_be_emptied, loops_over.
  destruct (has (mFlag tr) FLAG_STATE_COMPLETED); cbn [negb orb]; [|split; [done|by eexists]].
  destruct (has _ FLAG_TYPE_MSG_LIST_RESP); cbn [orb]; [split; [done|by eexists]|].
  destruct (has _ FLAG_TYPE_GRP_LIST_RESP); cbn [orb]; [split; [done|by eexists]|].
  destruct (has _ FLAG_TYPE_MSG_LIST_REQ); cbn [orb]; [split; [done|by eexists]|].
  destruct (has _ FLAG_TYPE_GRP_LIST_REQ); cbn [orb]; [split; [done|by eexists]|].
  destruct (has _ FLAG_TYPE_GRPS).
  - pose proof (take_grps_returns fuel (mItems tr) []) as H. destruct (take_grps fuel (mItems tr) []) as [grps|]; cbn.
    + split; [intros _ kind [= <-]; apply H; by eexists|by eexists].
    + split; [by intros [? ?]|]. intros Hk. specialize (Hk is_grp eq_refl). apply H in Hk as [? ?]. done.
  - destruct (has _ FLAG_TYPE_MSGS); [|split; [done|by eexists]].
    pose proof (take_msgs_returns fuel (mItems tr) 0 []) as H. destruct (take_msgs fuel (mItems tr) 0 []) as [[g msgs]|]; cbn.
    + split; [intros _ kind [= <-]; apply H; by eexists|by eexists].
    + split; [by intros [? ?]|]. intros Hk. specialize (Hk is_msg eq_refl). apply H in Hk as [? ?]. done.
Qed.

Lemma complete_all_returns e fuel l : forall s,
  is_Some (complete_all e fuel l s) <-> forall tr, tr ∈ l -> t_PeerId tr <> mOwnId s -> can_be_emptied fuel tr.
Proof.
  induction l as [|tr l IH]; intros s; cbn [complete_all].
  - split; [intros _ tr H; by apply not_elem_of_nil in H|by eexists].
  - destruct (Z.eqb_spec (t_PeerId tr) (mOwnId s)) as [Ho|Ho].
    + cbn. specialize (IH s). unfold locked_processCompletedOutgoingTrans. split.
      * intros H tr' [->|Hin]%elem_of_cons Hp; [done|]. apply IH; [|done|done].
        destruct (complete_all e fuel l s) as [[? ?]|]; [by eexists|by destruct H].
      * intros H. destruct IH as [_ IH]. destruct IH as [[? ?] ->]; [|by eexists]. intros tr' Hin. apply H. by right.
    + pose proof (incoming_returns e fuel s tr) as Hi. destruct (locked_processCompletedIncomingTrans e fuel s tr) as [[s1 o1]|] eqn:E; cbn.
      * specialize (IH s1). rewrite (grows_own _ _ (locked_processCompletedIncomingTrans_grows _ _ _ _ _ _ E)) in IH. split.
        -- intros H tr' [->|Hin]%elem_of_cons Hp; [apply Hi; by eexists|]. apply IH; [|done|done].
           destruct (complete_all e fuel l s1) as [[? ?]|]; [by eexists|by destruct H].
        -- intros H. destruct IH as [_ IH]. destruct IH as [[? ?] ->]; [|by eexists]. intros tr' Hin. apply H. by right.
      * split; [by intros [? ?]|]. intros H. destruct Hi as [_ Hi]. destruct Hi as [? ?]; [|done]. apply H; [by left|done].
Qed.

(** C17 The loops that empty finished transactions end exactly when every transaction of a friend that announced groups holds nothing but
    groups, and one that announced messages nothing but messages, with one step for each item and one more; an item of another kind,
    which the friend is free to send, is looked at over and over. *)
Theorem finished_transactions_return (e : nxs_env) (fuel : nat) (s : RsGxsNetService) :
  is_Some (processCompletedTransactions e fuel s) <->
  forall tr kind, tr ∈ mComplTransactions s -> t_PeerId tr <> mOwnId s -> loops_over tr = Some kind ->
    Forall kind (mItems tr) /\ (length (mItems tr) < fuel)%nat.
Proof.
  unfold processCompletedTransactions. pose proof (complete_all_returns e fuel (mComplTransactions s) s) as H.
  assert (E : is_Some (complete_all e fuel (mComplTransactions s) s) <->
    is_Some ('(s, out) ← complete_all e fuel (mComplTransactions s) s; Some (s <| mComplTransactions := [] |>, out))).
  { destruct (complete_all _ _ _ _) as [[t o]|]; cbn; split; intros [? ?]; try done; by eexists. }
  rewrite <- E, H. unfold can_be_emptied. split; [intros Hk tr kind Hin Hp; by apply Hk|intros Hk tr Hin Hp kind; by apply Hk].
Qed.

(** Neither groups, nor messages, nor encrypted. *)
Definition foreign (i : RsNxsItem) : Prop :=
  match body i with TransacItem _ | NxsGrp _ | NxsMsg _ | EncryptedDataItem _ => False | _ => True end.

Lemma foreign_plain i : foreign i -> plain i.
Proof. unfold foreign, plain. by destruct (body i). Qed.

Lemma foreign_kept e (l : list RsNxsItem) i : i ∈ l -> foreign i -> i ∈ omap (decrypt_item e) l.
Proof.
  intros Hin Hf. apply list_elem_of_omap. exists i. split; [done|]. unfold decrypt_item, foreign in *. by destruct (body i).
Qed.

Lemma hang_loop f p l tr i : f = Z.lor FLAG_TYPE_GRPS FLAG_BEGIN_P1 \/ f = FLAG_ANNOUNCE_MSGS -> finished_with p l f tr -> i ∈ l -> foreign i ->
  forall fuel, ~ can_be_emptied fuel tr.
Proof.
  intros Hf (_ & Hl & Hc & Et) Hin Hi fuel H. unfold can_be_emptied, loops_over in H. rewrite Hc, Et, Hl in H.
  destruct Hf as [-> | ->]; cbn in H; specialize (H _ eq_refl) as [H _]; rewrite Forall_forall in H; specialize (H i Hin);
    unfold foreign, is_grp, is_msg in *; by destruct (body i).
Qed.

(** C15 A friend stops the worker for good.  He announces a transaction of groups or of messages, lets the worker say it is ready, and
    sends the number of items he has announced, one of which - a request to pull, say - is neither group nor message nor
    encrypted.  The worker finds the transaction complete, and in its next turn never returns, however many steps it is given, with
    all others waiting for the lock it holds. *)
Theorem foreign_item_stops_worker (s s' : RsGxsNetService) (out : list nxs_out) (p n : Z) (t : RsNxsTransacItem) (l : list RsNxsItem)
    (i : RsNxsItem) (e0 e1 e2 e3 : nxs_env) (i0 : nxs_incoming) (f1 f2 : nat) (evs : list nxs_event) :
  trans_ok s -> p <> mOwnId s -> n <> 0 -> find_transaction s p n = None ->
  of_transaction p n (heard s e0 i0) = [mk_NxsItem p n (TransacItem t)] ->
  transactFlag t = Z.lor FLAG_TYPE_GRPS FLAG_BEGIN_P1 \/ transactFlag t = FLAG_ANNOUNCE_MSGS -> nItems t = Z.of_nat (length l) ->
  Forall plain l -> i ∈ l -> foreign i -> items_of s p n evs = l ->
  (forall evs1 e f evs2, evs = evs1 ++ ThreadTick e f :: evs2 -> items_of s p n evs2 <> []) ->
  in_time (u32 (u32 (now e0) + TRANSAC_TIMEOUT)) (ThreadTick e1 f1 :: evs ++ [ThreadTick e2 f2]) ->
  u32 (now e3) <= u32 (u32 (now e0) + TRANSAC_TIMEOUT) ->
  run_events s (Tick e0 i0 :: ThreadTick e1 f1 :: evs ++ [ThreadTick e2 f2]) = Some (s', out) ->
  forall fuel, run_event s' (ThreadTick e3 fuel) = None.
Proof.
  intros Hok Hp Hn Hnone H0 Hflag Hlen Hpl Hin Hi Hl Hlast Ht Ht3 Hrun fuel.
  assert (Hann : announces (transactFlag t)) by (destruct Hflag as [-> | ->]; by split).
  destruct (transaction_arrives s s' out p n t l e0 e1 e2 i0 f1 f2 evs Hok Hp Hn Hnone H0 Hann Hlen Hpl Hl Hlast Ht Hrun)
    as (Hok' & Eo & Ef & _ & tr & Htr & Hfin & Hf & Et).
  cbn. destruct (threadTick e3 fuel s') as [[s4 o4]|] eqn:E; [exfalso|done].
  apply threadTick_parts in E as (s1 & s3 & out2 & rest & G1 & _ & _ & E).
  pose proof (grows_keeps _ _ G1 _ _ _ Htr) as Htr1. pose proof (grows_ok _ _ G1 Hok') as Hok1.
  assert (Hp' : p <> mOwnId s') by congruence.
  destruct (step_finished e3 s' s1 p n l _ tr G1 Hp' (trans_ok_number _ _ _ _ Hok' Htr) Hfin Hf) as (tr' & Es & Hfin'); [by rewrite Et|].
  pose proof (processTransactions_compl e3 s1 p n tr Hok1 Htr1) as Hc. rewrite Es in Hc. specialize (Hc ltac:(by eexists)).
  assert (Hall : is_Some (complete_all e3 fuel (mComplTransactions (processTransactions e3 s1).1) (processTransactions e3 s1).1)) by by eexists.
  rewrite complete_all_returns in Hall. apply (hang_loop (transactFlag t) p (omap (decrypt_item e3) l) tr' i Hflag Hfin'
    (foreign_kept e3 l i Hin Hi) Hi fuel).
  apply Hall; [exact Hc|]. rewrite (proj1 Hfin'). cbn. by rewrite (grows_own _ _ G1).
Qed.

(** ** Whose confirmation it is *)

(** C16 A confirmation is not asked whose it is.  The numbers of own transactions count up from one, and a friend - whom a transaction is not
    for, who need know nothing of it - that sends END_SUCCESS under the number of one before its items were sent ends it: the next
    turn of the worker drops it, sending nothing for it, and nothing for it is ever sent under that number. *)
Theorem any_friend_ends_transaction (e e' : nxs_env) (s : RsGxsNetService) (q n : Z) (tr : NxsTransaction) :
  trans_ok s -> q <> mOwnId s -> n <> 0 -> find_transaction s (mOwnId s) n = Some tr ->
  let s1 := (recv_item e s (confirmation q n FLAG_END_SUCCESS)).1 in
  find_transaction s1 (mOwnId s) n = Some (tr <| mFlag := FLAG_STATE_COMPLETED |>) /\
  find_transaction (processTransactions e' s1).1 (mOwnId s) n = None /\
  (step_transaction e' s1 (mOwnId s) n (tr <| mFlag := FLAG_STATE_COMPLETED |>)).2 = [].
Proof.
  intros Hok Hq Hn Htr s1. destruct (recv_item_same e s (confirmation q n FLAG_END_SUCCESS)) as (Eo & _ & Hok1).
  specialize (Hok1 Hok). fold s1 in Eo, Hok1.
  assert (H1 : find_transaction s1 (mOwnId s) n = Some (tr <| mFlag := FLAG_STATE_COMPLETED |>)).
  { subst s1. rewrite (recv_item_outgoing e s _ n tr) by done. by rewrite decide_True. }
  split; [done|]. split.
  - rewrite processTransactions_view by done. rewrite H1, <- Eo, outgoing_turn_view. unfold outgoing_turn. cbn. by destruct (locked_checkTransacTimedOut _ _).
  - unfold step_transaction, step_outgoing. rewrite Eo, Z.eqb_refl. cbn. by destruct (locked_checkTransacTimedOut _ _).
Qed.

(** ** Who gets a list of messages *)

(** The types of circle a list goes out for, to that peer. *)
Definition may_list (e : nxs_env) (peer : Z) (meta : RsGxsGrpMetaData) : Prop :=
  let c := u8 (mCircleType meta) in
  c = GXS_CIRCLE_TYPE_PUBLIC \/ c = GXS_CIRCLE_TYPE_UNKNOWN \/ c = GXS_CIRCLE_TYPE_EXTERNAL \/
  c = GXS_CIRCLE_TYPE_YOUR_FRIENDS_ONLY /\ checkPermissionsForFriendGroup e peer meta = true.

(** Whose messages are listed in a group of a circle: those of members, and those that are not signed. *)
Definition insider (e : nxs_env) (g : Z) (meta : RsGxsGrpMetaData) (m : RsGxsMsgMetaData) : Prop :=
  u8 (mCircleType meta) = GXS_CIRCLE_TYPE_EXTERNAL ->
  mm_AuthorId m = 0 \/ isLoaded e (mCircleId meta) = true /\ isRecipient e (mCircleId meta) g (mm_AuthorId m) = true.

Definition list_circle (meta : RsGxsGrpMetaData) : Z := if u8 (mCircleType meta) =? GXS_CIRCLE_TYPE_EXTERNAL then mCircleId meta else 0.

Lemma drop_old_versions_subset s l m : m ∈ drop_old_versions s l -> m ∈ l.
Proof.
  unfold drop_old_versions. destruct (has _ _); [done|]. intros H.
  rewrite (proj1 (swap_out_permutes _ l)) in H. by apply list_elem_of_filter in H as [_ H].
Qed.

Lemma canSendMsgIds_shape e s msgs g meta p ms id s' : canSendMsgIds e s msgs g meta p = (Some (ms, id), s') ->
  wrong_tunnel e s p g = false /\ may_list e p meta /\ id = list_circle meta /\ same_trans s s' /\
  forall m, m ∈ ms -> m ∈ msgs /\ insider e g meta m.
Proof.
  unfold canSendMsgIds, may_list, list_circle, insider. destruct (wrong_tunnel e s p g); [done|].
  pose proof (drop_old_versions_subset s msgs) as Hd. set (ds := drop_old_versions s msgs) in *. clearbody ds.
  set (c := u8 (mCircleType meta)). destruct (Z.eqb_spec c GXS_CIRCLE_TYPE_LOCAL); [done|].
  destruct (Z.eqb_spec c GXS_CIRCLE_TYPE_PUBLIC) as [->|]; cbn [orb].
  { intros [= <- <- <-]. cbn. split; [done|]. split; [by left|]. split; [done|]. split; [done|]. intros m Hm. split; [by apply Hd|done]. }
  destruct (Z.eqb_spec c GXS_CIRCLE_TYPE_UNKNOWN) as [->|].
  { intros [= <- <- <-]. cbn. split; [done|]. split; [by right; left|]. split; [done|]. split; [done|]. intros m Hm. split; [by apply Hd|done]. }
  destruct (Z.eqb_spec c GXS_CIRCLE_TYPE_EXTERNAL) as [->|].
  - set (P := fun m => negb (mm_AuthorId m =? 0) && _). pose proof (proj1 (swap_out_permutes P ds)) as Hk.
    destruct (swap_out P ds) as [keep gone]. cbn [fst] in Hk. intros [= <- <- <-]. split; [done|]. split; [by right; right; left|].
    split; [done|]. split; [by destruct gone|]. intros m Hm. rewrite Hk in Hm. apply list_elem_of_filter in Hm as [HP Hm].
    split; [by apply Hd|]. intros _. unfold P in HP. destruct (Z.eqb_spec (mm_AuthorId m) 0); [by left|]. right.
    cbn in HP. apply negb_false_iff, andb_true_iff in HP. exact HP.
  - destruct (Z.eqb_spec c GXS_CIRCLE_TYPE_YOUR_FRIENDS_ONLY) as [->|]; [|done].
    destruct (checkPermissionsForFriendGroup e p meta); [|done]. intros [= <- <- <-]. cbn. split; [done|]. split; [by right; right; right|].
    split; [done|]. split; [done|]. intros m Hm. split; [by apply Hd|done].
Qed.

(** An entry of a list: in clear, or encrypted for the circle. *)
Definition list_entry (e : nxs_env) (peer n g : Z) (meta : RsGxsGrpMetaData) (since delay : Z) (l : list RsGxsMsgMetaData) (i : RsNxsItem) : Prop :=
  exists m, m ∈ l /\ forwards e meta since delay m = true /\
    if list_circle meta =? 0 then i = offer_item peer n g m
    else exists data, encrypt e (offer_item peer n g m) (mCircleId meta) g = inl data /\ i = mk_NxsItem peer n (EncryptedDataItem data).

Lemma list_messages_entries e peer n g meta since delay l0 : forall l acc, (forall m, m ∈ l -> m ∈ l0) ->
  Forall (list_entry e peer n g meta since delay l0) acc ->
  Forall (list_entry e peer n g meta since delay l0) (list_messages e peer n g meta since delay (list_circle meta) l acc).
Proof.
  induction l as [|m l IH]; intros acc Hl Hacc; cbn [list_messages]; [done|].
  assert (Hl' : forall m, m ∈ l -> m ∈ l0) by (intros m' Hm'; apply Hl; by right).
  destruct (forwards e meta since delay m) eqn:E; [|by apply IH].
  assert (Hsnoc : forall i, list_entry e peer n g meta since delay l0 i -> Forall (list_entry e peer n g meta since delay l0) (acc ++ [i])).
  { intros i Hi. apply Forall_app. split; [done|]. by constructor. }
  assert (Hm : m ∈ l0) by (apply Hl; by left).
  destruct (Z.eqb_spec (list_circle meta) 0) as [Hz|Hz]; cbn [negb].
  - apply IH; [done|]. apply Hsnoc. exists m. split; [done|]. split; [done|]. by rewrite Hz.
  - destruct (encrypt e _ _ _) as [data|] eqn:Ed; [|done]. apply IH; [done|]. apply Hsnoc. exists m. split; [done|]. split; [done|].
    apply Z.eqb_neq in Hz. rewrite Hz. by exists data.
Qed.

Lemma open_transaction_free e s flag l peer n kept sent : (open_transaction e s flag l peer n kept sent).2 <> [] ->
  find_transaction s (mOwnId s) n = None.
Proof.
  rewrite find_transaction_at. unfold open_transaction, locked_addTransaction. cbn [t_PeerId t_transactionNumber].
  by destruct (map_find (map_at [] (mTransactions s) (mOwnId s)) n).
Qed.

(** The peer may receive news: the group is known. *)
Lemma can_receive_shape e s peer g flag ts known g' s' : can_receive_msgs e s peer g flag ts = (true, known, g', s') ->
  known = true /\ exists m, s' = s <| mServerMsgUpdateMap := m |>.
Proof.
  unfold can_receive_msgs. destruct (if has _ _ then _ else _) as [g1|]; [|done].
  destruct (map_find (mServerMsgUpdateMap s) g1) as [upd|]; [|done]. destruct (can_receive e upd peer ts) as [ok u].
  intros [= -> <- _ <-]. split; [done|]. by eexists.
Qed.

Lemma req_delay_same s m g : req_delay (s <| mServerMsgUpdateMap := m |>) g = req_delay s g.
Proof.
  unfold req_delay, locked_getGrpConfig. change (mServerGrpConfigMap (s <| mServerMsgUpdateMap := m |>)) with (mServerGrpConfigMap s).
  destruct (map_find (mServerGrpConfigMap s) g); reflexivity.
Qed.

(** C14 A list of messages goes to whom it may go.  Whatever a peer asks for, in clear, hashed or encrypted, when a list is announced
    to it, the group is subscribed, is not for the end of another tunnel, and is public, or restricted to friends of whom the peer
    is one, or to a circle; the request was protected exactly for a circle; and the list has only messages of the group that may
    be forwarded, for a circle only those signed by members or not signed, each encrypted for the circle. *)
Theorem list_only_to_entitled (e : nxs_env) (s s' : RsGxsNetService) (out : list nxs_out) (peer grpId flag since ts : Z) (enc : bool) :
  handleRecvSyncMessage e s peer grpId flag since ts enc = (s', out) -> out <> [] ->
  exists g meta ms tr, map_find (grpMetas e) g = Some meta /\ has (mSubscribeFlags meta) GROUP_SUBSCRIBE_SUBSCRIBED = true /\
    wrong_tunnel e s peer g = false /\ may_list e peer meta /\
    (mCircleType meta =? GXS_CIRCLE_TYPE_EXTERNAL) = enc || has flag FLAG_USE_HASHED_GROUP_ID /\
    (forall m, m ∈ ms -> m ∈ msgMetas e g /\ insider e g meta m) /\
    find_transaction s' (mOwnId s') (next_number s) = Some tr /\
    Forall (list_entry e peer (next_number s) g meta since (send_delay e s g) ms) (mItems tr).
Proof.
  unfold handleRecvSyncMessage. destruct (can_receive_msgs e s peer grpId flag ts) as [[[ok known] g] s1] eqn:E1. destruct ok.
  2: { cbn [negb]. by intros [= _ <-]. }
  apply can_receive_shape in E1 as (-> & um & ->). cbn [orb negb].
  destruct (add_supplier_settled (s <| mServerMsgUpdateMap := um |>) g peer) as (Hs2 & conf & Hconf & Hdelay). cbn zeta in Hs2, Hconf.
  rewrite req_delay_same in Hdelay. set (s2 := let '(rec, s) := locked_getGrpConfig _ g in _) in *. clearbody s2.
  destruct (map_find (grpMetas e) g) as [meta|] eqn:Em; [|by intros [= _ <-]].
  destruct (has (mSubscribeFlags meta) GROUP_SUBSCRIBE_SUBSCRIBED) eqn:Esub; cbn [negb]; [|by intros [= _ <-]].
  destruct (Bool.eqb (mCircleType meta =? GXS_CIRCLE_TYPE_EXTERNAL) _) eqn:Ecirc; cbn [negb]; [|by intros [= _ <-]].
  apply Bool.eqb_prop in Ecirc. destruct Hs2 as (Hs2 & En & _). unfold locked_getTransactionId. rewrite En.
  change (mTransactionN (s <| mServerMsgUpdateMap := um |>)) with (mTransactionN s). fold (next_number s).
  set (s3 := s2 <| mTransactionN := next_number s |>). rewrite (max_send_delay_found e s s3 g conf) by (exact Hconf || exact Hdelay).
  assert (Hs3 : same_trans s s3) by (transitivity s2; [|done]; by transitivity (s <| mServerMsgUpdateMap := um |>)).
  destruct (canSendMsgIds e s3 (msgMetas e g) g meta peer) as [[[ms id]|] s4] eqn:E4; [|by intros [= _ <-]].
  apply canSendMsgIds_shape in E4 as (Hw & Hmay & -> & Hs4 & Hms). rewrite (wrong_tunnel_same _ _ _ _ _ (proj2 (proj2 Hs3))) in Hw.
  pose proof (list_messages_entries e peer (next_number s) g meta since (send_delay e s g) ms ms [] (fun m H => H) ltac:(constructor)) as Hl.
  destruct (list_messages _ _ _ _ _ _ _ _ _ _) as [|i0 l]; [by intros [= _ <-]|]. unfold locked_pushMsgRespFromList. cbn zeta.
  set (s5 := s4 <| mServerMsgUpdateMap := _ |>). set (itemL := i0 :: l) in *. intros Ho Hne.
  assert (Hfree : find_transaction s5 (mOwnId s5) (next_number s) = None).
  { eapply open_transaction_free. rewrite Ho. exact Hne. }
  destruct (open_transaction_spec e s5 FLAG_TYPE_MSG_LIST_RESP itemL peer (next_number s) 0
    (s_updateTS (map_at new_ServerUpdate (mServerMsgUpdateMap s4) g)) Hfree) as [Hf _].
  rewrite Ho in Hf. apply open_transaction_grows, grows_own in Ho. cbn [fst] in Hf. rewrite <- Ho in Hf.
  exists g, meta, ms. eexists. split; [done|]. split; [done|]. split; [done|]. split; [done|]. split; [done|]. split; [done|].
  split; [exact Hf|]. exact Hl.
Qed.

(** ** Who gets the messages *)

(** C20 Whoever asks for messages by their identifiers gets them.  The permissions that decide who is sent the list - a circle, a group of
    friends, a group kept to oneself - are not looked at when the messages themselves are asked for: a peer that would get no list at
    all is sent, in clear, what there is of the messages it names. *)
Theorem messages_for_the_asking (e : nxs_env) (s : RsGxsNetService) (tr : NxsTransaction) (peer n g : Z) (reqs : list (Z * Z))
    (meta : RsGxsGrpMetaData) :
  map_find (grpMetas e) g = Some meta -> (canSendMsgIds e s (msgMetas e g) g meta peer).1 = None ->
  mItems tr = request_item peer n g <$> reqs -> t_PeerId tr = peer -> g <> 0 ->
  find_transaction s (mOwnId s) (next_number s) = None -> served e g reqs.*1 <> [] ->
  waits_with FLAG_TYPE_MSGS ((fun m => mk_NxsItem peer (next_number s) (NxsMsg (clamp_msg m))) <$> served e g reqs.*1) (server_ts s g)
    (answer_of (locked_genSendMsgsTransaction e s tr) (next_number s)).
Proof. intros _ _. apply serve_answer. Qed.

(** ** What is posted meanwhile *)

(** What B keeps as the time stamp of A's last change. *)
Definition client_ts (s : RsGxsNetService) (peer g : Z) : Z := time_stamp (map_at new_MsgUpdateInfo (map_at [] (mClientMsgUpdateMap s) peer) g).

Lemma take_msgs_group p n fuel ms : forall g acc g' r, g <> 0 -> Forall (fun m => m_grpId m = g) ms ->
  take_msgs fuel (msg_item p n <$> ms) g acc = Some (g', r) -> g' = g.
Proof.
  revert ms. induction fuel as [|fuel IH]; intros [|m ms] g acc g' r Hg Hms; cbn; try done; [by intros [= <- _]|].
  apply Z.eqb_neq in Hg as Hg'. rewrite Hg'. apply IH; [done|]. by apply Forall_cons in Hms as [_ ?].
Qed.

Lemma take_msgs_first p n fuel ms g acc g' r : ms <> [] -> g <> 0 -> Forall (fun m => m_grpId m = g) ms ->
  take_msgs fuel (msg_item p n <$> ms) 0 acc = Some (g', r) -> g' = g.
Proof.
  destruct ms as [|m ms]; [done|]. intros _ Hg Hms. apply Forall_cons in Hms as [Hm Hms]. destruct fuel as [|fuel]; [done|]. cbn. rewrite Hm.
  by apply take_msgs_group.
Qed.

(** The messages are in: B keeps the time stamp that came with them. *)
Lemma messages_in_ts e fuel s tr s' out p n g ms : finished_msgs p n ms tr -> ms <> [] -> g <> 0 -> Forall (fun m => m_grpId m = g) ms ->
  ids_mem (map_at [] (mPartialMsgUpdates s) p) g = false ->
  locked_processCompletedIncomingTrans e fuel s tr = Some (s', out) -> client_ts s' p g = updateTS (mTransaction tr).
Proof.
  intros (Ep & Ei & Ef & Et) Hne Hg Hms Hpart. unfold locked_processCompletedIncomingTrans. rewrite Ef, Et, Ei. cbn -[take_msgs fmap locked_doMsgUpdateWork].
  destruct (take_msgs _ _ _ _) as [[g' msgs]|] eqn:E; [|done]. apply (take_msgs_first _ _ _ _ g) in E as ->; [|done..].
  cbn -[locked_doMsgUpdateWork]. intros [= <- _]. unfold client_ts, locked_stampMsgServerUpdateTS, locked_doMsgUpdateWork.
  cbn -[map_at map_touch map_set ids_mem]. rewrite Ep, Hpart. cbn -[map_at map_touch map_set].
  by rewrite map_at_find, decide_True, map_at_find, decide_True.
Qed.

Lemma no_news_no_answer e s peer g since ts enc upd : map_find (mServerMsgUpdateMap s) g = Some upd -> s_updateTS upd <= ts ->
  (handleRecvSyncMessage e s peer g 0 since ts enc).2 = [].
Proof.
  intros Hu Hts. unfold handleRecvSyncMessage, can_receive_msgs. change (has 0 FLAG_USE_HASHED_GROUP_ID) with false. cbn [mbind]. rewrite Hu.
  unfold can_receive. assert (H : (ts <? s_updateTS upd) = false) by (by apply Z.ltb_ge). rewrite H. reflexivity.
Qed.

(** What is posted during an exchange waits for the next post.  A takes the time stamp it sends along with the messages when it sends
    them, long after it made the list B chose from, and B keeps it as the last change of A it knows.  Whatever A posted in between, and
    whatever it posts in that very second, is not newer than that: B's next requests are answered with nothing, although A has a
    message that it never offered to B, until A posts once more. *)
Theorem posted_meanwhile_waits (eA2 eB e3 : nxs_env) (A2 A3 B B' : RsGxsNetService) (a b n g since : Z) (fuel : nat)
    (answer2 tr3 : NxsTransaction) (reqs : list (Z * Z)) (out : list nxs_out) (upd : RsGxsServerUpdate) :
  mItems answer2 = request_item b n g <$> reqs -> t_PeerId answer2 = b -> g <> 0 ->
  find_transaction A2 (mOwnId A2) (next_number A2) = None -> served eA2 g reqs.*1 <> [] ->
  Forall (fun m => m_grpId m = g) (served eA2 g reqs.*1) ->
  answer_of (locked_genSendMsgsTransaction eA2 A2 answer2) (next_number A2) = Some tr3 ->
  ids_mem (map_at [] (mPartialMsgUpdates B) a) g = false ->
  locked_processCompletedIncomingTrans eB fuel B (arrive a tr3) = Some (B', out) ->
  map_find (mServerMsgUpdateMap A3) g = Some upd -> s_updateTS upd <= server_ts A2 g ->
  (handleRecvSyncMessage e3 A3 b g 0 since (client_ts B' a g) false).2 = [].
Proof.
  intros Ei Ep Hg Hfree Hserv Hgrp Htr3 Hpart Hproc Hupd Hold.
  destruct (serve_answer eA2 A2 answer2 b n g reqs Ei Ep Hg Hfree Hserv) as (tr & E & Hi & _ & Hflag & Hts).
  rewrite Htr3 in E. injection E as <-.
  apply (no_news_no_answer _ _ _ _ _ _ _ upd); [done|].
  rewrite (messages_in_ts eB fuel B (arrive a tr3) B' out a (next_number A2) g (clamp_msg <$> served eA2 g reqs.*1)); [| | |done| |done|done].
  - cbn. by rewrite Hts.
  - split; [done|]. split; [|done]. cbn -[fmap]. rewrite Hi, <- !list_fmap_compose. by apply list_fmap_ext.
  - by destruct (served eA2 g reqs.*1).
  - apply Forall_fmap. eapply Forall_impl; [exact Hgrp|]. intros m Hm. cbn. unfold clamp_msg. by destruct (_ <? _).
Qed.

(** ** Lists that wait for a circle *)

Lemma swap_out_keeps {A} (P : A -> bool) l x : x ∈ l -> P x = false -> x ∈ (swap_out P l).1.
Proof. intros Hx HP. rewrite (proj1 (swap_out_permutes P l)). by apply list_elem_of_filter. Qed.

(** A list of messages that cannot be encrypted stops the worker.  Messages that waited for a circle that is loaded now, one of them by
    a member, are tried again at once, without end and with the lock held, for as long as the encryption does not succeed; only the
    numbers of transactions are used up. *)
Theorem unsendable_list_stops_worker (e : nxs_env) (s : RsGxsNetService) (t g peer circle : Z) (l : list MsgIdCircleVet)
    (vets : list GrpCircleVetting) (m : MsgIdCircleVet) :
  mPendingCircleVets s = MsgCircleIdsRequestVetting t l g peer circle :: vets ->
  isLoaded e circle = true -> (canSend e circle (getPgpId e peer)).2 = true ->
  m ∈ l -> isRecipient e circle g (v_MsgAuthorId m) = true -> (forall i data, encrypt e i circle g <> inl data) ->
  forall fuel, runVetting e fuel s = None.
Proof.
  intros Hv Hload Henc Hm Hrec Hfail fuel. unfold runVetting. rewrite Hv.
  enough (H : forall kept s l, m ∈ l -> run_vets e fuel (MsgCircleIdsRequestVetting t l g peer circle :: vets) kept s = None) by by rewrite H.
  clear s Hv l Hm. induction fuel as [|fuel IH]; intros kept s l Hm; [done|]. cbn [run_vets].
  unfold cleared_msgs. rewrite Hload. cbn [negb]. destruct (canSend e circle (getPgpId e peer)) as [res enc]. cbn in Henc. subst enc.
  cbn [orb]. set (l1 := (swap_out _ l).1). assert (Hm1 : m ∈ l1) by (apply swap_out_keeps; [done|by rewrite Hrec]).
  set (l2 := (swap_out _ l1).1). assert (Hm2 : m ∈ l2) by (apply swap_out_keeps; [done|by rewrite Hrec]). clearbody l1 l2.
  unfold locked_createTransactionFromPendingMsg, locked_getTransactionId.
  assert (Hnone : mapM (pending_msg e peer g circle (u32 (mTransactionN s + 1)) true) l2 = None).
  { apply eq_None_not_Some. intros [r Hr]. apply mapM_Some in Hr. apply list_elem_of_lookup in Hm2 as [k Hk].
    eapply Forall2_lookup_l in Hr as (i & _ & Hi); [|exact Hk]. unfold pending_msg in Hi.
    destruct (encrypt e _ circle g) as [data|st] eqn:E; [by apply Hfail in E|done]. }
  rewrite Hnone. cbn. rewrite IH by done. done.
Qed.

(** ** Restarting *)

(** The maps that are saved are in order and have no null key. *)
Definition map_ok {V} (m : list (Z * V)) : Prop := map_sorted m /\ Forall (fun kv => kv.1 <> 0) m.

Definition config_ok (s : RsGxsNetService) : Prop :=
  map_ok (mClientGrpUpdateMap s) /\ map_ok (mClientMsgUpdateMap s) /\ map_ok (mServerMsgUpdateMap s) /\ map_ok (mServerGrpConfigMap s).

Lemma map_set_last {V} (m : list (Z * V)) k v : Forall (fun kv => kv.1 < k) m -> map_find m k = None /\ map_set m k v = m ++ [(k, v)].
Proof.
  induction 1 as [|[k' v'] m Hk Hm [IH1 IH2]]; [done|]. cbn in Hk. split.
  - rewrite map_find_cons. by rewrite decide_False by lia.
  - cbn. assert (E1 : key_lt k k' = false) by (apply Z.ltb_ge; lia). assert (E2 : key_lt k' k = true) by (apply Z.ltb_lt; lia).
    rewrite E1, E2. by rewrite IH2.
Qed.

(** Entries stored in order make the map they come from. *)
Lemma check_store_all {V W} (f : V -> W) (m : list (Z * V)) : map_ok m -> forall acc,
  (forall kv, kv ∈ m -> Forall (fun a => a.1 < kv.1) acc) ->
  foldl (fun acc kv => check_store acc kv.1 (f kv.2)) acc m = acc ++ ((fun kv => (kv.1, f kv.2)) <$> m).
Proof.
  intros [Hs Hn]. induction m as [|[k v] m IH]; intros acc Hacc; cbn [foldl]; [by rewrite app_nil_r|].
  apply StronglySorted_inv in Hs as [Hs Hall]. apply Forall_cons in Hn as [Hk Hn]. cbn [fst snd] in *.
  destruct (map_set_last acc k (f v)) as [E1 E2]; [apply (Hacc (k, v)); by left|].
  unfold check_store. apply Z.eqb_neq in Hk. rewrite Hk, E1, E2, IH; [by rewrite <- app_assoc|done|done|].
  intros kv Hkv. apply Forall_app. split; [apply Hacc; by right|]. constructor; [|done]. rewrite Forall_forall in Hall.
  apply Hall in Hkv. cbn in Hkv. unfold key_lt, Z_key_lt in Hkv. by apply Z.ltb_lt.
Qed.

Lemma check_store_self {V} (m : list (Z * V)) : map_ok m -> foldl (fun acc kv => check_store acc kv.1 kv.2) [] m = m.
Proof.
  intros Hm. etransitivity; [apply (check_store_all (fun v => v) m Hm []); intros; constructor|]. cbn [app].
  clear Hm. induction m as [|[k v] m IH]; [done|]. cbn. by rewrite IH.
Qed.

Lemma load_grp_updates (m : list (Z * Z)) : forall s, foldl StoreHere s ((fun kv => GrpUpdateItem kv.1 kv.2) <$> m) =
  s <| mClientGrpUpdateMap := foldl (fun acc kv => check_store acc kv.1 kv.2) (mClientGrpUpdateMap s) m |>.
Proof. induction m as [|kv m IH]; intros s; cbn [fmap list_fmap foldl]; [by destruct s|]. by rewrite IH. Qed.

Lemma load_msg_updates (m : list (Z * list (Z * MsgUpdateInfo))) : forall s, foldl StoreHere s ((fun kv => MsgUpdateItem kv.1 kv.2) <$> m) =
  s <| mClientMsgUpdateMap := foldl (fun acc kv => check_store acc kv.1 kv.2) (mClientMsgUpdateMap s) m |>.
Proof. induction m as [|kv m IH]; intros s; cbn [fmap list_fmap foldl]; [by destruct s|]. by rewrite IH. Qed.

Definition fresh_update (u : RsGxsServerUpdate) : RsGxsServerUpdate := mk_ServerUpdate (s_updateTS u) [].

Lemma load_server_updates (m : list (Z * RsGxsServerUpdate)) : forall s,
  foldl StoreHere s ((fun kv => ServerMsgUpdateItem kv.1 (s_updateTS kv.2)) <$> m) =
  s <| mServerMsgUpdateMap := foldl (fun acc kv => check_store acc kv.1 (fresh_update kv.2)) (mServerMsgUpdateMap s) m |>.
Proof. induction m as [|kv m IH]; intros s; cbn [fmap list_fmap foldl]; [by destruct s|]. by rewrite IH. Qed.

Definition fresh_config (c : RsGxsGrpConfig) : RsGxsGrpConfig := mk_GrpConfig (msg_keep_delay c) (msg_send_delay c) (msg_req_delay c) [] 0 0 0.

Lemma load_configs (m : list (Z * RsGxsGrpConfig)) : forall s,
  foldl StoreHere s ((fun kv => GrpConfigItem kv.1 (msg_keep_delay kv.2) (msg_send_delay kv.2) (msg_req_delay kv.2)) <$> m) =
  s <| mServerGrpConfigMap := foldl (fun acc kv => check_store acc kv.1 (fresh_config kv.2)) (mServerGrpConfigMap s) m |>.
Proof. induction m as [|kv m IH]; intros s; cbn [fmap list_fmap foldl]; [by destruct s|]. by rewrite IH. Qed.

Lemma locked_checkDelay_idem d : locked_checkDelay (locked_checkDelay d) = locked_checkDelay d.
Proof. unfold locked_checkDelay at 2 3. repeat (case_match; [reflexivity|]). reflexivity. Qed.

(** What the settings of a group are after a restart. *)
Definition restored (e : nxs_env) (g : Z) (c : RsGxsGrpConfig) : RsGxsGrpConfig :=
  mk_GrpConfig (locked_checkDelay (msg_keep_delay c)) (msg_send_delay c) (locked_checkDelay (msg_req_delay c)) [] 0
    (now e - GROUP_STATS_UPDATE_DELAY + random_u32 e g mod (GROUP_STATS_UPDATE_DELAY / 10)) 0.

(** C21 What a restart keeps: a service that loads what another one saved knows the same time stamps of every friend, for groups and for
    the messages of each group, and of its own changes; of the settings of a group the delays come back, rounded as they are when
    they are set - rounding twice is rounding once -, while suppliers, counts and who was last answered what are forgotten, and the
    statistics are due at a random time. *)
Theorem nxs_save_load (e : nxs_env) (s : RsGxsNetService) (own flags store sync : Z) :
  config_ok s ->
  let s1 := loadList e (new_NetService own flags store sync) (saveList s) in
  mClientGrpUpdateMap s1 = mClientGrpUpdateMap s /\ mClientMsgUpdateMap s1 = mClientMsgUpdateMap s /\
  (forall g, getGroupServerUpdateTS s1 g = getGroupServerUpdateTS s g) /\
  (forall g, map_find (mServerGrpConfigMap s1) g = restored e g <$> map_find (mServerGrpConfigMap s) g) /\
  (forall d, locked_checkDelay (locked_checkDelay d) = locked_checkDelay d).
Proof.
  intros (H1 & H2 & H3 & H4). cbn zeta. unfold loadList, saveList. rewrite !foldl_app, load_grp_updates, load_msg_updates, load_server_updates, load_configs.
  cbn -[fmap]. rewrite (check_store_self _ H1), (check_store_self _ H2), (check_store_all fresh_update _ H3 []), (check_store_all fresh_config _ H4 [])
    by (intros; constructor). cbn -[fmap]. split; [done|]. split; [done|]. split; [|split; [|apply locked_checkDelay_idem]].
  - intros g. unfold getGroupServerUpdateTS. cbn -[fmap]. f_equal. rewrite (map_find_fmap (fun _ => fresh_update)). by destruct (map_find _ g).
  - intros g. rewrite <- list_fmap_compose. etransitivity; [exact (map_find_fmap (restored e) (mServerGrpConfigMap s) g)|done].
Qed.
