(* ===== verification/NxsLive.v ===== *)
(** * Runs that come to an end, and what arrives in them

    A turn of either thread returns unless it finds one of the things it cannot get past: the main thread data from a tunnel that does
    not parse, the worker a finished transaction with an item of another kind or a list that cannot be encrypted.  When no turn of a
    run finds any of them, apart from one transaction of a friend that is well formed, the run returns, and what the friend sends
    arrives. *)

From S2P Require Import Prelude StdMap Nxs NxsTrans NxsSync NxsViews NxsRun NxsExchange NxsProps.
From Stdlib Require Import ZArith Lia.
From stdpp Require Import base list.
Open Scope Z_scope.

(** ** What stops a turn *)

(** The transactions there are, each with the peer and the number it is filed under. *)
Definition all_transactions (s : RsGxsNetService) : list (Z * Z * NxsTransaction) :=
  pm ← mTransactions s; nt ← pm.2; [(pm.1, nt.1, nt.2)].

(** What a turn leaves to be completed of a transaction, when it is done with it. *)
Definition finishes (e : nxs_env) (s : RsGxsNetService) (p n : Z) (tr : NxsTransaction) : option NxsTransaction :=
  let '(tr', done, _) := step_transaction e s p n tr in if done is Some _ then Some tr' else None.

(** Messages of members that wait for a circle that is loaded now can be encrypted, when they have to be. *)
Definition can_be_sent (e : nxs_env) (vet : GrpCircleVetting) : Prop :=
  match vet with
  | GrpCircleIdRequestVetting _ _ _ => True
  | MsgCircleIdsRequestVetting _ l g peer circle =>
      isLoaded e circle = true -> (canSend e circle (getPgpId e peer)).2 = true ->
      forall m transN, m ∈ l -> isRecipient e circle g (v_MsgAuthorId m) = true ->
      exists data, encrypt e (mk_NxsItem peer transN (SyncMsgItem FLAG_RESPONSE g (v_MsgId m) (v_MsgAuthorId m))) circle g = inl data
  end.

(** Nothing but, perhaps, the transaction [n] of [p] keeps the worker from returning; [fuel] is enough for what there is. *)
Record worker_unhindered (p n : Z) (e : nxs_env) (fuel : nat) (s : RsGxsNetService) : Prop := {
  unhindered_waiting : forall tr, tr ∈ mComplTransactions s -> t_PeerId tr <> mOwnId s -> can_be_emptied fuel tr;
  unhindered_others : forall p' n' tr tr', (p', n', tr) ∈ all_transactions s -> (p', n') <> (p, n) ->
    finishes e s p' n' tr = Some tr' -> t_PeerId tr' <> mOwnId s -> can_be_emptied fuel tr';
  unhindered_vets : Forall (can_be_sent e) (mPendingCircleVets s);
  unhindered_fuel : (length (mPendingCircleVets s) < fuel)%nat
}.

(** The data of tunnels parses, when it is looked at. *)
Definition tunnels_parse (e : nxs_env) (s : RsGxsNetService) (i : nxs_incoming) : Prop :=
  has (mSyncFlags s) DISTANT_SYNC && mGxsNetTunnel e = true -> Forall (fun pd => is_Some pd.2) (tunnel i).

Definition turn_unhindered (p n : Z) (s : RsGxsNetService) (ev : nxs_event) : Prop :=
  match ev with Tick e i => tunnels_parse e s i | ThreadTick e fuel => worker_unhindered p n e fuel s end.

(** Every turn of a run, in the state it finds. *)
Fixpoint run_unhindered (p n : Z) (s : RsGxsNetService) (evs : list nxs_event) : Prop :=
  match evs with
  | [] => True
  | ev :: evs => turn_unhindered p n s ev /\ forall s1 out, run_event s ev = Some (s1, out) -> run_unhindered p n s1 evs
  end.

(** ** The main thread *)

Lemma recv_returns e s i : tunnels_parse e s i <-> is_Some (recvNxsItemQueue e s i).
Proof.
  unfold tunnels_parse, recvNxsItemQueue, tunnel_items. destruct (has _ _ && _).
  - set (f := fun pd : Z * option (Z * nxs_body) => '(n, b) ← pd.2; Some (mk_NxsItem pd.1 n b)).
    assert (Hf : forall pd, is_Some (f pd) <-> is_Some pd.2).
    { intros [q [[m b]|]]; cbn; split; intros [? ?]; try done; by eexists. }
    assert (E : is_Some (mapM f (tunnel i)) <-> is_Some (l ← mapM f (tunnel i); Some (recv_all e s (queue i ++ l)))).
    { destruct (mapM f (tunnel i)); cbn; split; intros [? ?]; try done; by eexists. }
    rewrite <- E, mapM_is_Some. split; [intros H; specialize (H eq_refl)|intros H _]; (eapply Forall_impl; [exact H|]; intros pd; apply Hf).
  - split; [by eexists|done].
Qed.

Lemma tick_returns e s i : tunnels_parse e s i -> is_Some (tick e s i).
Proof. intros [r E]%recv_returns. unfold tick. rewrite E. by eexists. Qed.

(** ** The worker *)

(** What decides whether the worker returns. *)
Definition same_work (s s' : RsGxsNetService) : Prop :=
  mTransactions s' = mTransactions s /\ mComplTransactions s' = mComplTransactions s /\ mPendingCircleVets s' = mPendingCircleVets s /\
  mOwnId s' = mOwnId s /\ mSyncFlags s' = mSyncFlags s.

#[export] Instance same_work_preorder : PreOrder same_work.
Proof. split; [done|]. intros s1 s2 s3 (?&?&?&?&?) (?&?&?&?&?). repeat split; congruence. Qed.

Lemma foldl_update_group_work e l : forall r, same_work r.1 (foldl (update_group_TS e) r l).1.
Proof.
  induction l as [|kv l IH]; intros r; [done|]. cbn [foldl]. etransitivity; [|apply IH]. destruct r as [s change].
  unfold update_group_TS. by repeat case_match.
Qed.

Lemma updateServerSyncTS_work e s : same_work s (updateServerSyncTS e s).
Proof.
  unfold updateServerSyncTS. set (t := s <| mServerMsgUpdateMap := _ |>).
  pose proof (foldl_update_group_work e (grpMetas e) (t, false)) as H. destruct (foldl _ _ _) as [u c].
  transitivity t; [done|]. transitivity u; [done|]. by destruct c.
Qed.

Lemma incoming_vets e fuel s tr s' out : locked_processCompletedIncomingTrans e fuel s tr = Some (s', out) ->
  mPendingCircleVets s' = mPendingCircleVets s.
Proof.
  unfold locked_processCompletedIncomingTrans. intros H.
  repeat (case_match; simplify_option_eq); try reflexivity.
  - match goal with E : locked_genReqMsgTransaction _ _ _ = _ |- _ => revert E end.
    unfold locked_genReqMsgTransaction, locked_pushMsgTransactionFromList, open_transaction, locked_addTransaction, locked_getGrpConfig,
      locked_getTransactionId. intros. by repeat (case_match; simplify_eq/=).
  - match goal with E : locked_genReqGrpTransaction _ _ _ = _ |- _ => revert E end.
    unfold locked_genReqGrpTransaction, locked_pushGrpTransactionFromList, open_transaction, locked_addTransaction,
      locked_getTransactionId, note_grp_update. intros. by repeat (case_match; simplify_eq/=).
  - match goal with E : locked_genSendMsgsTransaction _ _ _ = _ |- _ => revert E end.
    unfold locked_genSendMsgsTransaction, open_transaction, locked_addTransaction, locked_getTransactionId.
    intros. by repeat (case_match; simplify_eq/=).
  - match goal with E : locked_genSendGrpsTransaction _ _ _ = _ |- _ => revert E end.
    unfold locked_genSendGrpsTransaction, open_transaction, locked_addTransaction, locked_getTransactionId.
    intros. by repeat (case_match; simplify_eq/=).
  - unfold locked_stampMsgServerUpdateTS, locked_doMsgUpdateWork. by case_match.
Qed.

Lemma complete_all_vets e fuel l : forall s s' out, complete_all e fuel l s = Some (s', out) ->
  mPendingCircleVets s' = mPendingCircleVets s.
Proof.
  induction l as [|tr l IH]; intros s s' out; cbn; [by intros [= <- _]|].
  destruct (if _ =? _ then _ else _) as [[s1 out1]|] eqn:E1; [|done]. cbn.
  destruct (complete_all e fuel l s1) as [[s2 out2]|] eqn:E2; [|done]. intros [= <- _]. apply IH in E2 as ->.
  destruct (_ =? _); [by injection E1 as <-|]. by eapply incoming_vets.
Qed.

(** ** Waiting for circles *)

Lemma swap_out_subset {A} (P : A -> bool) l x : x ∈ (swap_out P l).1 -> x ∈ l /\ P x = false.
Proof. rewrite (proj1 (swap_out_permutes P l)). rewrite list_elem_of_filter. tauto. Qed.

(** Messages that are cleared are sent, or there is nothing to send. *)
Lemma pending_msgs_sent e s peer g circle enc (l : list MsgIdCircleVet) :
  (enc = true -> forall m transN, m ∈ l ->
    exists data, encrypt e (mk_NxsItem peer transN (SyncMsgItem FLAG_RESPONSE g (v_MsgId m) (v_MsgAuthorId m))) circle g = inl data) ->
  (locked_createTransactionFromPendingMsg e s peer g circle enc l).1.1 = true.
Proof.
  intros H. unfold locked_createTransactionFromPendingMsg, locked_getTransactionId.
  assert (Hs : is_Some (mapM (pending_msg e peer g circle (u32 (mTransactionN s + 1)) enc) l)).
  { apply mapM_is_Some, Forall_forall. intros m Hm. unfold compose, pending_msg. destruct enc; [|by eexists].
    destruct (H eq_refl m (u32 (mTransactionN s + 1)) Hm) as [data ->]. by eexists. }
  destruct Hs as [[|i itemL] ->]; [done|]. by destruct (locked_pushMsgRespFromList _ _ _ _ _ _).
Qed.

Lemma cleared_msgs_loaded e peer g circle l : isLoaded e circle = true ->
  cleared_msgs e peer g circle l =
    ((canSend e circle (getPgpId e peer)).2 || (canSend e circle (getPgpId e peer)).1, (canSend e circle (getPgpId e peer)).2,
     (swap_out (fun m => negb (isRecipient e circle g (v_MsgAuthorId m))) l).1, []).
Proof. intros H. unfold cleared_msgs. rewrite H. cbn. by destruct (canSend _ _ _). Qed.

Lemma run_vets_returns e fuel : forall vets kept s, Forall (can_be_sent e) vets -> (length vets < fuel)%nat ->
  is_Some (run_vets e fuel vets kept s).
Proof.
  induction fuel as [|fuel IH]; intros vets kept s Hv Hf; [lia|]. destruct vets as [|[t l peer|t l g peer circle] vets]; cbn [run_vets].
  - by eexists.
  - apply Forall_cons in Hv as [_ Hv]. cbn [length] in Hf. destruct (cleared_groups e peer l) as [[ok l'] out1].
    destruct (ok || expired e t).
    + destruct (locked_createTransactionFromPendingGrp e s peer l') as [s1 out2].
      destruct (IH vets kept s1 Hv ltac:(lia)) as [[[k s2] o] ->]. by eexists.
    + destruct (IH vets (kept ++ [GrpCircleIdRequestVetting t l' peer]) s Hv ltac:(lia)) as [[[k s2] o] ->]. by eexists.
  - apply Forall_cons in Hv as [Hm Hv]. cbn [length] in Hf. cbn in Hm.
    assert (Hnext : forall kept s (f : list nxs_out -> list nxs_out),
      is_Some ('(kept, s, out) ← run_vets e fuel vets kept s; Some (kept, s, f out))).
    { intros k s1 f. destruct (IH vets k s1 Hv ltac:(lia)) as [[[k' s2] o] ->]. by eexists. }
    destruct (isLoaded e circle) eqn:Eload.
    + rewrite (cleared_msgs_loaded e peer g circle l Eload). destruct (canSend e circle (getPgpId e peer)) as [res enc] eqn:Ec. cbn [fst snd] in *.
      destruct ((enc || res) || expired e t); [|apply (Hnext _ _ (app []))].
      rewrite cleared_msgs_loaded by done. rewrite Ec. cbn [fst snd]. destruct (enc || res); [|apply (Hnext _ _ (fun o => [] ++ [] ++ o))].
      set (l2 := (swap_out _ (swap_out _ l).1).1).
      assert (Hsent := pending_msgs_sent e s peer g circle enc l2). destruct (locked_createTransactionFromPendingMsg _ _ _ _ _ _ _) as [[sent s1] out3].
      cbn [fst] in Hsent. rewrite Hsent; [apply (Hnext _ _ (fun o => [] ++ [] ++ out3 ++ o))|]. intros Henc m transN Hin. subst l2.
      apply swap_out_subset in Hin as [[Hin Hr]%swap_out_subset _]. apply Hm; [done|done|done|by apply negb_false_iff].
    + unfold cleared_msgs. rewrite Eload. cbn [negb orb]. destruct (expired e t).
      * apply (Hnext _ _ (fun o => [LoadCircle circle] ++ [LoadCircle circle] ++ o)).
      * apply (Hnext _ _ (app [LoadCircle circle])).
Qed.

(** ** A turn of the worker *)

Lemma all_transactions_elem s p n tr : (p, n, tr) ∈ all_transactions s <-> exists m, (p, m) ∈ mTransactions s /\ (n, tr) ∈ m.
Proof.
  unfold all_transactions. rewrite list_elem_of_bind. split.
  - intros ([p' m] & H & Hin). apply list_elem_of_bind in H as ([n' tr'] & H & Hm). apply list_elem_of_singleton in H as [= -> -> ->].
    by exists m.
  - intros (m & Hin & Hm). exists (p, m). split; [|done]. apply list_elem_of_bind. exists (n, tr). split; [by left|done].
Qed.

Lemma all_transactions_find s p n tr : trans_ok s -> (p, n, tr) ∈ all_transactions s -> find_transaction s p n = Some tr.
Proof.
  intros [Hs Hp] (m & Hin & Hm)%all_transactions_elem. unfold find_transaction.
  pose proof (Hp p m Hin) as [Hsm _]. apply map_find_In in Hin; [|done]. rewrite Hin. by apply map_find_In.
Qed.

Lemma processTransactions_from e s tr' : tr' ∈ mComplTransactions (processTransactions e s).1 ->
  tr' ∈ mComplTransactions s \/ exists p n tr, (p, n, tr) ∈ all_transactions s /\ finishes e s p n tr = Some tr'.
Proof.
  cbn. intros [H|H]%elem_of_app; [by left|right]. apply elem_of_concat in H as (l & H & Hl).
  apply list_elem_of_fmap in H as ([p r] & -> & H). apply list_elem_of_fmap in H as ([p' m] & [= -> ->] & H).
  cbn in Hl. apply list_elem_of_omap in Hl as ([n x] & Hx & E). apply list_elem_of_fmap in Hx as ([n' tr] & [= -> ->] & Hx). cbn in E.
  exists p', n', tr. split; [apply all_transactions_elem; by exists m|]. unfold finishes.
  destruct (step_transaction e s p' n' tr) as [[tr1 d] o]. cbn in E. by destruct d.
Qed.

Lemma finishes_same e s s' p n tr : mOwnId s' = mOwnId s -> finishes e s' p n tr = finishes e s p n tr.
Proof.
  intros E. unfold finishes, step_transaction. rewrite E. unfold step_outgoing, step_incoming, processTransactionForDecryption.
  by destruct (p =? mOwnId s); repeat case_match; simplify_eq/=.
Qed.

(** Without hindrance, and with the transaction itself no hindrance, the turn returns. *)
Lemma threadTick_returns p n e fuel s : trans_ok s -> worker_unhindered p n e fuel s ->
  (forall tr tr', find_transaction s p n = Some tr -> finishes e s p n tr = Some tr' -> can_be_emptied fuel tr') ->
  is_Some (threadTick e fuel s).
Proof.
  intros Hok [Hw Ho Hv Hfuel] Hown. unfold threadTick. set (s1 := if 120 <=? mUpdateCounter s then _ else _).
  assert (H1 : same_work s s1).
  { subst s1. destruct (120 <=? mUpdateCounter s); [|done]. transitivity (updateServerSyncTS e s); [apply updateServerSyncTS_work|done]. }
  clearbody s1. destruct H1 as (E1 & E2 & E3 & E4 & _).
  assert (Ea : all_transactions s1 = all_transactions s) by (unfold all_transactions; by rewrite E1).
  assert (Hc : is_Some (processCompletedTransactions e fuel (processTransactions e s1).1)).
  { unfold processCompletedTransactions.
    destruct (complete_all e fuel (mComplTransactions (processTransactions e s1).1) (processTransactions e s1).1) as [[s3 o]|] eqn:E;
      [by eexists|].
    apply eq_None_not_Some in E. destruct E. apply complete_all_returns. intros tr' Hin Hp.
    apply processTransactions_from in Hin as [Hin|(p' & n' & tr & Hin & Hfin)].
    - rewrite E2 in Hin. apply Hw; [done|]. by rewrite <- E4.
    - rewrite Ea in Hin. rewrite (finishes_same _ _ _ _ _ _ E4) in Hfin. destruct (decide ((p', n') = (p, n))) as [[= -> ->]|Hne].
      + eapply Hown; [|done]. by apply all_transactions_find.
      + eapply Ho; [done|done|done|]. by rewrite <- E4. }
  destruct (processTransactions e s1) as [s2 out1] eqn:Ep. cbn [fst] in Hc. destruct Hc as [[s3 out2] Hc]. rewrite Hc. cbn [mbind option_bind].
  assert (Ev : mPendingCircleVets s3 = mPendingCircleVets s).
  { unfold processCompletedTransactions in Hc. destruct (complete_all e fuel _ s2) as [[s3' o]|] eqn:E; [|done].
    apply complete_all_vets in E. injection Hc as <- _. cbn. rewrite E, <- E3. by injection Ep as <- _. }
  unfold runVetting. rewrite Ev. destruct (run_vets_returns e fuel (mPendingCircleVets s) [] s3 Hv Hfuel) as [[[k s4] o] ->].
  cbn [mbind option_bind]. destruct (processExplicitGroupRequests _ _). by eexists.
Qed.

(** ** Runs *)

Lemma run_unhindered_app p n evs1 : forall s evs2, run_unhindered p n s (evs1 ++ evs2) ->
  run_unhindered p n s evs1 /\ forall s1 out, run_events s evs1 = Some (s1, out) -> run_unhindered p n s1 evs2.
Proof.
  induction evs1 as [|ev evs1 IH]; intros s evs2 H; cbn in *.
  - split; [done|]. by intros s1 out [= <- _].
  - destruct H as [Ht H]. split.
    + split; [done|]. intros s1 out E. by apply (IH s1 evs2), (H s1 out).
    + intros s2 out. destruct (run_event s ev) as [[s1 out1]|] eqn:E; [|done]. cbn.
      destruct (run_events s1 evs1) as [[s2' out2]|] eqn:E2; [|done]. intros [= <- _].
      eapply (IH s1 evs2); [by eapply H|exact E2].
Qed.

Lemma incoming_events_same s s' p n evs : mSyncFlags s' = mSyncFlags s -> forall v,
  foldl (incoming_event s' p n) v evs = foldl (incoming_event s p n) v evs.
Proof.
  intros E. induction evs as [|ev evs IH]; intros v; [done|]. cbn. by rewrite (incoming_event_same _ _ _ _ _ _ E), IH.
Qed.

(** A run in which the transaction is not finished yet. *)
Lemma run_returns p n evs : n <> 0 -> forall s, trans_ok s -> p <> mOwnId s -> run_unhindered p n s evs ->
  (forall evs1 e fuel evs2 tr, evs = evs1 ++ ThreadTick e fuel :: evs2 ->
    foldl (incoming_event s p n) (find_transaction s p n) evs1 = Some tr -> finishes e s p n tr = None) ->
  is_Some (run_events s evs).
Proof.
  intros Hn. induction evs as [|ev evs IH]; intros s Hok Hp Hrun Hun; [by eexists|]. destruct Hrun as [Ht Hrun].
  assert (Hev : is_Some (run_event s ev)).
  { destruct ev as [e i|e fuel]; cbn in *; [by apply tick_returns|]. eapply threadTick_returns; [done|exact Ht|].
    intros tr tr' Hf Hfin. by rewrite (Hun [] e fuel evs tr) in Hfin. }
  cbn. destruct Hev as [[s1 out1] Hev]. rewrite Hev. cbn. destruct (run_event_same _ _ _ _ Hev) as (E1 & E2 & Hok1).
  destruct (IH s1) as [[s2 out2] ->]; [by apply Hok1|congruence|by eapply Hrun| |by eexists].
  intros evs1 e fuel evs2 tr -> Hf. rewrite (finishes_same e s s1 p n tr E1).
  apply (Hun (ev :: evs1) e fuel evs2 tr); [done|]. cbn [foldl].
  by rewrite <- (run_event_incoming s ev s1 out1 p n Hok Hp Hn Hev), <- (incoming_events_same s s1 p n evs1 E2).
Qed.

(** A transaction that is not complete is not finished in time. *)
Lemma unfinished e s p n tr : p <> mOwnId s -> u32 (now e) <= mTimeOut tr ->
  u16 (mFlag tr) = FLAG_STATE_RECEIVING \/ u16 (mFlag tr) = FLAG_STATE_STARTING -> finishes e s p n tr = None.
Proof.
  intros Hp Ht Hf. unfold finishes, step_transaction, step_incoming, locked_checkTransacTimedOut. apply Z.eqb_neq in Hp. rewrite Hp.
  assert (Hto : (mTimeOut tr <? u32 (now e)) = false) by (apply Z.ltb_ge; done). rewrite Hto. destruct Hf as [-> | ->]; cbn; [|done].
  by destruct (_ =? _).
Qed.

(** The transaction up to the turn that finds it complete. *)
Lemma transaction_unfinished s p n t l e0 i0 e1 f1 evs e2 f2 : p <> mOwnId s -> find_transaction s p n = None ->
  of_transaction p n (heard s e0 i0) = [mk_NxsItem p n (TransacItem t)] -> announces (transactFlag t) ->
  nItems t = Z.of_nat (length l) -> Forall plain l -> items_of s p n evs = l ->
  (forall evs1 e f evs2, evs = evs1 ++ ThreadTick e f :: evs2 -> items_of s p n evs2 <> []) ->
  in_time (u32 (u32 (now e0) + TRANSAC_TIMEOUT)) (ThreadTick e1 f1 :: evs ++ [ThreadTick e2 f2]) ->
  forall evs1 e f rest tr, Tick e0 i0 :: ThreadTick e1 f1 :: evs ++ [ThreadTick e2 f2] = evs1 ++ ThreadTick e f :: rest ->
    foldl (incoming_event s p n) (find_transaction s p n) evs1 = Some tr -> finishes e s p n tr = None.
Proof.
  intros Hp Hnone H0 [Hf1 Hf2] Hlen Hpl Hl Hlast Hin evs1 e f rest tr Hsplit. rewrite Hnone.
  destruct evs1 as [|ev0 evs1]; [done|]. injection Hsplit as <- Hsplit. cbn [foldl incoming_event]. rewrite H0. cbn [foldl].
  assert (E0 : view_recv e0 None (mk_NxsItem p n (TransacItem t)) = Some (announced_trans FLAG_STATE_STARTING e0 p n t)).
  { unfold view_recv. cbn [body]. by rewrite Hf1, Hf2. }
  rewrite E0. assert (Hin' : u32 (now e) <= u32 (u32 (now e0) + TRANSAC_TIMEOUT)).
  { apply (Hin e f). rewrite Hsplit. apply elem_of_app. right. by left. }
  destruct evs1 as [|ev1 evs1].
  - intros [= <-]. by apply unfinished; [| |right].
  - injection Hsplit as <- Hsplit. cbn [foldl incoming_event mbind option_bind].
    assert (E1 : incoming_turn e1 (announced_trans FLAG_STATE_STARTING e0 p n t) = Some (announced_trans FLAG_STATE_RECEIVING e0 p n t)).
    { unfold incoming_turn, locked_checkTransacTimedOut. cbn [announced_trans mTimeOut mFlag].
      assert (Hto : (u32 (u32 (now e0) + TRANSAC_TIMEOUT) <? u32 (now e1)) = false) by (apply Z.ltb_ge, (Hin e1 f1); by left).
      by rewrite Hto. }
    rewrite E1. assert (Hk : exists k, evs = evs1 ++ k).
    { apply app_eq_app in Hsplit as (k & [[-> Hk]|[-> Hk]]); [by exists k|]. exists []. rewrite app_nil_r.
      destruct k as [|ev k]; [by rewrite app_nil_r|]. injection Hk as <- Hk. by destruct k. }
    destruct Hk as [k ->]. rewrite (receiving_prefix s p n k evs1); [| |exact Hlast|done| |].
    + intros [= <-]. by apply unfinished; [| |left].
    + by rewrite Hl.
    + intros e' f' H. apply (Hin e' f'). right. rewrite <- app_assoc. apply elem_of_app. by left.
    + cbn. by rewrite Hl.
Qed.

(** The messages in the finished transaction are all taken out. *)
Lemma msgs_can_be_emptied e s p n ms tr tr' fuel : p <> mOwnId s -> finished_msgs p n ms tr -> u16 (mFlag tr) = FLAG_STATE_COMPLETED ->
  u32 (now e) <= mTimeOut tr -> finishes e s p n tr = Some tr' -> (length ms < fuel)%nat -> can_be_emptied fuel tr'.
Proof.
  intros Hp (_ & Hl & Hc & Hf) Hfl Ht Hfin Hfuel. unfold finishes, step_transaction, step_incoming, locked_checkTransacTimedOut in Hfin.
  apply Z.eqb_neq in Hp. rewrite Hp in Hfin. assert (Hto : (mTimeOut tr <? u32 (now e)) = false) by (apply Z.ltb_ge; done).
  rewrite Hto, Hfl in Hfin. cbn -[omap] in Hfin. injection Hfin as <-. unfold can_be_emptied, loops_over.
  cbn -[omap has]. rewrite Hc, Hf, Hl, decrypt_msgs. intros kind [= <-]. split; [|by rewrite length_fmap].
  apply Forall_fmap, Forall_true. done.
Qed.

(** C3 The messages of a transaction arrive.  A friend announces a transaction of messages under a number that is free; the worker makes
    a turn, in which it says it is ready; then the items come, in any number of turns of the main thread with turns of the worker
    between them, while other friends, tunnels and transactions go on with theirs.  If the turns of the worker are within the time
    limit of the transaction, and none of the turns finds, apart from this transaction, something that it cannot get past, then
    every turn returns, and two turns of the worker after the last item all messages, in order and next to each other, are among
    those the observer is given next, and the friend has been sent that the node is ready and that it has all.  What a turn cannot
    get past ([run_unhindered]) is, for the main thread, data from a tunnel that does not parse (a null pointer), and for the worker
    a transaction of another friend, finished in that turn, that announced groups or messages and holds an item of another kind
    ([foreign_item_stops_worker]), and messages that wait for a circle for which they cannot be encrypted
    ([unsendable_list_stops_worker]).  The fuel of a turn is to be more than the items of such a transaction, the lists that wait and,
    in the last turn, the messages. *)
Theorem messages_arrive (s : RsGxsNetService) (p n ts stamp : Z) (ms : list RsNxsMsg)
    (e0 e1 e2 e3 : nxs_env) (i0 : nxs_incoming) (f1 f2 f3 : nat) (evs : list nxs_event) :
  trans_ok s -> p <> mOwnId s -> n <> 0 -> find_transaction s p n = None ->
  of_transaction p n (heard s e0 i0) =
    [mk_NxsItem p n (TransacItem (mk_Transac FLAG_ANNOUNCE_MSGS (Z.of_nat (length ms)) ts stamp))] ->
  items_of s p n evs = msg_item p n <$> ms ->
  (forall evs1 e f evs2, evs = evs1 ++ ThreadTick e f :: evs2 -> items_of s p n evs2 <> []) ->
  in_time (u32 (u32 (now e0) + TRANSAC_TIMEOUT)) (ThreadTick e1 f1 :: evs ++ [ThreadTick e2 f2; ThreadTick e3 f3]) ->
  run_unhindered p n s (Tick e0 i0 :: ThreadTick e1 f1 :: evs ++ [ThreadTick e2 f2; ThreadTick e3 f3]) ->
  (length ms < f3)%nat ->
  exists s' out,
    run_events s (Tick e0 i0 :: ThreadTick e1 f1 :: evs ++ [ThreadTick e2 f2; ThreadTick e3 f3]) = Some (s', out) /\
    (exists l1 l2, mNewMessagesToNotify s' = l1 ++ (pair p <$> ms) ++ l2) /\
    generic_sendItem e1 s (confirmation p n (Z.lor FLAG_BEGIN_P2 FLAG_TYPE_MSGS)) ∈ out /\
    generic_sendItem e3 s (confirmation p n FLAG_END_SUCCESS) ∈ out.
Proof.
  intros Hok Hp Hn Hnone H0 Hl Hlast Ht Hrun Hfuel.
  assert (Hin : in_time (u32 (u32 (now e0) + TRANSAC_TIMEOUT)) (ThreadTick e1 f1 :: evs ++ [ThreadTick e2 f2])).
  { intros e f. specialize (Ht e f). rewrite !elem_of_cons, !elem_of_app, !elem_of_cons in *. tauto. }
  assert (Hann : announces FLAG_ANNOUNCE_MSGS) by done.
  assert (Hlen : Z.of_nat (length ms) = Z.of_nat (length (msg_item p n <$> ms))) by by rewrite length_fmap.
  assert (Hpl : Forall plain (msg_item p n <$> ms)) by by apply Forall_fmap, Forall_true.
  assert (Esplit : Tick e0 i0 :: ThreadTick e1 f1 :: evs ++ [ThreadTick e2 f2; ThreadTick e3 f3] =
    (Tick e0 i0 :: ThreadTick e1 f1 :: evs ++ [ThreadTick e2 f2]) ++ [ThreadTick e3 f3]) by (cbn; by rewrite <- app_assoc).
  rewrite Esplit in *. apply run_unhindered_app in Hrun as [Hrun Hlast3].
  assert (Hun := transaction_unfinished s p n _ _ e0 i0 e1 f1 evs e2 f2 Hp Hnone H0 Hann Hlen Hpl Hl Hlast Hin).
  destruct (run_returns p n _ Hn s Hok Hp Hrun Hun) as [[s3 o3] Hr3].
  destruct (transaction_arrives s s3 o3 p n _ _ e0 e1 e2 i0 f1 f2 evs Hok Hp Hn Hnone H0 Hann Hlen Hpl Hl Hlast Hin Hr3)
    as (Hok3 & Eo & Ef & HP2 & tr & Htr & Hfin & Hf3 & Et).
  assert (Ht3 : u32 (now e3) <= mTimeOut tr).
  { rewrite Et. apply (Ht e3 f3). rewrite elem_of_cons, !elem_of_app, !elem_of_cons. tauto. }
  assert (Hp3 : p <> mOwnId s3) by congruence.
  destruct (Hlast3 s3 o3 Hr3) as [Hturn _]. cbn in Hturn.
  destruct (threadTick_returns p n e3 f3 s3 Hok3 Hturn) as [[s4 o4] Hr4].
  { intros tr1 tr' Htr1 Hf. rewrite Htr in Htr1. injection Htr1 as <-. by apply (msgs_can_be_emptied e3 s3 p n ms tr tr' f3). }
  destruct (threadTick_notifies _ _ _ _ _ p n ms tr Hok3 Hp3 Htr Hfin Hf3 Ht3 Hr4) as [Hm HE].
  exists s4, (o3 ++ o4). split; [|split; [done|split; rewrite !elem_of_app]].
  - rewrite nxs_events_app, Hr3. cbn -[threadTick]. rewrite Hr4. cbn. by rewrite app_nil_r.
  - by left.
  - right. unfold generic_sendItem in *. by rewrite Ef in HE.
Qed.
