(* ===== verification/NxsDemo.v ===== *)
(** * A small network to try the theorems about the synchronisation of groups on

    Node 1 has group 10 and some messages of it, node 2 has the group and none.  Every theorem with hypotheses is applied here at
    such a state, where they hold. *)

From S2P Require Import Prelude StdMap Nxs NxsTrans NxsSync NxsViews NxsRun NxsExchange NxsProps NxsLive.
From Stdlib Require Import ZArith Lia.
From stdpp Require Import base list sorting.
Open Scope Z_scope.

Definition demo_meta (circle_type : Z) : RsGxsGrpMetaData :=
  mk_GrpMeta GROUP_SUBSCRIBE_SUBSCRIBED 5 5 0 77 circle_type 0 0 0 [] [].

Definition demo_msg (m : Z) : RsGxsMsgMetaData := mk_MsgMeta m 0 0 900.

(** The time, the type of the circle of group 10, and the messages there are. *)
Definition demo_env (t circle_type : Z) (msgs : list Z) : nxs_env :=
  mk_nxs_env true t [2] false [] (fun _ => None) [(10, demo_meta circle_type)] (fun g => if g =? 10 then demo_msg <$> msgs else [])
    (fun _ => None) (fun g m => if (g =? 10) && bool_decide (m ∈ msgs) then [mk_NxsMsg g m 0 1 [] [m]] else []) (fun _ => true)
    (fun _ => 2) (fun _ => None) (fun _ => true) (fun _ _ _ => true) (fun _ _ => (true, true)) (fun _ => None) (fun p => p) (fun _ => None)
    (fun p g => p + g) (fun _ _ _ => inr ENCRYPTION_STATUS_CIRCLE_ERROR) (fun _ => None) (fun _ => 0).

Definition demo_node (own : Z) : RsGxsNetService := new_NetService own AUTO_SYNC_MESSAGES 0 0.

(** Node 1 after a post at time 1000. *)
Definition demo_poster : RsGxsNetService := stampMsgServerUpdateTS (demo_env 1000 GXS_CIRCLE_TYPE_PUBLIC []) (demo_node 1) 10.

Lemma demo_node_ok own : trans_ok (demo_node own).
Proof. split; [constructor|]. intros p m H. by apply not_elem_of_nil in H. Qed.

Definition from (p n : Z) (b : nxs_body) : RsNxsItem := mk_NxsItem p n b.
Definition queue_of (l : list RsNxsItem) : nxs_incoming := mk_Incoming l [].

(** Node 1 announces two messages to node 2 and sends them in two goes, with a turn of the worker between them. *)
Definition demo_msgs : list RsNxsMsg := [mk_NxsMsg 10 21 0 1 [] [21]; mk_NxsMsg 10 22 0 1 [] [22]].
Definition at_time (t : Z) : nxs_env := demo_env t GXS_CIRCLE_TYPE_PUBLIC [].
Definition demo_announce : nxs_incoming := queue_of [from 1 7 (TransacItem (mk_Transac FLAG_ANNOUNCE_MSGS 2 950 0))].
Definition demo_delivery : list nxs_event :=
  [Tick (at_time 1003) (queue_of [msg_item 1 7 (mk_NxsMsg 10 21 0 1 [] [21])]); ThreadTick (at_time 1003) 5;
   Tick (at_time 1004) (queue_of [from 3 7 PullRequestItem; msg_item 1 7 (mk_NxsMsg 10 22 0 1 [] [22])])].

Definition turn_time (ev : nxs_event) : Z := match ev with ThreadTick e _ => u32 (now e) | Tick _ _ => 0 end.

Lemma in_time_check limit evs : forallb (fun ev => turn_time ev <=? limit) evs = true -> in_time limit evs.
Proof.
  intros H e f Hin. rewrite forallb_forall in H. apply list_elem_of_In, H in Hin. by apply Z.leb_le in Hin.
Qed.

Lemma transactions_independent_witness : exists s' out,
  run_events (demo_node 2) [Tick (at_time 1001) demo_announce; ThreadTick (at_time 1002) 5] = Some (s', out) /\ trans_ok s' /\
  find_transaction s' 1 7 = Some (announced_trans FLAG_STATE_RECEIVING (at_time 1001) 1 7 (mk_Transac FLAG_ANNOUNCE_MSGS 2 950 0)).
Proof.
  destruct (run_events (demo_node 2) [Tick (at_time 1001) demo_announce; ThreadTick (at_time 1002) 5]) as [[s' out]|] eqn:E;
    [|vm_compute in E; discriminate].
  exists s', out. split; [reflexivity|]. destruct (transactions_independent _ _ _ _ (demo_node_ok 2) E) as (Hok & Hin & _).
  split; [exact Hok|]. rewrite (Hin 1 7) by done. reflexivity.
Defined.

(** Nothing but the transaction is there. *)
Definition only_transaction (p n : Z) (s : RsGxsNetService) : bool :=
  forallb (fun x => (x.1.1 =? p) && (x.1.2 =? n)) (all_transactions s) &&
  bool_decide (length (mComplTransactions s) = 0%nat) && bool_decide (length (mPendingCircleVets s) = 0%nat).

Lemma only_transaction_unhindered p n e fuel s : only_transaction p n s = true -> (0 < fuel)%nat -> worker_unhindered p n e fuel s.
Proof.
  unfold only_transaction. intros [[Ha Hc%bool_decide_eq_true]%andb_true_iff Hv%bool_decide_eq_true]%andb_true_iff Hf.
  apply nil_length_inv in Hc, Hv. split.
  - rewrite Hc. intros tr H. by apply not_elem_of_nil in H.
  - intros p' n' tr tr' H Hne. rewrite forallb_forall in Ha. apply list_elem_of_In, Ha in H. cbn in H.
    apply andb_true_iff in H as [->%Z.eqb_eq ->%Z.eqb_eq]. done.
  - by rewrite Hv.
  - by rewrite Hv.
Qed.

Fixpoint demo_unhindered (p n : Z) (s : RsGxsNetService) (evs : list nxs_event) : bool :=
  match evs with
  | [] => true
  | ev :: evs =>
      match ev with Tick _ i => bool_decide (length (tunnel i) = 0%nat) | ThreadTick _ f => only_transaction p n s && (0 <? f)%nat end &&
      match run_event s ev with Some (s1, _) => demo_unhindered p n s1 evs | None => true end
  end.

Lemma demo_unhindered_run p n evs : forall s, demo_unhindered p n s evs = true -> run_unhindered p n s evs.
Proof.
  induction evs as [|ev evs IH]; intros s H; [done|]. cbn [demo_unhindered] in H. apply andb_true_iff in H as [Ht H]. split.
  - destruct ev as [e i|e f]; cbn.
    + apply bool_decide_eq_true, nil_length_inv in Ht. unfold tunnels_parse. rewrite Ht. constructor.
    + apply andb_true_iff in Ht as [Ho Hf%Nat.ltb_lt]. by apply only_transaction_unhindered.
  - intros s1 out E. rewrite E in H. by apply IH.
Qed.

Lemma messages_arrive_witness : exists s' out,
  run_events (demo_node 2) (Tick (at_time 1001) demo_announce :: ThreadTick (at_time 1002) 5 :: demo_delivery ++
    [ThreadTick (at_time 1005) 5; ThreadTick (at_time 1006) 5]) = Some (s', out) /\
  (exists l1 l2, mNewMessagesToNotify s' = l1 ++ (pair 1 <$> demo_msgs) ++ l2) /\
  SendItem (confirmation 1 7 (Z.lor FLAG_BEGIN_P2 FLAG_TYPE_MSGS)) ∈ out /\ SendItem (confirmation 1 7 FLAG_END_SUCCESS) ∈ out.
Proof.
  apply (messages_arrive (demo_node 2) 1 7 950 0 demo_msgs (at_time 1001) (at_time 1002) (at_time 1005) (at_time 1006) demo_announce 5 5 5
    demo_delivery (demo_node_ok 2)).
  - done.
  - done.
  - reflexivity.
  - reflexivity.
  - reflexivity.
  - intros evs1 e f evs2 Hd. destruct evs1 as [|ev1 [|ev2 [|ev3 evs1]]].
    + discriminate.
    + apply (f_equal (drop 2)) in Hd. change (drop 2 demo_delivery = evs2) in Hd. subst evs2. discriminate.
    + discriminate.
    + apply (f_equal (drop 3)) in Hd. change ([] = evs1 ++ ThreadTick e f :: evs2) in Hd. by destruct evs1.
  - by apply in_time_check.
  - apply demo_unhindered_run. vm_compute. reflexivity.
  - cbn. lia.
Defined.

(** Node 2, which has message 22, asks node 1, which has 21, 22 and 23 and by the time it sends also 24. *)
Definition env_A : nxs_env := demo_env 1010 GXS_CIRCLE_TYPE_PUBLIC [23; 22; 21].
Definition env_A2 : nxs_env := demo_env 1020 GXS_CIRCLE_TYPE_PUBLIC [24; 23; 22; 21].
Definition env_B : nxs_env := demo_env 1015 GXS_CIRCLE_TYPE_PUBLIC [22].

Definition demo_request : list (Z * Z) :=
  requested env_B (demo_node 2) 10 (ids_offered (offered env_A demo_poster 10 (demo_meta GXS_CIRCLE_TYPE_PUBLIC) 0 (send_delay env_A demo_poster 10))).

Lemma message_exchange_witness : demo_request = [(23, 0); (21, 0)] /\
  waits_with FLAG_TYPE_MSGS [from 2 1 (NxsMsg (mk_NxsMsg 10 21 0 1 [] [21])); from 2 1 (NxsMsg (mk_NxsMsg 10 23 0 1 [] [23]))] 1000
    (answer_of (locked_genSendMsgsTransaction env_A2 demo_poster
      (arrived 2 (answer_of (locked_genReqMsgTransaction env_B (demo_node 2)
        (arrived 1 (answer_of (handleRecvSyncMessage env_A demo_poster 2 10 0 0 0 false) (next_number demo_poster))))
        (next_number (demo_node 2))))) (next_number demo_poster)).
Proof.
  split; [reflexivity|].
  pose proof (message_exchange env_A env_A2 env_B demo_poster demo_poster (demo_node 2) 1 2 10 0 0 (demo_meta GXS_CIRCLE_TYPE_PUBLIC)
    (demo_meta GXS_CIRCLE_TYPE_PUBLIC)) as H. cbv zeta in H. apply H.
  - done.
  - by repeat split.
  - eexists. split; [reflexivity|]. split; vm_compute; [reflexivity|discriminate].
  - reflexivity.
  - reflexivity.
  - reflexivity.
  - reflexivity.
  - reflexivity.
  - vm_compute. discriminate.
  - vm_compute. discriminate.
Defined.

(** Node 3 announces one message and sends a request to pull in its place. *)
Definition demo_trap : list nxs_event := [Tick (at_time 1002) (queue_of [from 3 9 PullRequestItem])].

Lemma foreign_item_stops_worker_witness : exists s' out,
  run_events (demo_node 2) (Tick (at_time 1000) (queue_of [from 3 9 (TransacItem (mk_Transac FLAG_ANNOUNCE_MSGS 1 0 0))]) ::
    ThreadTick (at_time 1001) 5 :: demo_trap ++ [ThreadTick (at_time 1003) 5]) = Some (s', out) /\
  forall fuel, run_event s' (ThreadTick (at_time 1004) fuel) = None.
Proof.
  destruct (run_events (demo_node 2) _) as [[s' out]|] eqn:E; [|vm_compute in E; discriminate].
  exists s', out. split; [reflexivity|].
  apply (foreign_item_stops_worker (demo_node 2) s' out 3 9 (mk_Transac FLAG_ANNOUNCE_MSGS 1 0 0) [from 3 9 PullRequestItem]
    (from 3 9 PullRequestItem) (at_time 1000) (at_time 1001) (at_time 1003) (at_time 1004)
    (queue_of [from 3 9 (TransacItem (mk_Transac FLAG_ANNOUNCE_MSGS 1 0 0))]) 5 5 demo_trap (demo_node_ok 2)).
  - done.
  - done.
  - reflexivity.
  - reflexivity.
  - by right.
  - reflexivity.
  - by repeat constructor.
  - by left.
  - done.
  - reflexivity.
  - intros evs1 e f evs2 Hd. destruct evs1 as [|ev1 [|ev2 evs1]]; discriminate.
  - by apply in_time_check.
  - vm_compute. discriminate.
  - exact E.
Defined.

(** Node 1 has just announced its list to node 2; node 3 confirms it. *)
Definition demo_lister : RsGxsNetService := (handleRecvSyncMessage env_A demo_poster 2 10 0 0 0 false).1.

Lemma demo_lister_ok : trans_ok demo_lister.
Proof.
  unfold demo_lister. destruct (handleRecvSyncMessage env_A demo_poster 2 10 0 0 0 false) as [s o] eqn:E.
  apply handleRecvSyncMessage_grows, grows_ok in E. apply E. apply (demo_node_ok 1).
Qed.

Lemma any_friend_ends_transaction_witness : exists tr, find_transaction demo_lister 1 1 = Some tr /\ length (mItems tr) = 3%nat /\
  find_transaction (processTransactions (at_time 1020) (recv_item env_A demo_lister (confirmation 3 1 FLAG_END_SUCCESS)).1).1 1 1 = None.
Proof.
  destruct (find_transaction demo_lister 1 1) as [tr|] eqn:E; [|vm_compute in E; discriminate].
  exists tr. split; [reflexivity|]. split; [vm_compute in E; injection E as <-; reflexivity|].
  assert (Hq : 3 <> mOwnId demo_lister) by (vm_compute; discriminate). assert (Hn : 1 <> 0) by discriminate.
  exact (proj1 (proj2 (any_friend_ends_transaction env_A (at_time 1020) demo_lister 3 1 tr demo_lister_ok Hq Hn E))).
Defined.

Lemma list_only_to_entitled_witness : exists g meta ms tr, g = 10 /\ map_find (grpMetas env_A) g = Some meta /\ may_list env_A 2 meta /\
  Forall (list_entry env_A 2 1 g meta 0 0 ms) (mItems tr) /\ find_transaction demo_lister 1 1 = Some tr.
Proof.
  destruct (handleRecvSyncMessage env_A demo_poster 2 10 0 0 0 false) as [s' out] eqn:E.
  assert (Hout : out <> []) by (intros ->; vm_compute in E; discriminate).
  destruct (list_only_to_entitled env_A demo_poster s' out 2 10 0 0 0 false E Hout) as (g & meta & ms & tr & H1 & _ & _ & H4 & _ & _ & H7 & H8).
  exists g, meta, ms, tr. assert (Hg : g = 10).
  { cbn in H1. destruct (decide (key_eqv g 10)) as [Hd|]; [by apply Z_key_eqv in Hd|discriminate]. }
  subst g. split; [reflexivity|]. split; [exact H1|]. split; [exact H4|]. split; [exact H8|].
  unfold demo_lister. rewrite E. cbn [fst]. assert (Ho : mOwnId s' = 1) by (vm_compute in E; injection E as <- _; reflexivity).
  rewrite Ho in H7. exact H7.
Defined.

(** A group that is kept to node 1: no list, but the message. *)
Lemma messages_for_the_asking_witness :
  let e := demo_env 1010 GXS_CIRCLE_TYPE_LOCAL [23] in
  let tr := mk_NxsTransaction FLAG_STATE_COMPLETED 3000 2 5 (mk_Transac 0 1 0 0) [request_item 2 5 10 (23, 0)] in
  (canSendMsgIds e (demo_node 1) (msgMetas e 10) 10 (demo_meta GXS_CIRCLE_TYPE_LOCAL) 2).1 = None /\
  waits_with FLAG_TYPE_MSGS [from 2 1 (NxsMsg (mk_NxsMsg 10 23 0 1 [] [23]))] 0
    (answer_of (locked_genSendMsgsTransaction e (demo_node 1) tr) (next_number (demo_node 1))).
Proof.
  intros e tr. split; [reflexivity|].
  apply (messages_for_the_asking e (demo_node 1) tr 2 5 10 [(23, 0)] (demo_meta GXS_CIRCLE_TYPE_LOCAL)); try reflexivity; try discriminate.
Defined.

(** Node 1 posts message 24 after it has made the list, and before it sends. *)
Definition demo_poster2 : RsGxsNetService := stampMsgServerUpdateTS (at_time 1018) demo_poster 10.
Definition demo_requests : NxsTransaction :=
  mk_NxsTransaction FLAG_STATE_COMPLETED 3000 2 5 (mk_Transac 0 2 0 0) (request_item 2 5 10 <$> demo_request).

Lemma posted_meanwhile_waits_witness : exists tr3 B' out,
  answer_of (locked_genSendMsgsTransaction env_A2 demo_poster2 demo_requests) (next_number demo_poster2) = Some tr3 /\
  locked_processCompletedIncomingTrans env_B 5 (demo_node 2) (arrive 1 tr3) = Some (B', out) /\
  (mNewMessagesToNotify B').*2 = [mk_NxsMsg 10 21 0 1 [] [21]; mk_NxsMsg 10 23 0 1 [] [23]] /\
  24 ∈ (mm_MsgId <$> msgMetas env_A2 10) /\
  (handleRecvSyncMessage env_A2 demo_poster2 2 10 0 0 (client_ts B' 1 10) false).2 = [].
Proof.
  destruct (answer_of (locked_genSendMsgsTransaction env_A2 demo_poster2 demo_requests) (next_number demo_poster2)) as [tr3|] eqn:E3;
    [|vm_compute in E3; discriminate].
  destruct (locked_processCompletedIncomingTrans env_B 5 (demo_node 2) (arrive 1 tr3)) as [[B' out]|] eqn:E;
    [|vm_compute in E3; injection E3 as <-; vm_compute in E; discriminate].
  exists tr3, B', out. split; [reflexivity|]. split; [exact E|]. split.
  { vm_compute in E3. injection E3 as <-. vm_compute in E. injection E as <- _. reflexivity. }
  split; [by left|].
  apply (posted_meanwhile_waits env_A2 env_B env_A2 demo_poster2 demo_poster2 (demo_node 2) B' 1 2 5 10 0 5 demo_requests tr3 demo_request out
    (mk_ServerUpdate 1018 [])).
  - reflexivity.
  - reflexivity.
  - done.
  - reflexivity.
  - vm_compute. discriminate.
  - by vm_compute; repeat constructor.
  - exact E3.
  - reflexivity.
  - exact E.
  - reflexivity.
  - vm_compute. discriminate.
Defined.

(** A message of a member waits for a circle whose encryption does not work. *)
Lemma unsendable_list_stops_worker_witness :
  let s := (demo_node 1) <| mPendingCircleVets := [MsgCircleIdsRequestVetting 1000 [mk_MsgVet 21 5] 10 2 77] |> in
  forall fuel, runVetting env_A fuel s = None.
Proof.
  intros s. apply (unsendable_list_stops_worker env_A s 1000 10 2 77 [mk_MsgVet 21 5] [] (mk_MsgVet 21 5)); try reflexivity.
  - by left.
  - discriminate.
Defined.

Lemma nxs_save_load_witness : config_ok (setKeepAge demo_poster 10 5000000) /\
  getGroupServerUpdateTS (loadList (at_time 5000) (demo_node 1) (saveList (setKeepAge demo_poster 10 5000000))) 10 = (0, 1000).
Proof.
  assert (Hok : config_ok (setKeepAge demo_poster 10 5000000)).
  { unfold config_ok, map_ok, map_sorted. vm_compute mClientGrpUpdateMap. vm_compute mClientMsgUpdateMap. vm_compute mServerMsgUpdateMap.
    vm_compute mServerGrpConfigMap. repeat constructor; discriminate. }
  split; [exact Hok|].
  exact (proj1 (proj2 (proj2 (nxs_save_load (at_time 5000) (setKeepAge demo_poster 10 5000000) 1 AUTO_SYNC_MESSAGES 0 0 Hok))) 10).
Defined.
