(* ===== verification/Lobby.v ===== *)
(** * Chat lobbies: src/chat/distributedchat.cc, distributedchat.h, rschatitems.h, retroshare/rschats.h

    A lobby is a chat room without a server.  Every member knows which of its friends take part, and passes each message on to
    them, unless it has seen it before: messages spread from friend to friend.  Friends find out who takes part from the lists of
    lobbies they send each other, from invitations, and - in private lobbies - from challenges that only someone who has
    seen a recent message can answer.

    Peers are the numbers their 16 bytes make, identities and lobbies likewise.  The clock, the friends connected, identities, reputations,
    signatures (OpenSSL behind [RsGixs]), the size of serialised items and the numbers drawn at random are the record [chat_env]; what is
    done to others is the list of [chat_out].  Where a number is drawn until it is a free one, [None] says that the numbers given do not
    suffice.  Left out are the statistics of time shifts, which only post an event, and printing. *)

From S2P Require Import Prelude RsExpr.
From Stdlib Require Import ZArith Lia SpecFloat String.
From stdpp Require Import base list gmap sorting.
Open Scope Z_scope.

(** ** Constants *)

Definition CONNECTION_CHALLENGE_MAX_COUNT : Z := 20.
Definition CONNECTION_CHALLENGE_MAX_MSG_AGE : Z := 30.
Definition CONNECTION_CHALLENGE_MIN_DELAY : Z := 15.
Definition LOBBY_CACHE_CLEANING_PERIOD : Z := 10.
Definition MAX_KEEP_MSG_RECORD : Z := 1200.
Definition MAX_KEEP_INACTIVE_NICKNAME : Z := 180.
Definition MAX_DELAY_BETWEEN_LOBBY_KEEP_ALIVE : Z := 120.
Definition MAX_KEEP_PUBLIC_LOBBY_RECORD : Z := 60.
Definition MIN_DELAY_BETWEEN_PUBLIC_LOBBY_REQ : Z := 20.
Definition LOBBY_LIST_AUTO_UPDATE_TIME : Z := 121.
Definition MAX_ALLOWED_LOBBIES_IN_LIST_WARNING : nat := 50.
Definition MAX_MESSAGES_PER_SECONDS_PERIOD : Z := 10.
Definition MAX_ITEM_SIZE : Z := 32000.

Definition RS_CHAT_LOBBY_FLAGS_AUTO_SUBSCRIBE : Z := 0x00000001.
Definition RS_CHAT_LOBBY_FLAGS_PUBLIC : Z := 0x00000004.
Definition RS_CHAT_LOBBY_FLAGS_CHALLENGE : Z := 0x00000008.
Definition RS_CHAT_LOBBY_FLAGS_PGP_SIGNED : Z := 0x00000010.

Definition RS_CHAT_LOBBY_EVENT_PEER_LEFT : Z := 0x01.
Definition RS_CHAT_LOBBY_EVENT_PEER_STATUS : Z := 0x02.
Definition RS_CHAT_LOBBY_EVENT_PEER_JOINED : Z := 0x03.
Definition RS_CHAT_LOBBY_EVENT_PEER_CHANGE_NICKNAME : Z := 0x04.
Definition RS_CHAT_LOBBY_EVENT_KEEP_ALIVE : Z := 0x05.

Definition RS_CHAT_FLAG_PRIVATE : Z := 0x0001.
Definition RS_CHAT_FLAG_LOBBY : Z := 0x0200.

Definition RS_IDENTITY_FLAGS_IS_OWN_ID : Z := 0x0008.
Definition RS_IDENTITY_FLAGS_PGP_LINKED : Z := 0x0002.
Definition REPUTATION_LOCALLY_NEGATIVE : Z := 0.
Definition RS_GIXS_ERROR_KEY_NOT_AVAILABLE : Z := 0x02.

(** [flags & f] of [t_RsFlags32] *)
Definition has_flag (flags f : Z) : bool := 0 <? Z.land flags f.

Definition IS_PUBLIC_LOBBY (flags : Z) : bool := has_flag flags RS_CHAT_LOBBY_FLAGS_PUBLIC.
Definition IS_PGP_SIGNED_LOBBY (flags : Z) : bool := has_flag flags RS_CHAT_LOBBY_FLAGS_PGP_SIGNED.
Definition IS_CONNEXION_CHALLENGE (flags : Z) : bool := has_flag flags RS_CHAT_LOBBY_FLAGS_CHALLENGE.
Definition EXTRACT_PRIVACY_FLAGS (flags : Z) : Z := Z.land flags (Z.lor RS_CHAT_LOBBY_FLAGS_PUBLIC RS_CHAT_LOBBY_FLAGS_PGP_SIGNED).

(** ** Items *)

(** What bounces: a message or an event, with the lobby, its number, the nickname of who sent it and a signature. *)
Inductive bouncing_content :=
| LobbyMsg (chatFlags sendTime parent_msg_id : Z) (message : list Z)
| LobbyEvent (event_type sendTime : Z) (string1 : list Z).

Record RsChatLobbyBouncingObject := mk_Bouncing {
  b_lobby_id : Z; msg_id : Z; nick : list Z; keyId : Z; signData : list Z; content : bouncing_content }.

#[export] Instance eta_Bouncing : Eta RsChatLobbyBouncingObject := fun o =>
  mk_Bouncing (b_lobby_id o) (msg_id o) (nick o) (keyId o) (signData o) (content o).

Definition sendTime (o : RsChatLobbyBouncingObject) : Z :=
  match content o with LobbyMsg _ t _ _ => t | LobbyEvent _ t _ => t end.

Record VisibleChatLobbyInfo := mk_VisibleInfo { i_id : Z; i_name : list Z; i_topic : list Z; i_count : Z; i_flags : Z }.

Record RsChatLobbyInviteItem := mk_Invite { n_lobby_id : Z; n_lobby_name : list Z; n_lobby_topic : list Z; n_lobby_flags : Z }.

Inductive RsChatItem :=
| LobbyObject (o : RsChatLobbyBouncingObject)
| LobbyListRequest
| LobbyList (lobbies : list VisibleChatLobbyInfo)
| LobbyUnsubscribe (lobby_id : Z)
| LobbyConnectChallenge (challenge_code : Z)
| LobbyInvite_Deprecated (i : RsChatLobbyInviteItem)
| LobbyInvite (i : RsChatLobbyInviteItem).

(** ** State *)

(** [ChatLobbyInfo], the part of an entry that is saved. *)
Record ChatLobbyInfo := mk_LobbyInfo {
  lobby_id : Z; lobby_name : list Z; lobby_topic : list Z; participating_friends : gset Z; gxs_id : Z; lobby_flags : Z; gxs_ids : gmap Z Z;
  last_activity : Z }.

#[export] Instance eta_LobbyInfo : Eta ChatLobbyInfo := fun i =>
  mk_LobbyInfo (lobby_id i) (lobby_name i) (lobby_topic i) (participating_friends i) (gxs_id i) (lobby_flags i) (gxs_ids i) (last_activity i).

Record ChatLobbyEntry := mk_LobbyEntry {
  info : ChatLobbyInfo; msg_cache : gmap Z Z; virtual_peer_id : Z; connexion_challenge_count : Z; last_connexion_challenge_time : Z;
  joined_lobby_packet_sent : bool; last_keep_alive_packet_time : Z; previously_known_peers : gset Z }.

#[export] Instance eta_LobbyEntry : Eta ChatLobbyEntry := fun l =>
  mk_LobbyEntry (info l) (msg_cache l) (virtual_peer_id l) (connexion_challenge_count l) (last_connexion_challenge_time l)
    (joined_lobby_packet_sent l) (last_keep_alive_packet_time l) (previously_known_peers l).

Record ChatLobbyInvite := mk_LobbyInvite { v_lobby_id : Z; v_peer_id : Z; v_lobby_name : list Z; v_lobby_topic : list Z; v_lobby_flags : Z }.

Record VisibleChatLobbyRecord := mk_VisibleRecord {
  r_lobby_id : Z; r_lobby_name : list Z; r_lobby_topic : list Z; r_participating_friends : gset Z; total_number_of_peers : Z;
  last_report_time : Z; r_lobby_flags : Z }.

(** The static variables of [flush] and of [locked_bouncingObjectCheck] are fields. *)
Record DistributedChatService := mk_ChatService {
  _chat_lobbys : gmap Z ChatLobbyEntry;
  _lobby_invites_queue : gmap Z ChatLobbyInvite;
  _visible_lobbies : gmap Z VisibleChatLobbyRecord;
  _known_lobbies_flags : gmap Z Z;
  last_visible_lobby_info_request_time : Z;
  _should_reset_lobby_counts : bool;
  _default_identity : Z;
  _lobby_default_identity : gmap Z Z;
  message_counts : gmap (Z * Z) (list Z);
  last_clean_time_lobby : Z;
  last_req_chat_lobby_list : Z }.

#[export] Instance eta_ChatService : Eta DistributedChatService := fun s =>
  mk_ChatService (_chat_lobbys s) (_lobby_invites_queue s) (_visible_lobbies s) (_known_lobbies_flags s) (last_visible_lobby_info_request_time s)
    (_should_reset_lobby_counts s) (_default_identity s) (_lobby_default_identity s) (message_counts s) (last_clean_time_lobby s)
    (last_req_chat_lobby_list s).

Definition new_ChatService : DistributedChatService := mk_ChatService ∅ ∅ ∅ ∅ 0 false 0 ∅ ∅ 0 0.

(** ** The others *)

Record chat_env := mk_chat_env {
  now : Z;
  ownId : Z;
  getPeersConnected : gset Z;
  overallReputationLevel : Z -> Z;
  (* nickname and flags *)
  getIdDetails : Z -> option (list Z * Z);
  getOwnIds : list Z;
  isOwnId : Z -> bool;
  (* an object serialises for its signature; the error, if the signature does not check *)
  serialises : RsChatLobbyBouncingObject -> bool;
  validateData : RsChatLobbyBouncingObject -> option Z;
  signature : RsChatLobbyBouncingObject -> option (list Z);
  item_size : RsChatItem -> Z;
  (* what is drawn for a lobby, and for a new one *)
  random_msg_id : Z -> list Z;
  random_lobby_id : list Z
}.

Inductive chat_out :=
| SendChatItem (PeerId : Z) (i : RsChatItem)
| RequestKey (id peer : Z)
| AddRoutingClue (id peer : Z)
| StoreIncomingMsg (lobby virtual_peer : Z) (message : list Z)
| AddMessage (lobby id time : Z) (msg : list Z)
| PostMessage (lobby id time : Z) (msg : list Z)
| PostLobbyEvent (code lobby id : Z) (str : list Z)
| PostListChanged
| PostInviteReceived
| TriggerConfigSave.

(** A set in the order of its members, as the code iterates over it. *)
Definition members (s : gset Z) : list Z := merge_sort Z.le (elements s).

(** The first number drawn that is not a key yet. *)
Definition draw_free {A} (l : list Z) (m : gmap Z A) : option Z := List.find (fun n => bool_decide (m !! n = None)) l.

(** A pass over a list that threads the state and gathers what is done to others; none when a turn has none. *)
Fixpoint each {A} (f : A -> DistributedChatService -> option (DistributedChatService * list chat_out)) (l : list A) (s : DistributedChatService) :
    option (DistributedChatService * list chat_out) :=
  match l with
  | [] => Some (s, [])
  | x :: l => '(s, o1) ← f x s; '(s, o2) ← each f l s; Some (s, o1 ++ o2)
  end.

(** ** Objects that bounce *)

(** How many messages of a lobby a friend may pass on within the window: [std::max(10.0f, 10*lobby_count / (float)120 * 10)]. *)
Definition max_cnt (lobby_count : Z) : float32 :=
  let rate := f32_mul (f32_div (f32_of_Z (u32 (10 * lobby_count))) (f32_of_Z MAX_DELAY_BETWEEN_LOBBY_KEEP_ALIVE))
                (f32_of_Z MAX_MESSAGES_PER_SECONDS_PERIOD) in
  if float_lt (f32_of_Z 10) rate then rate else f32_of_Z 10.

(** Old time stamps leave the front of the list. *)
Fixpoint pop_old (now : Z) (lst : list Z) : list Z :=
  match lst with
  | t :: l => if t + MAX_MESSAGES_PER_SECONDS_PERIOD <? now then pop_old now l else lst
  | [] => []
  end.

Section Service.
Context (E : chat_env).

Definition locked_bouncingObjectCheck (lobby peer_id : Z) (s : DistributedChatService) : DistributedChatService * bool :=
  let count :=
    match _visible_lobbies s !! lobby with
    | Some r => Some (total_number_of_peers r)
    | None => match _chat_lobbys s !! lobby with Some l => Some (u32 (Z.of_nat (size (gxs_ids (info l))))) | None => None end
    end in
  match count with
  | None => (s, false)
  | Some lobby_count =>
      let lst := pop_old (now E) (default [] (message_counts s !! (peer_id, lobby))) in
      if float_lt (max_cnt lobby_count) (f32_of_Z (Z.of_nat (length lst)))
      then (s <| message_counts := <[(peer_id, lobby) := lst]> (message_counts s) |>, false)
      else (s <| message_counts := <[(peer_id, lobby) := lst ++ [now E]]> (message_counts s) |>, true)
  end.

Definition checkSizeAndSendLobbyMessage (peer : Z) (i : RsChatItem) : list chat_out :=
  if MAX_ITEM_SIZE <? item_size E i then [] else [SendChatItem peer i].

(** [obj2], a copy for each participating friend but the one it came from. *)
Definition forward (o : RsChatLobbyBouncingObject) (peer_id : Z) (friends : gset Z) : list chat_out :=
  concat ((fun p => if bool_decide (p <> peer_id /\ p ∈ getPeersConnected E) then checkSizeAndSendLobbyMessage p (LobbyObject o) else [])
            <$> members friends).

Definition bounceLobbyObject (o : RsChatLobbyBouncingObject) (peer_id : Z) (s : DistributedChatService) :
    DistributedChatService * list chat_out * bool :=
  match _chat_lobbys s !! b_lobby_id o with
  | None => (s, [], false)
  | Some l =>
      let i := info l in
      let i := if decide (peer_id = ownId E) then i else i <| participating_friends := {[peer_id]} ∪ participating_friends i |> in
      let i := i <| gxs_ids := <[keyId o := now E]> (gxs_ids i) |> in
      let found := msg_cache l !! msg_id o in
      let l := l <| info := i |> <| msg_cache := <[msg_id o := now E]> (msg_cache l) |> in
      match found with
      | Some _ => (s <| _chat_lobbys := <[b_lobby_id o := l]> (_chat_lobbys s) |>, [], false)
      | None =>
          let l := l <| info := i <| last_activity := now E |> |> in
          let s := s <| _chat_lobbys := <[b_lobby_id o := l]> (_chat_lobbys s) |> in
          let '(s, ok) := locked_bouncingObjectCheck (b_lobby_id o) peer_id s in
          if ok then
            let l' := l <| connexion_challenge_count := connexion_challenge_count l + 1 |> in
            (s <| _chat_lobbys := <[b_lobby_id o := l']> (_chat_lobbys s) |>, forward o peer_id (participating_friends i), true)
          else (s, [], false)
      end
  end.

Definition checkSignature (o : RsChatLobbyBouncingObject) (peer_id : Z) : list chat_out * bool :=
  ([RequestKey (keyId o) peer_id],
   serialises E o && match validateData E o with
                     | None => true
                     | Some error_status => error_status =? RS_GIXS_ERROR_KEY_NOT_AVAILABLE
                     end).

(** What a lobby that asks for identities linked to a node takes. *)
Definition pgp_linked (fl id : Z) : bool :=
  if IS_PGP_SIGNED_LOBBY fl then
    match getIdDetails E id with Some (_, mFlags) => has_flag mFlags RS_IDENTITY_FLAGS_PGP_LINKED | None => false end
  else true.

(** A message older than what the cache keeps, or more than ten minutes ahead. *)
Definition outdated (o : RsChatLobbyBouncingObject) : bool := sendTime o + MAX_KEEP_MSG_RECORD <? now E + 100.
Definition from_future (o : RsChatLobbyBouncingObject) : bool := now E + 600 <? sendTime o.

Definition getVirtualPeerId (id : Z) (s : DistributedChatService) : option Z := virtual_peer_id <$> _chat_lobbys s !! id.

(** The result is the peer id the message is shown with: the lobby's, or the null one if the lobby is not there. *)
Definition handleRecvChatLobbyMsgItem (o : RsChatLobbyBouncingObject) (PeerId : Z) (s : DistributedChatService) :
    DistributedChatService * list chat_out * option Z :=
  if outdated o || from_future o then (s, [], None)
  else if overallReputationLevel E (keyId o) =? REPUTATION_LOCALLY_NEGATIVE then (s, [], None)
  else
    let '(out, ok) := checkSignature o PeerId in
    if ok then
      let out := out ++ [AddRoutingClue (keyId o) PeerId] in
      match _chat_lobbys s !! b_lobby_id o with
      | None => (s, out, None)
      | Some l =>
          if pgp_linked (lobby_flags (info l)) (keyId o) then
            let '(s, out', ok) := bounceLobbyObject o PeerId s in
            (s, out ++ out', if ok then Some (default 0 (getVirtualPeerId (b_lobby_id o) s)) else None)
          else (s, out, None)
      end
    else (s, out, None).

(** What an event that was taken changes, and the code of the event it is told as. *)
Definition on_lobby_event (event_type id : Z) (l : ChatLobbyEntry) : ChatLobbyEntry :=
  let seen := l <| info := (info l) <| gxs_ids := <[id := now E]> (gxs_ids (info l)) |> |> in
  if event_type =? RS_CHAT_LOBBY_EVENT_PEER_LEFT then l <| info := (info l) <| gxs_ids := delete id (gxs_ids (info l)) |> |>
  else if event_type =? RS_CHAT_LOBBY_EVENT_PEER_JOINED then seen <| last_keep_alive_packet_time := 0 |>
  else if event_type =? RS_CHAT_LOBBY_EVENT_KEEP_ALIVE then seen
  else l.

Definition lobby_event_code (event_type : Z) : Z :=
  if event_type =? RS_CHAT_LOBBY_EVENT_PEER_LEFT then 0x05
  else if event_type =? RS_CHAT_LOBBY_EVENT_PEER_JOINED then 0x07
  else if event_type =? RS_CHAT_LOBBY_EVENT_KEEP_ALIVE then 0x09
  else if event_type =? RS_CHAT_LOBBY_EVENT_PEER_STATUS then 0x06
  else if event_type =? RS_CHAT_LOBBY_EVENT_PEER_CHANGE_NICKNAME then 0x08
  else 0x00.

Definition handleRecvChatLobbyEventItem (o : RsChatLobbyBouncingObject) (event_type : Z) (string1 : list Z) (PeerId : Z) (s : DistributedChatService) :
    DistributedChatService * list chat_out :=
  match _chat_lobbys s !! b_lobby_id o with
  | None => (s, [])
  | Some l =>
      if overallReputationLevel E (keyId o) =? REPUTATION_LOCALLY_NEGATIVE then (s, [])
      else
        let '(out, ok) := checkSignature o PeerId in
        if ok && pgp_linked (lobby_flags (info l)) (keyId o) && negb (outdated o) && negb (from_future o) then
          let out := out ++ [AddRoutingClue (keyId o) PeerId] in
          let '(s, out', ok) := bounceLobbyObject o PeerId s in
          if ok then
            (s <| _chat_lobbys := alter (on_lobby_event event_type (keyId o)) (b_lobby_id o) (_chat_lobbys s) |>,
             out ++ out' ++ [PostLobbyEvent (lobby_event_code event_type) (b_lobby_id o) (keyId o) string1])
          else (s, out ++ out')
        else (s, out)
  end.

(** ** Objects of one's own *)

(** Some bouncing object ready to go, or none if it cannot be made.  The outer option: no number drawn was free. *)
Definition locked_initLobbyBouncableObject (lobby_id : Z) (c : bouncing_content) (s : DistributedChatService) : option (option RsChatLobbyBouncingObject) :=
  match _chat_lobbys s !! lobby_id with
  | None => Some None
  | Some l =>
      msg_id ← draw_free (random_msg_id E lobby_id) (msg_cache l);
      match getIdDetails E (gxs_id (info l)) with
      | None => Some None
      | Some (mNickname, _) =>
          let o := mk_Bouncing lobby_id msg_id mNickname (gxs_id (info l)) [] c in
          if serialises E o then
            match signature E o with Some sg => Some (Some (o <| signData := sg |>)) | None => Some None end
          else Some None
      end
  end.

Definition sendLobbyStatusItem (lobby_id type : Z) (status_string : list Z) (s : DistributedChatService) : option (DistributedChatService * list chat_out) :=
  item ← locked_initLobbyBouncableObject lobby_id (LobbyEvent type (u32 (now E)) status_string) s;
  match item with
  | None => Some (s, [])
  | Some o => let '(s, out, _) := bounceLobbyObject o (ownId E) s in Some (s, out)
  end.

Definition sendLobbyStatusString (lobby_id : Z) (status_string : list Z) := sendLobbyStatusItem lobby_id RS_CHAT_LOBBY_EVENT_PEER_STATUS status_string.
Definition sendLobbyStatusPeerChangedNickname (lobby_id : Z) (newnick : list Z) :=
  sendLobbyStatusItem lobby_id RS_CHAT_LOBBY_EVENT_PEER_CHANGE_NICKNAME newnick.
Definition sendLobbyStatusPeerLeaving (lobby_id : Z) := sendLobbyStatusItem lobby_id RS_CHAT_LOBBY_EVENT_PEER_LEFT [].
Definition sendLobbyStatusNewPeer (lobby_id : Z) := sendLobbyStatusItem lobby_id RS_CHAT_LOBBY_EVENT_PEER_JOINED [].
Definition sendLobbyStatusKeepAlive (lobby_id : Z) := sendLobbyStatusItem lobby_id RS_CHAT_LOBBY_EVENT_KEEP_ALIVE [].

Definition sendLobbyChat (lobby_id : Z) (msg : list Z) (s : DistributedChatService) : option (DistributedChatService * list chat_out * bool) :=
  let t := u32 (now E) in
  item ← locked_initLobbyBouncableObject lobby_id (LobbyMsg (Z.lor RS_CHAT_FLAG_LOBBY RS_CHAT_FLAG_PRIVATE) t 0 msg) s;
  match item with
  | None => Some (s, [], false)
  | Some o =>
      let '(s, out, _) := bounceLobbyObject o (ownId E) s in
      Some (s, out ++ [AddMessage lobby_id (keyId o) t msg; PostMessage lobby_id (keyId o) t msg], true)
  end.

(** ** Invitations *)

Definition invitePeerToLobby (lobby_id peer_id : Z) (connexion_challenge : bool) (s : DistributedChatService) : list chat_out :=
  match _chat_lobbys s !! lobby_id with
  | None => []
  | Some l =>
      let flags := if connexion_challenge then RS_CHAT_LOBBY_FLAGS_CHALLENGE else lobby_flags (info l) in
      let i := mk_Invite lobby_id (lobby_name (info l)) (lobby_topic (info l)) flags in
      [SendChatItem peer_id (LobbyInvite i); SendChatItem peer_id (LobbyInvite_Deprecated i)]
  end.

Definition handleRecvLobbyInvite (i : RsChatLobbyInviteItem) (PeerId : Z) (s : DistributedChatService) : DistributedChatService * list chat_out :=
  match _chat_lobbys s !! n_lobby_id i with
  | Some l =>
      if negb (IS_CONNEXION_CHALLENGE (n_lobby_flags i)) && negb (EXTRACT_PRIVACY_FLAGS (n_lobby_flags i) =? EXTRACT_PRIVACY_FLAGS (lobby_flags (info l)))
      then (s, [])
      else
        let f := info l in
        let f := if bool_decide (lobby_topic f = [] /\ n_lobby_topic i <> []) then f <| lobby_topic := n_lobby_topic i |> else f in
        let f := f <| participating_friends := {[PeerId]} ∪ participating_friends f |> in
        (s <| _chat_lobbys := <[n_lobby_id i := l <| info := f |>]> (_chat_lobbys s) |>, [])
  | None =>
      match _lobby_invites_queue s !! n_lobby_id i with
      | Some _ => (s, [])
      | None =>
          if IS_CONNEXION_CHALLENGE (n_lobby_flags i) then (s, [])
          else
            let invite := mk_LobbyInvite (n_lobby_id i) PeerId (n_lobby_name i) (n_lobby_topic i) (n_lobby_flags i) in
            (s <| _lobby_invites_queue := <[n_lobby_id i := invite]> (_lobby_invites_queue s) |>, [PostInviteReceived])
      end
  end.

(** The item is copied into one of the new kind. *)
Definition handleRecvLobbyInvite_Deprecated (i : RsChatLobbyInviteItem) : Z -> DistributedChatService -> DistributedChatService * list chat_out :=
  handleRecvLobbyInvite (mk_Invite (n_lobby_id i) (n_lobby_name i) (n_lobby_topic i) (n_lobby_flags i)).

Definition getPendingChatLobbyInvites (s : DistributedChatService) : list ChatLobbyInvite := (in_order (_lobby_invites_queue s)).*2.

Definition getIdentityForChatLobby (lobby_id : Z) (s : DistributedChatService) : option Z := (fun l => gxs_id (info l)) <$> _chat_lobbys s !! lobby_id.

Definition setLobbyAutoSubscribe (lobby_id : Z) (autoSubscribe : bool) (s : DistributedChatService) : DistributedChatService * list chat_out :=
  let old := default 0 (_known_lobbies_flags s !! lobby_id) in
  let s :=
    if autoSubscribe then
      let s := s <| _known_lobbies_flags := <[lobby_id := Z.lor old RS_CHAT_LOBBY_FLAGS_AUTO_SUBSCRIBE]> (_known_lobbies_flags s) |> in
      match getIdentityForChatLobby lobby_id s with
      | Some id => s <| _lobby_default_identity := <[lobby_id := id]> (_lobby_default_identity s) |>
      | None => s
      end
    else
      let s := s <| _known_lobbies_flags := <[lobby_id := Z.land old (Z.lnot RS_CHAT_LOBBY_FLAGS_AUTO_SUBSCRIBE)]> (_known_lobbies_flags s) |> in
      s <| _lobby_default_identity := delete lobby_id (_lobby_default_identity s) |> in
  (s, [PostListChanged; TriggerConfigSave]).

Definition getLobbyAutoSubscribe (lobby_id : Z) (s : DistributedChatService) : bool :=
  match _known_lobbies_flags s !! lobby_id with Some f => has_flag f RS_CHAT_LOBBY_FLAGS_AUTO_SUBSCRIBE | None => false end.

(** The eight bytes of the lobby's number, least significant first, and eight zeros. *)
Definition makeVirtualPeerId (lobby_id : Z) : Z := be_val (rev (be_bytes 8 (u64 lobby_id)) ++ repeat 0 8).

(** The entry of a lobby one comes to take part in. *)
Definition new_entry (lobby_id : Z) (name topic : list Z) (flags identity : Z) (friends : gset Z) : ChatLobbyEntry :=
  mk_LobbyEntry (mk_LobbyInfo lobby_id name topic friends identity flags ∅ (now E)) ∅ (makeVirtualPeerId lobby_id) 0 (now E) false (now E) ∅.

Definition acceptLobbyInvite (lobby_id identity : Z) (s : DistributedChatService) : option (DistributedChatService * list chat_out * bool) :=
  match _lobby_invites_queue s !! lobby_id with
  | None => Some (s, [], false)
  | Some v =>
      match getIdDetails E identity with
      | None => Some (s, [], false)
      | Some (_, mFlags) =>
          if negb (has_flag mFlags RS_IDENTITY_FLAGS_IS_OWN_ID) then Some (s, [], false)
          else if has_flag (v_lobby_flags v) RS_CHAT_LOBBY_FLAGS_PGP_SIGNED && negb (has_flag mFlags RS_IDENTITY_FLAGS_PGP_LINKED) then Some (s, [], false)
          else match _chat_lobbys s !! lobby_id with
          | Some _ => Some (s, [], true)
          | None =>
              let entry := new_entry lobby_id (v_lobby_name v) (v_lobby_topic v) (v_lobby_flags v) identity {[v_peer_id v]} in
              let s := s <| _chat_lobbys := <[lobby_id := entry]> (_chat_lobbys s) |>
                         <| _lobby_invites_queue := delete lobby_id (_lobby_invites_queue s) |> in
              let out := [StoreIncomingMsg lobby_id (virtual_peer_id entry) (text "Welcome to chat lobby")] in
              let '(s, o1) := setLobbyAutoSubscribe lobby_id true s in
              '(s, o2) ← sendLobbyStatusNewPeer lobby_id s;
              Some (s, out ++ o1 ++ [TriggerConfigSave; PostListChanged] ++ o2, true)
          end
      end
  end.

Definition denyLobbyInvite (lobby_id : Z) (s : DistributedChatService) : DistributedChatService * bool :=
  match _lobby_invites_queue s !! lobby_id with
  | None => (s, false)
  | Some _ => (s <| _lobby_invites_queue := delete lobby_id (_lobby_invites_queue s) |>, true)
  end.

(** ** Taking part *)

Definition joinVisibleChatLobby (lobby_id id : Z) (s : DistributedChatService) : option (DistributedChatService * list chat_out * bool) :=
  match getIdDetails E id with
  | None => Some (s, [], false)
  | Some (_, mFlags) =>
      if negb (has_flag mFlags RS_IDENTITY_FLAGS_IS_OWN_ID) then Some (s, [], false)
      else match _visible_lobbies s !! lobby_id with
      | None => Some (s, [], false)
      | Some r =>
          match _chat_lobbys s !! lobby_id with
          | Some _ => Some (s, [], true)
          | None =>
              if has_flag (r_lobby_flags r) RS_CHAT_LOBBY_FLAGS_PGP_SIGNED && negb (has_flag mFlags RS_IDENTITY_FLAGS_PGP_LINKED) then Some (s, [], false)
              else
                let entry := new_entry lobby_id (r_lobby_name r) (r_lobby_topic r) (r_lobby_flags r) id (r_participating_friends r) in
                let s := s <| _chat_lobbys := <[lobby_id := entry]> (_chat_lobbys s) |> in
                let '(s, o1) := setLobbyAutoSubscribe lobby_id true s in
                let o2 := concat ((fun p => invitePeerToLobby lobby_id p false s) <$> members (r_participating_friends r)) in
                '(s, o3) ← sendLobbyStatusNewPeer lobby_id s;
                Some (s, o1 ++ [TriggerConfigSave] ++ o2 ++ [PostListChanged] ++ o3, true)
          end
      end
  end.

(** The result is the number of the new lobby, or 0. *)
Definition createChatLobby (name : list Z) (lobby_identity : Z) (topic : list Z) (invited_friends : gset Z) (flags : Z) (s : DistributedChatService) :
    option (DistributedChatService * list chat_out * Z) :=
  if negb (isOwnId E lobby_identity) then Some (s, [], 0)
  else
    lobby_id ← draw_free (random_lobby_id E) (_chat_lobbys s);
    let entry := new_entry lobby_id name topic flags lobby_identity ∅ in
    let s := s <| _chat_lobbys := <[lobby_id := entry]> (_chat_lobbys s) |> in
    let o1 := concat ((fun p => invitePeerToLobby lobby_id p false s) <$> members invited_friends) in
    let '(s, o2) := setLobbyAutoSubscribe lobby_id true s in
    Some (s, o1 ++ [PostListChanged] ++ o2 ++ [TriggerConfigSave], lobby_id).

Definition handleFriendUnsubscribeLobby (lobby_id PeerId : Z) (s : DistributedChatService) : DistributedChatService * list chat_out :=
  match _chat_lobbys s !! lobby_id with
  | None => (s, [])
  | Some l =>
      let l' :=
        if decide (PeerId ∈ participating_friends (info l)) then
          l <| previously_known_peers := {[PeerId]} ∪ previously_known_peers l |>
            <| info := (info l) <| participating_friends := participating_friends (info l) ∖ {[PeerId]} |> |>
        else l in
      (s <| _chat_lobbys := <[lobby_id := l']> (_chat_lobbys s) |>, [PostListChanged])
  end.

Definition unsubscribeChatLobby (id : Z) (s : DistributedChatService) : option (DistributedChatService * list chat_out) :=
  '(s, o1) ← sendLobbyStatusPeerLeaving id s;
  let '(s, o2) := setLobbyAutoSubscribe id false s in
  match _chat_lobbys s !! id with
  | None => Some (s, o1 ++ o2)
  | Some l =>
      let o3 := (fun p => SendChatItem p (LobbyUnsubscribe id)) <$> members (participating_friends (info l)) in
      Some (s <| _chat_lobbys := delete id (_chat_lobbys s) |>, o1 ++ o2 ++ o3 ++ [TriggerConfigSave; PostListChanged])
  end.

(** ** Challenges *)

(** [result], after the 16 bytes of the peer's id. *)
Definition makeConnexionChallengeCode (peer_id lobby_id msg_id : Z) : Z :=
  foldl (fun result b =>
    let result := u64 (result + msg_id) in
    let result := Z.lxor result (Z.shiftr result 35) in
    let result := u64 (result + u64 (Z.shiftl result 6)) in
    let result := Z.lxor result (u64 (b * lobby_id)) in
    let result := u64 (result + u64 (Z.shiftl result 26)) in
    Z.lxor result (Z.shiftr result 13)) 0 (be_bytes 16 peer_id).

(** The first private lobby with a message seen lately that the code was made from. *)
Definition challenged_lobby (challenge_code : Z) (s : DistributedChatService) : option Z :=
  fst <$> List.find (fun x =>
    negb (IS_PUBLIC_LOBBY (lobby_flags (info x.2))) &&
    existsb (fun m => (now E <? m.2 + CONNECTION_CHALLENGE_MAX_MSG_AGE + 5) && (makeConnexionChallengeCode (ownId E) x.1 m.1 =? challenge_code))
      (in_order (msg_cache x.2))) (in_order (_chat_lobbys s)).

Definition add_friend (p : Z) (l : ChatLobbyEntry) : ChatLobbyEntry :=
  l <| info := (info l) <| participating_friends := {[p]} ∪ participating_friends (info l) |> |>.

Definition handleConnectionChallenge (challenge_code PeerId : Z) (s : DistributedChatService) : DistributedChatService * list chat_out :=
  match challenged_lobby challenge_code s with
  | None => (s, [])
  | Some lobby =>
      let s := s <| _chat_lobbys := alter (add_friend PeerId) lobby (_chat_lobbys s) |> in
      (s, invitePeerToLobby lobby PeerId true s)
  end.

(** The first message seen lately, 0 if there is none. *)
Definition challenge_msg (l : ChatLobbyEntry) : Z :=
  default 0 (fst <$> List.find (fun m => now E <? m.2 + CONNECTION_CHALLENGE_MAX_MSG_AGE) (in_order (msg_cache l))).

Definition sendConnectionChallenge (lobby_id : Z) (s : DistributedChatService) : list chat_out :=
  match _chat_lobbys s !! lobby_id with
  | None => []
  | Some l =>
      let msg_id := challenge_msg l in
      if msg_id =? 0 then []
      else (fun p => SendChatItem p (LobbyConnectChallenge (makeConnexionChallengeCode p lobby_id msg_id))) <$> members (getPeersConnected E)
  end.

(** ** Lists of lobbies *)

Definition handleRecvChatLobbyListRequest (PeerId : Z) (s : DistributedChatService) : list chat_out :=
  let told (l : ChatLobbyEntry) :=
    IS_PUBLIC_LOBBY (lobby_flags (info l)) || bool_decide (PeerId ∈ previously_known_peers l) || bool_decide (PeerId ∈ participating_friends (info l)) in
  let row (x : Z * ChatLobbyEntry) :=
    let i := info x.2 in
    mk_VisibleInfo x.1 (lobby_name i) (lobby_topic i) (u32 (Z.of_nat (size (gxs_ids i)))) (EXTRACT_PRIVACY_FLAGS (lobby_flags i)) in
  [SendChatItem PeerId (LobbyList (row <$> List.filter (fun x => told x.2) (in_order (_chat_lobbys s))))].

(** A lobby of the list: its record, whether to subscribe, whether the friend is new in it. *)
Definition hear_of_lobby (PeerId : Z) (i : VisibleChatLobbyInfo) (st : DistributedChatService * list Z * list Z) : DistributedChatService * list Z * list Z :=
  let '(s, chatLobbyToSubscribe, invitationNeeded) := st in
  let rec := default (mk_VisibleRecord 0 [] [] ∅ 0 0 0) (_visible_lobbies s !! i_id i) in
  let count := if _should_reset_lobby_counts s then i_count i else Z.max (total_number_of_peers rec) (i_count i) in
  let rec := mk_VisibleRecord (i_id i) (i_name i) (i_topic i) ({[PeerId]} ∪ r_participating_friends rec) count (now E) (EXTRACT_PRIVACY_FLAGS (i_flags i)) in
  let s := s <| _visible_lobbies := <[i_id i := rec]> (_visible_lobbies s) |> in
  match _chat_lobbys s !! i_id i with
  | None => (s, if getLobbyAutoSubscribe (i_id i) s then chatLobbyToSubscribe ++ [i_id i] else chatLobbyToSubscribe, invitationNeeded)
  | Some l =>
      if decide (PeerId ∈ participating_friends (info l)) then (s, chatLobbyToSubscribe, invitationNeeded)
      else (s <| _chat_lobbys := <[i_id i := add_friend PeerId l]> (_chat_lobbys s) |>, chatLobbyToSubscribe, invitationNeeded ++ [i_id i])
  end.

Definition auto_subscribe (lobby_id : Z) (s : DistributedChatService) : option (DistributedChatService * list chat_out) :=
  let id := default 0 (_lobby_default_identity s !! lobby_id) in
  let s := s <| _lobby_default_identity := <[lobby_id := id]> (_lobby_default_identity s) |> in
  let id := if id =? 0 then _default_identity s else id in
  let flags :=
    match _visible_lobbies s !! lobby_id with
    | Some r => r_lobby_flags r
    | None => match _chat_lobbys s !! lobby_id with Some l => lobby_flags (info l) | None => 0 end
    end in
  match getIdDetails E id with
  | None => Some (s, [])
  | Some (_, mFlags) =>
      if IS_PGP_SIGNED_LOBBY flags && negb (has_flag mFlags RS_IDENTITY_FLAGS_PGP_LINKED) then Some (setLobbyAutoSubscribe lobby_id false s)
      else '(s, out, _) ← joinVisibleChatLobby lobby_id id s; Some (s, out)
  end.

Definition handleRecvChatLobbyList (lobbies : list VisibleChatLobbyInfo) (PeerId : Z) (s : DistributedChatService) :
    option (DistributedChatService * list chat_out) :=
  let '(s, chatLobbyToSubscribe, invitationNeeded) :=
    foldl (fun st i => hear_of_lobby PeerId i st) (s, [], []) (take MAX_ALLOWED_LOBBIES_IN_LIST_WARNING lobbies) in
  '(s, o1) ← each auto_subscribe chatLobbyToSubscribe s;
  let o2 := concat ((fun lobby => invitePeerToLobby lobby PeerId false s) <$> invitationNeeded) in
  Some (s <| _should_reset_lobby_counts := false |>, o1 ++ o2 ++ [PostListChanged]).

Definition getListOfNearbyChatLobbies (s : DistributedChatService) : DistributedChatService * list chat_out * list VisibleChatLobbyRecord :=
  let visible_lobbies := (in_order (_visible_lobbies s)).*2 in
  if MIN_DELAY_BETWEEN_PUBLIC_LOBBY_REQ + last_visible_lobby_info_request_time s <? now E then
    (s <| last_visible_lobby_info_request_time := now E |> <| _should_reset_lobby_counts := true |>,
     (fun p => SendChatItem p LobbyListRequest) <$> members (getPeersConnected E), visible_lobbies)
  else (s, [], visible_lobbies).

(** [false]: not an item of the lobbies. *)
Definition handleRecvItem (i : RsChatItem) (PeerId : Z) (s : DistributedChatService) : option (DistributedChatService * list chat_out * bool) :=
  match i with
  | LobbyObject o =>
      match content o with
      | LobbyEvent event_type _ string1 => Some (handleRecvChatLobbyEventItem o event_type string1 PeerId s, true)
      | LobbyMsg _ _ _ _ => Some (s, [], false)
      end
  | LobbyInvite_Deprecated i => Some (handleRecvLobbyInvite_Deprecated i PeerId s, true)
  | LobbyInvite i => Some (handleRecvLobbyInvite i PeerId s, true)
  | LobbyConnectChallenge code => Some (handleConnectionChallenge code PeerId s, true)
  | LobbyUnsubscribe lobby => Some (handleFriendUnsubscribeLobby lobby PeerId s, true)
  | LobbyListRequest => Some (s, handleRecvChatLobbyListRequest PeerId s, true)
  | LobbyList lobbies => r ← handleRecvChatLobbyList lobbies PeerId s; Some (r, true)
  end.

(** ** Identities *)

Definition setDefaultIdentityForChatLobby (nick : Z) (s : DistributedChatService) : DistributedChatService * list chat_out * bool :=
  if nick =? 0 then (s, [], false) else (s <| _default_identity := nick |>, [TriggerConfigSave], true).

Definition locked_getDefaultIdentity (s : DistributedChatService) : DistributedChatService * list chat_out * Z :=
  match getOwnIds E with
  | id :: _ => if _default_identity s =? 0 then (s <| _default_identity := id |>, [TriggerConfigSave], id) else (s, [], _default_identity s)
  | [] => (s, [], _default_identity s)
  end.

(** The nickname sent is the text of the identity. *)
Definition setIdentityForChatLobby (lobby_id nick : Z) (s : DistributedChatService) : option (DistributedChatService * list chat_out * bool) :=
  if nick =? 0 then Some (s, [], false)
  else match _chat_lobbys s !! lobby_id with
  | None => Some (s, [], false)
  | Some l =>
      let old := gxs_id (info l) in
      if negb (old =? 0) && negb (old =? nick) then
        let told :=
          match getIdDetails E nick, getIdDetails E old with
          | Some (_, f1), Some (_, f2) => has_flag (Z.land f1 f2) RS_IDENTITY_FLAGS_PGP_LINKED
          | _, _ => false
          end in
        '(s, out) ← (if told then sendLobbyStatusPeerChangedNickname lobby_id (hash_toStdString (be_bytes 16 nick)) s else Some (s, []));
        match _chat_lobbys s !! lobby_id with
        | None => Some (s, out, false)
        | Some l => Some (s <| _chat_lobbys := <[lobby_id := l <| info := (info l) <| gxs_id := nick |> |>]> (_chat_lobbys s) |>,
                          out ++ [TriggerConfigSave], true)
        end
      else Some (s, [TriggerConfigSave], true)
  end.

(** ** The regular round *)

Record lobby_chores := mk_chores { keep_alive : bool; changed : bool; challenge : bool; joined : bool }.

Definition clean_lobby (l : ChatLobbyEntry) : ChatLobbyEntry * lobby_chores :=
  let l := l <| msg_cache := filter (fun x => now E <= x.2 + MAX_KEEP_MSG_RECORD) (msg_cache l) |> in
  let ids := gxs_ids (info l) in
  let kept := filter (fun x => now E <= x.2 + MAX_KEEP_INACTIVE_NICKNAME) ids in
  let l := l <| info := (info l) <| gxs_ids := kept |> |> in
  let connected := existsb (fun p => bool_decide (p ∈ getPeersConnected E)) (members (participating_friends (info l))) in
  let joined := negb (joined_lobby_packet_sent l) && connected in
  let l := if joined then l <| joined_lobby_packet_sent := true |> else l in
  let keep := last_keep_alive_packet_time l + MAX_DELAY_BETWEEN_LOBBY_KEEP_ALIVE <? now E in
  let l := if keep then l <| last_keep_alive_packet_time := now E |> else l in
  let private := negb (IS_PUBLIC_LOBBY (lobby_flags (info l))) in
  let l := if private then l <| connexion_challenge_count := connexion_challenge_count l + 1 |> else l in
  let ask := private && (CONNECTION_CHALLENGE_MAX_COUNT <? connexion_challenge_count l) &&
               (last_connexion_challenge_time l + CONNECTION_CHALLENGE_MIN_DELAY <? now E) in
  let l := if ask then l <| connexion_challenge_count := 0 |> <| last_connexion_challenge_time := now E |> else l in
  (l, mk_chores keep (bool_decide (kept <> ids)) ask joined).

Definition cleanLobbyCaches (s : DistributedChatService) : option (DistributedChatService * list chat_out) :=
  let chores := (fun x => (x.1, (clean_lobby x.2).2)) <$> in_order (_chat_lobbys s) in
  let todo (f : lobby_chores -> bool) := (List.filter (fun x => f x.2) chores).*1 in
  let s := s <| _chat_lobbys := (fun l => (clean_lobby l).1) <$> _chat_lobbys s |> in
  let stays (x : Z * VisibleChatLobbyRecord) := now E <= last_report_time x.2 + MAX_KEEP_PUBLIC_LOBBY_RECORD \/ is_Some (_chat_lobbys s !! x.1) in
  let s := s <| _visible_lobbies := filter stays (_visible_lobbies s) |> in
  '(s, o1) ← each sendLobbyStatusKeepAlive (todo keep_alive) s;
  let o2 := (fun lobby => PostLobbyEvent 0x09 lobby 0 []) <$> todo changed in
  '(s, o3) ← each sendLobbyStatusNewPeer (todo joined) s;
  Some (s, o1 ++ o2 ++ o3 ++ concat ((fun lobby => sendConnectionChallenge lobby s) <$> todo challenge)).

Definition flush (s : DistributedChatService) : option (DistributedChatService * list chat_out) :=
  '(s, o1) ←
    (if last_clean_time_lobby s + LOBBY_CACHE_CLEANING_PERIOD <? now E then
       '(s, out) ← cleanLobbyCaches s;
       let s := s <| last_clean_time_lobby := now E |> in
       if _default_identity s =? 0 then
         match getOwnIds E with
         | id :: _ => Some (s <| _default_identity := id |>, out ++ [TriggerConfigSave])
         | [] => Some (s, out)
         end
       else Some (s, out)
     else Some (s, []));
  if last_req_chat_lobby_list s + LOBBY_LIST_AUTO_UPDATE_TIME <? now E then
    let '(s, o2, visible_lobbies_tmp) := getListOfNearbyChatLobbies s in
    let t := match visible_lobbies_tmp with [] => now E - LOBBY_LIST_AUTO_UPDATE_TIME + MIN_DELAY_BETWEEN_PUBLIC_LOBBY_REQ | _ => now E end in
    Some (s <| last_req_chat_lobby_list := t |>, o1 ++ o2)
  else Some (s, o1).

Definition getChatLobbyList (s : DistributedChatService) : list Z := (in_order (_chat_lobbys s)).*1.
Definition getChatLobbyInfo (id : Z) (s : DistributedChatService) : option ChatLobbyInfo := info <$> _chat_lobbys s !! id.

(** ** What is saved *)

Inductive config_item :=
| RsChatLobbyConfigItem (lobby_Id flags : Z)
| RsSubscribedChatLobbyConfigItem (i : ChatLobbyInfo)
| RsConfigKeyValueSet (pairs : list (list Z * list Z))
| OtherConfigItem.

Definition strldID : list Z := text "LOBBY_DEFAULT_IDENTITY:".

Definition addToSaveList (s : DistributedChatService) : list config_item :=
  ((fun x => RsChatLobbyConfigItem x.1 x.2) <$> in_order (_known_lobbies_flags s)) ++
  ((fun x => RsSubscribedChatLobbyConfigItem (info x.2)) <$> in_order (_chat_lobbys s)) ++
  [RsConfigKeyValueSet [(text "DEFAULT_IDENTITY", hash_toStdString (be_bytes 16 (_default_identity s)))]] ++
  ((fun x => RsConfigKeyValueSet [(strldID ++ hash_toStdString (be_bytes 8 x.1), hash_toStdString (be_bytes 16 x.2))])
     <$> in_order (_lobby_default_identity s)).

Definition hex_nibble (b : Z) : option Z :=
  if (65 <=? b) && (b <=? 70) then Some (b - 65 + 10)
  else if (97 <=? b) && (b <=? 102) then Some (b - 97 + 10)
  else if (48 <=? b) && (b <=? 57) then Some (b - 48)
  else None.

(** The constructor of an id from text: the null id if the text does not have 32 digits. *)
Fixpoint hex_value (l : list Z) (acc : Z) : option Z :=
  match l with
  | [] => Some acc
  | b :: l => match hex_nibble b with Some d => hex_value l (16 * acc + d) | None => None end
  end.

Definition RsGxsId_of_string (l : list Z) : Z := if decide (length l = 32%nat) then default 0 (hex_value l 0) else 0.

(** [stream >> cli], a 64-bit number in hexadecimal: white space, a sign and [0x] may come before the digits, what follows them
    stays, and a number too large is the largest one. *)
Fixpoint hex_prefix (l : list Z) (acc : Z) : Z :=
  match l with
  | b :: l => match hex_nibble b with Some d => hex_prefix l (16 * acc + d) | None => acc end
  | [] => acc
  end.

Definition is_space (c : Z) : bool := (c =? 32) || ((9 <=? c) && (c <=? 13)).

Fixpoint skip_spaces (l : list Z) : list Z :=
  match l with
  | c :: l' => if is_space c then skip_spaces l' else l
  | [] => []
  end.

Definition skip_0x (l : list Z) : list Z :=
  match l with
  | z :: x :: l' => if (z =? 48) && ((x =? 120) || (x =? 88)) then l' else l
  | _ => l
  end.

Definition read_hex64 (l : list Z) : Z :=
  let '(neg, l) :=
    match skip_spaces l with
    | c :: l' => if c =? 45 then (true, l') else if c =? 43 then (false, l') else (false, c :: l')
    | [] => (false, [])
    end in
  let v := hex_prefix (skip_0x l) 0 in
  if 2 ^ 64 <=? v then 2 ^ 64 - 1 else if (neg : bool) then u64 (- v) else v.

(** The first pair whose key is known decides. *)
Fixpoint load_pairs (pairs : list (list Z * list Z)) (s : DistributedChatService) : option DistributedChatService :=
  match pairs with
  | [] => None
  | (key, value) :: pairs =>
      if decide (key = text "DEFAULT_IDENTITY") then
        Some (if decide (value = []) then s else s <| _default_identity := RsGxsId_of_string value |>)
      else if decide (take (length strldID) key = strldID) then
        let cli := read_hex64 (drop (length strldID) key) in
        let id := RsGxsId_of_string value in
        Some (if bool_decide (value <> [] /\ cli <> 0 /\ id <> 0)
              then s <| _lobby_default_identity := <[cli := id]> (_lobby_default_identity s) |> else s)
      else load_pairs pairs s
  end.

Definition load_lobby (i : ChatLobbyInfo) (s : DistributedChatService) : DistributedChatService * list chat_out :=
  match _chat_lobbys s !! lobby_id i with
  | Some _ => (s, [])
  | None =>
      let rec := mk_VisibleRecord (lobby_id i) (lobby_name i) (lobby_topic i) (participating_friends i) 0 (now E) (EXTRACT_PRIVACY_FLAGS (lobby_flags i)) in
      let entry := mk_LobbyEntry (i <| last_activity := now E |>) ∅ (makeVirtualPeerId (lobby_id i)) 0 (now E) false (now E) ∅ in
      let flags := Z.lor (default 0 (_known_lobbies_flags s !! lobby_id i)) RS_CHAT_LOBBY_FLAGS_AUTO_SUBSCRIBE in
      (s <| _visible_lobbies := <[lobby_id i := rec]> (_visible_lobbies s) |>
         <| _known_lobbies_flags := <[lobby_id i := flags]> (_known_lobbies_flags s) |>
         <| _chat_lobbys := <[lobby_id i := entry]> (_chat_lobbys s) |>, [PostListChanged])
  end.

(** [false]: not an item of the lobbies. *)
Definition processLoadListItem (item : config_item) (s : DistributedChatService) : DistributedChatService * list chat_out * bool :=
  let default_identity (s : DistributedChatService) :=
    match getOwnIds E with
    | id :: _ => if _default_identity s =? 0 then s <| _default_identity := id |> else s
    | [] => s
    end in
  match item with
  | RsConfigKeyValueSet pairs => match load_pairs pairs s with Some s => (s, [], true) | None => (default_identity s, [], false) end
  | RsChatLobbyConfigItem lobby flags => (s <| _known_lobbies_flags := <[lobby := flags]> (_known_lobbies_flags s) |>, [], true)
  | RsSubscribedChatLobbyConfigItem i => let '(s, out) := load_lobby i (default_identity s) in (s, out, true)
  | OtherConfigItem => (default_identity s, [], false)
  end.

Definition load (items : list config_item) (s : DistributedChatService) : DistributedChatService :=
  foldl (fun s item => (processLoadListItem item s).1.1) s items.

End Service.
