(* ===== verification/LobbyProps.v ===== *)
(** * Chat lobbies: what a node keeps of them

    The window of the flood check, what every operation leaves of the messages seen, and the way into a lobby: by its list,
    by an invitation, by a challenge. *)

From S2P Require Import Prelude RsExpr Lobby.
From Stdlib Require Import ZArith Lia SpecFloat.
From stdpp Require Import base list gmap sorting.
Open Scope Z_scope.

(** ** The flood check *)

Lemma mantissa_lt m k : match Pos.compare_cont Eq m k with Lt => true | _ => false end = true <-> Zpos m < Zpos k.
Proof. change (Pos.compare_cont Eq m k) with (m ?= k)%positive. destruct (Pos.compare_spec m k); split; (done || lia). Qed.

(** Comparing positive numbers. *)
Lemma float_lt_finite m e m' e' : float_lt (S754_finite false m e) (S754_finite false m' e') = true <-> e < e' \/ e = e' /\ Zpos m < Zpos m'.
Proof.
  unfold float_lt, SFltb. cbn [SFcompare]. destruct (Z.compare_spec e e') as [<-|He|He]; rewrite ?mantissa_lt; intuition (lia || done).
Qed.

(** What is above ten is above every number up to ten. *)
Lemma above_ten rate n : (n <= 10)%nat -> float_lt (f32_of_Z 10) rate = true -> float_lt rate (f32_of_Z (Z.of_nat n)) = false.
Proof.
  intros Hn Hr. apply not_true_iff_false. intros E2. change (f32_of_Z 10) with (S754_finite false 10485760 (-20)) in Hr.
  assert (Hc : n ∈ seq 0 11) by (apply elem_of_seq; lia). clear Hn.
  destruct rate as [| [] | | [] m e]; try discriminate Hr.
  - repeat (apply elem_of_cons in Hc as [->|Hc]; [vm_compute in E2; discriminate E2|]). by apply elem_of_nil in Hc.
  - apply float_lt_finite in Hr.
    repeat (apply elem_of_cons in Hc as [->|Hc]; [vm_compute (f32_of_Z _) in E2; first [by apply float_lt_finite in E2; lia|discriminate E2]|]).
    by apply elem_of_nil in Hc.
Qed.

(** Ten messages are always within the limit. *)
Lemma within_max_cnt c n : (n <= 10)%nat -> float_lt (max_cnt c) (f32_of_Z (Z.of_nat n)) = false.
Proof.
  intros Hn. unfold max_cnt. cbv zeta.
  match goal with |- context [float_lt (f32_of_Z 10) ?r] => generalize r; intros rate end.
  destruct (float_lt (f32_of_Z 10) rate) eqn:E; [by apply above_ten|].
  assert (Hc : n ∈ seq 0 11) by (apply elem_of_seq; lia). clear Hn.
  repeat (apply elem_of_cons in Hc as [->|Hc]; [reflexivity|]). by apply elem_of_nil in Hc.
Qed.

Lemma length_pop_old t l : (length (pop_old t l) <= length l)%nat.
Proof. induction l as [|x l IH]; [done|]. cbn [pop_old]. case_match; cbn [length]; lia. Qed.

(** ** Messages seen are remembered

    From one state to a later one, at time [t]: a lobby stays, and a message of its cache stays too, with a time that is not
    earlier, or the time [t] itself, unless it is too old at [t]. *)

Definition entry_keeps (t : Z) (l l' : ChatLobbyEntry) : Prop :=
  forall m u, msg_cache l !! m = Some u -> (exists u', msg_cache l' !! m = Some u' /\ (u <= u' \/ t <= u')) \/ u + MAX_KEEP_MSG_RECORD < t.

Definition evolves (t : Z) (s s' : DistributedChatService) : Prop :=
  forall L l, _chat_lobbys s !! L = Some l -> exists l', _chat_lobbys s' !! L = Some l' /\ entry_keeps t l l'.

Lemma entry_keeps_same t l l' : msg_cache l' = msg_cache l -> entry_keeps t l l'.
Proof. intros H m u Hm. left. exists u. rewrite H. split; [done|lia]. Qed.

#[export] Instance entry_keeps_preorder t : PreOrder (entry_keeps t).
Proof.
  split; [intros l; by apply entry_keeps_same|]. intros l1 l2 l3 H12 H23 m u Hm. destruct (H12 m u Hm) as [(u' & Hm' & Hu)|?]; [|by right].
  destruct (H23 m u' Hm') as [(u'' & Hm'' & Hu')|Ho].
  - left. exists u''. split; [done|lia].
  - right. unfold MAX_KEEP_MSG_RECORD in *. lia.
Qed.

#[export] Instance evolves_preorder t : PreOrder (evolves t).
Proof.
  split; [intros s L l Hl; by exists l|]. intros s1 s2 s3 H12 H23 L l Hl. destruct (H12 L l Hl) as (l' & Hl' & Hk).
  destruct (H23 L l' Hl') as (l'' & Hl'' & Hk'). exists l''. split; [done|]. by etransitivity.
Qed.

Lemma evolves_same t s s' : _chat_lobbys s' = _chat_lobbys s -> evolves t s s'.
Proof. intros H L l Hl. exists l. by rewrite H. Qed.

Lemma evolves_insert t s s' L l l' : _chat_lobbys s !! L = Some l -> entry_keeps t l l' -> _chat_lobbys s' = <[L := l']> (_chat_lobbys s) ->
  evolves t s s'.
Proof.
  intros Hl Hk H L0 l0 Hl0. rewrite H. destruct (decide (L0 = L)) as [->|Hn].
  - exists l'. rewrite lookup_insert_eq. split; [done|]. by simplify_eq.
  - exists l0. by rewrite lookup_insert_ne.
Qed.

Lemma evolves_new t s s' L l' : _chat_lobbys s !! L = None -> _chat_lobbys s' = <[L := l']> (_chat_lobbys s) -> evolves t s s'.
Proof. intros Hn H L0 l0 Hl0. exists l0. rewrite H, lookup_insert_ne by congruence. done. Qed.

Lemma evolves_alter t s s' L f : (forall l, msg_cache (f l) = msg_cache l) -> _chat_lobbys s' = alter f L (_chat_lobbys s) -> evolves t s s'.
Proof.
  intros Hf H L0 l0 Hl0. rewrite H. destruct (decide (L0 = L)) as [->|Hn].
  - rewrite lookup_alter_eq, Hl0. exists (f l0). split; [done|]. by apply entry_keeps_same.
  - exists l0. by rewrite lookup_alter_ne.
Qed.

Section props.
Context (E : chat_env).

Lemma check_lobbys L p s : _chat_lobbys (locked_bouncingObjectCheck E L p s).1 = _chat_lobbys s.
Proof. unfold locked_bouncingObjectCheck. cbv zeta. repeat case_match; reflexivity. Qed.

Lemma check_passes L p s l : _chat_lobbys s !! L = Some l -> (length (default [] (message_counts s !! (p, L))) <= 10)%nat ->
  (locked_bouncingObjectCheck E L p s).2 = true.
Proof.
  intros Hl Hc. unfold locked_bouncingObjectCheck. cbv zeta. rewrite Hl.
  pose proof (length_pop_old (now E) (default [] (message_counts s !! (p, L)))).
  destruct (_visible_lobbies s !! L); rewrite within_max_cnt by lia; reflexivity.
Qed.

(** What bouncing leaves in the entry: the friend it came from, the identity and the message. *)
Lemma bounce_entry o p s l : _chat_lobbys s !! b_lobby_id o = Some l ->
  exists l', _chat_lobbys (bounceLobbyObject E o p s).1.1 = <[b_lobby_id o := l']> (_chat_lobbys s) /\
    msg_cache l' = <[msg_id o := now E]> (msg_cache l) /\
    participating_friends (info l') = (if decide (p = ownId E) then ∅ else {[p]}) ∪ participating_friends (info l) /\
    lobby_flags (info l') = lobby_flags (info l) /\ gxs_id (info l') = gxs_id (info l) /\ virtual_peer_id l' = virtual_peer_id l /\
    lobby_name (info l') = lobby_name (info l) /\ lobby_topic (info l') = lobby_topic (info l).
Proof.
  intros Hl. unfold bounceLobbyObject. rewrite Hl. cbv zeta.
  assert (Hp : forall i : ChatLobbyInfo, participating_friends (if decide (p = ownId E) then i else i <| participating_friends := {[p]} ∪ participating_friends i |>)
    = (if decide (p = ownId E) then ∅ else {[p]}) ∪ participating_friends i) by (intros i; case_decide; [set_solver|done]).
  assert (Hf : forall i : ChatLobbyInfo, let j := (if decide (p = ownId E) then i else i <| participating_friends := {[p]} ∪ participating_friends i |>) in
    lobby_flags j = lobby_flags i /\ gxs_id j = gxs_id i /\ lobby_name j = lobby_name i /\ lobby_topic j = lobby_topic i) by (intros i; by case_decide).
  destruct (msg_cache l !! msg_id o); [eexists; split; [reflexivity|]; cbn; rewrite Hp; by destruct (Hf (info l)) as (-> & -> & -> & ->)|].
  match goal with |- context [locked_bouncingObjectCheck E ?L ?p ?s] => destruct (locked_bouncingObjectCheck E L p s) as [s1 ok] eqn:Ec; pose proof (check_lobbys L p s) as Hc end.
  rewrite Ec in Hc. cbn in Hc. destruct ok; cbn; rewrite Hc, ?insert_insert_eq; eexists; (split; [reflexivity|]); cbn; rewrite Hp;
    by destruct (Hf (info l)) as (-> & -> & -> & ->).
Qed.

Lemma bounce_evolves o p s : evolves (now E) s (bounceLobbyObject E o p s).1.1.
Proof.
  destruct (_chat_lobbys s !! b_lobby_id o) as [l|] eqn:El; [|unfold bounceLobbyObject; by rewrite El].
  destruct (bounce_entry o p s l El) as (l' & H1 & H2 & _). eapply evolves_insert; [done| |done].
  intros m u Hm. rewrite H2. left. destruct (decide (m = msg_id o)) as [->|Hn]; [rewrite lookup_insert_eq|rewrite lookup_insert_ne by done];
    eexists; (split; [done|lia]).
Qed.

Lemma event_entry_cache ty id l : msg_cache (on_lobby_event E ty id l) = msg_cache l.
Proof. unfold on_lobby_event. cbv zeta. by repeat case_match. Qed.

Lemma bounce_evolves' o p s s' out ok : bounceLobbyObject E o p s = (s', out, ok) -> evolves (now E) s s'.
Proof. intros H. pose proof (bounce_evolves o p s) as He. by rewrite H in He. Qed.

Lemma msg_evolves o p s : evolves (now E) s (handleRecvChatLobbyMsgItem E o p s).1.1.
Proof.
  unfold handleRecvChatLobbyMsgItem. repeat case_match; cbn; try reflexivity; by eapply bounce_evolves'.
Qed.

Lemma event_evolves o ty str p s : evolves (now E) s (handleRecvChatLobbyEventItem E o ty str p s).1.
Proof.
  unfold handleRecvChatLobbyEventItem. repeat case_match; cbn; try reflexivity; [|by eapply bounce_evolves'].
  etransitivity; [by eapply bounce_evolves'|]. eapply evolves_alter; [intros; apply event_entry_cache|done].
Qed.

Lemma each_evolves {A} (f : A -> DistributedChatService -> option (DistributedChatService * list chat_out)) l s s' out t :
  (forall x s s' out, f x s = Some (s', out) -> evolves t s s') -> each f l s = Some (s', out) -> evolves t s s'.
Proof.
  intros Hf. revert s out. induction l as [|x l IH]; intros s out H; [by simplify_eq/=|]. cbn [each] in H.
  destruct (f x s) as [[s1 o1]|] eqn:E1; [|done]. cbn in H. destruct (each f l s1) as [[s2 o2]|] eqn:E2; [|done]. cbn in H. simplify_eq.
  etransitivity; [by eapply Hf|by eapply IH].
Qed.

Lemma status_evolves L ty str s s' out : sendLobbyStatusItem E L ty str s = Some (s', out) -> evolves (now E) s s'.
Proof.
  unfold sendLobbyStatusItem. intros H. destruct (locked_initLobbyBouncableObject E L _ s) as [[o|]|]; cbn in H; [|by simplify_eq|done].
  destruct (bounceLobbyObject E o (ownId E) s) as [[s1 o1] ok] eqn:Eb. simplify_eq. by eapply bounce_evolves'.
Qed.

Lemma chat_evolves L msg s s' out b : sendLobbyChat E L msg s = Some (s', out, b) -> evolves (now E) s s'.
Proof.
  unfold sendLobbyChat. cbv zeta. intros H. destruct (locked_initLobbyBouncableObject E L _ s) as [[o|]|]; cbn in H; [|by simplify_eq|done].
  destruct (bounceLobbyObject E o (ownId E) s) as [[s1 o1] ok] eqn:Eb. simplify_eq. by eapply bounce_evolves'.
Qed.

Lemma invite_evolves i p s : evolves (now E) s (handleRecvLobbyInvite i p s).1.
Proof.
  unfold handleRecvLobbyInvite. cbv zeta. repeat case_match; cbn; try reflexivity; try by apply evolves_same.
  all: eapply evolves_insert; [done| |reflexivity]; by apply entry_keeps_same.
Qed.

Lemma subscribe_lobbys L b s : _chat_lobbys (setLobbyAutoSubscribe L b s).1 = _chat_lobbys s.
Proof. unfold setLobbyAutoSubscribe. cbv zeta. cbn [fst]. by repeat case_match. Qed.

Lemma accept_evolves L id s s' out b : acceptLobbyInvite E L id s = Some (s', out, b) -> evolves (now E) s s'.
Proof.
  unfold acceptLobbyInvite. intros H. repeat case_match; simplify_eq; try reflexivity. rewrite bind_Some in H.
  destruct H as ([s1 o1] & Hs & H). simplify_eq. etransitivity; [|by eapply status_evolves].
  match goal with Hs : setLobbyAutoSubscribe ?L ?b ?s1 = (?s2, _) |- _ => pose proof (subscribe_lobbys L b s1) as He; rewrite Hs in He end.
  eapply evolves_new; [done|exact He].
Qed.

Lemma join_evolves L id s s' out b : joinVisibleChatLobby E L id s = Some (s', out, b) -> evolves (now E) s s'.
Proof.
  unfold joinVisibleChatLobby. cbv zeta. intros H. repeat case_match; simplify_eq; try reflexivity. rewrite bind_Some in H.
  destruct H as ([s1 o1] & Hs & H). simplify_eq. etransitivity; [|by eapply status_evolves].
  match goal with Hs : setLobbyAutoSubscribe ?L ?b ?s1 = (?s2, _) |- _ => pose proof (subscribe_lobbys L b s1) as He; rewrite Hs in He end.
  eapply evolves_new; [done|exact He].
Qed.

Lemma draw_free_spec {A} l (m : gmap Z A) n : draw_free l m = Some n -> n ∈ l /\ m !! n = None.
Proof. intros H%List.find_some. destruct H as [Hin Hb]. split; [by apply list_elem_of_In|by apply bool_decide_eq_true in Hb]. Qed.

Lemma create_evolves name id topic fr fl s s' out L : createChatLobby E name id topic fr fl s = Some (s', out, L) -> evolves (now E) s s'.
Proof.
  unfold createChatLobby. cbv zeta. intros H. case_match; [by simplify_eq|]. rewrite bind_Some in H. destruct H as (L0 & Hd & H).
  apply draw_free_spec in Hd as [_ Hd].
  match type of H with context [setLobbyAutoSubscribe ?L ?b ?s1] => pose proof (subscribe_lobbys L b s1) as He; destruct (setLobbyAutoSubscribe L b s1) end.
  simplify_eq. eapply evolves_new; [done|exact He].
Qed.

Lemma leave_evolves L p s : evolves (now E) s (handleFriendUnsubscribeLobby L p s).1.
Proof.
  unfold handleFriendUnsubscribeLobby. case_match; [|reflexivity]. cbn. eapply evolves_insert; [done| |done]. apply entry_keeps_same. by case_decide.
Qed.

Lemma challenge_evolves c p s : evolves (now E) s (handleConnectionChallenge E c p s).1.
Proof. unfold handleConnectionChallenge. case_match; [|reflexivity]. by eapply evolves_alter; [|reflexivity]. Qed.

Lemma hear_evolves p i st : evolves (now E) st.1.1 (hear_of_lobby E p i st).1.1.
Proof.
  unfold hear_of_lobby. destruct st as [[s subs] inv]. cbn. case_match; [|by apply evolves_same]. case_decide; [by apply evolves_same|].
  eapply evolves_insert; [done| |reflexivity]. by apply entry_keeps_same.
Qed.

Lemma auto_evolves L s s' out : auto_subscribe E L s = Some (s', out) -> evolves (now E) s s'.
Proof.
  unfold auto_subscribe. cbv zeta. intros H. destruct (getIdDetails E _) as [[n f]|]; [|simplify_eq; by apply evolves_same].
  case_match; simplify_eq.
  - apply evolves_same.
    match goal with Hs : setLobbyAutoSubscribe ?L ?b ?s1 = (?s2, _) |- _ => pose proof (subscribe_lobbys L b s1) as He; rewrite Hs in He end. exact He.
  - rewrite bind_Some in H. destruct H as ([[s1 o1] b] & H1 & H). simplify_eq. etransitivity; [|by eapply join_evolves]. by apply evolves_same.
Qed.

Lemma list_evolves l p s s' out : handleRecvChatLobbyList E l p s = Some (s', out) -> evolves (now E) s s'.
Proof.
  unfold handleRecvChatLobbyList. intros H.
  assert (Hh : forall l st, evolves (now E) st.1.1 (foldl (fun st i => hear_of_lobby E p i st) st l).1.1).
  { clear. intros l. induction l as [|i l IH]; intros st; [reflexivity|]. cbn [foldl]. etransitivity; [apply hear_evolves|apply IH]. }
  specialize (Hh (take MAX_ALLOWED_LOBBIES_IN_LIST_WARNING l) (s, [], [])). cbn [fst] in Hh. destruct (foldl _ _ _) as [[s1 subs] inv].
  rewrite bind_Some in H. destruct H as ([s2 o2] & H1 & H). simplify_eq. etransitivity; [exact Hh|].
  etransitivity; [eapply each_evolves; [|exact H1]; intros; by eapply auto_evolves|]. by apply evolves_same.
Qed.

Lemma clean_lobby_cache l : msg_cache (clean_lobby E l).1 = filter (fun x => now E <= x.2 + MAX_KEEP_MSG_RECORD) (msg_cache l).
Proof. unfold clean_lobby. cbv zeta. cbn [fst]. by repeat case_match. Qed.

Lemma clean_lobby_friends l : participating_friends (info (clean_lobby E l).1) = participating_friends (info l).
Proof. unfold clean_lobby. cbv zeta. cbn [fst]. by repeat case_match. Qed.

Lemma clean_lobby_keeps l : entry_keeps (now E) l (clean_lobby E l).1.
Proof.
  intros m u Hm. rewrite clean_lobby_cache. destruct (decide (now E <= u + MAX_KEEP_MSG_RECORD)) as [Ho|Ho]; [left|right; lia].
  exists u. rewrite map_lookup_filter_Some. split; [done|lia].
Qed.

Lemma clean_evolves s s' out : cleanLobbyCaches E s = Some (s', out) -> evolves (now E) s s'.
Proof.
  unfold cleanLobbyCaches. cbv zeta. intros H. rewrite bind_Some in H. destruct H as ([s1 o1] & H1 & H). rewrite bind_Some in H.
  destruct H as ([s2 o2] & H2 & H). simplify_eq. etransitivity; [|eapply each_evolves; [|exact H2]; intros; by eapply status_evolves].
  etransitivity; [|eapply each_evolves; [|exact H1]; intros; by eapply status_evolves].
  intros L l Hl. exists (clean_lobby E l).1. split; [|apply clean_lobby_keeps]. cbn. by rewrite lookup_fmap, Hl.
Qed.

Lemma nearby_lobbys s : _chat_lobbys (getListOfNearbyChatLobbies E s).1.1 = _chat_lobbys s.
Proof. unfold getListOfNearbyChatLobbies. cbv zeta. by case_match. Qed.

Lemma flush_evolves s s' out : flush E s = Some (s', out) -> evolves (now E) s s'.
Proof.
  unfold flush. intros H. rewrite bind_Some in H. destruct H as ([s1 o1] & H1 & H). transitivity s1.
  - clear H. case_match; [|by simplify_eq]. rewrite bind_Some in H1. destruct H1 as ([s2 o2] & H2 & H1).
    etransitivity; [by eapply clean_evolves|]. apply evolves_same. repeat case_match; by simplify_eq.
  - clear H1. case_match; [|by simplify_eq]. pose proof (nearby_lobbys s1) as Hn. destruct (getListOfNearbyChatLobbies E s1) as [[s2 o2] v].
    simplify_eq. by apply evolves_same.
Qed.

Lemma identity_evolves L id s s' out b : setIdentityForChatLobby E L id s = Some (s', out, b) -> evolves (now E) s s'.
Proof.
  unfold setIdentityForChatLobby. cbv zeta. intros H. case_match; [by simplify_eq|]. case_match; [|by simplify_eq]. case_match; [|by simplify_eq].
  rewrite bind_Some in H. destruct H as ([s1 o1] & Hs1 & H). assert (Ht : evolves (now E) s s1).
  { clear H. match type of Hs1 with (if ?told then _ else _) = _ => destruct told end; [by eapply status_evolves|by simplify_eq]. }
  etransitivity; [exact Ht|]. case_match; simplify_eq; [|reflexivity]. eapply evolves_insert; [done| |reflexivity]. by apply entry_keeps_same.
Qed.

Lemma load_item_evolves i s : evolves (now E) s (processLoadListItem E i s).1.1.
Proof.
  assert (Hd : forall s1, _chat_lobbys s1 = _chat_lobbys s -> _chat_lobbys (match getOwnIds E with
    | [] => s1 | id :: _ => if _default_identity s1 =? 0 then s1 <| _default_identity := id |> else s1 end) = _chat_lobbys s).
  { intros s1 H. case_match; [done|]. by case_match. }
  destruct i as [L f|i|pairs|]; cbn.
  - by apply evolves_same.
  - match goal with |- context [load_lobby E i ?s1] => set (s0 := s1) end. assert (H0 : _chat_lobbys s0 = _chat_lobbys s) by (by apply Hd).
    unfold load_lobby. destruct (_chat_lobbys s0 !! lobby_id i) eqn:El; cbn; [by apply evolves_same|]. rewrite H0 in El.
    eapply evolves_new; [done|]. cbn. by rewrite H0.
  - destruct (load_pairs pairs s) as [s1|] eqn:Ep; cbn; [|by apply evolves_same, Hd]. apply evolves_same. revert s1 Ep.
    induction pairs as [|[k v] pairs IH]; intros s1 Ep; [done|]. cbn [load_pairs] in Ep.
    match type of Ep with (if decide ?P then _ else _) = _ => destruct (decide P) end; [simplify_eq; by destruct (decide (v = []))|].
    match type of Ep with (if decide ?P then _ else _) = _ => destruct (decide P) end; [simplify_eq; by case_bool_decide|by apply IH].
  - by apply evolves_same, Hd.
Qed.

Lemma item_evolves i p s s' out b : handleRecvItem E i p s = Some (s', out, b) -> evolves (now E) s s'.
Proof.
  unfold handleRecvItem. destruct i as [o| |l|L|c|v|v]; intros H.
  - destruct (content o) as [| ty t str]; simplify_eq; [reflexivity|]. pose proof (event_evolves o ty str p s) as He. by rewrite H in He.
  - by simplify_eq.
  - rewrite bind_Some in H. destruct H as ([s1 o1] & H1 & H). simplify_eq. by eapply list_evolves.
  - simplify_eq. pose proof (leave_evolves L p s) as He. by rewrite H in He.
  - simplify_eq. pose proof (challenge_evolves c p s) as He. by rewrite H in He.
  - simplify_eq. match goal with H : handleRecvLobbyInvite_Deprecated ?v _ _ = _ |- _ => pose proof (invite_evolves (mk_Invite (n_lobby_id v) (n_lobby_name v) (n_lobby_topic v) (n_lobby_flags v)) p s) as He end.
    unfold handleRecvLobbyInvite_Deprecated in H. by rewrite H in He.
  - simplify_eq. pose proof (invite_evolves v p s) as He. by rewrite H in He.
Qed.

End props.
