(* ===== verification/LobbyRun.v ===== *)
(** * Chat lobbies: a node over time

    What a node is asked to do, by friends, by its user and by its clock, is a list of calls, each with what holds of the others at
    that time.  A message that was accepted is accepted again only if the lobby was left in between, or if the
    message claims to come from the future: what the cache forgets is by then too old to be taken, but for messages sent more
    than 100 seconds ahead of the clock that took them. *)

From S2P Require Import Prelude RsExpr Lobby LobbyProps.
From Stdlib Require Import ZArith Lia SpecFloat.
From stdpp Require Import base list gmap sorting.
Open Scope Z_scope.

Inductive lobby_call :=
| ReceiveMsg (o : RsChatLobbyBouncingObject) (peer : Z)
| ReceiveItem (i : RsChatItem) (peer : Z)
| Flush
| SendChat (lobby : Z) (msg : list Z)
| SendStatus (lobby : Z) (status : list Z)
| InvitePeer (lobby peer : Z)
| AcceptInvite (lobby id : Z)
| DenyInvite (lobby : Z)
| JoinLobby (lobby id : Z)
| CreateLobby (name : list Z) (id : Z) (topic : list Z) (invited : gset Z) (flags : Z)
| Unsubscribe (lobby : Z)
| SetIdentity (lobby id : Z)
| SetDefaultIdentity (id : Z)
| SetAutoSubscribe (lobby : Z) (on : bool)
| ListNearby
| LoadItem (i : config_item).

(** The state after a call, what it does to others, and the message that it shows, if it does. *)
Definition do_call (E : chat_env) (c : lobby_call) (s : DistributedChatService) :
    option (DistributedChatService * list chat_out * option RsChatLobbyBouncingObject) :=
  let plain (r : DistributedChatService * list chat_out) := (r, None) in
  let with_result {R} (r : DistributedChatService * list chat_out * R) := (r.1, None) in
  match c with
  | ReceiveMsg o p => let '(s, out, shown) := handleRecvChatLobbyMsgItem E o p s in Some (s, out, match shown with Some _ => Some o | None => None end)
  | ReceiveItem i p => with_result <$> handleRecvItem E i p s
  | Flush => plain <$> flush E s
  | SendChat L msg => with_result <$> sendLobbyChat E L msg s
  | SendStatus L str => plain <$> sendLobbyStatusString E L str s
  | InvitePeer L p => Some (plain (s, invitePeerToLobby L p false s))
  | AcceptInvite L id => with_result <$> acceptLobbyInvite E L id s
  | DenyInvite L => Some (plain ((denyLobbyInvite L s).1, []))
  | JoinLobby L id => with_result <$> joinVisibleChatLobby E L id s
  | CreateLobby name id topic invited flags => with_result <$> createChatLobby E name id topic invited flags s
  | Unsubscribe L => plain <$> unsubscribeChatLobby E L s
  | SetIdentity L id => with_result <$> setIdentityForChatLobby E L id s
  | SetDefaultIdentity id => Some (with_result (setDefaultIdentityForChatLobby id s))
  | SetAutoSubscribe L on => Some (plain (setLobbyAutoSubscribe L on s))
  | ListNearby => Some (with_result (getListOfNearbyChatLobbies E s))
  | LoadItem i => Some (with_result (processLoadListItem E i s))
  end.

(** The final state, and the messages shown, each with the time it was shown at. *)
Fixpoint chat_run (calls : list (chat_env * lobby_call)) (s : DistributedChatService) :
    option (DistributedChatService * list (Z * RsChatLobbyBouncingObject)) :=
  match calls with
  | [] => Some (s, [])
  | (E, c) :: calls =>
      '(s, _, shown) ← do_call E c s;
      '(s, log) ← chat_run calls s;
      Some (s, match shown with Some o => (now E, o) :: log | None => log end)
  end.

Lemma fst_eq {A B} (x : A * B) a b : x = (a, b) -> a = x.1.
Proof. by intros ->. Qed.

Lemma call_evolves E c s s' out shown : do_call E c s = Some (s', out, shown) -> (forall L, c <> Unsubscribe L) -> evolves (now E) s s'.
Proof.
  intros H Hu. destruct c; cbn in H; try (apply fmap_Some in H as ([[s1 o1] r] & H & E1)); try (apply fmap_Some in H as ([s1 o1] & H & E1));
    simplify_eq/=; try reflexivity.
  - pose proof (msg_evolves E o peer s) as He. destruct (handleRecvChatLobbyMsgItem E o peer s) as [[s1 o1] r]. by simplify_eq.
  - by eapply item_evolves.
  - by eapply flush_evolves.
  - by eapply chat_evolves.
  - by eapply status_evolves.
  - by eapply accept_evolves.
  - apply evolves_same. unfold denyLobbyInvite. by case_match.
  - by eapply join_evolves.
  - by eapply create_evolves.
  - by destruct (Hu lobby).
  - by eapply identity_evolves.
  - apply evolves_same. unfold setDefaultIdentityForChatLobby in *. case_match; by simplify_eq/=.
  - apply evolves_same. match goal with H : setLobbyAutoSubscribe _ _ _ = _ |- _ => rewrite (fst_eq _ _ _ H) end. apply subscribe_lobbys.
  - apply evolves_same. match goal with H : _ = (s', out) |- _ => rewrite (fst_eq _ _ _ H) end. apply nearby_lobbys.
  - match goal with H : _ = (s', out) |- _ => rewrite (fst_eq _ _ _ H) end. apply load_item_evolves.
Qed.

(** At one lobby, the others may be left as well. *)
Lemma call_evolves_at E c s s' out shown L l : do_call E c s = Some (s', out, shown) -> c <> Unsubscribe L -> _chat_lobbys s !! L = Some l ->
  exists l', _chat_lobbys s' !! L = Some l' /\ entry_keeps (now E) l l'.
Proof.
  intros H Hu Hl. assert (Hd : (exists L', c = Unsubscribe L') \/ forall L', c <> Unsubscribe L') by (destruct c; eauto).
  destruct Hd as [[L' ->]|Hn].
  - cbn in H. apply fmap_Some in H as ([s1 o1] & H & E1). simplify_eq. unfold unsubscribeChatLobby in H. rewrite bind_Some in H.
    destruct H as ([s2 o2] & H2 & H). pose proof (status_evolves _ _ _ _ _ _ _ H2 L l Hl) as (l' & Hl' & Hk).
    destruct (setLobbyAutoSubscribe L' false s2) as [s3 o3] eqn:E3. pose proof (subscribe_lobbys L' false s2) as He. rewrite E3 in He. cbn in He.
    exists l'. split; [|done]. rewrite <- He in Hl'. destruct (_chat_lobbys s3 !! L') as [l3|]; simplify_eq; [|done].
    cbn. rewrite lookup_delete_ne; [done|congruence].
  - by eapply call_evolves.
Qed.

(** A message that is shown is of a lobby one takes part in, is in its cache from then on, was not there before, and is not too old. *)
Lemma shown_cached E c s s' out o : do_call E c s = Some (s', out, Some o) -> exists l l', _chat_lobbys s !! b_lobby_id o = Some l /\
  msg_cache l !! msg_id o = None /\ _chat_lobbys s' !! b_lobby_id o = Some l' /\ msg_cache l' !! msg_id o = Some (now E) /\ outdated E o = false.
Proof.
  intros H. destruct c; cbn in H; try (apply fmap_Some in H as ([[s1 o1] r] & H & E1)); try (apply fmap_Some in H as ([s1 o1] & H & E1)); simplify_eq/=.
  destruct (handleRecvChatLobbyMsgItem E o0 peer s) as [[s1 o1] r] eqn:Er. destruct r as [v|]; [|done]. simplify_eq.
  unfold handleRecvChatLobbyMsgItem in Er. destruct (outdated E o); [done|]. cbn [orb] in Er. case_match; [done|]. case_match; [done|].
  destruct (checkSignature E o peer) as [o2 ok]. case_match; [|done]. destruct (_chat_lobbys s !! b_lobby_id o) as [l|] eqn:El; [|done].
  case_match; [|done]. destruct (bounceLobbyObject E o peer s) as [[s2 o3] ok2] eqn:Eb. destruct ok2; [|done]. simplify_eq.
  pose proof (bounce_entry E o peer s l El) as (l' & H1' & H2' & _). rewrite Eb in H1'. cbn in H1'.
  exists l, l'. rewrite H1', H2', !lookup_insert_eq. repeat split. unfold bounceLobbyObject in Eb. rewrite El in Eb. cbv zeta in Eb.
  by destruct (msg_cache l !! msg_id o).
Qed.

(** What is known of a message shown at [t1]: it is in the cache since, or has been seen again, or time has passed. *)
Definition remembered (t1 t L m : Z) (s : DistributedChatService) : Prop :=
  (exists l u, _chat_lobbys s !! L = Some l /\ msg_cache l !! m = Some u /\ t1 <= u) \/ t1 + MAX_KEEP_MSG_RECORD < t.

Lemma remembered_call E c s s' out shown t1 t L m : do_call E c s = Some (s', out, shown) -> c <> Unsubscribe L -> t1 <= t <= now E ->
  remembered t1 t L m s -> remembered t1 (now E) L m s'.
Proof.
  intros H Hu Ht [(l & u & Hl & Hm & Hu1)|?]; [|right; lia]. destruct (call_evolves_at _ _ _ _ _ _ _ _ H Hu Hl) as (l' & Hl' & Hk).
  destruct (Hk m u Hm) as [(u' & Hm' & Hu')|Ho]; [|right; unfold MAX_KEEP_MSG_RECORD in *; lia]. left. exists l', u'. repeat split; try done. lia.
Qed.

Lemma remembered_not_shown calls : forall s s' log t1 t L m t2 o, chat_run calls s = Some (s', log) -> remembered t1 t L m s -> t1 <= t ->
  StronglySorted (fun x y => now x.1 <= now y.1) calls -> (forall x, x ∈ calls -> t <= now x.1 /\ x.2 <> Unsubscribe L) ->
  (t2, o) ∈ log -> b_lobby_id o = L -> msg_id o = m -> t1 + 100 < sendTime o.
Proof.
  induction calls as [|[E c] calls IH]; intros s s' log t1 t L m t2 o H Hr Ht Hs Hx Hin HL Hm; cbn in H; [simplify_eq; by apply elem_of_nil in Hin|].
  rewrite bind_Some in H. destruct H as ([[s1 o1] shown] & Hc & H). rewrite bind_Some in H. destruct H as ([s2 log2] & Hrun & H). simplify_eq.
  apply StronglySorted_inv in Hs as [Hs Hall]. destruct (Hx (E, c) (list_elem_of_here _ _)) as [Ht2 Hu]. cbn in Ht2, Hu.
  pose proof (remembered_call _ _ _ _ _ _ _ _ _ _ Hc Hu (conj Ht Ht2) Hr) as Hr1.
  assert (Hin' : (t2, o) ∈ log2 \/ shown = Some o /\ t2 = now E).
  { destruct shown as [o'|]; [|by left]. apply elem_of_cons in Hin as [Hin|Hin]; [|by left]. simplify_eq. by right. }
  destruct Hin' as [Hin'|[-> ->]].
  - eapply (IH _ _ _ t1 (now E)); [done|done|lia|done| |done|done|done]. intros x Hxin. split; [|apply Hx; by apply list_elem_of_further].
    rewrite Forall_forall in Hall. by apply Hall.
  - destruct (shown_cached _ _ _ _ _ _ Hc) as (l & l' & H1 & H2 & _ & _ & Ho). destruct Hr as [(l0 & u & Hl & Hm & _)|Ho1]; [congruence|].
    unfold outdated in Ho. unfold MAX_KEEP_MSG_RECORD in *. apply Z.ltb_ge in Ho. lia.
Qed.

(** C5 A message is shown once: whatever a node is asked to do between, in whatever order, a message of a lobby that it does not leave is
    shown a second time only if it claims to have been sent more than 100 seconds after the time at which it was shown first - which is what the
    node's clock said then.  (The cache keeps a message for 1200 seconds from when it was seen last, and what is older than 1100 seconds
    is not taken.) *)
Theorem accepted_once calls s s' log i j t1 t2 o1 o2 : StronglySorted (fun x y => now x.1 <= now y.1) calls ->
  (forall x, x ∈ calls -> x.2 <> Unsubscribe (b_lobby_id o1)) -> chat_run calls s = Some (s', log) ->
  log !! i = Some (t1, o1) -> log !! j = Some (t2, o2) -> (i < j)%nat -> b_lobby_id o2 = b_lobby_id o1 -> msg_id o2 = msg_id o1 ->
  t1 + 100 < sendTime o2.
Proof.
  revert s log i j. induction calls as [|[E c] calls IH]; intros s log i j Hs Hx H Hi Hj Hij HL Hm; cbn in H; [by simplify_eq|].
  rewrite bind_Some in H. destruct H as ([[s1 out] shown] & Hc & H). rewrite bind_Some in H. destruct H as ([s2 log2] & Hrun & H). simplify_eq.
  apply StronglySorted_inv in Hs as [Hs Hall]. assert (Hx2 : forall x, x ∈ calls -> x.2 <> Unsubscribe (b_lobby_id o1))
    by (intros x Hin; by apply Hx, list_elem_of_further).
  destruct shown as [o|]; [|by eapply IH]. destruct i as [|i]; destruct j as [|j]; [lia| |lia|]; cbn in Hi, Hj; [|by eapply (IH _ _ i j); [..|lia|done|done]].
  simplify_eq. destruct (shown_cached _ _ _ _ _ _ Hc) as (l & l' & _ & _ & Hl' & Hm' & _).
  eapply (remembered_not_shown calls s1 s' log2 (now E) (now E)); [done| |lia|done| |by eapply list_elem_of_lookup_2|done|done].
  - left. exists l', (now E). repeat split; [done|done|lia].
  - rewrite Forall_forall in Hall. intros x Hin. split; [by apply Hall|by apply Hx2].
Qed.

(** A node in one lobby, and a friend's message sent 500 seconds ahead: it is shown, forgotten, and shown again. *)
Definition demo_env (t : Z) : chat_env :=
  mk_chat_env t 1 ∅ (fun _ => 1) (fun _ => None) [] (fun _ => false) (fun _ => true) (fun _ => None) (fun _ => None) (fun _ => 100) (fun _ => [77]) [].

Definition demo_message : RsChatLobbyBouncingObject := mk_Bouncing 9 5 [] 3 [] (LobbyMsg 0x201 10500 0 []).

Definition demo_lobby : DistributedChatService := new_ChatService <| _chat_lobbys := {[9 := new_entry (demo_env 10000) 9 [] [] 4 8 ∅]} |>.

Definition demo_calls : list (chat_env * lobby_call) :=
  [(demo_env 10000, ReceiveMsg demo_message 2); (demo_env 10001, ReceiveMsg demo_message 6); (demo_env 11202, Flush);
   (demo_env 11203, ReceiveMsg demo_message 6)].

Lemma accepted_once_witness : (snd <$> chat_run demo_calls demo_lobby) = Some [(10000, demo_message); (11203, demo_message)] /\ 10000 + 100 < sendTime demo_message.
Proof.
  split; [vm_compute; reflexivity|].
  destruct (chat_run demo_calls demo_lobby) as [[s' log]|] eqn:Er; [|vm_compute in Er; discriminate Er].
  assert (El : log = [(10000, demo_message); (11203, demo_message)]) by (vm_compute in Er; injection Er as _ <-; reflexivity).
  apply (accepted_once demo_calls demo_lobby s' log 0 1 10000 11203 demo_message demo_message); try (rewrite El; reflexivity); try reflexivity; try exact Er; try lia.
  - repeat constructor; cbn; lia.
  - apply Forall_forall. repeat constructor; discriminate.
Defined.
