(* ===== verification/LobbyNet.v ===== *)
(** * Chat lobbies: a message reaches everyone

    Nodes joined by links that carry messages in any order.  What one says in a lobby is passed on from friend to friend: each node shows it
    once, the deliveries are no more than the links, and when nothing is on its way any more everyone has seen it who can
    be reached over friends that are connected and known to take part. *)

From S2P Require Import Prelude RsExpr Lobby LobbyProps.
From Stdlib Require Import ZArith Lia SpecFloat.
From stdpp Require Import base list gmap sorting relations.
Open Scope Z_scope.

(** ** The network *)

(** A message on its way: from whom, to whom, and what. *)
Record lobby_net := mk_lobby_net {
  nodes : gmap Z DistributedChatService; flights : list (Z * Z * RsChatLobbyBouncingObject); shown_by : list (Z * RsChatLobbyBouncingObject) }.

Definition flights_of (n : Z) (out : list chat_out) : list (Z * Z * RsChatLobbyBouncingObject) :=
  omap (fun x => match x with SendChatItem p (LobbyObject o) => Some (n, p, o) | _ => None end) out.

#[global] Arguments flights_of : simpl never.

Section net.
(** What holds of a node's surroundings at a time. *)
Context (env : Z -> Z -> chat_env).

(** The message at place [k] arrives at time [t]. *)
Definition deliver (t : Z) (k : nat) (w : lobby_net) : lobby_net :=
  match flights w !! k with
  | None => w
  | Some (from, to, o) =>
      let rest := delete k (flights w) in
      match nodes w !! to with
      | None => mk_lobby_net (nodes w) rest (shown_by w)
      | Some s =>
          let '(s, out, shown) := handleRecvChatLobbyMsgItem (env t to) o from s in
          mk_lobby_net (<[to := s]> (nodes w)) (rest ++ flights_of to out) (shown_by w ++ match shown with Some _ => [(to, o)] | None => [] end)
      end
  end.

Definition deliveries (sched : list (Z * nat)) (w : lobby_net) : lobby_net := foldl (fun w x => deliver x.1 x.2 w) w sched.

(** How many of the deliveries found a message. *)
Fixpoint arrivals (sched : list (Z * nat)) (w : lobby_net) : nat :=
  match sched with
  | [] => 0
  | (t, k) :: sched => (match flights w !! k with Some _ => 1 | None => 0 end + arrivals sched (deliver t k w))%nat
  end.

(** One of the nodes says something. *)
Definition speak (t a L : Z) (msg : list Z) (o : RsChatLobbyBouncingObject) (w : lobby_net) : option lobby_net :=
  s ← nodes w !! a;
  '(s, out, _) ← sendLobbyChat (env t a) L msg s;
  Some (mk_lobby_net (<[a := s]> (nodes w)) (flights w ++ flights_of a out) (shown_by w ++ [(a, o)])).

End net.

(** ** What a node does with a message *)

(** The node takes the message, for all that is not in its own state. *)
Definition takes (E : chat_env) (o : RsChatLobbyBouncingObject) (flags : Z) : Prop :=
  overallReputationLevel E (keyId o) <> REPUTATION_LOCALLY_NEGATIVE /\ serialises E o = true /\
  (validateData E o = None \/ validateData E o = Some RS_GIXS_ERROR_KEY_NOT_AVAILABLE) /\ pgp_linked E flags (keyId o) = true /\
  outdated E o = false /\ from_future E o = false /\ item_size E (LobbyObject o) <= MAX_ITEM_SIZE.

(** The friends a message goes on to. *)
Definition next_hops (E : chat_env) (p : Z) (friends : gset Z) : list Z := filter (fun y => y <> p /\ y ∈ getPeersConnected E) (members friends).

Lemma elem_of_members x (s : gset Z) : x ∈ members s <-> x ∈ s.
Proof. unfold members. by rewrite merge_sort_Permutation, elem_of_elements. Qed.

Lemma NoDup_members (s : gset Z) : NoDup (members s).
Proof. unfold members. rewrite merge_sort_Permutation. apply NoDup_elements. Qed.

Lemma elem_of_next_hops E p friends y : y ∈ next_hops E p friends <-> y ∈ friends /\ y <> p /\ y ∈ getPeersConnected E.
Proof. unfold next_hops. rewrite list_elem_of_filter, elem_of_members. tauto. Qed.

Lemma length_next_hops E p friends : (length (next_hops E p friends) <= size (getPeersConnected E))%nat.
Proof.
  unfold size, set_size. cbn. apply submseteq_length, NoDup_submseteq; [apply NoDup_filter, NoDup_members|].
  intros y Hy%elem_of_next_hops. apply elem_of_elements. tauto.
Qed.

Lemma flights_of_forward E n o p friends : item_size E (LobbyObject o) <= MAX_ITEM_SIZE ->
  flights_of n (forward E o p friends) = (fun y => (n, y, o)) <$> next_hops E p friends.
Proof.
  intros Hs. unfold forward, next_hops. induction (members friends) as [|y l IH]; [done|]. cbn [fmap list_fmap concat filter list_filter].
  unfold flights_of in *. rewrite omap_app, IH. case_bool_decide as Hc.
  - unfold checkSizeAndSendLobbyMessage. rewrite (proj2 (Z.ltb_ge _ _)) by done. by rewrite decide_True.
  - by rewrite decide_False.
Qed.

Lemma flights_of_app n a b : flights_of n (a ++ b) = flights_of n a ++ flights_of n b.
Proof. apply omap_app. Qed.

(** A message that the lobby has not seen is passed on, when the friend has not sent much. *)
Lemma bounce_new E n o p s l : _chat_lobbys s !! b_lobby_id o = Some l -> msg_cache l !! msg_id o = None ->
  (length (default [] (message_counts s !! (p, b_lobby_id o))) <= 10)%nat -> item_size E (LobbyObject o) <= MAX_ITEM_SIZE ->
  let r := bounceLobbyObject E o p s in
  r.2 = true /\ flights_of n r.1.2 =
    (fun y => (n, y, o)) <$> next_hops E p ((if decide (p = ownId E) then ∅ else {[p]}) ∪ participating_friends (info l)).
Proof.
  intros Hl Hm Hc Hs. unfold bounceLobbyObject. rewrite Hl, Hm. cbv zeta.
  match goal with |- context [locked_bouncingObjectCheck E ?L ?q ?s0] => destruct (locked_bouncingObjectCheck E L q s0) as [s1 ok] eqn:Ec;
    pose proof (check_passes E L q s0) as Hok end.
  rewrite Ec in Hok. cbn in Hok. erewrite Hok; [|by rewrite lookup_insert_eq|done]. cbn. split; [done|].
  rewrite flights_of_forward by done. do 2 f_equal. case_decide; [set_solver|done].
Qed.

(** One that it has seen is not. *)
Lemma bounce_again E o p s l u : _chat_lobbys s !! b_lobby_id o = Some l -> msg_cache l !! msg_id o = Some u ->
  (bounceLobbyObject E o p s).1.2 = [] /\ (bounceLobbyObject E o p s).2 = false.
Proof. intros Hl Hm. unfold bounceLobbyObject. by rewrite Hl, Hm. Qed.

(** A message item that the node takes is bounced, whatever comes of it. *)
Lemma recv_takes E o p s l : _chat_lobbys s !! b_lobby_id o = Some l -> takes E o (lobby_flags (info l)) ->
  let r := handleRecvChatLobbyMsgItem E o p s in let b := bounceLobbyObject E o p s in
  r.1.1 = b.1.1 /\ (forall n, flights_of n r.1.2 = flights_of n b.1.2) /\ (is_Some r.2 <-> b.2 = true).
Proof.
  intros Hl (H1 & H2 & H3 & H4 & H5 & H6 & _). unfold handleRecvChatLobbyMsgItem. rewrite H5, H6. cbn [orb]. rewrite (proj2 (Z.eqb_neq _ _) H1).
  unfold checkSignature. rewrite H2. assert (Hv : match validateData E o with None => true | Some e => e =? RS_GIXS_ERROR_KEY_NOT_AVAILABLE end = true)
    by (by destruct H3 as [-> | ->]).
  cbn [andb]. rewrite Hv, Hl, H4. destruct (bounceLobbyObject E o p s) as [[s1 out] ok]. cbn [fst snd]. split; [done|]. split.
  - intros n. by rewrite !flights_of_app.
  - destruct ok; split; try done; by intros [? ?].
Qed.

(** ** The flood *)

Section flood.
Context (env : Z -> Z -> chat_env) (conn : Z -> gset Z) (nodes0 : gmap Z DistributedChatService) (o : RsChatLobbyBouncingObject).

Abbreviation L := (b_lobby_id o).

(** The surroundings while the message is on its way: nodes know their numbers and their links. *)
Definition steady (t : Z) : Prop := forall n, now (env t n) = t /\ ownId (env t n) = n /\ getPeersConnected (env t n) = conn n.

(** A node of the lobby that has not seen the message, and from whose friends not more than ten have come lately. *)
Definition ready (n : Z) (s : DistributedChatService) : Prop :=
  exists l, _chat_lobbys s !! L = Some l /\ msg_cache l !! msg_id o = None /\
    (forall p, (length (default [] (message_counts s !! (p, L))) <= 10)%nat) /\
    (forall t, sendTime o - 600 <= t <= sendTime o + 1100 -> takes (env t n) o (lobby_flags (info l))).

(** The message goes from [x] to [y]. *)
Definition link (x y : Z) : Prop :=
  exists s l, nodes0 !! x = Some s /\ _chat_lobbys s !! L = Some l /\ y ∈ participating_friends (info l) /\ y ∈ conn x /\ is_Some (nodes0 !! y).

Definition spread (l : list Z) : nat := sum_list ((fun x => size (conn x)) <$> l).

Lemma spread_permutation l l' : l ≡ₚ l' -> spread l = spread l'.
Proof. unfold spread. induction 1; cbn; lia. Qed.

Lemma spread_app l l' : spread (l ++ l') = (spread l + spread l')%nat.
Proof. unfold spread. induction l as [|x l IH]; cbn in *; lia. Qed.

Lemma spread_le l l' : NoDup l -> (forall x, x ∈ l -> x ∈ l') -> (spread l <= spread l')%nat.
Proof.
  intros Hn Hi. destruct (submseteq_Permutation l l' (NoDup_submseteq l l' Hn Hi)) as [k Hk].
  rewrite (spread_permutation _ _ Hk), spread_app. lia.
Qed.

Record flood_inv (d : nat) (w : lobby_net) : Prop := {
  fi_same : forall n, is_Some (nodes w !! n) <-> is_Some (nodes0 !! n);
  fi_fresh : forall n, n ∉ (shown_by w).*1 -> nodes w !! n = nodes0 !! n;
  fi_seen : forall n, n ∈ (shown_by w).*1 -> exists s l u, nodes w !! n = Some s /\ _chat_lobbys s !! L = Some l /\ msg_cache l !! msg_id o = Some u /\
              (forall t, sendTime o - 600 <= t <= sendTime o + 1100 -> takes (env t n) o (lobby_flags (info l)));
  fi_shown : forall x, x ∈ shown_by w -> x.2 = o;
  fi_flights : forall x, x ∈ flights w -> x.2 = o /\ x.1.1 ∈ (shown_by w).*1;
  fi_links : forall x y, x ∈ (shown_by w).*1 -> link x y -> y ∈ (shown_by w).*1 \/ (x, y, o) ∈ flights w;
  fi_nodup : NoDup (shown_by w).*1;
  fi_count : (d + length (flights w) <= spread (shown_by w).*1)%nat
}.

Context (Hready : forall n s, nodes0 !! n = Some s -> ready n s).

(** What is left when an item is taken from a list. *)
Lemma delete_split {A} (l : list A) k x : l !! k = Some x -> exists l1 l2, l = l1 ++ x :: l2 /\ delete k l = l1 ++ l2.
Proof.
  intros H. exists (take k l), (drop (S k) l). rewrite take_drop_middle by done. split; [done|]. apply delete_take_drop.
Qed.

(** A message that was seen: nothing is sent. *)
Lemma deliver_seen d t k w from to o' : steady t -> sendTime o - 600 <= t <= sendTime o + 1100 -> flood_inv d w ->
  flights w !! k = Some (from, to, o') -> to ∈ (shown_by w).*1 -> flood_inv (S d) (deliver env t k w).
Proof.
  intros Hst Ht [] Hk Hto. unfold deliver. rewrite Hk. destruct (fi_seen0 to Hto) as (s & l & u & Hs & Hl & Hm & Htk).
  destruct (fi_flights0 _ (list_elem_of_lookup_2 _ _ _ Hk)) as [Ho' Hf]. cbn in Ho'. subst o'. rewrite Hs.
  destruct (delete_split _ _ _ Hk) as (l1 & l2 & Hw & Hd).
  destruct (recv_takes (env t to) o from s l Hl (Htk t Ht)) as (R1 & R2 & R3). destruct (bounce_again (env t to) o from s l u Hl Hm) as [B1 B2].
  destruct (bounce_entry (env t to) o from s l Hl) as (l' & E1 & E2 & _ & E3 & _).
  destruct (handleRecvChatLobbyMsgItem (env t to) o from s) as [[s1 out] shown]. cbn [fst snd] in *. rewrite B1 in R2. rewrite B2 in R3.
  assert (shown = None) as -> by (destruct shown; [by discriminate (proj1 R3 (mk_is_Some _ _ eq_refl))|done]).
  rewrite (R2 to), Hd. change (flights_of to []) with (@nil (Z * Z * RsChatLobbyBouncingObject)). rewrite !app_nil_r.
  split; cbn [nodes flights shown_by]; try done.
  - intros n. rewrite <- fi_same0. destruct (decide (n = to)) as [->|Hn]; [rewrite lookup_insert_eq, Hs|by rewrite lookup_insert_ne].
    split; intros; by eexists.
  - intros n Hn. rewrite lookup_insert_ne by (intros ->; done). by apply fi_fresh0.
  - intros n Hn. destruct (decide (n = to)) as [->|Hne]; [rewrite lookup_insert_eq|rewrite lookup_insert_ne by done; by apply fi_seen0].
    exists s1, l', (now (env t to)). rewrite R1, E1, E2, !lookup_insert_eq, E3. done.
  - intros x Hx. apply fi_flights0. rewrite Hw. set_solver.
  - intros x y Hx Hxy. destruct (fi_links0 x y Hx Hxy) as [?|Hin]; [by left|]. rewrite Hw in Hin.
    rewrite elem_of_app, elem_of_cons in Hin. destruct Hin as [?|[Heq|?]]; [right; set_solver| |right; set_solver]. simplify_eq. by left.
  - rewrite Hw in fi_count0. rewrite length_app in *. cbn [length] in fi_count0. lia.
Qed.

(** The message is shown at a node that has not seen it: what is left on its way, and what goes on from there. *)
Lemma show_step d d' w rest n s1 s l l' u hops : flood_inv d w -> n ∉ (shown_by w).*1 -> nodes0 !! n = Some s -> _chat_lobbys s !! L = Some l ->
  _chat_lobbys s1 !! L = Some l' -> msg_cache l' !! msg_id o = Some u -> lobby_flags (info l') = lobby_flags (info l) ->
  (forall x, x ∈ rest -> x ∈ flights w) -> (forall x, x ∈ flights w -> x ∈ rest \/ x.1.2 = n) ->
  (forall y, y ∈ participating_friends (info l) -> y ∈ conn n -> y ∈ hops \/ y ∈ (shown_by w).*1 \/ y = n) ->
  (length hops <= size (conn n))%nat -> (d' + length rest <= d + length (flights w))%nat ->
  flood_inv d' (mk_lobby_net (<[n := s1]> (nodes w)) (rest ++ ((fun y => (n, y, o)) <$> hops)) (shown_by w ++ [(n, o)])).
Proof.
  intros [] Hn Hs Hl Hl' Hm Hfl Hr1 Hr2 Hh Hlen Hd.
  assert (Hin : forall x, x ∈ (shown_by w ++ [(n, o)]).*1 <-> x ∈ (shown_by w).*1 \/ x = n)
    by (intros x; rewrite fmap_app, elem_of_app; cbn; by rewrite list_elem_of_singleton).
  destruct (Hready n s Hs) as (l0 & Hl0 & _ & _ & Htk). assert (l0 = l) as -> by congruence.
  split; cbn [nodes flights shown_by].
  - intros x. rewrite <- fi_same0. destruct (decide (x = n)) as [->|?]; [rewrite lookup_insert_eq|by rewrite lookup_insert_ne].
    split; [|by eexists]. intros _. apply fi_same0. by eexists.
  - intros x Hx. rewrite Hin in Hx. rewrite lookup_insert_ne by (intros ->; tauto). apply fi_fresh0. tauto.
  - intros x Hx. rewrite Hin in Hx. destruct (decide (x = n)) as [->|?]; [|rewrite lookup_insert_ne by done; apply fi_seen0; tauto].
    rewrite lookup_insert_eq. exists s1, l', u. by rewrite Hfl.
  - intros x. rewrite elem_of_app, list_elem_of_singleton. intros [?| ->]; [by apply fi_shown0|done].
  - intros x. rewrite Hin, elem_of_app, (list_elem_of_fmap (fun y => (n, y, o))). intros [Hx|(y & -> & _)]; [|by auto].
    destruct (fi_flights0 x (Hr1 x Hx)). auto.
  - intros x y Hx (sx & lx & Hsx & Hlx & Hy & Hc & Hyn). rewrite Hin in Hx. rewrite Hin, elem_of_app, (list_elem_of_fmap (fun y => (n, y, o))).
    destruct (decide (x = n)) as [->|Hne].
    + assert (sx = s) as -> by congruence. assert (lx = l) as -> by congruence. destruct (Hh y Hy Hc) as [?|[?| ->]]; [|by auto..].
      right. right. by exists y.
    + destruct Hx as [Hx|?]; [|done]. destruct (fi_links0 x y Hx) as [?|Hf]; [by exists sx, lx|by auto|]. destruct (Hr2 _ Hf); auto.
  - rewrite fmap_app. apply NoDup_app. split; [done|]. split; [|apply NoDup_singleton]. intros x Hx. cbn. rewrite list_elem_of_singleton. by intros ->.
  - rewrite fmap_app, spread_app, length_app, length_fmap. unfold spread at 2. cbn. lia.
Qed.

(** One that was not seen: the node shows it. *)
Lemma deliver_new d t k w from to o' : steady t -> sendTime o - 600 <= t <= sendTime o + 1100 -> flood_inv d w ->
  flights w !! k = Some (from, to, o') -> to ∉ (shown_by w).*1 -> is_Some (nodes w !! to) -> flood_inv (S d) (deliver env t k w).
Proof.
  intros Hst Ht Hi Hk Hto [s Hs]. pose proof Hi as Hi'. destruct Hi' as [_ Hfr _ _ Hfl _ _ _]. unfold deliver. rewrite Hk, Hs.
  destruct (Hfl _ (list_elem_of_lookup_2 _ _ _ Hk)) as [Ho' Hf]. cbn in Ho', Hf. subst o'. destruct (delete_split _ _ _ Hk) as (l1 & l2 & Hw & Hd).
  pose proof Hs as Hs0. rewrite (Hfr to Hto) in Hs0. destruct (Hready to s Hs0) as (l & Hl & Hm & Hc & Htk). specialize (Htk t Ht).
  destruct (recv_takes (env t to) o from s l Hl Htk) as (R1 & R2 & R3).
  destruct (bounce_new (env t to) to o from s l Hl Hm (Hc from)) as [B1 B2]; [by apply Htk|].
  destruct (bounce_entry (env t to) o from s l Hl) as (l' & E1 & E2 & _ & E3 & _). destruct (Hst to) as (_ & Hown & Hcon).
  destruct (handleRecvChatLobbyMsgItem (env t to) o from s) as [[s1 out] shown]. cbn [fst snd] in *.
  destruct (proj2 R3 B1) as [v ->]. rewrite (R2 to), B2, Hd. eapply (show_step d); try done.
  - by rewrite R1, E1, lookup_insert_eq.
  - by rewrite E2, lookup_insert_eq.
  - intros x Hx. rewrite Hw. set_solver.
  - intros x Hx. rewrite Hw, elem_of_app, elem_of_cons in Hx. destruct Hx as [?|[->|?]]; [left; set_solver|by right|left; set_solver].
  - intros y Hy Hyc. destruct (decide (y = from)) as [->|Hne]; [by auto|]. left. apply elem_of_next_hops. rewrite Hcon. set_solver.
  - rewrite <- Hcon. apply length_next_hops.
  - rewrite Hw, !length_app. cbn [length]. lia.
Qed.

(** One for a node that is not there. *)
Lemma deliver_lost d t k w from to o' : flood_inv d w -> flights w !! k = Some (from, to, o') -> nodes w !! to = None -> flood_inv (S d) (deliver env t k w).
Proof.
  intros [] Hk Hs. unfold deliver. rewrite Hk, Hs. destruct (delete_split _ _ _ Hk) as (l1 & l2 & Hw & Hd). rewrite Hd.
  split; cbn [nodes flights shown_by]; try done.
  - intros x Hx. apply fi_flights0. rewrite Hw. set_solver.
  - intros x y Hx Hxy. destruct (fi_links0 x y Hx Hxy) as [?|Hin]; [by left|]. rewrite Hw, elem_of_app, elem_of_cons in Hin.
    destruct Hin as [?|[Heq|?]]; [right; set_solver| |right; set_solver]. simplify_eq. destruct Hxy as (_ & _ & _ & _ & _ & _ & Hy).
    apply fi_same0 in Hy as [? ?]. congruence.
  - rewrite Hw in fi_count0. rewrite length_app in *. cbn [length] in fi_count0. lia.
Qed.

Lemma deliveries_inv sched : forall d w, flood_inv d w -> (forall x, x ∈ sched -> steady x.1 /\ sendTime o - 600 <= x.1 <= sendTime o + 1100) ->
  flood_inv (d + arrivals env sched w) (deliveries env sched w).
Proof.
  induction sched as [|[t k] sched IH]; intros d w Hi Hs; [by rewrite Nat.add_0_r|]. cbn [arrivals].
  change (deliveries env ((t, k) :: sched) w) with (deliveries env sched (deliver env t k w)).
  destruct (Hs (t, k) (list_elem_of_here _ _)) as [Hst Ht]. cbn [fst] in Hst, Ht.
  assert (Hs' : forall x, x ∈ sched -> steady x.1 /\ sendTime o - 600 <= x.1 <= sendTime o + 1100) by (intros x Hx; by apply Hs, list_elem_of_further).
  destruct (flights w !! k) as [[[from to] o']|] eqn:Ek.
  2: { assert (deliver env t k w = w) as -> by (unfold deliver; by rewrite Ek). by apply IH. }
  rewrite Nat.add_assoc, Nat.add_1_r. apply IH; [|done]. destruct (decide (to ∈ (shown_by w).*1)); [by eapply deliver_seen|].
  destruct (nodes w !! to) eqn:En; [by eapply deliver_new|by eapply deliver_lost].
Qed.

Lemma flood_inv_start : flood_inv 0 (mk_lobby_net nodes0 [] []).
Proof.
  split; cbn; try done; try (intros; by apply elem_of_nil in H); try (by constructor).
  all: intros * H; by apply elem_of_nil in H.
Qed.

Lemma deliveries_shown sched : forall w x, x ∈ (shown_by w).*1 -> x ∈ (shown_by (deliveries env sched w)).*1.
Proof.
  induction sched as [|[t k] sched IH]; intros w x Hx; [done|]. apply (IH (deliver env t k w)). unfold deliver.
  destruct (flights w !! k) as [[[from to] o']|]; [|done]. destruct (nodes w !! to); [|done].
  destruct (handleRecvChatLobbyMsgItem _ _ _ _) as [[s1 out] shown]. cbn. rewrite fmap_app, elem_of_app. by left.
Qed.

Lemma init_content E lobby c s o' : locked_initLobbyBouncableObject E lobby c s = Some (Some o') -> content o' = c /\ b_lobby_id o' = lobby.
Proof.
  unfold locked_initLobbyBouncableObject. intros H. case_match; [|done]. rewrite bind_Some in H. destruct H as (m & _ & H).
  repeat case_match; by simplify_eq.
Qed.

(** C4 A message reaches everyone, once.  One node says something in a lobby; the nodes have not seen it, take it (its author is not
    banned, its signature checks or its key is unknown, the lobby takes such identities, it is not too large, and it arrives within
    1100 seconds), and none has had more than ten messages of the lobby lately from one friend.  Then, in whatever order and at whatever times
    within these the copies arrive: each node shows it at most once, and what it shows is what was said; no more copies arrive or are on
    their way than the nodes that showed it have friends connected; and when none is on its way, every node has shown it that can be reached over
    friends who are connected and known to take part. *)
Theorem lobby_flood t0 a msg s w sched : nodes0 !! a = Some s -> steady t0 -> is_word 32 t0 ->
  locked_initLobbyBouncableObject (env t0 a) L (LobbyMsg (Z.lor RS_CHAT_FLAG_LOBBY RS_CHAT_FLAG_PRIVATE) t0 0 msg) s = Some (Some o) ->
  speak env t0 a L msg o (mk_lobby_net nodes0 [] []) = Some w ->
  (forall x, x ∈ sched -> steady x.1 /\ sendTime o - 600 <= x.1 <= sendTime o + 1100) ->
  let w' := deliveries env sched w in
  NoDup (shown_by w').*1 /\ (forall x, x ∈ shown_by w' -> x.2 = o) /\
  (arrivals env sched w + length (flights w') <= spread (shown_by w').*1)%nat /\
  (flights w' = [] -> forall n, rtc link a n -> (n, o) ∈ shown_by w').
Proof.
  intros Hs Hst Ht0 Hinit Hsp Hsched w'. destruct (Hst a) as (Hnow & Hown & Hcon). destruct (init_content _ _ _ _ _ Hinit) as [Hco _].
  assert (Hi : flood_inv 0 w /\ a ∈ (shown_by w).*1).
  { unfold speak in Hsp. cbn [nodes flights shown_by] in Hsp. rewrite Hs in Hsp. cbn in Hsp. unfold sendLobbyChat in Hsp. cbv zeta in Hsp.
    rewrite Hnow, wrap_small in Hsp by done. rewrite Hinit in Hsp. cbn in Hsp. destruct (Hready a s Hs) as (l & Hl & Hm & Hc & Htk).
    assert (Hsz : item_size (env t0 a) (LobbyObject o) <= MAX_ITEM_SIZE) by (apply (Htk t0); unfold sendTime; rewrite Hco; lia).
    destruct (bounce_new (env t0 a) a o (ownId (env t0 a)) s l Hl Hm (Hc _) Hsz) as [B1 B2].
    destruct (bounce_entry (env t0 a) o (ownId (env t0 a)) s l Hl) as (l' & E1 & E2 & _ & E3 & _).
    destruct (bounceLobbyObject (env t0 a) o (ownId (env t0 a)) s) as [[s1 out] ok]. cbn [fst snd] in *. injection Hsp as <-.
    rewrite flights_of_app, B2. change (flights_of a [_; _]) with (@nil (Z * Z * RsChatLobbyBouncingObject)). rewrite app_nil_r.
    rewrite decide_True by done. rewrite (union_empty_l_L (participating_friends (info l))). split; [|by left].
    eapply (show_step 0 0 (mk_lobby_net nodes0 [] []) []); try done; cbn.
    - apply flood_inv_start.
    - apply not_elem_of_nil.
    - by rewrite E1, lookup_insert_eq.
    - by rewrite E2, lookup_insert_eq.
    - intros x Hx. by apply elem_of_nil in Hx.
    - intros y Hy Hyc. destruct (decide (y = a)) as [->|Hne]; [by auto|]. left. apply elem_of_next_hops. by rewrite Hown, Hcon.
    - rewrite <- Hcon. apply length_next_hops. }
  destruct Hi as [Hi Ha]. pose proof (deliveries_inv sched 0 w Hi Hsched) as Hinv.
  assert (Ha' : a ∈ (shown_by w').*1) by (by apply deliveries_shown).
  destruct Hinv. repeat split; try done. intros He n Hr. fold w' in fi_links0, fi_shown0.
  assert (Hn : n ∈ (shown_by w').*1).
  { clear -fi_links0 He Hr Ha'. induction Hr as [x|x y z Hxy Hr IH]; [done|]. apply IH. destruct (fi_links0 x y Ha' Hxy) as [?|Hf]; [done|].
    fold w' in Hf. rewrite He in Hf. by apply elem_of_nil in Hf. }
  apply list_elem_of_fmap in Hn as ([n' o'] & -> & Hn). pose proof (fi_shown0 _ Hn) as Ho. cbn in Ho. by subst o'.
Qed.

End flood.

(** Five nodes, 1 - 2 - 3 - 4 in a row and 5 a friend of 2 that is not connected: node 1 says something. *)
Definition row_conn (n : Z) : gset Z := if decide (n = 1) then {[2]} else if decide (n = 2) then {[1; 3]} else if decide (n = 3) then {[2; 4]}
  else if decide (n = 4) then {[3]} else ∅.

Definition row_env (t n : Z) : chat_env :=
  mk_chat_env t n (row_conn n) (fun _ => 1) (fun _ => Some ([65], RS_IDENTITY_FLAGS_IS_OWN_ID)) [8] (fun _ => true) (fun _ => true) (fun _ => None)
    (fun _ => Some [1]) (fun _ => 100) (fun _ => [77]) [].

Definition row_lobby (n : Z) (friends : gset Z) : Z * DistributedChatService :=
  (n, new_ChatService <| _chat_lobbys := {[9 := new_entry (row_env 9990 n) 9 [] [] 4 8 friends]} |>).

Definition row_nodes : gmap Z DistributedChatService :=
  list_to_map [row_lobby 1 {[2]}; row_lobby 2 {[1; 3; 5]}; row_lobby 3 {[2; 4]}; row_lobby 4 {[3]}; row_lobby 5 {[2]}].

Definition row_message : RsChatLobbyBouncingObject := mk_Bouncing 9 77 [65] 8 [1] (LobbyMsg 0x201 10000 0 [72; 105]).

Definition row_net : lobby_net := default (mk_lobby_net ∅ [] []) (speak row_env 10000 1 9 [72; 105] row_message (mk_lobby_net row_nodes [] [])).

Definition row_sched : list (Z * nat) := [(10001, 0%nat); (10003, 0%nat); (10002, 0%nat); (10900, 0%nat)].

Lemma row_ready n s : row_nodes !! n = Some s -> ready row_env row_message n s.
Proof.
  unfold row_nodes. intros H%elem_of_list_to_map_2.
  assert (Hl : exists fr, s = (row_lobby n fr).2).
  { repeat (apply elem_of_cons in H as [H|H]; [injection H as -> ->; by eexists|]). by apply elem_of_nil in H. }
  destruct Hl as [fr ->]. exists (new_entry (row_env 9990 n) 9 [] [] 4 8 fr). split; [done|]. split; [done|].
  split; [intros p; cbn; rewrite lookup_empty; cbn; lia|]. intros t Ht. change (sendTime row_message) with 10000 in Ht.
  repeat split; try done; [by left|unfold outdated|unfold from_future]; cbn; unfold MAX_KEEP_MSG_RECORD; apply Z.ltb_ge; lia.
Qed.

Lemma lobby_flood_witness : (shown_by (deliveries row_env row_sched row_net)).*1 = [1; 2; 3; 4] /\ (4, row_message) ∈ shown_by (deliveries row_env row_sched row_net).
Proof.
  split; [vm_compute; reflexivity|].
  destruct (row_nodes !! 1) as [s|] eqn:Es; [|vm_compute in Es; discriminate Es].
  assert (Hst : forall t, steady row_env row_conn t) by done.
  destruct (lobby_flood row_env row_conn row_nodes row_message row_ready 10000 1 [72; 105] s row_net row_sched Es (Hst _)) as (_ & _ & _ & H).
  - unfold is_word. lia.
  - injection Es as <-. vm_compute. reflexivity.
  - vm_compute. reflexivity.
  - apply Forall_forall. repeat constructor; cbn; try done; lia.
  - apply H; [vm_compute; reflexivity|].
    assert (Hl : forall x y, link row_conn row_nodes row_message x y <-> exists s l, row_nodes !! x = Some s /\ _chat_lobbys s !! 9 = Some l /\
      y ∈ participating_friends (info l) /\ y ∈ row_conn x /\ is_Some (row_nodes !! y)) by done.
    apply (rtc_l _ 1 2); [|apply (rtc_l _ 2 3); [|apply (rtc_l _ 3 4); [|apply rtc_refl]]];
      apply Hl; do 2 eexists; (split; [vm_compute; reflexivity|]); (split; [vm_compute; reflexivity|]); cbn;
      (split; [set_solver|]); (split; [set_solver|]); eexists; vm_compute; reflexivity.
Defined.
