(* ===== verification/LobbyMeet.v ===== *)
(** * Chat lobbies: how friends find each other

    Two friends pass messages of a lobby on to each other when each counts the other as taking part.  They come to it over the list of
    lobbies that one asks the other for, and the invitation that joining sends back; and, in a private lobby, over a
    challenge that names a recent message without giving it away. *)

From S2P Require Import Prelude RsExpr Lobby LobbyProps LobbyNet.
From Stdlib Require Import ZArith Lia SpecFloat.
From stdpp Require Import base list gmap sorting.
Open Scope Z_scope.

(** ** Flags *)

Lemma EXTRACT_twice f : EXTRACT_PRIVACY_FLAGS (EXTRACT_PRIVACY_FLAGS f) = EXTRACT_PRIVACY_FLAGS f.
Proof. unfold EXTRACT_PRIVACY_FLAGS. by rewrite <- Z.land_assoc, Z.land_diag. Qed.

Lemma EXTRACT_no_challenge f : IS_CONNEXION_CHALLENGE (EXTRACT_PRIVACY_FLAGS f) = false.
Proof. unfold IS_CONNEXION_CHALLENGE, has_flag, EXTRACT_PRIVACY_FLAGS. rewrite <- Z.land_assoc. by rewrite Z.land_0_r. Qed.

Lemma EXTRACT_signed f : has_flag (EXTRACT_PRIVACY_FLAGS f) RS_CHAT_LOBBY_FLAGS_PGP_SIGNED = IS_PGP_SIGNED_LOBBY f.
Proof. unfold IS_PGP_SIGNED_LOBBY, has_flag, EXTRACT_PRIVACY_FLAGS. by rewrite <- Z.land_assoc. Qed.

(** ** Visible lobbies stay as they are when one joins *)

Section meet.
Context (E : chat_env).

Lemma check_visible L p s : _visible_lobbies (locked_bouncingObjectCheck E L p s).1 = _visible_lobbies s.
Proof. unfold locked_bouncingObjectCheck. cbv zeta. repeat case_match; reflexivity. Qed.

Lemma bounce_visible o p s : _visible_lobbies (bounceLobbyObject E o p s).1.1 = _visible_lobbies s.
Proof.
  unfold bounceLobbyObject. destruct (_chat_lobbys s !! b_lobby_id o) as [l|]; [|done]. cbv zeta. destruct (msg_cache l !! msg_id o); [done|].
  match goal with |- context [locked_bouncingObjectCheck E ?L ?q ?s0] => pose proof (check_visible L q s0) as H; destruct (locked_bouncingObjectCheck E L q s0) as [s1 ok] end.
  by destruct ok.
Qed.

Lemma status_visible L ty str s s' out : sendLobbyStatusItem E L ty str s = Some (s', out) -> _visible_lobbies s' = _visible_lobbies s.
Proof.
  unfold sendLobbyStatusItem. intros H. destruct (locked_initLobbyBouncableObject E L _ s) as [[o|]|]; cbn in H; [|by simplify_eq|done].
  pose proof (bounce_visible o (ownId E) s) as Hb. destruct (bounceLobbyObject E o (ownId E) s) as [[s1 o1] ok]. by simplify_eq.
Qed.

Lemma subscribe_visible L b s : _visible_lobbies (setLobbyAutoSubscribe L b s).1 = _visible_lobbies s.
Proof. unfold setLobbyAutoSubscribe. cbv zeta. cbn [fst]. by repeat case_match. Qed.

Lemma join_visible L id s s' out b : joinVisibleChatLobby E L id s = Some (s', out, b) -> _visible_lobbies s' = _visible_lobbies s.
Proof.
  unfold joinVisibleChatLobby. cbv zeta. intros H. repeat case_match; simplify_eq; try reflexivity. rewrite bind_Some in H.
  destruct H as ([s1 o1] & Hs & H). simplify_eq. rewrite (status_visible _ _ _ _ _ _ Hs).
  match goal with Hs : setLobbyAutoSubscribe ?L ?b ?s1 = (?s2, _) |- _ => pose proof (subscribe_visible L b s1) as He; rewrite Hs in He end. exact He.
Qed.

Lemma auto_visible L s s' out : auto_subscribe E L s = Some (s', out) -> _visible_lobbies s' = _visible_lobbies s.
Proof.
  unfold auto_subscribe. cbv zeta. intros H. destruct (getIdDetails E _) as [[n f]|]; [|by simplify_eq].
  case_match; simplify_eq.
  - match goal with Hs : setLobbyAutoSubscribe ?L ?b ?s1 = (?s2, _) |- _ => pose proof (subscribe_visible L b s1) as He; rewrite Hs in He end. exact He.
  - rewrite bind_Some in H. destruct H as ([[s1 o1] b] & H1 & H). simplify_eq. by rewrite (join_visible _ _ _ _ _ _ H1).
Qed.

Lemma each_visible l : forall s s' out, each (auto_subscribe E) l s = Some (s', out) -> _visible_lobbies s' = _visible_lobbies s.
Proof.
  induction l as [|x l IH]; intros s s' out H; [by simplify_eq/=|]. cbn [each] in H. rewrite bind_Some in H. destruct H as ([s1 o1] & H1 & H).
  rewrite bind_Some in H. destruct H as ([s2 o2] & H2 & H). simplify_eq. by rewrite (IH _ _ _ H2), (auto_visible _ _ _ _ H1).
Qed.

(** ** The list *)

(** A lobby of a list is heard of with its name, topic and flags, and the friend as taking part. *)
Definition heard (p : Z) (i : VisibleChatLobbyInfo) (s : DistributedChatService) : Prop :=
  exists r, _visible_lobbies s !! i_id i = Some r /\ r_lobby_name r = i_name i /\ r_lobby_topic r = i_topic i /\
    r_lobby_flags r = EXTRACT_PRIVACY_FLAGS (i_flags i) /\ p ∈ r_participating_friends r.

Lemma hear_heard p i st : heard p i (hear_of_lobby E p i st).1.1.
Proof.
  unfold hear_of_lobby. destruct st as [[s subs] inv]. cbv zeta.
  match goal with |- context [<[i_id i := ?r]> (_visible_lobbies s)] => exists r end. split.
  - repeat case_match; cbn; by rewrite lookup_insert_eq.
  - cbn. repeat split; try done. set_solver.
Qed.

Lemma hear_other p i j st : i_id j <> i_id i -> heard p i st.1.1 -> heard p i (hear_of_lobby E p j st).1.1.
Proof.
  intros Hn (r & Hr & H). unfold hear_of_lobby. destruct st as [[s subs] inv]. cbv zeta. exists r. split; [|done].
  repeat case_match; cbn; by rewrite lookup_insert_ne.
Qed.

Lemma hear_list p i l : forall st, NoDup (i_id <$> l) -> i ∈ l \/ heard p i st.1.1 /\ i_id i ∉ i_id <$> l ->
  heard p i (foldl (fun st i => hear_of_lobby E p i st) st l).1.1.
Proof.
  induction l as [|j l IH]; intros st Hn [Hi|[Hh Hi]]; cbn in *; [by apply elem_of_nil in Hi|done| |].
  - apply NoDup_cons in Hn as [Hj Hn]. apply IH; [done|]. apply elem_of_cons in Hi as [<-|Hi]; [|by left]. right. split; [apply hear_heard|done].
  - apply NoDup_cons in Hn as [Hj Hn]. rewrite elem_of_cons in Hi. apply IH; [done|]. right. split; [|tauto]. apply hear_other; [intuition|done].
Qed.

Lemma list_heard l p s s' out i : NoDup (i_id <$> l) -> i ∈ take MAX_ALLOWED_LOBBIES_IN_LIST_WARNING l -> handleRecvChatLobbyList E l p s = Some (s', out) ->
  heard p i s'.
Proof.
  intros Hn Hi. unfold handleRecvChatLobbyList. pose proof (hear_list p i (take MAX_ALLOWED_LOBBIES_IN_LIST_WARNING l) (s, [], [])) as Hh.
  destruct (foldl _ _ _) as [[s1 subs] inv]. intros H. rewrite bind_Some in H. destruct H as ([s2 o2] & H2 & H). simplify_eq.
  unfold heard. cbn. rewrite (each_visible _ _ _ _ H2). apply Hh; [|by left]. eapply sublist_NoDup; [exact Hn|].
  rewrite <- (take_drop MAX_ALLOWED_LOBBIES_IN_LIST_WARNING l) at 2. rewrite fmap_app. apply sublist_inserts_r. done.
Qed.

(** ** Joining *)

(** Saying something leaves the lobby's data. *)
Lemma status_entry L ty str s s' out l : sendLobbyStatusItem E L ty str s = Some (s', out) -> _chat_lobbys s !! L = Some l ->
  exists l', _chat_lobbys s' !! L = Some l' /\ participating_friends (info l') = participating_friends (info l) /\
    lobby_flags (info l') = lobby_flags (info l) /\ lobby_name (info l') = lobby_name (info l) /\ lobby_topic (info l') = lobby_topic (info l).
Proof.
  unfold sendLobbyStatusItem. intros H Hl. destruct (locked_initLobbyBouncableObject E L _ s) as [[o|]|] eqn:Ei; cbn in H; [|simplify_eq; by exists l|done].
  destruct (init_content _ _ _ _ _ Ei) as [_ Ho]. subst L. destruct (bounce_entry E o (ownId E) s l Hl) as (l' & E1 & _ & E2 & E3 & _ & _ & E4 & E5).
  destruct (bounceLobbyObject E o (ownId E) s) as [[s1 o1] ok]. simplify_eq. cbn in E1. exists l'. rewrite E1, lookup_insert_eq.
  rewrite decide_True in E2 by done. by rewrite E2, (union_empty_l_L (participating_friends (info l))).
Qed.

(** The entry of a lobby joined, and the invitations sent for it. *)
Lemma join_entry L id s s' out b r nick mF : joinVisibleChatLobby E L id s = Some (s', out, b) -> _chat_lobbys s !! L = None ->
  _visible_lobbies s !! L = Some r -> getIdDetails E id = Some (nick, mF) -> has_flag mF RS_IDENTITY_FLAGS_IS_OWN_ID = true ->
  (has_flag (r_lobby_flags r) RS_CHAT_LOBBY_FLAGS_PGP_SIGNED = true -> has_flag mF RS_IDENTITY_FLAGS_PGP_LINKED = true) ->
  b = true /\ exists l, _chat_lobbys s' !! L = Some l /\ participating_friends (info l) = r_participating_friends r /\ lobby_flags (info l) = r_lobby_flags r /\
    lobby_name (info l) = r_lobby_name r /\ lobby_topic (info l) = r_lobby_topic r /\
    forall p, p ∈ r_participating_friends r -> SendChatItem p (LobbyInvite (mk_Invite L (r_lobby_name r) (r_lobby_topic r) (r_lobby_flags r))) ∈ out.
Proof.
  unfold joinVisibleChatLobby. cbv zeta. intros H Hl Hr Hid Hown Hpgp. rewrite Hid, Hown, Hr, Hl in H. cbn [negb] in H.
  destruct (has_flag (r_lobby_flags r) _ && negb (has_flag mF _)) eqn:Ep.
  { apply andb_true_iff in Ep as [E1 E2]. by rewrite (Hpgp E1) in E2. }
  match type of H with context [setLobbyAutoSubscribe ?L ?b ?s1] => pose proof (subscribe_lobbys L b s1) as He; destruct (setLobbyAutoSubscribe L b s1) as [s1' o1] end.
  cbn [fst] in He. rewrite bind_Some in H. destruct H as ([s2 o3] & Hst & H). simplify_eq. split; [done|].
  destruct (status_entry _ _ _ _ _ _ (new_entry E L (r_lobby_name r) (r_lobby_topic r) (r_lobby_flags r) id (r_participating_friends r)) Hst)
    as (l' & Hl' & E1 & E2 & E3 & E4); [by rewrite He; cbn; rewrite lookup_insert_eq|].
  exists l'. repeat split; try done. intros p Hp. rewrite !elem_of_app. right. right. left. apply list_elem_of_In, in_concat.
  exists (invitePeerToLobby L p false s1'). split; [apply list_elem_of_In, list_elem_of_fmap; exists p; split; [done|by apply elem_of_members]|].
  unfold invitePeerToLobby. rewrite He. cbn [_chat_lobbys upd]. rewrite lookup_insert_eq. by left.
Qed.

End meet.

(** The rows of the list that a friend is sent. *)
Lemma list_request_rows p s : exists rows, handleRecvChatLobbyListRequest p s = [SendChatItem p (LobbyList rows)] /\ NoDup (i_id <$> rows) /\
  forall i, i ∈ rows -> exists l, _chat_lobbys s !! i_id i = Some l /\ i_name i = lobby_name (info l) /\ i_topic i = lobby_topic (info l) /\
    i_flags i = EXTRACT_PRIVACY_FLAGS (lobby_flags (info l)).
Proof.
  eexists. split; [reflexivity|]. split.
  - rewrite <- list_fmap_compose. cbn. eapply sublist_NoDup; [apply (in_order_keys (_chat_lobbys s))|].
    generalize (in_order (_chat_lobbys s)). intros l. induction l as [|x l IH]; [done|]. cbn. case_match; cbn; by constructor.
  - intros i (x & -> & Hx)%list_elem_of_fmap. apply list_elem_of_In, List.filter_In in Hx as [Hx _]. apply list_elem_of_In, elem_of_in_order in Hx.
    by exists x.2.
Qed.

(** Taking an invitation to a lobby one is in, with the same privacy: the friend takes part. *)
Lemma invite_adds i p s l : _chat_lobbys s !! n_lobby_id i = Some l ->
  IS_CONNEXION_CHALLENGE (n_lobby_flags i) = true \/ EXTRACT_PRIVACY_FLAGS (n_lobby_flags i) = EXTRACT_PRIVACY_FLAGS (lobby_flags (info l)) ->
  exists l', _chat_lobbys (handleRecvLobbyInvite i p s).1 !! n_lobby_id i = Some l' /\
    participating_friends (info l') = {[p]} ∪ participating_friends (info l) /\ msg_cache l' = msg_cache l.
Proof.
  intros Hl Hf. unfold handleRecvLobbyInvite. rewrite Hl.
  assert (negb (IS_CONNEXION_CHALLENGE (n_lobby_flags i)) && negb (EXTRACT_PRIVACY_FLAGS (n_lobby_flags i) =? EXTRACT_PRIVACY_FLAGS (lobby_flags (info l))) = false) as ->
    by (destruct Hf as [-> | ->]; rewrite ?Z.eqb_refl, ?andb_false_r; done).
  cbv zeta. case_bool_decide; cbn; rewrite lookup_insert_eq; by eexists.
Qed.

(** C6 Joining a lobby that a friend told of connects the two.  Friend [b], in lobby [L], answers [a]'s request with its list, in which [L] is among the
    first fifty; [a] takes the list, and joins with an identity of its own that the lobby allows.  Then [a] has the lobby under [b]'s name
    and topic and with the flags of its privacy, counts [b] as taking part, and sends [b] an invitation, on which [b] counts [a] as taking part too: each passes on
    to the other what is said from then on. *)
Theorem joining_connects Ea a b L id nick mF sa sb lb rows sa1 o1 sa2 o2 r : _chat_lobbys sb !! L = Some lb ->
  handleRecvChatLobbyListRequest a sb = [SendChatItem a (LobbyList rows)] -> L ∈ i_id <$> take MAX_ALLOWED_LOBBIES_IN_LIST_WARNING rows ->
  handleRecvChatLobbyList Ea rows b sa = Some (sa1, o1) -> _chat_lobbys sa1 !! L = None ->
  getIdDetails Ea id = Some (nick, mF) -> has_flag mF RS_IDENTITY_FLAGS_IS_OWN_ID = true ->
  (IS_PGP_SIGNED_LOBBY (lobby_flags (info lb)) = true -> has_flag mF RS_IDENTITY_FLAGS_PGP_LINKED = true) ->
  joinVisibleChatLobby Ea L id sa1 = Some (sa2, o2, r) ->
  r = true /\ exists la i lb', _chat_lobbys sa2 !! L = Some la /\ b ∈ participating_friends (info la) /\
    lobby_name (info la) = lobby_name (info lb) /\ lobby_topic (info la) = lobby_topic (info lb) /\
    lobby_flags (info la) = EXTRACT_PRIVACY_FLAGS (lobby_flags (info lb)) /\
    SendChatItem b (LobbyInvite i) ∈ o2 /\
    _chat_lobbys (handleRecvLobbyInvite i a sb).1 !! L = Some lb' /\ a ∈ participating_friends (info lb').
Proof.
  intros Hlb Hreq HL Hlist Hnone Hid Hown Hpgp Hjoin. destruct (list_request_rows a sb) as (rows' & Hreq' & Hnd & Hrows).
  rewrite Hreq in Hreq'. injection Hreq' as <-. apply list_elem_of_fmap in HL as (i & -> & Hi).
  assert (Hi' : i ∈ rows) by (rewrite <- (take_drop MAX_ALLOWED_LOBBIES_IN_LIST_WARNING rows); apply elem_of_app; by left).
  destruct (Hrows i Hi') as (l & Hl & En & Et & Ef). assert (l = lb) as -> by congruence.
  destruct (list_heard Ea rows b sa sa1 o1 i Hnd Hi Hlist) as (rec & Hr & Rn & Rt & Rf & Rp). rewrite Ef, EXTRACT_twice in Rf.
  destruct (join_entry Ea (i_id i) id sa1 sa2 o2 r rec nick mF Hjoin Hnone Hr Hid Hown) as [-> (la & Hla & Pf & Ff & Fn & Ft & Hinv)].
  { rewrite Rf, EXTRACT_signed. done. }
  split; [done|]. specialize (Hinv b Rp).
  destruct (invite_adds (mk_Invite (i_id i) (r_lobby_name rec) (r_lobby_topic rec) (r_lobby_flags rec)) a sb lb Hlb) as (lb' & Hlb' & Hp & _).
  { right. cbn. by rewrite Rf, EXTRACT_twice. }
  exists la, (mk_Invite (i_id i) (r_lobby_name rec) (r_lobby_topic rec) (r_lobby_flags rec)), lb'.
  repeat split; [done|by rewrite Pf|by rewrite Fn, Rn|by rewrite Ft, Rt|by rewrite Ff, Rf|done|done|rewrite Hp; set_solver].
Qed.

(** Node 2 is in a public lobby that asks for linked identities, and has an identity that is. *)
Definition meet_env (n : Z) (friends : gset Z) : chat_env :=
  mk_chat_env 5000 n friends (fun _ => 1) (fun _ => Some ([65], 10)) [8] (fun _ => true) (fun _ => true) (fun _ => None)
    (fun _ => Some [1]) (fun _ => 100) (fun _ => [77]) [].

Definition meet_host : DistributedChatService :=
  new_ChatService <| _chat_lobbys := {[9 := new_entry (meet_env 2 ∅) 9 [76] [84] (RS_CHAT_LOBBY_FLAGS_PUBLIC + RS_CHAT_LOBBY_FLAGS_PGP_SIGNED) 8 ∅]} |>.

Definition meet_rows : list VisibleChatLobbyInfo := [mk_VisibleInfo 9 [76] [84] 0 20].

Lemma joining_connects_witness : handleRecvChatLobbyListRequest 1 meet_host = [SendChatItem 1 (LobbyList meet_rows)] /\
  exists sa1 o1 sa2 o2 r, handleRecvChatLobbyList (meet_env 1 {[2]}) meet_rows 2 new_ChatService = Some (sa1, o1) /\
    joinVisibleChatLobby (meet_env 1 {[2]}) 9 8 sa1 = Some (sa2, o2, r) /\ r = true.
Proof.
  split; [vm_compute; reflexivity|].
  destruct (handleRecvChatLobbyList (meet_env 1 {[2]}) meet_rows 2 new_ChatService) as [[sa1 o1]|] eqn:E1; [|vm_compute in E1; discriminate E1].
  destruct (joinVisibleChatLobby (meet_env 1 {[2]}) 9 8 sa1) as [[[sa2 o2] r]|] eqn:E2;
    [|vm_compute in E1; injection E1 as <- _; vm_compute in E2; discriminate E2].
  exists sa1, o1, sa2, o2, r. split; [reflexivity|]. split; [exact E2|].
  destruct (_chat_lobbys meet_host !! 9) as [lb|] eqn:Elb; [|vm_compute in Elb; discriminate Elb].
  apply (joining_connects (meet_env 1 {[2]}) 1 2 9 8 [65] 10 new_ChatService meet_host lb meet_rows sa1 o1 sa2 o2 r); try exact E1; try exact E2; try exact Elb;
    try reflexivity.
  - vm_compute. left.
  - vm_compute in E1. injection E1 as <- _. vm_compute. reflexivity.
Defined.

(** ** Challenges *)

(** C7 A challenge connects two friends in a private lobby.  Node [a] sends its friends a number made of their node's number, the lobby, and a message it has seen
    within 30 seconds.  If friend [b] is in the lobby too and has seen the message within 35 seconds, and no other private lobby of
    [b] makes the same number, [b] counts [a] as taking part, and sends an invitation on which [a] counts [b] as taking part.  A friend for whom no recent message of a
    private lobby makes the number does not change and does not answer. *)
Theorem challenge_connects Ea Eb a b L sa sb la lb u : ownId Eb = b -> b ∈ getPeersConnected Ea ->
  _chat_lobbys sa !! L = Some la -> _chat_lobbys sb !! L = Some lb -> IS_PUBLIC_LOBBY (lobby_flags (info lb)) = false ->
  challenge_msg Ea la <> 0 -> msg_cache lb !! challenge_msg Ea la = Some u -> now Eb < u + CONNECTION_CHALLENGE_MAX_MSG_AGE + 5 ->
  (forall L' l m v, L' <> L -> _chat_lobbys sb !! L' = Some l -> IS_PUBLIC_LOBBY (lobby_flags (info l)) = false -> msg_cache l !! m = Some v ->
    makeConnexionChallengeCode b L' m <> makeConnexionChallengeCode b L (challenge_msg Ea la)) ->
  exists code i, SendChatItem b (LobbyConnectChallenge code) ∈ sendConnectionChallenge Ea L sa /\
    (exists lb', _chat_lobbys (handleConnectionChallenge Eb code a sb).1 !! L = Some lb' /\ a ∈ participating_friends (info lb')) /\
    SendChatItem a (LobbyInvite i) ∈ (handleConnectionChallenge Eb code a sb).2 /\
    (exists la', _chat_lobbys (handleRecvLobbyInvite i b sa).1 !! L = Some la' /\ b ∈ participating_friends (info la')) /\
    (forall Ec s, (forall L' l m v, _chat_lobbys s !! L' = Some l -> IS_PUBLIC_LOBBY (lobby_flags (info l)) = false -> msg_cache l !! m = Some v ->
       now Ec < v + CONNECTION_CHALLENGE_MAX_MSG_AGE + 5 -> makeConnexionChallengeCode (ownId Ec) L' m <> code) ->
     handleConnectionChallenge Ec code a s = (s, [])).
Proof.
  intros Hb Hconn Hla Hlb Hpriv Hm Hu Hage Huniq. set (m := challenge_msg Ea la) in *. set (code := makeConnexionChallengeCode b L m) in *.
  assert (Hfound : challenged_lobby Eb code sb = Some L).
  { unfold challenged_lobby. rewrite Hb. match goal with |- context [List.find ?f ?xs] => destruct (List.find f xs) as [[L' l]|] eqn:Ef end.
    - apply List.find_some in Ef as [Hin Hf]. apply list_elem_of_In, elem_of_in_order in Hin. cbn in *. f_equal.
      destruct (decide (L' = L)) as [|Hne]; [done|exfalso]. apply andb_true_iff in Hf as [Hp Hf]. apply negb_true_iff in Hp.
      apply existsb_exists in Hf as ([m' v] & Hin' & Hf). apply list_elem_of_In, elem_of_in_order in Hin'. cbn in *.
      apply andb_true_iff in Hf as [_ Hf%Z.eqb_eq]. by apply (Huniq L' l m' v).
    - exfalso. eapply List.find_none in Ef; [|apply list_elem_of_In, (elem_of_in_order _ (L, lb)), Hlb]. cbn in Ef. rewrite Hpriv in Ef. cbn in Ef.
      apply not_true_iff_false in Ef. apply Ef, existsb_exists. exists (m, u). split; [by apply list_elem_of_In, elem_of_in_order|]. cbn.
      apply andb_true_iff. split; [by apply Z.ltb_lt|by apply Z.eqb_eq]. }
  set (i := mk_Invite L (lobby_name (info lb)) (lobby_topic (info lb)) RS_CHAT_LOBBY_FLAGS_CHALLENGE). exists code, i. split; [|split; [|split; [|split]]].
  - unfold sendConnectionChallenge. rewrite Hla. fold m. rewrite (proj2 (Z.eqb_neq _ _) Hm). apply list_elem_of_fmap. exists b.
    split; [done|by apply elem_of_members].
  - unfold handleConnectionChallenge. rewrite Hfound. cbn. rewrite lookup_alter_eq, Hlb. eexists. split; [done|]. cbn. set_solver.
  - unfold handleConnectionChallenge. rewrite Hfound. cbn. unfold invitePeerToLobby. cbn. rewrite lookup_alter_eq, Hlb. cbn. left.
  - destruct (invite_adds i b sa la Hla) as (la' & Hl' & Hp & _); [by left|]. exists la'. split; [done|]. rewrite Hp. set_solver.
  - intros Ec s Hno. unfold handleConnectionChallenge, challenged_lobby.
    match goal with |- context [List.find ?f ?xs] => destruct (List.find f xs) as [[L' l]|] eqn:Ef; [exfalso|done] end.
    apply List.find_some in Ef as [Hin Hf]. apply list_elem_of_In, elem_of_in_order in Hin. cbn in *.
    apply andb_true_iff in Hf as [Hp Hf]. apply negb_true_iff in Hp. apply existsb_exists in Hf as ([m' v] & Hin' & Hf).
    apply list_elem_of_In, elem_of_in_order in Hin'. cbn in *. apply andb_true_iff in Hf as [Ht%Z.ltb_lt Hf%Z.eqb_eq].
    by apply (Hno L' l m' v).
Qed.

(** Two friends in a private lobby, each with the message 5 in its cache. *)
Definition private_lobby (n : Z) (cache : gmap Z Z) : DistributedChatService :=
  new_ChatService <| _chat_lobbys := {[9 := (new_entry (meet_env n ∅) 9 [76] [84] 0 8 ∅) <| msg_cache := cache |>]} |>.

Lemma challenge_connects_witness :
  SendChatItem 2 (LobbyConnectChallenge (makeConnexionChallengeCode 2 9 5)) ∈ sendConnectionChallenge (meet_env 1 {[2]}) 9 (private_lobby 1 {[5 := 4990]}) /\
  exists code i, SendChatItem 2 (LobbyConnectChallenge code) ∈ sendConnectionChallenge (meet_env 1 {[2]}) 9 (private_lobby 1 {[5 := 4990]}) /\
    SendChatItem 1 (LobbyInvite i) ∈ (handleConnectionChallenge (meet_env 2 {[1]}) code 1 (private_lobby 2 {[5 := 4980]})).2.
Proof.
  split; [vm_compute; left|].
  destruct (_chat_lobbys (private_lobby 1 {[5 := 4990]}) !! 9) as [la|] eqn:Ea; [|vm_compute in Ea; discriminate Ea].
  destruct (_chat_lobbys (private_lobby 2 {[5 := 4980]}) !! 9) as [lb|] eqn:Eb; [|vm_compute in Eb; discriminate Eb].
  destruct (challenge_connects (meet_env 1 {[2]}) (meet_env 2 {[1]}) 1 2 9 (private_lobby 1 {[5 := 4990]}) (private_lobby 2 {[5 := 4980]}) la lb 4980)
    as (code & i & H1 & _ & H2 & _); try reflexivity; try exact Ea; try exact Eb.
  - injection Eb as <-. reflexivity.
  - injection Ea as <-. vm_compute. discriminate.
  - injection Ea as <-. injection Eb as <-. vm_compute. reflexivity.
  - intros L' l m v Hne Hl _ _. exfalso. unfold private_lobby in Hl. cbn [_chat_lobbys upd] in Hl.
    by apply lookup_singleton_Some in Hl as [<- _].
  - exists code, i. split; [exact H1|exact H2].
Defined.

(** A message whose number is zero - a number like any other - comes first in the cache, and is taken for none: no challenge is sent while it is recent. *)
Example zero_message_no_challenge : sendConnectionChallenge (meet_env 1 {[2]}) 9 (private_lobby 1 {[0 := 4990; 5 := 4990]}) = [].
Proof. vm_compute. reflexivity. Qed.

(** The twelfth message within ten seconds is not sent to anyone, though it is said to be sent and goes into the history. *)
Fixpoint say_often (n : nat) (s : DistributedChatService) : option (list chat_out * bool) :=
  let E := mk_chat_env 5000 1 {[2]} (fun _ => 1) (fun _ => Some ([65], 10)) [8] (fun _ => true) (fun _ => true) (fun _ => None) (fun _ => Some [1])
    (fun _ => 100) (fun _ => seqZ 1 20) [] in
  '(s, out, r) ← sendLobbyChat E 9 [72; 105] s;
  match n with O => Some (out, r) | S n => say_often n s end.

Definition lobby_with_friend : DistributedChatService :=
  new_ChatService <| _chat_lobbys := {[9 := new_entry (meet_env 1 ∅) 9 [76] [84] 0 8 {[2]}]} |>.

Example throttled_message_lost : say_often 11 lobby_with_friend = Some ([AddMessage 9 8 5000 [72; 105]; PostMessage 9 8 5000 [72; 105]], true).
Proof. vm_compute. reflexivity. Qed.
