(* ===== verification/LobbySave.v ===== *)
(** * Chat lobbies: what is saved comes back

    The flags of lobbies, the lobbies one takes part in and the identities are written to the configuration, identities and the numbers of
    lobbies as text, and read from it when the program starts. *)

From S2P Require Import Prelude RsExpr Lobby.
From Stdlib Require Import ZArith Lia SpecFloat.
From stdpp Require Import base list gmap sorting.
Open Scope Z_scope.

(** ** Hexadecimal text *)

Lemma hex_nibble_outl d : 0 <= d < 16 -> hex_nibble (outl d) = Some d.
Proof.
  intros Hd. unfold hex_nibble, outl. destruct (Z.ltb_spec d 10).
  - assert ((65 <=? 48 + d) && (48 + d <=? 70) = false) as -> by lia. assert ((97 <=? 48 + d) && (48 + d <=? 102) = false) as -> by lia.
    assert ((48 <=? 48 + d) && (48 + d <=? 57) = true) as -> by lia. f_equal. lia.
  - assert ((65 <=? 87 + d) && (87 + d <=? 70) = false) as -> by lia. assert ((97 <=? 87 + d) && (87 + d <=? 102) = true) as -> by lia. f_equal. lia.
Qed.

Lemma nibbles b : is_byte b -> 0 <= Z.shiftr b 4 < 16 /\ 0 <= Z.land b 15 < 16 /\ 16 * Z.shiftr b 4 + Z.land b 15 = b.
Proof.
  intros Hb. unfold is_word in Hb. rewrite Z.shiftr_div_pow2 by lia. change 15 with (Z.ones 4). rewrite Z.land_ones by lia.
  change (2 ^ 4) with 16. change (2 ^ 8) with 256 in Hb. pose proof (Z.div_mod b 16). pose proof (Z.mod_pos_bound b 16). nia.
Qed.

Lemma hash_toStdString_cons b l : hash_toStdString (b :: l) = outl (Z.shiftr b 4) :: outl (Z.land b 15) :: hash_toStdString l.
Proof. done. Qed.

Lemma hex_value_bytes l : forall acc, bytes_ok l -> hex_value (hash_toStdString l) acc = Some (fold_left (fun a b => a * 256 + b) l acc).
Proof.
  induction l as [|b l IH]; intros acc Hl; [done|]. apply Forall_cons in Hl as [Hb Hl]. destruct (nibbles b Hb) as (H1 & H2 & H3).
  rewrite hash_toStdString_cons. cbn [hex_value fold_left]. rewrite !hex_nibble_outl by done. rewrite IH by done. do 2 f_equal. lia.
Qed.

Lemma hex_prefix_bytes l : forall acc, bytes_ok l -> hex_prefix (hash_toStdString l) acc = fold_left (fun a b => a * 256 + b) l acc.
Proof.
  induction l as [|b l IH]; intros acc Hl; [done|]. apply Forall_cons in Hl as [Hb Hl]. destruct (nibbles b Hb) as (H1 & H2 & H3).
  rewrite hash_toStdString_cons. cbn [hex_prefix fold_left]. rewrite !hex_nibble_outl by done. rewrite IH by done. f_equal. lia.
Qed.

Lemma hex_value_be l : bytes_ok l -> hex_value (hash_toStdString l) 0 = Some (be_val l).
Proof. exact (hex_value_bytes l 0). Qed.

Lemma hex_prefix_be l : bytes_ok l -> hex_prefix (hash_toStdString l) 0 = be_val l.
Proof. exact (hex_prefix_bytes l 0). Qed.

Lemma length_hash_text l : length (hash_toStdString l) = (2 * length l)%nat.
Proof. induction l as [|b l IH]; [done|]. rewrite hash_toStdString_cons. cbn [length]. lia. Qed.

(** An identity is read as it was written. *)
Lemma id_of_text id : is_word 128 id -> RsGxsId_of_string (hash_toStdString (be_bytes 16 id)) = id.
Proof.
  intros Hid. unfold RsGxsId_of_string. rewrite decide_True by (by rewrite length_hash_text, length_be_bytes).
  rewrite hex_value_be by apply be_bytes_ok. cbn [default]. rewrite be_val_bytes. apply Z.mod_small, Hid.
Qed.

Lemma outl_range d : 0 <= d < 16 -> 48 <= outl d <= 57 \/ 97 <= outl d <= 102.
Proof. intros Hd. unfold outl. destruct (Z.ltb_spec d 10); lia. Qed.

(** So is the number of a lobby. *)
Lemma lobby_of_text L : is_word 64 L -> read_hex64 (hash_toStdString (be_bytes 8 L)) = L.
Proof.
  intros HL. pose proof (be_bytes_ok 8 L) as Hok. pose proof (length_be_bytes 8 L) as Hlen. pose proof (be_val_bytes 8 L) as Hv.
  rewrite Z.mod_small in Hv by exact HL. destruct (be_bytes 8 L) as [|b l] eqn:Eb; [done|]. pose proof Hok as Hok'. apply Forall_cons in Hok' as [Hb _].
  destruct (nibbles b Hb) as (H1 & H2 & _). pose proof (outl_range _ H1) as R1. pose proof (outl_range _ H2) as R2.
  unfold read_hex64. rewrite hash_toStdString_cons. cbn [skip_spaces].
  assert (is_space (outl (Z.shiftr b 4)) = false) as -> by (unfold is_space; lia).
  assert ((outl (Z.shiftr b 4) =? 45) = false) as -> by lia. assert ((outl (Z.shiftr b 4) =? 43) = false) as -> by lia.
  assert (skip_0x (outl (Z.shiftr b 4) :: outl (Z.land b 15) :: hash_toStdString l) = hash_toStdString (b :: l)) as ->.
  { cbn [skip_0x]. assert ((outl (Z.land b 15) =? 120) || (outl (Z.land b 15) =? 88) = false) as -> by lia. by rewrite andb_false_r. }
  rewrite hex_prefix_be, Hv by done.
  unfold is_word in HL. by rewrite (proj2 (Z.leb_gt _ _)) by lia.
Qed.

(** ** A pass that sets each key of a map *)

Lemma fold_set_out {A B} (f : Z -> A -> option B -> B) (l : list (Z * A)) : forall (m0 : gmap Z B) k, k ∉ l.*1 ->
  foldl (fun acc x => <[x.1 := f x.1 x.2 (acc !! x.1)]> acc) m0 l !! k = m0 !! k.
Proof.
  induction l as [|[k' v] l IH]; intros m0 k Hk; [done|]. cbn in *. rewrite elem_of_cons in Hk. rewrite IH by tauto. by rewrite lookup_insert_ne by (intros ->; tauto).
Qed.

Lemma fold_set_in {A B} (f : Z -> A -> option B -> B) (l : list (Z * A)) : forall (m0 : gmap Z B) k v, NoDup l.*1 -> (k, v) ∈ l ->
  foldl (fun acc x => <[x.1 := f x.1 x.2 (acc !! x.1)]> acc) m0 l !! k = Some (f k v (m0 !! k)).
Proof.
  induction l as [|[k' v'] l IH]; intros m0 k v Hn Hin; [by apply elem_of_nil in Hin|]. cbn in *. apply NoDup_cons in Hn as [Hk Hn].
  apply elem_of_cons in Hin as [Heq|Hin].
  - injection Heq as <- <-. by rewrite fold_set_out, lookup_insert_eq.
  - rewrite (IH _ k v) by done. rewrite lookup_insert_ne; [done|]. intros ->. apply Hk, list_elem_of_fmap. by exists (k, v).
Qed.

Lemma fold_set {A B} (f : Z -> A -> option B -> B) (m : gmap Z A) (m0 : gmap Z B) k :
  foldl (fun acc x => <[x.1 := f x.1 x.2 (acc !! x.1)]> acc) m0 (in_order m) !! k = match m !! k with Some v => Some (f k v (m0 !! k)) | None => m0 !! k end.
Proof.
  destruct (m !! k) as [v|] eqn:E.
  - apply fold_set_in; [apply in_order_keys|]. by apply (elem_of_in_order _ (k, v)).
  - apply fold_set_out. intros (x & -> & Hx)%list_elem_of_fmap. apply elem_of_in_order in Hx. congruence.
Qed.

(** ** Loading what was saved *)

Section load.
Context (E : chat_env).

Lemma load_app l1 l2 s : load E (l1 ++ l2) s = load E l2 (load E l1 s).
Proof. apply foldl_app. Qed.

Lemma load_flags l : forall s, load E ((fun x => RsChatLobbyConfigItem x.1 x.2) <$> l) s =
  s <| _known_lobbies_flags := foldl (fun acc x => <[x.1 := x.2]> acc) (_known_lobbies_flags s) l |>.
Proof. unfold load. induction l as [|x l IH]; intros s; [by destruct s|]. cbn [fmap list_fmap foldl]. rewrite IH. done. Qed.

(** The entry made of a lobby that was saved. *)
Definition loaded (i : ChatLobbyInfo) : ChatLobbyEntry :=
  mk_LobbyEntry (i <| last_activity := now E |>) ∅ (makeVirtualPeerId (lobby_id i)) 0 (now E) false (now E) ∅.

Lemma load_one i s : _chat_lobbys s !! lobby_id i = None -> let s' := (processLoadListItem E (RsSubscribedChatLobbyConfigItem i) s).1.1 in
  _chat_lobbys s' = <[lobby_id i := loaded i]> (_chat_lobbys s) /\
  _known_lobbies_flags s' = <[lobby_id i := Z.lor (default 0 (_known_lobbies_flags s !! lobby_id i)) RS_CHAT_LOBBY_FLAGS_AUTO_SUBSCRIBE]> (_known_lobbies_flags s) /\
  _lobby_default_identity s' = _lobby_default_identity s.
Proof.
  intros Hl. cbn. match goal with |- context [load_lobby E i ?s1] => set (s0 := s1) end.
  assert (H0 : _chat_lobbys s0 = _chat_lobbys s /\ _known_lobbies_flags s0 = _known_lobbies_flags s /\ _lobby_default_identity s0 = _lobby_default_identity s)
    by (unfold s0; repeat case_match; done).
  destruct H0 as (H1 & H2 & H3). unfold load_lobby. rewrite H1, Hl. cbn. by rewrite H2.
Qed.

Lemma load_lobbys l : forall s, NoDup l.*1 -> (forall x, x ∈ l -> lobby_id (info x.2) = x.1 /\ _chat_lobbys s !! x.1 = None) ->
  let s' := load E ((fun x => RsSubscribedChatLobbyConfigItem (info x.2)) <$> l) s in
  _chat_lobbys s' = foldl (fun acc x => <[x.1 := loaded (info x.2)]> acc) (_chat_lobbys s) l /\
  _known_lobbies_flags s' = foldl (fun acc x => <[x.1 := Z.lor (default 0 (acc !! x.1)) RS_CHAT_LOBBY_FLAGS_AUTO_SUBSCRIBE]> acc) (_known_lobbies_flags s) l /\
  _lobby_default_identity s' = _lobby_default_identity s.
Proof.
  induction l as [|[k e] l IH]; intros s Hn Hl; [done|]. cbn [fmap list_fmap foldl fst snd] in *. apply NoDup_cons in Hn as [Hk Hn].
  destruct (Hl (k, e) (list_elem_of_here _ _)) as [Hid Hnone]. cbn in Hid, Hnone. rewrite <- Hid in Hnone.
  destruct (load_one (info e) s Hnone) as (H1 & H2 & H3).
  change (load E (RsSubscribedChatLobbyConfigItem (info e) :: ((fun x => RsSubscribedChatLobbyConfigItem (info x.2)) <$> l)) s) with
    (load E ((fun x => RsSubscribedChatLobbyConfigItem (info x.2)) <$> l) (processLoadListItem E (RsSubscribedChatLobbyConfigItem (info e)) s).1.1).
  destruct (IH (processLoadListItem E (RsSubscribedChatLobbyConfigItem (info e)) s).1.1 Hn) as (I1 & I2 & I3).
  { intros x Hx. destruct (Hl x (list_elem_of_further _ _ _ Hx)) as [Hxi Hxn]. split; [done|]. rewrite H1, Hid, lookup_insert_ne; [done|].
    intros ->. apply Hk, list_elem_of_fmap. by exists x. }
  rewrite Hid in H1, H2. rewrite <- H1, <- H2, <- H3. done.
Qed.

Lemma load_lobby_ids l : forall s, (forall x, x ∈ l -> is_word 64 x.1 /\ x.1 <> 0 /\ is_word 128 x.2 /\ x.2 <> 0) ->
  load E ((fun x => RsConfigKeyValueSet [(strldID ++ hash_toStdString (be_bytes 8 x.1), hash_toStdString (be_bytes 16 x.2))]) <$> l) s =
  s <| _lobby_default_identity := foldl (fun acc x => <[x.1 := x.2]> acc) (_lobby_default_identity s) l |>.
Proof.
  induction l as [|[k id] l IH]; intros s Hl; [by destruct s|]. destruct (Hl (k, id) (list_elem_of_here _ _)) as (H1 & H2 & H3 & H4). cbn [fst snd] in *.
  cbn [fmap list_fmap foldl fst snd].
  transitivity (load E ((fun x => RsConfigKeyValueSet [(strldID ++ hash_toStdString (be_bytes 8 x.1), hash_toStdString (be_bytes 16 x.2))]) <$> l)
    (s <| _lobby_default_identity := <[k := id]> (_lobby_default_identity s) |>)).
  - unfold load. cbn [foldl]. f_equal. unfold processLoadListItem, load_pairs.
    rewrite decide_False by (intros Heq; apply (f_equal (take 1)) in Heq; by rewrite take_app_le in Heq by (vm_compute; lia)).
    rewrite take_app_length, decide_True, drop_app_length by done. rewrite lobby_of_text, id_of_text by done. rewrite bool_decide_true; [done|].
    split; [|done]. intros Heq. apply (f_equal length) in Heq. rewrite length_hash_text, length_be_bytes in Heq. done.
  - rewrite IH; [done|]. intros x Hx. by apply Hl, list_elem_of_further.
Qed.

(** C36 What is saved comes back.  When the state's identities and numbers are of their widths and not null, loading what was saved
    into a new service gives the lobbies one takes part in, with their names, topics, flags, friends, identities and participants as they were; the flags
    of every lobby, with auto-subscription on for these; the default identity; and the identity of each lobby. *)
Theorem lobby_settings_roundtrip s : (forall L l, _chat_lobbys s !! L = Some l -> lobby_id (info l) = L) -> is_word 128 (_default_identity s) ->
  (forall L id, _lobby_default_identity s !! L = Some id -> is_word 64 L /\ L <> 0 /\ is_word 128 id /\ id <> 0) ->
  let s' := load E (addToSaveList s) new_ChatService in
  (forall L, _chat_lobbys s' !! L = (fun l => loaded (info l)) <$> _chat_lobbys s !! L) /\
  (forall L, _known_lobbies_flags s' !! L =
     match _chat_lobbys s !! L with
     | Some _ => Some (Z.lor (default 0 (_known_lobbies_flags s !! L)) RS_CHAT_LOBBY_FLAGS_AUTO_SUBSCRIBE)
     | None => _known_lobbies_flags s !! L
     end) /\
  _default_identity s' = _default_identity s /\ _lobby_default_identity s' = _lobby_default_identity s.
Proof.
  intros Hid Hdef Hids. unfold addToSaveList. rewrite !load_app, load_flags.
  match goal with |- context [load E ((fun x => RsSubscribedChatLobbyConfigItem (info x.2)) <$> _) ?s0] => set (s1 := s0) end.
  destruct (load_lobbys (in_order (_chat_lobbys s)) s1 (in_order_keys _)) as (C1 & C2 & C3).
  { intros [L l] Hx%elem_of_in_order. cbn in *. split; [by apply Hid|apply lookup_empty]. }
  set (s2 := load E _ s1) in *. set (s3 := load E [RsConfigKeyValueSet [_]] s2).
  assert (H3 : s3 = s2 <| _default_identity := _default_identity s |>).
  { unfold s3, load. cbn [foldl]. unfold processLoadListItem, load_pairs. rewrite decide_True by done. rewrite decide_False, id_of_text; [done|done|].
    intros Heq. apply (f_equal length) in Heq. rewrite length_hash_text, length_be_bytes in Heq. done. }
  rewrite load_lobby_ids.
  2: { intros [L id] Hx%elem_of_in_order. by apply Hids. }
  rewrite H3. cbn. rewrite C1, C2, C3. split; [|split; [|split; [done|]]].
  - intros L. rewrite (fold_set (fun _ v _ => loaded (info v))). destruct (_chat_lobbys s !! L); [done|]. apply lookup_empty.
  - intros L. rewrite (fold_set (fun _ _ o => Z.lor (default 0 o) RS_CHAT_LOBBY_FLAGS_AUTO_SUBSCRIBE)).
    unfold s1. cbn. rewrite (fold_set (fun _ v _ => v)), lookup_empty. by destruct (_chat_lobbys s !! L), (_known_lobbies_flags s !! L).
  - apply map_eq. intros L. rewrite (fold_set (fun _ v _ => v)). destruct (_lobby_default_identity s !! L); [done|]. apply lookup_empty.
Qed.

End load.

(** Two lobbies, one of them joined, with an identity each. *)
Definition save_env : chat_env :=
  mk_chat_env 5000 1 ∅ (fun _ => 1) (fun _ => None) [] (fun _ => false) (fun _ => true) (fun _ => None) (fun _ => None) (fun _ => 100) (fun _ => []) [].

Definition save_state : DistributedChatService :=
  new_ChatService <| _chat_lobbys := {[9 := new_entry save_env 9 [76] [84] 4 8 {[2; 3]}]} |> <| _known_lobbies_flags := {[9 := 0; 10 := 1]} |>
    <| _default_identity := 2 ^ 127 + 5 |> <| _lobby_default_identity := {[9 := 8; 2 ^ 63 + 12 := 7]} |>.

Lemma lobby_settings_roundtrip_witness : (lobby_name ∘ info <$> _chat_lobbys (load save_env (addToSaveList save_state) new_ChatService) !! 9) = Some [76] /\
  _lobby_default_identity (load save_env (addToSaveList save_state) new_ChatService) !! (2 ^ 63 + 12) = Some 7.
Proof.
  destruct (lobby_settings_roundtrip save_env save_state) as (H1 & _ & _ & H2).
  - intros L l H. cbn in H. apply lookup_singleton_Some in H as [<- <-]. reflexivity.
  - vm_compute. split; [discriminate|reflexivity].
  - intros L id H. cbn in H. apply lookup_insert_Some in H as [[<- <-]|[_ H]]; [|apply lookup_singleton_Some in H as [<- <-]];
      vm_compute; repeat split; discriminate.
  - split; [rewrite H1|rewrite H2]; vm_compute; reflexivity.
Defined.
